(* ===== verification/_CoqProject ===== *)
-Q . S2P
Prelude.v
BTree.v
Utf8.v
Numeric.v
Json.v
JsonFacts.v
PyText.v
TextFacts.v
Secret.v
Model.v
Plan.v
PlanFacts.v
Planner.v
TopoFacts.v
PlannerFacts.v
IpAddr.v
IpAddrFacts.v
Toml.v
TomlFacts.v
Config.v
ConfigProps.v
Errors.v
Journal.v
JournalFacts.v
Store.v
Engine.v
EngineFacts.v
EngineCommands.v
EngineProps.v
OwnedFacts.v
IndexMap.v
StdNet.v
AwgNet.v
AwgNetFacts.v
Difflib.v
DifflibFacts.v
AwgKeys.v
Obfuscation.v
ObfuscationFacts.v
GenerateFacts.v
AwgConfig.v
AwgConfigFacts.v
Effect.v
AwgService.v
AwgPeers.v
AwgRequests.v
AwgSupervise.v
AwgSample.v
AwgStart.v
AwgServiceProps.v
PyIp.v
RoutingNet.v
RoutingModel.v
RoutingDocument.v
RoutingCompiler.v
RoutingLaneFacts.v
RoutingCompileFacts.v
RoutingSample.v
RoutingProps.v
RoutingMieru.v
RoutingDocumentProps.v
RouterIp.v
RouterIntent.v
RouterFacts.v
RouterRender.v
RouterRoute.v
RouterIpFacts.v
RouterNormal.v
RouterRenderProps.v
RouterWarp.v
RouterNode.v
RouterService.v
RouterFrame.v
RouterHistory.v
RouterCommit.v
RouterNodeSample.v
Geodata.v
GeodataFacts.v
Qr.v
QrFacts.v
