(* ===== verification/Prelude.v ===== *)
(** * Proxy Control, verified: the installer's transactions, the AmneziaWG manager, the routing from policy to Xray

    Proxy Control installs and runs a set of proxy services on a host. Its installer reads a TOML
    configuration, composes a plan of secret-free actions from adapters, lets the operator approve the
    plan by its digest, and carries it out as a journalled transaction that survives a crash. On the
    host a manager per protocol keeps the users of its service; the AmneziaWG manager is one. The panel
    compiles an operator's routing policy to the document of the backend that runs it; on the host the
    Xray-router manager checks that document, renders the configuration Xray runs, and replaces the
    running process generation by generation. This library is a model of these parts, definition by definition, with the theorems that make them correct.

    ** The program's parts and the files that model them

    Shared:
    - [Prelude]: [result], the notation of fallible code, byte strings, the string order.
    - [BTree]: [BTreeMap] and sorted maps as key-sorted association lists; [IndexMap]: maps that keep
      the order of insertion ([serde_json::Map] as the managers build it).
    - [Utf8]: characters as code points, UTF-8 encoding and decoding ([chars], [of_chars]).
    - [Numeric]: integers to text and back, at the widths the code uses ([parse_i64], [fmt_Z], ...).
    - [Effect]: the state-and-error monad of the services and its postcondition logic.
    - [Json] ([pc_common/src/json.rs], [pc_host/src/json.rs]): JSON values, the writer with its
      options, Python's float layout, the integer range check. [JsonFacts]: the writer is injective and
      prefix-free, and what it writes passes the check.
    - [PyText] ([pc_common/src/pytext.rs], [pc_host/src/pytext.rs], [installer_core/src/pystr.rs]):
      Python's text functions. [TextFacts]: splitting, joining, prefixes and hexadecimal digits.

    The installer:
    - [Secret] ([installer_core/src/secret.rs]): the scanners for secret assignments, and [redact].
    - [Model] ([installer_core/src/model.rs]): the typed configuration and its canonical dictionary.
    - [Plan] ([installer_core/src/planner.rs] up to the plan): facts, actions, evidence, releases, plans,
      their strict readers, canonical values and digests. [PlanFacts]: readers and writers are inverse,
      the digest binds the plan, the secret scan is complete.
    - [Planner] (the rest of [planner.rs]): the topological sort, [build_plan], the adapters and Compose
      files a configuration selects. [TopoFacts], [PlannerFacts]: the sort is sound, complete and
      refuses only real cycles; what [build_plan] returns, exactly, and that it reads back.
    - [IpAddr] ([installer_core/src/ipaddr.rs]) and [IpAddrFacts]: IPv4 and IPv6 texts, exact both ways.
    - [Toml] ([installer_core/src/toml.rs]): the TOML reader. [TomlFacts]: it answers on every text,
      and integers of any size are exact.
    - [Config] ([installer_core/src/config.rs]): [parse_config] with every section and cross check, the
      port tables, [render_config]. [ConfigProps]: no panic, what an accepted
      configuration guarantees, which ports the tables hold.
    - [Errors] ([pc_host/src/error.rs], [pc_host/src/runner/mod.rs], [installer/src/error.rs]).
    - [Journal] ([installer/src/journal.rs]) and [JournalFacts]: the journal's records, strict reader
      and writer, the union of ownership.
    - [Store] ([installer/src/store.rs]): the journal files over a world of files, a host and a log.
    - [Engine] ([installer/src/engine.rs], [installer/src/adapter.rs], parts of [pc_host/src/fs.rs]):
      [apply], [resume], [repair], [uninstall]. [EngineFacts]: the rules of a postcondition logic for
      [Store]'s monad and, with [EngineCommands], the invariants of the loops;
      [EngineProps]: a host and adapters to run, and the theorems; [OwnedFacts]: ownership.

    The AmneziaWG manager ([awg_manager/src]):
    - [StdNet]: the standard library's IPv6 reader; [AwgNet] ([ipnet.rs]) and [AwgNetFacts]: IPv4
      networks are sets of addresses.
    - [AwgKeys] ([keys.rs], and a base64 to instantiate the parameter with).
    - [Obfuscation] ([obfuscation.rs]): parameters, their validation and generation over a random
      source. [ObfuscationFacts], [GenerateFacts]: the CPS grammar, no panic, what
      is generated is valid and the loops end.
    - [AwgConfig] ([config.rs], [util.rs]) and [AwgConfigFacts]: the environment.
    - [AwgService] ([service.rs], [state.rs], [pyjson.rs]): start, supervision, reconciliation and the
      peer requests over the stored document and a machine ([Host]). [AwgPeers]: nothing but
      [commit] changes the document, the invariant of the peers and the transitions that keep it;
      [AwgRequests], [AwgSupervise]: every request and the supervision; [AwgSample]: a machine to run;
      [AwgStart]: the first start and the state file's text;
      [AwgServiceProps]: the theorems over histories of requests.

    The panel's routing ([panel/crates/routing/src], [panel/crates/model/src/routing]):
    - [PyIp] ([panel/crates/core/src/pytext/ip.rs]): addresses, their texts and classes.
    - [RoutingNet] (both [net.rs]): networks, the private ranges.
    - [RoutingModel] ([models.rs], the targets of [protocols.rs]), [RoutingDocument] ([document.rs],
      [pyrepr.rs]), [Difflib] ([difflib.rs]) with [DifflibFacts]: the diff is an edit script.
    - [RoutingCompiler] ([compiler.rs], [intent.rs]): [compile], [explain]; what the compiler asks of
      the service is a lookup over a state. [RoutingLaneFacts]: what a check without a reason
      establishes; [RoutingCompileFacts]: the document read back, how a supported answer came
      about; [RoutingSample]: a node; [RoutingProps], [RoutingMieru],
      [RoutingDocumentProps]: the theorems.

    The Xray-router manager ([xray_router_manager/src]):
    - [RouterIp] ([ipaddr.rs]) and [RouterIpFacts]: its own port of Python's addresses and networks.
    - [RouterIntent] ([intent.rs], [errors.rs], parts of [util.rs], [pc_common/src/pyvalue.rs]): the
      validation of a service's document in both schemas, redaction, the provider's URL. [RouterFacts]:
      what an accepted document looks like; [RouterNormal]: it is a normal form.
    - [RouterRender] ([render.rs]): the Xray configuration. [RouterRoute]: the tags of what is
      rendered, how Xray reads rules; [RouterRenderProps]: what a document asks for, read on its own, what
      Xray's documentation says of the fields, and the theorems.
    - [RouterWarp] ([warp.rs]): the WARP account. [RouterNode]: the manager's state files, inner cells
      and the machine under it ([Machine]), every call that leaves the manager an event of a trace.
    - [RouterService] ([service.rs]): start and recovery, the swap of generations with its fallback, the
      commit, apply, rollback, verify, lanes, relay, exit tests, the watchdog, health. [RouterFrame]:
      what each operation leaves alone; [RouterHistory]: the states a manager reaches through requests,
      turns of the watchdog, restarts and crashes at any write, their invariant and its two theorems;
      [RouterCommit]: what a commit leaves, how a refused request ends; [RouterNodeSample]: a node to run,
      with a reader of the texts the manager writes.
    - [Geodata] ([geodata.rs] without its store, [https.rs] up to the sockets): sources, the codes of a
      protobuf list, URLs and redirects, the download of a pair. [GeodataFacts]: the codes of an encoded
      list are read back, no file is read past its end, a download is bounded.

    The panel's QR codes ([panel/crates/protocols/src]):
    - [Qr] ([qr.rs]): segments, version, score and choice of the mask, the SVG. [QrFacts]: the segments
      are the data, the version is the smallest, the first three levels of the score are the standard's,
      the mask is the first of the lowest score, the picture determines the matrix.

    ** How the model relates to the code

    A function of the code is a definition of the same name; [Result] is [result] with the code's error
    type and message; a struct is a record, an enum an inductive type. Stateful code is explicit: the
    TOML parser passes positions, the engine is in the monad [M] over a [World] of the four journal
    files, the host and the log of writes and adapter calls, the services are in [Eff]. Fixed-width
    integers are [Z] or [N] with the casts and overflow panics written out where they can happen
    ([lane_slot_port], [shl128]). A panic is a value ([Config.Panic], [Panicked]), so that its absence
    is a theorem.

    ** What the theorems show

    - The engine is write-ahead: every call of an adapter is announced by the journal on disk. [apply],
      [resume], [repair] and [uninstall] end in the states their contract names, on success and on
      failure, for every behaviour of the adapters and of the disk; rollback undoes in reverse order.
    - What the engine persists and what the planner builds read back as they were written; the journal's
      strict reader accepts exactly what its writer writes, up to optional keys left null.
    - The plan is composed in dependency order, refused only for the reasons the code names, free of
      secrets, and bound by its digest.
    - The configuration reader terminates, never panics, and accepts only configurations whose sections
      agree and whose listeners are apart.
    - Every request of the AmneziaWG manager is a transaction on its document, whatever the machine and
      the disk do: what its body asks is stored and answered, or nothing is; over every history no two
      peers share an address or a key; a repeated request is recognised; the first start ends, in a
      state that serves but for a directory, overrides or a write that fail; generated parameters are valid.
    - The routing compiler answers on every policy; what the router is given is the policy, lane by
      lane, selector by selector, with every egress resolved; what Mieru is given decides as the panel explains; no accepted
      policy opens a private network; a withdrawn lane takes nothing from the others; the secrets of a
      diff are masked, up to the quotation mark the masking stops at.
    - Over every history of the Xray-router manager there is one Xray process at a time, and
      [current.json] names a configuration that was tested and came up; an answered apply is applied,
      a request refused for another reason than the disk ends in one of the ways the manager can recover
      from, with [current.json] and the journal as they were.
    - The Xray configuration runs the documents it is rendered from, private destinations first, where no
      rule names both names and addresses ([mixed_rule_differs]); every outbound a rule or a hop names is in it, and no two share a name; the validator's answers are
      normal forms.
    - The router's lists give exactly the codes they carry, and a download of them sends a bounded number
      of requests over HTTPS only; a QR code has the smallest version.

    ** Bounds and fuel

    [check_integer_range] takes the length of the text ([range_scan_enough]); the sort loop takes the
    number of adapters; the TOML parser takes one more than the document's length for each loop, and
    every turn moves forward ([loads_answers]). The draws of [Obfuscation] take any fuel and end for a
    fair source ([generate_valid], [first_start]); the CPS scan, [chunks] and [redact_chars] take the length of what
    they consume; [Geodata] takes the length of what it reads, and 38 requests for a download
    ([fetch_bounded]); [Qr] takes lengths, and three turns for the three size classes
    ([best_fit_smallest]); [Difflib] takes the lengths of its two sequences ([diff_is_edit_script]). No theorem
    is conditional on fuel.

    ** Parameters

    Code outside the repository is a class or an argument: SHA-256 ([Sha256]), base64 ([Base64]), X25519
    ([X25519]), random bytes ([Rng]), serde_json's parser ([JsonParser]) and its display
    ([SerdeDisplay]), the shortest digits of a double ([FloatText]) and [str::parse::<f64>]
    ([FloatParse]), Unicode tables ([UnicodeText]), the file system and the lock ([Disk], [Paths]), the
    adapters, the machines under the AmneziaWG and
    the Xray-router manager ([Host], [Machine]), serde_json as the router uses it ([SerdeJson]; the
    histories need of it [ReadsGeneration]: the number of a generation is read back from the
    [current.json] it was written to), URL-safe base64 ([UrlBase64]), what sends a request ([send]), the [qrcode] crate ([QrCrate]), and the database behind the panel's
    lookups ([Options]). Xray is the hypothesis [xray_documented]: a rule applies when every field of it
    does, a list when one of its elements does, and the first rule that applies decides. [lowercase_law] says that a text without capitals is
    its own lower case.

    ** Not modelled

    The installer's adapters (they drive packages, nginx, firewalls and containers on the host), its
    command line, wizard and audit; of the AmneziaWG manager the egress calls, health, shutdown and HTTP
    routing; of the Xray-router manager the store of the geodata files (its update windows are floating-point
    seconds) and the requests on it, its HTTP server, sockets, network probes and process runner
    (behind [Machine]); of the panel's routing the service, its store, the relay lanes and custom exits (behind the
    compiler's lookups) and the validation of policies from the wire ([normalise_domain] is IDNA over
    Unicode tables; what the theorems need of it is a hypothesis on the policy); the other managers,
    the rest of the panel, the version agent, the MCP server and the network and process plumbing. The
    creation and synchronisation of directories is part of the outcomes of [Disk]. *)

From stdpp Require Export base tactics option list strings numbers sorting.
From Stdlib Require Export Lia ZifyBool ZifyN ZifyNat.

(** ** Notations of the development *)

Export Stdlib.Strings.Ascii.AsciiSyntax.
Delimit Scope char_scope with char.

Declare Scope pc_scope.
Delimit Scope pc_scope with pc.
Open Scope pc_scope.

(** ** Fallible code: Rust's [Result] *)

Inductive result (E A : Type) : Type :=
| Ok (a : A)
| Err (e : E).
Arguments Ok {E A} a.
Arguments Err {E A} e.

#[export] Instance result_ret {E} : MRet (result E) := fun A a => Ok a.
#[export] Instance result_bind {E} : MBind (result E) :=
  fun A B f m => match m with Ok a => f a | Err e => Err e end.
#[export] Instance result_fmap {E} : FMap (result E) :=
  fun A B f m => match m with Ok a => Ok (f a) | Err e => Err e end.

Section result.
Context {E A : Type}.

(** [Option::ok_or]. *)
Definition ok_or (o : option A) (e : E) : result E A :=
  match o with Some a => Ok a | None => Err e end.

(** [Result::map_err]. *)
Definition map_err {F} (f : E -> F) (r : result E A) : result F A :=
  match r with Ok a => Ok a | Err e => Err (f e) end.

(** [Result::ok]. *)
Definition ok (r : result E A) : option A :=
  match r with Ok a => Some a | Err _ => None end.

Definition is_ok (r : result E A) : bool :=
  match r with Ok _ => true | Err _ => false end.
End result.

(** [if !b { return Err(e) }]. *)
Definition ensure {E} (b : bool) (e : E) : result E unit := if b then Ok tt else Err e.

(** A [for] loop over a list whose body may return early with an error. *)
Fixpoint try_for {E A} (f : A -> result E unit) (l : list A) : result E unit :=
  match l with
  | [] => Ok tt
  | a :: l' => match f a with Ok _ => try_for f l' | Err e => Err e end
  end.

Notation "o 'or_err' e" := (ok_or o e) (at level 65, no associativity) : pc_scope.

#[export] Instance result_eq_dec {E A} `{EqDecision E} `{EqDecision A} : EqDecision (result E A).
Proof. solve_decision. Defined.

(** Case analysis of a chain of monadic binds that is known to have succeeded. *)
Lemma bind_Ok {E A B} (f : A -> result E B) (r : result E A) (b : B) :
  (r ≫= f) = Ok b -> exists a, r = Ok a /\ f a = Ok b.
Proof. destruct r as [a|e]; simpl; intros H; [by exists a|discriminate]. Qed.

Lemma Ok_inj {E A} (a b : A) : (Ok a : result E A) = Ok b -> a = b.
Proof. congruence. Qed.

Lemma bind_Ok_intro {E A B} (f : A -> result E B) (r : result E A) a (b : B) :
  r = Ok a -> f a = Ok b -> (r ≫= f) = Ok b.
Proof. by intros ->. Qed.

Lemma ensure_Ok {E} (b : bool) (e : E) u : ensure b e = Ok u -> b = true.
Proof. by destruct b. Qed.

Lemma ok_or_Ok {E A} (o : option A) (e : E) a : ok_or o e = Ok a -> o = Some a.
Proof. destruct o; simpl; congruence. Qed.

Lemma ensure_true {E} (b : bool) (e : E) : b = true -> ensure b e = Ok tt.
Proof. by intros ->. Qed.

Lemma try_for_Ok {E A} (f : A -> result E unit) (l : list A) :
  try_for f l = Ok tt <-> Forall (fun a => f a = Ok tt) l.
Proof.
  induction l as [|a l IH]; simpl; [split; [constructor|done]|].
  rewrite Forall_cons, <-IH. destruct (f a) as [[]|e]; [tauto|].
  split; [discriminate|intros [[=] _]].
Qed.

Lemma mapM_Ok_iff {E A B} (f : A -> result E B) (l : list A) (k : list B) :
  mapM f l = Ok k <-> Forall2 (fun a b => f a = Ok b) l k.
Proof.
  revert k. induction l as [|a l IH]; intros k; simpl.
  - split; [intros [= <-]; constructor|by inversion 1].
  - split.
    + destruct (f a) as [b|e] eqn:Hf; simpl; [|discriminate].
      destruct (mapM f l) as [bs|e] eqn:Hm; simpl; [|discriminate].
      intros [= <-]. constructor; [done|by apply IH].
    + intros H. inversion H as [|? b ? bs Hb Hbs]; subst.
      apply IH in Hbs. by rewrite Hb; simpl; rewrite Hbs.
Qed.

Lemma mapM_Ok_map {E A B} (f : A -> result E B) (g : B -> A) (l : list B) :
  Forall (fun b => f (g b) = Ok b) l -> mapM f (map g l) = Ok l.
Proof. intros H. apply mapM_Ok_iff. induction H; simpl; constructor; auto. Qed.

Ltac inv_binds :=
  repeat match goal with
  | H : (?r ≫= ?f) = Ok ?b |- _ =>
      let a := fresh "a" in let Hr := fresh "Hr" in
      apply bind_Ok in H as (a & Hr & H); cbn beta in H
  | H : mbind ?f ?r = Ok ?b |- _ =>
      let a := fresh "a" in let Hr := fresh "Hr" in
      apply bind_Ok in H as (a & Hr & H); cbn beta in H
  | H : ensure ?b ?e = Ok _ |- _ => apply ensure_Ok in H
  | H : ok_or ?o ?e = Ok _ |- _ => apply ok_or_Ok in H
  | u : unit |- _ => destruct u
  end.

(** ** Strings: a Rust [String] is its UTF-8 bytes *)

Notation "a '=?s' b" := (String.eqb a b) (at level 65, no associativity) : pc_scope.

Lemma eqb_s_true a b : (a =?s b) = true <-> a = b.
Proof. apply String.eqb_eq. Qed.
Lemma eqb_s_false a b : (a =?s b) = false <-> a <> b.
Proof. apply String.eqb_neq. Qed.
Lemma eqb_s_refl a : (a =?s a) = true.
Proof. apply String.eqb_refl. Qed.

(** [slice.contains(&text)]. *)
Definition mem_str (s : string) (l : list string) : bool := existsb (String.eqb s) l.

Lemma mem_str_true s l : mem_str s l = true <-> s ∈ l.
Proof.
  unfold mem_str. rewrite existsb_exists. setoid_rewrite eqb_s_true.
  rewrite list_elem_of_In. split; [by intros (x & ? & ->)|eauto].
Qed.

Definition str_empty (s : string) : bool := match s with EmptyString => true | _ => false end.

(** [items.join(sep)]. *)
Fixpoint join (sep : string) (l : list string) : string :=
  match l with
  | [] => EmptyString
  | [s] => s
  | s :: l' => s +:+ sep +:+ join sep l'
  end.

(** [s.repeat(n)]. *)
Fixpoint str_repeat (n : nat) (s : string) : string :=
  match n with O => EmptyString | S n' => s +:+ str_repeat n' s end.

(** The bytes of the quotation mark and of the line feed as strings. *)
Definition dq : string := String (Ascii.ascii_of_nat 34) EmptyString.
Definition nl : string := String (Ascii.ascii_of_nat 10) EmptyString.

Lemma app_nil_s (b : string) : EmptyString +:+ b = b.
Proof. reflexivity. Qed.
Lemma app_cons_s c (a b : string) : String c a +:+ b = String c (a +:+ b).
Proof. reflexivity. Qed.
Lemma app_assoc_s (a b c : string) : (a +:+ b) +:+ c = a +:+ (b +:+ c).
Proof. induction a as [|x a IH]; [done|]. by rewrite !app_cons_s, IH. Qed.
Lemma app_nil_r_s (a : string) : a +:+ EmptyString = a.
Proof. induction a as [|x a IH]; [done|]. by rewrite app_cons_s, IH. Qed.
Lemma app_inj_l_s (p a b : string) : p +:+ a = p +:+ b -> a = b.
Proof. induction p as [|x p IH]; [done|]. rewrite !app_cons_s. intros [= ?]; auto. Qed.

Lemma length_app_s (a b : string) : String.length (a +:+ b) = (String.length a + String.length b)%nat.
Proof. induction a as [|x a IH]; [done|]. rewrite app_cons_s. simpl. by rewrite IH. Qed.
Lemma cons_inj_s c (a b : string) : String c a = String c b -> a = b.
Proof. by intros [= H]. Qed.

(** *** Byte order, which is the code-point order of UTF-8 text *)

Definition str_ltb (a b : string) : bool :=
  match String.compare a b with Lt => true | _ => false end.

Lemma ascii_cmp_lt a b : Ascii.compare a b = Lt <-> (Ascii.N_of_ascii a < Ascii.N_of_ascii b)%N.
Proof. unfold Ascii.compare. by rewrite N.compare_lt_iff. Qed.
Lemma ascii_cmp_eq a b : Ascii.compare a b = Eq <-> a = b.
Proof.
  unfold Ascii.compare. rewrite N.compare_eq_iff. split; [|congruence].
  intros H. rewrite <-(Ascii.ascii_N_embedding a), <-(Ascii.ascii_N_embedding b). congruence.
Qed.

Lemma str_ltb_irrefl a : str_ltb a a = false.
Proof.
  unfold str_ltb. induction a as [|c a IH]; simpl; [done|].
  by rewrite (proj2 (ascii_cmp_eq c c) eq_refl).
Qed.

Lemma str_ltb_trans a b c : str_ltb a b = true -> str_ltb b c = true -> str_ltb a c = true.
Proof.
  unfold str_ltb. revert b c.
  induction a as [|x a IH]; intros [|y b] [|z c]; simpl; try done.
  destruct (Ascii.compare x y) eqn:Hxy, (Ascii.compare y z) eqn:Hyz; try done; intros H1 H2.
  - apply ascii_cmp_eq in Hxy as ->. rewrite Hyz. by apply (IH b).
  - apply ascii_cmp_eq in Hxy as ->. by rewrite Hyz.
  - apply ascii_cmp_eq in Hyz as ->. by rewrite Hxy.
  - apply ascii_cmp_lt in Hxy, Hyz.
    assert (Ascii.compare x z = Lt) as -> by (apply ascii_cmp_lt; by eapply N.lt_trans). done.
Qed.

Lemma str_ltb_total a b : str_ltb a b = false -> str_ltb b a = false -> a = b.
Proof.
  unfold str_ltb. intros H1 H2. apply String.compare_eq_iff.
  rewrite String.compare_antisym in H2.
  destruct (String.compare a b); simpl in *; congruence.
Qed.

Lemma str_ltb_asym a b : str_ltb a b = true -> str_ltb b a = false.
Proof.
  intros H. destruct (str_ltb b a) eqn:Hb; [|done].
  pose proof (str_ltb_trans _ _ _ H Hb) as Hc. by rewrite str_ltb_irrefl in Hc.
Qed.

Lemma str_ltb_ne a b : str_ltb a b = true -> a <> b.
Proof. intros H ->. by rewrite str_ltb_irrefl in H. Qed.
