(* ===== verification/BTree.v ===== *)
(** * Ordered maps

    Rust's [BTreeMap<String, V>] (and [serde_json::Map] without [preserve_order], which is the
    same structure) as the list of its entries in key order. Keys are compared as bytes. The
    operations keep [bsorted]; two sorted lists with the same lookups are equal, so equality of
    maps is equality of lists and iteration order is a function of the contents. *)

From S2P Require Import Prelude.

Abbreviation bmap V := (list (string * V)).

(** ** Sorting strings *)

(** [values.sort(); values.dedup()] of strings. *)
Fixpoint insert_str (s : string) (l : list string) : list string :=
  match l with
  | [] => [s]
  | x :: l' => if str_ltb x s then x :: insert_str s l' else s :: l
  end.
Definition sort_str (l : list string) : list string := foldr insert_str [] l.
Fixpoint dedup (l : list string) : list string :=
  match l with
  | x :: l' => match l' with y :: _ => if x =?s y then dedup l' else x :: dedup l' | [] => [x] end
  | [] => []
  end.

Section btree.
Context {V : Type}.
Implicit Types (m : bmap V) (k : string) (v : V).

(** [map.get(k)]. *)
Fixpoint bget k m : option V :=
  match m with
  | [] => None
  | (k', v') :: m' => if k =?s k' then Some v' else bget k m'
  end.

(** [map.contains_key(k)]. *)
Definition bhas k m : bool := match bget k m with Some _ => true | None => false end.

(** [map.insert(k, v)]. *)
Fixpoint bset k v m : bmap V :=
  match m with
  | [] => [(k, v)]
  | (k', v') :: m' =>
      if str_ltb k k' then (k, v) :: m
      else if str_ltb k' k then (k', v') :: bset k v m'
      else (k, v) :: m'
  end.

(** [map.keys()]. *)
Definition bkeys m : list string := map fst m.

(** [iter.collect::<BTreeMap<_, _>>()]: of two entries with one key the last wins. *)
Definition bcollect (l : list (string * V)) : bmap V :=
  fold_left (fun m kv => bset kv.1 kv.2 m) l [].

(** Strictly increasing keys. *)
Fixpoint bsorted m : bool :=
  match m with
  | [] => true
  | (k, _) :: m' =>
      match m' with
      | [] => true
      | (k', _) :: _ => str_ltb k k' && bsorted m'
      end
  end.

(** Every key of [m] is above [k]. *)
Definition babove k m : Prop := Forall (fun e => str_ltb k e.1 = true) m.

Lemma bsorted_cons k v m : bsorted ((k, v) :: m) = true <-> babove k m /\ bsorted m = true.
Proof.
  revert k v. induction m as [|[k' v'] m IH]; intros k v.
  - simpl. split; [split; [constructor|done]|done].
  - change (bsorted ((k, v) :: (k', v') :: m)) with (str_ltb k k' && bsorted ((k', v') :: m)).
    rewrite andb_true_iff, IH. split.
    + intros [Hlt [Hab Hs]]. split; [|done]. constructor; [done|].
      eapply Forall_impl; [exact Hab|]. simpl. intros [k0 v0] H0. by eapply str_ltb_trans.
    + intros [Hab [Hab' Hs]]. inversion Hab; subst. done.
Qed.

Lemma bsorted_tail e m : bsorted (e :: m) = true -> bsorted m = true.
Proof. destruct e as [k v]. rewrite bsorted_cons. tauto. Qed.

Lemma babove_get_None k m : babove k m -> bget k m = None.
Proof.
  induction 1 as [|[k' v'] m Hlt _ IH]; [done|]. simpl in *.
  assert (k =?s k' = false) as -> by (apply eqb_s_false; by apply str_ltb_ne). done.
Qed.

Lemma babove_trans k k' m : str_ltb k k' = true -> babove k' m -> babove k m.
Proof.
  intros Hlt H. eapply Forall_impl; [exact H|]. intros [k0 v0] H0. by eapply str_ltb_trans.
Qed.

Lemma babove_bset k k' v m : str_ltb k k' = true -> babove k m -> babove k (bset k' v m).
Proof.
  intros Hlt. induction 1 as [|[k0 v0] m H0 Hm IH]; simpl.
  - by repeat constructor.
  - destruct (str_ltb k' k0); [by repeat constructor|].
    destruct (str_ltb k0 k'); by constructor.
Qed.

Lemma bsorted_bset k v m : bsorted m = true -> bsorted (bset k v m) = true.
Proof.
  induction m as [|[k' v'] m IH]; [done|]. intros Hs. simpl.
  pose proof Hs as [Hab Hs']%bsorted_cons.
  destruct (str_ltb k k') eqn:H1; [|destruct (str_ltb k' k) eqn:H2].
  - apply bsorted_cons. split; [|done]. constructor; [done|]. by eapply babove_trans.
  - apply bsorted_cons. split; [by apply babove_bset|by apply IH].
  - assert (k = k') as -> by (by apply str_ltb_total). by apply bsorted_cons.
Qed.

Lemma bget_bset_eq k v m : bget k (bset k v m) = Some v.
Proof.
  induction m as [|[k' v'] m IH]; simpl; [by rewrite eqb_s_refl|].
  destruct (str_ltb k k') eqn:H1; [|destruct (str_ltb k' k) eqn:H2]; simpl.
  - by rewrite eqb_s_refl.
  - assert (k =?s k' = false) as ->; [|done].
    apply eqb_s_false. intros ->. by rewrite str_ltb_irrefl in H2.
  - by rewrite eqb_s_refl.
Qed.

Lemma bget_bset_ne k k' v m : k <> k' -> bget k (bset k' v m) = bget k m.
Proof.
  intros Hne. induction m as [|[k0 v0] m IH]; simpl; [by rewrite (proj2 (eqb_s_false k k') Hne)|].
  destruct (str_ltb k' k0) eqn:H1; [|destruct (str_ltb k0 k') eqn:H2]; simpl.
  - by rewrite (proj2 (eqb_s_false k k') Hne).
  - by rewrite IH.
  - assert (k' = k0) as <- by (by apply str_ltb_total). by rewrite (proj2 (eqb_s_false k k') Hne).
Qed.

Lemma bget_bset k k' v m : bget k (bset k' v m) = if k =?s k' then Some v else bget k m.
Proof.
  destruct (k =?s k') eqn:H.
  - apply eqb_s_true in H as ->. apply bget_bset_eq.
  - apply bget_bset_ne. by apply eqb_s_false.
Qed.

Lemma bget_Some_In k v m : bget k m = Some v -> (k, v) ∈ m.
Proof.
  induction m as [|[k' v'] m IH]; simpl; [done|].
  destruct (k =?s k') eqn:H; intros Hg.
  - apply eqb_s_true in H as ->. simplify_eq. apply list_elem_of_here.
  - apply list_elem_of_further. auto.
Qed.

Lemma bget_In k v m : bsorted m = true -> (k, v) ∈ m -> bget k m = Some v.
Proof.
  induction m as [|[k' v'] m IH]; intros Hs Hin; [by apply not_elem_of_nil in Hin|].
  apply bsorted_cons in Hs as [Hab Hs]. simpl.
  apply elem_of_cons in Hin as [[= -> ->]|Hin]; [by rewrite eqb_s_refl|].
  destruct (k =?s k') eqn:H; [|by apply IH].
  apply eqb_s_true in H as ->. unfold babove in Hab. rewrite Forall_forall in Hab.
  specialize (Hab _ Hin). simpl in Hab. by rewrite str_ltb_irrefl in Hab.
Qed.

Lemma bhas_true k m : bhas k m = true <-> k ∈ bkeys m.
Proof.
  unfold bhas, bkeys. induction m as [|[k' v'] m IH]; simpl.
  - split; [done|]. intros H. by apply not_elem_of_nil in H.
  - rewrite elem_of_cons, <-IH. destruct (k =?s k') eqn:H.
    + apply eqb_s_true in H. tauto.
    + apply eqb_s_false in H. tauto.
Qed.

(** Sorted maps are determined by their lookups. *)
Lemma bmap_ext m1 m2 :
  bsorted m1 = true -> bsorted m2 = true -> (forall k, bget k m1 = bget k m2) -> m1 = m2.
Proof.
  revert m2. induction m1 as [|[k1 v1] m1 IH]; intros [|[k2 v2] m2] H1 H2 Heq; [done| | |].
  - specialize (Heq k2). simpl in Heq. by rewrite eqb_s_refl in Heq.
  - specialize (Heq k1). simpl in Heq. by rewrite eqb_s_refl in Heq.
  - apply bsorted_cons in H1 as [Ha1 Hs1], H2 as [Ha2 Hs2].
    assert (k1 = k2) as <-.
    { apply str_ltb_total.
      - destruct (str_ltb k1 k2) eqn:Hlt; [|done]. specialize (Heq k1). simpl in Heq.
        rewrite eqb_s_refl, (proj2 (eqb_s_false k1 k2)) in Heq by (by apply str_ltb_ne).
        by rewrite babove_get_None in Heq by (by eapply babove_trans).
      - destruct (str_ltb k2 k1) eqn:Hlt; [|done]. specialize (Heq k2). simpl in Heq.
        rewrite eqb_s_refl, (proj2 (eqb_s_false k2 k1)) in Heq by (by apply str_ltb_ne).
        by rewrite babove_get_None in Heq by (by eapply babove_trans). }
    assert (v1 = v2) as <-.
    { specialize (Heq k1). simpl in Heq. rewrite eqb_s_refl in Heq. congruence. }
    f_equal. apply IH; [done..|]. intros k. specialize (Heq k). simpl in Heq.
    destruct (k =?s k1) eqn:H; [|done]. apply eqb_s_true in H as ->.
    by rewrite !babove_get_None.
Qed.

(** Inserting above every key appends. *)
Lemma bset_app k v m :
  Forall (fun e => str_ltb e.1 k = true) m -> bset k v m = m ++ [(k, v)].
Proof.
  induction 1 as [|[k' v'] m Hlt _ IH]; [done|]. simpl in *.
  rewrite (str_ltb_asym _ _ Hlt), Hlt. by rewrite IH.
Qed.

Lemma fold_bset_sorted l m :
  bsorted l = true ->
  Forall (fun e => Forall (fun e' => str_ltb e'.1 e.1 = true) m) l ->
  fold_left (fun m kv => bset kv.1 kv.2 m) l m = m ++ l.
Proof.
  revert m. induction l as [|[k v] l IH]; intros m Hs Hall; simpl; [by rewrite app_nil_r|].
  apply bsorted_cons in Hs as [Hab Hs]. inversion Hall as [|? ? Hm Hall']; subst. simpl in *.
  rewrite bset_app by done. rewrite IH; [by rewrite <-app_assoc|done|].
  apply Forall_forall. intros e He. apply Forall_app. split.
  - by eapply Forall_forall in Hall'; [|exact He].
  - constructor; [|constructor]. unfold babove in Hab. rewrite Forall_forall in Hab. by apply Hab.
Qed.

(** Collecting the entries of a map gives the map back. *)
Lemma bcollect_sorted m : bsorted m = true -> bcollect m = m.
Proof.
  intros Hs. unfold bcollect. rewrite fold_bset_sorted; [done..|].
  apply Forall_forall. intros; constructor.
Qed.

Lemma bsorted_fold l m :
  bsorted m = true -> bsorted (fold_left (fun m kv => bset kv.1 kv.2 m) l m) = true.
Proof. revert m. induction l as [|[k v] l IH]; intros m Hm; [done|]. apply IH. by apply bsorted_bset. Qed.

Lemma bsorted_bcollect l : bsorted (bcollect l) = true.
Proof. by apply bsorted_fold. Qed.

Lemma bsorted_NoDup m : bsorted m = true -> NoDup (bkeys m).
Proof.
  induction m as [|[k v] m IH]; [constructor|]. intros [Hab Hs]%bsorted_cons. simpl.
  constructor; [|by apply IH]. rewrite <-bhas_true. unfold bhas. by rewrite babove_get_None.
Qed.
End btree.

(** Looking up in a map collected from entries with distinct keys. *)
Lemma bget_fold {V} (l : list (string * V)) k : NoDup (map fst l) -> forall m : bmap V,
  bget k (fold_left (fun m kv => bset kv.1 kv.2 m) l m) =
  match find (fun e => e.1 =?s k) l with Some e => Some e.2 | None => bget k m end.
Proof.
  induction l as [|[k' v] l IH]; intros Hn m; [done|]. cbn [map] in Hn. apply NoDup_cons in Hn as [Hk Hn].
  cbn [fold_left find fst snd]. rewrite IH, bget_bset by done. rewrite String.eqb_sym.
  destruct (k' =?s k) eqn:H; [|done]. apply eqb_s_true in H as ->.
  destruct (find _ l) as [e|] eqn:Hf; [|done]. exfalso. apply find_some in Hf as [Hin Heq].
  apply eqb_s_true in Heq as <-. apply Hk. apply list_elem_of_fmap. exists e. split; [done|].
  exact (proj2 (list_elem_of_In _ _) Hin).
Qed.

Lemma bsorted_map {V W} (f : string * V -> W) (m : bmap V) :
  bsorted (map (fun e => (e.1, f e)) m) = bsorted m.
Proof.
  induction m as [|[k v] m IH]; [done|]. destruct m as [|[k' v'] m]; [done|].
  change (bsorted (map (fun e => (e.1, f e)) ((k, v) :: (k', v') :: m)))
    with (str_ltb k k' && bsorted (map (fun e => (e.1, f e)) ((k', v') :: m))).
  by rewrite IH.
Qed.

Lemma bget_map {V W} (f : string -> V -> W) k (m : bmap V) :
  bget k (map (fun e => (e.1, f e.1 e.2)) m) = f k <$> bget k m.
Proof.
  induction m as [|[k' v'] m IH]; [done|]. simpl. destruct (k =?s k') eqn:H; [|done].
  by apply eqb_s_true in H as ->.
Qed.

Notation "m '@@' k" := (bget k m) (at level 20, no associativity) : pc_scope.

Create HintDb btree.
#[export] Hint Resolve bsorted_bset bsorted_bcollect bsorted_tail : btree.
