(* ===== verification/Utf8.v ===== *)
(** * Text as code points

    Rust's [str::chars] and [String::from_iter]: a [String] is the UTF-8 encoding of its
    characters. Code that walks characters (the secret scanner, the TOML reader, the JSON string
    writer) works on [list char]; everything else on [string]. *)

From S2P Require Import Prelude.

(** A Rust [char], by its code point. *)
Abbreviation char := N.

(** A character literal. *)
Definition ch (a : Ascii.ascii) : char := Ascii.N_of_ascii a.
Arguments ch a%_char_scope.

(** A Unicode scalar value. *)
Definition scalar (c : char) : bool :=
  ((c <? 0xD800) || ((0xDFFF <? c) && (c <? 0x110000)))%N.

Definition byte (n : N) : Ascii.ascii := Ascii.ascii_of_N n.

(** [char::encode_utf8]. *)
Definition encode_char (c : char) : string :=
  (if c <? 0x80 then String (byte c) EmptyString
   else if c <? 0x800 then
     String (byte (0xC0 + c / 64)) (String (byte (0x80 + c mod 64)) EmptyString)
   else if c <? 0x10000 then
     String (byte (0xE0 + c / 4096)) (String (byte (0x80 + c / 64 mod 64))
       (String (byte (0x80 + c mod 64)) EmptyString))
   else
     String (byte (0xF0 + c / 262144)) (String (byte (0x80 + c / 4096 mod 64))
       (String (byte (0x80 + c / 64 mod 64)) (String (byte (0x80 + c mod 64)) EmptyString))))%N.

(** [String::from_iter(chars)]. *)
Fixpoint of_chars (l : list char) : string :=
  match l with [] => EmptyString | c :: l' => encode_char c +:+ of_chars l' end.

(** The payload of a continuation byte. *)
Definition cont (a : Ascii.ascii) : N := (Ascii.N_of_ascii a - 0x80)%N.

(** [text.chars()] of valid UTF-8 (a Rust [str] is always valid). *)
Fixpoint chars (s : string) : list char :=
  match s with
  | EmptyString => []
  | String a s1 =>
      let b := Ascii.N_of_ascii a in
      if (b <? 0xC0)%N then b :: chars s1
      else match s1 with
      | EmptyString => []
      | String a1 s2 =>
          if (b <? 0xE0)%N then ((b - 0xC0) * 64 + cont a1)%N :: chars s2
          else match s2 with
          | EmptyString => []
          | String a2 s3 =>
              if (b <? 0xF0)%N then ((b - 0xE0) * 4096 + cont a1 * 64 + cont a2)%N :: chars s3
              else match s3 with
              | EmptyString => []
              | String a3 s4 =>
                  ((b - 0xF0) * 262144 + cont a1 * 4096 + cont a2 * 64 + cont a3)%N :: chars s4
              end
          end
      end
  end.

(** The invariant of Rust's [str]: the bytes encode a sequence of scalar values. *)
Definition utf8 (s : string) : bool :=
  forallb scalar (chars s) && (of_chars (chars s) =?s s).

Lemma N_byte n : (n < 256)%N -> Ascii.N_of_ascii (byte n) = n.
Proof. apply Ascii.N_ascii_embedding. Qed.

Ltac Zify.zify_post_hook ::= Z.div_mod_to_equations.

Lemma chars_encode c s : scalar c = true -> chars (encode_char c +:+ s) = c :: chars s.
Proof.
  unfold scalar. intros Hc. unfold encode_char.
  destruct (c <? 0x80)%N eqn:H1; [|destruct (c <? 0x800)%N eqn:H2;
    [|destruct (c <? 0x10000)%N eqn:H3]];
    rewrite !app_cons_s, app_nil_s; simpl chars; unfold cont; rewrite !N_byte by lia.
  - assert ((c <? 0xC0)%N = true) as -> by lia. done.
  - assert ((0xC0 + c / 64 <? 0xC0)%N = false) as -> by lia.
    assert ((0xC0 + c / 64 <? 0xE0)%N = true) as -> by lia. f_equal. lia.
  - assert ((0xE0 + c / 4096 <? 0xC0)%N = false) as -> by lia.
    assert (Hq : (c / 4096 = c / 64 / 64)%N) by (by rewrite N.Div0.div_div).
    assert ((0xE0 + c / 4096 <? 0xE0)%N = false) as -> by lia.
    assert ((0xE0 + c / 4096 <? 0xF0)%N = true) as -> by lia. f_equal. rewrite Hq. lia.
  - assert ((0xF0 + c / 262144 <? 0xC0)%N = false) as -> by lia.
    assert (Hq : (c / 262144 = c / 4096 / 64)%N) by (by rewrite N.Div0.div_div).
    assert (Hq' : (c / 4096 = c / 64 / 64)%N) by (by rewrite N.Div0.div_div).
    assert ((0xF0 + c / 262144 <? 0xE0)%N = false) as -> by lia.
    assert ((0xF0 + c / 262144 <? 0xF0)%N = false) as -> by lia.
    f_equal. rewrite Hq, Hq'. lia.
Qed.

(** Decoding undoes encoding. *)
Lemma chars_of_chars l : forallb scalar l = true -> chars (of_chars l) = l.
Proof.
  induction l as [|c l IH]; [done|]. simpl. intros [Hc Hl]%andb_prop.
  by rewrite chars_encode, IH.
Qed.

Lemma utf8_of_chars l : forallb scalar l = true -> utf8 (of_chars l) = true.
Proof. intros H. unfold utf8. by rewrite chars_of_chars, H, eqb_s_refl. Qed.

Lemma utf8_chars s : utf8 s = true -> of_chars (chars s) = s.
Proof. unfold utf8. intros [_ H]%andb_prop. by apply eqb_s_true. Qed.

Lemma chars_inj s t : utf8 s = true -> utf8 t = true -> chars s = chars t -> s = t.
Proof. intros Hs Ht H. rewrite <-(utf8_chars s), <-(utf8_chars t) by done. by rewrite H. Qed.

Lemma of_chars_app l k : of_chars (l ++ k) = of_chars l +:+ of_chars k.
Proof. induction l as [|c l IH]; [done|]. simpl. by rewrite IH, app_assoc_s. Qed.

Lemma encode_ascii a : (Ascii.N_of_ascii a < 128)%N ->
  encode_char (Ascii.N_of_ascii a) = String a EmptyString.
Proof.
  intros H. unfold encode_char, byte.
  assert ((Ascii.N_of_ascii a <? 128)%N = true) as -> by lia.
  by rewrite Ascii.ascii_N_embedding.
Qed.
