(* ===== verification/Numeric.v ===== *)
(** * Numbers as text

    Rust's [Display] and [LowerHex] of integers, [char::to_digit], and [str::parse] of the
    fixed-width integer types, with the round trips the formats rely on. *)

From S2P Require Import Prelude.

Local Open Scope N_scope.

(** ASCII digit of a value below 16 (lower case). *)
Definition digit (d : N) : Ascii.ascii :=
  Ascii.ascii_of_N (if d <? 10 then 48 + d else 87 + d).

(** [char::to_digit(radix)] of an ASCII byte. *)
Definition digit_val (r : N) (a : Ascii.ascii) : option N :=
  let b := Ascii.N_of_ascii a in
  let d := if (48 <=? b) && (b <=? 57) then Some (b - 48)
           else if (97 <=? b) && (b <=? 122) then Some (b - 87)
           else if (65 <=? b) && (b <=? 90) then Some (b - 55) else None in
  match d with Some v => if v <? r then Some v else None | None => None end.

Fixpoint radix_digits (fuel : nat) (r n : N) (acc : string) : string :=
  match fuel with
  | O => acc
  | S f =>
      let acc' := String (digit (n mod r)) acc in
      if n <? r then acc' else radix_digits f r (n / r) acc'
  end.

(** The shortest text of [n] in radix [r]; a number has at most as many digits as bits. *)
Definition fmt_radix (r n : N) : string := radix_digits (S (N.to_nat (N.log2 n))) r n EmptyString.

Definition fmt_N (n : N) : string := fmt_radix 10 n.
Definition fmt_hex (n : N) : string := fmt_radix 16 n.

(** [format!("{z}")] of a signed integer. *)
Definition fmt_Z (z : Z) : string :=
  if (z <? 0)%Z then String "-"%char (fmt_N (Z.to_N (- z))) else fmt_N (Z.to_N z).

Definition fmt_nat (n : nat) : string := fmt_N (N.of_nat n).

(** [format!("{n:0width$x}")] and [format!("{n:0width$}")]: zero padding on the left. *)
Definition pad0 (width : nat) (s : string) : string :=
  str_repeat (width - String.length s) "0" +:+ s.

(** Value of a digit string read after the value [v]. *)
Fixpoint val_from (r v : N) (s : string) : option N :=
  match s with
  | EmptyString => Some v
  | String a s' => match digit_val r a with Some d => val_from r (v * r + d) s' | None => None end
  end.

Definition digits_val (r : N) (s : string) : option N :=
  match s with EmptyString => None | _ => val_from r 0 s end.

(** [text.parse::<T>()] for an integer type with values in [lo..=hi]: an optional sign ([-] only
    when [T] is signed), at least one digit, no overflow. *)
Definition parse_int (lo hi : Z) (s : string) : option Z :=
  let in_range z := if ((lo <=? z) && (z <=? hi))%Z then Some z else None in
  match s with
  | String a rest =>
      if Ascii.eqb a "+"%char then match digits_val 10 rest with Some n => in_range (Z.of_N n) | None => None end
      else if Ascii.eqb a "-"%char && (lo <? 0)%Z then
        match digits_val 10 rest with Some n => in_range (- Z.of_N n)%Z | None => None end
      else match digits_val 10 s with Some n => in_range (Z.of_N n) | None => None end
  | EmptyString => None
  end.

Definition i64_min : Z := - 2 ^ 63.
Definition i64_max : Z := 2 ^ 63 - 1.
Definition u64_max : Z := 2 ^ 64 - 1.
Definition parse_i64 : string -> option Z := parse_int i64_min i64_max.
Definition parse_u64 : string -> option Z := parse_int 0 u64_max.
Definition parse_u32 : string -> option Z := parse_int 0 (2 ^ 32 - 1).

Definition is_digit (a : Ascii.ascii) : bool :=
  let b := Ascii.N_of_ascii a in (48 <=? b) && (b <=? 57).

Fixpoint forallb_s (f : Ascii.ascii -> bool) (s : string) : bool :=
  match s with EmptyString => true | String a s' => f a && forallb_s f s' end.

(** ** Lemmas *)

Lemma digit_val_digit r d : d < r -> r <= 16 -> digit_val r (digit d) = Some d.
Proof.
  intros Hd Hr. unfold digit_val, digit.
  destruct (d <? 10) eqn:H; rewrite Ascii.N_ascii_embedding by lia.
  - assert ((48 <=? 48 + d) && (48 + d <=? 57) = true) as -> by lia.
    replace (48 + d - 48) with d by lia. by assert ((d <? r) = true) as -> by lia.
  - assert ((48 <=? 87 + d) && (87 + d <=? 57) = false) as -> by lia.
    assert ((97 <=? 87 + d) && (87 + d <=? 122) = true) as -> by lia.
    replace (87 + d - 87) with d by lia. by assert ((d <? r) = true) as -> by lia.
Qed.

Lemma val_radix_digits fuel r n acc :
  2 <= r -> r <= 16 -> n < 2 ^ N.of_nat fuel ->
  val_from r 0 (radix_digits fuel r n acc) = val_from r n acc.
Proof.
  intros Hr2 Hr16. revert n acc. induction fuel as [|f IH]; intros n acc Hn.
  - simpl in *. by assert (n = 0) as -> by lia.
  - cbn [radix_digits]. destruct (n <? r) eqn:Hlt.
    + cbn [val_from]. rewrite N.mod_small, digit_val_digit by lia.
      f_equal.
    + rewrite IH.
      * cbn [val_from]. rewrite digit_val_digit by (try apply N.mod_lt; lia).
        f_equal. rewrite N.mul_comm. symmetry. apply N.div_mod. lia.
      * replace (N.of_nat (S f)) with (N.succ (N.of_nat f)) in Hn by lia.
        rewrite N.pow_succ_r' in Hn.
        apply N.Div0.div_lt_upper_bound; nia.
Qed.

Lemma radix_fuel n : n < 2 ^ N.of_nat (S (N.to_nat (N.log2 n))).
Proof.
  replace (N.of_nat (S (N.to_nat (N.log2 n)))) with (N.succ (N.log2 n)) by lia.
  destruct (N.eq_dec n 0) as [->|Hn]; [done|]. apply N.log2_spec. lia.
Qed.

(** Formatting produces enough digits: reading them back gives the number. *)
Lemma val_fmt_radix r n : 2 <= r -> r <= 16 -> val_from r 0 (fmt_radix r n) = Some n.
Proof. intros. unfold fmt_radix. rewrite val_radix_digits; [done..|]. apply radix_fuel. Qed.

Lemma radix_digits_nonempty f r n acc : exists a s, radix_digits (S f) r n acc = String a s.
Proof.
  revert n acc. induction f as [|f IH]; intros n acc; simpl.
  - destruct (n <? r); eauto.
  - destruct (n <? r); [eauto|]. apply IH.
Qed.

Lemma digits_val_fmt r n : 2 <= r -> r <= 16 -> digits_val r (fmt_radix r n) = Some n.
Proof.
  intros H1 H2. pose proof (val_fmt_radix r n H1 H2) as Hv. unfold fmt_radix, digits_val in *.
  destruct (radix_digits_nonempty (N.to_nat (N.log2 n)) r n EmptyString) as (a & s & Heq).
  by rewrite Heq in *.
Qed.

Lemma fmt_N_inj a b : fmt_N a = fmt_N b -> a = b.
Proof.
  intros H. assert (Some a = Some b) as [=]; [|done].
  rewrite <-(digits_val_fmt 10 a), <-(digits_val_fmt 10 b) by lia. unfold fmt_N in H. by rewrite H.
Qed.

Lemma is_digit_digit d : d < 10 -> is_digit (digit d) = true.
Proof.
  intros H. unfold is_digit, digit. assert ((d <? 10) = true) as -> by lia.
  rewrite Ascii.N_ascii_embedding by lia. lia.
Qed.

Lemma radix_digits_all f n acc :
  forallb_s is_digit acc = true -> forallb_s is_digit (radix_digits f 10 n acc) = true.
Proof.
  revert n acc. induction f as [|f IH]; intros n acc Hacc; [done|]. cbn [radix_digits].
  assert (Hd : forallb_s is_digit (String (digit (n mod 10)) acc) = true).
  { cbn [forallb_s]. rewrite is_digit_digit, Hacc; [done|]. apply N.mod_lt. lia. }
  destruct (n <? 10); [done|]. by apply IH.
Qed.

Lemma fmt_N_digits n : forallb_s is_digit (fmt_N n) = true.
Proof. by apply radix_digits_all. Qed.

Lemma fmt_N_cons n : exists a s, fmt_N n = String a s /\ is_digit a = true.
Proof.
  pose proof (fmt_N_digits n) as H. unfold fmt_N, fmt_radix in *.
  destruct (radix_digits_nonempty (N.to_nat (N.log2 n)) 10 n EmptyString) as (a & s & Heq).
  rewrite Heq in *. simpl in H. apply andb_prop in H as [H _]. eauto.
Qed.

Lemma is_digit_not_sign a : is_digit a = true -> Ascii.eqb a "+"%char = false /\ Ascii.eqb a "-"%char = false.
Proof.
  intros H. split; apply Ascii.eqb_neq; intros ->; by vm_compute in H.
Qed.

(** [parse] undoes [format!] for every integer of the type. *)
Lemma parse_int_fmt lo hi z : (lo <= z <= hi)%Z -> parse_int lo hi (fmt_Z z) = Some z.
Proof.
  intros Hz. unfold fmt_Z. destruct (z <? 0)%Z eqn:Hneg; unfold parse_int.
  - change (Ascii.eqb "-"%char "+"%char) with false. change (Ascii.eqb "-"%char "-"%char) with true.
    assert ((lo <? 0)%Z = true) as -> by lia. cbn match. cbn [andb].
    unfold fmt_N. rewrite digits_val_fmt by lia.
    replace (- Z.of_N (Z.to_N (- z)))%Z with z by lia.
    assert (((lo <=? z) && (z <=? hi))%Z = true) as -> by lia. done.
  - pose proof (digits_val_fmt 10 (Z.to_N z)) as Hv.
    destruct (fmt_N_cons (Z.to_N z)) as (a & s & Heq & Ha).
    unfold fmt_N in *. rewrite Heq in *. destruct (is_digit_not_sign a Ha) as [-> ->].
    simpl andb. cbv iota. rewrite Hv by lia.
    replace (Z.of_N (Z.to_N z)) with z by lia.
    assert (((lo <=? z) && (z <=? hi))%Z = true) as -> by lia. done.
Qed.
