(* ===== verification/Json.v ===== *)
(** * JSON values and their bytes

    [serde_json::Value] without [preserve_order], the writer of [pc_common/src/json.rs] and the
    host forms and integer check of [pc_host/src/json.rs]. The parser itself is [serde_json]'s and
    is not modelled; Rust's own float formatting is the class [FloatText]. *)

From Corelib Require Import FloatClass SpecFloat.
From S2P Require Import Prelude BTree Utf8 Numeric.

(** An IEEE double. *)
Abbreviation f64 := spec_float.

(** [serde_json::Number]: an [i64]/[u64] integer or a finite double. *)
Inductive Number : Type :=
| NInt (z : Z)
| NFloat (f : f64).

Unset Elimination Schemes.
Inductive Value : Type :=
| Null
| Bool (b : bool)
| Num (n : Number)
| Str (s : string)
| Array (items : list Value)
| Object (map : bmap Value).
Set Elimination Schemes.

(** Induction through the items of arrays and objects. *)
Section value_ind.
Context (P : Value -> Prop).
Context (Hnull : P Null) (Hbool : forall b, P (Bool b)) (Hnum : forall n, P (Num n))
  (Hstr : forall s, P (Str s)) (Harr : forall l, Forall P l -> P (Array l))
  (Hobj : forall m : bmap Value, Forall (fun e => P e.2) m -> P (Object m)).

Fixpoint Value_ind (v : Value) : P v :=
  match v with
  | Null => Hnull
  | Bool b => Hbool b
  | Num n => Hnum n
  | Str s => Hstr s
  | Array l => Harr l ((fix go l := match l return Forall P l with
      | [] => @Forall_nil_2 _ _ | x :: l' => @Forall_cons_2 _ _ _ _ (Value_ind x) (go l') end) l)
  | Object m => Hobj m ((fix go m := match m return Forall (fun e => P e.2) m with
      | [] => @Forall_nil_2 _ _ | e :: m' => @Forall_cons_2 _ _ _ _ (Value_ind e.2) (go m') end) m)
  end.
End value_ind.

#[export] Instance spec_float_eq_dec : EqDecision f64.
Proof. solve_decision. Defined.
#[export] Instance Number_eq_dec : EqDecision Number.
Proof. solve_decision. Defined.

(** ** Accessors *)

Definition as_object (v : Value) : option (bmap Value) := match v with Object m => Some m | _ => None end.
Definition as_array (v : Value) : option (list Value) := match v with Array l => Some l | _ => None end.
Definition as_str (v : Value) : option string := match v with Str s => Some s | _ => None end.
Definition as_bool (v : Value) : option bool := match v with Bool b => Some b | _ => None end.
Definition is_null (v : Value) : bool := match v with Null => true | _ => false end.
Definition is_object (v : Value) : bool := match v with Object _ => true | _ => false end.

(** [Number::as_i64], [Number::as_u64]; [Value::as_i64]. *)
Definition num_as_i64 (n : Number) : option Z :=
  match n with NInt z => if ((i64_min <=? z) && (z <=? i64_max))%Z then Some z else None | NFloat _ => None end.
Definition num_as_u64 (n : Number) : option Z :=
  match n with NInt z => if ((0 <=? z) && (z <=? u64_max))%Z then Some z else None | NFloat _ => None end.
Definition as_i64 (v : Value) : option Z := match v with Num n => num_as_i64 n | _ => None end.

Definition json_int (z : Z) : Value := Num (NInt z).

(** [json!({k: v, ...})]. *)
Definition obj (l : list (string * Value)) : Value := Object (bcollect l).

(** ** Well-formed values

    What the type invariants of Rust give: valid UTF-8 strings, maps in key order, integers of
    64 bits. [exact] further excludes doubles (their text is not modelled). *)
Definition int_ok (z : Z) : bool := ((i64_min <=? z) && (z <=? u64_max))%Z.

Fixpoint exact (v : Value) : bool :=
  match v with
  | Null | Bool _ => true
  | Num (NInt z) => int_ok z
  | Num (NFloat _) => false
  | Str s => utf8 s
  | Array l => forallb exact l
  | Object m => bsorted m && forallb (fun e => utf8 e.1 && exact e.2) m
  end.

(** ** Equality of values ([PartialEq]): doubles by [==], maps by their entries *)

Definition number_eqb (a b : Number) : bool :=
  match a, b with
  | NInt x, NInt y => (x =? y)%Z
  | NFloat x, NFloat y => SFeqb x y
  | _, _ => false
  end.

Fixpoint value_eqb (v w : Value) : bool :=
  match v, w with
  | Null, Null => true
  | Bool a, Bool b => Bool.eqb a b
  | Num a, Num b => number_eqb a b
  | Str a, Str b => a =?s b
  | Array l, Array k =>
      (fix go l k := match l, k with
        | [], [] => true
        | x :: l', y :: k' => value_eqb x y && go l' k'
        | _, _ => false
        end) l k
  | Object m, Object n =>
      (fix go m n := match m, n with
        | [], [] => true
        | e :: m', e' :: n' => (e.1 =?s e'.1) && value_eqb e.2 e'.2 && go m' n'
        | _, _ => false
        end) m n
  | _, _ => false
  end.

Definition map_eqb (m n : bmap Value) : bool := value_eqb (Object m) (Object n).

(** ** [pc_common/src/json.rs] *)

Inductive FloatMode := FloatPython | FloatRustShortest.
Inductive NumberMode := NumSerde | NumPython (m : FloatMode).

Record Options := {
  indent : option nat;
  separators : option (string * string);
  sort_keys : bool;
  ensure_ascii : bool;
  numbers : NumberMode;
}.

Definition effective_separators (o : Options) : string * string :=
  match separators o, indent o with
  | Some s, _ => s
  | None, None => (", ", ": ")
  | None, Some _ => (",", ": ")
  end.

(** Text of a double that Rust, not this repository, produces and reads. *)
Class FloatText := {
  fmt_e : f64 -> string;            (** [format!("{:e}", value)] *)
  fmt_prec_e : nat -> f64 -> string; (** [format!("{value:.precision$e}")] *)
  serde_f64 : f64 -> string;         (** [Display] of [serde_json::Number] *)
  parse_f64 : string -> option f64;  (** [text.parse::<f64>().ok()] *)
}.

(** An instance for texts without doubles. *)
Definition no_floats : FloatText :=
  {| fmt_e := fun _ => "0e0"; fmt_prec_e := fun _ _ => "0e0"; serde_f64 := fun _ => "0.0";
     parse_f64 := fun _ => None |}.

(** [char::encode_utf16]. *)
Definition utf16 (c : char) : list N :=
  (if c <? 0x10000 then [c]
   else [0xD800 + (c - 0x10000) / 1024; 0xDC00 + (c - 0x10000) mod 1024])%N.

Definition backslash : string := String (Ascii.ascii_of_nat 92) EmptyString.

(** ["\\u{unit:04x}"]. *)
Definition u_escape (unit : N) : string := backslash +:+ "u" +:+ pad0 4 (fmt_hex unit).

Definition write_char (ensure_ascii : bool) (c : char) : string :=
  if (c =? 34)%N then backslash +:+ dq
  else if (c =? 92)%N then backslash +:+ backslash
  else if (c =? 10)%N then backslash +:+ "n"
  else if (c =? 13)%N then backslash +:+ "r"
  else if (c =? 9)%N then backslash +:+ "t"
  else if (c =? 8)%N then backslash +:+ "b"
  else if (c =? 12)%N then backslash +:+ "f"
  else if (c <=? 0x1F)%N then u_escape c
  else if ((32 <=? c) && (c <=? 126))%N then encode_char c
  else if ensure_ascii then join EmptyString (map u_escape (utf16 c))
  else encode_char c.

Definition write_string (ensure_ascii : bool) (text : string) : string :=
  dq +:+ join EmptyString (map (write_char ensure_ascii) (chars text)) +:+ dq.

Section writer.
Context {FT : FloatText}.

(** [text.split_once('e')]. *)
Fixpoint split_e (s : string) : option (string * string) :=
  match s with
  | EmptyString => None
  | String a s' => if Ascii.eqb a "e"%char then Some (EmptyString, s')
                   else match split_e s' with Some (x, y) => Some (String a x, y) | None => None end
  end.

Fixpoint filter_s (f : Ascii.ascii -> bool) (s : string) : string :=
  match s with EmptyString => EmptyString | String a s' => if f a then String a (filter_s f s') else filter_s f s' end.

Fixpoint take_s (n : nat) (s : string) : string :=
  match n, s with S n', String a s' => String a (take_s n' s') | _, _ => EmptyString end.
Fixpoint drop_s (n : nat) (s : string) : string :=
  match n, s with S n', String _ s' => drop_s n' s' | _, _ => s end.
Fixpoint rev_s (s : string) (acc : string) : string :=
  match s with EmptyString => acc | String a s' => rev_s s' (String a acc) end.
Fixpoint trim_start_s (f : Ascii.ascii -> bool) (s : string) : string :=
  match s with String a s' => if f a then trim_start_s f s' else s | EmptyString => s end.
Definition trim_end_s (f : Ascii.ascii -> bool) (s : string) : string :=
  rev_s (trim_start_s f (rev_s s EmptyString)) EmptyString.
Definition ends_with (suffix s : string) : bool :=
  (String.length suffix <=? String.length s)%nat &&
  (drop_s (String.length s - String.length suffix) s =?s suffix).

(** Digits and exponent of [{:e}] text; [None] stands for the panic of its two [expect]s. *)
Definition split_scientific (text : string) : option (string * Z) :=
  match split_e text with
  | None => None
  | Some (mantissa, exponent) =>
      match parse_int (- 2 ^ 31) (2 ^ 31 - 1) exponent with
      | Some e => Some (filter_s (fun c => negb (Ascii.eqb c "."%char)) mantissa, e)
      | None => None
      end
  end.

(** The loop of [increment] over the reversed digits: the digits, and whether it ran off. *)
Fixpoint increment_rev (l : string) : string * bool :=
  match l with
  | EmptyString => (EmptyString, true)
  | String b l' =>
      if Ascii.eqb b "9"%char then let '(r, c) := increment_rev l' in (String "0"%char r, c)
      else (String (Ascii.ascii_of_N (Ascii.N_of_ascii b + 1)) l', false)
  end.

Definition increment (digits : string) (exponent : Z) : string * Z :=
  let '(r, carried) := increment_rev (rev_s digits EmptyString) in
  let bytes := rev_s r EmptyString in
  if carried then (take_s (String.length digits) (String "1"%char bytes), (exponent + 1)%Z)
  else (bytes, exponent).

Definition is_zero (a : Ascii.ascii) : bool := Ascii.eqb a "0"%char.

Definition shortest_digits (value : f64) : option (string * Z) :=
  '(digits, exponent) ← split_scientific (fmt_e value);
  if forallb_s is_zero digits then Some ("0", 0%Z) else
  let length := String.length digits in
  '(probe, probe_exponent) ← split_scientific (fmt_prec_e (length + 1) value);
  if negb (ends_with "50" probe) then Some (digits, exponent) else
  '(exact, exact_exponent) ← split_scientific (fmt_prec_e 1100 value);
  let exact := trim_end_s is_zero exact in
  if negb (String.length exact =? length + 1)%nat || negb (ends_with "5" exact)
     || negb (exact_exponent =? probe_exponent)%Z then Some (digits, exponent) else
  let lower := take_s length exact in
  let last := match String.get (length - 1) lower with Some a => Ascii.N_of_ascii a | None => 48%N end in
  let even := if ((last - 48) mod 2 =? 0)%N then (lower, exact_exponent)
              else increment lower exact_exponent in
  let even_digits := trim_end_s is_zero even.1 in
  let candidate :=
    if (1 <? String.length even_digits)%nat
    then take_s 1 even_digits +:+ "." +:+ drop_s 1 even_digits +:+ "e" +:+ fmt_Z even.2
    else even_digits +:+ "e" +:+ fmt_Z even.2 in
  match parse_f64 candidate with
  | Some f => if SFeqb f value then Some (even_digits, even.2) else Some (digits, exponent)
  | None => Some (digits, exponent)
  end.

Definition is_sign_negative (f : f64) : bool :=
  match f with S754_zero s => s | S754_infinity s => s | S754_nan => false | S754_finite s _ _ => s end.

(** The layout of [float_repr] once digits and exponent are known. *)
Definition float_layout (sign digits : string) (exponent : Z) : string :=
  let decpt := (exponent + 1)%Z in
  let len := Z.of_nat (String.length digits) in
  sign +:+
  (if ((-4 <? decpt) && (decpt <=? 16))%Z then
     if (decpt <=? 0)%Z then "0." +:+ str_repeat (Z.to_nat (- decpt)) "0" +:+ digits
     else if (len <=? decpt)%Z then digits +:+ str_repeat (Z.to_nat (decpt - len)) "0" +:+ ".0"
     else take_s (Z.to_nat decpt) digits +:+ "." +:+ drop_s (Z.to_nat decpt) digits
   else
     take_s 1 digits +:+
     (if (1 <? String.length digits)%nat then "." +:+ drop_s 1 digits else EmptyString) +:+
     "e" +:+ (if (exponent <? 0)%Z then "-" else "+") +:+ pad0 2 (fmt_N (Z.abs_N exponent))).

Definition float_repr (value : f64) (mode : FloatMode) : option string :=
  match value with
  | S754_nan => Some "NaN"
  | S754_infinity s => Some (if s then "-Infinity" else "Infinity")
  | _ =>
      let sign := if is_sign_negative value then "-" else EmptyString in
      '(digits, exponent) ← match mode with
        | FloatPython => shortest_digits (SFabs value)
        | FloatRustShortest => split_scientific (fmt_e (SFabs value))
        end;
      Some (float_layout sign digits exponent)
  end.

Definition write_number (n : Number) (mode : NumberMode) : string :=
  match mode with
  | NumSerde => match n with NInt z => fmt_Z z | NFloat f => serde_f64 f end
  | NumPython float_mode =>
      match num_as_i64 n with
      | Some value => fmt_Z value
      | None =>
          match num_as_u64 n with
          | Some value => fmt_Z value
          | None =>
              match n with
              | NFloat f => default EmptyString (float_repr f float_mode)
              | NInt _ => "null"
              end
          end
      end
  end.

(** [entries.sort_by(|a, b| a.0.cmp(b.0))]: a stable sort by key. *)
Fixpoint insert_entry {A} (e : string * A) (l : list (string * A)) : list (string * A) :=
  match l with
  | [] => [e]
  | e' :: l' => if str_ltb e'.1 e.1 then e' :: insert_entry e l' else e :: l
  end.
Definition sort_entries {A} (l : list (string * A)) : list (string * A) := foldr insert_entry [] l.

Definition newline (o : Options) (level : nat) : string :=
  match indent o with
  | Some n => nl +:+ str_repeat (n * level) " "
  | None => EmptyString
  end.

(** [Writer::value] and [Writer::object]; what the call appends to its buffer. The texts of an
    object's entries are produced before the entries are put in order. *)
Fixpoint write_value (o : Options) (item key : string) (value : Value) (level : nat) : string :=
  match value with
  | Null => "null"
  | Bool true => "true"
  | Bool false => "false"
  | Num number => write_number number (numbers o)
  | Str text => write_string (ensure_ascii o) text
  | Array [] => "[]"
  | Array items =>
      "[" +:+ join item (map (fun x => newline o (S level) +:+ write_value o item key x (S level)) items)
        +:+ newline o level +:+ "]"
  | Object [] => "{}"
  | Object map =>
      let texts := List.map (fun e => (e.1, write_value o item key e.2 (S level))) map in
      let entries := if sort_keys o then sort_entries texts else texts in
      "{" +:+ join item (List.map (fun e => newline o (S level) +:+ write_string (ensure_ascii o) e.1
                                             +:+ key +:+ e.2) entries)
        +:+ newline o level +:+ "}"
  end.

Definition dumps (value : Value) (o : Options) : string :=
  let '(item, key) := effective_separators o in write_value o item key value 0.

(** ** [pc_host/src/json.rs]: the host forms *)

Definition CANONICAL : Options :=
  {| indent := None; separators := Some (",", ":"); sort_keys := true; ensure_ascii := false;
     numbers := NumPython FloatPython |}.
Definition PRETTY2 : Options :=
  {| indent := Some 2; separators := None; sort_keys := sort_keys CANONICAL;
     ensure_ascii := ensure_ascii CANONICAL; numbers := numbers CANONICAL |}.
Definition PRETTY2_ASCII : Options :=
  {| indent := indent PRETTY2; separators := separators PRETTY2; sort_keys := sort_keys PRETTY2;
     ensure_ascii := true; numbers := numbers PRETTY2 |}.

Definition canonical (value : Value) : string := dumps value CANONICAL.
Definition pretty2 (value : Value) : string := dumps value PRETTY2 +:+ nl.
Definition pretty2_ascii_nonl (value : Value) : string := dumps value PRETTY2_ASCII.
Definition pretty2_ascii (value : Value) : string := dumps value PRETTY2_ASCII +:+ nl.
End writer.

(** Why JSON text was refused ([JsonError]). *)
Inductive JsonError :=
| Invalid (detail : string)
| DuplicateKey (key : string).

(** Bytes of a number token after its first. *)
Definition token_byte (a : Ascii.ascii) : bool :=
  is_digit a || Ascii.eqb a "."%char || Ascii.eqb a "e"%char || Ascii.eqb a "E"%char
  || Ascii.eqb a "+"%char || Ascii.eqb a "-"%char.

(** [text] split after its longest prefix of bytes satisfying [f]. *)
Fixpoint span_s (f : Ascii.ascii -> bool) (s : string) : string * string :=
  match s with
  | String a s' => if f a then let '(x, y) := span_s f s' in (String a x, y) else (EmptyString, s)
  | EmptyString => (EmptyString, EmptyString)
  end.

Definition contains_byte (f : Ascii.ascii -> bool) (s : string) : bool := negb (forallb_s (fun a => negb (f a)) s).

Definition integral (token : string) : bool :=
  negb (contains_byte (fun a => Ascii.eqb a "."%char || Ascii.eqb a "e"%char || Ascii.eqb a "E"%char) token).

Definition token_ok (token : string) : bool :=
  negb (integral token
        && match parse_i64 token with None => true | Some _ => false end
        && match parse_u64 token with None => true | Some _ => false end
        && negb (token =?s "-")).

(** The scan of [check_integer_range] over the bytes from the index on. Every turn of its loop
    advances the index, so a text needs at most its length of turns. *)
Fixpoint range_scan (fuel : nat) (in_string : bool) (rest : string) : result JsonError unit :=
  match fuel with
  | O => Ok tt
  | S fuel =>
      match rest with
      | EmptyString => Ok tt
      | String byte after =>
          if in_string then
            if Ascii.eqb byte (Ascii.ascii_of_nat 92) then
              range_scan fuel true (match after with String _ s => s | EmptyString => EmptyString end)
            else if Ascii.eqb byte (Ascii.ascii_of_nat 34) then range_scan fuel false after
            else range_scan fuel true after
          else if Ascii.eqb byte (Ascii.ascii_of_nat 34) then range_scan fuel true after
          else if Ascii.eqb byte "-"%char || is_digit byte then
            let '(more, next) := span_s token_byte after in
            let token := String byte more in
            if token_ok token then range_scan fuel false next
            else Err (Invalid ("integer out of range: " +:+ token))
          else range_scan fuel false after
      end
  end.

Definition check_integer_range (text : string) : result JsonError unit :=
  range_scan (String.length text) false text.
