(* ===== verification/JsonFacts.v ===== *)
(** * Facts about the JSON writer

    The canonical bytes determine the value (so a digest of them commits to it), and the host
    reader's integer check accepts whatever the host writer produces. *)

From S2P Require Import Prelude BTree Utf8 Numeric Json.

Ltac sapp := rewrite ?app_assoc_s, ?app_cons_s, ?app_nil_s.
Ltac sapp_in H := rewrite ?app_assoc_s, ?app_cons_s, ?app_nil_s in H.

(** ** One character *)

(** The characters that do not stand for themselves. *)
Definition special (c : char) : bool := ((c <=? 31) || (c =? 34) || (c =? 92))%N.

Lemma write_char_plain c : special c = false -> write_char false c = encode_char c.
Proof.
  unfold special, write_char. intros H.
  repeat match goal with |- context [(?a =? ?b)%N] =>
    assert ((a =? b)%N = false) as -> by lia end.
  assert ((c <=? 31)%N = false) as -> by lia. by destruct (_ && _).
Qed.

(** Reading back one escape; only used to tell escapes apart. *)
Definition hex2 (a b : Ascii.ascii) : N :=
  default 0%N (digits_val 16 (String a (String b EmptyString))).

Definition unescape (s : string) : option (char * string) :=
  match s with
  | String _ (String e r) =>
      let e := Ascii.N_of_ascii e in
      if (e =? 117)%N then
        match r with
        | String _ (String _ (String a (String b r'))) => Some (hex2 a b, r')
        | _ => None
        end
      else Some ((if (e =? 110) then 10 else if e =? 114 then 13 else if e =? 116 then 9
                 else if e =? 98 then 8 else if e =? 102 then 12 else e)%N, r)
  | _ => None
  end.

Lemma special_small (P : char -> Prop) :
  Forall P (map N.of_nat (seq 0 32) ++ [34; 92]%N) -> forall c, special c = true -> P c.
Proof.
  intros HP c Hc. rewrite Forall_forall in HP. apply HP. unfold special in Hc.
  apply elem_of_app. destruct (c <=? 31)%N eqn:H.
  - left. apply list_elem_of_fmap. exists (N.to_nat c). split; [lia|]. apply elem_of_seq. lia.
  - right. simpl in Hc. rewrite !elem_of_cons. lia.
Qed.

Lemma unescape_special c : special c = true ->
  forall X, unescape (write_char false c +:+ X) = Some (c, X) /\
    exists s, write_char false c +:+ X = String (Ascii.ascii_of_nat 92) s.
Proof.
  intros Hc. pattern c. refine (special_small _ _ c Hc). cbn [map seq app].
  repeat (apply Forall_cons_2; [intros X; split; [reflexivity|eexists; reflexivity]|]).
  apply Forall_nil_2.
Qed.

Lemma chars_head a s : (Ascii.N_of_ascii a < 128)%N ->
  chars (String a s) = Ascii.N_of_ascii a :: chars s.
Proof. intros H. cbn [chars]. by assert ((Ascii.N_of_ascii a <? 192)%N = true) as -> by lia. Qed.

Lemma encode_char_inj c d X Y : scalar c = true -> scalar d = true ->
  encode_char c +:+ X = encode_char d +:+ Y -> c = d /\ X = Y.
Proof.
  intros Hc Hd H. pose proof (f_equal chars H) as H'. rewrite !chars_encode in H' by done.
  injection H' as -> _. split; [done|]. by eapply app_inj_l_s.
Qed.

Lemma write_char_inj c d X Y : scalar c = true -> scalar d = true ->
  write_char false c +:+ X = write_char false d +:+ Y -> c = d /\ X = Y.
Proof.
  intros Hc Hd H. destruct (special c) eqn:Sc, (special d) eqn:Sd.
  - destruct (unescape_special c Sc X) as [Hx _], (unescape_special d Sd Y) as [Hy _].
    rewrite H, Hy in Hx. by injection Hx.
  - destruct (unescape_special c Sc X) as [_ [s Hs]]. rewrite Hs, write_char_plain in H by done.
    apply (f_equal chars) in H. rewrite chars_encode, chars_head in H by done.
    injection H as H _. rewrite <-H in Sd. by vm_compute in Sd.
  - destruct (unescape_special d Sd Y) as [_ [s Hs]]. rewrite Hs, write_char_plain in H by done.
    apply (f_equal chars) in H. rewrite chars_encode, chars_head in H by done.
    injection H as H _. rewrite H in Sc. by vm_compute in Sc.
  - rewrite !write_char_plain in H by done. by apply encode_char_inj.
Qed.

(** No character is written as a quotation mark first. *)
Lemma write_char_not_quote c X Y : scalar c = true -> write_char false c +:+ X <> dq +:+ Y.
Proof.
  intros Hc H. unfold dq in H. sapp_in H. destruct (special c) eqn:Sc.
  - destruct (unescape_special c Sc X) as [_ [s Hs]]. rewrite Hs in H. done.
  - rewrite write_char_plain in H by done. apply (f_equal chars) in H.
    rewrite chars_encode, chars_head in H by done. injection H as H _.
    rewrite H in Sc. by vm_compute in Sc.
Qed.

(** ** Strings *)

Lemma join_nil_cons s l : join EmptyString (s :: l) = s +:+ join EmptyString l.
Proof. destruct l; simpl; [by rewrite app_nil_r_s|]. by rewrite app_nil_s. Qed.
Lemma join_app_nil l k : join EmptyString (l ++ k) = join EmptyString l +:+ join EmptyString k.
Proof. induction l as [|s l IH]; [done|]. cbn [app]. by rewrite !join_nil_cons, IH, app_assoc_s. Qed.

Lemma write_chars_inj l k X Y : forallb scalar l = true -> forallb scalar k = true ->
  join EmptyString (map (write_char false) l) +:+ dq +:+ X
    = join EmptyString (map (write_char false) k) +:+ dq +:+ Y ->
  l = k /\ X = Y.
Proof.
  revert k. induction l as [|c l IH]; intros [|d k] Hl Hk H; cbn [map forallb] in *;
    rewrite ?join_nil_cons in H; sapp_in H.
  - split; [done|]. unfold dq in H. sapp_in H. by injection H.
  - apply andb_prop in Hk as [Hd _]. symmetry in H. by apply write_char_not_quote in H.
  - apply andb_prop in Hl as [Hc _]. by apply write_char_not_quote in H.
  - apply andb_prop in Hl as [Hc Hl], Hk as [Hd Hk].
    apply write_char_inj in H as [-> H]; [|done..].
    destruct (IH k Hl Hk) as [-> ->]; [|done]. by sapp.
Qed.

Lemma utf8_scalars s : utf8 s = true -> forallb scalar (chars s) = true.
Proof. unfold utf8. intros [H _]%andb_prop. done. Qed.

Lemma write_string_inj s t X Y : utf8 s = true -> utf8 t = true ->
  write_string false s +:+ X = write_string false t +:+ Y -> s = t /\ X = Y.
Proof.
  intros Hs Ht H. unfold write_string in H. sapp_in H. apply app_inj_l_s in H.
  apply write_chars_inj in H as [H ->]; [|by apply utf8_scalars..].
  split; [|done]. by apply chars_inj.
Qed.

(** ** Numbers *)

(** What follows a number is not part of it. *)
Definition stop (r : string) : bool :=
  match r with String a _ => negb (is_digit a) | EmptyString => true end.

Lemma digits_prefix a b r1 r2 :
  forallb_s is_digit a = true -> forallb_s is_digit b = true -> stop r1 = true -> stop r2 = true ->
  a +:+ r1 = b +:+ r2 -> a = b /\ r1 = r2.
Proof.
  revert b. induction a as [|x a IH]; intros [|y b] Ha Hb H1 H2 H; simpl in *; sapp_in H.
  - done.
  - subst r1. apply andb_prop in Hb as [Hy _]. simpl in H1. by rewrite Hy in H1.
  - subst r2. apply andb_prop in Ha as [Hx _]. simpl in H2. by rewrite Hx in H2.
  - apply andb_prop in Ha as [_ Ha], Hb as [_ Hb]. injection H as -> H.
    destruct (IH b Ha Hb H1 H2 H) as [-> ->]. done.
Qed.

Lemma fmt_Z_inj x y r1 r2 : stop r1 = true -> stop r2 = true ->
  fmt_Z x +:+ r1 = fmt_Z y +:+ r2 -> x = y /\ r1 = r2.
Proof.
  intros H1 H2 H. unfold fmt_Z in H.
  assert (Hsign : forall n s r, String "-"%char s +:+ r <> fmt_N n +:+ r2 /\
                                 String "-"%char s +:+ r <> fmt_N n +:+ r1).
  { intros n s r. destruct (fmt_N_cons n) as (a & t & -> & Ha). sapp.
    split; intros [= <- _]; by vm_compute in Ha. }
  destruct (x <? 0)%Z eqn:Hx, (y <? 0)%Z eqn:Hy.
  - sapp_in H. injection H as H. apply digits_prefix in H as [H ->]; try done;
      [|by apply fmt_N_digits..]. apply fmt_N_inj in H. split; [lia|done].
  - by destruct (Hsign (Z.to_N y) (fmt_N (Z.to_N (- x))) r1) as [? _].
  - symmetry in H. by destruct (Hsign (Z.to_N x) (fmt_N (Z.to_N (- y))) r2) as [_ ?].
  - apply digits_prefix in H as [H ->]; try done; [|by apply fmt_N_digits..].
    apply fmt_N_inj in H. split; [lia|done].
Qed.

(** ** The canonical form *)

Section canonical.
Context {FT : FloatText}.

(** Canonical text does not depend on the nesting level. *)
Definition cw (v : Value) : string := write_value CANONICAL "," ":" v 0.

Lemma canonical_cw v : canonical v = cw v.
Proof. reflexivity. Qed.

Lemma write_level v : forall n, write_value CANONICAL "," ":" v n = cw v.
Proof.
  unfold cw. induction v as [|b|num|s|l IH|m IH] using Value_ind; intros n; try reflexivity.
  - destruct l as [|x l]; [done|]. cbn [write_value]. do 3 f_equal.
    apply map_ext_in. intros y Hy. rewrite Forall_forall in IH.
    specialize (IH y (proj2 (list_elem_of_In _ _) Hy)).
    by rewrite (IH (S n)), (IH 1%nat).
  - destruct m as [|x m]; [done|]. cbn [write_value]. do 5 f_equal.
    apply map_ext_in. intros y Hy. rewrite Forall_forall in IH.
    specialize (IH y (proj2 (list_elem_of_In _ _) Hy)).
    by rewrite (IH (S n)), (IH 1%nat).
Qed.

Definition cw_entry (e : string * Value) : string := write_string false e.1 +:+ ":" +:+ cw e.2.

Lemma sort_entries_sorted {A} (m : bmap A) : bsorted m = true -> sort_entries m = m.
Proof.
  induction m as [|[k v] m IH]; [done|]. intros [Hab Hs]%bsorted_cons. simpl.
  unfold sort_entries in *. rewrite IH by done. destruct m as [|[k' v'] m]; [done|].
  simpl. apply Forall_cons in Hab as [Hlt _]. simpl in Hlt. by rewrite (str_ltb_asym _ _ Hlt).
Qed.

Lemma cw_array x l : cw (Array (x :: l)) = "[" +:+ join "," (map cw (x :: l)) +:+ "]".
Proof.
  unfold cw. cbn [write_value]. unfold newline. simpl indent. cbn iota.
  rewrite app_nil_s. do 3 f_equal. apply map_ext. intros y. rewrite app_nil_s. apply write_level.
Qed.

Lemma cw_object e m : bsorted (e :: m) = true ->
  cw (Object (e :: m)) = "{" +:+ join "," (map cw_entry (e :: m)) +:+ "}".
Proof.
  intros Hs. unfold cw at 1. cbn [write_value]. unfold newline. simpl indent. cbn iota.
  rewrite app_nil_s. simpl sort_keys. cbn iota. rewrite sort_entries_sorted.
  - rewrite map_map. do 3 f_equal. apply map_ext. intros y. rewrite app_nil_s.
    unfold cw_entry. simpl. by rewrite write_level.
  - by rewrite (bsorted_map (fun e => write_value CANONICAL "," ":" e.2 1)).
Qed.

Lemma cw_num z : int_ok z = true -> cw (Num (NInt z)) = fmt_Z z.
Proof.
  unfold int_ok. intros Hz.
  change (cw (Num (NInt z))) with (write_number (NInt z) (NumPython FloatPython)).
  unfold write_number, num_as_i64, num_as_u64.
  destruct ((i64_min <=? z) && (z <=? i64_max))%Z eqn:H1; [done|].
  destruct ((0 <=? z) && (z <=? u64_max))%Z eqn:H2; [done|].
  exfalso. unfold i64_min, i64_max, u64_max in *. lia.
Qed.

(** The first byte tells the kinds of values apart. *)
Definition kind (v : Value) : nat :=
  match v with
  | Null => 0 | Bool true => 1 | Bool false => 2 | Num _ => 3 | Str _ => 4 | Array _ => 5 | Object _ => 6
  end.

Definition kind_of (a : Ascii.ascii) : nat :=
  if Ascii.eqb a "n"%char then 0 else if Ascii.eqb a "t"%char then 1
  else if Ascii.eqb a "f"%char then 2 else if Ascii.eqb a "["%char then 5
  else if Ascii.eqb a "{"%char then 6 else if Ascii.eqb a (Ascii.ascii_of_nat 34) then 4
  else if is_digit a || Ascii.eqb a "-"%char then 3 else 7.

Lemma kind_of_digit a : is_digit a = true -> kind_of a = 3.
Proof.
  destruct a as [[] [] [] [] [] [] [] []]; vm_compute; congruence.
Qed.

Lemma cw_head v : exact v = true -> exists a s, cw v = String a s /\ kind_of a = kind v.
Proof.
  intros He. destruct v as [|[]|[z|f]|s|[|x l]|[|e m]].
  - by eexists _, _.
  - by eexists _, _.
  - by eexists _, _.
  - rewrite cw_num by done. unfold fmt_Z. destruct (z <? 0)%Z; [by eexists _, _|].
    destruct (fmt_N_cons (Z.to_N z)) as (a & s & -> & Ha). eexists _, _. split; [done|].
    by apply kind_of_digit.
  - done.
  - eexists _, _. split; [unfold cw; cbn [write_value]; unfold write_string, dq; by sapp|done].
  - by eexists _, _.
  - eexists _, _. rewrite cw_array. sapp. by split.
  - by eexists _, _.
  - cbn in He. apply andb_prop in He as [Hs _].
    eexists _, _. rewrite cw_object by done. sapp. by split.
Qed.

Lemma cw_kind v w r1 r2 : exact v = true -> exact w = true ->
  cw v +:+ r1 = cw w +:+ r2 -> kind v = kind w.
Proof.
  intros Hv Hw Heq. destruct (cw_head v Hv) as (a & s & Ha & <-), (cw_head w Hw) as (b & t & Hb & <-).
  rewrite Ha, Hb in Heq. sapp_in Heq. by injection Heq as -> _.
Qed.

(** Sequences of items closed by a bracket. *)
Lemma join_prefix {A} (f : A -> string) (ok : A -> bool) (c : Ascii.ascii) (l : list A) :
  is_digit c = false -> c <> ","%char ->
  Forall (fun x => forall y r1 r2, ok x = true -> ok y = true -> stop r1 = true -> stop r2 = true ->
    f x +:+ r1 = f y +:+ r2 -> x = y /\ r1 = r2) l ->
  forall k r1 r2, forallb ok l = true -> forallb ok k = true -> l <> [] -> k <> [] ->
    join "," (map f l) +:+ String c r1 = join "," (map f k) +:+ String c r2 -> l = k /\ r1 = r2.
Proof.
  intros Hc Hcomma Hl. induction Hl as [|x l Hx Hl IH]; [done|].
  intros [|y k] r1 r2 Hokl Hokk _ Hne H; [done|].
  cbn [forallb] in *. apply andb_prop in Hokl as [Hokx Hokl], Hokk as [Hoky Hokk].
  assert (Hstop : stop (String c r1) = true /\ stop (String c r2) = true) by (cbn [stop]; by rewrite Hc).
  destruct Hstop as [Hs1 Hs2].
  destruct l as [|x' l], k as [|y' k]; cbn [map join] in H, IH; sapp_in H.
  - apply Hx in H as [-> [= ->]]; done.
  - apply Hx in H as [_ H]; [|done..]. by injection H as -> _.
  - apply Hx in H as [_ H]; [|done..]. by injection H as <- _.
  - apply Hx in H as [-> H]; [|done..]. injection H as H.
    destruct (IH (y' :: k) r1 r2) as [-> ->]; done.
Qed.

Lemma cw_entry_prefix e :
  (forall w r1 r2, exact e.2 = true -> exact w = true -> stop r1 = true -> stop r2 = true ->
     cw e.2 +:+ r1 = cw w +:+ r2 -> e.2 = w /\ r1 = r2) ->
  forall e' r1 r2, utf8 e.1 && exact e.2 = true -> utf8 e'.1 && exact e'.2 = true ->
    stop r1 = true -> stop r2 = true ->
    cw_entry e +:+ r1 = cw_entry e' +:+ r2 -> e = e' /\ r1 = r2.
Proof.
  destruct e as [k v]. intros IH [k' v'] r1 r2 [Hk Hv]%andb_prop [Hk' Hv']%andb_prop H1 H2 Heq.
  unfold cw_entry in Heq. simpl in *. sapp_in Heq.
  apply write_string_inj in Heq as [-> Heq]; [|done..]. injection Heq as Heq.
  apply IH in Heq as [-> ->]; done.
Qed.

Lemma cw_prefix v : forall w r1 r2, exact v = true -> exact w = true ->
  stop r1 = true -> stop r2 = true -> cw v +:+ r1 = cw w +:+ r2 -> v = w /\ r1 = r2.
Proof.
  induction v as [|b|n|s|l IH|m IH] using Value_ind; intros w r1 r2 Hv Hw H1 H2 Heq;
    pose proof (cw_kind _ _ _ _ Hv Hw Heq) as Hkind.
  - destruct w as [|[]|[]| | |]; try done. by apply app_inj_l_s in Heq.
  - destruct w as [|b'|[]| | |]; try by destruct b. destruct b, b'; try done; by apply app_inj_l_s in Heq.
  - destruct w as [|[]|n'| | |]; try done. destruct n as [z|], n' as [z'|]; try done.
    rewrite !cw_num in Heq by done. apply fmt_Z_inj in Heq as [-> ->]; done.
  - destruct w as [|[]|[]|s'| |]; try done. apply write_string_inj in Heq as [-> ->]; done.
  - destruct w as [|[]|[]| |l'|]; try done. clear Hkind. cbn [exact] in Hv, Hw.
    destruct l as [|x l], l' as [|x' l']; [by apply app_inj_l_s in Heq| | |].
    + exfalso. cbn in Hw. apply andb_prop in Hw as [Hx _].
      destruct (cw_head x' Hx) as (a & s & Ha & Hk). rewrite cw_array in Heq. sapp_in Heq.
      cbn [map] in Heq. destruct l'; simpl join in Heq; rewrite Ha in Heq; sapp_in Heq;
        injection Heq as <- _; by destruct x' as [|[]| | | |].
    + exfalso. cbn in Hv. apply andb_prop in Hv as [Hx _].
      destruct (cw_head x Hx) as (a & s & Ha & Hk). rewrite cw_array in Heq. sapp_in Heq.
      cbn [map] in Heq. destruct l; simpl join in Heq; rewrite Ha in Heq; sapp_in Heq;
        injection Heq as -> _; by destruct x as [|[]| | | |].
    + rewrite !cw_array in Heq. sapp_in Heq. apply cons_inj_s in Heq.
      apply (join_prefix cw exact) in Heq as [-> ->]; done.
  - destruct w as [|[]|[]| | |m']; try done. clear Hkind. cbn [exact] in Hv, Hw.
    apply andb_prop in Hv as [Hs Hv], Hw as [Hs' Hw].
    destruct m as [|e m], m' as [|e' m']; [by apply app_inj_l_s in Heq| | |].
    + exfalso. rewrite cw_object in Heq by done. cbn [map] in Heq. unfold cw_entry, write_string, dq in Heq.
      destruct m'; simpl join in Heq; sapp_in Heq; by injection Heq.
    + exfalso. rewrite cw_object in Heq by done. cbn [map] in Heq. unfold cw_entry, write_string, dq in Heq.
      destruct m; simpl join in Heq; sapp_in Heq; by injection Heq.
    + rewrite !cw_object in Heq by done. sapp_in Heq. apply cons_inj_s in Heq.
      apply (join_prefix cw_entry (fun e => utf8 e.1 && exact e.2)) in Heq as [-> ->]; try done.
      eapply Forall_impl; [exact IH|]. intros e0 He0. by apply cw_entry_prefix.
Qed.
End canonical.

(** ** The integer check of the host reader *)

Lemma span_s_length f s : (String.length (span_s f s).2 <= String.length s)%nat.
Proof.
  induction s as [|a s IH]; simpl; [done|].
  destruct (f a); [|done]. destruct (span_s f s) as [x y]. simpl in *. lia.
Qed.
Lemma span_s_app f s x y : span_s f s = (x, y) -> s = x +:+ y /\ forallb_s f x = true.
Proof.
  revert x y. induction s as [|a s IH]; intros x y; simpl; [by intros [= <- <-]|].
  destruct (f a) eqn:Ha; [|by intros [= <- <-]]. destruct (span_s f s) as [x' y'] eqn:Hs.
  intros [= <- <-]. destruct (IH _ _ eq_refl) as [-> Hx]. simpl. by rewrite Ha, app_cons_s.
Qed.

Lemma span_s_stop f x a y : forallb_s f x = true -> f a = false -> span_s f (x +:+ String a y) = (x, String a y).
Proof.
  intros Hx Ha. induction x as [|b x IH]; cbn [forallb_s] in Hx.
  - rewrite app_nil_s. simpl. by rewrite Ha.
  - apply andb_prop in Hx as [Hb Hx]. rewrite app_cons_s. simpl. by rewrite Hb, IH.
Qed.

(** The fuel is enough: more of it changes nothing. *)
Lemma range_scan_fuel f1 f2 b r :
  (String.length r <= f1)%nat -> (String.length r <= f2)%nat -> range_scan f1 b r = range_scan f2 b r.
Proof.
  revert f2 b r. induction f1 as [|f1 IH]; intros f2 b r H1 H2.
  - destruct r; [|simpl in H1; lia]. by destruct f2.
  - destruct r as [|a r]; [by destruct f2|]. destruct f2 as [|f2]; [simpl in H2; lia|].
    simpl in H1, H2. cbn [range_scan].
    destruct b; [destruct (Ascii.eqb a (Ascii.ascii_of_nat 92))|]; [|destruct (Ascii.eqb a _); apply IH; lia|].
    + destruct r; simpl in *; apply IH; simpl; lia.
    + destruct (Ascii.eqb a _); [apply IH; lia|].
      destruct (_ || _); [|apply IH; lia].
      pose proof (span_s_length token_byte r) as Hl. destruct (span_s token_byte r) as [m n]. simpl in Hl.
      destruct (token_ok _); [|done]. apply IH; lia.
Qed.

(** The scan without fuel. *)
Definition scan (b : bool) (r : string) : result JsonError unit := range_scan (String.length r) b r.

Ltac scan_step := unfold scan; cbn [String.length range_scan].

Lemma scan_skip a r : Ascii.eqb a (Ascii.ascii_of_nat 34) = false -> Ascii.eqb a "-"%char || is_digit a = false ->
  scan false (String a r) = scan false r.
Proof. intros H1 H2. scan_step. by rewrite H1, H2. Qed.

Lemma scan_open r : scan false (String (Ascii.ascii_of_nat 34) r) = scan true r.
Proof. reflexivity. Qed.

Lemma scan_close r : scan true (String (Ascii.ascii_of_nat 34) r) = scan false r.
Proof. reflexivity. Qed.

Lemma scan_escape a r : scan true (String (Ascii.ascii_of_nat 92) (String a r)) = scan true r.
Proof.
  exact (range_scan_fuel (S (String.length r)) (String.length r) true r
           (Nat.le_succ_diag_r _) (Nat.le_refl _)).
Qed.

Lemma scan_byte a r : Ascii.eqb a (Ascii.ascii_of_nat 92) = false ->
  Ascii.eqb a (Ascii.ascii_of_nat 34) = false -> scan true (String a r) = scan true r.
Proof. intros H1 H2. scan_step. by rewrite H1, H2. Qed.

Definition plain_bytes (s : string) : bool :=
  forallb_s (fun a => negb (Ascii.eqb a (Ascii.ascii_of_nat 92)) && negb (Ascii.eqb a (Ascii.ascii_of_nat 34))) s.

Lemma scan_plain s r : plain_bytes s = true -> scan true (s +:+ r) = scan true r.
Proof.
  induction s as [|a s IH]; [done|]. simpl. intros [[H1 H2]%andb_prop Hs]%andb_prop. sapp.
  rewrite scan_byte; [by apply IH|by apply negb_true_iff..].
Qed.

Lemma byte_high n : (128 <= n)%N -> (n < 256)%N ->
  negb (Ascii.eqb (byte n) (Ascii.ascii_of_nat 92)) && negb (Ascii.eqb (byte n) (Ascii.ascii_of_nat 34)) = true.
Proof.
  intros H1 H2. rewrite andb_true_iff, !negb_true_iff, !Ascii.eqb_neq.
  split; intros H; apply (f_equal Ascii.N_of_ascii) in H; rewrite N_byte in H by lia; vm_compute in H; lia.
Qed.

Lemma encode_plain c : scalar c = true -> special c = false -> plain_bytes (encode_char c) = true.
Proof.
  unfold scalar, special, encode_char, plain_bytes. intros Hc Hs.
  destruct (c <? 128)%N eqn:H1; [|destruct (c <? 0x800)%N eqn:H2; [|destruct (c <? 0x10000)%N eqn:H3]];
    cbn [forallb_s]; rewrite ?byte_high by lia; try done.
  rewrite andb_true_r, andb_true_iff, !negb_true_iff, !Ascii.eqb_neq.
  split; intros H; apply (f_equal Ascii.N_of_ascii) in H; rewrite N_byte in H by lia; vm_compute in H; lia.
Qed.

Lemma scan_char c r : scalar c = true -> scan true (write_char false c +:+ r) = scan true r.
Proof.
  intros Hc. destruct (special c) eqn:Hs.
  - revert r. pattern c. refine (special_small _ _ c Hs). cbn [map seq app].
    repeat (apply Forall_cons_2; [intros r|]); try apply Forall_nil_2;
      match goal with |- scan true (?w +:+ _) = _ => let w' := eval vm_compute in w in change w with w' end;
      sapp; rewrite (scan_escape _ _); try reflexivity; repeat (rewrite scan_byte by reflexivity); reflexivity.
  - rewrite write_char_plain by done. apply scan_plain. by apply encode_plain.
Qed.

Lemma scan_chars l r : forallb scalar l = true ->
  scan true (join EmptyString (map (write_char false) l) +:+ r) = scan true r.
Proof.
  induction l as [|c l IH]; [done|]. simpl forallb. intros [Hc Hl]%andb_prop.
  cbn [map]. rewrite join_nil_cons. sapp. rewrite scan_char; auto.
Qed.

Lemma scan_string s r : utf8 s = true -> scan false (write_string false s +:+ r) = scan false r.
Proof.
  intros Hs. unfold write_string, dq. sapp. rewrite scan_open, scan_chars by (by apply utf8_scalars).
  by rewrite scan_close.
Qed.

(** What ends a number token. *)
Definition tstop (r : string) : bool := match r with String a _ => negb (token_byte a) | EmptyString => true end.

Lemma span_digits s r : forallb_s is_digit s = true -> tstop r = true -> span_s token_byte (s +:+ r) = (s, r).
Proof.
  intros Hs Hr. induction s as [|a s IH]; sapp.
  - destruct r as [|a r]; [done|]. simpl in *. apply negb_true_iff in Hr. by rewrite Hr.
  - simpl in Hs. apply andb_prop in Hs as [Ha Hs]. cbn [span_s].
    assert (token_byte a = true) as -> by (unfold token_byte; by rewrite Ha). by rewrite IH.
Qed.

Lemma digit_bytes a : is_digit a = true ->
  Ascii.eqb a "."%char || Ascii.eqb a "e"%char || Ascii.eqb a "E"%char = false
  /\ Ascii.eqb a (Ascii.ascii_of_nat 34) = false.
Proof. destruct a as [[] [] [] [] [] [] [] []]; vm_compute; intuition congruence. Qed.

Lemma digits_integral s : forallb_s is_digit s = true -> integral s = true.
Proof.
  intros Hs. unfold integral, contains_byte. rewrite negb_involutive.
  induction s as [|a s IH]; [done|]. simpl in *. apply andb_prop in Hs as [Ha Hs]. rewrite IH by done.
  by rewrite (proj1 (digit_bytes a Ha)).
Qed.

Lemma token_ok_fmt z : int_ok z = true -> token_ok (fmt_Z z) = true.
Proof.
  unfold int_ok, token_ok. intros Hz. destruct (z <=? i64_max)%Z eqn:H.
  - unfold parse_i64. rewrite parse_int_fmt by lia. by rewrite andb_false_r.
  - unfold parse_u64. rewrite (parse_int_fmt 0 u64_max) by (unfold i64_max in *; lia). by rewrite andb_false_r.
Qed.

Lemma scan_int z r : int_ok z = true -> tstop r = true -> scan false (fmt_Z z +:+ r) = scan false r.
Proof.
  intros Hz Hr. pose proof (token_ok_fmt z Hz) as Hok.
  assert (Hgo : forall a s, fmt_Z z = String a s -> forallb_s is_digit s = true ->
    Ascii.eqb a (Ascii.ascii_of_nat 34) = false -> Ascii.eqb a "-"%char || is_digit a = true ->
    scan false (fmt_Z z +:+ r) = scan false r).
  { intros a s Heq Hd Hq Ha. rewrite Heq in *. sapp. scan_step. rewrite Hq, Ha, span_digits by done.
    rewrite Hok. apply range_scan_fuel; [|done]. rewrite length_app_s. lia. }
  unfold fmt_Z in *. destruct (z <? 0)%Z.
  - apply (Hgo _ _ eq_refl); try done. apply fmt_N_digits.
  - destruct (fmt_N_cons (Z.to_N z)) as (a & s & Heq & Ha). pose proof (fmt_N_digits (Z.to_N z)) as Hd.
    rewrite Heq in *. simpl in Hd. apply andb_prop in Hd as [_ Hd]. apply (Hgo _ _ eq_refl); try done.
    + by apply digit_bytes.
    + rewrite Ha. apply orb_true_r.
Qed.

Lemma scan_join {A} (f : A -> string) (l : list A) c r :
  Forall (fun x => forall r, tstop r = true -> scan false (f x +:+ r) = scan false r) l ->
  token_byte c = false -> scan false (join "," (map f l) +:+ String c r) = scan false (String c r).
Proof.
  intros Hl Hc. induction Hl as [|x l Hx Hl IH]; [done|]. cbn [map]. destruct l as [|y l].
  - simpl join. rewrite Hx; [done|]. simpl. by rewrite Hc.
  - cbn [map join] in *. sapp. rewrite Hx by done. rewrite scan_skip by done. exact IH.
Qed.

Section scan.
Context {FT : FloatText}.
(** The host forms with raw UTF-8: [CANONICAL] and [PRETTY2]. *)
Context (o : Options) (m0 : FloatMode) (key : string).
Context (Hascii : ensure_ascii o = false) (Hsort : sort_keys o = true) (Hnum : numbers o = NumPython m0).
Context (Hkey : forall r, scan false (key +:+ r) = scan false r).

Lemma scan_spaces n r : scan false (str_repeat n " " +:+ r) = scan false r.
Proof. induction n as [|n IH]; [done|]. simpl. sapp. by rewrite scan_skip. Qed.

Lemma scan_newline n r : scan false (newline o n +:+ r) = scan false r.
Proof. unfold newline. destruct (indent o); [|done]. unfold nl. sapp. rewrite scan_skip by done. apply scan_spaces. Qed.

Lemma tstop_newline n c r : token_byte c = false -> tstop (newline o n +:+ String c r) = true.
Proof. intros Hc. unfold newline. destruct (indent o); [done|]. simpl. by rewrite Hc. Qed.

Lemma scan_join_to {A} (f : A -> string) (l : list A) tail :
  Forall (fun x => forall r, tstop r = true -> scan false (f x +:+ r) = scan false r) l ->
  tstop tail = true -> scan false (join "," (map f l) +:+ tail) = scan false tail.
Proof.
  intros Hl Ht. induction Hl as [|x l Hx Hl IH]; [done|]. cbn [map]. destruct l as [|y l].
  - simpl join. by rewrite Hx.
  - cbn [map join] in *. sapp. rewrite Hx by done. rewrite scan_skip by done. exact IH.
Qed.

Lemma scan_write_number z r : int_ok z = true -> tstop r = true ->
  scan false (write_number (NInt z) (NumPython m0) +:+ r) = scan false r.
Proof.
  intros Hz Hr. replace (write_number (NInt z) (NumPython m0)) with (fmt_Z z); [by apply scan_int|].
  unfold write_number, num_as_i64, num_as_u64.
  destruct ((i64_min <=? z) && (z <=? i64_max))%Z eqn:H1; [done|].
  destruct ((0 <=? z) && (z <=? u64_max))%Z eqn:H2; [done|].
  exfalso. unfold int_ok, i64_min, i64_max, u64_max in *. lia.
Qed.

Lemma scan_write v : exact v = true -> forall n r, tstop r = true ->
  scan false (write_value o "," key v n +:+ r) = scan false r.
Proof.
  induction v as [|b|x|s|l IH|m IH] using Value_ind; intros Hv n r Hr.
  - cbn [write_value]. sapp. by rewrite !scan_skip.
  - cbn [write_value]. destruct b; sapp; by rewrite !scan_skip.
  - destruct x as [z|]; [|done]. cbn [write_value]. rewrite Hnum. by apply scan_write_number.
  - cbn [write_value]. rewrite Hascii. by apply scan_string.
  - destruct l as [|x l]; [cbn [write_value]; sapp; by rewrite !scan_skip|].
    cbn [write_value]. sapp. rewrite scan_skip by done.
    rewrite scan_join_to; [by rewrite scan_newline, scan_skip| |by apply tstop_newline].
    cbn [exact] in Hv. rewrite Forall_forall in *. intros y Hy r' Hr'. sapp. rewrite scan_newline.
    rewrite forallb_forall in Hv. apply (IH _ Hy); [apply Hv; by apply list_elem_of_In|done].
  - destruct m as [|e m]; [cbn [write_value]; sapp; by rewrite !scan_skip|].
    cbn [exact] in Hv. apply andb_prop in Hv as [Hs Hv].
    cbn [write_value]. rewrite Hsort, sort_entries_sorted
      by (by rewrite (bsorted_map (fun e => write_value o "," key e.2 (S n)))).
    sapp. rewrite scan_skip by done.
    rewrite scan_join_to; [by rewrite scan_newline, scan_skip| |by apply tstop_newline].
    rewrite Forall_map, Forall_forall in *. intros [k y] Hy r' Hr'. simpl. sapp.
    rewrite forallb_forall in Hv. specialize (Hv _ (proj1 (list_elem_of_In _ _) Hy)).
    simpl in Hv. apply andb_prop in Hv as [Hk Hv].
    rewrite scan_newline, Hascii, scan_string, Hkey by done. by apply (IH _ Hy).
Qed.
End scan.

Lemma pretty_in_range {FT : FloatText} v : exact v = true -> check_integer_range (pretty2 v) = Ok tt.
Proof.
  intros Hv. change (scan false (pretty2 v) = Ok tt). unfold pretty2, dumps. simpl. by rewrite (scan_write _ FloatPython).
Qed.

(** ** Properties *)

Section properties.
Context {FT : FloatText}.

(** The canonical text of a value determines the value, even when more text follows it: two
    well-formed values without doubles whose canonical texts agree up to remainders that do not
    start with a digit are the same value, and the remainders are equal. *)
Theorem canonical_prefix_free (v w : Value) (r1 r2 : string)
  (Hv : exact v = true) (Hw : exact w = true) (H1 : stop r1 = true) (H2 : stop r2 = true) :
  canonical v +:+ r1 = canonical w +:+ r2 -> v = w /\ r1 = r2.
Proof. by apply cw_prefix. Qed.

(** What the installer writes, the integer check of its reader accepts: the canonical text and
    the two-space pretty text of every well-formed value pass [check_integer_range], whatever
    quotes, escapes, signs and digits its strings and numbers hold. *)
Theorem written_text_passes_check (v : Value) (Hv : exact v = true) :
  check_integer_range (canonical v) = Ok tt /\ check_integer_range (pretty2 v) = Ok tt.
Proof.
  split; [|by apply pretty_in_range].
  change (scan false (canonical v) = Ok tt). rewrite <-(app_nil_r_s (canonical v)).
  unfold canonical, dumps. simpl. by rewrite (scan_write _ FloatPython).
Qed.

(** [check_integer_range] has fuel to spare: any fuel of at least the text's length gives the
    verdict of the check, so the loop of the source ends with that verdict. *)
Theorem range_scan_enough (fuel : nat) (text : string) (H : (String.length text <= fuel)%nat) :
  range_scan fuel false text = check_integer_range text.
Proof. by apply range_scan_fuel. Qed.
End properties.

(** ** The properties at concrete values *)

Definition sample_value : Value :=
  obj [("b", Array [json_int (-7); Str ("quote" +:+ dq); Bool true]); ("a", Null)].

Lemma canonical_prefix_free_witness :
  canonical (FT := no_floats) sample_value +:+ "," = canonical (FT := no_floats) sample_value +:+ "," /\
  sample_value = sample_value /\ "," = ",".
Proof.
  split; [reflexivity|].
  apply (canonical_prefix_free (FT := no_floats) sample_value sample_value "," ","); reflexivity.
Defined.

Lemma written_text_passes_check_witness :
  check_integer_range (canonical (FT := no_floats) sample_value) = Ok tt /\
  check_integer_range (pretty2 (FT := no_floats) sample_value) = Ok tt.
Proof. apply (written_text_passes_check (FT := no_floats) sample_value). reflexivity. Defined.

Lemma range_scan_enough_witness : range_scan 9 false "[-12, 3]" = check_integer_range "[-12, 3]".
Proof. apply range_scan_enough. vm_compute. lia. Defined.
