(* ===== verification/PyText.v ===== *)
(** * Python text semantics

    [pc_common/src/pytext.rs] (whitespace, [splitlines], [repr], character slices),
    [pc_host/src/pytext.rs] (the host's printability) and [installer_core/src/pystr.rs]. Unicode
    case mapping and the alphanumeric property are Rust's tables: the class [UnicodeText]. *)

From S2P Require Import Prelude Utf8 Numeric.

Class UnicodeText := {
  to_lowercase : string -> string;  (** [str::to_lowercase] *)
  is_alphanumeric : char -> bool;   (** [char::is_alphanumeric] *)
}.

(** An instance for ASCII texts: the case mapping and the property of the ASCII letters. *)
Fixpoint ascii_lower (s : string) : string :=
  match s with
  | EmptyString => EmptyString
  | String a s' =>
      let n := Ascii.N_of_ascii a in
      String (if ((65 <=? n) && (n <=? 90))%N then Ascii.ascii_of_N (n + 32) else a) (ascii_lower s')
  end.
Definition ascii_text : UnicodeText :=
  {| to_lowercase := ascii_lower;
     is_alphanumeric := fun c =>
       (((48 <=? c) && (c <=? 57)) || ((65 <=? c) && (c <=? 90)) || ((97 <=? c) && (c <=? 122)))%N |}.

Definition in_range (lo hi c : N) : bool := ((lo <=? c) && (c <=? hi))%N.

(** [str.isspace()] of one character. *)
Definition is_space (c : char) : bool :=
  in_range 0x09 0x0d c || in_range 0x1c 0x20 c || (c =? 0x85)%N || (c =? 0xa0)%N || (c =? 0x1680)%N
  || in_range 0x2000 0x200a c || (c =? 0x2028)%N || (c =? 0x2029)%N || (c =? 0x202f)%N
  || (c =? 0x205f)%N || (c =? 0x3000)%N.

(** [trim_start_matches(p)] on characters. *)
Fixpoint drop_while (p : char -> bool) (l : list char) : list char :=
  match l with c :: l' => if p c then drop_while p l' else l | [] => [] end.

Definition trim_matches (p : char -> bool) (l : list char) : list char :=
  rev (drop_while p (rev (drop_while p l))).

(** [str.strip()]. *)
Definition strip (text : string) : string := of_chars (trim_matches is_space (chars text)).

(** [text.split(p)]: the pieces between the separators, one more than there are separators. *)
Fixpoint split_on (p : char -> bool) (l : list char) : list (list char) :=
  match l with
  | [] => [[]]
  | c :: l' =>
      if p c then [] :: split_on p l'
      else match split_on p l' with x :: r => (c :: x) :: r | [] => [[c]] end
  end.

Definition nonempty_chars (l : list char) : bool := match l with [] => false | _ => true end.

(** [str.split()]. *)
Definition split_whitespace (text : string) : list string :=
  map of_chars (List.filter nonempty_chars (split_on is_space (chars text))).

Definition is_line_break (c : char) : bool :=
  (c =? 0x0a)%N || (c =? 0x0d)%N || (c =? 0x0b)%N || (c =? 0x0c)%N || in_range 0x1c 0x1e c
  || (c =? 0x85)%N || (c =? 0x2028)%N || (c =? 0x2029)%N.

(** The loop of [splitlines]; [cur] holds [text[start..index]] in reverse. *)
Fixpoint splitlines_go (cur : list char) (l : list char) : list (list char) :=
  match l with
  | [] => match cur with [] => [] | _ => [rev cur] end
  | c :: l' =>
      if is_line_break c then
        rev cur :: match l' with
                   | d :: l'' => if ((c =? 13) && (d =? 10))%N then splitlines_go [] l''
                                 else splitlines_go [] l'
                   | [] => splitlines_go [] l'
                   end
      else splitlines_go (c :: cur) l'
  end.

Definition splitlines (text : string) : list string := map of_chars (splitlines_go [] (chars text)).

Definition is_ascii_digits (text : string) : bool := negb (str_empty text) && forallb_s is_digit text.

(** [text.contains(pattern)]. *)
Fixpoint contains_s (pattern s : string) : bool :=
  String.prefix pattern s || match s with EmptyString => false | String _ s' => contains_s pattern s' end.

Fixpoint last_byte (s : string) : option Ascii.ascii :=
  match s with
  | EmptyString => None
  | String a EmptyString => Some a
  | String _ s' => last_byte s'
  end.

Definition is_byte (b : Ascii.ascii) (o : option Ascii.ascii) : bool :=
  match o with Some a => Ascii.eqb a b | None => false end.
Arguments is_byte b%_char_scope o.
Definition first_byte (s : string) : option Ascii.ascii :=
  match s with String a _ => Some a | EmptyString => None end.

Definition ascii_int_parts (raw : string) : option (bool * string) :=
  let text := strip raw in
  let '(negative, body) := match text with
    | String a r => if Ascii.eqb a "-"%char then (true, r)
                    else if Ascii.eqb a "+"%char then (false, r) else (false, text)
    | EmptyString => (false, text)
    end in
  if str_empty body || is_byte "_" (first_byte body) || is_byte "_" (last_byte body)
     || contains_s "__" body || negb (forallb_s (fun b => is_digit b || Ascii.eqb b "_"%char) body)
  then None else Some (negative, body).

Definition head_chars (text : string) (limit : nat) : string := of_chars (take limit (chars text)).

Definition tail_chars (text : string) (limit : nat) : string :=
  if (limit =? 0)%nat then EmptyString
  else of_chars (drop (length (chars text) - limit) (chars text)).

Definition escape_code (code : N) : string :=
  if (code <=? 0xff)%N then "\x" +:+ pad0 2 (fmt_hex code)
  else if (code <=? 0xffff)%N then "\u" +:+ pad0 4 (fmt_hex code)
  else "\U" +:+ pad0 8 (fmt_hex code).

Definition repr_char (printable : char -> bool) (quote c : char) : string :=
  if (c =? 92)%N then "\\"
  else if (c =? 9)%N then "\t"
  else if (c =? 10)%N then "\n"
  else if (c =? 13)%N then "\r"
  else if (c =? quote)%N then "\" +:+ encode_char c
  else if (c <? 0x20)%N || (c =? 0x7f)%N || negb (printable c) then escape_code c
  else encode_char c.

Definition repr_with_printable (printable : char -> bool) (text : string) : string :=
  let cs := chars text in
  let has x := existsb (N.eqb x) cs in
  let quote := if has 39%N && negb (has 34%N) then 34%N else 39%N in
  encode_char quote +:+ join EmptyString (map (repr_char printable quote) cs) +:+ encode_char quote.

(** [pc_host::pytext::printable]. *)
Definition printable (code : char) : bool :=
  if (code <? 0x20)%N || (code =? 0x7f)%N || in_range 0x80 0xa0 code || (code =? 0xad)%N then false
  else negb (in_range 0x2000 0x200f code || in_range 0x2028 0x202f code || in_range 0x205f 0x206f code
             || (code =? 0x3000)%N || (code =? 0xfeff)%N || (code =? 0xfffe)%N || (code =? 0xffff)%N
             || in_range 0xd800 0xdfff code).

(** [pc_host::pytext::py_repr]. *)
Definition py_repr (text : string) : string := repr_with_printable printable text.

(** ** [installer_core/src/pystr.rs] *)

Definition lower `{UnicodeText} (text : string) : string := to_lowercase text.
Definition char_len (text : string) : nat := length (chars text).
Definition nonempty (text : string) : bool := negb (str_empty (strip text)).
Definition is_word_char `{UnicodeText} (c : char) : bool := (c =? ch "_")%N || is_alphanumeric c.

Definition tuple_repr (items : list string) : string :=
  let parts := map py_repr items in
  match parts with
  | [p] => "(" +:+ p +:+ ",)"
  | _ => "(" +:+ join ", " parts +:+ ")"
  end.

(** [text.split('/')] on bytes. *)
Fixpoint split_byte (b : Ascii.ascii) (s : string) : list string :=
  match s with
  | EmptyString => [EmptyString]
  | String a s' =>
      if Ascii.eqb a b then EmptyString :: split_byte b s'
      else match split_byte b s' with x :: r => String a x :: r | [] => [String a EmptyString] end
  end.

(** The components [.split('/').filter(|p| !p.is_empty() && *p != ".")] keeps. *)
Definition path_parts (text : string) : list string :=
  List.filter (fun p => negb (str_empty p) && negb (p =?s ".")) (split_byte "/"%char text).

Definition py_path_str (text : string) : string :=
  let prefix :=
    if String.prefix "//" text && negb (String.prefix "///" text) then "//"
    else if String.prefix "/" text then "/" else EmptyString in
  let joined := prefix +:+ join "/" (path_parts text) in
  if str_empty joined then "." else joined.

(** [text.rfind(b)]: the texts before and after the last [b]. *)
Fixpoint rsplit_byte (b : Ascii.ascii) (s : string) : option (string * string) :=
  match s with
  | EmptyString => None
  | String a s' =>
      match rsplit_byte b s' with
      | Some (x, y) => Some (String a x, y)
      | None => if Ascii.eqb a b then Some (EmptyString, s') else None
      end
  end.

Definition with_suffix (text suffix : string) : result string string :=
  let normalized := py_path_str text in
  let '(parent, name) := match rsplit_byte "/"%char normalized with
    | Some (x, y) => (x +:+ "/", y)
    | None => (EmptyString, normalized)
    end in
  if str_empty name || (name =?s ".") || (name =?s "..")
  then Err ("PosixPath(" +:+ py_repr normalized +:+ ") has an empty name")
  else
    let stem := match rsplit_byte "."%char name with
      | Some (x, y) => if negb (str_empty x) && negb (str_empty y) then x else name
      | None => name
      end in
    Ok (parent +:+ stem +:+ suffix).

(** [text.replace("\r\n", "\n").replace('\r', "\n")]. *)
Fixpoint universal_newlines (text : string) : string :=
  match text with
  | EmptyString => EmptyString
  | String a s =>
      if Ascii.eqb a (Ascii.ascii_of_nat 13) then
        match s with
        | String b s' => if Ascii.eqb b (Ascii.ascii_of_nat 10)
                         then String b (universal_newlines s')
                         else String (Ascii.ascii_of_nat 10) (universal_newlines s)
        | EmptyString => nl
        end
      else String a (universal_newlines s)
  end.

(** ** Rust's prefix and suffix functions *)

(** [text.strip_prefix(p)]. *)
Fixpoint strip_prefix (p s : string) : option string :=
  match p, s with
  | EmptyString, _ => Some s
  | String a p', String b s' => if Ascii.eqb a b then strip_prefix p' s' else None
  | String _ _, EmptyString => None
  end.

(** [text.trim_end_matches(b)] for an ASCII [b]. *)
Fixpoint trim_end_byte (b : Ascii.ascii) (s : string) : string :=
  match s with
  | EmptyString => EmptyString
  | String a s' => let t := trim_end_byte b s' in if str_empty t && Ascii.eqb a b then EmptyString else String a t
  end.
