(* ===== verification/TextFacts.v ===== *)
(** * Splitting, joining, and checks by evaluation

    Lemmas about [split_byte] and [join], bit fields, and facts that are checked on every number
    below a bound, shared by the components that read and write text. *)

From S2P Require Import Prelude Utf8 Numeric PyText.

(** ** [split] and [join] *)

Lemma split_ne b s : split_byte b s <> [].
Proof. destruct s as [|a s]; simpl; [done|]. destruct (Ascii.eqb a b); [done|]. by destruct (split_byte b s). Qed.

Lemma split_app b x y : split_byte b (x +:+ String b y) = split_byte b x ++ split_byte b y.
Proof.
  induction x as [|a x IH].
  - rewrite app_nil_s. simpl. by rewrite Ascii.eqb_refl.
  - rewrite app_cons_s. simpl. rewrite IH. destruct (Ascii.eqb a b); [done|].
    pose proof (split_ne b x). by destruct (split_byte b x).
Qed.

Lemma split_parts b s : Forall (fun p => split_byte b p = [p]) (split_byte b s).
Proof.
  induction s as [|a s IH]; simpl; [repeat constructor|]. destruct (Ascii.eqb a b) eqn:Ha; [by apply Forall_cons_2|].
  destruct (split_byte b s) as [|x r]; [by apply Forall_cons_2; [simpl; rewrite Ha|]|].
  inversion_clear IH as [|? ? Hx Hr]. apply Forall_cons_2; [|done]. simpl. by rewrite Ha, Hx.
Qed.

Lemma join_cons2 sep p q l : join sep (p :: q :: l) = p +:+ sep +:+ join sep (q :: l).
Proof. done. Qed.

Lemma split_join b l : l <> [] -> Forall (fun p => split_byte b p = [p]) l ->
  split_byte b (join (String b EmptyString) l) = l.
Proof.
  intros Hne Hl. induction Hl as [|p l Hp Hl IH]; [done|]. destruct l as [|q l]; [done|].
  rewrite join_cons2, app_cons_s, app_nil_s, split_app, IH by done. by rewrite Hp.
Qed.

Lemma join_split b s : join (String b EmptyString) (split_byte b s) = s.
Proof.
  induction s as [|a s IH]; [done|]. simpl. destruct (Ascii.eqb a b) eqn:Ha.
  - apply Ascii.eqb_eq in Ha as ->. pose proof (split_ne b s) as Hne. destruct (split_byte b s) as [|x r]; [done|].
    rewrite join_cons2, app_nil_s, app_cons_s, app_nil_s. by rewrite IH.
  - pose proof (split_ne b s) as Hne. destruct (split_byte b s) as [|x [|y r]]; [done| |].
    + simpl in *. by rewrite IH.
    + rewrite join_cons2 in *. rewrite app_cons_s. by rewrite IH.
Qed.

(** A text whose bytes all satisfy a test that the separator fails is one piece. *)
Lemma split_whole f b s : forallb_s f s = true -> f b = false -> split_byte b s = [s].
Proof.
  intros Hs Hb. induction s as [|a s IH]; [done|]. cbn [forallb_s] in Hs. apply andb_prop in Hs as [Ha Hs]. simpl.
  destruct (Ascii.eqb a b) eqn:Hab; [apply Ascii.eqb_eq in Hab; congruence|]. by rewrite IH.
Qed.

(** ** Substrings of one byte *)

Lemma contains_byte_app b x y : contains_s (String b EmptyString) (x +:+ y) =
  contains_s (String b EmptyString) x || contains_s (String b EmptyString) y.
Proof.
  assert (Hpre : forall a s, String.prefix (String b EmptyString) (String a s) = Ascii.eqb b a).
  { intros a s. simpl. destruct (Ascii.ascii_dec b a) as [->|Hne]; [rewrite Ascii.eqb_refl; by destruct s|].
    by apply Ascii.eqb_neq in Hne. }
  induction x as [|a x IH].
  - rewrite app_nil_s. done.
  - rewrite app_cons_s. cbn [contains_s]. rewrite !Hpre, IH. by rewrite orb_assoc.
Qed.

Lemma contains_none f b s : forallb_s f s = true -> f b = false -> contains_s (String b EmptyString) s = false.
Proof.
  intros Hs Hb. induction s as [|a s IH]; [done|]. cbn [forallb_s] in Hs. apply andb_prop in Hs as [Ha Hs].
  cbn [contains_s]. rewrite IH by done. rewrite orb_false_r. simpl.
  destruct (Ascii.ascii_dec b a) as [->|Hne]; [congruence|done].
Qed.

Lemma contains_join b sep l : contains_s (String b EmptyString) sep = false ->
  Forall (fun p => contains_s (String b EmptyString) p = false) l -> contains_s (String b EmptyString) (join sep l) = false.
Proof.
  intros Hsep. induction 1 as [|p l Hp Hl IH]; [done|]. destruct l as [|q l]; [done|].
  rewrite join_cons2, !contains_byte_app, Hp, Hsep. exact IH.
Qed.

(** ** Bits *)

Local Open Scope N_scope.

Lemma lor_low v p k : p < 2 ^ k -> v mod 2 ^ k = 0 -> N.lor v p = v + p.
Proof.
  intros Hp Hv. rewrite <-N.lxor_lor, N.add_nocarry_lxor; try done.
  all: apply N.bits_inj; intros i; rewrite N.land_spec, N.bits_0; destruct (N.lt_ge_cases i k) as [Hi|Hi].
  all: try (rewrite <-(N.mod_pow2_bits_low v k i), Hv, N.bits_0 by done; done).
  all: rewrite andb_comm; destruct (N.eq_dec p 0) as [->|Hp0]; [by rewrite N.bits_0|].
  all: rewrite (N.bits_above_log2 p i); [done|]; apply N.log2_lt_pow2 in Hp; lia.
Qed.

(** ** Checks by evaluation *)

Definition all_below (n : nat) (f : N -> bool) : bool := forallb (fun i => f (N.of_nat i)) (seq 0 n).
Lemma all_below_spec n f : all_below n f = true -> forall i, i < N.of_nat n -> f i = true.
Proof.
  unfold all_below. rewrite forallb_forall. intros Hf i Hi. rewrite <-(N2Nat.id i). apply Hf, in_seq. lia.
Qed.

Lemma is_digit_inv a : is_digit a = true -> exists d, d < 10 /\ a = digit d.
Proof.
  unfold is_digit. intros Ha. exists (Ascii.N_of_ascii a - 48). split; [lia|]. unfold digit.
  replace (Ascii.N_of_ascii a - 48 <? 10) with true by lia.
  replace (48 + (Ascii.N_of_ascii a - 48)) with (Ascii.N_of_ascii a) by lia. by rewrite Ascii.ascii_N_embedding.
Qed.

(** ** Prefixes *)

Lemma strip_prefix_iff p s r : strip_prefix p s = Some r <-> s = p +:+ r.
Proof.
  revert s. induction p as [|a p IH]; intros s; simpl.
  - rewrite app_nil_s. split; [by intros [= ->]|by intros ->].
  - rewrite app_cons_s. destruct s as [|b s]; [done|]. destruct (Ascii.eqb a b) eqn:E.
    + apply Ascii.eqb_eq in E as ->. rewrite IH. split; [by intros ->|by intros [= ->]].
    + split; [done|]. intros [= -> _]. by rewrite Ascii.eqb_refl in E.
Qed.

Lemma prefix_strip p s : String.prefix p s = match strip_prefix p s with Some _ => true | None => false end.
Proof.
  revert s. induction p as [|a p IH]; intros [|b s]; try done. cbn [String.prefix strip_prefix].
  destruct (Ascii.ascii_dec a b) as [->|Hn]; [by rewrite Ascii.eqb_refl, IH|]. by rewrite (proj2 (Ascii.eqb_neq a b) Hn).
Qed.
Lemma prefix_app_s p s : String.prefix p (p +:+ s) = true.
Proof. by rewrite prefix_strip, (proj2 (strip_prefix_iff p (p +:+ s) s) eq_refl). Qed.
