(* ===== verification/Secret.v ===== *)
(** * The installer's secret scanner

    [installer_core/src/secret.rs]: the hand-written equivalents of the secret regexes over
    [&[char]], by index. The plan refuses what [plan_text_has_secret] and [plan_key_is_secret]
    accept; [redact] rewrites what reaches the operator. *)

From S2P Require Import Prelude Utf8 Numeric PyText.

(** [chars.get(pos)]. *)
Definition at_pos (cs : list char) (pos : nat) : option char := cs !! pos.

Definition opt_is (p : char -> bool) (o : option char) : bool := match o with Some c => p c | None => false end.

(** [char::to_ascii_lowercase]. *)
Definition to_ascii_lowercase (c : char) : char := if in_range 65 90 c then (c + 32)%N else c.

(** [ci]: [re.IGNORECASE] equality with a lower-case ASCII letter. *)
Definition ci (c ascii_lower : char) : bool :=
  (to_ascii_lowercase c =? ascii_lower)%N
  || ((ascii_lower =? ch "k") && (c =? 0x212a))%N
  || ((ascii_lower =? ch "s") && (c =? 0x17f))%N
  || ((ascii_lower =? ch "i") && (c =? 0x130))%N
  || ((ascii_lower =? ch "i") && (c =? 0x131))%N.

Fixpoint literal_go (cs : list char) (index : nat) (word : list char) : option nat :=
  match word with
  | [] => Some index
  | expected :: word' =>
      if opt_is (fun c => ci c expected) (at_pos cs index) then literal_go cs (S index) word' else None
  end.

Definition literal (cs : list char) (pos : nat) (word : string) : option nat := literal_go cs pos (chars word).

Definition is_sep (c : char) : bool := (c =? ch "_")%N || (c =? ch " ")%N || (c =? ch "-")%N.

Definition with_separator (cs : list char) (pos : nat) (head : string) : option nat :=
  after ← literal cs pos head;
  match (if opt_is is_sep (at_pos cs after) then literal cs (S after) "key" else None) with
  | Some e => Some e
  | None => literal cs after "key"
  end.

(** The first word of the list that matches. *)
Fixpoint first_literal (cs : list char) (pos : nat) (words : list string) : option nat :=
  match words with
  | [] => None
  | w :: words' => match literal cs pos w with Some e => Some e | None => first_literal cs pos words' end
  end.

Definition name_end (cs : list char) (pos : nat) (report : bool) : option nat :=
  match first_literal cs pos ["password"; "passwd"; "secret"; "token"] with
  | Some e => Some e
  | None =>
      match with_separator cs pos "private" with
      | Some e => Some e
      | None =>
          match with_separator cs pos "api" with
          | Some e => Some e
          | None => if report then first_literal cs pos ["cookie"; "uuid"] else None
          end
      end
  end.

(** [while chars.get(pos).is_some_and(p) { pos += 1 }]; the index moves through the text at most
    once, so its length is enough fuel. *)
Fixpoint advance (fuel : nat) (p : char -> bool) (cs : list char) (pos : nat) : nat :=
  match fuel with
  | O => pos
  | S f => if opt_is p (at_pos cs pos) then advance f p cs (S pos) else pos
  end.

Definition skip_space (cs : list char) (pos : nat) : nat := advance (length cs) is_space cs pos.

Definition is_quote (c : char) : bool := (c =? 34)%N || (c =? 39)%N.
Definition is_assign (c : char) : bool := (c =? ch ":")%N || (c =? ch "=")%N.
Definition not_space (c : char) : bool := negb (is_space c).
Definition is_value_start (c : char) : bool :=
  not_space c && negb ((c =? ch ",")%N || (c =? ch "}")%N || (c =? ch "]")%N).

(** Flag form: [--password value], [--password=value]. *)
Definition flag_form (cs : list char) (pos e : nat) : bool :=
  (2 <=? pos)%nat && opt_is (N.eqb (ch "-")) (at_pos cs (pos - 2))
  && opt_is (N.eqb (ch "-")) (at_pos cs (pos - 1))
  && match at_pos cs e with
     | Some c =>
         if (c =? ch "=")%N then opt_is not_space (at_pos cs (S e))
         else if is_space c then opt_is not_space (at_pos cs (skip_space cs e))
         else false
     | None => false
     end.

(** Assignment form: [password = value], ["token": value]. *)
Definition assignment_form (cs : list char) (e : nat) : bool :=
  let after := if opt_is is_quote (at_pos cs e) then S e else e in
  let after := skip_space cs after in
  opt_is is_assign (at_pos cs after)
  && opt_is is_value_start (at_pos cs (skip_space cs (S after))).

Definition secret_at (cs : list char) (pos : nat) : bool :=
  match name_end cs pos false with
  | Some e => flag_form cs pos e || assignment_form cs e
  | None => false
  end.

Definition plan_text_has_secret (text : string) : bool :=
  let cs := chars text in existsb (secret_at cs) (seq 0 (length cs)).

Definition SECRET_PARTS : list string := ["password"; "passwd"; "secret"; "token"; "privatekey"; "apikey"].

Definition is_lower_or_digit (a : Ascii.ascii) : bool :=
  let b := Ascii.N_of_ascii a in in_range 97 122 b || is_digit a.

Fixpoint filter_bytes (f : Ascii.ascii -> bool) (s : string) : string :=
  match s with
  | EmptyString => EmptyString
  | String a s' => if f a then String a (filter_bytes f s') else filter_bytes f s'
  end.

(** The kept characters are ASCII, so filtering characters is filtering bytes. *)
Definition plan_key_is_secret `{UnicodeText} (key : string) : bool :=
  let compact := filter_bytes is_lower_or_digit (lower key) in
  existsb (fun part => contains_s part compact) SECRET_PARTS.

Definition report_text_names_secret (text : string) : bool :=
  let cs := chars text in
  existsb (fun pos => match name_end cs pos true with Some _ => true | None => false end) (seq 0 (length cs)).

(** [slice.iter().position(p)]. *)
Fixpoint position (p : char -> bool) (l : list char) : option nat :=
  match l with
  | [] => None
  | c :: l' => if p c then Some 0 else S <$> position p l'
  end.

Definition redaction_at `{UnicodeText} (cs : list char) (pos : nat) : option (nat * nat * nat) :=
  if (0 <? pos)%nat && opt_is is_word_char (at_pos cs (pos - 1)) then None else
  name_stop ← name_end cs pos false;
  let separator := skip_space cs name_stop in
  if negb (opt_is is_assign (at_pos cs separator)) then None else
  let value_start := skip_space cs (S separator) in
  first ← at_pos cs value_start;
  match (if is_quote first then position (N.eqb first) (drop (S value_start) cs) else None) with
  | Some offset => Some (name_stop, value_start, value_start + offset + 2)
  | None =>
      if is_space first then None
      else Some (name_stop, value_start, advance (length cs) not_space cs value_start)
  end.

Definition sub (cs : list char) (i j : nat) : list char := take (j - i) (drop i cs).

(** The loop of [redact] from the index [pos]. *)
Fixpoint redact_go `{UnicodeText} (fuel : nat) (cs : list char) (pos : nat) : list char :=
  match fuel with
  | O => []
  | S f =>
      match at_pos cs pos with
      | None => []
      | Some c =>
          match redaction_at cs pos with
          | Some (name_stop, value_start, value_stop) =>
              sub cs pos name_stop ++ sub cs name_stop value_start ++ chars "[REDACTED]"
                ++ redact_go f cs value_stop
          | None => c :: redact_go f cs (S pos)
          end
      end
  end.

Definition redact `{UnicodeText} (text : string) : string :=
  let cs := chars text in of_chars (redact_go (length cs) cs 0).
