(* ===== verification/Model.v ===== *)
(** * The installer configuration

    [installer_core/src/model.rs]: the typed configuration and the canonical dictionary that
    enters the plan digest. Rust's fixed-width integers are [Z]; [lane_slot_port] keeps its
    narrowing cast and the panic of an overflowing sum. *)

From S2P Require Import Prelude BTree Numeric Json.

Inductive HostMode := Fresh | Coexist.
Inductive Profile := ProfileCore | CoreNaive | CoreMieru | Full.
Inductive ThreeXuiMode := XuiNone | Existing | ManagedNew.
Inductive EgressChoice := EgressDirect | EgressWarp | EgressRouter.

#[export] Instance HostMode_eq_dec : EqDecision HostMode.
Proof. solve_decision. Defined.
#[export] Instance Profile_eq_dec : EqDecision Profile.
Proof. solve_decision. Defined.
#[export] Instance ThreeXuiMode_eq_dec : EqDecision ThreeXuiMode.
Proof. solve_decision. Defined.
#[export] Instance EgressChoice_eq_dec : EqDecision EgressChoice.
Proof. solve_decision. Defined.

Module HostMode.
Definition ALL : list HostMode := [Fresh; Coexist].
Definition value (m : HostMode) : string := match m with Fresh => "fresh" | Coexist => "coexist" end.
End HostMode.

Module Profile.
Definition ALL : list Profile := [ProfileCore; CoreNaive; CoreMieru; Full].
Definition value (p : Profile) : string :=
  match p with ProfileCore => "core" | CoreNaive => "core-naive" | CoreMieru => "core-mieru" | Full => "full" end.
Definition includes_naive (p : Profile) : bool := match p with CoreNaive | Full => true | _ => false end.
Definition includes_mieru (p : Profile) : bool := match p with CoreMieru | Full => true | _ => false end.
End Profile.

Module ThreeXuiMode.
Definition ALL : list ThreeXuiMode := [XuiNone; Existing; ManagedNew].
Definition value (m : ThreeXuiMode) : string :=
  match m with XuiNone => "none" | Existing => "existing" | ManagedNew => "managed-new" end.
End ThreeXuiMode.

Module EgressChoice.
Definition ALL : list EgressChoice := [EgressDirect; EgressWarp; EgressRouter].
Definition value (c : EgressChoice) : string :=
  match c with EgressDirect => "direct" | EgressWarp => "warp" | EgressRouter => "router" end.
End EgressChoice.

Definition LANE_SLOT_BASE_PORT : Z := 46100.
Definition MAX_LANE_SLOTS : Z := 8.
Definition DEFAULT_LANE_SLOTS : Z := 4.

(** [LANE_SLOT_BASE_PORT + index as u16]: the cast drops the high bits; [None] is the overflow
    panic of the sum. *)
Definition lane_slot_port (index : Z) : option Z :=
  let port := (LANE_SLOT_BASE_PORT + index mod 65536)%Z in
  if (port <? 65536)%Z then Some port else None.

Definition ROUTER_PORTS : list (string * Z) := [("naive", 45101%Z); ("mieru", 45102%Z)].
Definition TRUSTTUNNEL_ROUTER_PORT : Z := 45104.
Definition DEFAULT_RELAY_PORT : Z := 45443.

Definition AWG_VERSIONS : list string := ["1.5"; "2.0"; "3.1"].
Definition AWG_DEFAULT_SUBNETS : list (string * string) :=
  [("1.5", "10.66.15.0/24"); ("2.0", "10.66.20.0/24"); ("3.1", "10.66.31.0/24")].
Definition AWG_DEFAULT_DNS : list string := ["1.1.1.1"; "1.0.0.1"].
Definition AWG_DEFAULT_MTU : Z := 1280.

(** [awg15], [awg20], [awg31]. *)
Definition awg_interface (version : string) : string :=
  "awg" +:+ (fix go s := match s with
             | EmptyString => EmptyString
             | String a s' => if Ascii.eqb a "."%char then go s' else String a (go s') end) version.

Definition TT_DEFAULT_LISTEN_PORT : Z := 4453.
Definition TT_METRICS_PORT : Z := 1987.

Record DomainConfig := {
  d_panel : string; d_mtproxy : string; d_naive : option string; d_mieru : option string;
  d_subscription : option string; d_mcp : option string; d_trusttunnel : option string;
}.

Definition DomainConfig_new (panel mtproxy : string) : DomainConfig :=
  {| d_panel := panel; d_mtproxy := mtproxy; d_naive := None; d_mieru := None;
     d_subscription := None; d_mcp := None; d_trusttunnel := None |}.

Record MieruConfig := { tcp_ports : list Z; udp_ports : list Z; lane_slots : Z }.

Definition slot_ports (m : MieruConfig) : option (list Z) :=
  mapM lane_slot_port (map (fun i => Z.of_nat (S i)) (seq 0 (Z.to_nat (lane_slots m)))).

Record ThreeXuiConfig := {
  x_mode : ThreeXuiMode; x_panel_domain : option string; x_vless_tcp_domain : option string;
  x_vless_xhttp_domain : option string; x_hysteria_domain : option string; x_warp : bool;
  x_warp_domains : list string; x_warp_port : Z; x_subscription_domain : option string;
}.

Definition ThreeXuiConfig_new (mode : ThreeXuiMode) : ThreeXuiConfig :=
  {| x_mode := mode; x_panel_domain := None; x_vless_tcp_domain := None;
     x_vless_xhttp_domain := None; x_hysteria_domain := None; x_warp := false;
     x_warp_domains := []; x_warp_port := 40000; x_subscription_domain := None |}.

Record EgressConfig := {
  e_warp : bool; e_warp_port : Z; e_naive : EgressChoice; e_mieru : EgressChoice;
  e_router : bool; e_relay_port : Z;
}.

Definition EgressConfig_default : EgressConfig :=
  {| e_warp := false; e_warp_port := 40000; e_naive := EgressDirect; e_mieru := EgressDirect;
     e_router := false; e_relay_port := 0 |}.

Definition provider_url (e : EgressConfig) : option string :=
  if e_warp e then Some ("socks5://127.0.0.1:" +:+ fmt_Z (e_warp_port e)) else None.

Definition router_url (e : EgressConfig) (service : string) : option string :=
  '(_, port) ← find (fun p => p.1 =?s service) ROUTER_PORTS;
  if e_router e then Some ("socks5://127.0.0.1:" +:+ fmt_Z port) else None.

Definition derived (x : ThreeXuiConfig) : EgressConfig :=
  let whole := x_warp x && match x_warp_domains x with [] => true | _ => false end in
  let choice := if whole then EgressWarp else EgressDirect in
  {| e_warp := x_warp x; e_warp_port := x_warp_port x; e_naive := choice; e_mieru := choice;
     e_router := e_router EgressConfig_default; e_relay_port := e_relay_port EgressConfig_default |}.

Record AmneziaWgConfig := {
  a_host : string; a_versions : list string; a_ports : list Z; a_mtu : Z; a_dns : list string;
}.

Definition port_map (a : AmneziaWgConfig) : list (string * Z) := zip (a_versions a) (a_ports a).
Definition interfaces (a : AmneziaWgConfig) : list string := map awg_interface (a_versions a).

Record TrustTunnelConfig := { t_hostname : string; t_listen_port : Z }.
Record FirewallConfig := { manage_ufw : bool }.
Record IngressConfig := {
  i_proxy_protocol_bridge : option string; i_panel_tls_port : Z; i_skip_renewal_dry_run : bool;
}.

Record InstallerConfig := {
  c_schema : Z; c_host_mode : HostMode; c_profile : Profile; c_acme_email : string;
  c_initial_user : string; c_domains : DomainConfig; c_mieru : option MieruConfig;
  c_three_xui : ThreeXuiConfig; c_firewall : FirewallConfig; c_egress : option EgressConfig;
  c_ingress : option IngressConfig; c_amneziawg : option AmneziaWgConfig;
  c_trusttunnel : option TrustTunnelConfig;
}.

Definition effective_egress (c : InstallerConfig) : EgressConfig :=
  match c_egress c with Some e => e | None => derived (c_three_xui c) end.

Definition panel_tls_port (c : InstallerConfig) : Z :=
  match c_ingress c with Some i => i_panel_tls_port i | None => 8443 end.

Definition flatten_opt {A} (l : list (option A)) : list A := omap id l.

Definition required_domains (c : InstallerConfig) : list string :=
  let d := c_domains c in
  let x := c_three_xui c in
  dedup (sort_str (flatten_opt
    [Some (d_panel d); Some (d_mtproxy d); d_naive d; d_mieru d; d_subscription d; d_mcp d;
     d_trusttunnel d; x_panel_domain x; x_vless_tcp_domain x; x_vless_xhttp_domain x;
     x_hysteria_domain x; x_subscription_domain x])).

(** [json!] of the field types. *)
Definition json_opt (o : option string) : Value := match o with Some s => Str s | None => Null end.
Definition json_strs (l : list string) : Value := Array (map Str l).
Definition json_ints (l : list Z) : Value := Array (map json_int l).

Definition canonical_dict (c : InstallerConfig) : Value :=
  let d := c_domains c in
  let x := c_three_xui c in
  obj [
    ("schema", json_int (c_schema c));
    ("host_mode", Str (HostMode.value (c_host_mode c)));
    ("profile", Str (Profile.value (c_profile c)));
    ("acme_email", Str (c_acme_email c));
    ("initial_user", Str (c_initial_user c));
    ("domains", obj [
      ("panel", Str (d_panel d)); ("mtproxy", Str (d_mtproxy d)); ("naive", json_opt (d_naive d));
      ("mieru", json_opt (d_mieru d)); ("subscription", json_opt (d_subscription d));
      ("mcp", json_opt (d_mcp d)); ("trusttunnel", json_opt (d_trusttunnel d))]);
    ("mieru", match c_mieru c with
      | Some m => obj [("tcp_ports", json_ints (tcp_ports m)); ("udp_ports", json_ints (udp_ports m));
                       ("lane_slots", json_int (lane_slots m))]
      | None => Null end);
    ("three_xui", obj [
      ("mode", Str (ThreeXuiMode.value (x_mode x))); ("panel_domain", json_opt (x_panel_domain x));
      ("vless_tcp_domain", json_opt (x_vless_tcp_domain x));
      ("vless_xhttp_domain", json_opt (x_vless_xhttp_domain x));
      ("hysteria_domain", json_opt (x_hysteria_domain x)); ("warp", Bool (x_warp x));
      ("warp_domains", json_strs (x_warp_domains x)); ("warp_port", json_int (x_warp_port x));
      ("subscription_domain", json_opt (x_subscription_domain x))]);
    ("firewall", obj [("manage_ufw", Bool (manage_ufw (c_firewall c)))]);
    ("egress", match c_egress c with
      | Some e => obj [
          ("warp", Bool (e_warp e)); ("warp_port", json_int (e_warp_port e));
          ("naive", Str (EgressChoice.value (e_naive e))); ("mieru", Str (EgressChoice.value (e_mieru e)));
          ("router", Bool (e_router e)); ("relay_port", json_int (e_relay_port e))]
      | None => Null end);
    ("ingress", match c_ingress c with
      | Some i => obj [
          ("proxy_protocol_bridge", json_opt (i_proxy_protocol_bridge i));
          ("panel_tls_port", json_int (i_panel_tls_port i));
          ("skip_renewal_dry_run", Bool (i_skip_renewal_dry_run i))]
      | None => Null end);
    ("amneziawg", match c_amneziawg c with
      | Some a => obj [
          ("host", Str (a_host a)); ("versions", json_strs (a_versions a)); ("ports", json_ints (a_ports a));
          ("mtu", json_int (a_mtu a)); ("dns", json_strs (a_dns a))]
      | None => Null end);
    ("trusttunnel", match c_trusttunnel c with
      | Some t => obj [("hostname", Str (t_hostname t)); ("listen_port", json_int (t_listen_port t))]
      | None => Null end)].
