(* ===== verification/Plan.v ===== *)
(** * The install plan

    [installer_core/src/planner.rs]: audit facts, actions, evidence, the release identity, the
    plan with its canonical JSON and digest, and the secret scanner every one of them passes.
    SHA-256 and [serde_json]'s own [Display] are parameters. *)

From S2P Require Import Prelude BTree Utf8 Numeric Json PyText Secret Model.

Class Sha256 := { sha256_hex : string -> string  (** [pc_host::fs::sha256_hex] of the text's bytes *) }.
Class SerdeDisplay := { value_display : Value -> string  (** [Display] of [serde_json::Value] *) }.

(** Instances to evaluate examples with: 64 hexadecimal digits of a polynomial hash; nothing
    displayed. *)
Definition toy_hash : Sha256 :=
  {| sha256_hex := fun s =>
       pad0 64 (fmt_hex (fold_left (fun h b => (h * 257 + b + 1) mod 2 ^ 61)%N
                                   (map Ascii.N_of_ascii (String.list_ascii_of_string s)) 7%N)) |}.
Definition no_display : SerdeDisplay := {| value_display := fun _ => EmptyString |}.

Definition PLAN_SCHEMA : Z := 1.

Inductive PlanError :=
| PlanErr (message : string)
| Stale (message : string)
| AdapterErr (class message : string).

#[export] Instance PlanError_eq_dec : EqDecision PlanError.
Proof. solve_decision. Defined.

Module PlanError.
Definition new (message : string) : PlanError := PlanErr message.
Definition adapter (class message : string) : PlanError := AdapterErr class message.
Definition message (e : PlanError) : string :=
  match e with PlanErr m | Stale m => m | AdapterErr _ m => m end.
Definition python_class_name (e : PlanError) : string :=
  match e with PlanErr _ => "PlanError" | Stale _ => "StalePlanError" | AdapterErr c _ => c end.
Definition is_stale (e : PlanError) : bool := match e with Stale _ => true | _ => false end.
End PlanError.

Abbreviation plan_result := (result PlanError).

(** ** Facts *)

Unset Elimination Schemes.
Inductive Fact : Type :=
| FNull
| FBool (b : bool)
| FInt (z : Z)
| FFloat (f : f64)
| FStr (s : string)
| FList (items : list Fact)
| FSet (items : list Fact)
| FMap (map : bmap Fact).
Set Elimination Schemes.

Section Fact_ind.
Context (P : Fact -> Prop).
Context (Hnull : P FNull) (Hbool : forall b, P (FBool b)) (Hint : forall z, P (FInt z))
  (Hfloat : forall f, P (FFloat f)) (Hstr : forall s, P (FStr s))
  (Hlist : forall l, Forall P l -> P (FList l)) (Hset : forall l, Forall P l -> P (FSet l))
  (Hmap : forall m : bmap Fact, Forall (fun e => P e.2) m -> P (FMap m)).

Fixpoint Fact_ind (v : Fact) : P v :=
  let items := (fix go l := match l return Forall P l with
      | [] => @Forall_nil_2 _ _ | x :: l' => @Forall_cons_2 _ _ _ _ (Fact_ind x) (go l') end) in
  match v with
  | FNull => Hnull
  | FBool b => Hbool b
  | FInt z => Hint z
  | FFloat f => Hfloat f
  | FStr s => Hstr s
  | FList l => Hlist l (items l)
  | FSet l => Hset l (items l)
  | FMap m => Hmap m ((fix go m := match m return Forall (fun e => P e.2) m with
      | [] => @Forall_nil_2 _ _ | e :: m' => @Forall_cons_2 _ _ _ _ (Fact_ind e.2) (go m') end) m)
  end.
End Fact_ind.

(** [f64::is_finite]. *)
Definition f64_finite (f : f64) : bool :=
  match f with SpecFloat.S754_nan | SpecFloat.S754_infinity _ => false | _ => true end.

(** [values.dedup_by(|a, b| a.0 == b.0)]: of neighbours with one key the first stays. *)
Fixpoint dedup_key_after {A} (k : string) (l : list (string * A)) : list (string * A) :=
  match l with
  | [] => []
  | x :: l' => if x.1 =?s k then dedup_key_after k l' else x :: dedup_key_after x.1 l'
  end.
Definition dedup_key {A} (l : list (string * A)) : list (string * A) :=
  match l with [] => [] | x :: l' => x :: dedup_key_after x.1 l' end.

Module Fact.
Section canonical.
Context {FT : FloatText}.

Fixpoint canonical (f : Fact) : plan_result Value :=
  match f with
  | FNull => Ok Null
  | FBool b => Ok (Bool b)
  | FInt z => Ok (Num (NInt z))
  | FFloat d =>
      if f64_finite d then Ok (Num (NFloat d))
      else Err (PlanError.new "non-finite float is forbidden in canonical data")
  | FStr s => Ok (Str s)
  | FList items => Array <$> mapM canonical items
  | FSet items =>
      values ← mapM (fun item => (fun v => (Json.canonical v, v)) <$> canonical item) items;
      Ok (Array (map snd (dedup_key (sort_entries values))))
  | FMap m =>
      entries ← mapM (fun e => (fun v => (e.1, v)) <$> canonical e.2) m;
      Ok (Object (bcollect entries))
  end.
End canonical.

(** [n as f64]: round to nearest, ties to even. *)
Definition u64_as_f64 (z : Z) : f64 := SpecFloat.binary_normalize 53 1024 z 0 false.

(** [impl From<Value> for Fact]. *)
Fixpoint from (v : Value) : Fact :=
    match v with
    | Null => FNull
    | Bool b => FBool b
    | Num n =>
        match num_as_i64 n with
        | Some z => FInt z
        | None => FFloat (match n with NInt z => u64_as_f64 z | NFloat f => f end)
        end
    | Str s => FStr s
    | Array l => FList (map from l)
    | Object m => FMap (bcollect (List.map (fun e => (e.1, from e.2)) m))
    end.
End Fact.

(** ** Audit facts *)

Record AuditFacts := {
  af_platform : bmap Value; af_listeners : bmap Value; af_ownership : bmap Value;
  af_topology : bmap Value; af_prerequisites : bmap Value; af_transient : bmap Value;
}.

Definition FRESHNESS : list (string * string) :=
  [("platform", "platform facts changed"); ("listeners", "listener facts changed");
   ("ownership", "ownership facts changed"); ("topology", "topology facts changed");
   ("prerequisites", "prerequisite facts changed")].

Section facts.
Context {FT : FloatText}.

(** The [unreachable!] of the source is the last [Err]. *)
Definition canonical_map (fact : Fact) (refusal : string) : plan_result (bmap Value) :=
  match fact with
  | FMap _ =>
      v ← Fact.canonical fact;
      match v with Object m => Ok m | _ => Err (PlanError.new "a map canonicalises to an object") end
  | _ => Err (PlanError.new refusal)
  end.

Definition group (name : string) (fact : Fact) : plan_result (bmap Value) :=
  canonical_map fact (name +:+ " facts must be a mapping").

Definition from_groups (platform listeners ownership topology prerequisites transient : Fact)
  : plan_result AuditFacts :=
  platform ← group "platform" platform;
  listeners ← group "listeners" listeners;
  ownership ← group "ownership" ownership;
  topology ← group "topology" topology;
  prerequisites ← group "prerequisites" prerequisites;
  transient ← group "transient" transient;
  Ok {| af_platform := platform; af_listeners := listeners; af_ownership := ownership;
        af_topology := topology; af_prerequisites := prerequisites; af_transient := transient |}.
End facts.

Definition stable_dict (f : AuditFacts) : Value :=
  obj [("listeners", Object (af_listeners f)); ("ownership", Object (af_ownership f));
       ("platform", Object (af_platform f)); ("prerequisites", Object (af_prerequisites f));
       ("topology", Object (af_topology f))].

Definition stable_group (f : AuditFacts) (name : string) : bmap Value :=
  if name =?s "platform" then af_platform f
  else if name =?s "listeners" then af_listeners f
  else if name =?s "ownership" then af_ownership f
  else if name =?s "topology" then af_topology f
  else af_prerequisites f.

(** [PartialEq for AuditFacts]. *)
Definition AuditFacts_eqb (f g : AuditFacts) : bool := value_eqb (stable_dict f) (stable_dict g).

(** ** The secret scanner *)

Section scanner.
Context {UT : UnicodeText}.

Fixpoint assert_secret_free (value : Value) (path : string) : plan_result unit :=
  match value with
  | Object m =>
      try_for (fun e =>
        if plan_key_is_secret e.1
        then Err (PlanError.new ("secret field is forbidden at " +:+ path +:+ "." +:+ e.1))
        else assert_secret_free e.2 (path +:+ "." +:+ e.1)) m
  | Array items =>
      (fix go (index : nat) items := match items with
        | [] => Ok tt
        | item :: items' =>
            match assert_secret_free item (path +:+ "[" +:+ fmt_nat index +:+ "]") with
            | Ok _ => go (S index) items'
            | Err e => Err e
            end
        end) 0 items
  | Str text =>
      if plan_text_has_secret text
      then Err (PlanError.new ("secret material is forbidden at " +:+ path))
      else Ok tt
  | _ => Ok tt
  end.
End scanner.

(** ** Actions *)

Record Action := {
  act_id : string; act_adapter : string; act_owner : string;
  act_mutations : list string; act_preconditions : list string; act_verification : list string;
  act_inverse : list string; act_credentials_required : bool;
}.

#[export] Instance Action_eq_dec : EqDecision Action.
Proof. solve_decision. Defined.

Definition ACTION_FIELDS : list string :=
  ["adapter"; "credentials_required"; "id"; "inverse"; "mutations"; "owner"; "preconditions"; "verification"].

Module Action.
Section ops.
Context {UT : UnicodeText}.

Definition to_value (a : Action) : Value :=
  obj [("adapter", Str (act_adapter a)); ("credentials_required", Bool (act_credentials_required a));
       ("id", Str (act_id a)); ("inverse", json_strs (act_inverse a)); ("mutations", json_strs (act_mutations a));
       ("owner", Str (act_owner a)); ("preconditions", json_strs (act_preconditions a));
       ("verification", json_strs (act_verification a))].

Definition validate (a : Action) : plan_result unit :=
  try_for (fun '(name, value) =>
    ensure (nonempty value) (PlanError.new ("action " +:+ name +:+ " must be a non-empty string")))
    [("id", act_id a); ("adapter", act_adapter a); ("owner", act_owner a)] ≫= fun _ =>
  try_for (fun '(name, values) =>
    ensure (negb (match values with [] => true | _ => false end || negb (forallb nonempty values)))
      (PlanError.new ("action " +:+ act_id a +:+ " must declare non-empty " +:+ name)))
    [("mutations", act_mutations a); ("preconditions", act_preconditions a);
     ("verification", act_verification a); ("inverse", act_inverse a)] ≫= fun _ =>
  assert_secret_free (to_value a) "plan".

Definition checked (a : Action) : plan_result Action := validate a ≫= fun _ => Ok a.

Definition new (i a o : string) (ms ps vs iv : list string) (c : bool) : plan_result Action :=
  checked {| act_id := i; act_adapter := a; act_owner := o; act_mutations := ms; act_preconditions := ps;
             act_verification := vs; act_inverse := iv; act_credentials_required := c |}.

(** The closure [text] of [from_value]. *)
Definition text_field (m : bmap Value) (name : string) : plan_result string :=
  let bad := Err (PlanError.new ("action " +:+ name +:+ " must be a non-empty string")) in
  match m @@ name with
  | Some (Str text) => if nonempty text then Ok text else bad
  | _ => bad
  end.

Definition nonempty_str (item : Value) : option string :=
  match item with Str text => if nonempty text then Some text else None | _ => None end.

(** One turn of the loop over the four lists. *)
Definition list_field (m : bmap Value) (i name : string) : plan_result (list string) :=
  match m @@ name with
  | Some (Array items) =>
      match mapM nonempty_str items with
      | Some ((_ :: _) as values) => Ok values
      | _ => Err (PlanError.new ("action " +:+ i +:+ " must declare non-empty " +:+ name))
      end
  | _ => Err (PlanError.new ("action " +:+ i +:+ " " +:+ name +:+ " must be a non-string sequence"))
  end.

Definition from_value (value : Value) : plan_result Action :=
  match value with
  | Object m =>
      match find (fun key => negb (mem_str key ACTION_FIELDS)) (bkeys m) with
      | Some key => Err (PlanError.new ("action got an unexpected field: " +:+ key))
      | None =>
      match find (fun key => negb (bhas key m)) ACTION_FIELDS with
      | Some key => Err (PlanError.new ("action is missing the field: " +:+ key))
      | None =>
          i ← text_field m "id";
          a ← text_field m "adapter";
          o ← text_field m "owner";
          ms ← list_field m i "mutations";
          ps ← list_field m i "preconditions";
          vs ← list_field m i "verification";
          iv ← list_field m i "inverse";
          match m @@ "credentials_required" with
          | Some (Bool c) =>
              let action := {| act_id := i; act_adapter := a; act_owner := o; act_mutations := ms; act_preconditions := ps;
                               act_verification := vs; act_inverse := iv; act_credentials_required := c |} in
              assert_secret_free (to_value action) "plan" ≫= fun _ => Ok action
          | _ => Err (PlanError.new ("action " +:+ i +:+ " credentials_required must be a boolean"))
          end
      end end
  | _ => Err (PlanError.new "action must be a mapping")
  end.
End ops.
End Action.

(** ** Evidence *)

Record Evidence := {
  ev_action_id : string; ev_success : bool; ev_observations : list string; ev_details : bmap Value;
}.

Module Evidence.
Section ops.
Context {UT : UnicodeText} {FT : FloatText}.

Definition new (action_id : string) (success : bool) (observations : list string) (details : Fact)
  : plan_result Evidence :=
  ensure (nonempty action_id) (PlanError.new "evidence action_id must be a non-empty string") ≫= fun _ =>
  ensure (forallb nonempty observations)
    (PlanError.new "evidence observations must be non-empty strings") ≫= fun _ =>
  details ← canonical_map details "evidence details must be a mapping";
  assert_secret_free (obj [("action_id", Str action_id); ("details", Object details);
                           ("observations", json_strs observations)]) "plan" ≫= fun _ =>
  Ok {| ev_action_id := action_id; ev_success := success; ev_observations := observations;
        ev_details := details |}.

Definition ok (action_id : string) (observations : list string) : plan_result Evidence :=
  new action_id true observations (FMap []).
Definition failed (action_id : string) (observations : list string) : plan_result Evidence :=
  new action_id false observations (FMap []).
Definition with_details (action_id : string) (success : bool) (observations : list string)
  (details : bmap Value) : plan_result Evidence :=
  new action_id success observations (Fact.from (Object details)).

Definition to_map (e : Evidence) : bmap Value :=
  bcollect [("action_id", Str (ev_action_id e)); ("details", Object (ev_details e));
            ("observations", json_strs (ev_observations e)); ("success", Bool (ev_success e))].

(** The arguments of [with_details] are evaluated from left to right; every refusal is the same. *)
Definition from_map (m : bmap Value) : plan_result Evidence :=
  let invalid := PlanError.new "evidence is invalid" in
  items ← ok_or (m @@ "observations" ≫= as_array) invalid;
  observations ← mapM (fun item => ok_or (as_str item) invalid) items;
  action_id ← ok_or (m @@ "action_id" ≫= as_str) invalid;
  success ← ok_or (m @@ "success" ≫= as_bool) invalid;
  details ← ok_or (m @@ "details" ≫= as_object) invalid;
  with_details action_id success observations details.
End ops.
End Evidence.

(** ** The release identity *)

Record ReleaseIdentity := {
  r_tag : string; r_commit : string; r_manifest_sha256 : string;
  r_components : bmap string; r_artifacts : bmap string;
}.

#[export] Instance ReleaseIdentity_eq_dec : EqDecision ReleaseIdentity.
Proof. solve_decision. Defined.

Definition RELEASE_FIELDS : list string := ["artifacts"; "commit"; "components"; "manifest_sha256"; "tag"].

(** [json!] of a [BTreeMap] of values that serialise by [f]. *)
Definition json_map {A} (f : A -> Value) (m : bmap A) : Value :=
  Object (List.map (fun e => (e.1, f e.2)) m).

Module Release.
Section ops.
Context {UT : UnicodeText}.

Definition to_value (r : ReleaseIdentity) : Value :=
  obj [("artifacts", json_map Str (r_artifacts r)); ("commit", Str (r_commit r));
       ("components", json_map Str (r_components r)); ("manifest_sha256", Str (r_manifest_sha256 r));
       ("tag", Str (r_tag r))].

Definition validate (r : ReleaseIdentity) : plan_result unit :=
  try_for (fun '(name, value) =>
    ensure (nonempty value) (PlanError.new ("release " +:+ name +:+ " must be a non-empty string")))
    [("tag", r_tag r); ("commit", r_commit r); ("manifest_sha256", r_manifest_sha256 r)] ≫= fun _ =>
  try_for (fun '(name, m) =>
    ensure (forallb (fun e => nonempty e.1 && nonempty e.2) m)
      (PlanError.new ("release " +:+ name +:+ " must contain non-empty strings")))
    [("components", r_components r); ("artifacts", r_artifacts r)] ≫= fun _ =>
  assert_secret_free (to_value r) "plan".

Definition new (tag commit manifest_sha256 : string) (components artifacts : bmap string)
  : plan_result ReleaseIdentity :=
  let identity := {| r_tag := tag; r_commit := commit; r_manifest_sha256 := manifest_sha256;
                     r_components := components; r_artifacts := artifacts |} in
  validate identity ≫= fun _ => Ok identity.

(** The closures of [from_value]. *)
Definition text_field (m : bmap Value) (name : string) : plan_result string :=
  match m @@ name with
  | Some (Str text) => Ok text
  | Some _ => Err (PlanError.new ("release " +:+ name +:+ " must be a non-empty string"))
  | None => Err (PlanError.new ("release is missing the field: " +:+ name))
  end.
Definition strings_field (m : bmap Value) (name : string) : plan_result (bmap string) :=
  match m @@ name with
  | None => Ok []
  | Some (Object items) =>
      bcollect <$> mapM (fun e => match e.2 with
        | Str text => Ok (e.1, text)
        | _ => Err (PlanError.new ("release " +:+ name +:+ " must contain non-empty strings"))
        end) items
  | Some _ => Err (PlanError.new ("release " +:+ name +:+ " must be a mapping"))
  end.

Definition from_value (value : Value) : plan_result ReleaseIdentity :=
  match value with
  | Object m =>
      match find (fun key => negb (mem_str key RELEASE_FIELDS)) (bkeys m) with
      | Some key => Err (PlanError.new ("release got an unexpected field: " +:+ key))
      | None =>
          tag ← text_field m "tag";
          commit ← text_field m "commit";
          manifest ← text_field m "manifest_sha256";
          components ← strings_field m "components";
          artifacts ← strings_field m "artifacts";
          new tag commit manifest components artifacts
      end
  | _ => Err (PlanError.new "release must be a mapping")
  end.
End ops.
End Release.

(** ** The plan *)

Record InstallPlan := {
  p_config : Value; p_facts : AuditFacts; p_release : ReleaseIdentity;
  p_adapter_order : list string; p_adapter_dependencies : bmap (list string);
  p_actions : list Action; p_schema : Z;
}.

Definition PLAN_FIELDS : list string :=
  ["actions"; "adapter_dependencies"; "adapter_order"; "audit_facts"; "config"; "release"; "schema"].

Module InstallPlan.
Section ops.
Context {UT : UnicodeText} {FT : FloatText} {SHA : Sha256} {SD : SerdeDisplay}.

Definition canonical_value (p : InstallPlan) : Value :=
  obj [("actions", Array (map Action.to_value (p_actions p)));
       ("adapter_dependencies", json_map json_strs (p_adapter_dependencies p));
       ("adapter_order", json_strs (p_adapter_order p)); ("audit_facts", stable_dict (p_facts p));
       ("config", p_config p); ("release", Release.to_value (p_release p));
       ("schema", json_int (p_schema p))].

Definition new (config : Value) (facts : AuditFacts) (release : ReleaseIdentity)
  (adapter_order : list string) (adapter_dependencies : bmap (list string)) (actions : list Action)
  (schema : Z) : plan_result InstallPlan :=
  ensure (schema =? PLAN_SCHEMA)%Z (PlanError.new ("unsupported plan schema: " +:+ fmt_Z schema)) ≫= fun _ =>
  let plan := {| p_config := config; p_facts := facts; p_release := release;
                 p_adapter_order := adapter_order; p_adapter_dependencies := adapter_dependencies;
                 p_actions := actions; p_schema := schema |} in
  assert_secret_free (canonical_value plan) "plan" ≫= fun _ => Ok plan.

(** The closures of [from_value]. *)
Definition fact_group (facts : bmap Value) (name : string) : plan_result (bmap Value) :=
  match facts @@ name with
  | None => Ok []
  | Some (Object group) => Ok group
  | Some _ => Err (PlanError.new (name +:+ " facts must be a mapping"))
  end.
Definition strings (value : Value) : plan_result (list string) :=
  match value with
  | Array items => mapM (fun item => ok_or (as_str item) (PlanError.new "not a string")) items
  | _ => Err (PlanError.new "not a sequence")
  end.

(** [map[key]] of a key known to be there. *)
Definition index (m : bmap Value) (key : string) : Value := default Null (m @@ key).

Definition from_value (value : Value) : plan_result InstallPlan :=
  match value with
  | Object m =>
      if negb (length m =? length PLAN_FIELDS)%nat || existsb (fun key => negb (bhas key m)) PLAN_FIELDS
      then Err (PlanError.new "plan keys are not the plan schema")
      else
      match index m "audit_facts", index m "release", index m "actions", index m "adapter_dependencies" with
      | Object facts, Object _, Array actions, Object dependencies =>
          platform ← fact_group facts "platform";
          listeners ← fact_group facts "listeners";
          ownership ← fact_group facts "ownership";
          topology ← fact_group facts "topology";
          prerequisites ← fact_group facts "prerequisites";
          let facts := {| af_platform := platform; af_listeners := listeners;
                          af_ownership := ownership; af_topology := topology;
                          af_prerequisites := prerequisites; af_transient := [] |} in
          dependencies ← mapM (fun e => (fun l => (e.1, l)) <$> strings e.2) dependencies;
          match as_i64 (index m "schema") with
          | None => Err (PlanError.new ("unsupported plan schema: " +:+ value_display (index m "schema")))
          | Some schema =>
              release ← Release.from_value (index m "release");
              order ← strings (index m "adapter_order");
              actions ← mapM Action.from_value actions;
              new (index m "config") facts release order (bcollect dependencies) actions schema
          end
      | _, _, _, _ => Err (PlanError.new "plan sections have the wrong types")
      end
  | _ => Err (PlanError.new "plan must be a mapping")
  end.

Definition to_canonical_json (p : InstallPlan) : string := Json.canonical (canonical_value p).
Definition digest (p : InstallPlan) : string := sha256_hex (to_canonical_json p).

(** [pc_host::json::canonical_digest]. *)
Definition canonical_digest (v : Value) : string := sha256_hex (Json.canonical v).

Definition intent_value (p : InstallPlan) : Value :=
  obj [("adapter_order", json_strs (p_adapter_order p)); ("config", p_config p);
       ("release", Release.to_value (p_release p)); ("schema", json_int (p_schema p))].
Definition intent_digest (p : InstallPlan) : string := canonical_digest (intent_value p).

Definition assert_fresh (p : InstallPlan) (current : AuditFacts) : plan_result unit :=
  try_for (fun '(name, message) =>
    if negb (map_eqb (stable_group (p_facts p) name) (stable_group current name))
    then Err (Stale message) else Ok tt) FRESHNESS.
End ops.
End InstallPlan.
