(* ===== verification/PlanFacts.v ===== *)
(** * What the plan promises

    The secret scanner's verdict, the strict readers against the writers, freshness, the canonical
    order of sets and what equal digests mean ([installer_core/src/planner.rs]). *)

From S2P Require Import Prelude BTree Utf8 Numeric Json JsonFacts PyText Secret Model Plan.

(** ** Object literals *)

Lemma obj_sorted l : bsorted l = true -> obj l = Object l.
Proof. intros H. unfold obj. by rewrite bcollect_sorted. Qed.

Ltac obj_lit := rewrite ?obj_sorted by reflexivity.

(** A map with the keys of a literal and its values is the literal. *)
Lemma fields_ext (m l : bmap Value) :
  bsorted m = true -> bsorted l = true ->
  (forall k, k ∈ bkeys m -> k ∈ bkeys l) -> Forall (fun e => m @@ e.1 = Some e.2) l -> m = l.
Proof.
  intros Hm Hl Hsub Hall. apply bmap_ext; [done..|]. intros k.
  destruct (l @@ k) as [v|] eqn:Hk.
  - apply bget_Some_In in Hk. rewrite Forall_forall in Hall. by apply (Hall _ Hk).
  - destruct (m @@ k) eqn:Hmk; [|done]. exfalso.
    assert (Hin : k ∈ bkeys l).
    { apply Hsub, bhas_true. unfold bhas. by rewrite Hmk. }
    apply bhas_true in Hin. unfold bhas in Hin. by rewrite Hk in Hin.
Qed.

Lemma find_None_forall {A} (f : A -> bool) l : find f l = None <-> forallb (fun a => negb (f a)) l = true.
Proof.
  induction l as [|a l IH]; simpl; [done|]. destruct (f a); simpl; [done|exact IH].
Qed.

Lemma mapM_Some_map {A B} (f : A -> option B) (g : B -> A) (l : list B) :
  Forall (fun b => f (g b) = Some b) l -> mapM f (map g l) = Some l.
Proof. induction 1 as [|b l Hb _ IH]; simpl; [done|]. by rewrite Hb; simpl; rewrite IH. Qed.

Lemma json_strs_inj l k : json_strs l = json_strs k -> l = k.
Proof.
  unfold json_strs. intros [= H]. revert k H. induction l as [|s l IH]; intros [|t k]; simpl; try done.
  intros [= -> H]. f_equal. by apply IH.
Qed.

Lemma json_map_inj {A} (f : A -> Value) (m n : bmap A) :
  (forall x y, f x = f y -> x = y) -> json_map f m = json_map f n -> m = n.
Proof.
  intros Hf. unfold json_map. intros [= H]. revert n H.
  induction m as [|[k v] m IH]; intros [|[k' v'] n]; simpl; try done.
  intros [= -> Hv%Hf H]. subst. f_equal. by apply IH.
Qed.

(** ** The scanner *)

(** [within w v]: [w] is [v] or an item, however deep, of it. *)
Inductive within : Value -> Value -> Prop :=
| within_here v : within v v
| within_item w x l : x ∈ l -> within w x -> within w (Array l)
| within_entry w e m : e ∈ m -> within w e.2 -> within w (Object m).

Section scanner.
Context {UT : UnicodeText}.

Fixpoint secret_free (v : Value) : bool :=
  match v with
  | Object m => forallb (fun e => negb (plan_key_is_secret e.1) && secret_free e.2) m
  | Array l => forallb secret_free l
  | Str s => negb (plan_text_has_secret s)
  | _ => true
  end.

Lemma assert_secret_free_iff v : forall path, assert_secret_free v path = Ok tt <-> secret_free v = true.
Proof.
  induction v as [|b|n|s|l IH|m IH] using Value_ind; intros path; try done.
  - simpl. by destruct (plan_text_has_secret s).
  - cbn [assert_secret_free secret_free]. generalize 0.
    induction IH as [|x l Hx Hl IHl]; intros i; simpl; [done|].
    specialize (Hx (path +:+ "[" +:+ fmt_nat i +:+ "]")).
    destruct (assert_secret_free x _) as [[]|e].
    + rewrite (proj1 Hx eq_refl). apply IHl.
    + split; [done|]. intros [H _]%andb_prop. by apply Hx in H.
  - cbn [assert_secret_free secret_free]. rewrite try_for_Ok, forallb_forall.
    setoid_rewrite <-list_elem_of_In. rewrite Forall_forall. rewrite Forall_forall in IH.
    split; intros H e He; specialize (H e He).
    + destruct (plan_key_is_secret e.1); [done|]. simpl. by apply (IH e He) in H.
    + apply andb_prop in H as [Hk Hv]. destruct (plan_key_is_secret e.1); [done|]. by apply (IH e He).
Qed.

Lemma secret_free_within v : secret_free v = true <->
  (forall s, within (Str s) v -> plan_text_has_secret s = false) /\
  (forall m k, within (Object m) v -> k ∈ bkeys m -> plan_key_is_secret k = false).
Proof.
  split.
  - intros Hv. assert (Hall : forall w, within w v -> secret_free w = true).
    { intros w Hw. induction Hw as [|w x l Hx _ IH|w e m He _ IH]; [done| |]; apply IH;
        cbn [secret_free] in Hv; rewrite forallb_forall in Hv.
      - apply Hv. by apply list_elem_of_In.
      - apply list_elem_of_In, Hv in He. by apply andb_prop in He as [_ ?]. }
    split; [intros s Hs; apply Hall in Hs; by apply negb_true_iff in Hs|].
    intros m k Hm Hk. apply Hall in Hm. cbn [secret_free] in Hm. rewrite forallb_forall in Hm.
    apply list_elem_of_fmap in Hk as (e & -> & He). apply list_elem_of_In, Hm in He.
    apply andb_prop in He as [He _]. by apply negb_true_iff.
  - induction v as [|b|n|s|l IH|m IH] using Value_ind; intros [Hs Hm]; try done.
    + simpl. rewrite (Hs s); [done|constructor].
    + cbn [secret_free]. apply forallb_forall. intros x Hx%list_elem_of_In.
      rewrite Forall_forall in IH. apply (IH x Hx).
      split; [intros s Hw|intros m k Hw]; [apply Hs|apply Hm]; by econstructor.
    + cbn [secret_free]. apply forallb_forall. intros e He%list_elem_of_In.
      rewrite (Hm m e.1); [|constructor|by apply list_elem_of_fmap; eauto]. simpl.
      rewrite Forall_forall in IH. apply (IH e He).
      split; [intros s Hw|intros m' k Hw]; [apply Hs|apply Hm]; by econstructor.
Qed.

(** The secret scanner accepts a value exactly when no text anywhere inside it holds a secret
    assignment and no key of any object inside it names a secret; the path only words the
    refusal. *)
Theorem assert_secret_free_spec (v : Value) (path : string) :
  assert_secret_free v path = Ok tt <->
  (forall s, within (Str s) v -> plan_text_has_secret s = false) /\
  (forall m k, within (Object m) v -> k ∈ bkeys m -> plan_key_is_secret k = false).
Proof. rewrite assert_secret_free_iff. apply secret_free_within. Qed.
End scanner.

(** ** Actions *)

Section actions.
Context {UT : UnicodeText}.

Lemma validate_iff (a : Action) : Action.validate a = Ok tt <->
  Forall (fun s => nonempty s = true) [act_id a; act_adapter a; act_owner a] /\
  Forall (fun l => l <> [] /\ forallb nonempty l = true)
    [act_mutations a; act_preconditions a; act_verification a; act_inverse a] /\
  assert_secret_free (Action.to_value a) "plan" = Ok tt.
Proof.
  assert (Hl : forall e (l : list string),
    ensure (negb (match l with [] => true | _ => false end || negb (forallb nonempty l))) e = Ok tt (E := PlanError)
    <-> l <> [] /\ forallb nonempty l = true).
  { intros e [|s l]; [split; [done|intros [? _]; done]|].
    destruct (forallb nonempty (s :: l)) eqn:Hn; simpl; rewrite ?Hn;
      split; intros H; try done; by destruct H as [_ H]. }
  assert (Hs : forall e s, ensure (nonempty s) e = Ok tt (E := PlanError) <-> nonempty s = true)
    by (intros e s; by destruct (nonempty s)).
  unfold Action.validate. rewrite !Forall_cons, !Forall_nil. split.
  - intros H. apply bind_Ok in H as ([] & H1 & H). apply bind_Ok in H as ([] & H2 & H).
    apply try_for_Ok in H1, H2. rewrite !Forall_cons, !Hs in H1. rewrite !Forall_cons, !Hl in H2. tauto.
  - intros (H1 & H2 & H3).
    unfold Action.validate.
    eapply bind_Ok_intro; [apply try_for_Ok|eapply bind_Ok_intro; [apply try_for_Ok|exact H3]].
    + repeat (apply Forall_cons; split; [apply Hs; tauto|]). apply Forall_nil_2.
    + repeat (apply Forall_cons; split; [apply Hl; tauto|]). apply Forall_nil_2.
Qed.

Lemma text_field_Ok m k s : Action.text_field m k = Ok s <-> m @@ k = Some (Str s) /\ nonempty s = true.
Proof.
  unfold Action.text_field. destruct (m @@ k) as [[| | |t| |]|]; try (split; [done|intros [? _]; congruence]).
  destruct (nonempty t) eqn:Hn; split; [intros [= <-]; done|intros [[= ->] _]; done|done|].
  intros [[= ->] H]. congruence.
Qed.

Lemma nonempty_str_list items l : mapM Action.nonempty_str items = Some l <->
  items = map Str l /\ forallb nonempty l = true.
Proof.
  split.
  - revert l. induction items as [|x items IH]; intros l; simpl; [by intros [= <-]|].
    destruct x as [| | |s| |]; try done. simpl. destruct (nonempty s) eqn:Hs; simpl; [|done].
    destruct (mapM Action.nonempty_str items) as [ls|]; simpl; [|done]. intros [= <-]. simpl.
    destruct (IH ls eq_refl) as [-> Hls]. by rewrite Hs, Hls.
  - intros [-> H]. apply mapM_Some_map. apply Forall_forall. intros s Hs. simpl.
    rewrite forallb_forall in H. rewrite H; [done|]. by apply list_elem_of_In.
Qed.

Lemma list_field_Ok m i k l : Action.list_field m i k = Ok l <->
  m @@ k = Some (json_strs l) /\ l <> [] /\ forallb nonempty l = true.
Proof.
  unfold Action.list_field. split.
  - destruct (m @@ k) as [[| | | |items|]|]; try done.
    destruct (mapM Action.nonempty_str items) as [[|s ls]|] eqn:Hm; try done.
    intros [= <-]. apply nonempty_str_list in Hm as [-> Hn].
    split; [reflexivity|split; [discriminate|exact Hn]].
  - intros (-> & Hne & Hn). unfold json_strs.
    rewrite (proj2 (nonempty_str_list (map Str l) l)) by done. by destruct l.
Qed.

Lemma action_from_to (a : Action) :
  Action.validate a = Ok tt -> Action.from_value (Action.to_value a) = Ok a.
Proof.
  rewrite validate_iff, !Forall_cons, !Forall_nil. intros (H1 & H2 & Hsf).
  assert (Ha : Action.to_value a = Object (bcollect [
    ("adapter", Str (act_adapter a)); ("credentials_required", Bool (act_credentials_required a));
    ("id", Str (act_id a)); ("inverse", json_strs (act_inverse a));
    ("mutations", json_strs (act_mutations a)); ("owner", Str (act_owner a));
    ("preconditions", json_strs (act_preconditions a));
    ("verification", json_strs (act_verification a))])) by reflexivity.
  unfold Action.from_value. rewrite Ha. rewrite bcollect_sorted by reflexivity. set (m := [_; _; _; _; _; _; _; _]).
  change (find _ (bkeys m)) with (@None string). change (find _ ACTION_FIELDS) with (@None string).
  cbn iota. repeat (eapply bind_Ok_intro;
    [first [apply text_field_Ok; split; [reflexivity|tauto]|apply list_field_Ok; split; [reflexivity|tauto]]|]).
  change (m @@ "credentials_required") with (Some (Bool (act_credentials_required a))). cbn iota zeta.
  destruct a. eapply bind_Ok_intro; [exact Hsf|reflexivity].
Qed.

(** The reader of stored actions is the inverse of the writer and as strict as the constructor:
    a value (with its objects in key order) reads back as the action [a] exactly when [a] passes
    [Action::validate] and the value is the one [to_value] writes for it. *)
Theorem action_from_value_iff (v : Value) (a : Action) (Hv : exact v = true) :
  Action.from_value v = Ok a <-> Action.validate a = Ok tt /\ v = Action.to_value a.
Proof.
  rewrite validate_iff, !Forall_cons, !Forall_nil. unfold Action.from_value. split.
  - destruct v as [| | | | |m]; try done. cbn [exact] in Hv. apply andb_prop in Hv as [Hs _].
    destruct (find _ (bkeys m)) eqn:Hf; [done|]. destruct (find _ ACTION_FIELDS); [done|].
    intros H. inv_binds. destruct (m @@ "credentials_required") as [[|c| | | |]|] eqn:Hc; try done. inv_binds.
    injection H as <-. apply text_field_Ok in Hr as [? ?], Hr0 as [? ?], Hr1 as [? ?].
    apply list_field_Ok in Hr2 as (? & ? & ?), Hr3 as (? & ? & ?), Hr4 as (? & ? & ?), Hr5 as (? & ? & ?).
    split; [simpl; tauto|]. unfold Action.to_value. obj_lit. f_equal. simpl.
    apply fields_ext; [done|reflexivity| |repeat constructor; done].
    intros k Hk. apply find_None_forall in Hf. rewrite forallb_forall in Hf.
    apply list_elem_of_In, Hf in Hk. rewrite negb_involutive in Hk. by apply mem_str_true in Hk.
  - intros [H ->]. apply action_from_to. by rewrite validate_iff, !Forall_cons, !Forall_nil.
Qed.
End actions.

(** ** The release and the plan read back *)

(** A plan as the planner makes it: the constructors' checks passed, its maps in key order. *)
Definition release_ok `{UnicodeText} (r : ReleaseIdentity) : Prop :=
  Release.validate r = Ok tt /\ bsorted (r_components r) = true /\ bsorted (r_artifacts r) = true.

Definition plan_ok `{UnicodeText} (p : InstallPlan) : Prop :=
  p_schema p = PLAN_SCHEMA /\ release_ok (p_release p) /\ bsorted (p_adapter_dependencies p) = true /\
  Forall (fun a => Action.validate a = Ok tt) (p_actions p) /\
  assert_secret_free (InstallPlan.canonical_value p) "plan" = Ok tt.

(** The plan without the facts that never enter it. *)
Definition forget_transient (p : InstallPlan) : InstallPlan :=
  let f := p_facts p in
  {| p_config := p_config p;
     p_facts := {| af_platform := af_platform f; af_listeners := af_listeners f; af_ownership := af_ownership f;
                   af_topology := af_topology f; af_prerequisites := af_prerequisites f; af_transient := [] |};
     p_release := p_release p; p_adapter_order := p_adapter_order p;
     p_adapter_dependencies := p_adapter_dependencies p; p_actions := p_actions p; p_schema := p_schema p |}.

Section roundtrip.
Context {UT : UnicodeText} {FT : FloatText} {SHA : Sha256} {SD : SerdeDisplay}.

Lemma strings_json_strs l : InstallPlan.strings (json_strs l) = Ok l.
Proof. simpl. apply mapM_Ok_map. apply Forall_forall. done. Qed.

Lemma collect_json_map {A} (f : A -> Value) (g : string * Value -> plan_result (string * A)) (m : bmap A) :
  bsorted m = true -> (forall e, g (e.1, f e.2) = Ok e) ->
  mapM g (List.map (fun e => (e.1, f e.2)) m) = Ok m.
Proof. intros _ Hg. apply mapM_Ok_map. apply Forall_forall. intros e _. apply Hg. Qed.

Lemma release_from_to r : release_ok r -> Release.from_value (Release.to_value r) = Ok r.
Proof.
  intros (Hv & Hc & Ha).
  assert (Hr : Release.to_value r = Object (bcollect [
    ("artifacts", json_map Str (r_artifacts r)); ("commit", Str (r_commit r));
    ("components", json_map Str (r_components r)); ("manifest_sha256", Str (r_manifest_sha256 r));
    ("tag", Str (r_tag r))])) by reflexivity.
  rewrite Hr. rewrite bcollect_sorted by reflexivity. set (m := [_; _; _; _; _]).
  unfold Release.from_value. change (find _ (bkeys m)) with (@None string). cbn iota.
  assert (Hs : forall k f, m @@ k = Some (json_map Str f) -> bsorted f = true ->
                 Release.strings_field m k = Ok f).
  { intros k f Hk Hf. unfold Release.strings_field. rewrite Hk. unfold json_map.
    rewrite (collect_json_map Str); [|done|by intros []]. simpl. by rewrite bcollect_sorted. }
  do 3 (eapply bind_Ok_intro; [reflexivity|]).
  eapply bind_Ok_intro; [by apply Hs|]. eapply bind_Ok_intro; [by apply Hs|].
  unfold Release.new. destruct r. eapply bind_Ok_intro; [exact Hv|reflexivity].
Qed.

(** [plan.json] reads back: the canonical value of a plan made by the planner is accepted by
    [from_value], which gives the plan itself without the transient facts, and that plan has the
    same canonical text, digest and intent digest. *)
Theorem plan_roundtrip (p : InstallPlan) (Hp : plan_ok p) :
  InstallPlan.from_value (InstallPlan.canonical_value p) = Ok (forget_transient p) /\
  InstallPlan.to_canonical_json (forget_transient p) = InstallPlan.to_canonical_json p /\
  InstallPlan.digest (forget_transient p) = InstallPlan.digest p /\
  InstallPlan.intent_digest (forget_transient p) = InstallPlan.intent_digest p.
Proof.
  split; [|done]. destruct Hp as (Hsch & Hrel & Hdeps & Hacts & Hsf).
  set (m := [("actions", Array (map Action.to_value (p_actions p)));
         ("adapter_dependencies", json_map json_strs (p_adapter_dependencies p));
         ("adapter_order", json_strs (p_adapter_order p)); ("audit_facts", stable_dict (p_facts p));
         ("config", p_config p); ("release", Release.to_value (p_release p));
         ("schema", json_int (p_schema p))]).
  assert (Hm : InstallPlan.canonical_value p = Object m).
  { unfold InstallPlan.canonical_value. by rewrite obj_sorted. }
  rewrite Hm. unfold InstallPlan.from_value.
  change (negb _ || _) with false. cbn iota.
  change (InstallPlan.index m "audit_facts") with (stable_dict (p_facts p)).
  change (InstallPlan.index m "release") with (Release.to_value (p_release p)).
  change (InstallPlan.index m "actions") with (Array (map Action.to_value (p_actions p))).
  change (InstallPlan.index m "adapter_dependencies") with (json_map json_strs (p_adapter_dependencies p)).
  unfold stable_dict. rewrite obj_sorted by reflexivity.
  destruct (Release.to_value (p_release p)) eqn:Hrv; try discriminate Hrv. rewrite <-Hrv. clear Hrv.
  unfold json_map at 1. cbn iota.
  do 5 (eapply bind_Ok_intro; [reflexivity|]).
  eapply bind_Ok_intro.
  { apply collect_json_map; [exact Hdeps|]. intros [k l]. simpl. unfold json_strs.
    change (mapM _ (List.map Str l)) with (InstallPlan.strings (json_strs l)). by rewrite strings_json_strs. }
  change (InstallPlan.index m "schema") with (json_int (p_schema p)). rewrite Hsch.
  change (as_i64 (json_int PLAN_SCHEMA)) with (Some PLAN_SCHEMA). cbn iota.
  eapply bind_Ok_intro; [by apply release_from_to|].
  eapply bind_Ok_intro; [apply strings_json_strs|].
  eapply bind_Ok_intro.
  { apply mapM_Ok_map. eapply Forall_impl; [exact Hacts|]. intros a Ha. by apply action_from_to. }
  eapply bind_Ok_intro; [reflexivity|].
  rewrite bcollect_sorted by done.
  eapply bind_Ok_intro; [|cbn zeta; by rewrite <-Hsch].
  rewrite <-Hsf. unfold InstallPlan.canonical_value. by rewrite <-Hsch.
Qed.
End roundtrip.

(** ** Digests and freshness *)

Section digests.
Context {UT : UnicodeText} {FT : FloatText} {SHA : Sha256} {SD : SerdeDisplay}.

Lemma action_to_value_inj a b : Action.to_value a = Action.to_value b -> a = b.
Proof.
  unfold Action.to_value. rewrite !obj_sorted by reflexivity.
  destruct a, b. simpl. unfold json_strs. intros [= -> -> -> H1 H2 -> H3 H4].
  f_equal; apply json_strs_inj; unfold json_strs; congruence.
Qed.

Lemma actions_inj l k : map Action.to_value l = map Action.to_value k -> l = k.
Proof.
  revert k. induction l as [|a l IH]; intros [|b k]; cbn [map]; try done.
  intros H. assert (Hh := f_equal (hd Null) H). assert (Ht := f_equal (@tl _) H). cbn [hd tl] in *.
  apply action_to_value_inj in Hh as ->. by apply IH in Ht as ->.
Qed.

Lemma release_to_value_inj r s : Release.to_value r = Release.to_value s -> r = s.
Proof.
  unfold Release.to_value. rewrite !obj_sorted by reflexivity.
  destruct r as [t c ms cs ar], s as [t' c' ms' cs' ar']. cbn [r_tag r_commit r_manifest_sha256 r_components r_artifacts].
  intros H. injection H as Ha -> Hc -> ->.
  assert (ar = ar') as -> by (apply (json_map_inj Str); [congruence|unfold json_map; by rewrite Ha]).
  assert (cs = cs') as -> by (apply (json_map_inj Str); [congruence|unfold json_map; by rewrite Hc]).
  done.
Qed.

(** Equal literals with the same keys have equal values. *)
Lemma obj_inj (l k : bmap Value) : bsorted l = true -> bsorted k = true -> obj l = obj k ->
  map snd l = map snd k.
Proof. intros Hl Hk H. rewrite !obj_sorted in H by done. congruence. Qed.

Lemma stable_dict_inj f g : stable_dict f = stable_dict g ->
  af_platform f = af_platform g /\ af_listeners f = af_listeners g /\ af_ownership f = af_ownership g /\
  af_topology f = af_topology g /\ af_prerequisites f = af_prerequisites g.
Proof. intros H. apply obj_inj in H; [|reflexivity..]. cbn [map snd] in H. by injection H. Qed.

Lemma canonical_value_inj p q : InstallPlan.canonical_value p = InstallPlan.canonical_value q ->
  forget_transient p = forget_transient q.
Proof.
  intros H. apply obj_inj in H; [|reflexivity..]. cbn [map snd] in H.
  assert (Hi : forall a b c d e f g a' b' c' d' e' f' g' : Value, [a; b; c; d; e; f; g] = [a'; b'; c'; d'; e'; f'; g'] ->
    a = a' /\ b = b' /\ c = c' /\ d = d' /\ e = e' /\ f = f' /\ g = g') by (intros; simplify_eq; tauto).
  apply Hi in H as (Ha & Hd & Ho & Hf & Hc & Hr & Hs).
  assert (Ha' : p_actions p = p_actions q) by (apply actions_inj; congruence).
  apply (json_map_inj json_strs _ _ json_strs_inj) in Hd. apply json_strs_inj in Ho.
  apply stable_dict_inj in Hf as (? & ? & ? & ? & ?). apply release_to_value_inj in Hr.
  injection Hs as Hs. unfold forget_transient. congruence.
Qed.

(** C33: accepting a digest accepts one plan: if two plans (without doubles) have the same digest,
    they are the same plan up to the transient facts, or the two canonical texts are a collision of
    SHA-256. *)
Theorem digest_binds (p q : InstallPlan)
  (Hp : exact (InstallPlan.canonical_value p) = true) (Hq : exact (InstallPlan.canonical_value q) = true)
  (H : InstallPlan.digest p = InstallPlan.digest q) :
  forget_transient p = forget_transient q \/
  (InstallPlan.to_canonical_json p <> InstallPlan.to_canonical_json q /\
   sha256_hex (InstallPlan.to_canonical_json p) = sha256_hex (InstallPlan.to_canonical_json q)).
Proof.
  destruct (decide (InstallPlan.to_canonical_json p = InstallPlan.to_canonical_json q)) as [Heq|Hne];
    [left|by right].
  apply canonical_value_inj.
  apply (cw_prefix _ _ EmptyString EmptyString); try done. rewrite !app_nil_r_s. exact Heq.
Qed.
End digests.

Definition fresh_group (p : InstallPlan) (current : AuditFacts) (name : string) : bool :=
  map_eqb (stable_group (p_facts p) name) (stable_group current name).

(** A plan is fresh exactly when the current facts equal the planned ones as [AuditFacts] values
    (the transient group aside); otherwise it is stale, and the message is the one of the first group
    that differs, in the order platform, listeners, ownership, topology, prerequisites. *)
Theorem assert_fresh_spec (p : InstallPlan) (current : AuditFacts) :
  (InstallPlan.assert_fresh p current = Ok tt <-> AuditFacts_eqb (p_facts p) current = true) /\
  (forall e, InstallPlan.assert_fresh p current = Err e <->
     exists before name message after,
       FRESHNESS = before ++ (name, message) :: after /\ e = Stale message /\
       forallb (fun g => fresh_group p current g.1) before = true /\ fresh_group p current name = false).
Proof.
  unfold InstallPlan.assert_fresh.
  set (check := fun '(name, message) => if negb _ then Err (Stale message) else Ok tt).
  assert (Hcheck : forall g, check g = if fresh_group p current g.1 then Ok tt else Err (Stale g.2)).
  { intros [n m]. unfold check, fresh_group. simpl. by destruct (map_eqb _ _). }
  split.
  - rewrite try_for_Ok. transitivity (forallb (fun g => fresh_group p current g.1) FRESHNESS = true).
    + rewrite forallb_forall, Forall_forall. split; intros H g Hg; specialize (H g).
      * rewrite list_elem_of_In, Hcheck in H. specialize (H Hg). by destruct (fresh_group p current g.1).
      * rewrite Hcheck, H; [done|by apply list_elem_of_In].
    + unfold AuditFacts_eqb, stable_dict, FRESHNESS, fresh_group, map_eqb. rewrite !obj_sorted by reflexivity.
      cbn [forallb fst stable_group]. simpl stable_group. cbn [value_eqb fst snd].
      rewrite !eqb_s_refl, !andb_true_iff. tauto.
  - generalize FRESHNESS. intros l. induction l as [|g l IH]; intros e.
    + split; [done|]. by intros ([] & ? & ? & ? & ? & ?).
    + cbn [try_for]. rewrite Hcheck. destruct (fresh_group p current g.1) eqn:Hg.
      * rewrite IH. split.
        -- intros (b & n & m & a & -> & H). exists (g :: b), n, m, a. simpl. by rewrite Hg.
        -- intros ([|g' b] & n & m & a & Heq & He & Hb & Hn); simplify_eq/=; [congruence|].
           rewrite Hg in Hb. by exists b, n, m, a.
      * destruct g as [n m]. simpl in *. split.
        -- intros [= <-]. by exists [], n, m, l.
        -- intros ([|g' b] & n' & m' & a & Heq & He & Hb & Hn); simplify_eq/=; [done|by rewrite Hg in Hb].
Qed.

(** ** Sets of facts *)

Section sets.
Context {FT : FloatText}.

Lemma sort_entries_elem {A} (l : list (string * A)) e : e ∈ sort_entries l <-> e ∈ l.
Proof.
  induction l as [|x l IH]; [done|]. simpl. rewrite elem_of_cons, <-IH.
  generalize (sort_entries l). clear. intros k. induction k as [|y k IH]; simpl.
  - by rewrite elem_of_cons.
  - destruct (str_ltb y.1 x.1); rewrite !elem_of_cons, ?IH; tauto.
Qed.

(** Keys in non-decreasing order. *)
Definition weakly_above {A} (k : string) (l : list (string * A)) : Prop :=
  Forall (fun e => str_ltb e.1 k = false) l.
Inductive weakly_sorted {A} : list (string * A) -> Prop :=
| ws_nil : weakly_sorted []
| ws_cons e l : weakly_above e.1 l -> weakly_sorted l -> weakly_sorted (e :: l).

Lemma ltb_false_trans a b c : str_ltb b a = false -> str_ltb c b = false -> str_ltb c a = false.
Proof.
  intros H1 H2. destruct (str_ltb c a) eqn:H; [|done].
  destruct (str_ltb a b) eqn:Hab.
  - by rewrite (str_ltb_trans _ _ _ H Hab) in H2.
  - assert (a = b) as <- by (by apply str_ltb_total). congruence.
Qed.

Lemma weakly_above_trans {A} k k' (l : list (string * A)) :
  str_ltb k' k = false -> weakly_above k' l -> weakly_above k l.
Proof. intros H Hl. eapply Forall_impl; [exact Hl|]. simpl. intros e He. by eapply ltb_false_trans. Qed.

Lemma sort_entries_weakly {A} (l : list (string * A)) : weakly_sorted (sort_entries l).
Proof.
  induction l as [|x l IH]; [constructor|]. simpl. induction IH as [|y k Hy Hk IHk]; simpl.
  - repeat constructor.
  - destruct (str_ltb y.1 x.1) eqn:H.
    + constructor; [|exact IHk]. unfold weakly_above in *. rewrite Forall_forall in *.
      intros e He. assert (He' : e ∈ x :: k).
      { clear -He. induction k as [|z k IH]; [done|]. simpl in He.
        destruct (str_ltb z.1 x.1); [|done]. rewrite !elem_of_cons in *. tauto. }
      apply elem_of_cons in He' as [->|He']; [by apply str_ltb_asym|by apply Hy].
    + constructor; [constructor; [done|by eapply weakly_above_trans]|by constructor].
Qed.

Lemma dedup_after_spec {A} k (l : list (string * A)) : weakly_sorted l -> weakly_above k l ->
  babove k (dedup_key_after k l) /\ bsorted (dedup_key_after k l) = true.
Proof.
  intros Hl. revert k. induction Hl as [|x l Hx Hl IH]; intros k Hk; [split; [constructor|done]|]. simpl.
  apply Forall_cons in Hk as [Hkx Hk]. destruct (x.1 =?s k) eqn:Heq; [by apply IH|].
  destruct (IH x.1 Hx) as [Ha Hs]. destruct x as [kx vx]. simpl in *.
  assert (Hlt : str_ltb k kx = true).
  { destruct (str_ltb k kx) eqn:H; [done|]. apply eqb_s_false in Heq. exfalso. apply Heq.
    by apply str_ltb_total. }
  split; [constructor; [done|by eapply babove_trans]|exact (proj2 (bsorted_cons kx vx _) (conj Ha Hs))].
Qed.

Lemma dedup_key_sorted {A} (l : list (string * A)) : bsorted (dedup_key (sort_entries l)) = true.
Proof.
  destruct (sort_entries_weakly l) as [|[k v] l' Hx Hl]; [done|]. simpl.
  destruct (dedup_after_spec k l' Hl Hx) as [Ha Hs].
  exact (proj2 (bsorted_cons k v _) (conj Ha Hs)).
Qed.

(** When a key determines the entry, dropping repeated keys drops no entry. *)
Lemma dedup_key_elem {A} (l : list (string * A)) e :
  (forall x y, x ∈ l -> y ∈ l -> x.1 = y.1 -> x = y) -> e ∈ dedup_key l <-> e ∈ l.
Proof.
  destruct l as [|x l]; [done|]. simpl. intros Hdet. rewrite !elem_of_cons.
  revert x Hdet. induction l as [|y l IH]; intros x Hdet; simpl; [done|].
  destruct (y.1 =?s x.1) eqn:Heq.
  - apply eqb_s_true in Heq. assert (y = x) as -> by (apply Hdet; [|apply elem_of_cons; by left|done];
      apply elem_of_cons; right; apply elem_of_cons; by left).
    rewrite elem_of_cons, IH; [tauto|]. intros a b Ha Hb. apply Hdet; apply elem_of_cons; by right.
  - rewrite !elem_of_cons, IH; [tauto|]. intros a b Ha Hb. apply Hdet; apply elem_of_cons; by right.
Qed.

Lemma mapM_elem {E A B} (f : A -> result E B) l k b : mapM f l = Ok k -> b ∈ k <-> exists a, a ∈ l /\ f a = Ok b.
Proof.
  rewrite mapM_Ok_iff. induction 1 as [|x y l k Hxy _ IH].
  - split; [by intros ?%not_elem_of_nil|]. by intros (? & ?%not_elem_of_nil & _).
  - rewrite elem_of_cons, IH. setoid_rewrite elem_of_cons. split.
    + intros [->|(a & ? & ?)]; eauto.
    + intros (a & [->|Ha] & Hf); [left; congruence|eauto].
Qed.

Definition set_entries (l : list Fact) : plan_result (list (string * Value)) :=
  mapM (fun item => (fun v => (Json.canonical v, v)) <$> Fact.canonical item) l.

(** A set of facts has one canonical list: two sets with the same members, in whatever order and
    however often each is listed, have the same canonical value (their members being without
    doubles); it lists the canonical values of the members by increasing canonical text, each
    once. *)
Theorem canonical_set (l k : list Fact) (vs ws : list (string * Value))
  (Hl : set_entries l = Ok vs) (Hk : set_entries k = Ok ws) (Hex : forallb (fun e => exact e.2) vs = true)
  (Hmem : forall f, f ∈ l <-> f ∈ k) :
  Fact.canonical (FSet l) = Fact.canonical (FSet k) /\
  exists m : bmap Value, bsorted m = true /\ Fact.canonical (FSet l) = Ok (Array (map snd m)) /\
    (forall e, e ∈ m <-> exists f, f ∈ l /\ Fact.canonical f = Ok e.2 /\ e.1 = Json.canonical e.2).
Proof.
  assert (Hin : forall items es, set_entries items = Ok es -> forall e, e ∈ es <->
    exists f, f ∈ items /\ Fact.canonical f = Ok e.2 /\ e.1 = Json.canonical e.2).
  { intros items es Hes e. rewrite (mapM_elem _ _ _ e Hes).
    split; intros (f & Hf & H); exists f; (split; [done|]).
    - destruct (Fact.canonical f); simplify_eq/=. done.
    - destruct H as [-> H]. destruct e as [key v]. simpl in *. by rewrite H. }
  assert (Heq : forall e, e ∈ vs <-> e ∈ ws).
  { intros e. rewrite (Hin _ _ Hl), (Hin _ _ Hk). by setoid_rewrite Hmem. }
  assert (Hdet : forall x y, x ∈ vs -> y ∈ vs -> x.1 = y.1 -> x = y).
  { intros [kx x] [ky y] Hx Hy Hxy. simpl in Hxy. subst ky. f_equal.
    rewrite forallb_forall in Hex.
    pose proof (Hex _ (proj1 (list_elem_of_In _ _) Hx)). pose proof (Hex _ (proj1 (list_elem_of_In _ _) Hy)).
    apply (Hin _ _ Hl) in Hx as (_ & _ & _ & Hx), Hy as (_ & _ & _ & Hy). simpl in *.
    apply (cw_prefix x y EmptyString EmptyString); try done. rewrite !app_nil_r_s.
    change (canonical x = canonical y). congruence. }
  assert (He : forall es, (forall e, e ∈ vs <-> e ∈ es) -> forall e, e ∈ dedup_key (sort_entries es) <-> e ∈ vs).
  { intros es Hes e. rewrite dedup_key_elem; [by rewrite sort_entries_elem, Hes|].
    intros x y. rewrite !sort_entries_elem, <-!Hes. apply Hdet. }
  assert (Hd : dedup_key (sort_entries vs) = dedup_key (sort_entries ws)).
  { apply bmap_ext; [apply dedup_key_sorted..|]. intros key. apply option_eq. intros v.
    pose proof (dedup_key_sorted vs). pose proof (dedup_key_sorted ws).
    split; intros H1%bget_Some_In; apply bget_In; try done.
    - by apply He, (He vs).
    - by apply (He vs), (He ws). }
  cbn [Fact.canonical]. unfold set_entries in *. rewrite Hl, Hk. simpl. split; [by rewrite Hd|].
  exists (dedup_key (sort_entries vs)). split; [apply dedup_key_sorted|split; [done|]].
  intros e. rewrite He by done. apply Hin, Hl.
Qed.
End sets.

(** ** Evidence read back *)

(** The integers of the value fit [i64]: what [Fact] can hold. *)
Fixpoint i64_only (v : Value) : bool :=
  match v with
  | Num n => match num_as_i64 n with Some _ => true | None => false end
  | Array l => forallb i64_only l
  | Object m => bsorted m && forallb (fun e => i64_only e.2) m
  | _ => true
  end.

Section evidence.
Context {UT : UnicodeText} {FT : FloatText}.

Lemma from_canonical v : i64_only v = true -> Fact.canonical (Fact.from v) = Ok v.
Proof.
  induction v as [|b|n|s|l IH|m IH] using Value_ind; try done.
  - cbn [i64_only Fact.from]. destruct (num_as_i64 n) eqn:Hn; [|done]. intros _.
    destruct n as [z'|]; [|done]. unfold num_as_i64 in Hn.
    destruct ((i64_min <=? z') && (z' <=? i64_max))%Z; by simplify_eq.
  - cbn [i64_only Fact.from Fact.canonical]. intros Hl.
    rewrite (mapM_Ok_map Fact.canonical Fact.from); [done|].
    rewrite Forall_forall in *. intros x Hx. apply (IH x Hx). rewrite forallb_forall in Hl.
    by apply Hl, list_elem_of_In.
  - cbn [i64_only Fact.from Fact.canonical]. intros [Hs Hm]%andb_prop.
    rewrite bcollect_sorted by (by rewrite (bsorted_map (fun e => Fact.from e.2))).
    rewrite (mapM_Ok_map _ (fun e => (e.1, Fact.from e.2)) m); [by simpl; rewrite bcollect_sorted|].
    rewrite Forall_forall in *. intros [k x] Hx. simpl.
    rewrite forallb_forall in Hm. specialize (Hm _ (proj1 (list_elem_of_In _ _) Hx)).
    pose proof (IH _ Hx Hm) as Heq. simpl in Heq. by rewrite Heq.
Qed.

(** Evidence survives the journal: what [Evidence::new] accepted and a checkpoint stored with
    [to_map] is read back by [from_map] as the same evidence, provided the integers among its
    details fit [i64]. *)
Theorem evidence_roundtrip (i : string) (s : bool) (obs : list string) (details : Fact) (e : Evidence)
  (H : Evidence.new i s obs details = Ok e) (Hi : i64_only (Object (ev_details e)) = true) :
  Evidence.from_map (Evidence.to_map e) = Ok e.
Proof.
  unfold Evidence.new in H. inv_binds. injection H as <-. cbn [ev_details] in Hi.
  unfold Evidence.from_map, Evidence.to_map. simpl ev_action_id. simpl ev_details.
  simpl ev_observations. simpl ev_success. rewrite bcollect_sorted by reflexivity.
  eapply bind_Ok_intro; [reflexivity|].
  eapply bind_Ok_intro; [by apply mapM_Ok_map, Forall_forall|].
  do 3 (eapply bind_Ok_intro; [reflexivity|]).
  unfold Evidence.with_details, Evidence.new.
  eapply bind_Ok_intro; [by rewrite Hr|]. eapply bind_Ok_intro; [by rewrite Hr0|].
  eapply bind_Ok_intro.
  - change (canonical_map (Fact.from (Object a1)) ?r) with (v ← Fact.canonical (Fact.from (Object a1));
      match v with Object m => Ok m | _ => Err (PlanError.new "a map canonicalises to an object") end).
    by rewrite from_canonical.
  - eapply bind_Ok_intro; [exact Hr2|reflexivity].
Qed.

(** The limit of that round trip is real: a detail above [i64::MAX], which [serde_json] and the
    journal hold exactly, becomes a double when the evidence is rebuilt, so the evidence read back
    is a different one. *)
Theorem evidence_u64_becomes_float :
  Fact.from (Num (NInt (2 ^ 63 + 1))) = FFloat (SpecFloat.S754_finite false (2 ^ 52) 11) /\
  Fact.canonical (Fact.from (Num (NInt (2 ^ 63 + 1)))) <> Ok (Num (NInt (2 ^ 63 + 1))).
Proof. split; vm_compute; congruence. Qed.
End evidence.

(** ** The properties at a concrete plan *)

Module Sample.
#[local] Existing Instances ascii_text no_floats toy_hash no_display.

Definition action : Action :=
  {| act_id := "core.runtime"; act_adapter := "core"; act_owner := "proxy-control";
     act_mutations := ["install the panel"]; act_preconditions := ["certificates are issued"];
     act_verification := ["the panel answers"]; act_inverse := ["remove the panel"];
     act_credentials_required := false |}.

Definition release : ReleaseIdentity :=
  {| r_tag := "v4.0.0"; r_commit := "0123abcd"; r_manifest_sha256 := "ffff";
     r_components := [("panel", "4.0.0")]; r_artifacts := [("panel.tar", "aa"); ("proxyctl", "bb")] |}.

Definition facts : AuditFacts :=
  {| af_platform := [("os", Str "debian")]; af_listeners := [("443", Array [Str "nginx"])];
     af_ownership := []; af_topology := []; af_prerequisites := [("disk", json_int 12)];
     af_transient := [("load", json_int 3)] |}.

Definition plan : InstallPlan :=
  {| p_config := obj [("profile", Str "core"); ("schema", json_int 1)]; p_facts := facts;
     p_release := release; p_adapter_order := ["packages"; "core"];
     p_adapter_dependencies := [("core", ["packages"]); ("packages", [])];
     p_actions := [action]; p_schema := 1 |}.

Lemma action_from_value_iff_witness :
  Action.from_value (Action.to_value action) = Ok action <->
  Action.validate action = Ok tt /\ Action.to_value action = Action.to_value action.
Proof. apply (action_from_value_iff (Action.to_value action) action). reflexivity. Defined.

Lemma plan_roundtrip_witness :
  plan_ok plan /\ InstallPlan.from_value (InstallPlan.canonical_value plan) = Ok (forget_transient plan).
Proof.
  assert (H : plan_ok plan) by (repeat split; try reflexivity; repeat constructor).
  split; [exact H|]. apply (plan_roundtrip plan H).
Defined.

Lemma digest_binds_witness :
  forget_transient plan = forget_transient (forget_transient plan) \/
  (InstallPlan.to_canonical_json plan <> InstallPlan.to_canonical_json (forget_transient plan) /\
   sha256_hex (InstallPlan.to_canonical_json plan) =
   sha256_hex (InstallPlan.to_canonical_json (forget_transient plan))).
Proof. apply (digest_binds plan (forget_transient plan)); reflexivity. Defined.

Lemma canonical_set_witness :
  Fact.canonical (FSet [FInt 9; FInt 10; FInt 9]) = Fact.canonical (FSet [FInt 10; FInt 9]) /\
  Fact.canonical (FSet [FInt 10; FInt 9]) = Ok (Array [json_int 10; json_int 9]).
Proof.
  split; [|reflexivity].
  refine (proj1 (canonical_set [FInt 9; FInt 10; FInt 9] [FInt 10; FInt 9] _ _ eq_refl eq_refl eq_refl _)).
  intros f. rewrite !elem_of_cons. tauto.
Defined.

Lemma evidence_roundtrip_witness :
  let e := {| ev_action_id := "core.runtime"; ev_success := true; ev_observations := ["answers"];
              ev_details := [("port", json_int 8443)] |} in
  Evidence.from_map (Evidence.to_map e) = Ok e.
Proof.
  intros e.
  apply (evidence_roundtrip "core.runtime" true ["answers"] (FMap [("port", FInt 8443)]) e); reflexivity.
Defined.
End Sample.
