(* ===== verification/Planner.v ===== *)
(** * Building a plan

    [installer_core/src/planner.rs], from [PlanAdapter] on: the topological sort of the adapters, the
    plan composed from their actions, and the adapters and Compose files a configuration selects. *)

From S2P Require Import Prelude BTree Utf8 Numeric Json JsonFacts PyText Secret Model Plan PlanFacts.

Record PlanAdapter := {
  pa_name : string;
  pa_requires : list string;
  pa_plan : InstallerConfig -> AuditFacts -> plan_result (list Action);
}.

(** [let mut requires = adapter.requires(); requires.sort(); requires.dedup();] *)
Definition requires_of (a : PlanAdapter) : list string := dedup (sort_str (pa_requires a)).

(** ** [topologically_sorted] *)

(** The first loop: [by_name], or why a name is refused. *)
Fixpoint name_adapters (by_name : list (string * PlanAdapter)) (adapters : list PlanAdapter)
  : plan_result (list (string * PlanAdapter)) :=
  match adapters with
  | [] => Ok by_name
  | a :: rest =>
      let name := pa_name a in
      if negb (nonempty name) then Err (PlanError.new "adapter name must be a non-empty string")
      else if existsb (fun known => known.1 =?s name) by_name
      then Err (PlanError.new ("duplicate adapter name: " +:+ name))
      else name_adapters (by_name ++ [(name, a)]) rest
  end.

(** The maps keyed by name. A [HashMap] is only looked up, so key order is as good as none. *)
Definition push_dependent (requirement name : string) (dependents : bmap (list string)) : bmap (list string) :=
  bset requirement (default [] (dependents @@ requirement) ++ [name]) dependents.

(** The second loop. *)
Fixpoint link_adapters (by_name : list (string * PlanAdapter)) (todo : list (string * PlanAdapter))
  (dependents : bmap (list string)) (indegree : bmap nat) : plan_result (bmap (list string) * bmap nat) :=
  match todo with
  | [] => Ok (dependents, indegree)
  | (name, a) :: rest =>
      let requires := requires_of a in
      match find (fun r => negb (existsb (fun known => known.1 =?s r) by_name)) requires with
      | Some missing => Err (PlanError.new ("adapter " +:+ name +:+ " requires missing adapter: " +:+ missing))
      | None =>
          link_adapters by_name rest
            (fold_left (fun d requirement => push_dependent requirement name d) requires dependents)
            (bset name (length requires) indegree)
      end
  end.

(** [BinaryHeap<Reverse<(usize, String)>>]: what it holds in the order it pops. *)
Abbreviation heap := (list (nat * string)).

Definition key_ltb (x y : nat * string) : bool :=
  (x.1 <? y.1)%nat || ((x.1 =? y.1)%nat && str_ltb x.2 y.2).

Fixpoint heap_push (x : nat * string) (h : heap) : heap :=
  match h with
  | [] => [x]
  | y :: h' => if key_ltb y x then y :: heap_push x h' else x :: h
  end.

Definition position_of (by_name : list (string * PlanAdapter)) (name : string) : nat :=
  (fix go i l := match l with
     | [] => i
     | e :: l' => if e.1 =?s name then i else go (S i) l'
     end) 0 by_name.

(** [for dependent in next]: the counts go down, and an adapter whose count reaches zero is ready. A
    count is positive whenever it is taken from ([release_counts] and the invariant of the sort). *)
Fixpoint release (by_name : list (string * PlanAdapter)) (next : list string) (indegree : bmap nat) (ready : heap)
  : bmap nat * heap :=
  match next with
  | [] => (indegree, ready)
  | dependent :: rest =>
      let count := default 0 (indegree @@ dependent) - 1 in
      let indegree := bset dependent count indegree in
      release by_name rest indegree
        (if (count =? 0)%nat then heap_push (position_of by_name dependent, dependent) ready else ready)
  end.

(** [while let Some(..) = ready.pop()]. Every adapter becomes ready at most once, so as many turns as
    there are adapters empty the heap ([sort_loop_end]). *)
Fixpoint sort_loop (fuel : nat) (by_name : list (string * PlanAdapter)) (dependents : bmap (list string))
  (indegree : bmap nat) (ready : heap) (ordered : list (string * PlanAdapter))
  : bmap nat * heap * list (string * PlanAdapter) :=
  match fuel, ready with
  | S fuel, (_, name) :: ready =>
      match find (fun e => e.1 =?s name) by_name with
      | Some e =>
          let next := sort_str (default [] (dependents @@ name)) in
          let '(indegree, ready) := release by_name next indegree ready in
          sort_loop fuel by_name dependents indegree ready (ordered ++ [e])
      | None => (indegree, ready, ordered)
      end
  | _, _ => (indegree, ready, ordered)
  end.

Definition topologically_sorted (adapters : list PlanAdapter) : plan_result (list PlanAdapter) :=
  by_name ← name_adapters [] adapters;
  let dependents := bcollect (map (fun e => (e.1, [])) by_name) in
  '(dependents, indegree) ← link_adapters by_name by_name dependents [];
  let ready := foldr heap_push []
    (omap (fun e => if (e.2 =? 0)%nat then Some (position_of by_name e.1, e.1) else None) indegree) in
  let '(indegree, _, ordered) := sort_loop (length by_name) by_name dependents indegree ready [] in
  if negb (length ordered =? length by_name)%nat
  then Err (PlanError.new ("adapter dependency cycle: " +:+
              join ", " (map fst (List.filter (fun e => (0 <? e.2)%nat) indegree))))
  else Ok (map snd ordered).

(** ** [build_plan] *)

Section build.
Context {UT : UnicodeText} {FT : FloatText}.

(** The inner loop: the adapter's items join the actions. *)
Fixpoint add_actions (name : string) (items actions : list Action) : plan_result (list Action) :=
  match items with
  | [] => Ok actions
  | item :: rest =>
      if negb (act_adapter item =?s name)
      then Err (PlanError.new ("action " +:+ act_id item +:+ " names adapter " +:+ act_adapter item
                               +:+ ", expected " +:+ name))
      else if existsb (fun existing => act_id existing =?s act_id item) actions
      then Err (PlanError.new ("duplicate action id: " +:+ act_id item))
      else add_actions name rest (actions ++ [item])
  end.

Fixpoint collect_actions (config : InstallerConfig) (facts : AuditFacts) (ordered : list PlanAdapter)
  (actions : list Action) (dependencies : bmap (list string)) : plan_result (list Action * bmap (list string)) :=
  match ordered with
  | [] => Ok (actions, dependencies)
  | a :: rest =>
      let dependencies := bset (pa_name a) (requires_of a) dependencies in
      items ← pa_plan a config facts;
      actions ← add_actions (pa_name a) items actions;
      collect_actions config facts rest actions dependencies
  end.

Definition build_plan (config : InstallerConfig) (facts : AuditFacts) (adapters : list PlanAdapter)
  (release : ReleaseIdentity) : plan_result InstallPlan :=
  ordered ← topologically_sorted adapters;
  '(actions, dependencies) ← collect_actions config facts ordered [] [];
  InstallPlan.new (canonical_dict config) facts release (map pa_name ordered) dependencies actions PLAN_SCHEMA.
End build.

(** ** The adapters and the Compose files of a configuration *)

Definition ADAPTER_NAMES : list string :=
  ["packages"; "nginx"; "certificates"; "firewall"; "core"; "naive"; "mieru"; "three_xui"; "warp";
   "xray_router"; "mcp"; "amneziawg"; "trusttunnel"; "version_agent"].

Definition adapter_requires (name : string) : list string :=
  if name =?s "packages" then []
  else if mem_str name ["nginx"; "firewall"; "warp"] then ["packages"]
  else if name =?s "certificates" then ["nginx"; "packages"]
  else if mem_str name ["core"; "three_xui"] then ["certificates"]
  else ["core"].

Definition PROFILE_ORDER : list string :=
  ["packages"; "nginx"; "firewall"; "certificates"; "core"; "warp"; "xray_router"; "naive"; "mieru";
   "three_xui"; "amneziawg"; "trusttunnel"; "mcp"; "version_agent"].

Definition is_some {A} (o : option A) : bool := match o with Some _ => true | None => false end.

(** The closure [selected] of [adapters_for]. *)
Definition selected (c : InstallerConfig) (name : string) : bool :=
  let egress := effective_egress c in
  if mem_str name ["packages"; "nginx"; "certificates"; "core"; "version_agent"] then true
  else if name =?s "firewall" then bool_decide (c_host_mode c = Fresh) && manage_ufw (c_firewall c)
  else if name =?s "warp" then e_warp egress
  else if name =?s "xray_router" then e_router egress
  else if name =?s "naive" then Profile.includes_naive (c_profile c)
  else if name =?s "mieru" then Profile.includes_mieru (c_profile c)
  else if name =?s "three_xui" then negb (bool_decide (x_mode (c_three_xui c) = XuiNone))
  else if name =?s "amneziawg" then is_some (c_amneziawg c)
  else if name =?s "trusttunnel" then is_some (c_trusttunnel c)
  else if name =?s "mcp" then is_some (d_mcp (c_domains c))
  else false.

Definition adapters_for (c : InstallerConfig) : plan_result (list string) :=
  let naive := Profile.includes_naive (c_profile c) in
  let mieru := Profile.includes_mieru (c_profile c) in
  if naive && negb (is_some (d_naive (c_domains c)))
  then Err (PlanError.new "the selected profile requires a NaiveProxy domain")
  else if mieru && (negb (is_some (d_mieru (c_domains c))) || negb (is_some (c_mieru c)))
  then Err (PlanError.new "the selected profile requires Mieru listeners and a host")
  else if negb mieru && is_some (c_mieru c)
  then Err (PlanError.new "Mieru listeners are configured outside a Mieru profile")
  else if bool_decide (x_mode (c_three_xui c) = ManagedNew) && negb (bool_decide (c_host_mode c = Fresh))
  then Err (PlanError.new "managed 3x-ui requires a fresh host")
  else Ok (List.filter (selected c) PROFILE_ORDER).

Definition compose_file_list (c : InstallerConfig) : list string :=
  ["compose.yaml"]
  ++ (if Profile.includes_naive (c_profile c) then ["compose.naive.yaml"] else [])
  ++ (if Profile.includes_mieru (c_profile c) then ["compose.mieru.yaml"] else [])
  ++ (if e_router (effective_egress c) then ["compose.xray-router.yaml"] else [])
  ++ (if is_some (c_amneziawg c) then ["compose.amneziawg.yaml"] else [])
  ++ (if is_some (c_trusttunnel c) then ["compose.trusttunnel.yaml"] else [])
  ++ (if is_some (d_mcp (c_domains c)) then ["compose.mcp.yaml"] else []).
