(* ===== verification/TopoFacts.v ===== *)
(** * The topological sort

    [topologically_sorted] of [installer_core/src/planner.rs] gives a dependency order, the one the
    caller's order picks, whenever there is one, and names the adapters of a cycle otherwise. *)

From S2P Require Import Prelude BTree Utf8 Numeric Json PyText Model Plan Planner.

(** ** Sorted and deduplicated requirements *)

Lemma insert_str_elem x s l : x ∈ insert_str s l <-> x = s \/ x ∈ l.
Proof.
  induction l as [|y l IH]; simpl; [by rewrite elem_of_cons|].
  destruct (str_ltb y s); rewrite !elem_of_cons, ?IH; tauto.
Qed.

Lemma sort_str_elem x l : x ∈ sort_str l <-> x ∈ l.
Proof.
  unfold sort_str. induction l as [|y l IH]; simpl; [done|]. by rewrite insert_str_elem, IH, elem_of_cons.
Qed.

Lemma insert_str_perm s l : insert_str s l ≡ₚ s :: l.
Proof. induction l as [|y l IH]; simpl; [done|]. destruct (str_ltb y s); [|done]. rewrite IH. constructor. Qed.

Lemma sort_str_perm l : sort_str l ≡ₚ l.
Proof. unfold sort_str. induction l as [|y l IH]; simpl; [done|]. by rewrite insert_str_perm, IH. Qed.

Lemma dedup_elem x l : x ∈ dedup l <-> x ∈ l.
Proof.
  induction l as [|y [|z l] IH]; [done..|]. cbn [dedup] in *. destruct (y =?s z) eqn:H.
  - apply eqb_s_true in H as ->. rewrite IH, !elem_of_cons. tauto.
  - rewrite elem_of_cons, IH, (elem_of_cons (z :: l)). tauto.
Qed.

(** Strings in non-decreasing order. *)
Inductive ordered_str : list string -> Prop :=
| os_nil : ordered_str []
| os_cons s l : Forall (fun x => str_ltb x s = false) l -> ordered_str l -> ordered_str (s :: l).

Lemma not_ltb_trans a b c : str_ltb b a = false -> str_ltb c b = false -> str_ltb c a = false.
Proof.
  intros H1 H2. destruct (str_ltb c a) eqn:H; [|done].
  destruct (str_ltb a b) eqn:Hab; [by rewrite (str_ltb_trans _ _ _ H Hab) in H2|].
  assert (a = b) as <- by (by apply str_ltb_total). congruence.
Qed.

Lemma sort_str_ordered l : ordered_str (sort_str l).
Proof.
  unfold sort_str. induction l as [|s l IH]; simpl; [constructor|].
  induction IH as [|y k Hy Hk IHk]; simpl; [repeat constructor|].
  destruct (str_ltb y s) eqn:H.
  - constructor; [|exact IHk]. rewrite Forall_forall in *. intros x [->|Hx]%insert_str_elem; [|by apply Hy].
    by apply str_ltb_asym.
  - constructor; [|by constructor]. constructor; [done|]. eapply Forall_impl; [exact Hy|].
    simpl. intros x Hx. by eapply not_ltb_trans.
Qed.

Lemma dedup_NoDup l : ordered_str l -> NoDup (dedup l).
Proof.
  induction 1 as [|s l Hs Hl IH]; [constructor|]. destruct l as [|z l]; [simpl; repeat constructor; by intros ?%not_elem_of_nil|].
  change (NoDup (if s =?s z then dedup (z :: l) else s :: dedup (z :: l))).
  destruct (s =?s z) eqn:Heq; [exact IH|]. constructor; [|exact IH].
  apply eqb_s_false in Heq. rewrite dedup_elem. intros Hin. apply Heq.
  inversion Hl as [|? ? Hz _]; subst. rewrite Forall_forall in *.
  apply elem_of_cons in Hin as [|Hin]; [done|]. apply str_ltb_total.
  - apply (Hz _ Hin).
  - apply Hs. apply elem_of_cons. by left.
Qed.

Lemma requires_of_NoDup a : NoDup (requires_of a).
Proof. apply dedup_NoDup, sort_str_ordered. Qed.

Lemma requires_of_elem a r : r ∈ requires_of a <-> r ∈ pa_requires a.
Proof. unfold requires_of. by rewrite dedup_elem, sort_str_elem. Qed.

(** ** The loops before the sort *)

Definition named (a : PlanAdapter) : string * PlanAdapter := (pa_name a, a).

Lemma existsb_name {A} (l : list (string * A)) n : existsb (fun known => known.1 =?s n) l = true <-> n ∈ map fst l.
Proof.
  rewrite existsb_exists, list_elem_of_fmap. split.
  - intros (x & Hx & H). apply eqb_s_true in H as <-. exists x. split; [done|]. by apply list_elem_of_In.
  - intros (x & -> & Hx). exists x. split; [by apply list_elem_of_In|apply eqb_s_refl].
Qed.

Lemma name_adapters_Ok l : forall acc, NoDup (map fst acc) -> forall bn,
  name_adapters acc l = Ok bn <->
  bn = acc ++ map named l /\ NoDup (map fst bn) /\ Forall (fun a => nonempty (pa_name a) = true) l.
Proof.
  induction l as [|a l IH]; intros acc Hacc bn; simpl.
  - rewrite app_nil_r. split; [intros [= <-]; done|by intros (-> & _ & _)].
  - rewrite Forall_cons. destruct (nonempty (pa_name a)); simpl; [|split; [done|by intros (_ & _ & ? & _)]].
    destruct (existsb _ acc) eqn:Hd.
    + split; [done|]. intros (-> & Hnd & _). exfalso. apply existsb_name in Hd.
      rewrite map_app in Hnd. apply NoDup_app in Hnd as (_ & Hnd & _).
      apply (Hnd _ Hd). simpl. apply elem_of_cons. by left.
    + rewrite IH.
      * rewrite <-app_assoc. simpl. tauto.
      * rewrite map_app. apply NoDup_app. split; [done|]. split.
        -- intros n Hn. simpl. rewrite list_elem_of_singleton. intros ->.
           apply existsb_name in Hn. congruence.
        -- simpl. apply NoDup_singleton.
Qed.

Definition needs (e : string * PlanAdapter) (r : string) : bool := mem_str r (requires_of e.2).

(** The names whose adapters need [r], in order. *)
Definition dependents_of (todo : list (string * PlanAdapter)) (r : string) : list string :=
  map fst (List.filter (fun e => needs e r) todo).

Lemma push_dependents name requires deps r : NoDup requires ->
  default [] (fold_left (fun d q => push_dependent q name d) requires deps @@ r)
  = default [] (deps @@ r) ++ (if mem_str r requires then [name] else []).
Proof.
  intros Hnd. revert deps. induction Hnd as [|q requires Hq Hnd IH]; intros deps; simpl.
  - by rewrite app_nil_r.
  - rewrite IH. unfold push_dependent. rewrite bget_bset. unfold mem_str. simpl.
    destruct (r =?s q) eqn:Heq; [|done]. apply eqb_s_true in Heq as ->. simpl.
    assert (existsb (String.eqb q) requires = false) as ->; [|by rewrite app_nil_r].
    destruct (existsb (String.eqb q) requires) eqn:H; [|done]. by apply mem_str_true in H.
Qed.

Definition closed_in (bn todo : list (string * PlanAdapter)) : Prop :=
  Forall (fun e => forall r, r ∈ requires_of e.2 -> r ∈ map fst bn) todo.

Lemma link_closed (bn : list (string * PlanAdapter)) e :
  match find (fun r => negb (existsb (fun known => known.1 =?s r) bn)) (requires_of e) with
  | None => True | Some _ => False end <-> (forall r, r ∈ requires_of e -> r ∈ map fst bn).
Proof.
  destruct (find _ _) as [r|] eqn:Hf.
  - split; [done|]. intros H. apply find_some in Hf as [Hin Hr]. apply list_elem_of_In, H in Hin.
    apply existsb_name in Hin. by rewrite Hin in Hr.
  - split; [|done]. intros _ r Hr. apply existsb_name.
    pose proof (find_none _ _ Hf r (proj1 (list_elem_of_In _ _) Hr)) as H. simpl in H.
    by destruct (existsb _ bn).
Qed.

Lemma link_Ok bn todo : closed_in bn todo -> forall deps indeg,
  exists deps' indeg', link_adapters bn todo deps indeg = Ok (deps', indeg').
Proof.
  induction 1 as [|[n a] todo Hc _ IH]; intros deps indeg; simpl; [eauto|].
  apply link_closed in Hc. simpl in Hc. destruct (find _ (requires_of a)); [done|apply IH].
Qed.

Lemma link_spec bn todo : forall deps indeg deps' indeg',
  link_adapters bn todo deps indeg = Ok (deps', indeg') -> NoDup (map fst todo) ->
  closed_in bn todo /\
  (forall r, default [] (deps' @@ r) = default [] (deps @@ r) ++ dependents_of todo r) /\
  (bsorted indeg = true -> bsorted indeg' = true) /\
  (forall e, e ∈ todo -> indeg' @@ e.1 = Some (length (requires_of e.2))) /\
  (forall n, n ∉ map fst todo -> indeg' @@ n = indeg @@ n).
Proof.
  induction todo as [|[n a] todo IH]; intros deps indeg deps' indeg'; simpl.
  - intros [= <- <-] _. split; [constructor|]. split; [intros r; by rewrite app_nil_r|].
    split; [done|]. split; [by intros e ?%not_elem_of_nil|done].
  - destruct (find _ (requires_of a)) as [|] eqn:Hf; [done|]. intros H [Hn Hnd]%NoDup_cons.
    apply IH in H as (Hc & Hd & Hs & Hin & Hout); [|done]. split; [|split; [|split; [|split]]].
    + constructor; [|exact Hc]. apply link_closed. simpl. by rewrite Hf.
    + intros r. rewrite Hd, push_dependents by apply requires_of_NoDup. rewrite <-app_assoc. f_equal.
      unfold dependents_of, needs. simpl. by destruct (mem_str r (requires_of a)).
    + intros Hi. apply Hs. by apply bsorted_bset.
    + intros e [->|He]%elem_of_cons; [|by apply Hin]. simpl. rewrite Hout by done. apply bget_bset_eq.
    + intros m Hm. rewrite elem_of_cons in Hm. rewrite Hout by tauto. apply bget_bset_ne. intros ->. tauto.
Qed.

Lemma dependents_elem todo r n : n ∈ dependents_of todo r <-> exists a, (n, a) ∈ todo /\ r ∈ requires_of a.
Proof.
  unfold dependents_of. rewrite list_elem_of_fmap. split.
  - intros ([m a] & -> & H). apply list_elem_of_In, filter_In in H as [H Hr]. simpl.
    exists a. split; [by apply list_elem_of_In|]. by apply mem_str_true.
  - intros (a & H & Hr). exists (n, a). split; [done|]. apply list_elem_of_In, filter_In.
    split; [by apply list_elem_of_In|]. by apply mem_str_true.
Qed.

Lemma dependents_NoDup todo r : NoDup (map fst todo) -> NoDup (dependents_of todo r).
Proof.
  unfold dependents_of. induction todo as [|[n a] todo IH]; simpl; [constructor|].
  intros [Hn Hnd]%NoDup_cons. destruct (needs (n, a) r); [|by apply IH]. simpl. constructor; [|by apply IH].
  intros (e & -> & He)%list_elem_of_fmap. apply Hn. apply list_elem_of_fmap. exists e. split; [done|].
  apply list_elem_of_In, filter_In in He as [He _]. by apply list_elem_of_In.
Qed.

(** ** The heap *)

Inductive heap_ok : heap -> Prop :=
| heap_nil : heap_ok []
| heap_cons x h : Forall (fun y => key_ltb y x = false) h -> heap_ok h -> heap_ok (x :: h).

Lemma key_ltb_asym x y : key_ltb x y = true -> key_ltb y x = false.
Proof.
  unfold key_ltb. destruct x as [p a], y as [q b]. simpl.
  destruct (str_ltb a b) eqn:Hab; [rewrite (str_ltb_asym _ _ Hab)|]; lia.
Qed.

Lemma key_trans x y z : key_ltb y x = false -> key_ltb z y = false -> key_ltb z x = false.
Proof.
  unfold key_ltb. destruct x as [p a], y as [q b], z as [r c]. simpl. intros H1 H2.
  destruct (r <? p)%nat eqn:?, (r =? p)%nat eqn:?; try lia. simpl.
  assert (q = p) as -> by lia. assert (r = p) as -> by lia.
  rewrite Nat.ltb_irrefl, Nat.eqb_refl in *. simpl in *. by eapply not_ltb_trans.
Qed.

Lemma heap_push_perm x h : heap_push x h ≡ₚ x :: h.
Proof. induction h as [|y h IH]; simpl; [done|]. destruct (key_ltb y x); [|done]. rewrite IH. constructor. Qed.

Lemma heap_push_ok x h : heap_ok h -> heap_ok (heap_push x h).
Proof.
  induction 1 as [|y h Hy Hh IH]; simpl; [repeat constructor|].
  destruct (key_ltb y x) eqn:Hlt.
  - constructor; [|exact IH]. rewrite Forall_forall in *. intros z Hz.
    rewrite heap_push_perm in Hz. apply elem_of_cons in Hz as [->|Hz]; [by apply key_ltb_asym|by apply Hy].
  - constructor; [|by constructor]. constructor; [done|]. eapply Forall_impl; [exact Hy|].
    simpl. intros z Hz. by eapply key_trans.
Qed.

Lemma heap_fold_ok l : heap_ok (foldr heap_push [] l) /\ foldr heap_push [] l ≡ₚ l.
Proof.
  induction l as [|x l [IH IHp]]; simpl; [split; [constructor|done]|].
  split; [by apply heap_push_ok|]. by rewrite heap_push_perm, IHp.
Qed.

(** ** One turn's releases *)

Definition cnt (indegree : bmap nat) (n : string) : nat := default 0 (indegree @@ n).

Lemma release_spec bn next : NoDup next -> forall indegree ready, heap_ok ready ->
  Forall (fun d => 0 < cnt indegree d) next ->
  let '(indegree', ready') := release bn next indegree ready in
  heap_ok ready' /\
  (forall n, cnt indegree' n = if mem_str n next then cnt indegree n - 1 else cnt indegree n) /\
  (bsorted indegree = true -> bsorted indegree' = true) /\
  (forall n, bhas n indegree = true -> bhas n indegree' = true) /\
  (forall n, bhas n indegree' = true -> bhas n indegree = true \/ n ∈ next) /\
  ready' ≡ₚ ready ++ map (fun d => (position_of bn d, d)) (List.filter (fun d => cnt indegree d =? 1) next).
Proof.
  induction 1 as [|d next Hd Hnd IH]; intros indegree ready Hh Hpos; simpl.
  - rewrite app_nil_r. repeat split; try done. by left.
  - apply Forall_cons in Hpos as [Hd0 Hpos]. fold (cnt indegree d).
    set (i1 := bset d (cnt indegree d - 1) indegree).
    assert (Hc1 : forall n, cnt i1 n = if n =?s d then cnt indegree d - 1 else cnt indegree n).
    { intros n. unfold cnt, i1. rewrite bget_bset. by destruct (n =?s d). }
    assert (Hne : forall n, n ∈ next -> n =?s d = false) by (intros n Hn; apply eqb_s_false; by intros ->).
    set (r1 := if (cnt indegree d - 1 =? 0)%nat then _ else ready).
    assert (Hr1 : heap_ok r1) by (unfold r1; destruct (_ =? _)%nat; [by apply heap_push_ok|done]).
    assert (Hpos1 : Forall (fun n => 0 < cnt i1 n) next).
    { rewrite Forall_forall in *. intros n Hn. rewrite Hc1, (Hne _ Hn). by apply Hpos. }
    specialize (IH i1 r1 Hr1 Hpos1). destruct (release bn next i1 r1) as [i' r'].
    destruct IH as (Hh' & Hc & Hs & Hk & Hk' & Hp). split; [done|]. split; [|split; [|split; [|split]]].
    + intros n. rewrite Hc, Hc1. unfold mem_str. simpl. destruct (n =?s d) eqn:Hn; [|done]. apply eqb_s_true in Hn as ->. simpl.
      destruct (existsb (String.eqb d) next) eqn:H; [|done]. by apply mem_str_true in H.
    + intros Hi. by apply Hs, bsorted_bset.
    + intros n Hn. apply Hk. unfold bhas, i1 in *. rewrite bget_bset. by destruct (n =?s d).
    + intros n [Hn|Hn]%Hk'; [|right; apply elem_of_cons; by right].
      unfold bhas, i1 in Hn. rewrite bget_bset in Hn. destruct (n =?s d) eqn:He; [|by left].
      apply eqb_s_true in He as ->. right. apply elem_of_cons. by left.
    + rewrite Hp.
      assert (Hf : List.filter (fun n => cnt i1 n =? 1) next = List.filter (fun n => cnt indegree n =? 1) next).
      { clear -Hc1 Hne. induction next as [|n next IH]; [done|]. simpl. rewrite Hc1, Hne by (apply elem_of_cons; by left).
        rewrite IH; [done|]. intros m Hm. apply Hne, elem_of_cons. by right. }
      rewrite Hf. unfold r1.
      destruct (cnt indegree d =? 1)%nat eqn:H1.
      * replace (cnt indegree d - 1 =? 0)%nat with true by lia. rewrite heap_push_perm. simpl.
        by rewrite Permutation_middle.
      * by replace (cnt indegree d - 1 =? 0)%nat with false by lia.
Qed.

(** ** The sort *)

(** [l] respects the requirements and, among the adapters whose requirements are met, always takes
    the first in the caller's order [bn]. *)
Definition met (before : list string) (e : string * PlanAdapter) : Prop :=
  forall r, r ∈ requires_of e.2 -> r ∈ before.

Definition greedy (bn l : list (string * PlanAdapter)) : Prop :=
  forall before x after, l = before ++ x :: after ->
    met (map fst before) x /\
    forall y, y ∈ bn -> y ∉ before -> met (map fst before) y ->
      position_of bn x.1 <= position_of bn y.1.

Lemma greedy_snoc bn l x : greedy bn l -> met (map fst l) x ->
  (forall y, y ∈ bn -> y ∉ l -> met (map fst l) y -> position_of bn x.1 <= position_of bn y.1) ->
  greedy bn (l ++ [x]).
Proof.
  intros Hl Hx Hmin before z after Heq.
  destruct after as [|w after _] using rev_ind.
  - apply app_inj_tail in Heq as [-> ->]. by split.
  - rewrite app_comm_cons, app_assoc in Heq. apply app_inj_tail in Heq as [Heq _]. by apply (Hl _ _ after).
Qed.

Section sort.
Context (bn : list (string * PlanAdapter)) (deps : bmap (list string)).
Context (Hnd : NoDup (map fst bn)) (Hclosed : closed_in bn bn).
Context (Hdeps : forall r, r ∈ map fst bn -> default [] (deps @@ r) = dependents_of bn r).

(** How many requirements of an adapter are not in [done_] yet. *)
Definition missing (done_ : list string) (e : string * PlanAdapter) : nat :=
  length (List.filter (fun r => negb (mem_str r done_)) (requires_of e.2)).

Record sort_inv (indegree : bmap nat) (ready : heap) (ordered : list (string * PlanAdapter)) : Prop := {
  inv_heap : heap_ok ready;
  inv_keys : Forall (fun x => x.1 = position_of bn x.2) ready;
  inv_nodup : NoDup (map fst ordered ++ map snd ready);
  inv_sub : forall e, e ∈ ordered -> e ∈ bn;
  inv_ready : forall n, n ∈ map snd ready -> n ∈ map fst bn;
  inv_cnt : forall e, e ∈ bn -> cnt indegree e.1 = missing (map fst ordered) e;
  inv_zero : forall e, e ∈ bn -> e.1 ∈ map fst ordered ++ map snd ready <-> cnt indegree e.1 = 0;
  inv_greedy : greedy bn ordered;
  inv_sorted : bsorted indegree = true;
  inv_dom : forall n, bhas n indegree = true <-> n ∈ map fst bn;
}.

Lemma by_name_unique e e' : e ∈ bn -> e' ∈ bn -> e.1 = e'.1 -> e = e'.
Proof.
  clear -Hnd. induction bn as [|x l IH]; [by intros ?%not_elem_of_nil|].
  simpl in Hnd. apply NoDup_cons in Hnd as [Hx Hl].
  intros [->|He]%elem_of_cons [->|He']%elem_of_cons Heq; [done| | |by apply IH].
  - exfalso. apply Hx. rewrite Heq. apply list_elem_of_fmap. by exists e'.
  - exfalso. apply Hx. rewrite <-Heq. apply list_elem_of_fmap. by exists e.
Qed.

Lemma find_name n : n ∈ map fst bn -> exists e, find (fun e => e.1 =?s n) bn = Some e /\ e ∈ bn /\ e.1 = n.
Proof.
  intros Hn. destruct (find _ bn) as [e|] eqn:Hf.
  - apply find_some in Hf as [Hin Heq]. exists e. split; [done|]. split; [by apply list_elem_of_In|].
    by apply eqb_s_true.
  - exfalso. apply list_elem_of_fmap in Hn as (e & -> & He).
    pose proof (find_none _ _ Hf e (proj1 (list_elem_of_In _ _) He)) as H. simpl in H. by rewrite eqb_s_refl in H.
Qed.

Lemma missing_zero l e : missing l e = 0 <-> met l e.
Proof.
  unfold missing, met. rewrite length_zero_iff_nil. split.
  - intros H r Hr. destruct (mem_str r l) eqn:Hm; [by apply mem_str_true|]. exfalso.
    assert (Hin : r ∈ List.filter (fun r => negb (mem_str r l)) (requires_of e.2)).
    { apply list_elem_of_In, filter_In. split; [by apply list_elem_of_In|by rewrite Hm]. }
    rewrite H in Hin. by apply not_elem_of_nil in Hin.
  - intros H. destruct (List.filter _ _) as [|r k] eqn:Hf; [done|]. exfalso.
    assert (Hin : In r (r :: k)) by by left. rewrite <-Hf in Hin. apply filter_In in Hin as [Hr Hm].
    apply list_elem_of_In, H, mem_str_true in Hr. by rewrite Hr in Hm.
Qed.

Lemma missing_snoc l n e : n ∉ l ->
  missing (l ++ [n]) e = missing l e - (if needs e n then 1 else 0) /\ (needs e n = true -> 0 < missing l e).
Proof.
  intros Hn. unfold missing, needs. pose proof (requires_of_NoDup e.2) as Hr.
  assert (Hm : forall r, mem_str r (l ++ [n]) = mem_str r l || (r =?s n)).
  { intros r. unfold mem_str. rewrite existsb_app. simpl. by rewrite orb_false_r. }
  assert (Hn' : mem_str n l = false) by (destruct (mem_str n l) eqn:H; [by apply mem_str_true in H|done]).
  induction Hr as [|r k Hr Hk IH]; [done|]. cbn [List.filter].
  change (mem_str n (r :: k)) with ((n =?s r) || mem_str n k). rewrite Hm, (String.eqb_sym r n).
  destruct (n =?s r) eqn:Heq.
  - apply eqb_s_true in Heq as <-. rewrite Hn'. simpl. split; [|lia].
    assert (Hf : List.filter (fun r => negb (mem_str r (l ++ [n]))) k = List.filter (fun r => negb (mem_str r l)) k).
    { apply filter_ext_in. intros r Hin. rewrite Hm. destruct (r =?s n) eqn:H; [|by rewrite orb_false_r].
      apply eqb_s_true in H as ->. exfalso. apply Hr. by apply list_elem_of_In. }
    rewrite Hf. lia.
  - rewrite orb_false_r, orb_false_l. destruct (mem_str r l); simpl; [exact IH|]. destruct IH as [-> IH].
    split; [|lia]. destruct (mem_str n k); [|lia]. specialize (IH eq_refl). lia.
Qed.

Lemma map_fst_in e : e ∈ bn -> e.1 ∈ map fst bn.
Proof. intros He. apply list_elem_of_fmap. by exists e. Qed.

Lemma next_needs n e : e ∈ bn -> mem_str e.1 (sort_str (dependents_of bn n)) = needs e n.
Proof.
  intros He. apply eq_true_iff_eq. rewrite mem_str_true, sort_str_elem, dependents_elem.
  unfold needs. rewrite mem_str_true. split.
  - intros (a & Ha & Hr). by rewrite (by_name_unique e (e.1, a) He Ha eq_refl).
  - intros Hr. exists e.2. by destruct e.
Qed.

Lemma step_names indegree ready ordered n p l :
  sort_inv indegree ((p, n) :: ready) ordered ->
  l ≡ₚ ready ++ map (fun d => (position_of bn d, d))
         (List.filter (fun d => cnt indegree d =? 1) (sort_str (dependents_of bn n))) ->
  forall m, m ∈ (map fst ordered ++ [n]) ++ map snd l <->
    m ∈ map fst ordered ++ map snd ((p, n) :: ready) \/
    (m ∈ sort_str (dependents_of bn n) /\ cnt indegree m = 1).
Proof.
  intros _ Hl m. assert (Hs : map snd l ≡ₚ map snd ready ++
    List.filter (fun d => cnt indegree d =? 1) (sort_str (dependents_of bn n))).
  { rewrite Hl, map_app, map_map. simpl. by rewrite map_id. }
  rewrite elem_of_app, Hs, !elem_of_app. simpl. rewrite !elem_of_cons.
  rewrite (list_elem_of_In (List.filter _ _)), filter_In, <-list_elem_of_In.
  rewrite Nat.eqb_eq. pose proof (not_elem_of_nil m). tauto.
Qed.

Lemma sort_step indegree p n ready ordered :
  sort_inv indegree ((p, n) :: ready) ordered ->
  exists e, find (fun e => e.1 =?s n) bn = Some e /\
    let '(indegree', ready') := release bn (sort_str (default [] (deps @@ n))) indegree ready in
    sort_inv indegree' ready' (ordered ++ [e]).
Proof.
  intros Hinv. pose proof Hinv as [Hheap Hkeys Hnodup Hsub Hready Hcnt Hzero Hgreedy Hsorted Hdom].
  assert (Hn : n ∈ map fst bn) by (apply Hready; simpl; apply elem_of_cons; by left).
  destruct (find_name n Hn) as (e & Hf & He & <-). exists e. split; [done|].
  rewrite Hdeps by done.
  assert (Hnew : e.1 ∉ map fst ordered).
  { apply NoDup_app in Hnodup as (_ & Hd & _). intros H. apply (Hd _ H). simpl. apply elem_of_cons. by left. }
  assert (Hmet : met (map fst ordered) e).
  { apply missing_zero. rewrite <-Hcnt by done. apply Hzero; [done|]. apply elem_of_app. right. simpl.
    apply elem_of_cons. by left. }
  assert (Hpos : forall e', e' ∈ bn -> needs e' e.1 = true -> 0 < cnt indegree e'.1).
  { intros e' He' Hneeds. rewrite Hcnt by done. by apply (missing_snoc (map fst ordered) e.1 e'). }
  set (next := sort_str (dependents_of bn e.1)).
  inversion Hheap as [|? ? Hhead Hheap']; subst. apply Forall_cons in Hkeys as [Hp Hkeys]. simpl in Hp.
  assert (Hnext : NoDup next) by (unfold next; rewrite sort_str_perm; by apply dependents_NoDup).
  assert (Hnext_bn : forall d, d ∈ next -> exists e', e' ∈ bn /\ e'.1 = d /\ needs e' e.1 = true).
  { intros d Hd. pose proof Hd as Hd'. unfold next in Hd. apply sort_str_elem, dependents_elem in Hd as (a & Ha & Hr).
    exists (d, a). split; [done|]. split; [done|]. by apply mem_str_true. }
  assert (Hnext_pos : Forall (fun d => 0 < cnt indegree d) next).
  { apply Forall_forall. intros d Hd. destruct (Hnext_bn d Hd) as (e' & He' & <- & Hne). by apply Hpos. }
  pose proof (release_spec bn next Hnext indegree ready Hheap' Hnext_pos) as Hrel.
  destruct (release bn next indegree ready) as [indegree' ready'].
  destruct Hrel as (Hheap2 & Hcnt' & Hsorted' & Hdom1 & Hdom2 & Hperm).
  pose proof (step_names _ _ _ _ _ _ Hinv Hperm) as Hnames. fold next in Hnames.
  assert (Hcnt2 : forall e', e' ∈ bn -> cnt indegree' e'.1 = missing (map fst ordered ++ [e.1]) e').
  { intros e' He'. rewrite Hcnt'. unfold next. rewrite next_needs by done.
    destruct (missing_snoc (map fst ordered) e.1 e' Hnew) as [-> _]. rewrite Hcnt by done.
    destruct (needs e' e.1); lia. }
  constructor; rewrite ?map_app; simpl map; try done.
  - rewrite Hperm. apply Forall_app. split; [done|]. apply Forall_map, Forall_forall. done.
  - rewrite Hperm, map_app, map_map. simpl. rewrite map_id, app_assoc.
    apply NoDup_app. split; [|split].
    + rewrite <-app_assoc. exact Hnodup.
    + intros m Hm Hin. apply list_elem_of_In, filter_In in Hin as [Hin H1]. apply list_elem_of_In in Hin.
      destruct (Hnext_bn m Hin) as (e' & He' & <- & _).
      rewrite <-app_assoc in Hm. apply (Hzero e' He') in Hm. lia.
    + apply NoDup_ListNoDup. apply List.NoDup_filter. by apply NoDup_ListNoDup.
  - intros e' [He'|He']%elem_of_app; [by apply Hsub|]. apply list_elem_of_singleton in He' as ->. done.
  - intros m Hm. rewrite Hperm, map_app, map_map in Hm. simpl in Hm. rewrite map_id in Hm.
    apply elem_of_app in Hm as [Hm|Hm]; [apply Hready; simpl; apply elem_of_cons; by right|].
    apply list_elem_of_In, filter_In in Hm as [Hm _]. apply list_elem_of_In in Hm.
    destruct (Hnext_bn m Hm) as (e' & He' & <- & _). by apply map_fst_in.
  - intros e' He'. rewrite Hnames, (Hzero e' He'), Hcnt'. rewrite <-mem_str_true.
    destruct (mem_str e'.1 next) eqn:Hm; [|lia]. unfold next in Hm. rewrite next_needs in Hm by done.
    specialize (Hpos e' He' Hm). lia.
  - apply greedy_snoc; [done..|]. intros y Hy Hny Hmety.
    assert (Hyin : y.1 ∈ map fst ordered ++ map snd ((position_of bn e.1, e.1) :: ready)).
    { apply Hzero; [done|]. rewrite Hcnt by done. by apply missing_zero. }
    apply elem_of_app in Hyin as [Hyin|Hyin].
    + exfalso. apply Hny. apply list_elem_of_fmap in Hyin as (y' & Heq & Hy').
      rewrite (by_name_unique y y'); auto.
    + simpl in Hyin. apply elem_of_cons in Hyin as [->|Hyin]; [done|].
      apply list_elem_of_fmap in Hyin as (k & Heq & Hk).
      rewrite Forall_forall in Hkeys. rewrite Forall_forall in Hhead.
      specialize (Hkeys _ Hk). specialize (Hhead _ Hk). unfold key_ltb in Hhead. simpl in *.
      rewrite Hkeys, <-Heq in Hhead. lia.
  - by apply Hsorted'.
  - intros m. rewrite <-Hdom. split; [|by apply Hdom1]. intros [H|Hm]%Hdom2; [done|].
    destruct (Hnext_bn m Hm) as (e' & He' & <- & _). by apply Hdom, map_fst_in.
Qed.

Lemma inv_length indegree ready ordered : sort_inv indegree ready ordered ->
  length ordered + length ready <= length bn.
Proof.
  intros Hinv. rewrite <-(length_map fst ordered), <-(length_map snd ready), <-(length_map fst bn), <-length_app.
  apply submseteq_length, NoDup_submseteq; [apply Hinv|].
  intros n [Hn|Hn]%elem_of_app; [|by eapply inv_ready].
  apply list_elem_of_fmap in Hn as (e & -> & He). apply map_fst_in. by eapply inv_sub.
Qed.

(** The loop empties the heap within its fuel. *)
Lemma sort_loop_end fuel : forall indegree ready ordered,
  sort_inv indegree ready ordered -> length bn <= fuel + length ordered ->
  exists indegree' ordered', sort_loop fuel bn deps indegree ready ordered = (indegree', [], ordered') /\
    sort_inv indegree' [] ordered'.
Proof.
  induction fuel as [|fuel IH]; intros indegree ready ordered Hinv Hfuel.
  - pose proof (inv_length _ _ _ Hinv). destruct ready; [|simpl in *; lia]. exists indegree, ordered. done.
  - destruct ready as [|[p n] ready]; [by exists indegree, ordered|]. cbn [sort_loop].
    destruct (sort_step _ _ _ _ _ Hinv) as (e & -> & Hstep).
    destruct (release bn _ indegree ready) as [indegree' ready']. apply IH; [done|].
    rewrite length_app. simpl. lia.
Qed.

(** The heap before the first turn. *)
Definition first_ready (indegree : bmap nat) : heap :=
  foldr heap_push []
    (omap (fun e => if (e.2 =? 0)%nat then Some (position_of bn e.1, e.1) else None) indegree).

Lemma first_inv indegree : bsorted indegree = true ->
  (forall e, e ∈ bn -> indegree @@ e.1 = Some (length (requires_of e.2))) ->
  (forall n, n ∉ map fst bn -> indegree @@ n = None) ->
  sort_inv indegree (first_ready indegree) [].
Proof.
  intros Hs Hin Hout. destruct (heap_fold_ok
    (omap (fun e => if (e.2 =? 0)%nat then Some (position_of bn e.1, e.1) else None) indegree)) as [Hheap Hperm].
  fold (first_ready indegree) in Hheap, Hperm.
  assert (Hdom : forall n, bhas n indegree = true <-> n ∈ map fst bn).
  { intros n. unfold bhas. split.
    - intros H. destruct (decide (n ∈ map fst bn)) as [|Hn]; [done|]. by rewrite Hout in H.
    - intros (e & -> & He)%list_elem_of_fmap. by rewrite Hin. }
  assert (Hready : forall n, n ∈ map snd (first_ready indegree) <-> indegree @@ n = Some 0).
  { intros n. rewrite Hperm, list_elem_of_fmap. split.
    - intros (x & -> & Hx). apply list_elem_of_omap in Hx as ([k c] & Hk & Heq). simpl in Heq.
      destruct (c =? 0)%nat eqn:Hc; [|done]. apply Nat.eqb_eq in Hc as ->. simplify_eq/=. by apply bget_In.
    - intros Hn. exists (position_of bn n, n). split; [done|]. apply list_elem_of_omap. exists (n, 0).
      split; [by apply bget_Some_In|done]. }
  constructor; try done.
  - rewrite Hperm. apply Forall_forall. intros x (k & Hk & Heq)%list_elem_of_omap.
    destruct (k.2 =? 0)%nat; by simplify_eq/=.
  - simpl. rewrite Hperm. pose proof (bsorted_NoDup _ Hs) as Hk. revert Hk. clear. unfold bkeys.
    induction indegree as [|[k c] m IH]; simpl; [constructor|]. intros [Hk Hm]%NoDup_cons.
    destruct (c =? 0)%nat; simpl; [|by apply IH]. constructor; [|by apply IH].
    intros Hin. apply Hk. apply list_elem_of_fmap in Hin as (x & -> & Hx).
    apply list_elem_of_omap in Hx as (e & He & Heq). destruct (e.2 =? 0)%nat; [|done]. simplify_eq/=.
    apply list_elem_of_fmap. by exists e.
  - intros e ?%not_elem_of_nil. done.
  - intros n Hn. apply Hdom. unfold bhas. by rewrite (proj1 (Hready n) Hn).
  - intros e He. unfold cnt, missing. rewrite Hin by done. simpl. f_equal.
    induction (requires_of e.2) as [|r k IH]; [done|]. simpl. by rewrite <-IH.
  - intros e He. simpl. rewrite Hready. unfold cnt. rewrite Hin by done. simpl. split; congruence.
  - intros before x after Heq. by destruct before.
Qed.
End sort.

(** ** The whole sort *)

(** What the sort runs on, and where it ends. *)
Lemma sort_run bn : NoDup (map fst bn) -> closed_in bn bn ->
  exists deps indegree, link_adapters bn bn (bcollect (map (fun e => (e.1, [])) bn)) [] = Ok (deps, indegree) /\
    exists indegree' ordered,
      sort_loop (length bn) bn deps indegree (first_ready bn indegree) [] = (indegree', [], ordered) /\
      sort_inv bn indegree' [] ordered.
Proof.
  intros Hnd Hc. destruct (link_Ok bn bn Hc (bcollect (map (fun e => (e.1, [])) bn)) []) as (deps & indegree & Hl).
  exists deps, indegree. split; [done|].
  pose proof (link_spec _ _ _ _ _ _ Hl Hnd) as (_ & Hd & Hs & Hin & Hout).
  apply (sort_loop_end bn deps); try done.
  - intros r _. rewrite Hd.
    assert (forall r l, default [] (bcollect (map (fun e : string * PlanAdapter => (e.1, [] : list string)) l) @@ r) = []) as ->; [|done].
    clear. intros r l. destruct (bcollect _ @@ r) as [v|] eqn:Hv; [|done]. simpl. revert v Hv. unfold bcollect.
    assert (forall m : bmap (list string), (forall v, m @@ r = Some v -> v = []) ->
      forall v, fold_left (fun m kv => bset kv.1 kv.2 m) (map (fun e : string * PlanAdapter => (e.1, [])) l) m @@ r = Some v -> v = []) as H;
      [|by apply H]. induction l as [|e l IH]; intros m Hm; simpl; [done|]. apply IH. intros v.
    rewrite bget_bset. destruct (r =?s e.1); [congruence|apply Hm].
  - apply first_inv; [by apply Hs|exact Hin|]. intros n Hn. by rewrite Hout.
  - simpl. lia.
Qed.

Lemma named_names l : map fst (map named l) = map pa_name l.
Proof. rewrite map_map. done. Qed.

Lemma sorted_ok_inv adapters ordered : topologically_sorted adapters = Ok ordered ->
  let bn := map named adapters in
  NoDup (map fst bn) /\ closed_in bn bn /\ Forall (fun a => nonempty (pa_name a) = true) adapters.
Proof.
  unfold topologically_sorted. intros H. inv_binds.
  apply name_adapters_Ok in Hr as (-> & Hnd & Hne); [|constructor]. simpl in *.
  destruct a0 as [deps indegree]. by apply link_spec in Hr0 as (Hc & _).
Qed.

(** The sort of well-formed input. *)
Lemma sorted_run adapters : let bn := map named adapters in
  NoDup (map fst bn) -> closed_in bn bn -> Forall (fun a => nonempty (pa_name a) = true) adapters ->
  exists indegree ordered, sort_inv bn indegree [] ordered /\
    topologically_sorted adapters =
      if negb (length ordered =? length bn)%nat
      then Err (PlanError.new ("adapter dependency cycle: " +:+
                  join ", " (map fst (List.filter (fun e => (0 <? e.2)%nat) indegree))))
      else Ok (map snd ordered).
Proof.
  intros bn Hnd Hc Hne. destruct (sort_run bn Hnd Hc) as (deps & indegree & Hl & indegree' & ordered & Hs & Hinv).
  exists indegree', ordered. split; [done|]. unfold topologically_sorted.
  assert (name_adapters [] adapters = Ok bn) as -> by (apply name_adapters_Ok; [constructor|done]).
  cbn [mbind result_bind]. rewrite Hl. cbn [mbind result_bind]. fold (first_ready bn indegree). by rewrite Hs.
Qed.

(** ** Properties *)

Definition requirements_met (before : list PlanAdapter) (a : PlanAdapter) : Prop :=
  forall r, r ∈ pa_requires a -> exists b, b ∈ before /\ pa_name b = r.

(** [a] comes before [b] in [l]. *)
Definition precedes {A} (l : list A) (a b : A) : Prop := exists l1 l2, l = l1 ++ a :: l2 /\ b ∈ l2.

(** Every adapter comes after those it requires. *)
Definition dependency_order (l : list PlanAdapter) : Prop :=
  forall before a after, l = before ++ a :: after -> requirements_met before a.

Fixpoint index_from (i : nat) (l : list (string * PlanAdapter)) (n : string) : nat :=
  match l with [] => i | e :: l' => if e.1 =?s n then i else index_from (S i) l' n end.

Lemma position_of_index l n : position_of l n = index_from 0 l n.
Proof.
  unfold position_of. generalize 0. induction l as [|e l IH]; intros i; simpl; [done|].
  by destruct (e.1 =?s n).
Qed.

Lemma index_from_ge l n : forall i, i <= index_from i l n.
Proof. induction l as [|e l IH]; intros i; simpl; [lia|]. destruct (e.1 =?s n); [lia|]. specialize (IH (S i)). lia. Qed.

Lemma index_precedes l a b : NoDup (map pa_name l) -> a ∈ l -> b ∈ l -> a <> b -> forall i,
  index_from i (map named l) (pa_name a) <= index_from i (map named l) (pa_name b) -> precedes l a b.
Proof.
  induction l as [|x l IH]; [by intros _ ?%not_elem_of_nil|].
  intros [Hx Hnd]%NoDup_cons [->|Ha]%elem_of_cons [->|Hb]%elem_of_cons Hab i; simpl; [done| | |].
  - intros _. by exists [], l.
  - rewrite eqb_s_refl. assert (pa_name x =?s pa_name a = false) as ->.
    { apply eqb_s_false. intros Heq. apply Hx. rewrite Heq. apply list_elem_of_fmap. by exists a. }
    pose proof (index_from_ge (map named l) (pa_name a) (S i)). lia.
  - assert (Hne : forall y, y ∈ l -> pa_name x =?s pa_name y = false).
    { intros y Hy. apply eqb_s_false. intros Heq. apply Hx. rewrite Heq. apply list_elem_of_fmap. by exists y. }
    rewrite !Hne by done. intros H. destruct (IH Hnd Ha Hb Hab _ H) as (l1 & l2 & -> & Hin). by exists (x :: l1), l2.
Qed.

Lemma sub_named adapters ordered : (forall e, e ∈ ordered -> e ∈ map named adapters) ->
  ordered = map named (map snd ordered).
Proof.
  intros H. induction ordered as [|e l IH]; [done|]. simpl. f_equal.
  - destruct (proj1 (list_elem_of_fmap _ _ _) (H e (list_elem_of_here _ _))) as (a & -> & _). done.
  - apply IH. intros e' He'. apply H, elem_of_cons. by right.
Qed.

Lemma met_requirements before a : met (map fst (map named before)) (named a) <-> requirements_met before a.
Proof.
  rewrite named_names. unfold met, requirements_met. simpl. setoid_rewrite requires_of_elem.
  setoid_rewrite list_elem_of_fmap. split; intros H r Hr; destruct (H r Hr) as (b & ? & ?); eauto.
Qed.

Lemma sorted_sound (adapters ordered : list PlanAdapter)
  (H : topologically_sorted adapters = Ok ordered) :
  ordered ≡ₚ adapters /\
  forall before a after, ordered = before ++ a :: after ->
    requirements_met before a /\
    forall b, b ∈ after -> requirements_met before b -> precedes adapters a b.
Proof.
  destruct (sorted_ok_inv _ _ H) as (Hnd & Hc & Hne).
  destruct (sorted_run _ Hnd Hc Hne) as (indegree & o & Hinv & Heq). rewrite H in Heq.
  destruct (negb _) eqn:Hlen; [done|]. injection Heq as ->.
  pose proof (sub_named _ _ (inv_sub _ _ _ _ Hinv)) as Ho. set (ordered := map snd o) in *.
  assert (Hno : NoDup (map pa_name ordered)).
  { pose proof (inv_nodup _ _ _ _ Hinv) as Hn. simpl in Hn. by rewrite app_nil_r, Ho, named_names in Hn. }
  assert (Hperm : ordered ≡ₚ adapters).
  { apply submseteq_length_Permutation.
    - apply NoDup_submseteq; [by apply NoDup_fmap_1 in Hno|]. intros a Ha.
      assert (Hin : named a ∈ o) by (rewrite Ho; by apply list_elem_of_fmap_2).
      apply (inv_sub _ _ _ _ Hinv) in Hin. apply list_elem_of_fmap in Hin as (a' & Heq & Ha'). by injection Heq as _ ->.
    - unfold ordered. rewrite length_map. rewrite length_map in Hlen.
      destruct (length o =? length adapters)%nat eqn:?; [lia|done]. }
  split; [exact Hperm|]. intros before a after Heq.
  assert (Hsplit : o = map named before ++ named a :: map named after) by (rewrite Ho, Heq, map_app; done).
  destruct (inv_greedy _ _ _ _ Hinv _ _ _ Hsplit) as [Hmet Hfirst].
  split; [by apply met_requirements|]. intros b Hb Hbmet.
  assert (Hba : a ∈ adapters /\ b ∈ adapters).
  { rewrite <-Hperm, Heq. rewrite !elem_of_app, !elem_of_cons. tauto. }
  rewrite Heq in Hno. rewrite map_app in Hno. simpl in Hno. apply NoDup_app in Hno as (_ & Hd & Hno).
  apply NoDup_cons in Hno as [Ha _].
  apply (index_precedes _ a b) with (i := 0); [by rewrite <-named_names|tauto|tauto| |].
  - intros <-. apply Ha. by apply list_elem_of_fmap_2.
  - rewrite <-!position_of_index. apply (Hfirst (named b)); [apply list_elem_of_fmap_2; tauto| |by apply met_requirements].
    intros Hin. apply list_elem_of_fmap in Hin as (b' & Hbb & Hin). injection Hbb as _ <-.
    apply (Hd (pa_name b)); [by apply list_elem_of_fmap_2|]. apply elem_of_cons. right. by apply list_elem_of_fmap_2.
Qed.

(** What is left when the loop stops short: names that each wait for another of them. *)
Lemma sort_left adapters indegree o : let bn := map named adapters in
  NoDup (map fst bn) -> closed_in bn bn -> sort_inv bn indegree [] o ->
  let left := map fst (List.filter (fun e => (0 <? e.2)%nat) indegree) in
  (forall n, n ∈ left <-> n ∈ map pa_name adapters /\ n ∉ map fst o) /\
  (forall n, n ∈ left -> exists a r, a ∈ adapters /\ pa_name a = n /\ r ∈ pa_requires a /\ r ∈ left).
Proof.
  intros bn Hnd Hc Hinv left.
  assert (Hleft : forall n, n ∈ left <-> n ∈ map pa_name adapters /\ n ∉ map fst o).
  { intros n. unfold left. transitivity (bhas n indegree = true /\ cnt indegree n <> 0).
    - rewrite list_elem_of_fmap. split.
      + intros ([k c] & -> & He). apply list_elem_of_In, filter_In in He as [He Hc0]. apply list_elem_of_In in He.
        simpl in *. pose proof (bget_In _ _ _ (inv_sorted _ _ _ _ Hinv) He) as Hg. unfold bhas, cnt. rewrite Hg.
        simpl. split; [done|lia].
      + unfold bhas, cnt. destruct (indegree @@ n) as [c|] eqn:Hg; [|by intros [? _]]. simpl. intros [_ Hc0].
        exists (n, c). split; [done|]. apply list_elem_of_In, filter_In. simpl. split; [|lia].
        apply list_elem_of_In. by apply bget_Some_In.
    - rewrite (inv_dom _ _ _ _ Hinv). unfold bn. rewrite named_names. split.
      + intros [Hn H0]. split; [done|]. intros Ho. rewrite <-named_names in Hn.
        apply list_elem_of_fmap in Hn as (e & -> & He). apply H0. apply (inv_zero _ _ _ _ Hinv e He).
        simpl. by rewrite app_nil_r.
      + intros [Hn Ho]. split; [done|]. intros H0. rewrite <-named_names in Hn.
        apply list_elem_of_fmap in Hn as (e & -> & He). apply Ho. apply (inv_zero _ _ _ _ Hinv e He) in H0.
        simpl in H0. by rewrite app_nil_r in H0. }
  split; [exact Hleft|]. intros n Hn. pose proof Hn as [Hin Hno]%Hleft.
  apply list_elem_of_fmap in Hin as (a & -> & Ha). 
  assert (He : named a ∈ bn) by (by apply list_elem_of_fmap_2).
  assert (Hm : missing (map fst o) (named a) <> 0).
  { rewrite <-(inv_cnt _ _ _ _ Hinv (named a) He). intros H0. apply Hno.
    apply (inv_zero _ _ _ _ Hinv (named a) He) in H0. simpl in H0. by rewrite app_nil_r in H0. }
  unfold missing in Hm. destruct (List.filter _ (requires_of (named a).2)) as [|r k] eqn:Hf; [done|].
  assert (Hr : In r (r :: k)) by by left. rewrite <-Hf in Hr. apply filter_In in Hr as [Hr Hmem].
  apply list_elem_of_In in Hr. exists a, r. split; [done|]. split; [done|].
  split; [by apply requires_of_elem|]. apply Hleft. split.
  - rewrite <-named_names. unfold closed_in in Hc. rewrite Forall_forall in Hc. by apply (Hc _ He).
  - intros Ho. apply mem_str_true in Ho. by rewrite Ho in Hmem.
Qed.

Lemma sorted_complete (adapters order : list PlanAdapter)
  (Hnames : NoDup (map pa_name adapters)) (Hne : Forall (fun a => nonempty (pa_name a) = true) adapters)
  (Hperm : order ≡ₚ adapters) (Horder : dependency_order order) :
  exists ordered, topologically_sorted adapters = Ok ordered.
Proof.
  set (bn := map named adapters).
  assert (Hnd : NoDup (map fst bn)) by (unfold bn; by rewrite named_names).
  assert (Hc : closed_in bn bn).
  { apply Forall_forall. intros e (a & -> & Ha)%list_elem_of_fmap r Hr. unfold bn. rewrite named_names.
    rewrite <-Hperm in Ha. apply list_elem_of_split in Ha as (l1 & l2 & Heq).
    apply requires_of_elem in Hr. destruct (Horder _ _ _ Heq r Hr) as (b & Hb & <-).
    rewrite <-Hperm, Heq. apply list_elem_of_fmap_2. rewrite elem_of_app. by left. }
  destruct (sorted_run adapters Hnd Hc Hne) as (indegree & o & Hinv & ->).
  destruct (negb _) eqn:Hlen; [|eauto]. exfalso.
  pose proof (sort_left adapters indegree o Hnd Hc Hinv) as [Hleft Hcycle].
  set (left := map fst (List.filter _ _)) in *.
  assert (Hnone : forall pre suf, order = pre ++ suf -> Forall (fun a => pa_name a ∉ left) pre).
  { intros pre. induction pre as [|a pre IH] using rev_ind; intros suf Heq; [constructor|].
    rewrite <-app_assoc in Heq. specialize (IH _ Heq). apply Forall_app. split; [done|].
    constructor; [|constructor]. intros Hin. destruct (Hcycle _ Hin) as (a' & r & Ha' & Hname & Hr & Hrl).
    assert (a' = a) as ->.
    { assert (Ha : a ∈ adapters) by (rewrite <-Hperm, Heq; rewrite !elem_of_app, list_elem_of_singleton; tauto).
      assert (He : named a' = named a); [|by injection He].
      apply (by_name_unique bn Hnd); [by apply list_elem_of_fmap_2..|done]. }
    destruct (Horder _ _ _ Heq r Hr) as (b & Hb & <-). rewrite Forall_forall in IH. by apply (IH b Hb). }
  assert (Hlt : length o <> length bn) by (intros Hl; unfold bn in Hl; by rewrite Hl, Nat.eqb_refl in Hlen).
  apply Hlt. apply Nat.le_antisymm; [pose proof (inv_length _ _ _ _ Hinv) as Hle; simpl in Hle; unfold bn; lia|].
  rewrite <-(length_map fst bn), <-(length_map fst o). apply submseteq_length, NoDup_submseteq; [done|].
  intros n Hn. destruct (decide (n ∈ map fst o)) as [|Hno]; [done|]. exfalso.
  unfold bn in Hn. rewrite named_names in Hn. assert (Hin : n ∈ left) by (by apply Hleft).
  apply list_elem_of_fmap in Hn as (a & -> & Ha). rewrite <-Hperm in Ha.
  specialize (Hnone order [] (eq_sym (app_nil_r _))). rewrite Forall_forall in Hnone. by apply (Hnone a).
Qed.

(** C30: what the topological sort returns is an arrangement of the adapters it was given in which every
    adapter comes after those it requires, and at every place the adapter that stands first in the
    caller's list among those whose requirements are met. *)
Theorem toposort_sound (adapters ordered : list PlanAdapter)
  (H : topologically_sorted adapters = Ok ordered) :
  ordered ≡ₚ adapters /\
  forall before a after, ordered = before ++ a :: after ->
    requirements_met before a /\
    forall b, b ∈ after -> requirements_met before b -> precedes adapters a b.
Proof. by apply sorted_sound. Qed.

(** C31: the sort succeeds whenever it can: adapters with distinct, non-blank names that have some
    arrangement with every adapter after those it requires are arranged, in the arrangement of the
    previous theorem. *)
Theorem toposort_complete (adapters order : list PlanAdapter)
  (Hnames : NoDup (map pa_name adapters)) (Hne : Forall (fun a => nonempty (pa_name a) = true) adapters)
  (Hperm : order ≡ₚ adapters) (Horder : dependency_order order) :
  exists ordered, topologically_sorted adapters = Ok ordered.
Proof. by apply (sorted_complete adapters order). Qed.

(** A refusal for a cycle is about a real one: when adapters with distinct, non-blank names whose
    requirements are all among them are refused, the message lists, in alphabetical order, a
    non-empty set of adapters each of which requires another of the set. *)
Theorem toposort_cycle (adapters : list PlanAdapter) (e : PlanError)
  (Hnames : NoDup (map pa_name adapters)) (Hne : Forall (fun a => nonempty (pa_name a) = true) adapters)
  (Hclosed : forall a r, a ∈ adapters -> r ∈ pa_requires a -> r ∈ map pa_name adapters)
  (H : topologically_sorted adapters = Err e) :
  exists left, e = PlanErr ("adapter dependency cycle: " +:+ join ", " left) /\ left <> [] /\ ordered_str left /\
    forall n, n ∈ left -> exists a r, a ∈ adapters /\ pa_name a = n /\ r ∈ pa_requires a /\ r ∈ left.
Proof.
  set (bn := map named adapters).
  assert (Hnd : NoDup (map fst bn)) by (unfold bn; by rewrite named_names).
  assert (Hc : closed_in bn bn).
  { apply Forall_forall. intros x (a & -> & Ha)%list_elem_of_fmap r Hr. unfold bn. rewrite named_names.
    apply requires_of_elem in Hr. by apply (Hclosed a). }
  destruct (sorted_run adapters Hnd Hc Hne) as (indegree & o & Hinv & Heq). rewrite H in Heq.
  destruct (negb _) eqn:Hlen; [|done]. injection Heq as ->.
  pose proof (sort_left adapters indegree o Hnd Hc Hinv) as [Hleft Hcycle].
  eexists. split; [reflexivity|]. split; [|split; [|exact Hcycle]].
  - intros Hnil. rewrite Hnil in Hleft.
    assert (Hlt : length o <> length bn) by (intros Hl; unfold bn in Hl; by rewrite Hl, Nat.eqb_refl in Hlen).
    apply Hlt. apply Nat.le_antisymm; [pose proof (inv_length _ _ _ _ Hinv) as Hle; simpl in Hle; unfold bn; lia|].
    rewrite <-(length_map fst bn), <-(length_map fst o). apply submseteq_length, NoDup_submseteq; [done|].
    intros n Hn. destruct (decide (n ∈ map fst o)) as [|Hno]; [done|]. exfalso.
    unfold bn in Hn. rewrite named_names in Hn. by apply (not_elem_of_nil n), Hleft.
  - pose proof (inv_sorted _ _ _ _ Hinv) as Hs. clear -Hs.
    induction indegree as [|[k c] m IH]; [constructor|]. apply bsorted_cons in Hs as [Ha Hs]. simpl.
    destruct (0 <? c)%nat; [|by apply IH]. simpl. constructor; [|by apply IH].
    apply Forall_forall. intros n (x & -> & Hx)%list_elem_of_fmap. apply list_elem_of_In, filter_In in Hx as [Hx _].
    unfold babove in Ha. rewrite Forall_forall in Ha. apply str_ltb_asym, Ha. by apply list_elem_of_In.
Qed.

(** *** The registered adapters *)

(** An adapter by its registered name and requirements. *)
Definition registered (plan : string -> InstallerConfig -> AuditFacts -> plan_result (list Action)) (name : string)
  : PlanAdapter :=
  {| pa_name := name; pa_requires := adapter_requires name; pa_plan := plan name |}.

Fixpoint dependency_order_b (seen names : list string) : bool :=
  match names with
  | [] => true
  | n :: rest => forallb (fun r => mem_str r seen) (adapter_requires n) && dependency_order_b (n :: seen) rest
  end.

Lemma dependency_order_b_ok plan names : forall seen,
  dependency_order_b seen names = true ->
  forall before a after, map (registered plan) names = before ++ a :: after ->
    forall r, r ∈ pa_requires a -> r ∈ seen \/ exists b, b ∈ before /\ pa_name b = r.
Proof.
  induction names as [|n names IH]; intros seen Hb before a after Heq; [by destruct before|].
  simpl in Hb. apply andb_prop in Hb as [Hn Hb]. destruct before as [|b before]; cbn [map app] in Heq; injection Heq as <- Heq.
  - intros r Hr. left. rewrite forallb_forall in Hn. apply mem_str_true, Hn. by apply list_elem_of_In.
  - intros r Hr. destruct (IH _ Hb _ _ _ Heq r Hr) as [Hs|(x & Hx & <-)].
    + apply elem_of_cons in Hs as [->|Hs]; [right|by left]. exists (registered plan n). split; [|done].
      apply elem_of_cons. by left.
    + right. exists x. split; [|done]. apply elem_of_cons. by right.
Qed.

(** Where an element of a list without repetition stands is determined. *)
Lemma NoDup_split {A} (x : A) pre : forall post pre' post',
  NoDup (pre ++ x :: post) -> pre ++ x :: post = pre' ++ x :: post' -> pre = pre'.
Proof.
  induction pre as [|y pre IH]; intros post pre' post' Hn Heq; destruct pre' as [|z pre'];
    cbn [app] in *; simplify_eq; try done; apply NoDup_cons in Hn as [Hx Hn].
  - exfalso. apply Hx. apply elem_of_app. right. apply elem_of_cons. by left.
  - exfalso. apply Hx. apply elem_of_app. right. apply elem_of_cons. by left.
  - f_equal. by apply (IH post pre' post').
Qed.

Lemma precedes_prefix {A} (l pre post : list A) a b :
  NoDup l -> l = pre ++ b :: post -> precedes l a b -> a ∈ pre.
Proof.
  intros Hn -> (l1 & l2 & Heq & Hb). apply list_elem_of_split in Hb as (l3 & l4 & ->).
  rewrite app_comm_cons, app_assoc in Heq. rewrite (NoDup_split _ _ _ _ _ Hn Heq).
  apply elem_of_app. right. apply elem_of_cons. by left.
Qed.

(** A list that is already in dependency order stays as it is. *)
Lemma sorted_stable l : NoDup (map pa_name l) -> Forall (fun a => nonempty (pa_name a) = true) l ->
  dependency_order l -> topologically_sorted l = Ok l.
Proof.
  intros Hnd Hne Hord. destruct (sorted_complete l l) as [o Ho]; try done. rewrite Ho. f_equal.
  destruct (sorted_sound _ _ Ho) as [Hperm Hgreedy].
  assert (Hl : NoDup l) by (by apply NoDup_fmap_1 in Hnd).
  assert (Hno : NoDup o) by (by rewrite Hperm).
  assert (Hpre : forall post pre post', o = pre ++ post -> l = pre ++ post' -> post = post').
  { induction post as [|a post IH]; intros pre post' Hopre Hlpre.
    - apply Permutation_length in Hperm. rewrite Hopre, Hlpre, !length_app in Hperm.
      destruct post'; [done|simpl in *; lia].
    - destruct post' as [|b post'].
      { apply Permutation_length in Hperm. rewrite Hopre, Hlpre, !length_app in Hperm. simpl in *; lia. }
      destruct (Hgreedy _ _ _ Hopre) as [_ Hmin].
      assert (Hin : b ∈ o) by (rewrite Hperm, Hlpre, elem_of_app, elem_of_cons; tauto).
      rewrite Hopre, elem_of_app, elem_of_cons in Hin. destruct Hin as [Hin|[->|Hin]].
      + exfalso. rewrite Hlpre in Hl. apply NoDup_app in Hl as (_ & Hd & _). apply (Hd b Hin).
        apply elem_of_cons. by left.
      + f_equal. apply (IH (pre ++ [a])); by rewrite <-app_assoc.
      + exfalso. pose proof (precedes_prefix _ _ _ _ _ Hl Hlpre (Hmin b Hin (Hord _ _ _ Hlpre))) as Ha.
        rewrite Hopre in Hno. apply NoDup_app in Hno as (_ & Hd & _). apply (Hd a Ha).
        apply elem_of_cons. by left. }
  by apply (Hpre o []).
Qed.

(** The documented adapter order is the planner's own: for every configuration that selects
    adapters, the selection is a part of [PROFILE_ORDER] in its order, holds the requirements of each
    of its members, and is what the topological sort makes of it. *)
Theorem adapters_for_order (c : InstallerConfig) (names : list string)
  (plan : string -> InstallerConfig -> AuditFacts -> plan_result (list Action))
  (H : adapters_for c = Ok names) :
  names = List.filter (selected c) PROFILE_ORDER /\
  Forall (fun n => Forall (fun r => r ∈ names) (adapter_requires n)) names /\
  topologically_sorted (map (registered plan) names) = Ok (map (registered plan) names).
Proof.
  assert (Hn : names = List.filter (selected c) PROFILE_ORDER).
  { unfold adapters_for in H. repeat case_match; try done. by injection H. }
  split; [exact Hn|].
  assert (Hb : dependency_order_b [] names = true /\ forallb nonempty names = true /\
    bool_decide (NoDup names) = true /\
    forallb (fun n => forallb (fun r => mem_str r names) (adapter_requires n)) names = true).
  { subst names. clear H. unfold PROFILE_ORDER. cbn [List.filter].
    change (selected c "packages") with true. change (selected c "nginx") with true.
    change (selected c "certificates") with true. change (selected c "core") with true.
    change (selected c "version_agent") with true.
    generalize (selected c "firewall"), (selected c "warp"), (selected c "xray_router"), (selected c "naive"),
      (selected c "mieru"), (selected c "three_xui"), (selected c "amneziawg"), (selected c "trusttunnel"),
      (selected c "mcp"). clear.
    intros [] [] [] [] [] [] [] [] []; vm_compute; repeat split. }
  destruct Hb as (Hdep & Hne & Hnd & Hreq). apply bool_decide_eq_true in Hnd. split.
  - apply Forall_forall. intros n Hin. apply Forall_forall. intros r Hr.
    rewrite forallb_forall in Hreq. specialize (Hreq n (proj1 (list_elem_of_In _ _) Hin)).
    rewrite forallb_forall in Hreq. apply mem_str_true, Hreq. by apply list_elem_of_In.
  - apply sorted_stable.
    + rewrite map_map. simpl. by rewrite map_id.
    + apply Forall_map, Forall_forall. intros n Hin. rewrite forallb_forall in Hne.
      by apply Hne, list_elem_of_In.
    + intros before a after Heq r Hr.
      destruct (dependency_order_b_ok plan names [] Hdep _ _ _ Heq r Hr) as [[]%not_elem_of_nil|?]; done.
Qed.
