(* ===== verification/PlannerFacts.v ===== *)
(** * Building a plan: what comes out

    [build_plan] of [installer_core/src/planner.rs] against its description, and the properties of the
    planner at concrete adapters. *)

From S2P Require Import Prelude BTree Utf8 Numeric Json PyText Secret Model Plan PlanFacts Planner TopoFacts.

Section build.
Context {UT : UnicodeText} {FT : FloatText}.

Lemma existsb_id (l : list Action) i : existsb (fun a => act_id a =?s i) l = true <-> i ∈ map act_id l.
Proof.
  rewrite existsb_exists, list_elem_of_fmap. split.
  - intros (a & Ha & H). apply eqb_s_true in H as <-. exists a. split; [done|]. by apply list_elem_of_In.
  - intros (a & -> & Ha). exists a. split; [by apply list_elem_of_In|apply eqb_s_refl].
Qed.

Lemma add_actions_Ok name items : forall actions r, NoDup (map act_id actions) ->
  add_actions name items actions = Ok r <->
  r = actions ++ items /\ Forall (fun i => act_adapter i = name) items /\ NoDup (map act_id r).
Proof.
  induction items as [|i items IH]; intros actions r Hnd; simpl.
  - rewrite app_nil_r. split; [by intros [= <-]|by intros (-> & _)].
  - rewrite Forall_cons. destruct (act_adapter i =?s name) eqn:Hname; simpl.
    + apply eqb_s_true in Hname. destruct (existsb _ actions) eqn:Hd.
      * split; [done|]. intros (-> & _ & Hr). exfalso. apply existsb_id in Hd.
        rewrite map_app in Hr. apply NoDup_app in Hr as (_ & Hr & _). apply (Hr _ Hd). apply elem_of_cons. by left.
      * rewrite IH; [rewrite <-app_assoc; simpl; tauto|]. rewrite map_app. apply NoDup_app. split; [done|]. split.
        -- intros n Hn. simpl. rewrite list_elem_of_singleton. intros ->. apply existsb_id in Hn. congruence.
        -- apply NoDup_singleton.
    + apply eqb_s_false in Hname. split; [done|]. by intros (_ & [? _] & _).
Qed.

Definition plans (config : InstallerConfig) (facts : AuditFacts) (a : PlanAdapter) (items : list Action) : Prop :=
  pa_plan a config facts = Ok items /\ Forall (fun i => act_adapter i = pa_name a) items.

Lemma collect_actions_Ok config facts ordered : forall actions deps r deps', NoDup (map act_id actions) ->
  collect_actions config facts ordered actions deps = Ok (r, deps') <->
  exists items, Forall2 (plans config facts) ordered items /\ r = actions ++ concat items /\ NoDup (map act_id r) /\
    deps' = fold_left (fun m kv => bset kv.1 kv.2 m) (map (fun a => (pa_name a, requires_of a)) ordered) deps.
Proof.
  induction ordered as [|a ordered IH]; intros actions deps r deps' Hnd; cbn [collect_actions].
  - split.
    + intros [= <- <-]. exists []. rewrite app_nil_r. by repeat split; [constructor|].
    + intros (items & Hf & -> & _ & ->). inversion Hf; subst. by rewrite app_nil_r.
  - split.
    + intros H. inv_binds. apply add_actions_Ok in Hr0 as (-> & Hall & Hnd'); [|done].
      apply IH in H as (items & Hf & -> & Hnd2 & ->); [|done].
      exists (a0 :: items). simpl. rewrite app_assoc. repeat split; [|done..]. by constructor.
    + intros (items & Hf & -> & Hnd' & ->). inversion Hf as [|? its ? items' [Hp Hall] Hf']; subst. simpl in *.
      eapply bind_Ok_intro; [exact Hp|]. rewrite app_assoc in *. eapply bind_Ok_intro.
      * apply add_actions_Ok; [done|]. split; [reflexivity|]. split; [done|].
        rewrite map_app in Hnd'. by apply NoDup_app in Hnd' as (? & _).
      * apply IH; [rewrite map_app in Hnd'; by apply NoDup_app in Hnd' as (? & _)|]. by exists items'.
Qed.

(** C32: [build_plan] succeeds with exactly this plan: the adapters in the order of the topological
    sort, the actions each of them plans one after the other, the sorted requirements of each, the
    canonical configuration, the facts and the release as given; and it refuses precisely when an
    adapter refuses, an action names another adapter, two actions share an id, or something in the
    plan holds a secret. *)
Theorem build_plan_iff (config : InstallerConfig) (facts : AuditFacts) (adapters : list PlanAdapter)
  (release : ReleaseIdentity) (p : InstallPlan) :
  build_plan config facts adapters release = Ok p <->
  exists ordered items, topologically_sorted adapters = Ok ordered /\
    Forall2 (plans config facts) ordered items /\ NoDup (map act_id (concat items)) /\
    p = {| p_config := canonical_dict config; p_facts := facts; p_release := release;
           p_adapter_order := map pa_name ordered;
           p_adapter_dependencies := bcollect (map (fun a => (pa_name a, requires_of a)) ordered);
           p_actions := concat items; p_schema := PLAN_SCHEMA |} /\
    assert_secret_free (InstallPlan.canonical_value p) "plan" = Ok tt.
Proof.
  unfold build_plan, InstallPlan.new. split.
  - intros H. apply bind_Ok in H as (ordered & Ho & H). apply bind_Ok in H as ([actions deps] & Hc & H).
    apply collect_actions_Ok in Hc as (items & Hf & -> & Hnd & ->); [|constructor].
    apply bind_Ok in H as ([] & _ & H). apply bind_Ok in H as ([] & Hs & H). injection H as <-.
    by exists ordered, items.
  - intros (ordered & items & Ho & Hf & Hnd & -> & Hs).
    eapply bind_Ok_intro; [exact Ho|]. eapply bind_Ok_intro.
    + apply collect_actions_Ok; [constructor|]. by exists items.
    + eapply bind_Ok_intro; [reflexivity|]. eapply bind_Ok_intro; [exact Hs|reflexivity].
Qed.

(** What the planner builds, the journal's reader accepts: when the release passed its constructor
    and every adapter plans actions that pass theirs, a plan that [build_plan] returns satisfies
    the conditions under which [plan.json] reads back. *)
Theorem build_plan_ok (config : InstallerConfig) (facts : AuditFacts) (adapters : list PlanAdapter)
  (release : ReleaseIdentity) (p : InstallPlan) (Hrel : release_ok release)
  (Hplan : forall a items, a ∈ adapters -> pa_plan a config facts = Ok items ->
     Forall (fun i => Action.validate i = Ok tt) items)
  (H : build_plan config facts adapters release = Ok p) : plan_ok p.
Proof.
  unfold build_plan, InstallPlan.new in H.
  apply bind_Ok in H as (ordered & Ho & H). apply bind_Ok in H as ([actions deps] & Hc & H).
  apply collect_actions_Ok in Hc as (items & Hf & -> & Hnd & ->); [|constructor].
  apply bind_Ok in H as ([] & _ & H). apply bind_Ok in H as ([] & Hs & H). injection H as <-.
  repeat split; try done; try apply Hrel; simpl.
  - by apply bsorted_fold.
  - apply sorted_sound in Ho as [Hperm _]. apply Forall_concat.
    assert (Hin : forall a, a ∈ ordered -> a ∈ adapters) by (intros a; by rewrite Hperm).
    clear -Hf Hplan Hin. induction Hf as [|a its ordered items [Hp _] _ IH]; constructor.
    + apply (Hplan a); [|done]. apply Hin, elem_of_cons. by left.
    + apply IH. intros b Hb. apply Hin, elem_of_cons. by right.
Qed.
End build.

(** ** What is built reads back *)

Section saved.
Context {UT : UnicodeText} {FT : FloatText} {SHA : Sha256} {SD : SerdeDisplay}.

(** C38: What the planner builds reads back from [plan.json]. The canonical value of a plan made of a
    release and of actions that passed their constructors is accepted by the plan's reader, which
    checks every field, action and name again, and gives the same plan but for the transient facts,
    which are never written; so the digest that confirms the plan and the digest of what it intends
    are the same before and after. *)
Theorem built_plan_reads_back (config : InstallerConfig) (facts : AuditFacts) (adapters : list PlanAdapter)
  (release : ReleaseIdentity) (p : InstallPlan) (Hrel : release_ok release)
  (Hplan : forall a items, a ∈ adapters -> pa_plan a config facts = Ok items ->
     Forall (fun i => Action.validate i = Ok tt) items)
  (H : build_plan config facts adapters release = Ok p) :
  exists q, InstallPlan.from_value (InstallPlan.canonical_value p) = Ok q /\
    q = {| p_config := p_config p;
           p_facts := {| af_platform := af_platform (p_facts p); af_listeners := af_listeners (p_facts p);
                         af_ownership := af_ownership (p_facts p); af_topology := af_topology (p_facts p);
                         af_prerequisites := af_prerequisites (p_facts p); af_transient := [] |};
           p_release := p_release p; p_adapter_order := p_adapter_order p;
           p_adapter_dependencies := p_adapter_dependencies p; p_actions := p_actions p; p_schema := p_schema p |} /\
    InstallPlan.to_canonical_json q = InstallPlan.to_canonical_json p /\
    InstallPlan.digest q = InstallPlan.digest p /\ InstallPlan.intent_digest q = InstallPlan.intent_digest p.
Proof.
  destruct (plan_roundtrip p (build_plan_ok config facts adapters release p Hrel Hplan H)) as (H1 & H2 & H3 & H4).
  exists (forget_transient p). done.
Qed.
End saved.

(** ** The properties at concrete adapters *)

Module Adapters.
#[local] Existing Instances ascii_text no_floats toy_hash no_display.

Definition one_action (name : string) (_ : InstallerConfig) (_ : AuditFacts) : plan_result (list Action) :=
  Ok [{| act_id := name +:+ ".setup"; act_adapter := name; act_owner := "proxy-control";
         act_mutations := ["install"]; act_preconditions := ["fresh host"];
         act_verification := ["it runs"]; act_inverse := ["remove"]; act_credentials_required := false |}].

Definition named_adapter (name : string) (requires : list string) : PlanAdapter :=
  {| pa_name := name; pa_requires := requires; pa_plan := one_action name |}.

Definition diamond : list PlanAdapter :=
  [named_adapter "d" ["b"; "c"]; named_adapter "c" ["a"]; named_adapter "b" ["a"]; named_adapter "a" []].
Definition diamond_order : list PlanAdapter :=
  [named_adapter "a" []; named_adapter "c" ["a"]; named_adapter "b" ["a"]; named_adapter "d" ["b"; "c"]].
Definition ring : list PlanAdapter := [named_adapter "x" ["y"]; named_adapter "y" ["x"]; named_adapter "z" []].

Lemma toposort_sound_witness : topologically_sorted diamond = Ok diamond_order /\ diamond_order ≡ₚ diamond.
Proof.
  assert (H : topologically_sorted diamond = Ok diamond_order) by reflexivity.
  split; [exact H|]. apply (toposort_sound diamond diamond_order H).
Defined.

Lemma diamond_names : NoDup (map pa_name diamond) /\ Forall (fun a => nonempty (pa_name a) = true) diamond.
Proof. split; [apply (bool_decide_unpack _); vm_compute; exact I|repeat constructor]. Qed.

Lemma diamond_perm : diamond_order ≡ₚ diamond.
Proof. unfold diamond, diamond_order. solve_Permutation. Qed.

Lemma diamond_dependency : dependency_order diamond_order.
Proof.
  unfold diamond_order. intros before a after Heq r Hr.
  destruct before as [|b1 [|b2 [|b3 [|b4 before]]]]; simplify_eq/=; repeat
    match goal with H : _ ∈ [] |- _ => by apply not_elem_of_nil in H
      | H : _ ∈ _ :: _ |- _ => apply elem_of_cons in H as [->|H] end.
  all: try by destruct before.
  all: first
    [ exists (named_adapter "a" []); split; [rewrite ?elem_of_cons; tauto|reflexivity]
    | exists (named_adapter "b" ["a"]); split; [rewrite ?elem_of_cons; tauto|reflexivity]
    | exists (named_adapter "c" ["a"]); split; [rewrite ?elem_of_cons; tauto|reflexivity] ].
Qed.

Lemma toposort_complete_witness : exists ordered, topologically_sorted diamond = Ok ordered.
Proof.
  apply (toposort_complete diamond diamond_order); [apply diamond_names..|apply diamond_perm|apply diamond_dependency].
Defined.

Lemma toposort_cycle_witness :
  exists left, PlanErr "adapter dependency cycle: x, y" = PlanErr ("adapter dependency cycle: " +:+ join ", " left)
    /\ left <> [].
Proof.
  destruct (toposort_cycle ring (PlanErr "adapter dependency cycle: x, y")) as (left & H1 & H2 & _).
  - apply (bool_decide_unpack _). vm_compute. exact I.
  - repeat constructor.
  - intros a r Ha Hr. unfold ring in *. simpl. rewrite !elem_of_cons in *.
    destruct Ha as [->|[->|[->|Ha]]]; simpl in *; [..|by apply not_elem_of_nil in Ha];
      rewrite ?list_elem_of_singleton in Hr; subst; try tauto; by apply not_elem_of_nil in Hr.
  - reflexivity.
  - by exists left.
Defined.

Definition minimal : InstallerConfig :=
  {| c_schema := 1; c_host_mode := Fresh; c_profile := ProfileCore; c_acme_email := "a@example.org";
     c_initial_user := "admin"; c_domains := DomainConfig_new "panel.example.org" "proxy.example.org";
     c_mieru := None; c_three_xui := ThreeXuiConfig_new XuiNone; c_firewall := {| manage_ufw := true |};
     c_egress := None; c_ingress := None; c_amneziawg := None; c_trusttunnel := None |}.

Lemma adapters_for_order_witness :
  topologically_sorted (map (registered one_action)
    ["packages"; "nginx"; "firewall"; "certificates"; "core"; "version_agent"])
  = Ok (map (registered one_action)
    ["packages"; "nginx"; "firewall"; "certificates"; "core"; "version_agent"]).
Proof.
  refine (proj2 (proj2 (adapters_for_order minimal
    ["packages"; "nginx"; "firewall"; "certificates"; "core"; "version_agent"] one_action _))).
  reflexivity.
Defined.

Lemma build_plan_ok_witness : exists p, build_plan minimal Sample.facts diamond Sample.release = Ok p /\ plan_ok p.
Proof.
  destruct (build_plan minimal Sample.facts diamond Sample.release) as [p|e] eqn:Hp; [|vm_compute in Hp; discriminate].
  exists p. split; [reflexivity|]. apply (build_plan_ok minimal Sample.facts diamond Sample.release p); [|  |exact Hp].
  - repeat split; reflexivity.
  - intros a items Ha. unfold diamond in Ha. rewrite !elem_of_cons in Ha.
    destruct Ha as [->|[->|[->|[->|Ha]]]]; [..|by apply not_elem_of_nil in Ha];
      intros [= <-]; repeat constructor.
Defined.

Lemma built_plan_reads_back_witness : exists p q, build_plan minimal Sample.facts diamond Sample.release = Ok p
  /\ InstallPlan.from_value (InstallPlan.canonical_value p) = Ok q /\ length (p_actions q) = 4%nat.
Proof.
  destruct (build_plan minimal Sample.facts diamond Sample.release) as [p|e] eqn:Hp; [|vm_compute in Hp; discriminate].
  destruct (built_plan_reads_back minimal Sample.facts diamond Sample.release p) as (q & Hq & -> & _).
  - repeat split; reflexivity.
  - intros a items Ha. unfold diamond in Ha. rewrite !elem_of_cons in Ha.
    destruct Ha as [->|[->|[->|[->|Ha]]]]; [..|by apply not_elem_of_nil in Ha];
      intros [= <-]; repeat constructor.
  - exact Hp.
  - exists p, (forget_transient p). split; [reflexivity|]. split; [exact Hq|]. apply Ok_inj in Hp as <-. reflexivity.
Defined.
End Adapters.
