(* ===== verification/IpAddr.v ===== *)
(** * IP addresses

    [installer_core/src/ipaddr.rs]: the strict IPv4 and IPv6 readers and writers of Python's
    [ipaddress], with its error texts. An address is its number, written in [u32] and [u128]. *)

From S2P Require Import Prelude Utf8 Numeric PyText.

Definition dot : Ascii.ascii := "."%char.
Definition colon : Ascii.ascii := ":"%char.

(** [text.split_once(b)]. *)
Fixpoint split_once (b : Ascii.ascii) (s : string) : option (string * string) :=
  match s with
  | EmptyString => None
  | String a s' =>
      if Ascii.eqb a b then Some (EmptyString, s')
      else '(x, y) ← split_once b s'; Some (String a x, y)
  end.

Definition repr_in (err text : string) : string := err +:+ " in " +:+ py_repr text.

(** ** IPv4 *)

(** The four bytes of a [u32], the most significant first. *)
Definition be_bytes (value : N) : list N :=
  [(value / 2 ^ 24) mod 256; (value / 2 ^ 16) mod 256; (value / 2 ^ 8) mod 256; value mod 256]%N.

Definition ipv4_str (value : N) : string := join "." (map fmt_N (be_bytes value)).

Definition starts_with_zero (s : string) : bool :=
  match s with String a _ => Ascii.eqb a "0"%char | EmptyString => false end.

Definition parse_octet (octet : string) : result string N :=
  if str_empty octet then Err "Empty octet not permitted"
  else if negb (forallb_s is_digit octet) then Err ("Only decimal digits permitted in " +:+ py_repr octet)
  else if (3 <? String.length octet)%nat then Err ("At most 3 characters permitted in " +:+ py_repr octet)
  else if negb (octet =?s "0") && starts_with_zero octet
  then Err ("Leading zeros are not permitted in " +:+ py_repr octet)
  else
    let value := default 0%N (digits_val 10 octet) in
    if (255 <? value)%N then Err ("Octet " +:+ fmt_N value +:+ " (> 255) not permitted") else Ok value.

(** [value << 8 | parsed] in [u32], octet by octet. *)
Fixpoint ipv4_octets (text : string) (octets : list string) (value : N) : result string N :=
  match octets with
  | [] => Ok value
  | octet :: rest =>
      parsed ← map_err (fun err => repr_in err text) (parse_octet octet);
      ipv4_octets text rest (N.lor ((N.shiftl value 8) mod 2 ^ 32) parsed)
  end.

Definition ipv4_int (text : string) : result string N :=
  if str_empty text then Err "Address cannot be empty" else
  let octets := split_byte dot text in
  if negb (length octets =? 4)%nat then Err ("Expected 4 octets in " +:+ py_repr text)
  else ipv4_octets text octets 0.

Definition unexpected_slash (text : string) : string := "Unexpected '/' in " +:+ py_repr text.

Definition ipv4_address (text : string) : result string string :=
  if contains_s "/" text then Err (unexpected_slash text) else ipv4_str <$> ipv4_int text.

(** ** IPv6 *)

Definition is_hexdigit (a : Ascii.ascii) : bool :=
  let n := Ascii.N_of_ascii a in
  is_digit a || ((97 <=? n) && (n <=? 102))%N || ((65 <=? n) && (n <=? 70))%N.

Definition parse_hextet (part : string) : result string N :=
  if negb (forallb_s is_hexdigit part) then Err ("Only hex digits permitted in " +:+ py_repr part)
  else if (4 <? char_len part)%nat then Err ("At most 4 characters permitted in " +:+ py_repr part)
  else if str_empty part then Err ("invalid literal for int() with base 16: " +:+ py_repr part)
  else digits_val 16 part or_err ("invalid literal for int() with base 16: " +:+ py_repr part).

(** The part that is to be skipped: the one empty part that is neither the first nor the last. *)
Fixpoint find_skip (text : string) (index : nat) (parts : list string) (skip : option nat)
  : result string (option nat) :=
  match parts with
  | [] => Ok skip
  | part :: rest =>
      if str_empty part then
        match skip with
        | Some _ => Err ("At most one '::' permitted in " +:+ py_repr text)
        | None => find_skip text (S index) rest (Some index)
        end
      else find_skip text (S index) rest skip
  end.

(** How many parts stand before and after the skipped ones, and how many are skipped. *)
Definition layout (text : string) (parts : list string) (skip : option nat) : result string (nat * nat * nat) :=
  let n := length parts in
  let empty_at i := str_empty (default EmptyString (parts !! i)) in
  let leading := "Leading ':' only permitted as part of '::' in " +:+ py_repr text in
  let trailing := "Trailing ':' only permitted as part of '::' in " +:+ py_repr text in
  match skip with
  | Some index =>
      let hi := index in
      let lo := (n - index - 1)%nat in
      let first := empty_at 0%nat in
      let hi := if first then (hi - 1)%nat else hi in
      if first && (0 <? hi)%nat then Err leading else
      let last := empty_at (n - 1)%nat in
      let lo := if last then (lo - 1)%nat else lo in
      if last && (0 <? lo)%nat then Err trailing else
      if (8 <=? hi + lo)%nat then Err ("Expected at most 7 other parts with '::' in " +:+ py_repr text)
      else Ok (hi, lo, (8 - (hi + lo))%nat)
  | None =>
      if negb (n =? 8)%nat then Err ("Exactly 8 parts expected without '::' in " +:+ py_repr text)
      else if empty_at 0%nat then Err leading
      else if empty_at 7%nat then Err trailing
      else Ok (8, 0, 0)%nat
  end.

(** [value << n] in [u128]. *)
Definition shl128 (value : N) (n : N) : N := (N.shiftl value n) mod 2 ^ 128.

Fixpoint push_hextets (text : string) (parts : list string) (value : N) : result string N :=
  match parts with
  | [] => Ok value
  | part :: rest =>
      parsed ← map_err (fun err => repr_in err text) (parse_hextet part);
      push_hextets text rest (N.lor (shl128 value 16) parsed)
  end.

(** A dotted quad in the last place becomes two hextets. *)
Definition expand_v4 (text : string) (parts : list string) : result string (list string) :=
  match last parts with
  | Some tail =>
      if contains_s "." tail then
        v4 ← map_err (fun err => repr_in err text) (ipv4_int tail);
        Ok (removelast parts ++ [fmt_hex (N.land (N.shiftr v4 16) 0xffff); fmt_hex (N.land v4 0xffff)])
      else Ok parts
  | None => Ok parts
  end.

Definition ipv6_int (text : string) : result string N :=
  if str_empty text then Err "Address cannot be empty" else
  let parts := split_byte colon text in
  if (length parts <? 3)%nat then Err ("At least 3 parts expected in " +:+ py_repr text) else
  parts ← expand_v4 text parts;
  if (9 <? length parts)%nat then Err ("At most 8 colons permitted in " +:+ py_repr text) else
  skip ← find_skip text 1 (drop 1 (take (length parts - 1) parts)) None;
  '(hi, lo, skipped) ← layout text parts skip;
  value ← push_hextets text (take hi parts) 0;
  let value := if (skipped <? 8)%nat then shl128 value (16 * N.of_nat skipped) else 0%N in
  push_hextets text (drop (length parts - lo) parts) value.

(** The hextets of an address, the most significant first. *)
Definition hextet (value : N) (i : nat) : N := N.land (N.shiftr value (16 * N.of_nat i)) 0xffff.
Definition hextets (value : N) : list string := map (fun i => fmt_hex (hextet value i)) (rev (seq 0 8)).

(** The longest run of zero hextets, the first of the longest: its start and length. *)
Fixpoint zero_run (index : nat) (l : list string) (best_start : option nat) (best_len : nat) (start : option nat)
  (len : nat) : option nat * nat :=
  match l with
  | [] => (best_start, best_len)
  | h :: rest =>
      if h =?s "0" then
        let len := S len in
        let start := match start with None => Some index | s => s end in
        if (best_len <? len)%nat then zero_run (S index) rest start len start len
        else zero_run (S index) rest best_start best_len start len
      else zero_run (S index) rest best_start best_len None 0
  end.

(** [parts.splice(begin..end, [""])] with the empty texts that put a colon at either end. *)
Definition compress (parts : list string) (begin len : nat) : list string :=
  let fin := (begin + len)%nat in
  let tail := drop fin parts ++ (if (fin =? length parts)%nat then [EmptyString] else []) in
  (if (begin =? 0)%nat then [EmptyString] else []) ++ take begin parts ++ [EmptyString] ++ tail.

Definition ipv6_parts (parts : list string) : list string :=
  match zero_run 0 parts None 0 None 0 with
  | (Some begin, len) => if (1 <? len)%nat then compress parts begin len else parts
  | (None, _) => parts
  end.
Definition ipv6_str (value : N) : string := join ":" (ipv6_parts (hextets value)).

Definition ipv6_address (text : string) : result string string :=
  if contains_s "/" text then Err (unexpected_slash text) else
  '(address, scope) ←
    match split_once "%"%char text with
    | None => Ok (text, None)
    | Some (address, scope) =>
        if str_empty scope || contains_s "%" scope
        then Err ("Invalid IPv6 address: " +:+ dq +:+ py_repr text +:+ dq)
        else Ok (address, Some scope)
    end;
  value ← ipv6_int address;
  Ok (ipv6_str value +:+ match scope with Some s => "%" +:+ s | None => EmptyString end).

Definition ip_address (text : string) : result string string :=
  match ipv4_address text with
  | Ok s => Ok s
  | Err _ =>
      match ipv6_address text with
      | Ok s => Ok s
      | Err _ => Err (py_repr text +:+ " does not appear to be an IPv4 or IPv6 address")
      end
  end.

Example ip_a : ip_address "2001:DB8:0:0:0:0:0:1" = Ok "2001:db8::1". Proof. vm_compute. reflexivity. Qed.
Example ip_b : ip_address "::ffff:1.2.3.4" = Ok "::ffff:102:304". Proof. vm_compute. reflexivity. Qed.
Example ip_c : ip_address "0:0:0:0:0:0:0:0" = Ok "::". Proof. vm_compute. reflexivity. Qed.
Example ip_d : ip_address "1:0:0:2:0:0:3:4" = Ok "1::2:0:0:3:4". Proof. vm_compute. reflexivity. Qed.
Example ip_e : ip_address "fe80::1%eth0" = Ok "fe80::1%eth0". Proof. vm_compute. reflexivity. Qed.
Example ip_f : ipv4_address "01.1.1.1" = Err "Leading zeros are not permitted in '01' in '01.1.1.1'".
Proof. vm_compute. reflexivity. Qed.
Example ip_g : ipv6_address "1.1.1.1" = Err "At least 3 parts expected in '1.1.1.1'". Proof. vm_compute. reflexivity. Qed.
