(* ===== verification/IpAddrFacts.v ===== *)
(** * IP addresses: what is read and what is written

    The strict IPv4 reader accepts exactly the canonical dotted quads; the IPv6 writer's compressed
    text is read back as the same number. *)

From S2P Require Import Prelude Utf8 Numeric PyText TextFacts IpAddr.

Local Open Scope N_scope.

(** ** Octets *)

Definition octet_writes (s : string) : bool :=
  match parse_octet s with Ok v => (fmt_N v =?s s) && (v <? 256) | Err _ => true end.

(** A check of every text of one to three digits, by evaluation. *)
Definition short_digits (f : string -> bool) : bool :=
  all_below 10 (fun a => f (String (digit a) EmptyString) &&
    all_below 10 (fun b => f (String (digit a) (String (digit b) EmptyString)) &&
      all_below 10 (fun c => f (String (digit a) (String (digit b) (String (digit c) EmptyString)))))).

Lemma short_digits_spec f s : short_digits f = true ->
  forallb_s is_digit s = true -> s <> EmptyString -> (String.length s <= 3)%nat -> f s = true.
Proof.
  intros Hf Hd Hne Hl. destruct s as [|a s]; [done|]. cbn [forallb_s] in Hd. apply andb_prop in Hd as [Ha Hd].
  apply is_digit_inv in Ha as (x & Hx & ->). apply (all_below_spec 10) with (i := x) in Hf as Hw; [|exact Hx].
  apply andb_prop in Hw as [Hw1 Hw]. destruct s as [|b s]; [exact Hw1|]. clear Hw1.
  cbn [forallb_s] in Hd. apply andb_prop in Hd as [Hb Hd]. apply is_digit_inv in Hb as (y & Hy & ->).
  apply (all_below_spec 10) with (i := y) in Hw; [|exact Hy]. apply andb_prop in Hw as [Hw2 Hw].
  destruct s as [|c s]; [exact Hw2|]. clear Hw2. cbn [forallb_s] in Hd. apply andb_prop in Hd as [Hc Hd].
  apply is_digit_inv in Hc as (z & Hz & ->). apply (all_below_spec 10) with (i := z) in Hw; [|exact Hz].
  destruct s as [|d s]; [exact Hw|]. simpl in Hl. lia.
Qed.

Lemma octets_write : short_digits octet_writes = true.
Proof. vm_compute. reflexivity. Qed.

Lemma parse_octet_inv s v : parse_octet s = Ok v -> s = fmt_N v /\ v < 256.
Proof.
  intros Hs. assert (Hw : octet_writes s = true).
  { unfold parse_octet in Hs. destruct s as [|a s]; [discriminate|]. cbn [str_empty] in Hs.
    destruct (forallb_s is_digit (String a s)) eqn:Hd; cbn [negb] in Hs; [|discriminate].
    destruct (3 <? String.length (String a s))%nat eqn:Hl; [discriminate|].
    apply (short_digits_spec _ _ octets_write); [exact Hd|discriminate|]. apply Nat.ltb_ge in Hl. exact Hl. }
  unfold octet_writes in Hw. rewrite Hs in Hw. apply andb_prop in Hw as [Hw Hv]. apply eqb_s_true in Hw.
  apply N.ltb_lt in Hv. done.
Qed.

Lemma octet_roundtrip v : v < 256 -> parse_octet (fmt_N v) = Ok v.
Proof.
  intros Hv. pose proof (all_below_spec 256 (fun v => match parse_octet (fmt_N v) with Ok w => w =? v | Err _ => false end)
    ltac:(vm_compute; reflexivity) v Hv) as Hc. simpl in Hc. destruct (parse_octet (fmt_N v)); [|discriminate].
  apply N.eqb_eq in Hc. by rewrite Hc.
Qed.

(** ** Dotted quads *)

Definition quad (a b c d : N) : N := ((a * 256 + b) * 256 + c) * 256 + d.

Lemma push_octet v p : v < 2 ^ 24 -> p < 256 -> N.lor ((N.shiftl v 8) mod 2 ^ 32) p = v * 256 + p.
Proof.
  intros Hv Hp. rewrite N.shiftl_mul_pow2. change (2 ^ 8) with 256. rewrite N.mod_small by lia.
  rewrite lor_low with (k := 8); [done|exact Hp|]. change (2 ^ 8) with 256. apply N.Div0.mod_mul.
Qed.

Lemma be_bytes_quad a b c d : a < 256 -> b < 256 -> c < 256 -> d < 256 -> be_bytes (quad a b c d) = [a; b; c; d].
Proof.
  intros Ha Hb Hc Hd. unfold be_bytes, quad. change (2 ^ 24) with 16777216. change (2 ^ 16) with 65536.
  change (2 ^ 8) with 256.
  rewrite <-(N.div_unique _ 16777216 a ((b * 256 + c) * 256 + d)) by lia.
  rewrite <-(N.div_unique _ 65536 (a * 256 + b) (c * 256 + d)) by lia.
  rewrite <-(N.div_unique _ 256 ((a * 256 + b) * 256 + c) d) by lia.
  rewrite <-(N.mod_unique a 256 0 a) by lia. rewrite <-(N.mod_unique (a * 256 + b) 256 a b) by lia.
  rewrite <-(N.mod_unique ((a * 256 + b) * 256 + c) 256 (a * 256 + b) c) by lia.
  by rewrite <-(N.mod_unique (((a * 256 + b) * 256 + c) * 256 + d) 256 ((a * 256 + b) * 256 + c) d) by lia.
Qed.

Lemma ipv4_octets_ok text a b c d v :
  ipv4_octets text [a; b; c; d] 0 = Ok v <->
  exists w x y z, parse_octet a = Ok w /\ parse_octet b = Ok x /\ parse_octet c = Ok y /\ parse_octet d = Ok z /\ v = quad w x y z.
Proof.
  split.
  - intros Hv. simpl in Hv. apply bind_Ok in Hv as (w & Ha & Hv). apply bind_Ok in Hv as (x & Hb & Hv).
    apply bind_Ok in Hv as (y & Hc & Hv). apply bind_Ok in Hv as (z & Hd & Hv).
    assert (Hp : forall s u f, map_err (E := string) (F := string) f (parse_octet s) = Ok u -> parse_octet s = Ok u /\ u < 256).
    { intros s u f. destruct (parse_octet s) as [u'|] eqn:Hs; [|done]. intros [= ->]. split; [done|]. by apply parse_octet_inv in Hs as [_ Hs]. }
    apply Hp in Ha as [Ha Hw], Hb as [Hb Hx], Hc as [Hc Hy], Hd as [Hd Hz]. injection Hv as <-.
    exists w, x, y, z. repeat (split; [done|]). rewrite (push_octet 0 w) by lia.
    rewrite (push_octet _ x), (push_octet _ y), (push_octet _ z) by lia. reflexivity.
  - intros (w & x & y & z & Ha & Hb & Hc & Hd & ->). simpl. rewrite Ha, Hb, Hc, Hd. simpl.
    apply parse_octet_inv in Ha as [_ Ha], Hb as [_ Hb], Hc as [_ Hc], Hd as [_ Hd]. unfold mbind. simpl.
    rewrite (push_octet 0 w) by lia.
    rewrite (push_octet _ x), (push_octet _ y), (push_octet _ z) by lia. reflexivity.
Qed.

(** The text of a number and the number of a text. *)
Lemma quad_of v : v < 2 ^ 32 -> exists a b c d, v = quad a b c d /\ a < 256 /\ b < 256 /\ c < 256 /\ d < 256.
Proof.
  intros Hv. exists (v / 256 / 256 / 256), (v / 256 / 256 mod 256), (v / 256 mod 256), (v mod 256). unfold quad.
  assert (Hm : forall x, x mod 256 < 256) by (intros x; apply N.mod_lt; lia).
  pose proof (Hm v). pose proof (Hm (v / 256)). pose proof (Hm (v / 256 / 256)).
  assert (Hd : forall x, x / 256 * 256 + x mod 256 = x) by (intros x; rewrite (N.div_mod x 256) at 3 by lia; lia).
  rewrite !Hd. repeat (split; [done|]). split; [|done]. rewrite !N.Div0.div_div. apply N.Div0.div_lt_upper_bound. lia.
Qed.

Lemma fmt_N_plain f n : (forall a, is_digit a = true -> f a = true) -> forallb_s f (fmt_N n) = true.
Proof.
  intros Hf. pose proof (fmt_N_digits n) as Hd. induction (fmt_N n) as [|a s IH]; [done|]. cbn [forallb_s] in *.
  apply andb_prop in Hd as [Ha Hd]. rewrite (Hf a Ha). by apply IH.
Qed.

Lemma split_fmt_N n b : is_digit b = false -> split_byte b (fmt_N n) = [fmt_N n].
Proof. intros Hb. apply (split_whole is_digit); [apply fmt_N_digits|done]. Qed.

Lemma ipv4_int_str v : v < 2 ^ 32 -> ipv4_int (ipv4_str v) = Ok v.
Proof.
  intros Hv. destruct (quad_of v Hv) as (a & b & c & d & -> & Ha & Hb & Hc & Hd). unfold ipv4_str.
  rewrite be_bytes_quad by done. unfold ipv4_int. set (s := join "." _).
  assert (Hsp : split_byte dot s = map fmt_N [a; b; c; d]).
  { apply split_join; [done|]. repeat constructor; by apply split_fmt_N. }
  destruct (str_empty s) eqn:He; [by destruct s|]. rewrite Hsp. simpl length. cbn [negb Nat.eqb].
  apply ipv4_octets_ok. exists a, b, c, d. by rewrite !octet_roundtrip.
Qed.

Lemma ipv4_int_inv s v : ipv4_int s = Ok v -> v < 2 ^ 32 /\ s = ipv4_str v.
Proof.
  unfold ipv4_int. destruct (str_empty s); [done|]. destruct (length (split_byte dot s) =? 4)%nat eqn:Hl; simpl; [|done].
  apply Nat.eqb_eq in Hl. intros Hv. destruct (split_byte dot s) as [|a [|b [|c [|d [|]]]]] eqn:Hs; try done.
  apply ipv4_octets_ok in Hv as (w & x & y & z & Ha & Hb & Hc & Hd & ->).
  apply parse_octet_inv in Ha as [-> Ha], Hb as [-> Hb], Hc as [-> Hc], Hd as [-> Hd]. split; [unfold quad; lia|].
  unfold ipv4_str. rewrite be_bytes_quad by done. rewrite <-(join_split dot s), Hs. done.
Qed.

(** ** Hextets *)

Lemma radix_digits_forall f r fuel n acc : 0 < r -> (forall d, d < r -> f (digit d) = true) ->
  forallb_s f acc = true -> forallb_s f (radix_digits fuel r n acc) = true.
Proof.
  intros Hr Hf. revert n acc. induction fuel as [|fuel IH]; intros n acc Hacc; [done|]. cbn [radix_digits].
  assert (Hd : forallb_s f (String (digit (n mod r)) acc) = true).
  { cbn [forallb_s]. rewrite Hf, Hacc; [done|]. apply N.mod_lt. lia. }
  destruct (n <? r); [done|]. by apply IH.
Qed.

Lemma radix_digits_length r fuel : 2 <= r -> forall k n acc, n < r ^ N.of_nat (S k) ->
  (String.length (radix_digits fuel r n acc) <= S k + String.length acc)%nat.
Proof.
  intros Hr. induction fuel as [|fuel IH]; intros k n acc Hn; cbn [radix_digits]; [lia|].
  destruct (n <? r) eqn:Hs; [simpl; lia|]. apply N.ltb_ge in Hs. destruct k as [|k].
  { rewrite N.pow_1_r in Hn. lia. }
  etransitivity; [apply (IH k)|simpl; lia]. apply N.Div0.div_lt_upper_bound.
  by rewrite <-N.pow_succ_r', <-Nat2N.inj_succ.
Qed.

Lemma char_len_ascii s : forallb_s (fun a => Ascii.N_of_ascii a <? 192) s = true -> char_len s = String.length s.
Proof.
  unfold char_len. induction s as [|a s IH]; [done|]. cbn [forallb_s chars]. intros [Ha Hs]%andb_prop. cbv zeta.
  rewrite Ha. simpl. by rewrite IH.
Qed.

Lemma forallb_s_impl f g s : (forall a, f a = true -> g a = true) -> forallb_s f s = true -> forallb_s g s = true.
Proof.
  intros Hfg. induction s as [|a s IH]; [done|]. cbn [forallb_s]. intros [Ha Hs]%andb_prop. by rewrite Hfg, IH.
Qed.

Lemma forallb_s_app f a b : forallb_s f (a +:+ b) = forallb_s f a && forallb_s f b.
Proof. induction a as [|x a IH]; [done|]. rewrite app_cons_s. cbn [forallb_s]. by rewrite IH, andb_assoc. Qed.

Lemma fmt_hex_digits h : forallb_s is_hexdigit (fmt_hex h) = true.
Proof.
  apply radix_digits_forall; [done| |done]. intros d Hd.
  by apply (all_below_spec 16 (fun d => is_hexdigit (digit d)) ltac:(vm_compute; reflexivity) d).
Qed.

Lemma fmt_hex_cons h : exists a s, fmt_hex h = String a s.
Proof. apply radix_digits_nonempty. Qed.

Lemma hexdigit_ascii a : is_hexdigit a = true -> (Ascii.N_of_ascii a <? 192) = true.
Proof. unfold is_hexdigit, is_digit. cbv zeta. lia. Qed.

Lemma parse_fmt_hex h : h < 65536 -> parse_hextet (fmt_hex h) = Ok h.
Proof.
  intros Hh. unfold parse_hextet. rewrite fmt_hex_digits. cbn [negb].
  rewrite char_len_ascii by (eapply forallb_s_impl; [apply hexdigit_ascii|apply fmt_hex_digits]).
  pose proof (radix_digits_length 16 (S (N.to_nat (N.log2 h))) ltac:(lia) 3 h EmptyString) as Hl. fold (fmt_hex h) in Hl.
  change (radix_digits _ 16 h EmptyString) with (fmt_hex h) in Hl.
  destruct (Nat.ltb_spec 4 (String.length (fmt_hex h))) as [Hgt|_].
  { simpl in Hl. specialize (Hl ltac:(change (16 ^ 4) with 65536; exact Hh)). lia. }
  destruct (fmt_hex_cons h) as (a & s & Heq). pose proof (digits_val_fmt 16 h ltac:(lia) ltac:(lia)) as Hv.
  change (fmt_radix 16 h) with (fmt_hex h) in Hv. rewrite Hv. by rewrite Heq.
Qed.

(** ** Values *)

Definition val16 (v : N) (hs : list N) : N := fold_left (fun v h => v * 65536 + h) hs v.

Lemma val16_app v hs ks : val16 v (hs ++ ks) = val16 (val16 v hs) ks.
Proof. apply fold_left_app. Qed.

Lemma val16_zeros v n : val16 v (replicate n 0) = v * 65536 ^ N.of_nat n.
Proof.
  revert v. induction n as [|n IH]; intros v; [simpl; lia|]. simpl replicate. cbn [val16 fold_left].
  fold (val16 (v * 65536 + 0) (replicate n 0)). rewrite IH, Nat2N.inj_succ, N.pow_succ_r'. lia.
Qed.

(** No overflow: a value that still has [n] hextets to come. *)
Definition room (v : N) (n : nat) : Prop := (v + 1) * 65536 ^ N.of_nat n <= 2 ^ 128.

Lemma room_step v h n : room v (S n) -> h < 65536 -> room (v * 65536 + h) n.
Proof.
  unfold room. rewrite Nat2N.inj_succ, N.pow_succ_r'. intros Hr Hh.
  etransitivity; [|exact Hr]. rewrite N.mul_assoc. apply N.mul_le_mono_r. lia.
Qed.

Lemma push_step v h n : room v (S n) -> h < 65536 -> N.lor (shl128 v 16) h = v * 65536 + h.
Proof.
  intros Hr Hh. unfold shl128. rewrite N.shiftl_mul_pow2. change (2 ^ 16) with 65536.
  rewrite N.mod_small.
  - apply (lor_low _ _ 16); [exact Hh|]. change (2 ^ 16) with 65536. apply N.Div0.mod_mul.
  - unfold room in Hr. rewrite Nat2N.inj_succ, N.pow_succ_r' in Hr.
    assert (1 <= 65536 ^ N.of_nat n) by (apply N.neq_0_le_1, N.pow_nonzero; lia). nia.
Qed.

Lemma push_ok text hs : Forall (fun h => h < 65536) hs -> forall v, room v (length hs) ->
  push_hextets text (map fmt_hex hs) v = Ok (val16 v hs).
Proof.
  induction 1 as [|h hs Hh Hhs IH]; intros v Hr; [done|]. cbn [map push_hextets].
  eapply bind_Ok_intro; [by rewrite parse_fmt_hex|]. rewrite (push_step v h (length hs)) by done.
  by apply IH, room_step.
Qed.

Lemma val16_room hs k : Forall (fun h => h < 65536) hs -> forall v, room v (length hs + k) -> room (val16 v hs) k.
Proof.
  induction 1 as [|h hs Hh _ IH]; intros v Hr; [done|]. cbn [val16 fold_left]. by apply IH, room_step.
Qed.

Lemma room_shift v n k : room v (n + k) -> room (v * 65536 ^ N.of_nat n) k.
Proof.
  unfold room. rewrite Nat2N.inj_add, N.pow_add_r. intros Hr. etransitivity; [|exact Hr].
  assert (1 <= 65536 ^ N.of_nat n) by (apply N.neq_0_le_1, N.pow_nonzero; lia).
  rewrite N.mul_assoc. apply N.mul_le_mono_r. nia.
Qed.

Definition words (v : N) : list N := map (hextet v) (rev (seq 0 8)).

Lemma hextet_mod v i : hextet v i = (v / 65536 ^ N.of_nat i) mod 65536.
Proof.
  unfold hextet. change 0xffff with (N.ones 16). rewrite N.land_ones, N.shiftr_div_pow2.
  change 65536 with (2 ^ 16) at 1. by rewrite <-N.pow_mul_r.
Qed.

Lemma words_bound v : Forall (fun h => h < 65536) (words v).
Proof.
  apply Forall_forall. intros h Hh. apply list_elem_of_fmap in Hh as (i & -> & _). rewrite hextet_mod. apply N.mod_lt. lia.
Qed.

(** Eight hextets are the value. *)
Lemma words_value v : v < 2 ^ 128 -> val16 0 (words v) = v.
Proof.
  intros Hv. assert (Hstep : forall i, v / 65536 ^ N.of_nat (S i) * 65536 + hextet v i = v / 65536 ^ N.of_nat i).
  { intros i. rewrite hextet_mod, Nat2N.inj_succ, N.pow_succ_r', (N.mul_comm 65536), <-N.Div0.div_div.
    rewrite (N.div_mod (v / 65536 ^ N.of_nat i) 65536) at 3 by lia. lia. }
  assert (H8 : v / 65536 ^ N.of_nat 8 = 0) by (by apply N.div_small).
  unfold words. change (rev (seq 0 8)) with [7; 6; 5; 4; 3; 2; 1; 0]%nat. cbn [map val16 fold_left].
  rewrite <-H8. rewrite !Hstep. change (65536 ^ N.of_nat 0) with 1. apply N.div_1_r.
Qed.

(** ** The run of zeros *)

(** The run that is found holds nothing but ["0"]. *)
Definition zeros (all : list string) (begin n : nat) : Prop :=
  (begin + n <= length all)%nat /\ forall i, (begin <= i < begin + n)%nat -> all !! i = Some "0".

Lemma zeros_snoc pre rest begin n : zeros pre begin n -> (begin + n = length pre)%nat ->
  zeros (pre ++ "0" :: rest) begin (S n).
Proof.
  intros [Hl Hz] Heq. split; [rewrite length_app; simpl; lia|]. intros i Hi.
  destruct (decide (i < length pre)%nat) as [Hlt|Hge].
  - rewrite lookup_app_l by done. apply Hz. lia.
  - replace i with (length pre) by lia. by rewrite list_lookup_middle.
Qed.

Lemma zeros_weaken pre rest begin n : zeros pre begin n -> zeros (pre ++ rest) begin n.
Proof.
  intros [Hl Hz]. split; [rewrite length_app; lia|]. intros i Hi. rewrite lookup_app_l by lia. by apply Hz.
Qed.

Lemma zero_run_spec l : forall pre best_start best_len start len b n,
  (match best_start with Some s => zeros pre s best_len | None => best_len = 0%nat end) ->
  (match start with Some s => zeros pre s len /\ (s + len = length pre)%nat | None => len = 0%nat end) ->
  zero_run (length pre) l best_start best_len start len = (b, n) ->
  match b with Some s => zeros (pre ++ l) s n | None => n = 0%nat end.
Proof.
  induction l as [|h l IH]; intros pre bs bl st len b n Hb Hs; simpl.
  - intros [= <- <-]. by rewrite app_nil_r.
  - assert (Hlen : S (length pre) = length (pre ++ [h])) by (rewrite length_app; simpl; lia).
    rewrite Hlen. replace (pre ++ h :: l) with ((pre ++ [h]) ++ l) by (by rewrite <-app_assoc).
    assert (Hb' : match bs with Some s => zeros (pre ++ [h]) s bl | None => bl = 0%nat end).
    { destruct bs; [by apply zeros_weaken|done]. }
    destruct (h =?s "0") eqn:Hh; [|by apply IH]. apply eqb_s_true in Hh as ->.
    assert (Hs' : let s := match st with Some s => s | None => length pre end in
                  zeros (pre ++ ["0"]) s (S len) /\ (s + S len = length (pre ++ ["0"]))%nat).
    { rewrite <-Hlen. destruct st as [s|]; simpl.
      - destruct Hs as [Hz Heq]. split; [by apply zeros_snoc|lia].
      - subst len. split; [|lia]. split; [rewrite length_app; simpl; lia|]. intros i Hi.
        replace i with (length pre) by lia. by rewrite list_lookup_middle. }
    destruct st as [s|]; cbn zeta in Hs'; destruct (bl <? S len)%nat; by apply IH; try apply Hs'.
Qed.

(** ** Compression *)

(** What the reader makes of the compressed parts: the skip is found, and the parts before and after it
    are those that were kept. *)
Lemma compress_layout text (l : list string) begin n :
  length l = 8%nat -> Forall (fun s => str_empty s = false) l -> (2 <= n)%nat -> (begin + n <= 8)%nat ->
  let parts := compress l begin n in
  (3 <= length parts <= 9)%nat /\
  exists skip, find_skip text 1 (drop 1 (take (length parts - 1) parts)) None = Ok skip /\
    layout text parts skip = Ok (begin, 8 - (begin + n), n)%nat /\
    take begin parts = take begin l /\ drop (length parts - (8 - (begin + n))) parts = drop (begin + n) l.
Proof.
  intros Hl He H2 H8 parts.
  destruct l as [|a0 [|a1 [|a2 [|a3 [|a4 [|a5 [|a6 [|a7 [|]]]]]]]]]; simpl in Hl; try discriminate Hl.
  repeat (apply Forall_cons_1 in He as [?He He]).
  assert (Hcase : (begin <= 6)%nat) by lia.
  destruct begin as [|[|[|[|[|[|[|]]]]]]]; [..|lia].
  all: destruct n as [|[|[|[|[|[|[|[|[|]]]]]]]]]; try lia.
  all: unfold parts, compress, layout; simpl; rewrite ?He0, ?He1, ?He2, ?He3, ?He4, ?He5, ?He6, ?He7; simpl;
    split; [lia|]; eexists; split; [reflexivity|]; simpl;
    rewrite ?He0, ?He1, ?He2, ?He3, ?He4, ?He5, ?He6, ?He7; simpl; by repeat split.
Qed.

(** ** Writing and reading back *)

Lemma parts_hex (l : list string) begin n : Forall (fun s => forallb_s is_hexdigit s = true) l ->
  Forall (fun s => forallb_s is_hexdigit s = true) (compress l begin n).
Proof.
  intros Hl. unfold compress. repeat apply Forall_app_2; try (by apply Forall_take); try (by apply Forall_drop).
  - destruct (begin =? 0)%nat; repeat constructor.
  - repeat constructor.
  - destruct (_ =? _)%nat; repeat constructor.
Qed.

(** The common part of the reader, once the parts are split. *)
Lemma ipv6_int_parts parts : (3 <= length parts <= 9)%nat -> Forall (fun s => forallb_s is_hexdigit s = true) parts ->
  let text := join ":" parts in
  ipv6_int text =
    (skip ← find_skip text 1 (drop 1 (take (length parts - 1) parts)) None;
     '(hi, lo, skipped) ← layout text parts skip;
     value ← push_hextets text (take hi parts) 0;
     push_hextets text (drop (length parts - lo) parts)
       (if (skipped <? 8)%nat then shl128 value (16 * N.of_nat skipped) else 0)).
Proof.
  intros Hl Hp text.
  assert (Hsp : split_byte colon text = parts).
  { apply split_join; [intros ->; simpl in Hl; lia|]. eapply Forall_impl; [exact Hp|]. intros s Hs. by apply (split_whole is_hexdigit). }
  unfold ipv6_int. assert (Hne : str_empty text = false).
  { destruct parts as [|p [|q l]]; simpl in Hl; try lia. subst text. rewrite join_cons2. by destruct p. }
  rewrite Hne, Hsp. rewrite (proj2 (Nat.ltb_ge _ _)) by lia.
  assert (Hv4 : expand_v4 text parts = Ok parts).
  { unfold expand_v4. destruct (last parts) as [tail|] eqn:Ht; [|done].
    rewrite (contains_none is_hexdigit) ; [done| |done]. rewrite last_lookup in Ht.
    by apply (Forall_lookup_1 _ _ _ _ Hp Ht). }
  rewrite Hv4. unfold mbind at 1, result_bind at 1. rewrite (proj2 (Nat.ltb_ge 9 _)) by lia. done.
Qed.

Lemma words_drop_zeros v b n : zeros (hextets v) b n ->
  words v = take b (words v) ++ replicate n 0 ++ drop (b + n) (words v).
Proof.
  intros [Hl Hz]. assert (Hh : hextets v = map fmt_hex (words v)) by (unfold hextets, words; by rewrite map_map).
  rewrite <-(take_drop b (words v)) at 1. f_equal. rewrite <-(take_drop n (drop b (words v))) at 1. rewrite drop_drop.
  f_equal. apply list_eq. intros i. destruct (decide (i < n)%nat) as [Hi|Hi].
  - rewrite lookup_take_lt, lookup_drop, lookup_replicate_2 by done.
    specialize (Hz (b + i)%nat ltac:(lia)). rewrite Hh in Hz. rewrite list_lookup_fmap in Hz.
    destruct (words v !! (b + i)%nat) as [h|] eqn:Hw; [|done]. simpl in Hz. injection Hz as Hz.
    assert (Hh0 : fmt_hex h = fmt_hex 0) by (rewrite Hz; reflexivity).
    pose proof (f_equal (digits_val 16) Hh0) as Hd. unfold fmt_hex in Hd. rewrite !digits_val_fmt in Hd by lia. congruence.
  - rewrite lookup_take_ge by lia. symmetry. apply lookup_replicate_None. lia.
Qed.

Lemma ipv6_int_str v : v < 2 ^ 128 -> ipv6_int (ipv6_str v) = Ok v.
Proof.
  intros Hv. assert (Hh : hextets v = map fmt_hex (words v)) by (unfold hextets, words; by rewrite map_map).
  assert (Hlen : length (hextets v) = 8%nat) by done.
  assert (Hhex : Forall (fun s => forallb_s is_hexdigit s = true) (hextets v)).
  { rewrite Hh. apply Forall_map, Forall_forall. intros h _. apply fmt_hex_digits. }
  assert (Hne : Forall (fun s => str_empty s = false) (hextets v)).
  { rewrite Hh. apply Forall_map, Forall_forall. intros h _. destruct (fmt_hex_cons h) as (a & s & Heq). by rewrite Heq. }
  assert (Hroom : forall n, (n <= 8)%nat -> room 0 n).
  { intros n Hn. unfold room. change (2 ^ 128) with (65536 ^ 8). rewrite N.mul_1_l. apply N.pow_le_mono_r; lia. }
  unfold ipv6_str, ipv6_parts. destruct (zero_run 0 (hextets v) None 0 None 0) as [b n] eqn:Hrun.
  pose proof (zero_run_spec (hextets v) [] None 0 None 0 b n eq_refl eq_refl Hrun) as Hz.
  assert (Hplain : ipv6_int (join ":" (hextets v)) = Ok v).
  { rewrite ipv6_int_parts; [|lia|done]. rewrite Hlen.
    eapply bind_Ok_intro.
    { instantiate (1 := None). repeat (apply Forall_cons_1 in Hne as [?He Hne]). clear Hz Hrun. unfold hextets in *.
      change (rev (seq 0 8)) with [7; 6; 5; 4; 3; 2; 1; 0]%nat in *. cbn [map drop take Nat.sub find_skip] in *.
      repeat (apply Forall_cons_1 in Hne as [?He Hne]). by rewrite He0, He1, He2, He3, He4, He5. }
    eapply bind_Ok_intro.
    { unfold layout. rewrite Hlen. cbn [Nat.eqb negb].
      assert (Hat : forall i, (i < 8)%nat -> str_empty (default EmptyString (hextets v !! i)) = false).
      { intros i Hi. destruct (lookup_lt_is_Some_2 (hextets v) i) as [s Hs]; [by rewrite Hlen|]. rewrite Hs.
        apply (Forall_lookup_1 _ _ _ _ Hne Hs). }
      rewrite (Hat 0%nat), (Hat 7%nat) by lia. reflexivity. }
    cbn [Nat.sub]. rewrite (take_ge (hextets v)) by lia. rewrite (drop_ge (hextets v)) by lia.
    eapply bind_Ok_intro; [rewrite Hh; apply push_ok; [apply words_bound|by apply Hroom]|].
    rewrite words_value by done. change (0 <? 8)%nat with true. cbn [push_hextets]. unfold shl128.
    change (16 * N.of_nat 0) with 0. rewrite N.shiftl_0_r. by rewrite N.mod_small. }
  destruct b as [b|]; [|exact Hplain]. destruct (Nat.ltb_spec 1 n) as [Hn|_]; [|exact Hplain]. clear Hplain.
  cbn [app] in Hz. pose proof (words_drop_zeros v b n Hz) as Hw. destruct Hz as [Hle _]. rewrite Hlen in Hle.
  pose proof (fun text => compress_layout text (hextets v) b n Hlen Hne Hn Hle) as Hlay. cbv zeta in Hlay.
  set (parts := compress (hextets v) b n) in *.
  rewrite ipv6_int_parts; [|by apply (Hlay EmptyString)|by apply parts_hex].
  destruct (Hlay (join ":" parts)) as (_ & skip & Hskip & Hl & Ht & Hd).
  eapply bind_Ok_intro; [exact Hskip|]. eapply bind_Ok_intro; [exact Hl|]. cbv beta iota. rewrite Ht, Hd, Hh.
  assert (Hb : Forall (fun h => h < 65536) (take b (words v)) /\ Forall (fun h => h < 65536) (drop (b + n) (words v)))
    by (split; [apply Forall_take|apply Forall_drop]; apply words_bound). destruct Hb as [Hb1 Hb2].
  assert (Hl1 : length (take b (words v)) = b) by (rewrite length_take; unfold words; simpl; lia).
  assert (Hl2 : length (drop (b + n) (words v)) = (8 - (b + n))%nat) by (rewrite length_drop; unfold words; simpl; lia).
  rewrite !firstn_map, !skipn_map.
  eapply bind_Ok_intro; [apply push_ok; [done|rewrite Hl1; apply Hroom; lia]|].
  set (V := val16 0 (take b (words v))).
  assert (HV : room V (8 - b)).
  { apply val16_room; [done|]. rewrite Hl1. apply Hroom. lia. }
  assert (Hstart : (if (n <? 8)%nat then shl128 V (16 * N.of_nat n) else 0) = V * 65536 ^ N.of_nat n).
  { destruct (Nat.ltb_spec n 8) as [Hn8|Hn8].
    - unfold shl128. rewrite N.shiftl_mul_pow2, N.pow_mul_r. change (2 ^ 16) with 65536. apply N.mod_small.
      assert (Hr : room V (n + (8 - (b + n)))) by (by replace (n + (8 - (b + n)))%nat with (8 - b)%nat by lia).
      apply room_shift in Hr. unfold room in Hr.
      assert (1 <= 65536 ^ N.of_nat (8 - (b + n))) by (apply N.neq_0_le_1, N.pow_nonzero; lia). nia.
    - assert (b = 0%nat) as -> by lia. subst V. simpl. lia. }
  rewrite Hstart, push_ok; [|done|].
  - f_equal. pose proof (words_value v Hv) as Hval. rewrite Hw, !val16_app, val16_zeros in Hval. exact Hval.
  - rewrite Hl2. apply room_shift. by replace (n + (8 - (b + n)))%nat with (8 - b)%nat by lia.
Qed.

Lemma split_once_none b s : contains_s (String b EmptyString) s = false -> split_once b s = None.
Proof.
  induction s as [|a s IH]; [done|]. cbn [contains_s split_once]. intros [Ha Hs]%orb_false_iff.
  destruct (Ascii.eqb a b) eqn:Hab.
  - apply Ascii.eqb_eq in Hab as ->. simpl in Ha. destruct (Ascii.ascii_dec b b); [by destruct s|done].
  - by rewrite IH.
Qed.
Lemma split_once_at b x y : forallb_s (fun a => negb (Ascii.eqb a b)) x = true -> split_once b (x +:+ String b y) = Some (x, y).
Proof.
  induction x as [|a x IH]; cbn [forallb_s].
  - intros _. rewrite app_nil_s. simpl. by rewrite Ascii.eqb_refl.
  - intros [Ha Hx]%andb_prop. apply negb_true_iff in Ha. rewrite app_cons_s. simpl. by rewrite Ha, IH.
Qed.

(** ** Properties *)

(** The IPv4 reader is strict: it accepts a text exactly when it is the dotted quad of a 32-bit
    number, written without leading zeros, and what it returns is that text unchanged. *)
Theorem ipv4_exact (text out : string) :
  ipv4_address text = Ok out <-> out = text /\ exists v, v < 2 ^ 32 /\ text = ipv4_str v.
Proof.
  unfold ipv4_address. split.
  - destruct (contains_s "/" text); [done|]. destruct (ipv4_int text) as [v|] eqn:Hv; [|done].
    apply ipv4_int_inv in Hv as [Hv ->]. intros [= <-]. split; [done|]. by exists v.
  - intros (-> & v & Hv & ->). rewrite ipv4_int_str by done.
    assert (Hs : contains_s "/" (ipv4_str v) = false).
    { apply contains_join; [done|]. apply Forall_map, Forall_forall. intros b _.
      apply (contains_none is_digit); [apply fmt_N_digits|done]. }
    by rewrite Hs.
Qed.

(** The IPv6 writer and reader agree: for every 128-bit number the text written, with the first
    longest run of zero hextets compressed, is accepted, unchanged, and read as that number. *)
Theorem ipv6_roundtrip (v : N) (Hv : v < 2 ^ 128) :
  ipv6_int (ipv6_str v) = Ok v /\ ipv6_address (ipv6_str v) = Ok (ipv6_str v).
Proof.
  split; [by apply ipv6_int_str|]. unfold ipv6_address.
  assert (Hplain : forall b, is_hexdigit b = false -> b <> colon -> contains_s (String b EmptyString) (ipv6_str v) = false).
  { intros b Hb Hc. apply contains_join.
    - simpl. destruct (Ascii.ascii_dec b ":"%char) as [->|_]; [by destruct Hc|done].
    - assert (Hhex : Forall (fun s => forallb_s is_hexdigit s = true) (ipv6_parts (hextets v))).
      { assert (Hw : Forall (fun s => forallb_s is_hexdigit s = true) (hextets v)).
        { unfold hextets. apply Forall_map, Forall_forall. intros i _. apply fmt_hex_digits. }
        unfold ipv6_parts. destruct (zero_run 0 (hextets v) None 0 None 0) as [[b0|] n]; [|done].
        destruct (1 <? n)%nat; [by apply parts_hex|done]. }
      eapply Forall_impl; [exact Hhex|]. intros s Hs. by apply (contains_none is_hexdigit). }
  rewrite (Hplain "/"%char) by done.
  assert (Hsc : split_once "%"%char (ipv6_str v) = None).
  { pose proof (Hplain "%"%char eq_refl ltac:(done)) as Hp. by apply split_once_none. }
  rewrite Hsc. eapply bind_Ok_intro; [reflexivity|]. cbv beta iota.
  eapply bind_Ok_intro; [by apply ipv6_int_str|]. by rewrite app_nil_r_s.
Qed.

Lemma ipv6_roundtrip_witness : ipv6_int "2001:db8::1" = Ok 0x20010db8000000000000000000000001.
Proof. apply (ipv6_roundtrip 0x20010db8000000000000000000000001). reflexivity. Defined.
