(* ===== verification/Toml.v ===== *)
(** * The TOML reader

    [installer_core/src/toml.rs], operation by operation: values and ordered tables, unbounded
    integers kept as decimal text, the namespace flags, and the parser over the document's
    characters with its positions and error texts. Every loop moves forward, so the length of the
    document is fuel enough ([TomlFacts.v]); running out would be [Exhausted]. The value of a float
    literal is the standard library's: the class [FloatParse]. *)

From Corelib Require Import SpecFloat.
From S2P Require Import Prelude Utf8 Numeric Json PyText.

Class FloatParse := { parse_f64 : string -> option f64 }.

Unset Elimination Schemes.
Inductive TValue : Type :=
| TString (s : string)
| TInteger (digits : string)
| TFloat (f : f64)
| TBoolean (b : bool)
| TDatetime (text : string)
| TDate (text : string)
| TTime (text : string)
| TArray (items : list TValue)
| TTable (entries : list (string * TValue)).
Set Elimination Schemes.

(** ** Tables: entries in document order *)

Abbreviation Table := (list (string * TValue)).

Module Table.
Definition get (t : Table) (key : string) : option TValue := snd <$> find (fun e => e.1 =?s key) t.
Definition contains_key (t : Table) (key : string) : bool := match get t key with Some _ => true | None => false end.
(** The slot of a key that is there keeps its position. *)
Fixpoint replace (t : Table) (key : string) (value : TValue) : Table :=
  match t with
  | [] => []
  | (k, v) :: t' => if k =?s key then (k, value) :: t' else (k, v) :: replace t' key value
  end.
Definition insert (t : Table) (key : string) (value : TValue) : Table :=
  if contains_key t key then replace t key value else t ++ [(key, value)].
Definition keys (t : Table) : list string := map fst t.
End Table.

(** ** [PyInt] *)

(** The limbs, the least significant first, in base 10^9: one digit multiplied in. *)
Fixpoint push_limbs (radix carry : N) (limbs : list N) : list N * N :=
  match limbs with
  | [] => ([], carry)
  | limb :: rest =>
      let value := (limb * radix + carry)%N in
      let '(rest', carry') := push_limbs radix (value / 1000000000) rest in
      ((value mod 1000000000)%N :: rest', carry')
  end.
Fixpoint carry_limbs (fuel : nat) (carry : N) : list N :=
  match fuel with
  | O => []
  | S f => if (carry =? 0)%N then [] else (carry mod 1000000000)%N :: carry_limbs f (carry / 1000000000)
  end.
Definition push_digit (radix : N) (limbs : list N) (d : N) : list N :=
  let '(limbs, carry) := push_limbs radix d limbs in limbs ++ carry_limbs (S (N.to_nat (N.log2 carry))) carry.

Definition to_decimal (digits : string) (radix : N) : string :=
  let limbs := fold_left (push_digit radix)
                 (map (fun c => default 0%N (digit_val radix c)) (String.list_ascii_of_string digits)) [0%N] in
  match rev limbs with
  | [] => fmt_N 0
  | top :: rest => fmt_N top +:+ join EmptyString (map (fun limb => pad0 9 (fmt_N limb)) rest)
  end.

(** [trim_start_matches('0')]. *)
Fixpoint trim_zeros (s : string) : string :=
  match s with String a s' => if Ascii.eqb a "0"%char then trim_zeros s' else s | EmptyString => EmptyString end.
Fixpoint drop_underscores (s : string) : string :=
  match s with
  | EmptyString => EmptyString
  | String a s' => if Ascii.eqb a "_"%char then drop_underscores s' else String a (drop_underscores s')
  end.

Module PyInt.
Definition from_i64 (value : Z) : string := fmt_Z value.
Definition to_i64 (digits : string) : option Z := parse_i64 digits.

(** The sign, and the text without it. *)
Definition signed (cleaned : string) : bool * string :=
  match cleaned with
  | String a rest => if Ascii.eqb a "-"%char then (true, rest)
                     else if Ascii.eqb a "+"%char then (false, rest) else (false, cleaned)
  | EmptyString => (false, cleaned)
  end.
(** The radix a prefix names, and the digits. *)
Definition radix_of (body : string) : N * string :=
  match body with
  | String z (String x rest) =>
      if Ascii.eqb z "0"%char && Ascii.eqb x "x"%char then (16%N, rest)
      else if Ascii.eqb z "0"%char && Ascii.eqb x "o"%char then (8%N, rest)
      else if Ascii.eqb z "0"%char && Ascii.eqb x "b"%char then (2%N, rest)
      else (10%N, body)
  | _ => (10%N, body)
  end.
Definition parse_literal (text : string) : string :=
  let '(negative, body) := signed (drop_underscores text) in
  let '(radix, digits) := radix_of body in
  let decimal := if (radix =? 10)%N then let trimmed := trim_zeros digits in if str_empty trimmed then "0" else trimmed
                 else to_decimal digits radix in
  if negative && negb (decimal =?s "0") then "-" +:+ decimal else decimal.
End PyInt.

(** ** Namespace flags *)

Inductive Flag := FROZEN | EXPLICIT_NEST.
#[export] Instance Flag_eq_dec : EqDecision Flag.
Proof. solve_decision. Defined.

Unset Elimination Schemes.
Inductive FlagNode := Node (flags recursive_flags : list Flag) (nested : list (string * FlagNode)).
Set Elimination Schemes.
Abbreviation FlagMap := (list (string * FlagNode)).

Definition node_default : FlagNode := Node [] [] [].
Definition node_nested (n : FlagNode) : FlagMap := match n with Node _ _ nested => nested end.
Definition with_nested (n : FlagNode) (nested : FlagMap) : FlagNode :=
  match n with Node f r _ => Node f r nested end.
Definition has_flag (f : Flag) (l : list Flag) : bool := bool_decide (f ∈ l).
Definition add_flag (n : FlagNode) (f : Flag) (recursive : bool) : FlagNode :=
  match n with Node fs rs nested => if recursive then Node fs (f :: rs) nested else Node (f :: fs) rs nested end.

Definition Key := list string.
Record Flags := { f_root : FlagMap; f_pending : list (Key * Flag) }.
Definition flags_default : Flags := {| f_root := []; f_pending := [] |}.

Module Flags.
Definition node_at (m : FlagMap) (k : string) : option FlagNode := snd <$> find (fun e => e.1 =?s k) m.
(** [cont.entry(k).or_default()] updated. *)
Fixpoint entry (m : FlagMap) (k : string) (f : FlagNode -> FlagNode) : FlagMap :=
  match m with
  | [] => [(k, f node_default)]
  | (k', n) :: m' => if k' =?s k then (k', f n) :: m' else (k', n) :: entry m' k f
  end.

Definition add_pending (fl : Flags) (key : Key) (flag : Flag) : Flags :=
  if existsb (fun p => bool_decide (p = (key, flag))) (f_pending fl) then fl
  else {| f_root := f_root fl; f_pending := f_pending fl ++ [(key, flag)] |}.

Fixpoint set_in (m : FlagMap) (key : Key) (flag : Flag) (recursive : bool) : FlagMap :=
  match key with
  | [] => m
  | [k] => entry m k (fun n => add_flag n flag recursive)
  | k :: rest => entry m k (fun n => with_nested n (set_in (node_nested n) rest flag recursive))
  end.
Definition set (fl : Flags) (key : Key) (flag : Flag) (recursive : bool) : Flags :=
  {| f_root := set_in (f_root fl) key flag recursive; f_pending := f_pending fl |}.

Definition finalize_pending (fl : Flags) : Flags :=
  fold_left (fun fl p => set fl p.1 p.2 false) (f_pending fl) {| f_root := f_root fl; f_pending := [] |}.

Fixpoint unset_in (m : FlagMap) (key : Key) : FlagMap :=
  match key with
  | [] => m
  | [k] => List.filter (fun e => negb (e.1 =?s k)) m
  | k :: rest =>
      match node_at m k with
      | Some _ => entry m k (fun n => with_nested n (unset_in (node_nested n) rest))
      | None => m
      end
  end.
Definition unset_all (fl : Flags) (key : Key) : Flags :=
  {| f_root := unset_in (f_root fl) key; f_pending := f_pending fl |}.

Fixpoint is_in (m : FlagMap) (key : Key) (flag : Flag) : bool :=
  match key with
  | [] => false
  | [k] => match node_at m k with
           | Some (Node fs rs _) => has_flag flag fs || has_flag flag rs
           | None => false
           end
  | k :: rest => match node_at m k with
                 | Some (Node _ rs nested) => has_flag flag rs || is_in nested rest flag
                 | None => false
                 end
  end.
Definition is_ (fl : Flags) (key : Key) (flag : Flag) : bool := is_in (f_root fl) key flag.
End Flags.

(** ** Nested tables: the table found, and the whole with that table replaced *)

Fixpoint get_or_create_nest (root : Table) (key : Key) (access_lists : bool) : option (Table * (Table -> Table)) :=
  match key with
  | [] => Some (root, id)
  | k :: rest =>
      let value := default (TTable []) (Table.get root k) in
      '(inner, put) ←
        match value with
        | TTable t => Some (t, TTable)
        | TArray items =>
            if access_lists then
              match last items with
              | Some (TTable t) => Some (t, fun t' => TArray (removelast items ++ [TTable t']))
              | _ => None
              end
            else None
        | _ => None
        end;
      '(nest, put') ← get_or_create_nest inner rest access_lists;
      Some (nest, fun t' => Table.insert root k (put (put' t')))
  end.

(** [key.split_at(key.len() - 1)]. *)
Definition key_parent (key : Key) : Key := removelast key.
Definition key_stem (key : Key) : string := List.last key EmptyString.

Definition append_nest_to_list (root : Table) (key : Key) : option Table :=
  '(cont, put) ← get_or_create_nest root (key_parent key) true;
  match Table.get cont (key_stem key) with
  | Some (TArray items) => Some (put (Table.insert cont (key_stem key) (TArray (items ++ [TTable []]))))
  | Some _ => None
  | None => Some (put (Table.insert cont (key_stem key) (TArray [TTable []])))
  end.

(** ** The parser *)

Module Parser.

(** Why a parse stopped: [DecodeError], or a bound of the model. *)
Inductive Stop := DecodeError (message : string) | Exhausted.
Abbreviation R := (result Stop).

Definition is_ascii_ctrl (c : char) : bool := (c <? 32)%N || (c =? 0x7f)%N.
Definition illegal_basic (c : char) : bool := is_ascii_ctrl c && negb (c =? 9)%N.
Definition illegal_multiline (c : char) : bool := is_ascii_ctrl c && negb (c =? 9)%N && negb (c =? 10)%N.
Definition is_ws (c : char) : bool := (c =? 32)%N || (c =? 9)%N.
Definition is_ws_or_newline (c : char) : bool := (c =? 32)%N || (c =? 9)%N || (c =? 10)%N.
Definition ascii_digit (c : char) : bool := in_range 48 57 c.
Definition ascii_alphanumeric (c : char) : bool := ascii_digit c || in_range 65 90 c || in_range 97 122 c.
Definition ascii_hexdigit (c : char) : bool := ascii_digit c || in_range 65 70 c || in_range 97 102 c.
Definition is_bare_key_char (c : char) : bool := ascii_alphanumeric c || (c =? ch "-")%N || (c =? ch "_")%N.

(** [text.replace("\r\n", "\n")] on characters. *)
Fixpoint crlf (l : list char) : list char :=
match l with
| 13%N :: ((10%N :: _) as rest) => crlf rest
| c :: rest => c :: crlf rest
| [] => []
end.

Fixpoint prefix_of (needle l : list char) : bool :=
match needle, l with
| [], _ => true
| x :: needle', y :: l' => (x =? y)%N && prefix_of needle' l'
| _ :: _, [] => false
end.

(** How many leading characters satisfy [p]. *)
Fixpoint count_while (p : char -> bool) (l : list char) : nat :=
match l with c :: l' => if p c then S (count_while p l') else O | [] => O end.

Fixpoint find_in (needle rest : list char) (pos : nat) : option nat :=
if prefix_of needle rest then Some pos
else match rest with [] => None | _ :: rest' => find_in needle rest' (S pos) end.

Definition days_in_month (year month : N) : N :=
if (month =? 2)%N then
  if ((year mod 4 =? 0) && negb (year mod 100 =? 0) || (year mod 400 =? 0))%N then 29%N else 28%N
else if existsb (N.eqb month) [4; 6; 9; 11]%N then 30%N else 31%N.

Record DatetimeMatch := { dt_end : nat; dt_has_time : bool; dt_valid : bool }.

Section parser.
Context {FP : FloatParse} (src : list char).

Definition at_ (pos : nat) : option char := src !! pos.
Definition at_is (pos : nat) (c : Ascii.ascii) : bool := bool_decide (at_ pos = Some (ch c)).
Arguments at_is pos%_nat_scope c%_char_scope.
Definition at_sat (pos : nat) (p : char -> bool) : bool := match at_ pos with Some c => p c | None => false end.
Definition starts_with (pos : nat) (text : string) : bool := prefix_of (chars text) (drop pos src).
Definition slice (start fin : nat) : string := of_chars (take (Nat.min fin (length src) - start) (drop start src)).

Definition newline_c (c : char) : bool := (c =? 10)%N.
(** [rposition] of a newline that is there. *)
Definition last_newline (before : list char) : nat :=
(length before - 1 - count_while (fun c => negb (newline_c c)) (rev before))%nat.

Definition coord (pos : nat) : string :=
if (length src <=? pos)%nat then "end of document"
else
  let before := take pos src in
  let line := S (length (List.filter newline_c before)) in
  let column := if (line =? 1)%nat then S pos else (pos - last_newline before)%nat in
  "line " +:+ fmt_nat line +:+ ", column " +:+ fmt_nat column.
Definition err {A} (pos : nat) (message : string) : R A := Err (DecodeError (message +:+ " (at " +:+ coord pos +:+ ")")).

Definition skip (pos : nat) (p : char -> bool) : nat := (pos + count_while p (drop pos src))%nat.
Definition find (pos : nat) (expect : string) : option nat :=
if (length src <? pos)%nat then None else find_in (chars expect) (drop pos src) pos.

Definition skip_until (pos : nat) (expect : string) (error_on : char -> bool) (error_on_eof : bool) : R nat :=
new_pos ← match find pos expect with
          | Some found => Ok found
          | None => if error_on_eof then err (length src) ("Expected " +:+ py_repr expect) else Ok (length src)
          end;
let offset := count_while (fun c => negb (error_on c)) (take (new_pos - Nat.min pos new_pos) (drop (Nat.min pos new_pos) src)) in
if (offset <? new_pos - Nat.min pos new_pos)%nat
then let bad := (pos + offset)%nat in
     err bad ("Found invalid character " +:+ py_repr (slice bad (S bad)))
else Ok new_pos.

Definition skip_comment (pos : nat) : R nat :=
if at_is pos "#" then skip_until (S pos) nl illegal_basic false else Ok pos.

Fixpoint skip_comments_and_array_ws (fuel : nat) (pos : nat) : R nat :=
match fuel with
| O => Err Exhausted
| S f =>
    next ← skip_comment (skip pos is_ws_or_newline);
    if (next =? pos)%nat then Ok next else skip_comments_and_array_ws f next
end.

(** *** Strings *)

Definition parse_hex_char (pos n : nat) : R (nat * string) :=
let hex := take (Nat.min (pos + n) (length src) - pos) (drop pos src) in
if negb (length hex =? n)%nat || negb (forallb ascii_hexdigit hex) then err pos "Invalid hex value" else
let pos := (pos + n)%nat in
let code := default 0%N (digits_val 16 (of_chars hex)) in
if scalar code then Ok (pos, encode_char code) else err pos "Escaped character is not a Unicode scalar value".

Definition unescaped {A} (pos : nat) : R A := err pos "Unescaped '\' in a string".

Definition parse_basic_str_escape (pos : nat) (multiline : bool) : R (nat * string) :=
let escape_id := take (Nat.min (pos + 2) (length src) - pos) (drop pos src) in
let pos := (pos + 2)%nat in
let is_id (c : char) := bool_decide (escape_id = [ch "\"; c]) in
if multiline && (is_id 32%N || is_id 9%N || is_id 10%N) then
  if negb (is_id 10%N) then
    let pos := skip pos is_ws in
    match at_ pos with
    | None => Ok (pos, EmptyString)
    | Some c => if newline_c c then Ok (skip (S pos) is_ws_or_newline, EmptyString) else unescaped pos
    end
  else Ok (skip pos is_ws_or_newline, EmptyString)
else if is_id (ch "u") then parse_hex_char pos 4
else if is_id (ch "U") then parse_hex_char pos 8
else if is_id (ch "b") then Ok (pos, encode_char 8)
else if is_id (ch "t") then Ok (pos, encode_char 9)
else if is_id (ch "n") then Ok (pos, encode_char 10)
else if is_id (ch "f") then Ok (pos, encode_char 12)
else if is_id (ch "r") then Ok (pos, encode_char 13)
else if is_id 34%N then Ok (pos, dq)
else if is_id (ch "\") then Ok (pos, "\")
else unescaped pos.

Definition parse_literal_str (pos : nat) : R (nat * string) :=
let start := S pos in
fin ← skip_until start "'" illegal_basic true;
Ok (S fin, slice start fin).

Definition dq3 : string := dq +:+ dq +:+ dq.

(** The loop of [parse_basic_str]: [start] is where the text not yet copied to [result] begins. *)
Fixpoint basic_str (fuel : nat) (multiline : bool) (start pos : nat) (res : string) : R (nat * string) :=
match fuel with
| O => Err Exhausted
| S f =>
    match at_ pos with
    | None => err pos "Unterminated string"
    | Some c =>
        if (c =? 34)%N then
          if negb multiline then Ok (S pos, res +:+ slice start pos)
          else if starts_with pos dq3 then Ok ((pos + 3)%nat, res +:+ slice start pos)
          else basic_str f multiline start (S pos) res
        else if (c =? ch "\")%N then
          '(pos', escaped) ← parse_basic_str_escape pos multiline;
          basic_str f multiline pos' pos' (res +:+ slice start pos +:+ escaped)
        else if (if multiline then illegal_multiline c else illegal_basic c)
        then err pos ("Illegal character " +:+ py_repr (encode_char c))
        else basic_str f multiline start (S pos) res
    end
end.
Definition fuel : nat := S (length src).
Definition parse_basic_str (pos : nat) (multiline : bool) : R (nat * string) :=
basic_str fuel multiline pos pos EmptyString.

Definition parse_multiline_str (pos : nat) (literal : bool) : R (nat * TValue) :=
let pos := (pos + 3)%nat in
let pos := if starts_with pos nl then S pos else pos in
'(delim, pos, res) ←
  (if literal then
     fin ← skip_until pos "'''" illegal_multiline true;
     Ok ("'"%char, (fin + 3)%nat, slice pos fin)
   else
     '(pos, res) ← parse_basic_str pos true;
     Ok (Ascii.ascii_of_nat 34, pos, res));
if negb (at_is pos delim) then Ok (pos, TString res) else
let res := res +:+ String delim EmptyString in
if negb (at_is (S pos) delim) then Ok (S pos, TString res)
else Ok ((pos + 2)%nat, TString (res +:+ String delim EmptyString)).

(** *** Keys *)

Definition parse_key_part (pos : nat) : R (nat * string) :=
let bad := err pos "Invalid initial character for a key part" in
match at_ pos with
| Some c =>
    if is_bare_key_char c then let fin := skip pos is_bare_key_char in Ok (fin, slice pos fin)
    else if (c =? 39)%N then parse_literal_str pos
    else if (c =? 34)%N then parse_basic_str (S pos) false
    else bad
| None => bad
end.

Fixpoint key_parts (f : nat) (pos : nat) (key : Key) : R (nat * Key) :=
match f with
| O => Err Exhausted
| S f =>
    if negb (at_is pos ".") then Ok (pos, key) else
    '(pos, part) ← parse_key_part (skip (S pos) is_ws);
    key_parts f (skip pos is_ws) (key ++ [part])
end.
Definition parse_key (pos : nat) : R (nat * Key) :=
'(pos, part) ← parse_key_part pos;
key_parts fuel (skip pos is_ws) [part].

(** *** Numbers and dates *)

Fixpoint digits_at (count : nat) (pos : nat) (value : N) : option N :=
match count with
| O => Some value
| S n => c ← at_ pos; if ascii_digit c then digits_at n (S pos) (value * 10 + (c - 48))%N else None
end.
Definition digits (pos count : nat) : option N := digits_at count pos 0.

Definition match_time (pos : nat) : option nat :=
hour ← digits pos 2;
if (23 <? hour)%N || negb (at_is (pos + 2) ":") then None else
minute ← digits (pos + 3) 2;
if (59 <? minute)%N || negb (at_is (pos + 5) ":") then None else
second ← digits (pos + 6) 2;
if (59 <? second)%N then None else
let fin := (pos + 8)%nat in
Some (if at_is fin "." && at_sat (S fin) ascii_digit then skip (S fin) ascii_digit else fin).

Definition match_datetime (pos : nat) : option DatetimeMatch :=
year ← digits pos 4;
if negb (at_is (pos + 4) "-") then None else
month ← digits (pos + 5) 2;
if negb (in_range 1 12 month) || negb (at_is (pos + 7) "-") then None else
day ← digits (pos + 8) 2;
if negb (in_range 1 31 day) then None else
let valid := ((1 <=? year) && (day <=? days_in_month year month))%N in
let date_end := (pos + 10)%nat in
let date := Some {| dt_end := date_end; dt_has_time := false; dt_valid := valid |} in
if negb (at_is date_end "T" || at_is date_end "t" || at_is date_end " ") then date else
match match_time (S date_end) with
| None => date
| Some fin =>
    let fin :=
      if at_is fin "Z" || at_is fin "z" then S fin
      else if (at_is fin "+" || at_is fin "-")
              && (match digits (S fin) 2 with Some h => (h <=? 23)%N | None => false end)
              && at_is (fin + 3) ":"
              && (match digits (fin + 4) 2 with Some m => (m <=? 59)%N | None => false end)
      then (fin + 6)%nat else fin in
    Some {| dt_end := fin; dt_has_time := true; dt_valid := valid |}
end.

(** [(?:_?D)*] on the characters that are left: how many it takes. *)
Fixpoint underscored_in (p : char -> bool) (l : list char) : nat :=
match l with
| c :: rest =>
    if p c then S (underscored_in p rest)
    else match rest with
         | d :: rest' => if (c =? ch "_")%N && p d then S (S (underscored_in p rest')) else O
         | [] => O
         end
| [] => O
end.
Definition underscored (pos : nat) (p : char -> bool) : nat := (pos + underscored_in p (drop pos src))%nat.

Definition radix_digit (pos : nat) : option (char -> bool) :=
if at_is pos "x" then Some ascii_hexdigit
else if at_is pos "b" then Some (in_range 48 49)
else if at_is pos "o" then Some (in_range 48 55)
else None.

Definition match_decimal (pos : nat) : option (nat * bool) :=
let fin := if at_is pos "+" || at_is pos "-" then S pos else pos in
fin ← (if at_is fin "0" then Some (S fin)
       else if at_sat fin (in_range 49 57) then Some (underscored (S fin) ascii_digit) else None);
let int_end := fin in
let fin := if at_is fin "." && at_sat (S fin) ascii_digit then underscored (fin + 2) ascii_digit else fin in
let fin :=
  if at_is fin "e" || at_is fin "E" then
    let exponent := if at_is (S fin) "+" || at_is (S fin) "-" then (fin + 2)%nat else S fin in
    if at_sat exponent ascii_digit then underscored (S exponent) ascii_digit else fin
  else fin in
Some (fin, negb (fin =? int_end)%nat).

Definition match_number (pos : nat) : option (nat * bool) :=
match (if at_is pos "0" then radix_digit (S pos) else None) with
| Some is_digit => if at_sat (pos + 2) is_digit then Some (underscored (pos + 3) is_digit, false) else match_decimal pos
| None => match_decimal pos
end.

Definition float_of (text : string) : f64 := default S754_nan (parse_f64 (drop_underscores text)).

(** The part of [parse_value] after the strings, booleans and containers. *)
Definition parse_scalar (pos : nat) : R (nat * TValue) :=
match match_datetime pos with
| Some found =>
    if negb (dt_valid found) then err pos "Invalid date or datetime" else
    let text := slice pos (dt_end found) in
    Ok (dt_end found, if dt_has_time found then TDatetime text else TDate text)
| None =>
match match_time pos with
| Some fin => Ok (fin, TTime (slice pos fin))
| None =>
match match_number pos with
| Some (fin, float) =>
    let text := slice pos fin in
    Ok (fin, if (float : bool) then TFloat (float_of text) else TInteger (PyInt.parse_literal text))
| None =>
    let three := slice pos (pos + 3) in
    let four := slice pos (pos + 4) in
    if three =?s "inf" then Ok ((pos + 3)%nat, TFloat (S754_infinity false))
    else if three =?s "nan" then Ok ((pos + 3)%nat, TFloat S754_nan)
    else if four =?s "+inf" then Ok ((pos + 4)%nat, TFloat (S754_infinity false))
    else if four =?s "-inf" then Ok ((pos + 4)%nat, TFloat (S754_infinity true))
    else if (four =?s "+nan") || (four =?s "-nan") then Ok ((pos + 4)%nat, TFloat S754_nan)
    else err pos "Invalid value"
end end end.

(** *** Containers, over the parser of the values in them *)

Section containers.
Context (parse_value : nat -> R (nat * TValue)).

(** The loop of [parse_array], at a value. *)
Fixpoint array_items (f : nat) (pos : nat) (array : list TValue) : R (nat * TValue) :=
match f with
| O => Err Exhausted
| S f =>
    '(pos, value) ← parse_value pos;
    let array := array ++ [value] in
    pos ← skip_comments_and_array_ws fuel pos;
    if at_is pos "]" then Ok (S pos, TArray array)
    else if at_is pos "," then
      pos ← skip_comments_and_array_ws fuel (S pos);
      if starts_with pos "]" then Ok (S pos, TArray array) else array_items f pos array
    else err pos "Unclosed array"
end.
Definition parse_array (pos : nat) : R (nat * TValue) :=
pos ← skip_comments_and_array_ws fuel (S pos);
if starts_with pos "]" then Ok (S pos, TArray []) else array_items fuel pos [].

Definition parse_key_value_pair (pos : nat) : R (nat * Key * TValue) :=
'(pos, key) ← parse_key pos;
if negb (at_is pos "=") then err pos "Expected '=' after a key in a key/value pair" else
'(pos, value) ← parse_value (skip (S pos) is_ws);
Ok (pos, key, value).

Definition is_container (v : TValue) : bool := match v with TTable _ | TArray _ => true | _ => false end.

(** The loop of [parse_inline_table], at a pair. *)
Fixpoint inline_pairs (f : nat) (pos : nat) (nested : Table) (flags : Flags) : R (nat * TValue) :=
match f with
| O => Err Exhausted
| S f =>
    '(pos, key, value) ← parse_key_value_pair pos;
    if Flags.is_ flags key FROZEN
    then err pos ("Cannot mutate immutable namespace " +:+ tuple_repr key) else
    match get_or_create_nest nested (key_parent key) false with
    | None => err pos "Cannot overwrite a value"
    | Some (nest, put) =>
        if Table.contains_key nest (key_stem key)
        then err pos ("Duplicate inline table key " +:+ py_repr (key_stem key)) else
        let nested := put (Table.insert nest (key_stem key) value) in
        let pos := skip pos is_ws in
        if at_is pos "}" then Ok (S pos, TTable nested)
        else if at_is pos "," then
          let flags := if is_container value then Flags.set flags key FROZEN true else flags in
          inline_pairs f (skip (S pos) is_ws) nested flags
        else err pos "Unclosed inline table"
    end
end.
Definition parse_inline_table (pos : nat) : R (nat * TValue) :=
let pos := skip (S pos) is_ws in
if starts_with pos "}" then Ok (S pos, TTable []) else inline_pairs fuel pos [] flags_default.
End containers.

(** *** Values: the depth of the nesting is what bounds the recursion *)

Fixpoint parse_value (depth : nat) (pos : nat) : R (nat * TValue) :=
match depth with
| O => Err Exhausted
| S depth =>
    if at_sat pos (N.eqb 34) then
      if starts_with pos dq3 then parse_multiline_str pos false
      else '(pos, text) ← parse_basic_str (S pos) false; Ok (pos, TString text)
    else if at_is pos "'" then
      if starts_with pos "'''" then parse_multiline_str pos true
      else '(pos, text) ← parse_literal_str pos; Ok (pos, TString text)
    else if at_is pos "t" && starts_with pos "true" then Ok ((pos + 4)%nat, TBoolean true)
    else if at_is pos "f" && starts_with pos "false" then Ok ((pos + 5)%nat, TBoolean false)
    else if at_is pos "[" then parse_array (parse_value depth) pos
    else if at_is pos "{" then parse_inline_table (parse_value depth) pos
    else parse_scalar pos
end.

(** *** The document *)

Definition create_dict_rule (pos : nat) (data : Table) (flags : Flags) : R (nat * Key * Table * Flags) :=
'(pos, key) ← parse_key (skip (S pos) is_ws);
if Flags.is_ flags key EXPLICIT_NEST || Flags.is_ flags key FROZEN
then err pos ("Cannot declare " +:+ tuple_repr key +:+ " twice") else
let flags := Flags.set flags key EXPLICIT_NEST false in
match get_or_create_nest data key true with
| None => err pos "Cannot overwrite a value"
| Some (nest, put) =>
    if negb (starts_with pos "]") then err pos "Expected ']' at the end of a table declaration"
    else Ok (S pos, key, put nest, flags)
end.

Definition create_list_rule (pos : nat) (data : Table) (flags : Flags) : R (nat * Key * Table * Flags) :=
'(pos, key) ← parse_key (skip (pos + 2) is_ws);
if Flags.is_ flags key FROZEN
then err pos ("Cannot mutate immutable namespace " +:+ tuple_repr key) else
let flags := Flags.set (Flags.unset_all flags key) key EXPLICIT_NEST false in
match append_nest_to_list data key with
| None => err pos "Cannot overwrite a value"
| Some data =>
    if negb (starts_with pos "]]") then err pos "Expected ']]' at the end of an array declaration"
    else Ok ((pos + 2)%nat, key, data, flags)
end.

(** The namespaces a dotted key opens: [i] of its parts under the header, for [i] in [1..key.len()]. *)
Fixpoint open_namespaces (pos : nat) (header : Key) (prefixes : list Key) (flags : Flags) : R Flags :=
match prefixes with
| [] => Ok flags
| p :: rest =>
    let cont_key := header ++ p in
    if Flags.is_ flags cont_key EXPLICIT_NEST
    then err pos ("Cannot redefine namespace " +:+ tuple_repr cont_key)
    else open_namespaces pos header rest (Flags.add_pending flags cont_key EXPLICIT_NEST)
end.

Definition key_value_rule (pos : nat) (data : Table) (flags : Flags) (header : Key) : R (nat * Table * Flags) :=
'(pos, key, value) ← parse_key_value_pair (parse_value fuel) pos;
let abs_key_parent := header ++ key_parent key in
flags ← open_namespaces pos header (map (fun i => take i key) (seq 1 (length key - 1))) flags;
if Flags.is_ flags abs_key_parent FROZEN
then err pos ("Cannot mutate immutable namespace " +:+ tuple_repr abs_key_parent) else
match get_or_create_nest data abs_key_parent true with
| None => err pos "Cannot overwrite a value"
| Some (nest, put) =>
    if Table.contains_key nest (key_stem key) then err pos "Cannot overwrite a value" else
    let flags := if is_container value then Flags.set flags (header ++ key) FROZEN true else flags in
    Ok (pos, put (Table.insert nest (key_stem key) value), flags)
end.

(** One statement: where it ends, and the document so far. *)
Definition statement (pos : nat) (c : char) (data : Table) (flags : Flags) (header : Key)
: R (nat * Table * Flags * Key) :=
if is_bare_key_char c || (c =? 34)%N || (c =? 39)%N then
  '(pos, data, flags) ← key_value_rule pos data flags header;
  Ok (skip pos is_ws, data, flags, header)
else if (c =? ch "[")%N then
  let flags := Flags.finalize_pending flags in
  '(pos, header, data, flags) ←
    (if at_is (S pos) "[" then create_list_rule pos data flags else create_dict_rule pos data flags);
  Ok (skip pos is_ws, data, flags, header)
else if negb (c =? ch "#")%N then err pos "Invalid statement"
else Ok (pos, data, flags, header).

Fixpoint document (f : nat) (pos : nat) (data : Table) (flags : Flags) (header : Key) : R Table :=
match f with
| O => Err Exhausted
| S f =>
    let pos := skip pos is_ws in
    match at_ pos with
    | None => Ok data
    | Some c =>
        if newline_c c then document f (S pos) data flags header else
        '(pos, data, flags, header) ← statement pos c data flags header;
        pos ← skip_comment pos;
        match at_ pos with
        | None => Ok data
        | Some c =>
            if negb (newline_c c) then err pos "Expected newline or end of document after a statement"
            else document f (S pos) data flags header
        end
    end
end.
End parser.

Definition loads `{FloatParse} (text : string) : R Table :=
let src := crlf (chars text) in
document src (fuel src) 0 [] flags_default [].
End Parser.
