(* ===== verification/TomlFacts.v ===== *)
(** * The TOML reader: it always answers, with well-formed tables and exact integers

    Every loop of the parser moves forward, so the fuel its length gives is enough: [loads] returns a
    table or a [DecodeError], never [Exhausted]. An integer of any size is the number its digits say. *)

From S2P Require Import Prelude Utf8 Numeric Json JsonFacts PyText TextFacts Toml.

(** ** Unbounded integers as decimal text

    [to_decimal] of [installer_core/src/toml.rs] converts a literal's digits with limbs in base 10^9:
    the text it gives is the decimal text of the literal's value, whatever its size. *)

Section decimal.
#[local] Open Scope N_scope.

(** ** Decimal text, digit by digit *)

Lemma radix_acc r fuel : forall n acc, radix_digits fuel r n acc = radix_digits fuel r n EmptyString +:+ acc.
Proof.
  induction fuel as [|fuel IH]; intros n acc; [done|]. cbn [radix_digits]. destruct (n <? r); [done|].
  rewrite IH, (IH _ (String _ EmptyString)), app_assoc_s. done.
Qed.

Lemma radix_more r : 2 <= r -> forall fuel fuel' n acc, n < r ^ N.of_nat fuel -> (fuel <= fuel')%nat -> (0 < fuel)%nat ->
  radix_digits fuel' r n acc = radix_digits fuel r n acc.
Proof.
  intros Hr. induction fuel as [|fuel IH]; intros fuel' n acc Hn Hle Hpos; [lia|]. destruct fuel' as [|fuel']; [lia|].
  cbn [radix_digits]. destruct (n <? r) eqn:Hs; [done|]. apply N.ltb_ge in Hs.
  destruct fuel as [|fuel]; [rewrite N.pow_1_r in Hn; lia|]. apply IH; [|lia..].
  apply N.Div0.div_lt_upper_bound. by rewrite <-N.pow_succ_r', <-Nat2N.inj_succ.
Qed.

Lemma radix_fuel_r r n : 2 <= r -> n < r ^ N.of_nat (S (N.to_nat (N.log2 n))).
Proof.
  intros Hr. eapply N.lt_le_trans; [apply radix_fuel|]. apply N.pow_le_mono_l. done.
Qed.

Lemma fmt_N_step n : 10 <= n -> fmt_N n = fmt_N (n / 10) +:+ String (digit (n mod 10)) EmptyString.
Proof.
  intros Hn. unfold fmt_N at 1, fmt_radix. cbn [radix_digits]. rewrite (proj2 (N.ltb_ge _ _)) by done.
  rewrite radix_acc. f_equal. unfold fmt_N, fmt_radix. apply radix_more; [done|by apply radix_fuel_r| |lia].
  assert (Hlog : N.log2 (n / 10) < N.log2 n); [|lia].
  eapply N.le_lt_trans; [apply (N.log2_le_mono _ (n / 2))|].
  - apply N.div_le_compat_l. lia.
  - rewrite <-N.div2_div. assert (n <> 0) by lia. pose proof (N.log2_pos n ltac:(lia)).
    rewrite (N.div2_spec n), N.log2_shiftr. lia.
Qed.

Lemma fmt_N_small n : n < 10 -> fmt_N n = String (digit n) EmptyString.
Proof.
  intros Hn. unfold fmt_N, fmt_radix. cbn [radix_digits]. rewrite (proj2 (N.ltb_lt _ _)) by done. by rewrite N.mod_small.
Qed.

Lemma fmt_N_length n k : n < 10 ^ N.of_nat (S k) -> (String.length (fmt_N n) <= S k)%nat.
Proof.
  revert n. induction k as [|k IH]; intros n Hn.
  - rewrite N.pow_1_r in Hn. by rewrite fmt_N_small.
  - destruct (N.lt_ge_cases n 10) as [Hs|Hs]; [rewrite fmt_N_small by done; simpl; lia|].
    rewrite fmt_N_step, length_app_s by done. simpl. assert (Hq : n / 10 < 10 ^ N.of_nat (S k)); [|apply IH in Hq; lia].
    apply N.Div0.div_lt_upper_bound. by rewrite <-N.pow_succ_r', <-Nat2N.inj_succ.
Qed.

Lemma str_repeat_snoc n c : str_repeat (S n) (String c EmptyString) = str_repeat n (String c EmptyString) +:+ String c EmptyString.
Proof.
  set (t := String c EmptyString). induction n as [|n IH]; [done|].
  transitivity (t +:+ (str_repeat n t +:+ t)); [by rewrite <-IH|]. by rewrite <-app_assoc_s.
Qed.

Lemma pad0_step k b : (0 < k)%nat -> b < 10 ^ N.of_nat (S k) ->
  pad0 (S k) (fmt_N b) = pad0 k (fmt_N (b / 10)) +:+ String (digit (b mod 10)) EmptyString.
Proof.
  intros Hk Hb. unfold pad0. destruct (N.lt_ge_cases b 10) as [Hs|Hs].
  - rewrite fmt_N_small, N.div_small, N.mod_small by done. change (fmt_N 0) with "0". simpl String.length.
    replace (S k - 1)%nat with (S (k - 1)) by lia. by rewrite str_repeat_snoc.
  - rewrite (fmt_N_step b), length_app_s by done. simpl String.length.
    replace (S k - (String.length (fmt_N (b / 10)) + 1))%nat with (k - String.length (fmt_N (b / 10)))%nat by lia.
    by rewrite app_assoc_s.
Qed.

(** A number is its high part's text followed by the low part's, padded. *)
Lemma fmt_N_split k : forall a b, 0 < a -> b < 10 ^ N.of_nat (S k) ->
  fmt_N (a * 10 ^ N.of_nat (S k) + b) = fmt_N a +:+ pad0 (S k) (fmt_N b).
Proof.
  induction k as [|k IH]; intros a b Ha Hb.
  - rewrite N.pow_1_r in *. rewrite fmt_N_step by lia.
    replace ((a * 10 + b) / 10) with a by lia. replace ((a * 10 + b) mod 10) with b by lia.
    unfold pad0. by rewrite (fmt_N_small b).
  - rewrite fmt_N_step.
    2:{ rewrite Nat2N.inj_succ, N.pow_succ_r'. assert (1 <= 10 ^ N.of_nat (S k)) by (apply N.neq_0_le_1, N.pow_nonzero; lia). nia. }
    rewrite pad0_step by (done || lia). rewrite <-app_assoc_s, <-IH; [|done|].
    + rewrite (Nat2N.inj_succ (S k)), N.pow_succ_r'. set (p := 10 ^ N.of_nat (S k)). f_equal; [f_equal|f_equal].
      * rewrite (N.mul_comm 10 p), N.mul_assoc, N.div_add_l by lia. done.
      * rewrite (N.mul_comm 10 p), N.mul_assoc, N.add_comm, N.Div0.mod_add. done.
    + apply N.Div0.div_lt_upper_bound. by rewrite <-N.pow_succ_r', <-Nat2N.inj_succ.
Qed.

(** ** Limbs *)

Definition B : N := 1000000000.
Fixpoint limbs_value (l : list N) : N := match l with [] => 0 | x :: l' => x + B * limbs_value l' end.
Definition small (l : list N) : Prop := Forall (fun x => x < B) l.

Lemma limbs_value_app l k : limbs_value (l ++ k) = limbs_value l + B ^ N.of_nat (length l) * limbs_value k.
Proof.
  induction l as [|x l IH]; [simpl; lia|]. cbn [app limbs_value length]. rewrite IH, Nat2N.inj_succ, N.pow_succ_r'. lia.
Qed.

Lemma push_limbs_value r l : forall c l' c', push_limbs r c l = (l', c') ->
  limbs_value l' + B ^ N.of_nat (length l) * c' = limbs_value l * r + c /\ small l' /\ length l' = length l.
Proof.
  induction l as [|x l IH]; intros c l' c'; cbn [push_limbs].
  - intros [= <- <-]. split; [simpl; lia|]. split; [constructor|done].
  - destruct (push_limbs r ((x * r + c) / 1000000000) l) as [m d] eqn:Hp. intros [= <- <-]. apply IH in Hp as (Hv & Hs & Hl).
    split; [|split; [constructor; [by apply N.mod_lt|done]|by simpl; rewrite Hl]].
    cbn [limbs_value length]. rewrite Nat2N.inj_succ, N.pow_succ_r'.
    pose proof (N.div_mod (x * r + c) B ltac:(done)) as Hd. fold B in *. nia.
Qed.

Lemma carry_limbs_value fuel : forall c, c < 2 ^ N.of_nat fuel -> (0 < fuel)%nat ->
  limbs_value (carry_limbs fuel c) = c /\ small (carry_limbs fuel c) /\
  (c <> 0 -> exists x, last (carry_limbs fuel c) = Some x /\ x <> 0) /\ (c = 0 -> carry_limbs fuel c = []).
Proof.
  induction fuel as [|fuel IH]; intros c Hc Hf; [lia|]. cbn [carry_limbs]. destruct (N.eqb_spec c 0) as [->|Hne].
  - repeat split; try constructor; done.
  - destruct (N.lt_ge_cases c B) as [Hs|Hs].
    + fold B. rewrite N.div_small, N.mod_small by done.
      assert (Hz : carry_limbs fuel 0 = []) by (by destruct fuel). rewrite Hz. simpl.
      split; [lia|]. split; [by constructor|]. split; [by exists c|done].
    + destruct fuel as [|fuel]; [simpl in Hc; unfold B in *; lia|].
      destruct (IH (c / B)) as (Hv & Hsm & Hlast & _); [|lia|].
      { apply N.Div0.div_lt_upper_bound. rewrite Nat2N.inj_succ, N.pow_succ_r' in Hc. unfold B in *. nia. }
      fold B. split; [cbn [limbs_value]; rewrite Hv; pose proof (N.div_mod c B ltac:(done)); lia|].
      split; [constructor; [by apply N.mod_lt|done]|]. split; [|done]. intros _.
      assert (Hq : c / B <> 0). { intros Hq. apply N.div_small_iff in Hq; [lia|done]. }
      destruct (Hlast Hq) as (x & Hx & Hxne). exists x. split; [|done].
      destruct (carry_limbs (S fuel) (c / B)); [done|]. exact Hx.
Qed.

(** The digits so far, least limb first: no superfluous limb on top. *)
Record limbs_of (l : list N) (v : N) : Prop := {
  lo_value : limbs_value l = v;
  lo_small : small l;
  lo_top : exists x, last l = Some x /\ (x <> 0 \/ length l = 1%nat);
}.

Lemma push_limbs_last r l : 1 <= r -> forall c l' x, push_limbs r c l = (l', 0) -> last l = Some x -> x <> 0 ->
  exists y, last l' = Some y /\ y <> 0.
Proof.
  intros Hr. induction l as [|z l IH]; intros c l' x; cbn [push_limbs]; [done|].
  destruct (push_limbs r ((z * r + c) / 1000000000) l) as [m d] eqn:Hp. intros [= <- ->] Hx Hne.
  destruct l as [|z' l].
  - injection Hx as ->. simpl in Hp. injection Hp as <- Hd. exists ((x * r + c) mod 1000000000). split; [done|].
    apply N.div_small_iff in Hd; [|done]. rewrite N.mod_small by done. nia.
  - apply (IH _ _ x) in Hp as (y & Hy & Hyne); [|exact Hx|done]. exists y. split; [|done].
    destruct m; [done|]. exact Hy.
Qed.

Lemma push_digit_value r l v d : 1 <= r -> limbs_of l v -> limbs_of (push_digit r l d) (v * r + d).
Proof.
  intros Hr [Hv Hs (x & Hx & Htop)]. unfold push_digit. destruct (push_limbs r d l) as [m c] eqn:Hp.
  pose proof (push_limbs_value _ _ _ _ _ Hp) as (Hpv & Hps & Hpl).
  destruct (carry_limbs_value (S (N.to_nat (N.log2 c))) c) as (Hcv & Hcs & Hcl & Hcz); [apply radix_fuel|lia|].
  set (k := carry_limbs _ c) in *. constructor.
  - rewrite limbs_value_app, Hcv, Hpl, <-Hv. exact Hpv.
  - by apply Forall_app_2.
  - destruct (N.eq_dec c 0) as [->|Hc].
    + rewrite (Hcz eq_refl), app_nil_r. destruct Htop as [Hne|H1].
      * destruct (push_limbs_last r l Hr _ _ _ Hp Hx Hne) as (y & Hy & Hyne). exists y. auto.
      * rewrite <-Hpl in H1. destruct m as [|y [|]]; try done. exists y. auto.
    + destruct (Hcl Hc) as (y & Hy & Hyne). exists y. split; [|by left]. by rewrite last_app, Hy.
Qed.

(** ** Rendering *)

Definition low_text (l : list N) : string := join EmptyString (map (fun limb => pad0 9 (fmt_N limb)) (rev l)).


Lemma render_limbs low : small low -> forall top, top <> 0 ->
  fmt_N top +:+ low_text low = fmt_N (limbs_value (low ++ [top])).
Proof.
  induction low as [|x low IH]; intros Hs top Hne.
  - unfold low_text. simpl. rewrite app_nil_r_s. f_equal. lia.
  - inversion_clear Hs as [|? ? Hx Hlow]. unfold low_text. cbn [rev]. rewrite map_app, join_app_nil, <-app_assoc_s.
    fold (low_text low). rewrite IH by done. cbn [app limbs_value map join].
    rewrite (N.add_comm x), (N.mul_comm B). change B with (10 ^ N.of_nat 9). rewrite fmt_N_split; [done| |exact Hx].
    rewrite limbs_value_app. cbn [limbs_value]. assert (B ^ N.of_nat (length low) <> 0) by (by apply N.pow_nonzero). nia.
Qed.

Lemma digits_fold r s : 1 <= r -> forall l v w, limbs_of l v -> val_from r v s = Some w ->
  limbs_of (fold_left (push_digit r) (map (fun c => default 0 (digit_val r c)) (String.list_ascii_of_string s)) l) w.
Proof.
  intros Hr. induction s as [|a s IH]; intros l v w Hl; cbn [val_from String.list_ascii_of_string map fold_left].
  - by intros [= <-].
  - destruct (digit_val r a) as [d|]; [|done]. intros Hw. apply (IH _ (v * r + d)); [by apply push_digit_value|done].
Qed.

(** The long multiplication of the TOML reader is exact: for the digits of a hexadecimal, octal or
    binary literal of any length, [to_decimal] writes the decimal text of their value, so what is kept
    of the integer, and what [to_i64] reads back when it fits, is the literal's number. *)
Theorem to_decimal_exact (digits : string) (radix value : N)
  (Hr : 1 <= radix) (Hv : val_from radix 0 digits = Some value) :
  to_decimal digits radix = fmt_N value /\
  ((Z.of_N value <= i64_max)%Z -> PyInt.to_i64 (to_decimal digits radix) = Some (Z.of_N value)).
Proof.
  assert (Hd : to_decimal digits radix = fmt_N value).
  { assert (H0 : limbs_of [0] 0) by (constructor; [done|by repeat constructor|exists 0; auto]).
    pose proof (digits_fold radix digits Hr _ _ _ H0 Hv) as [Hval Hs (top & Htop & Hne)]. unfold to_decimal.
    set (limbs := fold_left _ _ _) in *. apply last_Some in Htop as [low Hlow]. rewrite Hlow in *.
    rewrite rev_app_distr. cbn [rev app]. apply Forall_app in Hs as [Hs _]. fold (low_text low).
    destruct (N.eq_dec top 0) as [->|Ht]; [|by rewrite render_limbs, Hval].
    destruct Hne as [Hne|Hlen]; [done|]. rewrite length_app in Hlen. simpl in Hlen.
    destruct low; [|simpl in Hlen; lia]. simpl in Hval. by subst value. }
  split; [exact Hd|]. intros Hle. rewrite Hd. unfold PyInt.to_i64, parse_i64.
  replace (fmt_N value) with (fmt_Z (Z.of_N value)).
  - apply parse_int_fmt. unfold i64_min, i64_max in *. lia.
  - unfold fmt_Z. rewrite (proj2 (Z.ltb_ge _ _)) by lia. by rewrite N2Z.id.
Qed.

Lemma to_decimal_exact_witness :
  PyInt.parse_literal "0x1_0000_0000_0000_0000" = "18446744073709551616" /\
  to_decimal "10000000000000000" 16 = fmt_N (2 ^ 64).
Proof.
  split; [vm_compute; reflexivity|].
  apply (to_decimal_exact "10000000000000000" 16 (2 ^ 64)); [lia|vm_compute; reflexivity].
Defined.

End decimal.

Import Toml.Parser.

(** ** Progress *)

Ltac ends_lia := cbv beta; simpl; intros; lia.

Section progress.
Context {FP : FloatParse} (src : list char).

(** A result that is not out of fuel and, when it is a value, is at a position that satisfies [P]. *)
Definition ends {A} (P : A -> Prop) (r : R A) : Prop :=
  match r with Ok a => P a | Err Exhausted => False | Err (DecodeError _) => True end.

Lemma ends_err {A} (P : A -> Prop) pos m : ends P (err src pos m).
Proof. done. Qed.

Lemma ends_bind {A B} (P : B -> Prop) (r : R A) (f : A -> R B) :
  ends (fun a => ends P (f a)) r -> ends P (r ≫= f).
Proof. destruct r as [a|[m|]]; [done..|done]. Qed.

Lemma ends_mono {A} (P Q : A -> Prop) (r : R A) : ends P r -> (forall a, P a -> Q a) -> ends Q r.
Proof. destruct r as [a|[m|]]; simpl; auto. Qed.

Lemma at_lt pos c : at_ src pos = Some c -> pos < length src.
Proof. apply lookup_lt_Some. Qed.
Lemma at_is_lt pos c : at_is src pos c = true -> pos < length src.
Proof. intros H%bool_decide_eq_true. by eapply at_lt. Qed.
Lemma at_sat_lt pos p : at_sat src pos p = true -> pos < length src.
Proof. unfold at_sat. destruct (at_ src pos) eqn:H; [by apply at_lt in H|done]. Qed.

Lemma skip_le pos p : pos <= skip src pos p.
Proof. unfold skip. lia. Qed.

Lemma find_in_le needle l : forall pos p, find_in needle l pos = Some p -> pos <= p.
Proof.
  induction l as [|c l IH]; intros pos p; cbn [find_in]; (destruct (prefix_of needle _); [by intros [= <-]|]); [done|].
  intros Hp%IH. lia.
Qed.

Lemma ends_skip_until pos expect eo eof (Hp : pos <= length src) :
  ends (fun p => pos <= p) (skip_until src pos expect eo eof).
Proof.
  unfold skip_until. apply ends_bind.
  assert (Hf : ends (fun p => pos <= p) (match find src pos expect with Some found => Ok found
    | None => if eof then err src (length src) ("Expected " +:+ py_repr expect) else Ok (length src) end)).
  { unfold find. destruct (length src <? pos) eqn:Hl; [apply Nat.ltb_lt in Hl; lia|].
    destruct (find_in _ _ pos) as [p|] eqn:Hfi; [by apply find_in_le in Hfi|]. by destruct eof. }
  eapply ends_mono; [exact Hf|]. intros p Hle. destruct (_ <? _); [apply ends_err|exact Hle].
Qed.

Lemma ends_skip_comment pos : ends (fun p => pos <= p) (skip_comment src pos).
Proof.
  unfold skip_comment. destruct (at_is src pos "#"%char) eqn:H; [|ends_lia]. apply at_is_lt in H.
  eapply ends_mono; [by apply ends_skip_until|]. ends_lia.
Qed.

Lemma count_while_le p l : count_while p l <= length l.
Proof. induction l as [|c l IH]; simpl; [lia|]. destruct (p c); lia. Qed.
Lemma skip_bound pos p : pos <= length src -> skip src pos p <= length src.
Proof. intros Hp. unfold skip. pose proof (count_while_le p (drop pos src)). rewrite length_drop in *. lia. Qed.

Lemma skip_past pos p : length src <= pos -> skip src pos p = pos.
Proof. intros Hp. unfold skip. rewrite drop_ge by lia. ends_lia. Qed.

Lemma at_none pos : length src <= pos -> at_ src pos = None.
Proof. apply lookup_ge_None. Qed.

Lemma ends_comments f : forall pos, length src - pos < f ->
  ends (fun p => pos <= p) (skip_comments_and_array_ws src f pos).
Proof.
  induction f as [|f IH]; intros pos Hf; [lia|]. cbn [skip_comments_and_array_ws]. apply ends_bind.
  pose proof (skip_le pos is_ws_or_newline) as Hs. destruct (decide (length src <= pos)) as [Hge|Hlt].
  { rewrite skip_past by done. unfold skip_comment, at_is. rewrite at_none by done. simpl.
    rewrite Nat.eqb_refl. ends_lia. }
  eapply ends_mono; [apply ends_skip_comment|]. intros next Hnext. simpl in Hnext.
  destruct (Nat.eqb_spec next pos) as [->|Hne]; [ends_lia|]. eapply ends_mono; [apply IH; lia|]. ends_lia.
Qed.

Lemma ends_comments_fuel pos : ends (fun p => pos <= p) (skip_comments_and_array_ws src (fuel src) pos).
Proof. apply ends_comments. unfold fuel. lia. Qed.

(** *** Strings and keys *)

Lemma ends_hex pos n : ends (fun ps => pos <= ps.1) (parse_hex_char src pos n).
Proof. unfold parse_hex_char. destruct (_ || _); [apply ends_err|]. destruct (scalar _); [ends_lia|apply ends_err]. Qed.

Lemma ends_escape pos multiline : ends (fun ps => pos < ps.1) (parse_basic_str_escape src pos multiline).
Proof.
  unfold parse_basic_str_escape, unescaped. cbv zeta. pose proof (skip_le (pos + 2) is_ws_or_newline).
  pose proof (skip_le (pos + 2) is_ws). pose proof (skip_le (S (skip src (pos + 2) is_ws)) is_ws_or_newline).
  destruct (multiline && _).
  - destruct (negb _); [|ends_lia]. destruct (at_ src _) as [c|]; [|ends_lia]. destruct (newline_c c); [ends_lia|apply ends_err].
  - destruct (bool_decide _); [eapply ends_mono; [apply ends_hex|ends_lia]|].
    destruct (bool_decide _); [eapply ends_mono; [apply ends_hex|ends_lia]|].
    repeat (destruct (bool_decide _); [ends_lia|]). apply ends_err.
Qed.

Lemma ends_basic f : forall multiline start pos res, length src - pos < f ->
  ends (fun ps => pos < ps.1) (basic_str src f multiline start pos res).
Proof.
  induction f as [|f IH]; intros multiline start pos res Hf; [lia|]. cbn [basic_str].
  destruct (at_ src pos) as [c|] eqn:Hc; [|apply ends_err]. apply at_lt in Hc.
  destruct (c =? 34)%N.
  - destruct (negb multiline); [ends_lia|]. destruct (starts_with src pos _); [ends_lia|].
    eapply ends_mono; [apply IH; lia|]. ends_lia.
  - destruct (c =? _)%N.
    + apply ends_bind. eapply ends_mono; [apply ends_escape|]. intros [pos' escaped] Hp. simpl in Hp.
      eapply ends_mono; [apply IH; lia|]. ends_lia.
    + destruct (if multiline then _ else _); [apply ends_err|]. eapply ends_mono; [apply IH; lia|]. ends_lia.
Qed.

Lemma ends_basic_str pos multiline : ends (fun ps => pos < ps.1) (parse_basic_str src pos multiline).
Proof. apply ends_basic. unfold fuel. lia. Qed.

Lemma ends_literal pos : pos < length src -> ends (fun ps => pos < ps.1) (parse_literal_str src pos).
Proof.
  intros Hp. apply ends_bind. eapply ends_mono; [apply ends_skip_until; lia|]. ends_lia.
Qed.

Lemma ends_multiline pos literal : pos + 3 <= length src -> ends (fun pv => pos < pv.1) (parse_multiline_str src pos literal).
Proof.
  intros Hp. unfold parse_multiline_str. cbv zeta.
  set (start := if starts_with src (pos + 3) nl then S (pos + 3) else pos + 3).
  assert (Hs : pos < start) by (subst start; destruct (starts_with _ _ _); lia).
  apply ends_bind. apply ends_mono with (P := fun '(_, p, _) => pos < p).
  2:{ intros [[delim p] res] Hp'. destruct (negb _); [ends_lia|]. destruct (negb _); simpl; lia. }
  destruct literal.
  - apply ends_bind. assert (Hstart : start <= length src).
    { subst start. destruct (starts_with src (pos + 3) nl) eqn:Hn; [|lia].
      unfold starts_with in Hn. destruct (drop (pos + 3) src) as [|c l] eqn:Hd; [done|].
      assert (length (drop (pos + 3) src) = S (length l)) as Hl by (by rewrite Hd). rewrite length_drop in Hl. lia. }
    eapply ends_mono; [by apply ends_skip_until|]. ends_lia.
  - apply ends_bind. eapply ends_mono; [apply ends_basic_str|]. intros [p res]. ends_lia.
Qed.

Lemma count_while_pos p c l : p c = true -> 0 < count_while p (c :: l).
Proof. simpl. intros ->. lia. Qed.
Lemma skip_lt pos p c : at_ src pos = Some c -> p c = true -> pos < skip src pos p.
Proof.
  intros Hc Hp. unfold skip. unfold at_ in Hc. rewrite (drop_S _ c) by done. pose proof (count_while_pos p c (drop (S pos) src) Hp).
  lia.
Qed.

Lemma ends_key_part pos : ends (fun ps => pos < ps.1) (parse_key_part src pos).
Proof.
  unfold parse_key_part. destruct (at_ src pos) as [c|] eqn:Hc; [|apply ends_err].
  destruct (is_bare_key_char c) eqn:Hb; [simpl; by eapply skip_lt|]. pose proof (at_lt _ _ Hc).
  destruct (c =? 39)%N; [by apply ends_literal|]. destruct (c =? 34)%N; [|apply ends_err].
  eapply ends_mono; [apply ends_basic_str|]. ends_lia.
Qed.

Lemma ends_key_parts f : forall pos key, length src - pos < f ->
  ends (fun pk => pos <= pk.1) (key_parts src f pos key).
Proof.
  induction f as [|f IH]; intros pos key Hf; [lia|]. cbn [key_parts].
  destruct (negb (at_is src pos "."%char)) eqn:Hd; [ends_lia|]. apply negb_false_iff, at_is_lt in Hd.
  apply ends_bind. eapply ends_mono; [apply ends_key_part|]. intros [p part] Hp. simpl in Hp.
  pose proof (skip_le (S pos) is_ws). pose proof (skip_le p is_ws).
  eapply ends_mono; [apply IH; lia|]. ends_lia.
Qed.

Lemma ends_key pos : ends (fun pk => pos < pk.1) (parse_key src pos).
Proof.
  apply ends_bind. eapply ends_mono; [apply ends_key_part|]. intros [p part] Hp. simpl in Hp.
  pose proof (skip_le p is_ws). eapply ends_mono; [apply ends_key_parts; unfold fuel; lia|]. ends_lia.
Qed.

(** *** Values *)

Lemma prefix_of_length needle : forall l, prefix_of needle l = true -> length needle <= length l.
Proof.
  induction needle as [|x needle IH]; intros l; simpl; [lia|]. destruct l as [|y l]; [done|].
  intros [_ H]%andb_prop. apply IH in H. simpl. lia.
Qed.

Lemma ends_scalar pos : ends (fun pv => pos < pv.1) (parse_scalar src pos).
Proof.
  unfold parse_scalar.
  assert (Hund : forall p q, p <= underscored src p q) by (intros; unfold underscored; lia).
  assert (Htime : forall p q, match_time src p = Some q -> p < q).
  { intros p q Hm. unfold match_time in Hm.
    repeat (apply bind_Some in Hm as (? & _ & Hm); destruct (_ || _) in Hm; [done|]).
    apply bind_Some in Hm as (? & _ & Hm). destruct (59 <? _)%N in Hm; [done|]. injection Hm as <-.
    pose proof (skip_le (S (p + 8)) ascii_digit). destruct (_ && _); lia. }
  destruct (match_datetime src pos) as [found|] eqn:Hd.
  { destruct (negb _); [apply ends_err|]. simpl. unfold match_datetime in Hd.
    apply bind_Some in Hd as (y & _ & Hd). destruct (negb _) in Hd; [done|].
    do 1 (apply bind_Some in Hd as (m & _ & Hd); destruct (_ || _) in Hd; [done|]).
    apply bind_Some in Hd as (d & _ & Hd). destruct (negb _) in Hd; [done|].
    destruct (negb _) in Hd; [injection Hd as <-; simpl; lia|].
    destruct (match_time src (S (pos + 10))) as [q|] eqn:Hq; [|injection Hd as <-; simpl; lia].
    apply Htime in Hq. injection Hd as <-. simpl. destruct (_ || _); [lia|]. destruct (_ && _); lia. }
  destruct (match_time src pos) as [q|] eqn:Ht; [by apply Htime in Ht|].
  destruct (match_number src pos) as [[q float]|] eqn:Hn.
  { simpl. assert (Hdec : forall q b, match_decimal src pos = Some (q, b) -> pos < q).
    { clear. intros q b Hm. unfold match_decimal in Hm. apply bind_Some in Hm as (q0 & Hq0 & Hm).
      assert (Hlt : pos < q0).
      { set (p0 := if at_is src pos "+"%char || at_is src pos "-"%char then S pos else pos) in *.
        assert (pos <= p0) by (subst p0; destruct (_ || _); lia). destruct (at_is src p0 _); [injection Hq0 as <-; lia|].
        destruct (at_sat src p0 _); [|done]. injection Hq0 as <-. unfold underscored. lia. }
      injection Hm as <- _. set (q1 := if at_is src q0 _ && _ then _ else q0).
      assert (q0 <= q1) by (subst q1; destruct (_ && _); unfold underscored; lia). clearbody q1.
      destruct (at_is src q1 "e"%char || at_is src q1 "E"%char); [|lia].
      set (e := if at_is src (S q1) _ || _ then _ else _).
      assert (q1 < e) by (subst e; destruct (at_is src (S q1) "+"%char || at_is src (S q1) "-"%char); lia). clearbody e. destruct (at_sat src e _); unfold underscored; lia. }
    unfold match_number in Hn. destruct (if at_is src pos _ then _ else _) as [d|]; [|by eapply Hdec].
    destruct (at_sat src _ d); [|by eapply Hdec]. injection Hn as <- _. unfold underscored. lia. }
  repeat (destruct (_ =?s _); [ends_lia|]). destruct (_ || _); [ends_lia|apply ends_err].
Qed.

Section containers.
Context (pv : nat -> R (nat * TValue)) (from : nat).
Hypothesis pv_ends : forall pos, from <= pos -> ends (fun v => pos < v.1) (pv pos).

Lemma ends_array_items f : forall pos array, from <= pos -> length src - pos < f ->
  ends (fun v => pos < v.1) (array_items src pv f pos array).
Proof using pv_ends.
  induction f as [|f IH]; intros pos array Hfrom Hf; [lia|]. cbn [array_items]. apply ends_bind.
  eapply ends_mono; [by apply pv_ends|]. intros [p value] Hp. simpl in Hp. apply ends_bind.
  eapply ends_mono; [apply ends_comments_fuel|]. intros q Hq. simpl in Hq.
  destruct (at_is src q _); [ends_lia|]. destruct (at_is src q ","%char) eqn:Hc; [|apply ends_err].
  apply at_is_lt in Hc. apply ends_bind. eapply ends_mono; [apply ends_comments_fuel|]. intros r Hr. simpl in Hr.
  destruct (starts_with src r _); [ends_lia|]. eapply ends_mono; [apply IH; lia|]. ends_lia.
Qed.

Lemma ends_array pos : from <= S pos -> ends (fun v => pos < v.1) (parse_array src pv pos).
Proof using pv_ends.
  intros Hfrom. apply ends_bind. eapply ends_mono; [apply ends_comments_fuel|]. intros p Hp. simpl in Hp.
  destruct (starts_with src p _); [ends_lia|].
  eapply ends_mono; [apply ends_array_items; unfold fuel; lia|]. ends_lia.
Qed.

Lemma ends_pair pos : from <= pos -> ends (fun v => pos < v.1.1) (parse_key_value_pair src pv pos).
Proof using pv_ends.
  intros Hfrom. apply ends_bind. eapply ends_mono; [apply ends_key|]. intros [p key] Hp. simpl in Hp.
  destruct (negb _); [apply ends_err|]. apply ends_bind. pose proof (skip_le (S p) is_ws).
  eapply ends_mono; [apply pv_ends; lia|]. intros [q value]. ends_lia.
Qed.

Lemma ends_inline_pairs f : forall pos nested flags, from <= pos -> length src - pos < f ->
  ends (fun v => pos < v.1) (inline_pairs src pv f pos nested flags).
Proof using pv_ends.
  induction f as [|f IH]; intros pos nested flags Hfrom Hf; [lia|]. cbn [inline_pairs]. apply ends_bind.
  eapply ends_mono; [by apply ends_pair|]. intros [[p key] value] Hp. simpl in Hp.
  destruct (Flags.is_ _ _ _); [apply ends_err|]. destruct (get_or_create_nest _ _ _) as [[nest put]|]; [|apply ends_err].
  destruct (Table.contains_key _ _); [apply ends_err|]. pose proof (skip_le p is_ws).
  destruct (at_is src _ "}"%char); [ends_lia|]. destruct (at_is src _ ","%char) eqn:Hc; [|apply ends_err].
  apply at_is_lt in Hc. pose proof (skip_le (S (skip src p is_ws)) is_ws).
  eapply ends_mono; [apply IH; lia|]. ends_lia.
Qed.

Lemma ends_inline pos : from <= S pos -> ends (fun v => pos < v.1) (parse_inline_table src pv pos).
Proof using pv_ends.
  intros Hfrom. unfold parse_inline_table. cbv zeta. pose proof (skip_le (S pos) is_ws).
  destruct (starts_with src _ _); [ends_lia|].
  eapply ends_mono; [apply ends_inline_pairs; unfold fuel; lia|]. ends_lia.
Qed.
End containers.

(** The depth that is left covers what is left of the document. *)
Lemma ends_value depth : forall pos, length src - pos < depth -> ends (fun v => pos < v.1) (parse_value src depth pos).
Proof.
  induction depth as [|depth IH]; intros pos Hd; [lia|]. cbn [parse_value].
  assert (Hpv : pos < length src -> forall q, S pos <= q -> ends (fun v => q < v.1) (parse_value src depth q)).
  { intros Hlt q Hq. apply IH. lia. }
  assert (Hthree : forall t, length (chars t) = 3 -> starts_with src pos t = true -> pos + 3 <= length src).
  { intros t Ht Hs. unfold starts_with in Hs. apply prefix_of_length in Hs. rewrite length_drop in Hs. lia. }
  destruct (at_sat src pos (N.eqb 34)) eqn:H1.
  { destruct (starts_with src pos dq3) eqn:H3; [apply ends_multiline; by apply (Hthree dq3)|]. apply ends_bind.
    eapply ends_mono; [apply ends_basic_str|]. intros [p text]. ends_lia. }
  destruct (at_is src pos "'"%char) eqn:H2.
  { destruct (starts_with src pos "'''") eqn:H3; [apply ends_multiline; by apply (Hthree "'''")|]. apply ends_bind.
    eapply ends_mono; [apply ends_literal; by eapply at_is_lt|]. intros [p text]. ends_lia. }
  destruct (_ && _); [ends_lia|]. destruct (_ && _); [ends_lia|].
  destruct (at_is src pos "["%char) eqn:H3; [apply at_is_lt in H3; by apply (ends_array _ (S pos)); [apply Hpv|]|].
  destruct (at_is src pos "{"%char) eqn:H4; [apply at_is_lt in H4; by apply (ends_inline _ (S pos)); [apply Hpv|]|].
  apply ends_scalar.
Qed.

(** *** Statements *)

Lemma ends_open pos header prefixes : forall flags, ends (fun _ => True) (open_namespaces src pos header prefixes flags).
Proof.
  induction prefixes as [|p l IH]; intros flags; [done|]. cbn [open_namespaces]. destruct (Flags.is_ _ _ _); [apply ends_err|apply IH].
Qed.

Lemma ends_statement pos c data flags header : at_ src pos = Some c ->
  ends (fun r => pos <= r.1.1.1) (statement src pos c data flags header).
Proof.
  intros Hc. unfold statement. destruct (_ || _).
  - apply ends_bind. apply ends_mono with (P := fun r => pos < r.1.1).
    + unfold key_value_rule. apply ends_bind. eapply ends_mono.
      { apply (ends_pair (parse_value src (fuel src)) 0); [|lia]. intros q _. apply ends_value. unfold fuel. lia. }
      intros [[p key] value] Hp. simpl in Hp. apply ends_bind. eapply ends_mono; [apply ends_open|]. intros fl _.
      destruct (Flags.is_ _ _ _); [apply ends_err|]. destruct (get_or_create_nest _ _ _) as [[nest put]|]; [|apply ends_err].
      destruct (Table.contains_key _ _); [apply ends_err|]. ends_lia.
    + intros [[p d] fl] Hp. simpl in *. pose proof (skip_le p is_ws). lia.
  - destruct (c =? _)%N.
    + apply ends_bind. apply ends_mono with (P := fun r => pos < r.1.1.1).
      * destruct (at_is src (S pos) _).
        -- unfold create_list_rule. apply ends_bind. pose proof (skip_le (pos + 2) is_ws).
           eapply ends_mono; [apply ends_key|]. intros [p key] Hp. simpl in Hp. destruct (Flags.is_ _ _ _); [apply ends_err|].
           destruct (append_nest_to_list _ _); [|apply ends_err]. destruct (negb _); [apply ends_err|ends_lia].
        -- unfold create_dict_rule. apply ends_bind. pose proof (skip_le (S pos) is_ws).
           eapply ends_mono; [apply ends_key|]. intros [p key] Hp. simpl in Hp. destruct (_ || _); [apply ends_err|].
           destruct (get_or_create_nest _ _ _) as [[nest put]|]; [|apply ends_err]. destruct (negb _); [apply ends_err|ends_lia].
      * intros [[[p key] d] fl] Hp. simpl in *. pose proof (skip_le p is_ws). lia.
    + destruct (negb _); [apply ends_err|ends_lia].
Qed.

Lemma ends_document f : forall pos data flags header, length src - pos < f ->
  ends (fun _ => True) (document src f pos data flags header).
Proof.
  induction f as [|f IH]; intros pos data flags header Hf; [lia|]. cbn [document]. cbv zeta.
  pose proof (skip_le pos is_ws) as Hs. destruct (at_ src (skip src pos is_ws)) as [c|] eqn:Hc; [|done].
  pose proof (at_lt _ _ Hc) as Hlt. destruct (newline_c c); [apply IH; lia|].
  apply ends_bind. eapply ends_mono; [by apply ends_statement|]. intros [[[p d] fl] h] Hp. simpl in Hp.
  apply ends_bind. eapply ends_mono; [apply ends_skip_comment|]. intros q Hq. simpl in Hq.
  destruct (at_ src q) as [c'|] eqn:Hc'; [|done]. apply at_lt in Hc'. destruct (negb _); [apply ends_err|]. apply IH. lia.
Qed.
End progress.

Lemma loads_ends {FP : FloatParse} (text : string) : loads text <> Err Exhausted.
Proof.
  pose proof (ends_document (crlf (chars text)) (fuel (crlf (chars text))) 0 [] flags_default []) as He.
  unfold loads. intros H. rewrite H in He. apply He. unfold fuel. lia.
Qed.

(** ** Properties *)

(** C34: the TOML reader terminates with an answer on every text: each of its loops moves forward and
    each nesting consumes a bracket, so with the fuel that [loads] takes from the document's length the
    result is always a table or a [DecodeError] with its position, never a bound of the model. *)
Theorem loads_answers {FP : FloatParse} (text : string) :
  (exists t, loads text = Ok t) \/ (exists m, loads text = Err (DecodeError m)).
Proof.
  pose proof (loads_ends text) as He. destruct (loads text) as [t|[m|]]; [by left; exists t|by right; exists m|done].
Qed.
