(* ===== verification/Config.v ===== *)
(** * The configuration file

    [installer_core/src/config.rs]: TOML to [InstallerConfig] with its validation, messages and order,
    the port reservation tables, and [render_config]. A table entry that was checked to be there and
    is not, and a lane slot beyond [u16], would be a panic: the error [Panic]. *)

From stdpp Require Import gmap.
From S2P Require Import Prelude BTree Utf8 Numeric Json PyText IpAddr Model Toml.

Inductive ConfigError := ConfigErr (message : string) | Panic.
Abbreviation CR := (result ConfigError).

Definition bad {A} (message : string) : CR A := Err (ConfigErr message).
Definition reject (b : bool) (message : string) : CR unit := if b then bad message else Ok tt.

(** ** Text *)

Definition is_lowercase (a : Ascii.ascii) : bool := let n := Ascii.N_of_ascii a in ((97 <=? n) && (n <=? 122))%N.
Definition is_uppercase (a : Ascii.ascii) : bool := let n := Ascii.N_of_ascii a in ((65 <=? n) && (n <=? 90))%N.
Definition hyphen (a : Ascii.ascii) : bool := Ascii.eqb a "-"%char.
Definition within (lo hi n : nat) : bool := ((lo <=? n) && (n <=? hi))%nat.
Definition z_within (lo hi z : Z) : bool := ((lo <=? z) && (z <=? hi))%Z.

Definition label_ok (label : string) : bool :=
  within 1 63 (String.length label)
  && forallb_s (fun a => is_lowercase a || is_digit a || hyphen a) label
  && negb (is_byte "-" (first_byte label)) && negb (is_byte "-" (last_byte label)).

Definition top_label_ok (label : string) : bool :=
  forallb_s is_lowercase label || (String.prefix "xn--" label && (4 <? String.length label)%nat).

Definition domain_shape_ok (text : string) : bool :=
  if negb (within 4 253 (char_len text)) || contains_s nl text then false else
  let labels := split_byte "."%char text in
  if (length labels <? 2)%nat then false else
  let top := List.last labels EmptyString in
  if negb (forallb label_ok (removelast labels)) || negb (label_ok top) then false else top_label_ok top.

Definition normalize_domain `{UnicodeText} (raw : string) : option string :=
  let normalized := trim_end_byte "."%char (lower (strip raw)) in
  if domain_shape_ok normalized then Some normalized else None.

Definition email_ok (text : string) : bool :=
  if existsb is_space (chars text) then false else
  match split_byte "@"%char text with
  | [local; host] =>
      let host := chars host in
      negb (str_empty local) && (3 <=? length host)%nat
      && existsb (N.eqb (ch ".")) (take (length host - 2) (drop 1 host))
  | _ => false
  end.

Definition safe_name (text : string) : bool :=
  within 1 64 (String.length text)
  && forallb_s (fun a => is_lowercase a || is_uppercase a || is_digit a || Ascii.eqb a "_"%char || hyphen a) text.

(** ** Values *)

Definition qualified (path key : string) : string := if str_empty path then key else path +:+ "." +:+ key.

Definition keys (t : Table) (path : string) (required optional : list string) : CR unit :=
  try_for (fun key => reject (negb (mem_str key required) && negb (mem_str key optional)) ("unknown key: " +:+ qualified path key))
          (Table.keys t) ≫= fun _ =>
  try_for (fun key => reject (negb (Table.contains_key t key)) ("missing key: " +:+ qualified path key)) (sort_str required).

(** A key the caller has already checked for presence. *)
Definition get (t : Table) (key : string) : CR TValue := Table.get t key or_err Panic.

Definition table (value : TValue) (path : string) : CR Table :=
  match value with TTable t => Ok t | _ => bad (path +:+ " must be a table") end.
Definition string_of (value : TValue) (path : string) : CR string :=
  match value with TString text => Ok text | _ => bad (path +:+ " must be a string") end.
Definition integer (value : TValue) (path : string) : CR string :=
  match value with TInteger digits => Ok digits | _ => bad (path +:+ " must be an integer") end.
Definition boolean (value : TValue) (path : string) : CR bool :=
  match value with TBoolean flag => Ok flag | _ => bad (path +:+ " must be a boolean") end.
Definition boolean_or_false (t : Table) (key path : string) : CR bool :=
  match Table.get t key with Some value => boolean value path | None => Ok false end.

Definition enumeration {T} (value : TValue) (all : list T) (name : T -> string) (path : string) : CR T :=
  raw ← string_of value path;
  find (fun item => name item =?s raw) all or_err ConfigErr ("invalid " +:+ path +:+ ": " +:+ raw).

Definition domain `{UnicodeText} (value : TValue) (path : string) : CR string :=
  raw ← string_of value path; normalize_domain raw or_err ConfigErr ("invalid domain: " +:+ path).
(** [raw.get(key).map(domain).transpose()]. *)
Definition opt_domain `{UnicodeText} (t : Table) (key path : string) : CR (option string) :=
  match Table.get t key with Some value => Some <$> domain value path | None => Ok None end.

(** [sort(); dedup()] of integers, and the test it serves. *)
Fixpoint insert_z (z : Z) (l : list Z) : list Z :=
  match l with [] => [z] | x :: l' => if (x <? z)%Z then x :: insert_z z l' else z :: l end.
Definition sort_z (l : list Z) : list Z := foldr insert_z [] l.
Fixpoint dedup_z (l : list Z) : list Z :=
  match l with
  | x :: l' => match l' with y :: _ => if (x =? y)%Z then dedup_z l' else x :: dedup_z l' | [] => [x] end
  | [] => []
  end.
Definition repeats_z (l : list Z) : bool := negb (length (dedup_z (sort_z l)) =? length l)%nat.
Definition repeats_s (l : list string) : bool := negb (length (dedup (sort_str l)) =? length l)%nat.

Definition PORT_MIN : Z := 1024.
Definition PORT_MAX : Z := 65535.

(** [number.to_i64().filter(1024..=65535)]. *)
Definition as_port (digits : string) : option Z :=
  n ← PyInt.to_i64 digits; if z_within PORT_MIN PORT_MAX n then Some n else None.

Definition ports (value : TValue) (path : string) : CR (list Z) :=
  match value with
  | TArray items =>
      result ← mapM (fun item => number ← integer item path;
                       as_port number or_err ConfigErr (path +:+ " contains invalid port: " +:+ number)) items;
      reject (repeats_z result) (path +:+ " must not contain duplicates") ≫= fun _ => Ok result
  | _ => bad (path +:+ " must be an array")
  end.

Definition port_in_range (value : option TValue) (dflt : Z) (path : string) : CR (option Z) :=
  number ← match value with Some value => integer value path | None => Ok (PyInt.from_i64 dflt) end;
  Ok (as_port number).

(** ** Sections *)

Section sections.
Context {UT : UnicodeText}.

Definition parse_domains (value : TValue) (profile : Profile) : CR DomainConfig :=
  raw ← table value "domains";
  reject (Profile.includes_naive profile && negb (Table.contains_key raw "naive"))
         ("domains.naive is required for profile " +:+ Profile.value profile) ≫= fun _ =>
  reject (Profile.includes_mieru profile && negb (Table.contains_key raw "mieru"))
         ("domains.mieru is required for profile " +:+ Profile.value profile) ≫= fun _ =>
  let required := ["panel"; "mtproxy"]
    ++ (if Profile.includes_naive profile then ["naive"] else [])
    ++ (if Profile.includes_mieru profile then ["mieru"] else []) in
  keys raw "domains" required ["subscription"; "mcp"; "trusttunnel"] ≫= fun _ =>
  let optional name := opt_domain raw name ("domains." +:+ name) in
  panel ← (get raw "panel" ≫= fun v => domain v "domains.panel");
  mtproxy ← (get raw "mtproxy" ≫= fun v => domain v "domains.mtproxy");
  naive ← optional "naive"; mieru ← optional "mieru"; subscription ← optional "subscription";
  mcp ← optional "mcp"; trusttunnel ← optional "trusttunnel";
  Ok {| d_panel := panel; d_mtproxy := mtproxy; d_naive := naive; d_mieru := mieru;
        d_subscription := subscription; d_mcp := mcp; d_trusttunnel := trusttunnel |}.

(** [(1..=slots).map(lane_slot_port)]. *)
Definition slots_ports (slots : Z) : CR (list Z) :=
  mapM (fun i => lane_slot_port (Z.of_nat i) or_err Panic) (seq 1 (Z.to_nat slots)).

(** The section with [lane_slots] still unresolved. *)
Definition parse_mieru (value : option TValue) (profile : Profile) : CR (option (MieruConfig * option Z)) :=
  if negb (Profile.includes_mieru profile) then
    match value with Some _ => bad "unknown key: mieru" | None => Ok None end
  else
    value ← value or_err ConfigErr ("mieru section is required for profile " +:+ Profile.value profile);
    raw ← table value "mieru";
    keys raw "mieru" ["tcp_ports"; "udp_ports"] ["lane_slots"] ≫= fun _ =>
    tcp ← (get raw "tcp_ports" ≫= fun v => ports v "mieru.tcp_ports");
    udp ← (get raw "udp_ports" ≫= fun v => ports v "mieru.udp_ports");
    reject (match tcp, udp with [], [] => true | _, _ => false end) "mieru requires at least one TCP or UDP port" ≫= fun _ =>
    lane ← match Table.get raw "lane_slots" with
           | None => Ok None
           | Some value =>
               slots ← integer value "mieru.lane_slots";
               slots ← match PyInt.to_i64 slots with
                       | Some n => if z_within 0 MAX_LANE_SLOTS n then Ok n
                                   else bad ("mieru.lane_slots must be between 0 and " +:+ fmt_Z MAX_LANE_SLOTS)
                       | None => bad ("mieru.lane_slots must be between 0 and " +:+ fmt_Z MAX_LANE_SLOTS)
                       end;
               slot ← slots_ports slots;
               reject (existsb (fun port => existsb (Z.eqb port) tcp) slot)
                      "mieru.tcp_ports collide with the lane slot ports" ≫= fun _ =>
               Ok (Some slots)
           end;
    Ok (Some ({| tcp_ports := tcp; udp_ports := udp; lane_slots := 0 |}, lane)).

Definition parse_warp_domain (item : TValue) : CR string :=
  item ← string_of item "three_xui.warp_domains";
  match strip_prefix "geosite:" item with
  | Some selector =>
      reject (str_empty selector
              || negb (forallb_s (fun a => is_lowercase a || is_digit a || Ascii.eqb a "_"%char || hyphen a) selector))
             "invalid WARP geosite selector" ≫= fun _ => Ok item
  | None =>
      let name := default item (strip_prefix "domain:" item) in
      match normalize_domain name with Some _ => Ok item | None => bad "invalid domain: three_xui.warp_domains" end
  end.
Definition parse_warp_domains (value : TValue) : CR (list string) :=
  match value with
  | TArray items => result ← mapM parse_warp_domain items; Ok (dedup (sort_str result))
  | _ => bad "three_xui.warp_domains must be an array"
  end.

Definition XUI_DOMAINS : list string := ["panel_domain"; "vless_tcp_domain"; "vless_xhttp_domain"; "hysteria_domain"].

Definition parse_three_xui (value : TValue) (explicit_egress : bool) : CR ThreeXuiConfig :=
  raw ← table value "three_xui";
  mode_value ← Table.get raw "mode" or_err ConfigErr "missing key: three_xui.mode";
  mode ← enumeration mode_value ThreeXuiMode.ALL ThreeXuiMode.value "three_xui.mode";
  match mode with
  | XuiNone => keys raw "three_xui" ["mode"] ["warp"; "warp_port"]
  | Existing => keys raw "three_xui" ["mode"] (XUI_DOMAINS ++ ["warp"; "warp_port"])
  | ManagedNew =>
      keys raw "three_xui" (["mode"; "warp_domains"] ++ XUI_DOMAINS ++ (if explicit_egress then [] else ["warp"]))
           (["warp_port"; "subscription_domain"] ++ (if explicit_egress then ["warp"] else []))
  end ≫= fun _ =>
  let at_key name := opt_domain raw name ("three_xui." +:+ name) in
  panel ← at_key "panel_domain"; vless_tcp ← at_key "vless_tcp_domain";
  vless_xhttp ← at_key "vless_xhttp_domain"; hysteria ← at_key "hysteria_domain";
  warp ← boolean_or_false raw "warp" "three_xui.warp";
  warp_domains ← match Table.get raw "warp_domains" with Some value => parse_warp_domains value | None => Ok [] end;
  reject (negb warp && (match warp_domains with [] => false | _ => true end)
          && negb (explicit_egress && negb (Table.contains_key raw "warp")))
         "three_xui.warp_domains requires warp = true" ≫= fun _ =>
  warp_port ← port_in_range (Table.get raw "warp_port") 40000 "three_xui.warp_port";
  warp_port ← warp_port or_err ConfigErr "three_xui.warp_port must be between 1024 and 65535";
  subscription ← opt_domain raw "subscription_domain" "three_xui.subscription_domain";
  Ok {| x_mode := mode; x_panel_domain := panel; x_vless_tcp_domain := vless_tcp;
        x_vless_xhttp_domain := vless_xhttp; x_hysteria_domain := hysteria; x_warp := warp;
        x_warp_domains := warp_domains; x_warp_port := warp_port; x_subscription_domain := subscription |}.

(** One turn of the loop over the services' egress choices. *)
Definition parse_choice (raw : Table) (profile : Profile) (warp router : bool) (service : string) (present : bool)
  : CR EgressChoice :=
  match Table.get raw service with
  | None => Ok (if present then if warp then EgressWarp else EgressDirect else EgressDirect)
  | Some value =>
      reject (negb present) ("egress." +:+ service +:+ " is not part of profile " +:+ Profile.value profile) ≫= fun _ =>
      choice ← enumeration value EgressChoice.ALL EgressChoice.value ("egress." +:+ service);
      reject (bool_decide (choice = EgressWarp) && negb warp) ("egress." +:+ service +:+ " requires warp = true") ≫= fun _ =>
      reject (bool_decide (choice = EgressRouter) && negb router) ("egress." +:+ service +:+ " requires router = true") ≫= fun _ =>
      Ok choice
  end.

Definition parse_egress (value : option TValue) (three_xui : ThreeXuiConfig) (profile : Profile)
  (three_xui_raw : Table) (trusttunnel : bool) : CR (option EgressConfig) :=
  match value with
  | None => Ok None
  | Some value =>
      raw ← table value "egress";
      keys raw "egress" [] ["warp"; "warp_port"; "naive"; "mieru"; "router"; "relay_port"] ≫= fun _ =>
      warp ← boolean_or_false raw "warp" "egress.warp";
      router ← boolean_or_false raw "router" "egress.router";
      reject (router && negb (Profile.includes_naive profile || Profile.includes_mieru profile || trusttunnel))
             "egress.router requires NaiveProxy, Mieru or TrustTunnel (in the profile or [trusttunnel])" ≫= fun _ =>
      relay ← match Table.get raw "relay_port" with
              | Some value => integer value "egress.relay_port"
              | None => Ok (PyInt.from_i64 (if router then DEFAULT_RELAY_PORT else 0))
              end;
      let relay_number := PyInt.to_i64 relay in
      let zero := relay =?s "0" in
      reject (negb zero && negb router) "egress.relay_port requires router = true" ≫= fun _ =>
      reject (negb zero && negb (match relay_number with Some n => z_within PORT_MIN PORT_MAX n | None => false end))
             "egress.relay_port must be between 1024 and 65535" ≫= fun _ =>
      let relay_port := (default 0 relay_number mod 65536)%Z in
      reject (existsb (Z.eqb relay_port) [443; 80]%Z || existsb (fun p => (p.2 =? relay_port)%Z) ROUTER_PORTS)
             "egress.relay_port collides with a listener the host already runs" ≫= fun _ =>
      warp_port ← port_in_range (Table.get raw "warp_port") 40000 "egress.warp_port";
      warp_port ← warp_port or_err ConfigErr "egress.warp_port must be between 1024 and 65535";
      reject (Table.contains_key three_xui_raw "warp" && negb (Bool.eqb (x_warp three_xui) warp))
             "three_xui.warp disagrees with egress.warp" ≫= fun _ =>
      reject (Table.contains_key three_xui_raw "warp_port" && negb (x_warp_port three_xui =? warp_port)%Z)
             "three_xui.warp_port disagrees with egress.warp_port" ≫= fun _ =>
      reject ((match x_warp_domains three_xui with [] => false | _ => true end) && negb warp)
             "three_xui.warp_domains requires egress.warp = true" ≫= fun _ =>
      naive ← parse_choice raw profile warp router "naive" (Profile.includes_naive profile);
      mieru ← parse_choice raw profile warp router "mieru" (Profile.includes_mieru profile);
      Ok (Some {| e_warp := warp; e_warp_port := warp_port; e_naive := naive; e_mieru := mieru;
                  e_router := router; e_relay_port := relay_port |})
  end.
End sections.

Section more_sections.
Context {UT : UnicodeText}.

(** The port of ["127.0.0.1:<digits>"]. *)
Definition bridge_port_of (bridge : string) : option Z :=
  digits ← strip_prefix "127.0.0.1:" bridge;
  if within 1 5 (String.length digits) && forallb_s is_digit digits then
    port ← parse_u32 digits;
    if z_within PORT_MIN PORT_MAX port then Some port else None
  else None.

Definition parse_ingress (value : option TValue) : CR (option IngressConfig) :=
  match value with
  | None => Ok None
  | Some value =>
      raw ← table value "ingress";
      keys raw "ingress" ["proxy_protocol_bridge"] ["panel_tls_port"; "skip_renewal_dry_run"] ≫= fun _ =>
      bridge ← (get raw "proxy_protocol_bridge" ≫= fun v => string_of v "ingress.proxy_protocol_bridge");
      bridge_port ← bridge_port_of bridge or_err ConfigErr "ingress.proxy_protocol_bridge must be a loopback TCP endpoint";
      port ← port_in_range (Table.get raw "panel_tls_port") 8443 "ingress.panel_tls_port";
      panel_tls_port ← (p ← port; if negb (p =? bridge_port)%Z then Some p else None)
        or_err ConfigErr "ingress.panel_tls_port must be a distinct unprivileged TCP port";
      skip ← boolean_or_false raw "skip_renewal_dry_run" "ingress.skip_renewal_dry_run";
      Ok (Some {| i_proxy_protocol_bridge := Some bridge; i_panel_tls_port := panel_tls_port;
                  i_skip_renewal_dry_run := skip |})
  end.

(** A DNS name or an IPv4 address. *)
Definition awg_host (value : TValue) (path : string) : CR string :=
  raw ← string_of value path;
  let text := trim_end_byte "."%char (lower (strip raw)) in
  match ipv4_address text with
  | Ok address => Ok address
  | Err _ => if domain_shape_ok text then Ok text else bad (path +:+ " must be a DNS name or an IPv4 address")
  end.

(** The loop over the versions given. *)
Fixpoint parse_versions (items : list TValue) (versions : list string) : CR (list string) :=
  match items with
  | [] => Ok versions
  | item :: rest =>
      version ← string_of item "amneziawg.versions";
      reject (negb (mem_str version AWG_VERSIONS)) ("unknown amneziawg version: " +:+ version) ≫= fun _ =>
      reject (mem_str version versions) "amneziawg.versions must not contain duplicates" ≫= fun _ =>
      parse_versions rest (versions ++ [version])
  end.

Definition parse_awg_port (ports_raw : Table) (version : string) : CR Z :=
  match Table.get ports_raw version with
  | None => Ok 0%Z
  | Some value =>
      let path := "amneziawg.ports." +:+ version in
      port ← port_in_range (Some value) 0 path;
      port or_err ConfigErr (path +:+ " must be between 1024 and 65535")
  end.

Definition parse_dns (item : TValue) : CR string :=
  match (match item with
         | TString text => if contains_s "%" text then None else match ip_address text with Ok a => Some a | Err _ => None end
         | _ => None
         end) with
  | Some address => Ok address
  | None => bad "amneziawg.dns contains an invalid address"
  end.

Definition parse_amneziawg (value : option TValue) (domains : DomainConfig) : CR (option AmneziaWgConfig) :=
  match value with
  | None => Ok None
  | Some value =>
      raw ← table value "amneziawg";
      keys raw "amneziawg" [] ["enabled"; "versions"; "host"; "ports"; "mtu"; "dns"] ≫= fun _ =>
      enabled ← boolean_or_false raw "enabled" "amneziawg.enabled";
      if negb enabled then
        reject (existsb (fun key => negb (key =?s "enabled")) (Table.keys raw))
               "amneziawg settings are given while amneziawg.enabled is false" ≫= fun _ => Ok None
      else
        versions_raw ← match Table.get raw "versions" with
                       | Some (TArray ((_ :: _) as items)) => Ok items
                       | Some _ => bad "amneziawg.versions must be a non-empty array"
                       | None => Ok (map TString AWG_VERSIONS)
                       end;
        versions ← parse_versions versions_raw [];
        let selected := List.filter (fun v => mem_str v versions) AWG_VERSIONS in
        host ← match Table.get raw "host" with
               | Some value => awg_host value "amneziawg.host"
               | None => Ok (d_panel domains)
               end;
        ports_raw ← match Table.get raw "ports" with
                    | Some (TTable t) => Ok t
                    | Some _ => bad "amneziawg.ports must be a table"
                    | None => Ok []
                    end;
        try_for (fun version =>
          reject (negb (mem_str version AWG_VERSIONS)) ("unknown amneziawg version in amneziawg.ports: " +:+ version) ≫= fun _ =>
          reject (negb (mem_str version selected))
                 ("amneziawg.ports names version " +:+ version +:+ ", which is not enabled")) (Table.keys ports_raw) ≫= fun _ =>
        ports ← mapM (parse_awg_port ports_raw) selected;
        reject (repeats_z (List.filter (fun p => negb (p =? 0)%Z) ports)) "amneziawg.ports must be distinct" ≫= fun _ =>
        mtu ← match Table.get raw "mtu" with
              | Some value => integer value "amneziawg.mtu"
              | None => Ok (PyInt.from_i64 AWG_DEFAULT_MTU)
              end;
        mtu ← (n ← PyInt.to_i64 mtu; if z_within 1280 1420 n then Some n else None)
          or_err ConfigErr "amneziawg.mtu must be between 1280 and 1420";
        dns_raw ← match Table.get raw "dns" with
                  | Some (TArray items) => if within 1 4 (length items) then Ok items
                                           else bad "amneziawg.dns must list one to four addresses"
                  | Some _ => bad "amneziawg.dns must list one to four addresses"
                  | None => Ok (map TString AWG_DEFAULT_DNS)
                  end;
        dns ← mapM parse_dns dns_raw;
        reject (repeats_s dns) "amneziawg.dns must not contain duplicates" ≫= fun _ =>
        Ok (Some {| a_host := host; a_versions := selected; a_ports := ports; a_mtu := mtu; a_dns := dns |})
  end.

Definition parse_trusttunnel (value : option TValue) (domains : DomainConfig) : CR (option TrustTunnelConfig) :=
  raw ← match value with Some value => table value "trusttunnel" | None => Ok [] end;
  keys raw "trusttunnel" [] ["enabled"; "listen_port"] ≫= fun _ =>
  enabled ← boolean_or_false raw "enabled" "trusttunnel.enabled";
  if negb enabled then
    reject (existsb (fun key => negb (key =?s "enabled")) (Table.keys raw))
           "trusttunnel settings are given while trusttunnel.enabled is false" ≫= fun _ =>
    reject (match d_trusttunnel domains with Some _ => true | None => false end)
           "domains.trusttunnel is set but [trusttunnel] is not enabled" ≫= fun _ =>
    Ok None
  else
    hostname ← d_trusttunnel domains or_err ConfigErr "domains.trusttunnel is required when trusttunnel.enabled is true";
    listen_port ← port_in_range (Table.get raw "listen_port") TT_DEFAULT_LISTEN_PORT "trusttunnel.listen_port";
    listen_port ← listen_port or_err ConfigErr "trusttunnel.listen_port must be between 1024 and 65535";
    Ok (Some {| t_hostname := hostname; t_listen_port := listen_port |}).

Definition parse_firewall (value : TValue) : CR FirewallConfig :=
  raw ← table value "firewall";
  keys raw "firewall" ["manage_ufw"] [] ≫= fun _ =>
  flag ← (get raw "manage_ufw" ≫= fun v => boolean v "firewall.manage_ufw");
  Ok {| manage_ufw := flag |}.
End more_sections.

(** ** Ports *)

Definition MTPROXY_BACKEND_PORT : Z := 8445.
Definition PANEL_APP_PORT : Z := 8787.
Definition MCP_PORT : Z := 8793.
Definition NAIVE_PRIVATE_PORT : Z := 4443.
Definition MANAGED_XUI_PORTS : list (Z * string) :=
  [(8449%Z, "the managed 3x-ui VLESS Reality TCP inbound"); (8450%Z, "the managed 3x-ui VLESS Reality XHTTP inbound");
   (8451%Z, "the managed 3x-ui panel"); (2053%Z, "a fresh 3x-ui's panel before the installer moves it");
   (2096%Z, "the managed 3x-ui subscription")].
Definition TT_LISTEN_OWNER : string := "TrustTunnel's loopback listener (trusttunnel.listen_port)".
Definition TT_METRICS_OWNER : string := "TrustTunnel's loopback metrics listener".

(** Port to owner: a later owner replaces an earlier one. *)
Definition PortTable := gmap Z string.

(** [entry(port).or_insert_with(owner)]. *)
Definition or_insert (port : Z) (owner : string) (t : PortTable) : PortTable :=
  match t !! port with Some _ => t | None => <[port := owner]> t end.
Definition insert_all (entries : list (Z * string)) (t : PortTable) : PortTable :=
  fold_left (fun t e => <[e.1 := e.2]> t) entries t.

Definition reserved_tcp_ports (c : InstallerConfig) : CR PortTable :=
  slots ← match c_mieru c with Some m => slot_ports m or_err Panic | None => Ok [] end;
  let egress := effective_egress c in
  let t : PortTable := insert_all
    ([(panel_tls_port c, "the panel's private TLS listener (ingress.panel_tls_port)");
      (MTPROXY_BACKEND_PORT, "the MTProxy backend"); (PANEL_APP_PORT, "the panel application")]
     ++ match d_mcp (c_domains c) with Some _ => [(MCP_PORT, "the MCP server")] | None => [] end) ∅ in
  let t := match c_trusttunnel c with
           | Some tt_ => or_insert TT_METRICS_PORT TT_METRICS_OWNER (or_insert (t_listen_port tt_) TT_LISTEN_OWNER t)
           | None => t
           end in
  Ok (insert_all
    ((if Profile.includes_naive (c_profile c) then [(NAIVE_PRIVATE_PORT, "NaiveProxy's private listener")] else [])
     ++ (if e_warp egress then [(e_warp_port egress, "the WARP SOCKS5 endpoint (egress.warp_port)")] else [])
     ++ (if e_router egress then
           map (fun p => (p.2, "the Xray-router ingress for " +:+ p.1)) ROUTER_PORTS
           ++ [(TRUSTTUNNEL_ROUTER_PORT, "the Xray-router ingress for trusttunnel")]
           ++ (if negb (e_relay_port egress =? 0)%Z then [(e_relay_port egress, "the Xray-router relay (egress.relay_port)")] else [])
         else [])
     ++ map (fun p => (p, "a Mieru lane slot (mieru.lane_slots)")) slots
     ++ (if bool_decide (x_mode (c_three_xui c) = ManagedNew) then MANAGED_XUI_PORTS else [])) t).

Definition planned_ports (c : InstallerConfig) : CR PortTable :=
  planned ← reserved_tcp_ports c;
  Ok (insert_all
    ([(80%Z, "HTTP (ACME)"); (443%Z, "the shared TLS router")]
     ++ match c_mieru c with
        | Some m => map (fun p => (p, "a Mieru TCP port")) (tcp_ports m) ++ map (fun p => (p, "a Mieru UDP port")) (udp_ports m)
        | None => []
        end) planned).

(** ** Checks across sections *)

Definition sni_domains (c : InstallerConfig) : list string :=
  let d := c_domains c in let x := c_three_xui c in
  flatten_opt [Some (d_panel d); Some (d_mtproxy d); d_naive d; d_subscription d; d_mcp d; x_panel_domain x;
               x_vless_tcp_domain x; x_vless_xhttp_domain x; x_subscription_domain x].

Fixpoint reject_seen (seen domains : list string) : CR unit :=
  match domains with
  | [] => Ok tt
  | d :: rest => reject (mem_str d seen) ("duplicate TCP SNI domain: " +:+ d) ≫= fun _ => reject_seen (d :: seen) rest
  end.
Definition reject_duplicate_tcp_sni_domains (c : InstallerConfig) : CR unit := reject_seen [] (sni_domains c).

Definition without_trusttunnel (c : InstallerConfig) : InstallerConfig :=
  {| c_schema := c_schema c; c_host_mode := c_host_mode c; c_profile := c_profile c; c_acme_email := c_acme_email c;
     c_initial_user := c_initial_user c; c_domains := c_domains c; c_mieru := c_mieru c; c_three_xui := c_three_xui c;
     c_firewall := c_firewall c; c_egress := c_egress c; c_ingress := c_ingress c; c_amneziawg := c_amneziawg c;
     c_trusttunnel := None |}.

(** The other domains of the configuration with their keys. *)
Definition other_domains (c : InstallerConfig) : list (string * option string) :=
  let d := c_domains c in let x := c_three_xui c in
  [("domains.panel", Some (d_panel d)); ("domains.mtproxy", Some (d_mtproxy d)); ("domains.naive", d_naive d);
   ("domains.mieru", d_mieru d); ("domains.subscription", d_subscription d); ("domains.mcp", d_mcp d);
   ("three_xui.panel_domain", x_panel_domain x); ("three_xui.vless_tcp_domain", x_vless_tcp_domain x);
   ("three_xui.vless_xhttp_domain", x_vless_xhttp_domain x); ("three_xui.hysteria_domain", x_hysteria_domain x);
   ("three_xui.subscription_domain", x_subscription_domain x)].

Definition taken (t : PortTable) (port : Z) (message : string) : CR unit :=
  match t !! port with Some owner => bad (message +:+ " is taken by " +:+ owner) | None => Ok tt end.

Definition reject_trusttunnel_collisions (c : InstallerConfig) : CR unit :=
  match c_trusttunnel c with
  | None => Ok tt
  | Some tt_ =>
      try_for (fun '(key, value) => reject (bool_decide (value = Some (t_hostname tt_)))
                 ("domains.trusttunnel duplicates " +:+ key +:+ ": " +:+ t_hostname tt_)) (other_domains c) ≫= fun _ =>
      t ← planned_ports (without_trusttunnel c);
      taken t (t_listen_port tt_) ("trusttunnel.listen_port: " +:+ fmt_Z (t_listen_port tt_)) ≫= fun _ =>
      taken t TT_METRICS_PORT ("port " +:+ fmt_Z TT_METRICS_PORT +:+ " (TrustTunnel's metrics listener)") ≫= fun _ =>
      reject (t_listen_port tt_ =? TT_METRICS_PORT)%Z "trusttunnel.listen_port collides with TrustTunnel's metrics listener"
  end.

Definition reject_mieru_port_collisions (c : InstallerConfig) : CR unit :=
  match c_mieru c with
  | None => Ok tt
  | Some m =>
      reserved ← reserved_tcp_ports c;
      try_for (fun port => taken reserved port ("mieru.tcp_ports: " +:+ fmt_Z port)) (tcp_ports m)
  end.

Definition reject_amneziawg_port_collisions (c : InstallerConfig) : CR unit :=
  match c_amneziawg c with
  | None => Ok tt
  | Some awg =>
      planned ← planned_ports c;
      try_for (fun '(version, port) =>
        if (port =? 0)%Z then Ok tt else taken planned port ("amneziawg.ports." +:+ version +:+ ": " +:+ fmt_Z port)) (port_map awg)
  end.

(** ** The whole file *)

Section config.
Context {UT : UnicodeText} {FP : FloatParse}.

(** [three_xui.warp] and [warp_port] follow an explicit egress section. *)
Definition follow_egress (x : ThreeXuiConfig) (egress : option EgressConfig) : ThreeXuiConfig :=
  match egress with
  | Some e =>
      {| x_mode := x_mode x; x_panel_domain := x_panel_domain x; x_vless_tcp_domain := x_vless_tcp_domain x;
         x_vless_xhttp_domain := x_vless_xhttp_domain x; x_hysteria_domain := x_hysteria_domain x;
         x_warp := e_warp e; x_warp_domains := x_warp_domains x; x_warp_port := e_warp_port e;
         x_subscription_domain := x_subscription_domain x |}
  | None => x
  end.

(** The lane slots, once the egress is known. *)
Definition resolve_slots (mieru : option (MieruConfig * option Z)) (egress : option EgressConfig) : CR (option MieruConfig) :=
  let router := match egress with Some e => e_router e | None => false end in
  match mieru with
  | None => Ok None
  | Some (m, slots) =>
      slots ← match slots with
              | None => Ok (if router then DEFAULT_LANE_SLOTS else 0%Z)
              | Some slots => reject ((0 <? slots)%Z && negb router) "mieru.lane_slots requires egress.router = true" ≫= fun _ =>
                              Ok slots
              end;
      Ok (Some {| tcp_ports := tcp_ports m; udp_ports := udp_ports m; lane_slots := slots |})
  end.

Definition cross_checks (c : InstallerConfig) : CR unit :=
  reject_duplicate_tcp_sni_domains c ≫= fun _ =>
  reject_trusttunnel_collisions c ≫= fun _ =>
  reject_mieru_port_collisions c ≫= fun _ =>
  reject_amneziawg_port_collisions c.

(** The identity of the installation: the keys of the root that are not sections. *)
Definition parse_identity (root : Table) : CR (HostMode * Profile * string * string) :=
  schema ← (get root "schema" ≫= fun v => integer v "schema");
  reject (negb (schema =?s "1")) ("unsupported schema: " +:+ schema) ≫= fun _ =>
  host_mode ← (get root "host_mode" ≫= fun v => enumeration v HostMode.ALL HostMode.value "host_mode");
  profile ← (get root "profile" ≫= fun v => enumeration v Profile.ALL Profile.value "profile");
  acme_email ← (get root "acme_email" ≫= fun v => string_of v "acme_email");
  reject (negb (email_ok acme_email)) "invalid ACME email" ≫= fun _ =>
  initial_user ← (get root "initial_user" ≫= fun v => string_of v "initial_user");
  reject (negb (safe_name initial_user)) "unsafe initial user" ≫= fun _ =>
  Ok (host_mode, profile, acme_email, initial_user).

Definition parse_root (root : Table) : CR InstallerConfig :=
  keys root EmptyString
       ["schema"; "host_mode"; "profile"; "acme_email"; "initial_user"; "domains"; "three_xui"; "firewall"]
       ["mieru"; "egress"; "ingress"; "amneziawg"; "trusttunnel"] ≫= fun _ =>
  '(host_mode, profile, acme_email, initial_user) ← parse_identity root;
  domains ← (get root "domains" ≫= fun v => parse_domains v profile);
  mieru ← parse_mieru (Table.get root "mieru") profile;
  three_xui ← (get root "three_xui" ≫= fun v => parse_three_xui v (Table.contains_key root "egress"));
  trusttunnel ← parse_trusttunnel (Table.get root "trusttunnel") domains;
  three_xui_raw ← (get root "three_xui" ≫= fun v => table v "three_xui");
  egress ← parse_egress (Table.get root "egress") three_xui profile three_xui_raw
             (match trusttunnel with Some _ => true | None => false end);
  mieru ← resolve_slots mieru egress;
  let three_xui := follow_egress three_xui egress in
  firewall ← (get root "firewall" ≫= parse_firewall);
  ingress ← parse_ingress (Table.get root "ingress");
  amneziawg ← parse_amneziawg (Table.get root "amneziawg") domains;
  reject (bool_decide (host_mode = Coexist) && manage_ufw firewall) "UFW can be managed only in fresh mode" ≫= fun _ =>
  reject ((match ingress with Some _ => true | None => false end) && negb (bool_decide (host_mode = Coexist)))
         "ingress.proxy_protocol_bridge requires coexist mode" ≫= fun _ =>
  let config := {| c_schema := 1; c_host_mode := host_mode; c_profile := profile; c_acme_email := acme_email;
                   c_initial_user := initial_user; c_domains := domains; c_mieru := mieru; c_three_xui := three_xui;
                   c_firewall := firewall; c_egress := egress; c_ingress := ingress; c_amneziawg := amneziawg;
                   c_trusttunnel := trusttunnel |} in
  cross_checks config ≫= fun _ => Ok config.

Definition parse_config (text : string) : CR InstallerConfig :=
  match Parser.loads text with
  | Ok root => parse_root root
  | Err (Parser.DecodeError m) => bad ("invalid TOML: " +:+ m)
  | Err Parser.Exhausted => Err Panic
  end.
End config.

(** ** The writer *)

Section render.
Context {FT : FloatText}.

(** [json.dumps(value, ensure_ascii=False)] as a TOML basic string. *)
Definition toml_string (value : string) : string := canonical (Str value).
Definition toml_bool (value : bool) : string := if value then "true" else "false".
Definition toml_ints (values : list Z) : string := "[" +:+ join ", " (map fmt_Z values) +:+ "]".
Definition toml_strings (values : list string) : string := "[" +:+ join ", " (map toml_string values) +:+ "]".

Definition line (name value : string) : string := name +:+ " = " +:+ value.
(** A line for each value that is there. *)
Definition opt_lines (entries : list (string * option string)) : list string :=
  omap (fun e => v ← e.2; Some (line e.1 (toml_string v))) entries.

Definition mieru_lines (c : InstallerConfig) : list string :=
  match c_mieru c with
  | None => []
  | Some m =>
      [EmptyString; "[mieru]"; line "tcp_ports" (toml_ints (tcp_ports m)); line "udp_ports" (toml_ints (udp_ports m))]
      ++ (if match c_egress c with Some e => e_router e | None => false end
          then [line "lane_slots" (fmt_Z (lane_slots m))] else [])
  end.

Definition egress_lines (c : InstallerConfig) : list string :=
  match c_egress c with
  | None => []
  | Some e =>
      [EmptyString; "[egress]"; line "warp" (toml_bool (e_warp e))]
      ++ (if negb (e_warp_port e =? 40000)%Z then [line "warp_port" (fmt_Z (e_warp_port e))] else [])
      ++ (if e_router e then ["router = true"; line "relay_port" (fmt_Z (e_relay_port e))] else [])
      ++ (if Profile.includes_naive (c_profile c) then [line "naive" (toml_string (EgressChoice.value (e_naive e)))] else [])
      ++ (if Profile.includes_mieru (c_profile c) then [line "mieru" (toml_string (EgressChoice.value (e_mieru e)))] else [])
  end.

Definition ingress_lines (c : InstallerConfig) : list string :=
  match c_ingress c with
  | None => []
  | Some i =>
      [EmptyString; "[ingress]";
       line "proxy_protocol_bridge" (toml_string (default EmptyString (i_proxy_protocol_bridge i)));
       line "panel_tls_port" (fmt_Z (i_panel_tls_port i)); line "skip_renewal_dry_run" (toml_bool (i_skip_renewal_dry_run i))]
  end.

Definition amneziawg_lines (c : InstallerConfig) : list string :=
  match c_amneziawg c with
  | None => []
  | Some a =>
      let ports := map (fun p => line (toml_string p.1) (fmt_Z p.2)) (List.filter (fun p => negb (p.2 =? 0)%Z) (port_map a)) in
      [EmptyString; "[amneziawg]"; "enabled = true"; line "versions" (toml_strings (a_versions a));
       line "host" (toml_string (a_host a))]
      ++ match ports with [] => [] | _ => [line "ports" ("{ " +:+ join ", " ports +:+ " }")] end
      ++ [line "mtu" (fmt_Z (a_mtu a)); line "dns" (toml_strings (a_dns a))]
  end.

Definition trusttunnel_lines (c : InstallerConfig) : list string :=
  match c_trusttunnel c with
  | None => []
  | Some t => [EmptyString; "[trusttunnel]"; "enabled = true"; line "listen_port" (fmt_Z (t_listen_port t))]
  end.

Definition three_xui_lines (c : InstallerConfig) : list string :=
  let x := c_three_xui c in
  let managed := bool_decide (x_mode x = ManagedNew) in
  [EmptyString; "[three_xui]"; line "mode" (toml_string (ThreeXuiMode.value (x_mode x)))]
  ++ opt_lines [("panel_domain", x_panel_domain x); ("vless_tcp_domain", x_vless_tcp_domain x);
                ("vless_xhttp_domain", x_vless_xhttp_domain x); ("hysteria_domain", x_hysteria_domain x);
                ("subscription_domain", x_subscription_domain x)]
  ++ (if x_warp x || managed then [line "warp" (toml_bool (x_warp x))] else [])
  ++ (if negb (x_warp_port x =? 40000)%Z then [line "warp_port" (fmt_Z (x_warp_port x))] else [])
  ++ (if managed then [line "warp_domains" (toml_strings (x_warp_domains x))] else []).

Definition render_config (c : InstallerConfig) : string :=
  let d := c_domains c in
  join nl
    ([line "schema" (fmt_Z (c_schema c)); line "host_mode" (toml_string (HostMode.value (c_host_mode c)));
      line "profile" (toml_string (Profile.value (c_profile c))); line "acme_email" (toml_string (c_acme_email c));
      line "initial_user" (toml_string (c_initial_user c)); EmptyString; "[domains]";
      line "panel" (toml_string (d_panel d)); line "mtproxy" (toml_string (d_mtproxy d))]
     ++ opt_lines [("naive", d_naive d); ("mieru", d_mieru d); ("subscription", d_subscription d); ("mcp", d_mcp d);
                   ("trusttunnel", d_trusttunnel d)]
     ++ mieru_lines c ++ egress_lines c ++ ingress_lines c ++ amneziawg_lines c ++ trusttunnel_lines c ++ three_xui_lines c
     ++ [EmptyString; "[firewall]"; line "manage_ufw" (toml_bool (manage_ufw (c_firewall c)))])
  +:+ nl.
End render.
