(* ===== verification/ConfigProps.v ===== *)
(** * What a configuration that was accepted guarantees

    Facts of [Config]: the parser never panics, and a configuration it returns is valid as a whole:
    names, ports and sections agree, and no two listeners share a port. *)

From stdpp Require Import gmap.
From S2P Require Import Prelude BTree Utf8 Numeric Json PyText Model IpAddr Toml TomlFacts Config.

(** ** Sorted lists without repetitions *)

Section sorted.
Context {A : Type} (ltb eqb : A -> A -> bool).
Context (Heq : forall a b, eqb a b = true <-> a = b).
Context (Hirr : forall a, ltb a a = false).
Context (Htrans : forall a b c, ltb a b = true -> ltb b c = true -> ltb a c = true).
Context (Htotal : forall a b, ltb a b = false -> ltb b a = false -> a = b).

Fixpoint insert_by (a : A) (l : list A) : list A :=
  match l with [] => [a] | x :: l' => if ltb x a then x :: insert_by a l' else a :: l end.
Fixpoint dedup_by (l : list A) : list A :=
  match l with
  | x :: l' => match l' with y :: _ => if eqb x y then dedup_by l' else x :: dedup_by l' | [] => [x] end
  | [] => []
  end.

Lemma insert_by_perm a l : insert_by a l ≡ₚ a :: l.
Proof.
  induction l as [|x l IH]; simpl; [done|]. destruct (ltb x a); [|done]. rewrite IH. apply Permutation_swap.
Qed.
Lemma sort_by_perm l : foldr insert_by [] l ≡ₚ l.
Proof. induction l as [|x l IH]; simpl; [done|]. by rewrite insert_by_perm, IH. Qed.

(** No element is below an earlier one. *)
Definition ordered : list A -> Prop := StronglySorted (fun a b => ltb b a = false).

Lemma insert_by_ordered a l : ordered l -> ordered (insert_by a l).
Proof.
  induction 1 as [|x l Hl IH Hx]; simpl; [repeat constructor|].
  destruct (ltb x a) eqn:Hxa.
  - constructor; [done|]. rewrite insert_by_perm. constructor; [|done].
    destruct (ltb a x) eqn:Hax; [|done]. pose proof (Htrans _ _ _ Hxa Hax) as H. by rewrite Hirr in H.
  - constructor; [by constructor|]. constructor; [done|].
    eapply Forall_impl; [exact Hx|]. intros y Hy. simpl in *. destruct (ltb y a) eqn:Hya; [|done].
    destruct (ltb a x) eqn:Hax; [by rewrite (Htrans _ _ _ Hya Hax) in Hy|].
    by rewrite <-(Htotal _ _ Hxa Hax), Hy in Hya.
Qed.
Lemma sort_by_ordered l : ordered (foldr insert_by [] l).
Proof. induction l; simpl; [constructor|by apply insert_by_ordered]. Qed.

Lemma dedup_by_length l : (length (dedup_by l) <= length l)%nat.
Proof. induction l as [|x [|y l] IH]; simpl in *; [lia..|]. destruct (eqb x y); simpl; lia. Qed.

Lemma dedup_by_NoDup l : ordered l -> length (dedup_by l) = length l <-> NoDup l.
Proof.
  induction 1 as [|x [|y l] Hl IH Hx]; [split; [constructor|done]|split; [intros _; apply NoDup_singleton|done]|].
  change (dedup_by (x :: y :: l)) with (if eqb x y then dedup_by (y :: l) else x :: dedup_by (y :: l)).
  destruct (eqb x y) eqn:Hxy.
  - apply Heq in Hxy as ->. pose proof (dedup_by_length (y :: l)). rewrite NoDup_cons. split.
    + cbn [length] in *. lia.
    + intros [Hn _]. exfalso. apply Hn. by left.
  - assert (Hne : x <> y) by (rewrite <-Heq; congruence). rewrite NoDup_cons. cbn [length]. split.
    + intros H. split; [|apply IH; cbn [length]; lia]. intros Hin.
      apply list_elem_of_In in Hin as [->|Hin]; [done|]. inversion Hx as [|? ? Hyx Hlx]; subst.
      inversion Hl as [|? ? Hll Hly]; subst. apply list_elem_of_In in Hin.
      pose proof (proj1 (Forall_forall _ _) Hly x Hin) as Hxy'. simpl in *. apply Hne. by apply Htotal.
    + intros [_ Hnd]. f_equal. by apply IH.
Qed.

Lemma repeats_by l :
  negb (length (dedup_by (foldr insert_by [] l)) =? length l)%nat = false <-> NoDup l.
Proof.
  rewrite negb_false_iff, Nat.eqb_eq. rewrite <-(sort_by_perm l) at 2 3.
  apply dedup_by_NoDup, sort_by_ordered.
Qed.

Lemma dedup_by_elem a l : a ∈ dedup_by l <-> a ∈ l.
Proof.
  induction l as [|x [|y l] IH]; [done..|].
  change (dedup_by (x :: y :: l)) with (if eqb x y then dedup_by (y :: l) else x :: dedup_by (y :: l)).
  destruct (eqb x y) eqn:Hxy.
  - apply Heq in Hxy as ->. rewrite IH, (elem_of_cons (y :: l)). split; [by right|intros [->|?]; [left|done]].
  - by rewrite elem_of_cons, IH, <-elem_of_cons.
Qed.
End sorted.

Lemma repeats_z_spec l : repeats_z l = false <-> NoDup l.
Proof.
  apply (repeats_by Z.ltb Z.eqb); intros; lia.
Qed.
Lemma repeats_s_spec l : repeats_s l = false <-> NoDup l.
Proof.
  apply (repeats_by str_ltb String.eqb);
    [apply eqb_s_true|apply str_ltb_irrefl|apply str_ltb_trans|apply str_ltb_total].
Qed.
Lemma sorted_names_perm l : sort_str l ≡ₚ l.
Proof. apply (sort_by_perm str_ltb). Qed.

(** ** The parser's building blocks *)

Lemma reject_Ok b m u : reject b m = Ok u -> b = false.
Proof. by destruct b. Qed.

Lemma contains_get (t : Table) key : Table.contains_key t key = true <-> is_Some (Table.get t key).
Proof. unfold Table.contains_key. destruct (Table.get t key); split; [eauto|done|done|by intros [? ?]]. Qed.

Lemma get_in_keys (t : Table) key v : Table.get t key = Some v -> key ∈ Table.keys t.
Proof.
  unfold Table.get, Table.keys. induction t as [|[k w] t IH]; [done|]. simpl.
  destruct (k =?s key) eqn:Hk; [apply eqb_s_true in Hk as ->; left|]. intros H. right. by apply IH.
Qed.

(** A table that passed [keys] has every required key, and no key that is neither. *)
Lemma keys_Ok t path required optional u :
  keys t path required optional = Ok u ->
  (forall key, key ∈ required -> Table.contains_key t key = true)
  /\ (forall key, key ∈ Table.keys t -> key ∈ required \/ key ∈ optional).
Proof.
  unfold keys. intros H. apply bind_Ok in H as ([] & Hu & Hm). destruct u. rewrite try_for_Ok, Forall_forall in Hu, Hm.
  split; intros key Hk.
  - rewrite <-(sorted_names_perm required) in Hk. apply Hm, reject_Ok, negb_false_iff in Hk. done.
  - apply Hu, reject_Ok in Hk. rewrite <-!mem_str_true. destruct (mem_str key required), (mem_str key optional); auto.
Qed.

Lemma keys_absent t path required optional u key :
  keys t path required optional = Ok u -> mem_str key (required ++ optional) = false -> Table.get t key = None.
Proof.
  intros [_ H]%keys_Ok Hm. destruct (Table.get t key) as [v|] eqn:Hg; [|done]. apply get_in_keys in Hg.
  exfalso. assert (mem_str key (required ++ optional) = true); [|congruence].
  apply mem_str_true, elem_of_app. auto.
Qed.
Lemma keys_present t path required optional u key :
  keys t path required optional = Ok u -> mem_str key required = true -> is_Some (Table.get t key).
Proof. intros [H _]%keys_Ok Hm. apply contains_get, H. by apply mem_str_true. Qed.
(** A key that is not optional is there exactly when it is required. *)
Lemma keys_decided t path required optional u key :
  keys t path required optional = Ok u -> mem_str key optional = false ->
  is_Some (Table.get t key) <-> mem_str key required = true.
Proof.
  intros H Ho. split; [|by apply keys_present with (1 := H)]. intros [v Hv]. destruct (mem_str key required) eqn:Hr; [done|].
  rewrite (keys_absent _ _ _ _ _ key H) in Hv; [done|]. unfold mem_str in *. by rewrite existsb_app, Hr, Ho.
Qed.

Lemma filter_sublist {A} (f : A -> bool) l : sublist (List.filter f l) l.
Proof. induction l as [|x l IH]; simpl; [constructor|]. by destruct (f x); constructor. Qed.

(** *** Panics *)

Definition calm {A} (r : CR A) : Prop := r <> Err Panic.

Create HintDb calm.

Lemma calm_Ok {A} (a : A) : calm (Ok a).
Proof. done. Qed.
Lemma calm_bad {A} (m : string) : calm (bad m : CR A).
Proof. done. Qed.
Lemma calm_or_err {A} (o : option A) m : calm (o or_err ConfigErr m).
Proof. by destruct o. Qed.
(** What follows a step may use that the step succeeded. *)
Lemma calm_bind {A B} (r : CR A) (f : A -> CR B) : calm r -> (forall a, r = Ok a -> calm (f a)) -> calm (r ≫= f).
Proof. unfold calm. destruct r; simpl; [auto|congruence]. Qed.
Lemma calm_fmap {A B} (r : CR A) (f : A -> B) : calm r -> calm (f <$> r).
Proof. unfold calm. destruct r; simpl; [done|congruence]. Qed.
Lemma calm_mapM {A B} (f : A -> CR B) (l : list A) : (forall a, a ∈ l -> calm (f a)) -> calm (mapM f l).
Proof.
  induction l as [|a l IH]; intros H; [done|]. cbn [mapM].
  apply calm_bind; [apply H; left|]. intros b _. apply calm_bind; [apply IH; intros; apply H; by right|done].
Qed.
Lemma calm_try_for {A} (f : A -> CR unit) (l : list A) : (forall a, calm (f a)) -> calm (try_for f l).
Proof.
  intros H. induction l as [|a l IH]; [done|]. simpl. specialize (H a). by destruct (f a) as [|[]].
Qed.
Lemma calm_reject b m : calm (reject b m).
Proof. by destruct b. Qed.
Lemma calm_keys t path required optional : calm (keys t path required optional).
Proof. apply calm_bind; [|intros ? _]; apply calm_try_for; intros; apply calm_reject. Qed.
(** A key that [keys] required is there. *)
Lemma calm_get t path required optional u key :
  keys t path required optional = Ok u -> mem_str key required = true -> calm (get t key).
Proof. intros H Hm. destruct (keys_present _ _ _ _ _ _ H Hm) as [v Hv]. unfold get. by rewrite Hv. Qed.

#[export] Hint Resolve calm_Ok calm_bad calm_or_err calm_reject calm_keys : calm.

(** A step of a parser: the rule of its outermost construct. *)
Ltac calm_step :=
  match goal with
  | |- calm (mbind ?f ?r) => apply calm_bind; [|intros ? ?]
  | |- calm (fmap ?f ?r) => apply calm_fmap
  | |- calm (mapM ?f ?l) => apply calm_mapM; intros
  | |- calm (try_for ?f ?l) => apply calm_try_for; intros
  | H : keys ?t _ _ _ = Ok _ |- calm (get ?t ?key) => eapply calm_get; [exact H|reflexivity]
  | |- calm (match ?x with _ => _ end) => destruct x eqn:?
  | |- calm (let _ := _ in _) => cbv zeta
  end.
Ltac calm := repeat first [solve [auto with calm nocore] | calm_step].

Section values.
Context {UT : UnicodeText}.

Lemma calm_table v path : calm (table v path).
Proof. unfold table. calm. Qed.
Lemma calm_string_of v path : calm (string_of v path).
Proof. unfold string_of. calm. Qed.
Lemma calm_integer v path : calm (integer v path).
Proof. unfold integer. calm. Qed.
Lemma calm_boolean v path : calm (boolean v path).
Proof. unfold boolean. calm. Qed.
#[local] Hint Resolve calm_table calm_string_of calm_integer calm_boolean : calm.
Lemma calm_boolean_or_false t key path : calm (boolean_or_false t key path).
Proof. unfold boolean_or_false. calm. Qed.
Lemma calm_enumeration {T} v (all : list T) name path : calm (enumeration v all name path).
Proof. unfold enumeration. calm. Qed.
Lemma calm_domain v path : calm (domain v path).
Proof. unfold domain. calm. Qed.
#[local] Hint Resolve calm_domain : calm.
Lemma calm_opt_domain t key path : calm (opt_domain t key path).
Proof. unfold opt_domain. calm. Qed.
Lemma calm_ports v path : calm (ports v path).
Proof. unfold ports. calm. Qed.
Lemma calm_port_in_range v d path : calm (port_in_range v d path).
Proof. unfold port_in_range. calm. Qed.
End values.
#[export] Hint Resolve calm_table calm_string_of calm_integer calm_boolean calm_boolean_or_false calm_enumeration
  calm_domain calm_opt_domain calm_ports calm_port_in_range : calm.

Section lane_slots.
Lemma lane_slot_port_ok i : (0 <= i <= 8)%Z -> lane_slot_port i = Some (LANE_SLOT_BASE_PORT + i)%Z.
Proof.
  intros Hi. unfold lane_slot_port, LANE_SLOT_BASE_PORT. rewrite Z.mod_small by lia.
  destruct (Z.ltb_spec (46100 + i) 65536); [done|lia].
Qed.

Lemma calm_slots_ports n : (0 <= n <= MAX_LANE_SLOTS)%Z -> calm (slots_ports n).
Proof.
  unfold MAX_LANE_SLOTS. intros Hn. apply calm_mapM. intros i Hi. apply list_elem_of_In, in_seq in Hi.
  by rewrite lane_slot_port_ok by lia.
Qed.

(** The lane slots follow the base port. *)
Lemma slot_ports_ok m : (0 <= lane_slots m <= MAX_LANE_SLOTS)%Z ->
  slot_ports m = Some (map (fun i => LANE_SLOT_BASE_PORT + Z.of_nat i)%Z (seq 1 (Z.to_nat (lane_slots m)))).
Proof.
  unfold MAX_LANE_SLOTS, slot_ports. intros Hn. rewrite <-seq_shift, !map_map.
  apply mapM_Some.
  assert (Hs : Forall (fun i => lane_slot_port (Z.of_nat (S i)) = Some (LANE_SLOT_BASE_PORT + Z.of_nat (S i))%Z)
                 (seq 0 (Z.to_nat (lane_slots m)))).
  { apply Forall_forall. intros i Hi. apply list_elem_of_In, in_seq in Hi. apply lane_slot_port_ok. lia. }
  induction Hs; simpl; constructor; done.
Qed.
End lane_slots.

Lemma z_within_spec lo hi n : z_within lo hi n = true <-> (lo <= n <= hi)%Z.
Proof. unfold z_within. lia. Qed.

(** ** What each section's parser returns *)

Definition port_ok (p : Z) : Prop := (PORT_MIN <= p <= PORT_MAX)%Z.
Definition name_ok (d : string) : Prop := domain_shape_ok d = true.
Definition opt_name_ok (o : option string) : Prop := forall d, o = Some d -> name_ok d.

Lemma as_port_ok digits p : as_port digits = Some p -> port_ok p.
Proof.
  unfold as_port. destruct (PyInt.to_i64 digits) as [n|]; [|done]. simpl.
  destruct (z_within PORT_MIN PORT_MAX n) eqn:H; [|done]. intros [= <-]. by apply z_within_spec.
Qed.

Lemma ports_Ok v path l : ports v path = Ok l -> NoDup l /\ Forall port_ok l.
Proof.
  unfold ports. destruct v; try done. intros H. inv_binds. apply reject_Ok, repeats_z_spec in Hr0. injection H as <-.
  split; [done|]. apply mapM_Ok_iff in Hr. clear Hr0. induction Hr as [|item n items l Hn _ IH]; [constructor|].
  constructor; [|done]. inv_binds. by eapply as_port_ok.
Qed.

Lemma port_in_range_Ok v d path p : port_in_range v d path = Ok (Some p) -> port_ok p.
Proof. unfold port_in_range. intros H. inv_binds. injection H as H. by eapply as_port_ok. Qed.

(** An integer key that must lie between two bounds. *)
Lemma bounded_Ok (o : option Z) lo hi m n :
  match o with Some n => if z_within lo hi n then Ok n else bad m | None => bad m end = (Ok n : CR Z) ->
  (lo <= n <= hi)%Z.
Proof.
  destruct o as [k|]; [|done]. destruct (z_within lo hi k) eqn:H; [|done]. intros [= <-]. by apply z_within_spec.
Qed.

(** A name that [keys] required is there; one that it did not allow is not. *)
Ltac present :=
  match goal with H : is_Some ?o <-> is_Some (Table.get _ _), Hk : keys _ _ _ _ = Ok _ |- is_Some ?o =>
    apply H; eapply keys_present; [exact Hk|by repeat case_match] end.
Ltac absent :=
  match goal with H : is_Some ?o <-> is_Some (Table.get _ _), Hk : keys _ _ _ _ = Ok _ |- ?o = None =>
    apply eq_None_not_Some; rewrite H, (keys_absent _ _ _ _ _ _ Hk) by (by repeat case_match); by intros [? ?] end.

Section section_facts.
Context {UT : UnicodeText}.

Lemma domain_Ok v path d : domain v path = Ok d -> name_ok d.
Proof.
  unfold domain, normalize_domain. intros H. inv_binds. cbv zeta in H.
  case_match; [|done]. by injection H as <-.
Qed.

Lemma opt_domain_Ok t key path o : opt_domain t key path = Ok o ->
  opt_name_ok o /\ (is_Some o <-> is_Some (Table.get t key)).
Proof.
  unfold opt_domain. destruct (Table.get t key) as [v|].
  - destruct (domain v path) as [d|] eqn:Hd; [|done]. intros [= <-]. split; [|split; eauto].
    intros d' [= <-]. by eapply domain_Ok.
  - intros [= <-]. done.
Qed.

(** A name for every protocol of the profile and for no other. *)
Record valid_domains (profile : Profile) (d : DomainConfig) : Prop := {
  vd_panel : name_ok (d_panel d);
  vd_mtproxy : name_ok (d_mtproxy d);
  vd_others : Forall opt_name_ok [d_naive d; d_mieru d; d_subscription d; d_mcp d; d_trusttunnel d];
  vd_naive : is_Some (d_naive d) <-> Profile.includes_naive profile = true;
  vd_mieru : is_Some (d_mieru d) <-> Profile.includes_mieru profile = true;
}.

Lemma parse_domains_Ok v profile d : parse_domains v profile = Ok d -> valid_domains profile d.
Proof.
  unfold parse_domains. intros H. inv_binds. injection H as <-.
  repeat match goal with H : opt_domain _ _ _ = Ok _ |- _ => apply opt_domain_Ok in H as [? ?] end.
  repeat match goal with H : domain _ _ = Ok _ |- _ => apply domain_Ok in H end.
  constructor; simpl; [done..|by repeat constructor| |].
  all: match goal with H : is_Some ?o <-> _ |- is_Some ?o <-> _ => rewrite H, (keys_decided _ _ _ _ _ _ Hr2) by done end.
  all: by destruct profile.
Qed.

(** The section alone: [lane_slots] is not resolved yet. *)
Record valid_mieru (m : MieruConfig) : Prop := {
  vm_tcp : NoDup (tcp_ports m) /\ Forall port_ok (tcp_ports m);
  vm_udp : NoDup (udp_ports m) /\ Forall port_ok (udp_ports m);
  vm_some : tcp_ports m <> [] \/ udp_ports m <> [];
}.

Lemma parse_mieru_Ok v profile r : parse_mieru v profile = Ok r ->
  (is_Some r <-> Profile.includes_mieru profile = true)
  /\ forall m lane, r = Some (m, lane) ->
     valid_mieru m /\ forall n, lane = Some n -> (0 <= n <= MAX_LANE_SLOTS)%Z.
Proof.
  unfold parse_mieru. destruct (Profile.includes_mieru profile); simpl.
  - intros H. inv_binds. injection H as <-. split; [done|]. intros m lane [= <- <-]. split.
    + apply ports_Ok in Hr2, Hr3. constructor; simpl; [done..|]. apply reject_Ok in Hr4. destruct a2, a3; auto.
    + intros n ->. destruct (Table.get _ "lane_slots"); [|done]. inv_binds. injection Hr5 as <-. by eapply bounded_Ok.
  - destruct v; [done|]. intros [= <-]. split; [by split; [intros [? ?]|]|done].
Qed.

Record valid_xui (explicit : bool) (x : ThreeXuiConfig) : Prop := {
  vx_names : Forall opt_name_ok [x_panel_domain x; x_vless_tcp_domain x; x_vless_xhttp_domain x; x_hysteria_domain x;
                                 x_subscription_domain x];
  vx_managed : x_mode x = ManagedNew ->
    Forall is_Some [x_panel_domain x; x_vless_tcp_domain x; x_vless_xhttp_domain x; x_hysteria_domain x];
  vx_none : x_mode x = XuiNone ->
    Forall (fun o => o = None) [x_panel_domain x; x_vless_tcp_domain x; x_vless_xhttp_domain x; x_hysteria_domain x];
  vx_domains : x_mode x <> ManagedNew -> x_warp_domains x = [] /\ x_subscription_domain x = None;
  vx_warp : x_warp_domains x <> [] -> explicit = false -> x_warp x = true;
  vx_port : port_ok (x_warp_port x);
}.

Lemma parse_three_xui_Ok v explicit x : parse_three_xui v explicit = Ok x -> valid_xui explicit x.
Proof.
  unfold parse_three_xui. intros H. inv_binds. injection H as <-.
  repeat match goal with H : opt_domain _ _ _ = Ok _ |- _ => apply opt_domain_Ok in H as [? ?] end.
  constructor; simpl; [by repeat constructor| | | | |].
  - intros ->. repeat constructor; present.
  - intros ->. repeat constructor; absent.
  - intros Hm. destruct a1; [..|done]; (rewrite (keys_absent _ _ _ _ _ "warp_domains" Hr2) in Hr8 by done);
      injection Hr8 as <-; split; try done; absent.
  - intros Hd ->. apply reject_Ok in Hr9. by destruct a7, a8.
  - subst. by eapply port_in_range_Ok.
Qed.

Record valid_egress (profile : Profile) (trusttunnel : bool) (x : ThreeXuiConfig) (e : EgressConfig) : Prop := {
  ve_port : port_ok (e_warp_port e);
  ve_relay : e_relay_port e = 0%Z \/ e_router e = true /\ port_ok (e_relay_port e);
  ve_relay_free : e_relay_port e ∉ map snd ROUTER_PORTS;
  ve_router : e_router e = true ->
    Profile.includes_naive profile = true \/ Profile.includes_mieru profile = true \/ trusttunnel = true;
  ve_warp : e_naive e = EgressWarp \/ e_mieru e = EgressWarp -> e_warp e = true;
  ve_routed : e_naive e = EgressRouter \/ e_mieru e = EgressRouter -> e_router e = true;
  ve_naive : e_naive e <> EgressDirect -> Profile.includes_naive profile = true;
  ve_mieru : e_mieru e <> EgressDirect -> Profile.includes_mieru profile = true;
  ve_domains : x_warp_domains x <> [] -> e_warp e = true;
}.

Lemma parse_choice_Ok raw profile warp router service present c :
  parse_choice raw profile warp router service present = Ok c ->
  (c = EgressWarp -> warp = true) /\ (c = EgressRouter -> router = true) /\ (c <> EgressDirect -> present = true).
Proof.
  unfold parse_choice. destruct (Table.get raw service); intros H.
  - inv_binds. injection H as <-. apply reject_Ok in Hr, Hr1, Hr2.
    destruct present; [|done]. split_and!; [intros ->; by destruct warp|intros ->; by destruct router|done].
  - destruct present, warp; injection H as <-; split_and!; congruence.
Qed.

Lemma relay_ok (digits : string) (router : bool) :
  negb (digits =?s "0") && negb router = false ->
  negb (digits =?s "0")
    && negb (match PyInt.to_i64 digits with Some n => z_within PORT_MIN PORT_MAX n | None => false end) = false ->
  let port := (default 0 (PyInt.to_i64 digits) mod 65536)%Z in port = 0%Z \/ router = true /\ port_ok port.
Proof.
  destruct (digits =?s "0") eqn:H0; simpl.
  - apply eqb_s_true in H0 as ->. intros _ _. by left.
  - destruct router; [|done]. intros _. destruct (PyInt.to_i64 digits) as [n|]; [|done].
    intros Hn%negb_false_iff%z_within_spec. right. unfold port_ok, PORT_MIN, PORT_MAX in *. simpl.
    rewrite Z.mod_small by lia. done.
Qed.

Lemma parse_egress_Ok v x profile raw trusttunnel e :
  parse_egress v x profile raw trusttunnel = Ok (Some e) -> valid_egress profile trusttunnel x e.
Proof.
  unfold parse_egress. destruct v; [|done]. intros H. inv_binds. cbv zeta in H. inv_binds. injection H as <-.
  repeat match goal with H : reject _ _ = Ok _ |- _ => apply reject_Ok in H end.
  apply parse_choice_Ok in Hr13 as (? & ? & ?), Hr14 as (? & ? & ?).
  constructor; simpl; [subst; by eapply port_in_range_Ok|by apply relay_ok| | | | |done|done|].
  - apply orb_false_iff in Hr7 as [_ Hr7]. generalize dependent (default 0 (PyInt.to_i64 a4) mod 65536)%Z.
    intros n Hn. simpl in Hn. rewrite !elem_of_cons. intros [->|[->|[]%not_elem_of_nil]]; discriminate.
  - intros ->. simpl in Hr3. destruct (Profile.includes_naive profile), (Profile.includes_mieru profile), trusttunnel; auto.
  - tauto.
  - tauto.
  - intros Hd. by destruct (x_warp_domains x), a1.
Qed.

(** An explicit [warp] or [warp_port] of [three_xui] is the one of [egress]. *)
Lemma parse_egress_agrees v x profile raw trusttunnel e :
  parse_egress v x profile raw trusttunnel = Ok (Some e) ->
  (Table.contains_key raw "warp" = true -> x_warp x = e_warp e)
  /\ (Table.contains_key raw "warp_port" = true -> x_warp_port x = e_warp_port e).
Proof.
  unfold parse_egress. destruct v; [|done]. intros H. inv_binds. cbv zeta in H. inv_binds. injection H as <-.
  repeat match goal with H : reject _ _ = Ok _ |- _ => apply reject_Ok in H end. simpl.
  split; intros Hc; rewrite Hc in *; simpl in *; [by apply negb_false_iff, Bool.eqb_prop in Hr10|lia].
Qed.

(** *** Ingress, AmneziaWG, TrustTunnel, firewall *)

Record valid_ingress (i : IngressConfig) : Prop := {
  vi_port : port_ok (i_panel_tls_port i);
  vi_bridge : exists bridge p, i_proxy_protocol_bridge i = Some bridge /\ bridge_port_of bridge = Some p
                /\ port_ok p /\ p <> i_panel_tls_port i;
}.

Lemma bridge_port_ok bridge p : bridge_port_of bridge = Some p -> port_ok p.
Proof.
  unfold bridge_port_of. destruct (strip_prefix _ bridge); [|done]. simpl. case_match; [|done].
  destruct (parse_u32 _) as [n|]; [|done]. simpl. destruct (z_within _ _ n) eqn:Hn; [|done]. intros [= <-].
  by apply z_within_spec.
Qed.

Lemma parse_ingress_Ok v i : parse_ingress v = Ok (Some i) -> valid_ingress i.
Proof.
  unfold parse_ingress. destruct v; [|done]. intros H. inv_binds. injection H as <-. destruct a3 as [p|]; [|done].
  simpl in Hr4. destruct (Z.eqb_spec p a2); [done|]. injection Hr4 as <-. constructor; simpl.
  - by eapply port_in_range_Ok.
  - exists a1, a2. split_and!; [done..|by eapply bridge_port_ok|done].
Qed.

Record valid_amneziawg (a : AmneziaWgConfig) : Prop := {
  va_versions : sublist (a_versions a) AWG_VERSIONS /\ a_versions a <> [];
  va_ports : length (a_ports a) = length (a_versions a) /\ Forall (fun p => p = 0%Z \/ port_ok p) (a_ports a);
  va_distinct : NoDup (List.filter (fun p => negb (p =? 0)%Z) (a_ports a));
  va_mtu : (1280 <= a_mtu a <= 1420)%Z;
  va_dns : NoDup (a_dns a) /\ (1 <= length (a_dns a) <= 4)%nat;
}.

Lemma parse_versions_Ok items : forall versions r, parse_versions items versions = Ok r ->
  Forall (fun v => v ∈ AWG_VERSIONS) versions ->
  Forall (fun v => v ∈ AWG_VERSIONS) r /\ length r = (length versions + length items)%nat.
Proof.
  induction items as [|item items IH]; intros versions r; cbn [parse_versions].
  - intros [= <-]. split; [done|simpl; lia].
  - intros H Hv. inv_binds. apply reject_Ok in Hr0. apply IH in H.
    + rewrite length_app in H. simpl in H |- *. split; [tauto|lia].
    + apply Forall_app. split; [done|]. constructor; [|done]. by apply mem_str_true, negb_false_iff.
Qed.

Lemma parse_awg_port_Ok t version p : parse_awg_port t version = Ok p -> p = 0%Z \/ port_ok p.
Proof.
  unfold parse_awg_port. destruct (Table.get t version); [|by intros [= <-]; left]. cbv zeta. intros H. inv_binds. subst.
  right. by eapply port_in_range_Ok.
Qed.

Lemma parse_amneziawg_Ok v domains a : parse_amneziawg v domains = Ok (Some a) -> valid_amneziawg a.
Proof.
  unfold parse_amneziawg. destruct v; [|done]. intros H. inv_binds. case_match; inv_binds; [done|].
  apply Ok_inj, (inj Some) in H as <-.
  repeat match goal with H : reject _ _ = Ok _ |- _ => apply reject_Ok in H end.
  assert (Hv : (1 <= length a1)%nat).
  { clear - Hr2. repeat (case_match; simplify_eq); simpl; lia. }
  apply parse_versions_Ok in Hr3 as [Hin Hl]; [|done]. apply mapM_Ok_iff in Hr7.
  constructor; cbn [a_versions a_ports a_mtu a_dns].
  - split; [apply filter_sublist|]. destruct a3 as [|v a3]; [simpl in Hl; lia|]. inversion Hin as [|? ? Hv' _]; subst.
    intros Hf. assert (Hm : v ∈ List.filter (fun w => mem_str w (v :: a3)) AWG_VERSIONS); [|by rewrite Hf in Hm; inversion Hm].
    apply list_elem_of_In, filter_In. split; [by apply list_elem_of_In|]. apply mem_str_true. left.
  - split; [by apply Forall2_length in Hr7|]. clear -Hr7. induction Hr7 as [|v p vs l Hp _ IH]; constructor; [|done].
    by eapply parse_awg_port_Ok.
  - by apply repeats_z_spec.
  - destruct (PyInt.to_i64 a9) as [n|]; [|done]. simpl in Hr10. destruct (z_within _ _ n) eqn:Hn; [|done].
    injection Hr10 as <-. by apply z_within_spec.
  - split; [by apply repeats_s_spec|]. apply mapM_Ok_iff, Forall2_length in Hr12 as <-.
    clear - Hr11. unfold within in Hr11. repeat (case_match; simplify_eq); simpl; lia.
Qed.

Lemma parse_trusttunnel_Ok v domains r : parse_trusttunnel v domains = Ok r ->
  (forall t, r = Some t -> d_trusttunnel domains = Some (t_hostname t) /\ port_ok (t_listen_port t))
  /\ (r = None -> d_trusttunnel domains = None).
Proof.
  unfold parse_trusttunnel. intros H. inv_binds. destruct (negb _); inv_binds.
  - injection H as <-. split; [done|]. intros _. apply reject_Ok in Hr3. by destruct (d_trusttunnel domains).
  - injection H as <-. split; [|done]. intros t [= <-]. subst. split; [done|]. by eapply port_in_range_Ok.
Qed.
End section_facts.

(** ** The port tables *)

(** What the host listens on, service by service, before the ports the user chooses for Mieru and AmneziaWG. *)
Definition reserved_list (c : InstallerConfig) : list Z :=
  let egress := effective_egress c in
  [panel_tls_port c; MTPROXY_BACKEND_PORT; PANEL_APP_PORT]
  ++ match d_mcp (c_domains c) with Some _ => [MCP_PORT] | None => [] end
  ++ match c_trusttunnel c with Some t => [t_listen_port t; TT_METRICS_PORT] | None => [] end
  ++ (if Profile.includes_naive (c_profile c) then [NAIVE_PRIVATE_PORT] else [])
  ++ (if e_warp egress then [e_warp_port egress] else [])
  ++ (if e_router egress then
        map snd ROUTER_PORTS ++ [TRUSTTUNNEL_ROUTER_PORT]
        ++ (if negb (e_relay_port egress =? 0)%Z then [e_relay_port egress] else [])
      else [])
  ++ match c_mieru c with
     | Some m => map (fun i => LANE_SLOT_BASE_PORT + Z.of_nat i)%Z (seq 1 (Z.to_nat (lane_slots m)))
     | None => []
     end
  ++ (if bool_decide (x_mode (c_three_xui c) = ManagedNew) then map fst MANAGED_XUI_PORTS else []).

Definition planned_list (c : InstallerConfig) : list Z :=
  reserved_list c ++ [80; 443]%Z ++ match c_mieru c with Some m => tcp_ports m ++ udp_ports m | None => [] end.

Definition slots_valid (c : InstallerConfig) : Prop :=
  forall m, c_mieru c = Some m -> (0 <= lane_slots m <= MAX_LANE_SLOTS)%Z.

Lemma port_insert (q p : Z) (o : string) (t : PortTable) : is_Some (<[q := o]> t !! p) <-> p = q \/ is_Some (t !! p).
Proof. unfold PortTable in *. rewrite (lookup_insert_is_Some' t q p o). split; intros [?|?]; auto. Qed.

Lemma port_empty (p : Z) : is_Some ((∅ : PortTable) !! p) <-> False.
Proof. unfold PortTable. rewrite lookup_empty. split; [intros [o Ho]; discriminate Ho|intros []]. Qed.

Lemma insert_all_dom es : forall (t : PortTable) p,
  is_Some (insert_all es t !! p) <-> p ∈ map fst es \/ is_Some (t !! p).
Proof.
  unfold insert_all. induction es as [|[q o] es IH]; intros t p; simpl.
  - split; [auto|]. by intros [[]%not_elem_of_nil|].
  - rewrite IH, elem_of_cons, port_insert. tauto.
Qed.

Lemma or_insert_dom q o (t : PortTable) p : is_Some (or_insert q o t !! p) <-> p = q \/ is_Some (t !! p).
Proof.
  unfold or_insert. destruct (t !! q) eqn:Hq.
  - split; [auto|]. intros [->|?]; [by rewrite Hq|done].
  - by rewrite port_insert.
Qed.

Lemma slots_of_ok c : slots_valid c ->
  match c_mieru c with Some m => slot_ports m or_err Panic | None => Ok [] end
  = Ok (match c_mieru c with
        | Some m => map (fun i => LANE_SLOT_BASE_PORT + Z.of_nat i)%Z (seq 1 (Z.to_nat (lane_slots m)))
        | None => []
        end).
Proof. intros H. destruct (c_mieru c) as [m|] eqn:Hm; [|done]. by rewrite (slot_ports_ok m) by (by apply H). Qed.

Lemma reserved_dom c : slots_valid c ->
  exists t, reserved_tcp_ports c = Ok t /\ forall p, is_Some (t !! p) <-> p ∈ reserved_list c.
Proof.
  intros H. unfold reserved_tcp_ports. rewrite slots_of_ok by done. eexists. split; [reflexivity|]. intros p.
  rewrite insert_all_dom. unfold reserved_list. rewrite !map_app, !elem_of_app, !map_map.
  assert (Ht : forall t : PortTable,
    is_Some (match c_trusttunnel c with
             | Some tt_ => or_insert TT_METRICS_PORT TT_METRICS_OWNER (or_insert (t_listen_port tt_) TT_LISTEN_OWNER t)
             | None => t end !! p)
    <-> p ∈ match c_trusttunnel c with Some t => [t_listen_port t; TT_METRICS_PORT] | None => [] end \/ is_Some (t !! p)).
  { intros t. destruct (c_trusttunnel c) as [tt_|].
    - rewrite !or_insert_dom, !elem_of_cons. pose proof (not_elem_of_nil p). tauto.
    - pose proof (not_elem_of_nil p). tauto. }
  rewrite Ht, insert_all_dom, map_app, elem_of_app. clear Ht.
  rewrite port_empty. cbv zeta. rewrite (map_id (match c_mieru c with Some _ => _ | None => _ end)).
  destruct (d_mcp (c_domains c)), (Profile.includes_naive (c_profile c)), (e_warp (effective_egress c)),
    (e_router (effective_egress c)), (negb (e_relay_port (effective_egress c) =? 0)%Z), (bool_decide _); simpl;
    pose proof (not_elem_of_nil p); tauto.
Qed.

Lemma planned_dom c : slots_valid c ->
  exists t, planned_ports c = Ok t /\ forall p, is_Some (t !! p) <-> p ∈ planned_list c.
Proof.
  intros H. destruct (reserved_dom c H) as (t & Ht & Hd). unfold planned_ports. rewrite Ht. eexists. split; [reflexivity|].
  intros p. rewrite insert_all_dom, Hd. unfold planned_list. rewrite map_app, !elem_of_app.
  destruct (c_mieru c) as [m|]; [|simpl; tauto].
  rewrite map_app, !map_map. simpl. rewrite !map_id, elem_of_app. tauto.
Qed.

Lemma taken_Ok (t : PortTable) p m u : taken t p m = Ok u -> ~ is_Some (t !! p).
Proof. unfold taken. intros H [o Ho]. by rewrite Ho in H. Qed.

(** *** The checks across sections *)

Lemma reject_seen_Ok l : forall seen u, reject_seen seen l = Ok u -> NoDup l /\ forall d, d ∈ l -> d ∉ seen.
Proof.
  induction l as [|d l IH]; intros seen u H; cbn [reject_seen] in H.
  - split; [constructor|]. by intros d Hd%not_elem_of_nil.
  - inv_binds. apply reject_Ok in Hr. apply IH in H as [Hn Hs].
    assert (Hd : d ∉ seen) by (rewrite <-mem_str_true; congruence). split.
    + constructor; [|done]. intros Hin. apply (Hs _ Hin). left.
    + intros e [->|He]%elem_of_cons; [done|]. intros Hin. apply (Hs _ He). by right.
Qed.

(** No name is served twice on the shared router, and no two listeners share a port. *)
Record exclusive (c : InstallerConfig) : Prop := {
  ex_names : NoDup (sni_domains c);
  ex_hostname : forall t, c_trusttunnel c = Some t -> Forall (fun o => o.2 <> Some (t_hostname t)) (other_domains c);
  ex_trusttunnel : forall t, c_trusttunnel c = Some t ->
    (t_listen_port t ∉ planned_list (without_trusttunnel c)) /\ (TT_METRICS_PORT ∉ planned_list (without_trusttunnel c))
    /\ t_listen_port t <> TT_METRICS_PORT;
  ex_mieru : forall m p, c_mieru c = Some m -> p ∈ tcp_ports m -> p ∉ reserved_list c;
  ex_amneziawg : forall a v p, c_amneziawg c = Some a -> (v, p) ∈ port_map a -> p <> 0%Z -> p ∉ planned_list c;
}.

Lemma cross_checks_Ok c u : slots_valid c -> cross_checks c = Ok u -> exclusive c.
Proof.
  intros Hs H. unfold cross_checks in H. inv_binds.
  destruct (reserved_dom c Hs) as (r & Hres & Hrd), (planned_dom c Hs) as (t & Ht & Htd).
  destruct (planned_dom (without_trusttunnel c) Hs) as (w & Hw & Hwd).
  constructor.
  - by apply reject_seen_Ok in Hr as [? _].
  - intros tt_ Htt. unfold reject_trusttunnel_collisions in Hr0. rewrite Htt in Hr0. clear -Hr0.
    apply bind_Ok in Hr0 as ([] & Hf & _). apply try_for_Ok in Hf. eapply Forall_impl; [exact Hf|].
    intros [k o] Ho%reject_Ok%bool_decide_eq_false. done.
  - intros tt_ Htt. unfold reject_trusttunnel_collisions in Hr0. rewrite Htt, Hw in Hr0.
    apply bind_Ok in Hr0 as (_ & _ & Hr0). simpl in Hr0. apply bind_Ok in Hr0 as (? & Hl & Hr0).
    apply bind_Ok in Hr0 as (? & Hm & Hr0). rewrite <-!Hwd.
    split_and!; [by eapply taken_Ok..|]. apply reject_Ok in Hr0. lia.
  - intros m p Hm Hp. unfold reject_mieru_port_collisions in Hr1. rewrite Hm, Hres in Hr1. simpl in Hr1.
    rewrite try_for_Ok, Forall_forall in Hr1. rewrite <-Hrd. by eapply taken_Ok, Hr1.
  - intros a v p Ha Hin Hp. unfold reject_amneziawg_port_collisions in H. rewrite Ha, Ht in H. simpl in H.
    rewrite try_for_Ok, Forall_forall in H. rewrite <-Htd. specialize (H _ Hin). simpl in H.
    destruct (Z.eqb_spec p 0); [done|]. by eapply taken_Ok.
Qed.

(** ** The whole configuration *)

Lemma resolve_slots_Ok mieru egress r : resolve_slots mieru egress = Ok r ->
  match mieru with
  | None => r = None
  | Some (m, lane) => exists n,
      r = Some {| tcp_ports := tcp_ports m; udp_ports := udp_ports m; lane_slots := n |}
      /\ ((forall k, lane = Some k -> (0 <= k <= MAX_LANE_SLOTS)%Z) -> (0 <= n <= MAX_LANE_SLOTS)%Z)
      /\ ((0 < n)%Z -> exists e, egress = Some e /\ e_router e = true)
  end.
Proof.
  unfold resolve_slots. destruct mieru as [[m lane]|]; [|by intros [= <-]]. intros H. inv_binds. injection H as <-.
  exists a. destruct lane as [k|]; inv_binds.
  - injection Hr as <-. apply reject_Ok in Hr0. split_and!; [done|auto|]. intros Hk.
    apply Z.ltb_lt in Hk. rewrite Hk in Hr0. simpl in Hr0.
    destruct egress as [e|]; [exists e; split; [done|by destruct (e_router e)]|done].
  - injection Hr as <-. split_and!; [done| |].
    + intros _. unfold DEFAULT_LANE_SLOTS, MAX_LANE_SLOTS. destruct egress as [e|]; [destruct (e_router e)|]; lia.
    + destruct egress as [e|]; [|done]. destruct (e_router e) eqn:He; [|done]. intros _. by exists e.
Qed.

Definition is_given {A} (o : option A) : bool := match o with Some _ => true | None => false end.

(** What the sections of an accepted configuration guarantee, together. *)
Record valid (c : InstallerConfig) : Prop := {
  v_identity : c_schema c = 1%Z /\ email_ok (c_acme_email c) = true /\ safe_name (c_initial_user c) = true;
  v_domains : valid_domains (c_profile c) (c_domains c);
  v_mieru : is_Some (c_mieru c) <-> Profile.includes_mieru (c_profile c) = true;
  v_mieru_ports : forall m, c_mieru c = Some m ->
    valid_mieru m /\ (0 <= lane_slots m <= MAX_LANE_SLOTS)%Z
    /\ ((0 < lane_slots m)%Z -> e_router (effective_egress c) = true);
  v_xui : valid_xui (is_given (c_egress c)) (c_three_xui c);
  v_egress : forall e, c_egress c = Some e ->
    valid_egress (c_profile c) (is_given (c_trusttunnel c)) (c_three_xui c) e
    /\ x_warp (c_three_xui c) = e_warp e /\ x_warp_port (c_three_xui c) = e_warp_port e;
  v_ufw : manage_ufw (c_firewall c) = true -> c_host_mode c = Fresh;
  v_ingress : forall i, c_ingress c = Some i -> c_host_mode c = Coexist /\ valid_ingress i;
  v_amneziawg : forall a, c_amneziawg c = Some a -> valid_amneziawg a;
  v_trusttunnel : forall t, c_trusttunnel c = Some t ->
    d_trusttunnel (c_domains c) = Some (t_hostname t) /\ port_ok (t_listen_port t);
  v_no_trusttunnel : c_trusttunnel c = None -> d_trusttunnel (c_domains c) = None;
}.

Section accepted.
Context {UT : UnicodeText} {FP : FloatParse}.

Lemma follow_valid explicit x profile trusttunnel egress :
  valid_xui explicit x -> (explicit = is_given egress) ->
  (forall e, egress = Some e -> valid_egress profile trusttunnel x e) ->
  valid_xui (is_given egress) (follow_egress x egress)
  /\ forall e, egress = Some e -> valid_egress profile trusttunnel (follow_egress x egress) e
       /\ x_warp (follow_egress x egress) = e_warp e /\ x_warp_port (follow_egress x egress) = e_warp_port e.
Proof.
  intros Hx -> He. destruct egress as [e|]; [|done]. specialize (He e eq_refl). split.
  - destruct Hx. destruct He. constructor; simpl in *; done.
  - intros e' [= <-]. split; [|done]. destruct He. constructor; simpl in *; done.
Qed.

Lemma parse_egress_given v x profile raw trusttunnel r :
  parse_egress v x profile raw trusttunnel = Ok r -> is_given r = is_given v.
Proof.
  destruct v; [|by intros [= <-]]. unfold parse_egress. intros H. inv_binds. cbv zeta in H. inv_binds. by injection H as <-.
Qed.

Lemma parse_identity_Ok root h p email user :
  parse_identity root = Ok (h, p, email, user) -> email_ok email = true /\ safe_name user = true.
Proof.
  unfold parse_identity. intros H. inv_binds. injection H as -> -> -> ->.
  repeat match goal with H : reject _ _ = Ok _ |- _ => apply reject_Ok in H end.
  by rewrite !negb_false_iff in *.
Qed.

Lemma mieru_resolved v profile mieru egress r :
  parse_mieru v profile = Ok mieru -> resolve_slots mieru egress = Ok r ->
  (is_Some r <-> Profile.includes_mieru profile = true)
  /\ forall m, r = Some m ->
     valid_mieru m /\ (0 <= lane_slots m <= MAX_LANE_SLOTS)%Z
     /\ ((0 < lane_slots m)%Z -> exists e, egress = Some e /\ e_router e = true).
Proof.
  intros [Hi Hm]%parse_mieru_Ok Hr%resolve_slots_Ok. rewrite <-Hi. destruct mieru as [[m lane]|].
  - destruct Hr as (n & -> & Hb & Hn). split; [split; by eexists|]. intros m' [= <-].
    destruct (Hm m lane eq_refl) as [[] Hl]. split_and!; [by constructor|by apply Hb..|done].
  - subst r. split; [|done]. split; by intros [? ?].
Qed.

Lemma parse_root_Ok root c : parse_root root = Ok c -> valid c /\ cross_checks c = Ok tt.
Proof.
  unfold parse_root. intros H. inv_binds. destruct a0 as [[[h p] email] user]. inv_binds. cbv zeta in H. inv_binds.
  apply Ok_inj in H as <-. split; [|exact Hr13]. clear Hr13.
  pose proof (mieru_resolved _ _ _ _ _ Hr2 Hr7) as [Hmi Hmp].
  pose proof (parse_egress_given _ _ _ _ _ _ Hr6) as Hg. apply parse_trusttunnel_Ok in Hr4 as [Ht Htn].
  destruct (follow_valid _ _ p (is_given a2) a4 (parse_three_xui_Ok _ _ _ Hr3)) as [Hx He].
  { rewrite Hg. unfold Table.contains_key. by destruct (Table.get root "egress"). }
  { intros e ->. by eapply parse_egress_Ok. }
  apply reject_Ok in Hr11, Hr12. constructor; simpl; [|by eapply parse_domains_Ok|done| |done|done| | | |done|done].
  - split; [done|]. by eapply parse_identity_Ok.
  - intros m Hm. destruct (Hmp m Hm) as (? & ? & Hs). split; [done|split; [done|]]. intros (e & -> & Hrt)%Hs. done.
  - intros Hu. rewrite Hu, andb_true_r in Hr11. by destruct h.
  - intros i ->. split; [by destruct h|]. by eapply parse_ingress_Ok.
  - intros w ->. by eapply parse_amneziawg_Ok.
Qed.

Lemma parse_config_root text c : parse_config text = Ok c -> exists root, Parser.loads text = Ok root /\ parse_root root = Ok c.
Proof. unfold parse_config. destruct (Parser.loads text) as [root|[m|]]; [eauto|done|done]. Qed.

Lemma parse_config_valid text c : parse_config text = Ok c -> valid c /\ cross_checks c = Ok tt.
Proof. intros (root & _ & Hr)%parse_config_root. by eapply parse_root_Ok. Qed.

Lemma valid_slots c : valid c -> slots_valid c.
Proof. intros Hv m Hm. by apply (v_mieru_ports c Hv m Hm). Qed.

(** *** No panic *)

Lemma calm_parse_domains v profile : calm (parse_domains v profile).
Proof. unfold parse_domains. calm. Qed.
Lemma calm_parse_mieru v profile : calm (parse_mieru v profile).
Proof. unfold parse_mieru. calm. apply calm_slots_ports. by eapply bounded_Ok. Qed.
Lemma calm_warp_domains v : calm (parse_warp_domains v).
Proof. unfold parse_warp_domains, parse_warp_domain. calm. Qed.
Lemma calm_parse_three_xui v explicit : calm (parse_three_xui v explicit).
Proof. pose proof calm_warp_domains. unfold parse_three_xui. calm. Qed.
Lemma calm_parse_choice raw p w r s b : calm (parse_choice raw p w r s b).
Proof. unfold parse_choice. calm. Qed.
Lemma calm_parse_egress v x p raw t : calm (parse_egress v x p raw t).
Proof. pose proof calm_parse_choice. unfold parse_egress. calm. Qed.
Lemma calm_parse_ingress v : calm (parse_ingress v).
Proof. unfold parse_ingress. calm. Qed.
Lemma calm_parse_versions items : forall versions, calm (parse_versions items versions).
Proof. induction items as [|i items IH]; intros versions; cbn [parse_versions]; calm. Qed.
Lemma calm_parse_amneziawg v d : calm (parse_amneziawg v d).
Proof. pose proof calm_parse_versions. unfold parse_amneziawg, awg_host, parse_awg_port, parse_dns. calm. Qed.
Lemma calm_parse_trusttunnel v d : calm (parse_trusttunnel v d).
Proof. unfold parse_trusttunnel. calm. Qed.
Lemma calm_parse_firewall v : calm (parse_firewall v).
Proof. unfold parse_firewall. calm. Qed.
Lemma calm_parse_identity root t required optional u :
  keys root t (["schema"; "host_mode"; "profile"; "acme_email"; "initial_user"] ++ required) optional = Ok u ->
  calm (parse_identity root).
Proof. intros H. unfold parse_identity. calm. Qed.
#[local] Hint Resolve calm_parse_domains calm_parse_mieru calm_parse_three_xui calm_parse_egress calm_parse_ingress
  calm_parse_amneziawg calm_parse_trusttunnel calm_parse_firewall : calm.

Lemma calm_cross_checks c : slots_valid c -> calm (cross_checks c).
Proof.
  intros Hs. destruct (reserved_dom c Hs) as (r & Hr & _), (planned_dom c Hs) as (t & Ht & _).
  destruct (planned_dom (without_trusttunnel c) Hs) as (w & Hw & _).
  assert (Hseen : forall l seen, calm (reject_seen seen l)) by (induction l; intros seen; cbn [reject_seen]; calm).
  unfold cross_checks, reject_duplicate_tcp_sni_domains, reject_trusttunnel_collisions, reject_mieru_port_collisions,
    reject_amneziawg_port_collisions, taken. rewrite Hr, Ht, Hw. calm.
Qed.

Lemma calm_resolve_slots m e : calm (resolve_slots m e).
Proof. unfold resolve_slots. calm. Qed.

Lemma calm_parse_root root : calm (parse_root root).
Proof.
  pose proof calm_resolve_slots. unfold parse_root. calm; [by eapply (calm_parse_identity _ _ ["domains"; "three_xui"; "firewall"])|].
  apply calm_cross_checks. intros m Hm. simpl in Hm. subst. by eapply mieru_resolved.
Qed.

Lemma calm_parse_config text : calm (parse_config text).
Proof.
  unfold parse_config. pose proof (loads_ends text) as He.
  destruct (Parser.loads text) as [root|[m|]]; [apply calm_parse_root|done|done].
Qed.
End accepted.

(** * The configuration: what the reader promises

    The properties of [Config] over the lemmas above, with a document that uses every
    section as their witness, and a document that shows a port the reader accepts twice. *)

(** ** Sample documents *)

Definition no_float_parse : FloatParse := {| parse_f64 := fun _ => None |}.

Definition sample_document (relay : string) : string := join nl
  ["schema = 1"; "host_mode = 'coexist'"; "profile = 'full'"; "acme_email = 'a@b.cd'"; "initial_user = 'admin'"; "";
   "[domains]"; "panel = 'Panel.Example.com.'"; "mtproxy = 'mt.example.com'"; "naive = 'n.example.com'";
   "mieru = 'm.example.com'"; "trusttunnel='tt.example.com'";
   "[mieru]"; "tcp_ports = [2000, 2001]"; "udp_ports = []"; "lane_slots = 3";
   "[egress]"; "warp = true"; "router = true"; "naive = 'router'"; "relay_port = " +:+ relay;
   "[ingress]"; "proxy_protocol_bridge = '127.0.0.1:9443'";
   "[amneziawg]"; "enabled = true"; "versions = ['2.0','1.5']"; "ports = { '1.5' = 51820 }"; "dns = ['1.1.1.1','2001:DB8::0001']";
   "[trusttunnel]"; "enabled=true";
   "[three_xui]"; "mode='managed-new'"; "panel_domain='x.example.com'"; "vless_tcp_domain='x1.example.com'";
   "vless_xhttp_domain='x2.example.com'"; "hysteria_domain='h.example.com'"; "warp_domains=['geosite:google','domain:example.org']";
   "[firewall]"; "manage_ufw=false"; ""].

Definition sample_config (relay : Z) : InstallerConfig :=
  {| c_schema := 1; c_host_mode := Coexist; c_profile := Full; c_acme_email := "a@b.cd"; c_initial_user := "admin";
     c_domains := {| d_panel := "panel.example.com"; d_mtproxy := "mt.example.com"; d_naive := Some "n.example.com";
                     d_mieru := Some "m.example.com"; d_subscription := None; d_mcp := None;
                     d_trusttunnel := Some "tt.example.com" |};
     c_mieru := Some {| tcp_ports := [2000; 2001]; udp_ports := []; lane_slots := 3 |};
     c_three_xui := {| x_mode := ManagedNew; x_panel_domain := Some "x.example.com";
                       x_vless_tcp_domain := Some "x1.example.com"; x_vless_xhttp_domain := Some "x2.example.com";
                       x_hysteria_domain := Some "h.example.com"; x_warp := true;
                       x_warp_domains := ["domain:example.org"; "geosite:google"]; x_warp_port := 40000;
                       x_subscription_domain := None |};
     c_firewall := {| manage_ufw := false |};
     c_egress := Some {| e_warp := true; e_warp_port := 40000; e_naive := EgressRouter; e_mieru := EgressWarp;
                         e_router := true; e_relay_port := relay |};
     c_ingress := Some {| i_proxy_protocol_bridge := Some "127.0.0.1:9443"; i_panel_tls_port := 8443;
                          i_skip_renewal_dry_run := false |};
     c_amneziawg := Some {| a_host := "panel.example.com"; a_versions := ["1.5"; "2.0"]; a_ports := [51820; 0];
                            a_mtu := 1280; a_dns := ["1.1.1.1"; "2001:db8::1"] |};
     c_trusttunnel := Some {| t_hostname := "tt.example.com"; t_listen_port := 4453 |} |}%Z.

Lemma sample_parsed : parse_config (UT := ascii_text) (FP := no_float_parse) (sample_document "45443") = Ok (sample_config 45443).
Proof. vm_compute. reflexivity. Qed.

(** ** Properties *)

Section properties.
Context {UT : UnicodeText} {FP : FloatParse}.

(** Reading a configuration never panics, whatever the text: a key is taken with [expect]-like
    access only after [keys] has required it, the lane slots are bounded before their ports are
    computed, and the TOML reader always answers. The result is a configuration or a message. *)
Theorem config_never_panics (text : string) :
  (exists c, parse_config text = Ok c) \/ (exists m, parse_config text = Err (ConfigErr m)).
Proof.
  pose proof (calm_parse_config text) as H. destruct (parse_config text) as [c|[m|]]; [by left; exists c|by right; exists m|done].
Qed.

(** C7: a configuration that was read is valid in every section: names have the shape of a domain and are
    there for exactly the protocols of the profile; ports are in 1024..65535 and distinct; the egress
    choices agree with [warp], [router] and the profile, and with [three_xui]; lane slots are at most 8
    and need the router; UFW only in fresh mode and ingress only in coexist mode, with a loopback bridge
    on another port; AmneziaWG's versions, MTU and DNS are within their bounds; TrustTunnel has its name. *)
Theorem accepted_valid (text : string) (c : InstallerConfig) : parse_config text = Ok c -> valid c.
Proof. apply parse_config_valid. Qed.

(** C6: in a configuration that was read no SNI name of the shared router is used twice, TrustTunnel's name
    is no other name, no Mieru TCP port is a reserved port, no explicit AmneziaWG port is a planned port,
    and TrustTunnel's two listeners are apart from each other and from every other planned port. *)
Theorem accepted_exclusive (text : string) (c : InstallerConfig) : parse_config text = Ok c -> exclusive c.
Proof. intros [Hv Hc]%parse_config_valid. by eapply cross_checks_Ok; [apply valid_slots|]. Qed.
End properties.

(** For a configuration whose lane slots are within their bound, the tables of reserved and planned ports
    are computed without a panic and their keys are exactly the listeners of the configuration. *)
Theorem port_tables_exact (c : InstallerConfig) : slots_valid c ->
  exists reserved planned, reserved_tcp_ports c = Ok reserved /\ planned_ports c = Ok planned
    /\ (forall p, is_Some (reserved !! p) <-> p ∈ reserved_list c)
    /\ (forall p, is_Some (planned !! p) <-> p ∈ planned_list c)
    /\ dom reserved ⊆ dom planned.
Proof.
  intros Hs. destruct (reserved_dom c Hs) as (r & Hr & Hrd), (planned_dom c Hs) as (t & Ht & Htd).
  exists r, t. split_and!; [done..|]. intros p. unfold PortTable in *. rewrite !elem_of_dom, Hrd, Htd. unfold planned_list.
  rewrite elem_of_app. by left.
Qed.

(** The relay port is checked against ports 80 and 443 and the two ingress ports of [ROUTER_PORTS] only:
    a document whose [egress.relay_port] is the Xray-router's TrustTunnel ingress, with TrustTunnel
    enabled, is accepted, although both are listeners of the one router on the same host. *)
Theorem relay_port_gap : exists c e t,
  parse_config (UT := ascii_text) (FP := no_float_parse) (sample_document "45104") = Ok c
  /\ c_egress c = Some e /\ e_router e = true /\ c_trusttunnel c = Some t
  /\ e_relay_port e = TRUSTTUNNEL_ROUTER_PORT.
Proof.
  exists (sample_config 45104). do 2 eexists. split; [vm_compute; reflexivity|]. split; [reflexivity|].
  split; [reflexivity|]. split; reflexivity.
Qed.

(** ** Witnesses *)

Lemma accepted_valid_witness : valid (sample_config 45443).
Proof. apply (accepted_valid (UT := ascii_text) (FP := no_float_parse) (sample_document "45443")). exact sample_parsed. Defined.
Lemma accepted_exclusive_witness : exclusive (sample_config 45443).
Proof. apply (accepted_exclusive (UT := ascii_text) (FP := no_float_parse) (sample_document "45443")). exact sample_parsed. Defined.
Lemma port_tables_exact_witness : exists reserved planned,
  reserved_tcp_ports (sample_config 45443) = Ok reserved /\ planned_ports (sample_config 45443) = Ok planned
  /\ (forall p, is_Some (reserved !! p) <-> p ∈ reserved_list (sample_config 45443))
  /\ (forall p, is_Some (planned !! p) <-> p ∈ planned_list (sample_config 45443))
  /\ dom reserved ⊆ dom planned.
Proof. apply (port_tables_exact (sample_config 45443)). intros m [= <-]. vm_compute. split; discriminate. Defined.
