(* ===== verification/Errors.v ===== *)
(** * The installer's errors

    [pc_host/src/error.rs] ([TxError]), [pc_host/src/runner/mod.rs] ([RunError], [BoundedError]) and
    [installer/src/error.rs] ([Error]): the Python class name the journal records and whether the
    failure stops the engine without a rollback. *)

From S2P Require Import Prelude Numeric Plan.

(** [io::Error]: the operating system's code when there is one, the kind, the text. *)
Inductive ErrorKind :=
| NotFound | PermissionDenied | AlreadyExists | KTimedOut | KInterrupted | WouldBlock | BrokenPipe
| ConnectionRefused | ConnectionReset | ConnectionAborted | OtherKind.

Record IoError := { raw_os_error : option Z; io_kind : ErrorKind; io_text : string }.

(** The Linux values of the [libc] constants. *)
Definition os_error_class (err : IoError) : string :=
  match raw_os_error err with
  | None =>
      match io_kind err with
      | NotFound => "FileNotFoundError"
      | PermissionDenied => "PermissionError"
      | AlreadyExists => "FileExistsError"
      | KTimedOut => "TimeoutError"
      | KInterrupted => "InterruptedError"
      | WouldBlock => "BlockingIOError"
      | BrokenPipe => "BrokenPipeError"
      | ConnectionRefused => "ConnectionRefusedError"
      | ConnectionReset => "ConnectionResetError"
      | ConnectionAborted => "ConnectionAbortedError"
      | OtherKind => "OSError"
      end
  | Some code =>
      if (code =? 2)%Z then "FileNotFoundError"
      else if (code =? 13)%Z || (code =? 1)%Z then "PermissionError"
      else if (code =? 17)%Z then "FileExistsError"
      else if (code =? 20)%Z then "NotADirectoryError"
      else if (code =? 21)%Z then "IsADirectoryError"
      else if (code =? 4)%Z then "InterruptedError"
      else if (code =? 110)%Z then "TimeoutError"
      else if (code =? 10)%Z then "ChildProcessError"
      else if (code =? 3)%Z then "ProcessLookupError"
      else if (code =? 32)%Z || (code =? 108)%Z then "BrokenPipeError"
      else if (code =? 103)%Z then "ConnectionAbortedError"
      else if (code =? 111)%Z then "ConnectionRefusedError"
      else if (code =? 104)%Z then "ConnectionResetError"
      else if (code =? 11)%Z || (code =? 114)%Z || (code =? 115)%Z then "BlockingIOError"
      else "OSError"
  end.

Inductive TxError :=
| Transaction (m : string)
| AcceptedDigest (m : string)
| OwnershipErr (m : string)
| OwnershipRecoveryFailed (m : string)
| Busy (m : string)
| Io (err : IoError).

Module TxError.
Definition python_class_name (e : TxError) : string :=
  match e with
  | Transaction _ => "TransactionError"
  | AcceptedDigest _ => "AcceptedDigestError"
  | OwnershipErr _ => "OwnershipError"
  | OwnershipRecoveryFailed _ => "OwnershipRecoveryFailed"
  | Busy _ => "TransactionBusyError"
  | Io err => os_error_class err
  end.
Definition message (e : TxError) : string :=
  match e with
  | Transaction m | AcceptedDigest m | OwnershipErr m | OwnershipRecoveryFailed m | Busy m => m
  | Io err => io_text err
  end.
Definition is_busy (e : TxError) : bool := match e with Busy _ => true | _ => false end.
End TxError.

Inductive RunError :=
| RunStdin (err : IoError)
| RunSpawn (err : IoError)
| RunTimedOut (stderr : string)
| RunInterrupted (stderr : string)
| RunIo (err : IoError)
| CleanupUnconfirmed.

Module RunError.
Definition python_class_name (e : RunError) : string :=
  match e with
  | RunStdin err | RunSpawn err | RunIo err => os_error_class err
  | RunTimedOut _ => "TimeoutExpired"
  | RunInterrupted _ => "KeyboardInterrupt"
  | CleanupUnconfirmed => "SystemExit"
  end.
Definition stops_the_engine (e : RunError) : bool :=
  match e with RunInterrupted _ | CleanupUnconfirmed => true | _ => false end.
Definition stderr (e : RunError) : string :=
  match e with RunTimedOut s | RunInterrupted s => s | _ => EmptyString end.
Definition CLEANUP_UNCONFIRMED : string := 
  "command cleanup could not be confirmed; do not resume or repair until an operator verifies all command processes have stopped".
Definition display (e : RunError) : string :=
  match e with
  | RunStdin err | RunSpawn err | RunIo err => io_text err
  | RunTimedOut _ => "command timed out"
  | RunInterrupted _ => "command interrupted"
  | CleanupUnconfirmed => CLEANUP_UNCONFIRMED
  end.
End RunError.

Inductive BoundedError :=
| InvalidArgv (m : string)
| InvalidLimits (m : string)
| InvalidTimeout
| Unavailable
| CouldNotExecute
| BTimedOut
| OutputLimit
| BInterrupted
| Failed (code : Z)
| MalformedJson.

Module BoundedError.
Definition python_class_name (e : BoundedError) : string :=
  match e with
  | Unavailable => "CommandUnavailable"
  | InvalidLimits _ | InvalidTimeout => "ValueError"
  | BInterrupted => "KeyboardInterrupt"
  | _ => "AuditError"
  end.
Definition display (e : BoundedError) : string :=
  match e with
  | InvalidArgv m | InvalidLimits m => m
  | InvalidTimeout => "timeout must be positive and finite"
  | Unavailable => "command is unavailable"
  | CouldNotExecute => "command could not be executed"
  | BTimedOut => "command timed out"
  | OutputLimit => "command output limit exceeded"
  | BInterrupted => "command interrupted"
  | Failed code => "command failed with exit status " +:+ fmt_Z code
  | MalformedJson => "command returned malformed JSON"
  end.
End BoundedError.

(** [installer::error::Error]. *)
Inductive Error :=
| ETx (err : TxError)
| EPlan (err : PlanError)
| EOther (class message : string)
| EFatal (class message : string).

Definition transaction (m : string) : TxError := Transaction m.
Definition ownership_error (m : string) : TxError := OwnershipErr m.

Module Error.
Definition python_class_name (e : Error) : string :=
  match e with
  | ETx err => TxError.python_class_name err
  | EPlan err => PlanError.python_class_name err
  | EOther class _ | EFatal class _ => class
  end.
Definition message (e : Error) : string :=
  match e with
  | ETx err => TxError.message err
  | EPlan err => PlanError.message err
  | EOther _ m | EFatal _ m => m
  end.
Definition is_fatal (e : Error) : bool := match e with EFatal _ _ => true | _ => false end.
Definition as_tx (e : Error) : option TxError := match e with ETx err => Some err | _ => None end.

Definition from_run (e : RunError) : Error :=
  let class := RunError.python_class_name e in
  if RunError.stops_the_engine e then EFatal class (RunError.display e) else EOther class (RunError.display e).
Definition from_bounded (e : BoundedError) : Error :=
  let class := BoundedError.python_class_name e in
  match e with
  | BInterrupted => EFatal class (BoundedError.display e)
  | _ => EOther class (BoundedError.display e)
  end.
End Error.
