(* ===== verification/Journal.v ===== *)
(** * The journal

    [installer/src/journal.rs]: statuses and phases, ownership entries, checkpoints and the transaction
    state with their writers and strict readers. *)

From S2P Require Import Prelude BTree Utf8 Numeric Json Errors.

Definition TRANSACTION_SCHEMA : Z := 1.
Definition ORIGIN_INSTALLER : string := "installer-v1".

Abbreviation CheckpointData := (bmap Value).
Abbreviation tx_result := (result TxError).

Definition invalid (message : string) : TxError := transaction message.

Inductive Status := SApplying | SActive | SRollingBack | SRollbackFailed | SUninstalling | SRolledBack | SUninstalled.
Inductive Phase := Prepared | Applying | Applied | Verified | RollbackInProgress | RolledBack.
Inductive RollbackTarget := ToRolledBack | ToUninstalled.

#[export] Instance Status_eq_dec : EqDecision Status.
Proof. solve_decision. Defined.
#[export] Instance Phase_eq_dec : EqDecision Phase.
Proof. solve_decision. Defined.
#[export] Instance RollbackTarget_eq_dec : EqDecision RollbackTarget.
Proof. solve_decision. Defined.

Module Status.
Definition as_str (s : Status) : string :=
  match s with
  | SApplying => "applying"
  | SActive => "active"
  | SRollingBack => "rolling_back"
  | SRollbackFailed => "rollback_failed"
  | SUninstalling => "uninstalling"
  | SRolledBack => "rolled_back"
  | SUninstalled => "uninstalled"
  end.
Definition parse (text : string) : option Status :=
  if text =?s "applying" then Some SApplying
  else if text =?s "active" then Some SActive
  else if text =?s "rolling_back" then Some SRollingBack
  else if text =?s "rollback_failed" then Some SRollbackFailed
  else if text =?s "uninstalling" then Some SUninstalling
  else if text =?s "rolled_back" then Some SRolledBack
  else if text =?s "uninstalled" then Some SUninstalled
  else None.
Definition is_interrupted (s : Status) : bool :=
  match s with SApplying | SRollingBack | SRollbackFailed | SUninstalling => true | _ => false end.
End Status.

Module Phase.
Definition as_str (p : Phase) : string :=
  match p with
  | Prepared => "prepared"
  | Applying => "applying"
  | Applied => "applied"
  | Verified => "verified"
  | RollbackInProgress => "rollback_in_progress"
  | RolledBack => "rolled_back"
  end.
Definition parse (text : string) : option Phase :=
  if text =?s "prepared" then Some Prepared
  else if text =?s "applying" then Some Applying
  else if text =?s "applied" then Some Applied
  else if text =?s "verified" then Some Verified
  else if text =?s "rollback_in_progress" then Some RollbackInProgress
  else if text =?s "rolled_back" then Some RolledBack
  else None.
Definition owns (p : Phase) (include_in_progress : bool) : bool :=
  match p with
  | Applied | Verified => true
  | RollbackInProgress => include_in_progress
  | _ => false
  end.
End Phase.

Module RollbackTarget.
Definition as_str (t : RollbackTarget) : string :=
  match t with ToRolledBack => "rolled_back" | ToUninstalled => "uninstalled" end.
Definition parse (text : string) : option RollbackTarget :=
  if text =?s "rolled_back" then Some ToRolledBack
  else if text =?s "uninstalled" then Some ToUninstalled else None.
Definition status (t : RollbackTarget) : Status :=
  match t with ToRolledBack => SRolledBack | ToUninstalled => SUninstalled end.
End RollbackTarget.

(** [keys.all(|key| known.contains(key))], negated as the readers ask. *)
Definition has_unknown (m : bmap Value) (known : list string) : bool :=
  existsb (fun key => negb (mem_str key known)) (bkeys m).
Definition lacks_any (m : bmap Value) (required : list string) : bool :=
  existsb (fun key => negb (bhas key m)) required.
(** [map[key].as_str()] of a key known to be there. *)
Definition str_at (m : bmap Value) (key : string) : option string := m @@ key ≫= as_str.

(** ** Ownership entries *)

Record OwnershipEntry := {
  o_action_id : string; o_adapter : string; o_kind : string;
  o_mutable : option bool; o_preserve : bool; o_sha256 : string;
}.

#[export] Instance OwnershipEntry_eq_dec : EqDecision OwnershipEntry.
Proof. solve_decision. Defined.

(** [if let Some(x) = o { map.insert(key, f(x)) }]. *)
Definition bset_opt {A} (key : string) (f : A -> Value) (o : option A) (m : bmap Value) : bmap Value :=
  match o with Some a => bset key (f a) m | None => m end.

Module OwnershipEntry.
Definition to_value (e : OwnershipEntry) : Value :=
  let m := bset "kind" (Str (o_kind e))
    (bset "adapter" (Str (o_adapter e)) (bset "action_id" (Str (o_action_id e)) [])) in
  let m := bset_opt "mutable" Bool (o_mutable e) m in
  Object (bset "sha256" (Str (o_sha256 e)) (bset "preserve" (Bool (o_preserve e)) m)).

Definition REQUIRED : list string := ["action_id"; "adapter"; "kind"; "preserve"; "sha256"].

Definition from_value (value : Value) : option OwnershipEntry :=
  m ← as_object value;
  if lacks_any m REQUIRED || has_unknown m (REQUIRED ++ ["mutable"]) then None else
  action_id ← str_at m "action_id";
  adapter ← str_at m "adapter";
  kind ← str_at m "kind";
  mutable ← match m @@ "mutable" with
            | None => Some None
            | Some value => Some <$> as_bool value
            end;
  preserve ← m @@ "preserve" ≫= as_bool;
  sha256 ← str_at m "sha256";
  Some {| o_action_id := action_id; o_adapter := adapter; o_kind := kind; o_mutable := mutable;
          o_preserve := preserve; o_sha256 := sha256 |}.

Definition is_mutable (e : OwnershipEntry) : bool :=
  match o_mutable e with Some true => true | _ => false end.
End OwnershipEntry.

Abbreviation Ownership := (bmap OwnershipEntry).

Definition ownership_to_value (ownership : Ownership) : Value :=
  Object (bcollect (map (fun e => (e.1, OwnershipEntry.to_value e.2)) ownership)).

Definition ownership_from_value (value : Value) : option Ownership :=
  m ← as_object value;
  bcollect <$> mapM (fun e => (fun entry => (e.1, entry)) <$> OwnershipEntry.from_value e.2) m.

(** ** Checkpoints *)

Record Checkpoint := {
  k_action_id : string; k_adapter : string; k_phase : Phase; k_data : CheckpointData;
  k_ownership : Ownership; k_evidence : option (bmap Value); k_rollback_evidence : option (bmap Value);
}.

Module Checkpoint.
Definition new (action_id adapter : string) (phase : Phase) (data : CheckpointData) : Checkpoint :=
  {| k_action_id := action_id; k_adapter := adapter; k_phase := phase; k_data := data;
     k_ownership := []; k_evidence := None; k_rollback_evidence := None |}.

Definition validate (k : Checkpoint) : tx_result unit :=
  if str_empty (k_action_id k) || str_empty (k_adapter k)
  then Err (invalid "checkpoint identity is invalid") else Ok tt.

Definition to_value (k : Checkpoint) : Value :=
  let m := bset "phase" (Str (Phase.as_str (k_phase k)))
    (bset "ownership" (ownership_to_value (k_ownership k))
    (bset "data" (Object (k_data k))
    (bset "adapter" (Str (k_adapter k)) (bset "action_id" (Str (k_action_id k)) [])))) in
  Object (bset_opt "rollback_evidence" Object (k_rollback_evidence k)
         (bset_opt "evidence" Object (k_evidence k) m)).

Definition REQUIRED : list string := ["action_id"; "adapter"; "data"; "ownership"; "phase"].

(** The closure [evidence] of [from_value]. *)
Definition evidence_at (m : bmap Value) (key : string) : tx_result (option (bmap Value)) :=
  match m @@ key with
  | None | Some Null => Ok None
  | Some (Object record) => Ok (Some record)
  | Some _ => Err (invalid "checkpoint is invalid")
  end.

Definition from_value (value : Value) : tx_result Checkpoint :=
  let bad := invalid "checkpoint is invalid" in
  m ← as_object value or_err bad;
  if lacks_any m REQUIRED || has_unknown m (REQUIRED ++ ["evidence"; "rollback_evidence"]) then Err bad else
  action_id ← str_at m "action_id" or_err bad;
  adapter ← str_at m "adapter" or_err bad;
  if str_empty action_id || str_empty adapter then Err (invalid "checkpoint identity is invalid") else
  phase ← (str_at m "phase" ≫= Phase.parse) or_err invalid "checkpoint phase is invalid";
  data ← (m @@ "data" ≫= as_object) or_err bad;
  ownership ← (m @@ "ownership" ≫= ownership_from_value) or_err bad;
  evidence ← evidence_at m "evidence";
  rollback_evidence ← evidence_at m "rollback_evidence";
  Ok {| k_action_id := action_id; k_adapter := adapter; k_phase := phase; k_data := data;
        k_ownership := ownership; k_evidence := evidence; k_rollback_evidence := rollback_evidence |}.

Definition with_phase (k : Checkpoint) (phase : Phase) : Checkpoint :=
  {| k_action_id := k_action_id k; k_adapter := k_adapter k; k_phase := phase; k_data := k_data k;
     k_ownership := k_ownership k; k_evidence := k_evidence k; k_rollback_evidence := k_rollback_evidence k |}.
End Checkpoint.

Definition is_hex (text : string) (length : nat) : bool :=
  (String.length text =? length)%nat &&
  forallb_s (fun b => is_digit b || ((97 <=? Ascii.N_of_ascii b) && (Ascii.N_of_ascii b <=? 102))%N) text.

(** ** The state *)

Record TransactionState := {
  s_transaction_id : string; s_status : Status; s_plan_digest : string; s_accepted_digest : string;
  s_checkpoints : list Checkpoint; s_purge_data : option bool; s_rollback_target : option RollbackTarget;
  s_origin : string; s_error : option string; s_legacy : bmap Value; s_schema : Z;
}.

(** [items.iter().all(|item| seen.insert(item.action_id))]: no id twice. *)
Fixpoint all_distinct (seen : list string) (ids : list string) : bool :=
  match ids with
  | [] => true
  | i :: rest => negb (mem_str i seen) && all_distinct (i :: seen) rest
  end.

Module TransactionState.
Definition new (transaction_id : string) (status : Status) (plan_digest : string) : TransactionState :=
  {| s_transaction_id := transaction_id; s_status := status; s_plan_digest := plan_digest;
     s_accepted_digest := plan_digest; s_checkpoints := []; s_purge_data := None; s_rollback_target := None;
     s_origin := ORIGIN_INSTALLER; s_error := None; s_legacy := []; s_schema := TRANSACTION_SCHEMA |}.

Definition validate (s : TransactionState) : tx_result unit :=
  if negb (s_schema s =? TRANSACTION_SCHEMA)%Z then Err (invalid "transaction schema is invalid")
  else if negb (is_hex (s_transaction_id s) 32) then Err (invalid "transaction identity is invalid")
  else if negb (is_hex (s_plan_digest s) 64) || negb (s_accepted_digest s =?s s_plan_digest s)
  then Err (invalid "transaction plan digest is invalid")
  else
    try_for Checkpoint.validate (s_checkpoints s) ≫= fun _ =>
    if negb (all_distinct [] (map k_action_id (s_checkpoints s)))
    then Err (invalid "transaction checkpoint actions are duplicated")
    else if str_empty (s_origin s) then Err (invalid "transaction origin is invalid")
    else Ok tt.

Definition to_value (s : TransactionState) : Value :=
  let m := bset "transaction_id" (Str (s_transaction_id s))
    (bset "status" (Str (Status.as_str (s_status s)))
    (bset "schema" (json_int (s_schema s))
    (bset "plan_digest" (Str (s_plan_digest s))
    (bset "origin" (Str (s_origin s))
    (bset "checkpoints" (Array (map Checkpoint.to_value (s_checkpoints s)))
    (bset "accepted_digest" (Str (s_accepted_digest s)) [])))))) in
  let m := bset_opt "error" Str (s_error s) m in
  let m := match s_legacy s with [] => m | _ => bset "legacy" (Object (s_legacy s)) m end in
  let m := bset_opt "purge_data" Bool (s_purge_data s) m in
  Object (bset_opt "rollback_target" (fun t => Str (RollbackTarget.as_str t)) (s_rollback_target s) m).

Definition REQUIRED : list string :=
  ["accepted_digest"; "checkpoints"; "origin"; "plan_digest"; "schema"; "status"; "transaction_id"].
Definition OPTIONAL : list string := ["error"; "legacy"; "purge_data"; "rollback_target"].

Definition from_value (value : Value) : tx_result TransactionState :=
  let state_invalid := invalid "transaction state is invalid" in
  m ← as_object value or_err state_invalid;
  if lacks_any m REQUIRED || has_unknown m (REQUIRED ++ OPTIONAL) then Err state_invalid else
  raw_checkpoints ← (m @@ "checkpoints" ≫= as_array) or_err invalid "transaction checkpoints are invalid";
  checkpoints ← mapM Checkpoint.from_value raw_checkpoints;
  schema ← (m @@ "schema" ≫= as_i64) or_err invalid "transaction schema is invalid";
  if negb (schema =? TRANSACTION_SCHEMA)%Z then Err (invalid "transaction schema is invalid") else
  transaction_id ← str_at m "transaction_id" or_err state_invalid;
  if negb (is_hex transaction_id 32) then Err (invalid "transaction identity is invalid") else
  status ← (str_at m "status" ≫= Status.parse) or_err invalid "transaction status is invalid";
  plan_digest ← str_at m "plan_digest" or_err invalid "transaction plan digest is invalid";
  accepted_digest ← str_at m "accepted_digest" or_err invalid "transaction plan digest is invalid";
  if negb (is_hex plan_digest 64) || negb (accepted_digest =?s plan_digest)
  then Err (invalid "transaction plan digest is invalid") else
  if negb (all_distinct [] (map k_action_id checkpoints))
  then Err (invalid "transaction checkpoint actions are duplicated") else
  purge_data ← match m @@ "purge_data" with
               | None | Some Null => Ok None
               | Some (Bool value) => Ok (Some value)
               | Some _ => Err (invalid "transaction data policy is invalid")
               end;
  rollback_target ← match m @@ "rollback_target" with
                    | None | Some Null => Ok None
                    | Some value => Some <$> ((as_str value ≫= RollbackTarget.parse) or_err
                                               invalid "transaction rollback target is invalid")
                    end;
  origin ← str_at m "origin" or_err invalid "transaction origin is invalid";
  error ← match m @@ "error" with
          | None | Some Null => Ok None
          | Some (Str error) => Ok (Some error)
          | Some _ => Err state_invalid
          end;
  legacy ← match m @@ "legacy" with
           | None | Some Null => Ok []
           | Some (Object legacy) => Ok legacy
           | Some _ => Err state_invalid
           end;
  let state := {| s_transaction_id := transaction_id; s_status := status; s_plan_digest := plan_digest;
                  s_accepted_digest := accepted_digest; s_checkpoints := checkpoints;
                  s_purge_data := purge_data; s_rollback_target := rollback_target; s_origin := origin;
                  s_error := error; s_legacy := legacy; s_schema := schema |} in
  validate state ≫= fun _ => Ok state.

(** The slot of the same action is replaced, or the checkpoint is appended. *)
Fixpoint put_checkpoint (replacement : Checkpoint) (l : list Checkpoint) : list Checkpoint :=
  match l with
  | [] => [replacement]
  | item :: l' =>
      if k_action_id item =?s k_action_id replacement then replacement :: l'
      else item :: put_checkpoint replacement l'
  end.
Definition set_checkpoints (s : TransactionState) (l : list Checkpoint) : TransactionState :=
  {| s_transaction_id := s_transaction_id s; s_status := s_status s; s_plan_digest := s_plan_digest s;
     s_accepted_digest := s_accepted_digest s; s_checkpoints := l; s_purge_data := s_purge_data s;
     s_rollback_target := s_rollback_target s; s_origin := s_origin s; s_error := s_error s;
     s_legacy := s_legacy s; s_schema := s_schema s |}.
Definition with_checkpoint (s : TransactionState) (replacement : Checkpoint) : TransactionState :=
  set_checkpoints s (put_checkpoint replacement (s_checkpoints s)).

Definition checkpoint (s : TransactionState) (action_id : string) : option Checkpoint :=
  find (fun item => k_action_id item =?s action_id) (s_checkpoints s).

(** The inner loop of [ownership]: [insert] tells a duplicate. *)
Fixpoint claim (entries : Ownership) (ownership : Ownership) : tx_result Ownership :=
  match entries with
  | [] => Ok ownership
  | (path, entry) :: rest =>
      if bhas path ownership then Err (ownership_error "ownership journal contains duplicate paths")
      else claim rest (bset path entry ownership)
  end.
Fixpoint claim_all (include_in_progress : bool) (l : list Checkpoint) (ownership : Ownership) : tx_result Ownership :=
  match l with
  | [] => Ok ownership
  | k :: rest =>
      if Phase.owns (k_phase k) include_in_progress
      then match claim (k_ownership k) ownership with
           | Ok ownership => claim_all include_in_progress rest ownership
           | Err e => Err e
           end
      else claim_all include_in_progress rest ownership
  end.
Definition ownership (s : TransactionState) (include_in_progress : bool) : tx_result Ownership :=
  claim_all include_in_progress (s_checkpoints s) [].

Definition record_value (evidence : option (bmap Value)) : Value :=
  match evidence with Some m => Object m | None => Null end.
Definition report_value (s : TransactionState) : Value :=
  obj [("checkpoints", Array (map (fun k =>
         obj [("action_id", Str (k_action_id k)); ("evidence", record_value (k_evidence k));
              ("phase", Str (Phase.as_str (k_phase k)));
              ("rollback_evidence", record_value (k_rollback_evidence k))]) (s_checkpoints s)));
       ("error", match s_error s with Some e => Str e | None => Null end);
       ("plan_digest", Str (s_plan_digest s)); ("schema", json_int TRANSACTION_SCHEMA);
       ("status", Str (Status.as_str (s_status s))); ("transaction_id", Str (s_transaction_id s))].
End TransactionState.
