(* ===== verification/JournalFacts.v ===== *)
(** * The journal reads back what it wrote

    The strict readers of [installer/src/journal.rs] against their writers, and the ownership union. *)

From S2P Require Import Prelude BTree Utf8 Numeric Json Errors Journal.

(** ** Maps of known keys *)

Lemma has_unknown_false m known :
  has_unknown m known = false <-> forall k, k ∉ known -> m @@ k = None.
Proof.
  unfold has_unknown. split.
  - intros H k Hk. destruct (m @@ k) eqn:Hm; [|done]. exfalso.
    assert (Hin : k ∈ bkeys m) by (apply bhas_true; unfold bhas; by rewrite Hm).
    assert (Ht : existsb (fun key => negb (mem_str key known)) (bkeys m) = true).
    { apply existsb_exists. exists k. split; [by apply list_elem_of_In|].
      destruct (mem_str k known) eqn:Hmem; [by apply mem_str_true in Hmem|done]. }
    congruence.
  - intros H. destruct (existsb _ _) eqn:He; [|done]. apply existsb_exists in He as (k & Hk & Hn).
    apply list_elem_of_In, bhas_true in Hk. unfold bhas in Hk. rewrite H in Hk; [done|].
    intros Hin%mem_str_true. by rewrite Hin in Hn.
Qed.

Lemma lacks_any_false m required :
  lacks_any m required = false <-> Forall (fun k => m @@ k <> None) required.
Proof.
  unfold lacks_any. induction required as [|k l IH]; simpl; [split; [constructor|done]|].
  rewrite Forall_cons, <-IH, orb_false_iff. unfold bhas. destruct (m @@ k); simpl; split; intros [H1 H2]; done.
Qed.

(** Two sorted maps that agree on the known keys and hold no other are equal. *)
Lemma known_ext m n known :
  bsorted m = true -> bsorted n = true -> has_unknown m known = false -> has_unknown n known = false ->
  Forall (fun k => m @@ k = n @@ k) known -> m = n.
Proof.
  intros Hm Hn Hum Hun Hall. apply bmap_ext; [done..|]. intros k.
  destruct (decide (k ∈ known)) as [Hk|Hk].
  - rewrite Forall_forall in Hall. by apply Hall.
  - by rewrite (proj1 (has_unknown_false m known) Hum k Hk), (proj1 (has_unknown_false n known) Hun k Hk).
Qed.

(** Every object inside has its keys in order. *)
Fixpoint ordered (v : Value) : bool :=
  match v with
  | Array l => forallb ordered l
  | Object m => bsorted m && forallb (fun e => ordered e.2) m
  | _ => true
  end.

Lemma ordered_get m k v : ordered (Object m) = true -> m @@ k = Some v -> ordered v = true.
Proof.
  cbn [ordered]. intros [_ H]%andb_prop Hk%bget_Some_In. rewrite forallb_forall in H.
  apply list_elem_of_In in Hk. by apply H in Hk.
Qed.

Lemma str_at_Some m k s : str_at m k = Some s <-> m @@ k = Some (Str s).
Proof.
  unfold str_at. destruct (m @@ k) as [v|]; simpl; [|done]. destruct v; simpl; try (split; [done|congruence]).
  split; congruence.
Qed.

Lemma as_object_Some v m : as_object v = Some m <-> v = Object m.
Proof. destruct v; simpl; split; congruence. Qed.
Lemma as_bool_Some v b : as_bool v = Some b <-> v = Bool b.
Proof. destruct v; simpl; split; congruence. Qed.
Lemma as_array_Some v l : as_array v = Some l <-> v = Array l.
Proof. destruct v; simpl; split; congruence. Qed.

Lemma bind_Some {A B} (o : option A) (f : A -> option B) b :
  (o ≫= f) = Some b <-> exists a, o = Some a /\ f a = Some b.
Proof. destruct o; simpl; [split; [eauto|by intros (? & [= ->] & ?)]|split; [done|by intros (? & ? & _)]]. Qed.

(** ** Names of statuses, phases and targets *)

Lemma status_parse_iff t s : Status.parse t = Some s <-> t = Status.as_str s.
Proof.
  split; [|intros ->; by destruct s]. unfold Status.parse.
  repeat (case_match; [intros [= <-]; apply eqb_s_true; assumption|]). done.
Qed.
Lemma phase_parse_iff t p : Phase.parse t = Some p <-> t = Phase.as_str p.
Proof.
  split; [|intros ->; by destruct p]. unfold Phase.parse.
  repeat (case_match; [intros [= <-]; apply eqb_s_true; assumption|]). done.
Qed.
Lemma target_parse_iff t r : RollbackTarget.parse t = Some r <-> t = RollbackTarget.as_str r.
Proof.
  split; [|intros ->; by destruct r]. unfold RollbackTarget.parse.
  repeat (case_match; [intros [= <-]; apply eqb_s_true; assumption|]). done.
Qed.

(** ** Ownership entries *)

Ltac invert_opt := repeat match goal with
  | H : mbind _ _ = Some _ |- _ => let a := fresh "a" in apply bind_Some in H as (a & ? & H)
  | H : (_ ≫= _) = Some _ |- _ => let a := fresh "a" in apply bind_Some in H as (a & ? & H)
  | H : str_at _ _ = Some _ |- _ => apply str_at_Some in H
  | H : as_object _ = Some _ |- _ => apply as_object_Some in H
  | H : as_bool _ = Some _ |- _ => apply as_bool_Some in H
  | H : as_array _ = Some _ |- _ => apply as_array_Some in H
  end.

Lemma entry_value_inv v e : ordered v = true ->
  OwnershipEntry.from_value v = Some e -> v = OwnershipEntry.to_value e.
Proof.
  intros Hv H. unfold OwnershipEntry.from_value in H. apply bind_Some in H as (m & Hm & H).
  apply as_object_Some in Hm as ->. destruct (lacks_any _ _ || has_unknown _ _) eqn:Hk; [done|].
  apply orb_false_iff in Hk as [_ Hu]. apply bind_Some in H as (a1 & H1 & H). apply bind_Some in H as (a2 & H2 & H).
  apply bind_Some in H as (a3 & H3 & H). apply bind_Some in H as (a4 & H4 & H).
  apply bind_Some in H as (a5 & H5 & H). apply bind_Some in H as (a6 & H6 & H). injection H as <-.
  apply bind_Some in H5 as (p & H5 & Hp). apply as_bool_Some in Hp as ->. apply str_at_Some in H1, H2, H3, H6.
  cbn [ordered] in Hv. apply andb_prop in Hv as [Hs _]. unfold OwnershipEntry.to_value. simpl.
  f_equal. apply (known_ext _ _ (OwnershipEntry.REQUIRED ++ ["mutable"])); try done.
  - by destruct a4.
  - by destruct a4.
  - destruct (m @@ "mutable") as [mv|] eqn:Hmut; simpl in H4.
    + destruct (as_bool mv) as [b|] eqn:Hb; [|done]. apply as_bool_Some in Hb as ->. injection H4 as <-.
      repeat constructor; assumption.
    + injection H4 as <-. repeat constructor; assumption.
Qed.

Lemma entry_roundtrip e : OwnershipEntry.from_value (OwnershipEntry.to_value e) = Some e.
Proof. by destruct e as [? ? ? [b|] ? ?]. Qed.

Lemma entry_ordered e : ordered (OwnershipEntry.to_value e) = true.
Proof. by destruct e as [? ? ? [b|] ? ?]. Qed.

Lemma ownership_to_sorted o : bsorted o = true ->
  ownership_to_value o = Object (map (fun e => (e.1, OwnershipEntry.to_value e.2)) o).
Proof.
  intros Ho. unfold ownership_to_value. rewrite bcollect_sorted; [done|].
  by rewrite (bsorted_map (fun e => OwnershipEntry.to_value e.2)).
Qed.

Lemma mapM_Some_list {A B} (f : A -> option B) l k : mapM f l = Some k <-> Forall2 (fun a b => f a = Some b) l k.
Proof. apply mapM_Some. Qed.

Lemma ownership_inv v o : ordered v = true -> ownership_from_value v = Some o ->
  bsorted o = true /\ v = ownership_to_value o.
Proof.
  intros Hv H. unfold ownership_from_value in H. apply bind_Some in H as (m & Hm & H).
  apply as_object_Some in Hm as ->. cbn [ordered] in Hv. apply andb_prop in Hv as [Hs Hv].
  destruct (mapM _ m) as [l|] eqn:Hl; simpl in H; [|done]. injection H as <-.
  assert (Hml : m = map (fun e => (e.1, OwnershipEntry.to_value e.2)) l /\ map fst l = map fst m).
  { apply mapM_Some in Hl. clear Hs. induction Hl as [|[k x] [k' e] m l Hx _ IH]; [done|].
    cbn [forallb] in Hv. apply andb_prop in Hv as [Hox Hv]. destruct (IH Hv) as [-> Hk]. simpl in *.
    destruct (OwnershipEntry.from_value x) as [e'|] eqn:He; simpl in Hx; [|done].
    injection Hx as -> ->. apply entry_value_inv in He as ->; [|done]. by rewrite Hk. }
  destruct Hml as [Hml _].
  assert (Hsl : bsorted l = true) by (rewrite Hml, (bsorted_map (fun e => OwnershipEntry.to_value e.2)) in Hs; done).
  rewrite bcollect_sorted by done. split; [done|]. rewrite ownership_to_sorted by done. by rewrite Hml.
Qed.

Lemma ownership_roundtrip o : bsorted o = true -> ownership_from_value (ownership_to_value o) = Some o.
Proof.
  intros Ho. rewrite ownership_to_sorted by done. unfold ownership_from_value. simpl.
  assert (Hm : mapM (fun e => (fun entry => (e.1, entry)) <$> OwnershipEntry.from_value e.2)
    (map (fun e => (e.1, OwnershipEntry.to_value e.2)) o) = Some o).
  { apply mapM_Some. clear Ho. induction o as [|[k e] o IH]; simpl; constructor; [|done].
    simpl. by rewrite entry_roundtrip. }
  rewrite Hm. simpl. by rewrite bcollect_sorted.
Qed.

Lemma ownership_ordered o : bsorted o = true -> ordered (ownership_to_value o) = true.
Proof.
  intros Ho. rewrite ownership_to_sorted by done. cbn [ordered].
  rewrite (bsorted_map (fun e => OwnershipEntry.to_value e.2)), Ho. simpl.
  apply forallb_forall. intros x Hx%list_elem_of_In. apply list_elem_of_fmap in Hx as (e & -> & _). apply entry_ordered.
Qed.

(** ** Checkpoints *)

(** The types' invariants: maps in key order. *)
Definition checkpoint_ok (k : Checkpoint) : bool :=
  bsorted (k_ownership k) && ordered (Object (k_data k)) &&
  match k_evidence k with Some m => ordered (Object m) | None => true end &&
  match k_rollback_evidence k with Some m => ordered (Object m) | None => true end.

(** No optional key is written as [null]. *)
Definition no_nulls (m : bmap Value) (optional : list string) : bool :=
  forallb (fun k => match m @@ k with Some Null => false | _ => true end) optional.
Definition checkpoint_plain (v : Value) : bool :=
  match v with Object m => no_nulls m ["evidence"; "rollback_evidence"] | _ => true end.

Lemma checkpoint_validate_iff k : Checkpoint.validate k = Ok tt <->
  str_empty (k_action_id k) = false /\ str_empty (k_adapter k) = false.
Proof.
  unfold Checkpoint.validate. destruct (str_empty (k_action_id k)), (str_empty (k_adapter k)); simpl;
    split; (done || by intros [? ?]).
Qed.

Lemma checkpoint_roundtrip k : bsorted (k_ownership k) = true -> Checkpoint.validate k = Ok tt ->
  Checkpoint.from_value (Checkpoint.to_value k) = Ok k.
Proof.
  intros Ho [H1 H2]%checkpoint_validate_iff. pose proof (ownership_roundtrip _ Ho) as Hr.
  destruct k as [a ad ph d o ev rev]. cbn [k_action_id k_adapter k_ownership] in *.
  assert (Hp : Phase.parse (Phase.as_str ph) = Some ph) by (by apply phase_parse_iff).
  unfold Checkpoint.from_value, Checkpoint.to_value.
  destruct ev as [ev|], rev as [rev|]; simpl; rewrite H1, H2; simpl; rewrite Hp; simpl; rewrite Hr; done.
Qed.

Lemma evidence_at_inv m k r : match m @@ k with Some Null => False | _ => True end ->
  Checkpoint.evidence_at m k = Ok r -> m @@ k = Object <$> r.
Proof. unfold Checkpoint.evidence_at. intros Hn. destruct (m @@ k) as [[]|]; try done; by intros [= <-]. Qed.

Lemma no_nulls_get m optional k : no_nulls m optional = true -> k ∈ optional ->
  match m @@ k with Some Null => False | _ => True end.
Proof.
  unfold no_nulls. rewrite forallb_forall. intros H Hk%list_elem_of_In. specialize (H _ Hk).
  by destruct (m @@ k) as [[]|].
Qed.

Lemma checkpoint_inv v k : ordered v = true -> checkpoint_plain v = true ->
  Checkpoint.from_value v = Ok k ->
  Checkpoint.validate k = Ok tt /\ checkpoint_ok k = true /\ v = Checkpoint.to_value k.
Proof.
  intros Hv Hplain H. unfold Checkpoint.from_value in H. apply bind_Ok in H as (m & Hm & H).
  apply ok_or_Ok, as_object_Some in Hm as ->. destruct (lacks_any _ _ || has_unknown _ _) eqn:Hk; [done|].
  apply orb_false_iff in Hk as [_ Hu]. apply bind_Ok in H as (a1 & H1 & H). apply bind_Ok in H as (a2 & H2 & H).
  destruct (str_empty a1 || str_empty a2) eqn:Hid; [done|].
  apply bind_Ok in H as (ph & Hph & H). apply bind_Ok in H as (d & Hd & H). apply bind_Ok in H as (o & Ho & H).
  apply bind_Ok in H as (ev & Hev & H). apply bind_Ok in H as (rev & Hrev & H). injection H as <-.
  apply ok_or_Ok in H1, H2, Hph, Hd, Ho. apply str_at_Some in H1, H2.
  apply bind_Some in Hph as (pt & Hpt & Hph). apply str_at_Some in Hpt. apply phase_parse_iff in Hph as ->.
  apply bind_Some in Hd as (dv & Hd & Hdv). apply as_object_Some in Hdv as ->.
  apply bind_Some in Ho as (ov & Ho & Hov).
  apply ownership_inv in Hov as [Hso ->]; [|by eapply ordered_get].
  apply evidence_at_inv in Hev; [|eapply no_nulls_get; [exact Hplain|rewrite !elem_of_cons; tauto]].
  apply evidence_at_inv in Hrev; [|eapply no_nulls_get; [exact Hplain|rewrite !elem_of_cons; tauto]].
  assert (Hoev : forall k r, m @@ k = Object <$> r ->
                   match r with Some x => ordered (Object x) | None => true end = true).
  { intros k [x|] Hx; [|done]. by apply (ordered_get m k). }
  split; [by rewrite checkpoint_validate_iff, <-orb_false_iff|]. split.
  { unfold checkpoint_ok. simpl k_ownership. simpl k_data. simpl k_evidence. simpl k_rollback_evidence.
    rewrite Hso, (ordered_get _ _ _ Hv Hd), (Hoev _ _ Hev), (Hoev _ _ Hrev). done. }
  cbn [ordered] in Hv. apply andb_prop in Hv as [Hs _]. unfold Checkpoint.to_value. simpl.
  f_equal. apply (known_ext _ _ (Checkpoint.REQUIRED ++ ["evidence"; "rollback_evidence"])); try done;
    destruct ev, rev; try done; repeat constructor; assumption.
Qed.

Lemma checkpoint_to_ordered k : checkpoint_ok k = true -> ordered (Checkpoint.to_value k) = true.
Proof.
  unfold checkpoint_ok. destruct k as [a ad ph d o ev rev]. cbn [k_ownership k_data k_evidence k_rollback_evidence].
  intros [[[Ho Hd]%andb_prop He]%andb_prop Hr]%andb_prop. pose proof (ownership_ordered o Ho) as Hov.
  unfold Checkpoint.to_value. cbn [k_action_id k_adapter k_phase k_data k_ownership k_evidence k_rollback_evidence].
  revert Hov. generalize (ownership_to_value o). intros ov Hov. revert Hd. generalize (Object d). intros dv Hd.
  destruct ev as [ev|], rev as [rev|]; cbn [bset_opt]; try revert He; try revert Hr;
    try generalize (Object ev); try generalize (Object rev); simpl; intros; rewrite ?Hd, ?Hov; simpl;
    repeat match goal with H : ordered _ = true |- _ => rewrite H end; done.
Qed.

(** ** The state *)

(** The types' invariants: maps in key order, in every checkpoint and in [legacy]. *)
Definition state_ok (s : TransactionState) : bool :=
  forallb checkpoint_ok (s_checkpoints s) && ordered (Object (s_legacy s)).

(** What the writer never does: write an optional key as [null] or an empty [legacy]. *)
Definition state_plain (v : Value) : bool :=
  match v with
  | Object m =>
      no_nulls m TransactionState.OPTIONAL &&
      match m @@ "legacy" with Some (Object []) => false | _ => true end &&
      match m @@ "checkpoints" with Some (Array l) => forallb checkpoint_plain l | _ => true end
  | _ => true
  end.

Lemma state_validate_iff s : TransactionState.validate s = Ok tt <->
  s_schema s = TRANSACTION_SCHEMA /\ is_hex (s_transaction_id s) 32 = true /\ is_hex (s_plan_digest s) 64 = true /\
  s_accepted_digest s = s_plan_digest s /\ Forall (fun k => Checkpoint.validate k = Ok tt) (s_checkpoints s) /\
  all_distinct [] (map k_action_id (s_checkpoints s)) = true /\ str_empty (s_origin s) = false.
Proof.
  unfold TransactionState.validate. destruct (s_schema s =? TRANSACTION_SCHEMA)%Z eqn:H1; simpl.
  2:{ split; [done|]. intros [H _]. lia. }
  destruct (is_hex (s_transaction_id s) 32); simpl; [|split; [done|by intros (_ & ? & _)]].
  destruct (is_hex (s_plan_digest s) 64); simpl; [|split; [done|by intros (_ & _ & ? & _)]].
  destruct (s_accepted_digest s =?s s_plan_digest s) eqn:H2; simpl.
  2:{ split; [done|]. intros (_ & _ & _ & H & _). apply eqb_s_false in H2. done. }
  apply eqb_s_true in H2. split.
  - intros H. apply bind_Ok in H as ([] & H3%try_for_Ok & H).
    destruct (all_distinct _ _); simpl in H; [|done]. destruct (str_empty (s_origin s)); [done|].
    repeat split; try done. lia.
  - intros (_ & _ & _ & _ & H3 & H4 & H5). eapply bind_Ok_intro; [by apply try_for_Ok|].
    by rewrite H4, H5.
Qed.

Definition legacy_value (legacy : bmap Value) : option Value :=
  match legacy with [] => None | _ => Some (Object legacy) end.

(** The map [to_value] writes. *)
Record state_map (s : TransactionState) (m : bmap Value) : Prop := {
  sm_sorted : bsorted m = true;
  sm_lacks : lacks_any m TransactionState.REQUIRED = false;
  sm_known : has_unknown m (TransactionState.REQUIRED ++ TransactionState.OPTIONAL) = false;
  sm_accepted : m @@ "accepted_digest" = Some (Str (s_accepted_digest s));
  sm_checkpoints : m @@ "checkpoints" = Some (Array (map Checkpoint.to_value (s_checkpoints s)));
  sm_origin : m @@ "origin" = Some (Str (s_origin s));
  sm_digest : m @@ "plan_digest" = Some (Str (s_plan_digest s));
  sm_schema : m @@ "schema" = Some (json_int (s_schema s));
  sm_status : m @@ "status" = Some (Str (Status.as_str (s_status s)));
  sm_id : m @@ "transaction_id" = Some (Str (s_transaction_id s));
  sm_error : m @@ "error" = Str <$> s_error s;
  sm_legacy : m @@ "legacy" = legacy_value (s_legacy s);
  sm_purge : m @@ "purge_data" = Bool <$> s_purge_data s;
  sm_target : m @@ "rollback_target" = (fun t => Str (RollbackTarget.as_str t)) <$> s_rollback_target s;
}.

Lemma state_map_of s : exists m, TransactionState.to_value s = Object m /\ state_map s m.
Proof.
  unfold TransactionState.to_value. eexists. split; [reflexivity|].
  destruct s as [ti st pd ad cks pu rt og er lg sc]. cbn [s_transaction_id s_status s_plan_digest s_accepted_digest
    s_checkpoints s_purge_data s_rollback_target s_origin s_error s_legacy s_schema].
  destruct er, lg, pu, rt; constructor; reflexivity.
Qed.

Lemma state_roundtrip s : TransactionState.validate s = Ok tt -> state_ok s = true ->
  TransactionState.from_value (TransactionState.to_value s) = Ok s.
Proof.
  intros Hval Hok. pose proof Hval as Hval'. apply state_validate_iff in Hval as (H1 & H2 & H3 & H4 & H5 & H6 & H7).
  unfold state_ok in Hok. apply andb_prop in Hok as [Hck _].
  destruct (state_map_of s) as (m & -> & Hm). destruct Hm.
  unfold TransactionState.from_value. eapply bind_Ok_intro; [reflexivity|].
  rewrite sm_lacks0, sm_known0. cbn [orb].
  eapply bind_Ok_intro; [by rewrite sm_checkpoints0|].
  eapply bind_Ok_intro.
  { apply mapM_Ok_map. rewrite Forall_forall in *. intros k Hk. apply checkpoint_roundtrip; [|by apply H5].
    rewrite forallb_forall in Hck. apply list_elem_of_In, Hck in Hk. unfold checkpoint_ok in Hk.
    by apply andb_prop in Hk as [[[Hk _]%andb_prop _]%andb_prop _]. }
  eapply bind_Ok_intro; [rewrite sm_schema0, H1; reflexivity|]. cbn [negb].
  unfold str_at. rewrite sm_id0, sm_status0, sm_digest0, sm_accepted0, sm_origin0.
  eapply bind_Ok_intro; [reflexivity|]. rewrite H2. cbn [negb].
  eapply bind_Ok_intro; [simpl; by rewrite (proj2 (status_parse_iff _ (s_status s)) eq_refl)|].
  do 2 (eapply bind_Ok_intro; [reflexivity|]). rewrite H3, H4, eqb_s_refl, H6. cbn [negb orb].
  eapply bind_Ok_intro; [instantiate (1 := s_purge_data s); rewrite sm_purge0; by destruct (s_purge_data s)|].
  eapply bind_Ok_intro.
  { instantiate (1 := s_rollback_target s). rewrite sm_target0. destruct (s_rollback_target s) as [t|]; simpl; [|done].
    by rewrite (proj2 (target_parse_iff _ t) eq_refl). }
  eapply bind_Ok_intro; [reflexivity|].
  eapply bind_Ok_intro; [instantiate (1 := s_error s); rewrite sm_error0; by destruct (s_error s)|].
  eapply bind_Ok_intro; [instantiate (1 := s_legacy s); rewrite sm_legacy0; by destruct (s_legacy s) as [|? ?]; simpl|].
  assert (Hs : {| s_transaction_id := s_transaction_id s; s_status := s_status s; s_plan_digest := s_plan_digest s;
    s_accepted_digest := s_plan_digest s; s_checkpoints := s_checkpoints s; s_purge_data := s_purge_data s;
    s_rollback_target := s_rollback_target s; s_origin := s_origin s; s_error := s_error s;
    s_legacy := s_legacy s; s_schema := TRANSACTION_SCHEMA |} = s) by (destruct s; simpl in *; congruence).
  cbv zeta. rewrite Hs. eapply bind_Ok_intro; [exact Hval'|done].
Qed.

Lemma checkpoints_inv raw cks : forallb ordered raw = true -> forallb checkpoint_plain raw = true ->
  mapM Checkpoint.from_value raw = Ok cks ->
  raw = map Checkpoint.to_value cks /\ forallb checkpoint_ok cks = true.
Proof.
  intros Ho Hp Hm. apply mapM_Ok_iff in Hm. induction Hm as [|v k raw cks Hk _ IH]; [done|].
  cbn [forallb] in *. apply andb_prop in Ho as [Hov Ho], Hp as [Hpv Hp].
  destruct (checkpoint_inv _ _ Hov Hpv Hk) as (_ & Hok & ->). destruct (IH Ho Hp) as [-> Hoks].
  simpl. by rewrite Hok.
Qed.

Lemma state_inv v s : ordered v = true -> state_plain v = true -> TransactionState.from_value v = Ok s ->
  TransactionState.validate s = Ok tt /\ state_ok s = true /\ v = TransactionState.to_value s.
Proof.
  intros Hv Hplain H. unfold TransactionState.from_value in H. apply bind_Ok in H as (m & Hm & H).
  apply ok_or_Ok, as_object_Some in Hm as ->. destruct (lacks_any _ _ || has_unknown _ _) eqn:Hk; [done|].
  apply orb_false_iff in Hk as [_ Hu]. apply bind_Ok in H as (raw & Hraw & H).
  apply ok_or_Ok, bind_Some in Hraw as (rv & Hrv & Hraw). apply as_array_Some in Hraw as ->.
  apply bind_Ok in H as (cks & Hcks & H). apply bind_Ok in H as (sc & Hsc & H).
  destruct (negb (sc =? _)%Z) eqn:Hsch; [done|]. apply bind_Ok in H as (ti & Hti & H).
  destruct (negb (is_hex ti 32)); [done|]. apply bind_Ok in H as (st & Hst & H).
  apply bind_Ok in H as (pd & Hpd & H). apply bind_Ok in H as (ad & Had & H).
  destruct (_ || _) eqn:Hdig; [done|]. destruct (negb (all_distinct _ _)); [done|].
  apply bind_Ok in H as (pu & Hpu & H). apply bind_Ok in H as (rt & Hrt & H). apply bind_Ok in H as (og & Hog & H).
  apply bind_Ok in H as (er & Her & H). apply bind_Ok in H as (lg & Hlg & H). apply bind_Ok in H as ([] & Hval & H).
  injection H as <-. split; [exact Hval|].
  cbn [state_plain] in Hplain. apply andb_prop in Hplain as [[Hnn Hle]%andb_prop Hcp]. rewrite Hrv in Hcp.
  assert (Horaw : forallb ordered raw = true) by (exact (ordered_get _ _ _ Hv Hrv)).
  destruct (checkpoints_inv _ _ Horaw Hcp Hcks) as [-> Hck].
  assert (Hn : forall k, k ∈ TransactionState.OPTIONAL -> match m @@ k with Some Null => False | _ => True end)
    by (intros k; by apply no_nulls_get).
  pose proof (Hn "error" ltac:(by apply mem_str_true)) as Hn1.
  pose proof (Hn "legacy" ltac:(by apply mem_str_true)) as Hn2.
  pose proof (Hn "purge_data" ltac:(by apply mem_str_true)) as Hn3.
  pose proof (Hn "rollback_target" ltac:(by apply mem_str_true)) as Hn4.
  assert (Her' : m @@ "error" = Str <$> er) by (destruct (m @@ "error") as [[]|]; try done; by injection Her as <-).
  assert (Hpu' : m @@ "purge_data" = Bool <$> pu)
    by (destruct (m @@ "purge_data") as [[]|]; try done; by injection Hpu as <-).
  assert (Hlg' : m @@ "legacy" = legacy_value lg)
    by (destruct (m @@ "legacy") as [[| | | | |[|]]|]; try done; by injection Hlg as <-).
  assert (Hrt' : m @@ "rollback_target" = (fun t => Str (RollbackTarget.as_str t)) <$> rt).
  { destruct (m @@ "rollback_target") as [w|]; [|by injection Hrt as <-].
    assert (Hw : exists t, w = Str (RollbackTarget.as_str t) /\ rt = Some t); [|by destruct Hw as (t & -> & ->)].
    destruct w as [| | |x| |]; try done. simpl in Hrt.
    destruct (RollbackTarget.parse x) as [t|] eqn:Ht; simpl in Hrt; [|done]. injection Hrt as <-.
    apply target_parse_iff in Ht as ->. eauto. }
  assert (Hsc' : m @@ "schema" = Some (json_int sc)).
  { apply ok_or_Ok, bind_Some in Hsc as (w & Hw & Hsc). rewrite Hw. destruct w as [| |[z|]| | |]; try done.
    unfold as_i64, num_as_i64 in Hsc. destruct (_ && _)%bool in Hsc; [|done]. by injection Hsc as ->. }
  apply ok_or_Ok in Hti, Hst, Hpd, Had, Hog. apply bind_Some in Hst as (stt & Hstt & Hst).
  apply str_at_Some in Hti, Hstt, Hpd, Had, Hog. apply status_parse_iff in Hst as ->.
  split.
  - unfold state_ok. cbn [s_checkpoints s_legacy]. rewrite Hck. simpl.
    destruct lg as [|e lg]; [done|]. exact (ordered_get _ _ _ Hv Hlg').
  - set (s := {| s_transaction_id := ti |}). destruct (state_map_of s) as (n & -> & Hn'). f_equal. destruct Hn'.
    cbn [ordered] in Hv. apply andb_prop in Hv as [Hs _].
    apply (known_ext m n (TransactionState.REQUIRED ++ TransactionState.OPTIONAL)); try done.
    repeat (apply Forall_cons_2; [etransitivity; [eassumption|symmetry; eassumption]|]). apply Forall_nil_2.
Qed.

(** ** Optional keys left [null]

    The readers take an optional key that is [null] for one that is absent, and an empty [legacy]
    for none; [written_form] drops those keys, in the state and in its checkpoints. *)

Definition is_empty_object (v : Value) : bool := match v with Object [] => true | _ => false end.

Definition drop_nulls (optional : list string) (m : bmap Value) : bmap Value :=
  List.filter (fun e => negb (mem_str e.1 optional && is_null e.2)) m.
Definition checkpoint_form (v : Value) : Value :=
  match v with Object m => Object (drop_nulls ["evidence"; "rollback_evidence"] m) | _ => v end.
Definition checkpoints_form (v : Value) : Value :=
  match v with Array l => Array (map checkpoint_form l) | _ => v end.
Definition written_form (v : Value) : Value :=
  match v with
  | Object m =>
      Object (map (fun e => (e.1, if e.1 =?s "checkpoints" then checkpoints_form e.2 else e.2))
        (List.filter (fun e => negb ((e.1 =?s "legacy") && is_empty_object e.2))
          (drop_nulls TransactionState.OPTIONAL m)))
  | _ => v
  end.

Lemma babove_filter {V} (f : string * V -> bool) k (m : bmap V) : babove k m -> babove k (List.filter f m).
Proof.
  unfold babove. rewrite !Forall_forall. intros H e He. apply H.
  apply list_elem_of_In, filter_In in He as [He _]. by apply list_elem_of_In.
Qed.
Lemma bsorted_filter {V} (f : string * V -> bool) (m : bmap V) : bsorted m = true -> bsorted (List.filter f m) = true.
Proof.
  induction m as [|[k v] m IH]; [done|]. intros [Hk Hm]%bsorted_cons. simpl. destruct (f (k, v)); [|by apply IH].
  apply bsorted_cons. split; [by apply babove_filter|by apply IH].
Qed.
(** A kept entry is found where it was. *)
Lemma bget_filter {V} (f : string * V -> bool) k (m : bmap V) : bsorted m = true ->
  List.filter f m @@ k = match m @@ k with Some v => if f (k, v) then Some v else None | None => None end.
Proof.
  induction m as [|[k' v] m IH]; [done|]. intros [Hk Hm]%bsorted_cons. cbn [bget List.filter].
  destruct (k =?s k') eqn:Hkk.
  - apply eqb_s_true in Hkk as ->. destruct (f (k', v)); cbn [bget]; [by rewrite eqb_s_refl|].
    apply babove_get_None. by apply babove_filter.
  - destruct (f (k', v)); cbn [bget]; rewrite ?Hkk; by apply IH.
Qed.

Lemma drop_nulls_get optional m k : bsorted m = true ->
  drop_nulls optional m @@ k =
  match m @@ k with Some v => if mem_str k optional && is_null v then None else Some v | None => None end.
Proof.
  intros Hm. unfold drop_nulls. rewrite bget_filter by done. destruct (m @@ k) as [v|]; [|done]. cbn [fst snd].
  by destruct (mem_str k optional && is_null v).
Qed.

(** A map read by its keys alone: the same keys outside [optional], the same values up to [null]. *)
Definition same_but_nulls (optional : list string) (m n : bmap Value) : Prop :=
  forall k, n @@ k = m @@ k \/ (k ∈ optional /\ m @@ k = Some Null /\ n @@ k = None).

Lemma drop_nulls_same optional m : bsorted m = true -> same_but_nulls optional m (drop_nulls optional m).
Proof.
  intros Hm k. rewrite drop_nulls_get by done. destruct (m @@ k) as [v|]; [|by left].
  destruct (mem_str k optional && is_null v) eqn:Hd; [right|by left].
  apply andb_prop in Hd as [Hk Hv]. apply mem_str_true in Hk. by destruct v.
Qed.

Lemma same_unknown optional known m n : same_but_nulls optional m n -> (forall k, k ∈ optional -> k ∈ known) ->
  has_unknown n known = has_unknown m known.
Proof.
  intros Hs Hi. apply Bool.eq_iff_eq_true. rewrite <-!not_false_iff_true, !has_unknown_false. apply not_iff_compat.
  split; intros H k Hk; specialize (H k Hk); destruct (Hs k) as [He|(Ho & _)]; try congruence; by apply Hi in Ho.
Qed.
Lemma same_lacks optional required m n : same_but_nulls optional m n -> (forall k, k ∈ required -> k ∉ optional) ->
  lacks_any n required = lacks_any m required.
Proof.
  intros Hs Hd. apply Bool.eq_iff_eq_true. rewrite <-!not_false_iff_true, !lacks_any_false, !Forall_forall.
  apply not_iff_compat.
  split; intros H k Hk; specialize (H k Hk); destruct (Hs k) as [He|(Ho & _)]; try congruence; by apply Hd in Hk.
Qed.

(** Membership of literal keys, by evaluation. *)
Lemma incl_by (l1 l2 : list string) : forallb (fun k => mem_str k l2) l1 = true -> forall k, k ∈ l1 -> k ∈ l2.
Proof. rewrite forallb_forall. intros H k Hk%list_elem_of_In. by apply mem_str_true, H. Qed.
Lemma disjoint_by (l1 l2 : list string) : forallb (fun k => negb (mem_str k l2)) l1 = true ->
  forall k, k ∈ l1 -> k ∉ l2.
Proof.
  rewrite forallb_forall. intros H k Hk%list_elem_of_In Hin%mem_str_true. specialize (H k Hk). by rewrite Hin in H.
Qed.

Lemma same_required optional m n k : same_but_nulls optional m n -> mem_str k optional = false -> n @@ k = m @@ k.
Proof. intros Hs Hk. destruct (Hs k) as [|(Ho & _)]; [done|]. apply mem_str_true in Ho. congruence. Qed.

Lemma evidence_same optional m n k : same_but_nulls optional m n ->
  Checkpoint.evidence_at n k = Checkpoint.evidence_at m k.
Proof. intros Hs. unfold Checkpoint.evidence_at. by destruct (Hs k) as [->|(_ & -> & ->)]. Qed.

Lemma checkpoint_form_reads v : ordered v = true ->
  Checkpoint.from_value (checkpoint_form v) = Checkpoint.from_value v.
Proof.
  intros Hv. destruct v as [| | | | |m]; try done. cbn [ordered] in Hv. apply andb_prop in Hv as [Hs _].
  pose proof (drop_nulls_same ["evidence"; "rollback_evidence"] m Hs) as Hn.
  unfold checkpoint_form. revert Hn. generalize (drop_nulls ["evidence"; "rollback_evidence"] m). intros n Hn.
  unfold Checkpoint.from_value. cbn [as_object ok_or mbind result_bind].
  rewrite (same_unknown _ _ m n Hn) by (by apply incl_by). rewrite (same_lacks _ _ m n Hn) by (by apply disjoint_by).
  unfold str_at. rewrite !(same_required _ m n _ Hn) by done. by rewrite !(evidence_same _ m n _ Hn).
Qed.

Lemma ordered_filter f m : ordered (Object m) = true -> ordered (Object (List.filter f m)) = true.
Proof.
  cbn [ordered]. intros [Hs Hv]%andb_prop. rewrite bsorted_filter by done. simpl. apply forallb_forall.
  intros e [He _]%filter_In. rewrite forallb_forall in Hv. by apply Hv.
Qed.
Lemma drop_nulls_no_nulls optional m : bsorted m = true -> no_nulls (drop_nulls optional m) optional = true.
Proof.
  intros Hm. unfold no_nulls. apply forallb_forall. intros k Hk. rewrite drop_nulls_get by done.
  destruct (m @@ k) as [v|]; [|done]. apply list_elem_of_In, mem_str_true in Hk. rewrite Hk. by destruct v.
Qed.
Lemma checkpoint_form_ok v : ordered v = true ->
  ordered (checkpoint_form v) = true /\ checkpoint_plain (checkpoint_form v) = true.
Proof.
  destruct v as [| | | | |m]; try done. intros Hv. split; [by apply ordered_filter|].
  apply drop_nulls_no_nulls. cbn [ordered] in Hv. by apply andb_prop in Hv as [Hs _].
Qed.

(** ** The state, up to its optional keys *)

Lemma written_get m k : bsorted m = true ->
  match written_form (Object m) with Object n => n @@ k | _ => None end =
  match m @@ k with
  | None => None
  | Some v =>
      if (mem_str k TransactionState.OPTIONAL && is_null v) || ((k =?s "legacy") && is_empty_object v) then None
      else Some (if k =?s "checkpoints" then checkpoints_form v else v)
  end.
Proof.
  intros Hm. unfold written_form.
  rewrite (bget_map (fun key v => if key =?s "checkpoints" then checkpoints_form v else v)).
  rewrite bget_filter by (by apply bsorted_filter). rewrite drop_nulls_get by done.
  destruct (m @@ k) as [v|]; [|done]. destruct (mem_str k _ && is_null v); [done|]. cbn [fst snd orb].
  by destruct ((k =?s "legacy") && is_empty_object v).
Qed.

Lemma written_unknown m n : bsorted m = true -> written_form (Object m) = Object n ->
  has_unknown n (TransactionState.REQUIRED ++ TransactionState.OPTIONAL) =
  has_unknown m (TransactionState.REQUIRED ++ TransactionState.OPTIONAL).
Proof.
  intros Hm Hn. apply Bool.eq_iff_eq_true. rewrite <-!not_false_iff_true, !has_unknown_false. apply not_iff_compat.
  assert (Hk : forall k, k ∉ TransactionState.REQUIRED ++ TransactionState.OPTIONAL -> n @@ k = None <-> m @@ k = None).
  { intros k Hk. pose proof (written_get m k Hm) as Hg. rewrite Hn in Hg. rewrite Hg. destruct (m @@ k) as [v|]; [|done].
    destruct (mem_str k TransactionState.OPTIONAL) eqn:Ho.
    { apply mem_str_true in Ho. exfalso. apply Hk, elem_of_app. by right. }
    destruct (k =?s "legacy") eqn:Hl; [apply eqb_s_true in Hl as ->; done|]. done. }
  split; intros H k Hin; specialize (H k Hin); by apply Hk.
Qed.
Lemma written_lacks m n : bsorted m = true -> written_form (Object m) = Object n ->
  lacks_any n TransactionState.REQUIRED = lacks_any m TransactionState.REQUIRED.
Proof.
  intros Hm Hn. apply Bool.eq_iff_eq_true. rewrite <-!not_false_iff_true, !lacks_any_false. apply not_iff_compat.
  assert (Hk : forall k, k ∈ TransactionState.REQUIRED -> n @@ k = None <-> m @@ k = None).
  { intros k Hk. pose proof (written_get m k Hm) as Hg. rewrite Hn in Hg. rewrite Hg. destruct (m @@ k) as [v|]; [|done].
    apply (disjoint_by _ TransactionState.OPTIONAL) in Hk; [|done].
    destruct (mem_str k TransactionState.OPTIONAL) eqn:Ho; [by apply mem_str_true in Ho|].
    destruct (k =?s "legacy") eqn:Hl; [apply eqb_s_true in Hl as ->; done|]. done. }
  rewrite !Forall_forall. split; intros H k Hin; specialize (H k Hin); by rewrite Hk in H || rewrite <-Hk in H.
Qed.

Lemma checkpoints_form_reads l : forallb ordered l = true ->
  mapM Checkpoint.from_value (map checkpoint_form l) = mapM Checkpoint.from_value l.
Proof.
  induction l as [|v l IH]; [done|]. intros [Hv Hl]%andb_prop. cbn [map mapM]. by rewrite checkpoint_form_reads, IH.
Qed.

Lemma written_form_reads v : ordered v = true ->
  TransactionState.from_value (written_form v) = TransactionState.from_value v.
Proof.
  intros Hv. destruct v as [| | | | |m]; try done. pose proof Hv as Hov. cbn [ordered] in Hv. apply andb_prop in Hv as [Hs _].
  destruct (written_form (Object m)) as [| | | | |n] eqn:Hn; try done.
  unfold TransactionState.from_value. cbn [as_object ok_or mbind result_bind].
  rewrite (written_unknown m n Hs Hn), (written_lacks m n Hs Hn). destruct (_ || _); [done|].
  assert (Hg := fun k => written_get m k Hs). rewrite Hn in Hg.
  assert (Hsame : forall k, k ∈ ["schema"; "transaction_id"; "status"; "plan_digest"; "accepted_digest"; "origin"] ->
    n @@ k = m @@ k).
  { intros k Hk. rewrite Hg. destruct (m @@ k) as [v|]; [|done].
    rewrite !elem_of_cons, elem_of_nil in Hk. by destruct Hk as [->|[->|[->|[->|[->|[->|[]]]]]]]. }
  assert (Hck : n @@ "checkpoints" ≫= as_array = map checkpoint_form <$> (m @@ "checkpoints" ≫= as_array)).
  { rewrite Hg. destruct (m @@ "checkpoints") as [v|]; [|done]. by destruct v. }
  unfold str_at. rewrite Hck, (Hsame "schema"), (Hsame "transaction_id"), (Hsame "status"), (Hsame "plan_digest"),
    (Hsame "accepted_digest"), (Hsame "origin") by (by apply mem_str_true).
  assert (Hnull : forall k, k ∈ ["purge_data"; "rollback_target"; "error"] ->
    n @@ k = m @@ k \/ m @@ k = Some Null /\ n @@ k = None).
  { intros k Hk. rewrite Hg. destruct (m @@ k) as [v|]; [|by left].
    rewrite !elem_of_cons, elem_of_nil in Hk. destruct Hk as [->|[->|[->|[]]]]; destruct v; auto. }
  assert (Hleg : n @@ "legacy" = m @@ "legacy" \/
    (m @@ "legacy" = Some Null \/ m @@ "legacy" = Some (Object [])) /\ n @@ "legacy" = None).
  { rewrite Hg. destruct (m @@ "legacy") as [[| | | | |[|]]|]; auto. }
  clear Hsame Hck Hg Hn.
  assert (Hol : forall l, m @@ "checkpoints" ≫= as_array = Some l -> forallb ordered l = true).
  { intros l Hl. apply bind_Some in Hl as (w & Hw & Hl). apply as_array_Some in Hl as ->. exact (ordered_get m _ _ Hov Hw). }
  destruct (m @@ "checkpoints" ≫= as_array) as [l|]; [|done]. cbn [fmap option_fmap option_map ok_or mbind result_bind].
  rewrite (checkpoints_form_reads l (Hol l eq_refl)). clear Hol.
  destruct (Hnull "purge_data" ltac:(by apply mem_str_true)) as [->|[-> ->]],
    (Hnull "rollback_target" ltac:(by apply mem_str_true)) as [->|[-> ->]],
    (Hnull "error" ltac:(by apply mem_str_true)) as [->|[-> ->]], Hleg as [->|[[->| ->] ->]]; reflexivity.
Qed.

Lemma written_form_ordered v : ordered v = true -> ordered (written_form v) = true.
Proof.
  destruct v as [| | | | |m]; try done. intros Hv. unfold written_form, drop_nulls.
  apply (ordered_filter (fun e => negb (mem_str e.1 TransactionState.OPTIONAL && is_null e.2))) in Hv.
  apply (ordered_filter (fun e => negb ((e.1 =?s "legacy") && is_empty_object e.2))) in Hv.
  revert Hv. generalize (List.filter (fun e => negb ((e.1 =?s "legacy") && is_empty_object e.2))
    (List.filter (fun e => negb (mem_str e.1 TransactionState.OPTIONAL && is_null e.2)) m)). intros n Hv.
  cbn [ordered] in *. apply andb_prop in Hv as [Hs Hv].
  rewrite (bsorted_map (fun e => if e.1 =?s "checkpoints" then checkpoints_form e.2 else e.2)), Hs. simpl.
  rewrite forallb_forall in *. intros x Hx. apply in_map_iff in Hx as (e & <- & He). specialize (Hv e He). cbn [fst snd].
  destruct (e.1 =?s "checkpoints"); [|done]. destruct e.2 as [| | | |l|]; try done. cbn [checkpoints_form ordered] in *.
  rewrite forallb_forall in *. intros x Hx. apply in_map_iff in Hx as (c & <- & Hc). by apply checkpoint_form_ok, Hv.
Qed.

Lemma written_form_plain v : ordered v = true -> state_plain (written_form v) = true.
Proof.
  intros Hv. destruct v as [| | | | |m]; try done. pose proof Hv as Hov. cbn [ordered] in Hv. apply andb_prop in Hv as [Hs _].
  destruct (written_form (Object m)) as [| | | | |n] eqn:Hn; try done.
  assert (Hg := fun k => written_get m k Hs). rewrite Hn in Hg. unfold state_plain. rewrite !andb_true_iff. repeat split.
  - unfold no_nulls. apply forallb_forall. intros k Hk. rewrite Hg. apply list_elem_of_In, mem_str_true in Hk. rewrite Hk.
    destruct (m @@ k) as [v|]; [|done]. destruct (k =?s "checkpoints") eqn:Hc; [by apply eqb_s_true in Hc as ->|].
    destruct (k =?s "legacy"); by destruct v as [| | | | |[|]].
  - rewrite Hg. by destruct (m @@ "legacy") as [[| | | | |[|]]|].
  - rewrite Hg. destruct (m @@ "checkpoints") as [v|] eqn:Hc; [|done]. destruct v as [| | | |l|]; try done.
    pose proof (ordered_get m _ _ Hov Hc) as Hl. cbn [ordered] in Hl. cbn.
    rewrite forallb_forall in *. intros x Hx. apply in_map_iff in Hx as (c & <- & Hin). by apply checkpoint_form_ok, Hl.
Qed.

(** ** Properties *)

(** C8: the journal's strict reader accepts exactly the documents the writer writes, up to the optional
    keys: a JSON value (a map in key order at each level) reads as the state [s] if and only if [s], whose
    maps are in key order too, passes [validate] and the value, once
    its optional keys that are [null] and an empty [legacy] are dropped, is the one [to_value] writes
    for [s], with every checkpoint, ownership entry, piece of evidence, optional key and the [legacy]
    manifest in it; and what [to_value] writes for a valid state reads back as that state. *)
Theorem state_from_value_iff (v : Value) (s : TransactionState) (Hv : ordered v = true) :
  (TransactionState.from_value v = Ok s <->
   TransactionState.validate s = Ok tt /\ state_ok s = true /\ written_form v = TransactionState.to_value s) /\
  (TransactionState.validate s = Ok tt -> state_ok s = true ->
   TransactionState.from_value (TransactionState.to_value s) = Ok s).
Proof.
  split; [|apply state_roundtrip]. rewrite <-written_form_reads by done. split.
  - apply state_inv; [by apply written_form_ordered|by apply written_form_plain].
  - intros (? & ? & ->). by apply state_roundtrip.
Qed.

(** ** Replacing a checkpoint *)

Lemma put_ids k l : map k_action_id (TransactionState.put_checkpoint k l) =
  if mem_str (k_action_id k) (map k_action_id l) then map k_action_id l else map k_action_id l ++ [k_action_id k].
Proof.
  induction l as [|x l IH]; [done|]. cbn [TransactionState.put_checkpoint map].
  change (mem_str (k_action_id k) (k_action_id x :: map k_action_id l))
    with ((k_action_id k =?s k_action_id x) || mem_str (k_action_id k) (map k_action_id l)).
  rewrite (String.eqb_sym (k_action_id k)). destruct (k_action_id x =?s k_action_id k) eqn:H; cbn [map orb].
  - apply eqb_s_true in H. by rewrite H.
  - rewrite IH. by destruct (mem_str _ _).
Qed.

Lemma all_distinct_NoDup ids : forall seen, all_distinct seen ids = true <-> NoDup ids /\ Forall (fun i => i ∉ seen) ids.
Proof.
  induction ids as [|i ids IH]; intros seen; simpl; [split; [repeat constructor|done]|].
  rewrite andb_true_iff, IH, NoDup_cons, Forall_cons, negb_true_iff.
  assert (Hm : mem_str i seen = false <-> i ∉ seen).
  { rewrite <-mem_str_true. destruct (mem_str i seen); split; (done || by intros ?). }
  rewrite Hm, !Forall_forall. setoid_rewrite elem_of_cons. split.
  - intros (H1 & H2 & H3). repeat split; try done; [intros Hi; by apply (H3 i Hi); left|].
    intros x Hx Hs. apply (H3 x Hx). by right.
  - intros ([H1 H2] & H3 & H4). repeat split; try done. intros x Hx [->|Hs]; [done|]. by apply (H4 x).
Qed.

Lemma put_elem k l x : x ∈ TransactionState.put_checkpoint k l -> x = k \/ x ∈ l.
Proof.
  induction l as [|y l IH]; simpl; [rewrite elem_of_cons; tauto|].
  destruct (k_action_id y =?s k_action_id k); rewrite !elem_of_cons; tauto.
Qed.

Lemma with_checkpoint_valid s k : TransactionState.validate s = Ok tt -> Checkpoint.validate k = Ok tt ->
  TransactionState.validate (TransactionState.with_checkpoint s k) = Ok tt.
Proof.
  rewrite !state_validate_iff. intros (H1 & H2 & H3 & H4 & H5 & H6 & H7) Hk. simpl. repeat split; try done.
  - rewrite Forall_forall in *. intros x [->|Hx]%put_elem; [done|by apply H5].
  - rewrite put_ids. destruct (mem_str _ _) eqn:Hm; [done|].
    apply all_distinct_NoDup in H6 as [Hn _]. apply all_distinct_NoDup. split.
    + apply NoDup_app. split; [done|]. split; [|apply NoDup_singleton]. intros x Hx.
      rewrite list_elem_of_singleton. intros ->. apply mem_str_true in Hx. congruence.
    + apply Forall_forall. intros x _. apply not_elem_of_nil.
Qed.

Lemma find_put k l i :
  find (fun item => k_action_id item =?s i) (TransactionState.put_checkpoint k l) =
  if k_action_id k =?s i then Some k else find (fun item => k_action_id item =?s i) l.
Proof.
  induction l as [|x l IH]; simpl; [done|].
  destruct (k_action_id x =?s k_action_id k) eqn:Hx; simpl.
  - apply eqb_s_true in Hx. rewrite Hx. by destruct (k_action_id k =?s i).
  - rewrite IH. destruct (k_action_id x =?s i) eqn:Hi; [|done].
    apply eqb_s_true in Hi as <-. rewrite String.eqb_sym, Hx. done.
Qed.

(** Recording a checkpoint changes the journal at one place: the state stays valid, the checkpoint of
    its action is the new one, every other action's checkpoint is the one it was, and the order of
    the actions is kept, a new action going last. *)
Theorem with_checkpoint_spec (s : TransactionState) (k : Checkpoint)
  (Hs : TransactionState.validate s = Ok tt) (Hk : Checkpoint.validate k = Ok tt) :
  let s' := TransactionState.with_checkpoint s k in
  TransactionState.validate s' = Ok tt /\
  (forall i, TransactionState.checkpoint s' i =
     if k_action_id k =?s i then Some k else TransactionState.checkpoint s i) /\
  map k_action_id (s_checkpoints s') =
    map k_action_id (s_checkpoints s) ++
    match TransactionState.checkpoint s (k_action_id k) with Some _ => [] | None => [k_action_id k] end.
Proof.
  split; [by apply with_checkpoint_valid|]. split; [intros i; apply find_put|].
  simpl. rewrite put_ids. unfold TransactionState.checkpoint.
  assert (Hf : match find (fun item => k_action_id item =?s k_action_id k) (s_checkpoints s) with
    Some _ => true | None => false end = mem_str (k_action_id k) (map k_action_id (s_checkpoints s))).
  { induction (s_checkpoints s) as [|x l IH]; [done|]. unfold mem_str in *. simpl.
    rewrite (String.eqb_sym (k_action_id k)). by destruct (k_action_id x =?s k_action_id k). }
  rewrite <-Hf. destruct (find _ _); [by rewrite app_nil_r|done].
Qed.

(** ** The ownership union *)

Lemma claim_spec entries : forall o, NoDup (map fst entries) -> bsorted o = true ->
  match TransactionState.claim entries o with
  | Ok o' => (forall p, p ∈ map fst entries -> o @@ p = None) /\ bsorted o' = true /\
             forall p, o' @@ p = match entries @@ p with Some e => Some e | None => o @@ p end
  | Err e => e = ownership_error "ownership journal contains duplicate paths" /\
             exists p, p ∈ map fst entries /\ bhas p o = true
  end.
Proof.
  induction entries as [|[p e] entries IH]; intros o Hn Ho.
  - simpl. split; [|done]. by intros p ?%not_elem_of_nil.
  - cbn [map fst] in Hn. apply NoDup_cons in Hn as [Hp Hn]. cbn [TransactionState.claim].
    destruct (bhas p o) eqn:Hhas; [split; [done|]; exists p; split; [apply elem_of_cons; by left|done]|].
    specialize (IH (bset p e o) Hn (bsorted_bset _ _ _ Ho)). destruct (TransactionState.claim _ _) as [o'|err].
    + destruct IH as (H1 & H2 & H3). split; [|split; [done|]].
      * intros q [->|Hq]%elem_of_cons; [simpl; unfold bhas in Hhas; by destruct (o @@ p)|].
        specialize (H1 q Hq). by rewrite bget_bset_ne in H1 by (by intros ->).
      * intros q. rewrite H3. cbn [bget]. destruct (q =?s p) eqn:Hqp.
        -- apply eqb_s_true in Hqp as ->. destruct (entries @@ p) eqn:He; [|apply bget_bset_eq].
           exfalso. apply Hp. apply bget_Some_In in He. by apply (list_elem_of_fmap_2 fst) in He.
        -- rewrite bget_bset_ne; [done|]. by apply eqb_s_false.
    + destruct IH as (-> & q & Hq & Hqo). split; [done|]. exists q. split; [apply elem_of_cons; by right|].
      unfold bhas in *. by rewrite bget_bset_ne in Hqo by (by intros ->).
Qed.

(** Who owns a path, among the checkpoints that own theirs. *)
Definition owners (l : list Checkpoint) (b : bool) (p : string) : list OwnershipEntry :=
  omap (fun k => if Phase.owns (k_phase k) b then k_ownership k @@ p else None) l.

Lemma claim_all_spec b l : forall o, Forall (fun k => bsorted (k_ownership k) = true) l -> bsorted o = true ->
  match TransactionState.claim_all b l o with
  | Ok o' => bsorted o' = true /\
             forall p, match o @@ p with Some e => o' @@ p = Some e /\ owners l b p = []
                       | None => owners l b p = match o' @@ p with Some e => [e] | None => [] end end
  | Err e => e = ownership_error "ownership journal contains duplicate paths" /\
             exists p, 1 < length (match o @@ p with Some e => [e] | None => [] end ++ owners l b p)
  end.
Proof.
  induction l as [|k l IH]; intros o Hl Ho; simpl.
  - split; [done|]. intros p. by destruct (o @@ p).
  - apply Forall_cons in Hl as [Hk Hl]. destruct (Phase.owns (k_phase k) b) eqn:Hb.
    + pose proof (claim_spec (k_ownership k) o (bsorted_NoDup _ Hk) Ho) as Hc.
      assert (Hin : forall p e, k_ownership k @@ p = Some e -> p ∈ map fst (k_ownership k)).
      { intros p e He. apply bget_Some_In in He. by apply (list_elem_of_fmap_2 fst) in He. }
      destruct (TransactionState.claim _ _) as [o1|e].
      * destruct Hc as (H1 & H2 & H3). specialize (IH o1 Hl H2). destruct (TransactionState.claim_all _ _ _) as [o'|e].
        -- destruct IH as [Hs IH]. split; [done|]. intros p. specialize (IH p). rewrite H3 in IH.
           destruct (k_ownership k @@ p) as [e|] eqn:He.
           ++ rewrite (H1 p) by (by eapply Hin). destruct IH as [-> ->]. done.
           ++ done.
        -- destruct IH as (-> & p & Hp). split; [done|]. exists p. rewrite H3 in Hp.
           destruct (k_ownership k @@ p) as [e|] eqn:He; [|done]. rewrite (H1 p) by (by eapply Hin). done.
      * destruct Hc as (-> & p & Hp & Hpo). split; [done|]. exists p.
        apply (bhas_true p (k_ownership k)) in Hp. unfold bhas in *.
        destruct (k_ownership k @@ p), (o @@ p); try done. simpl. lia.
    + specialize (IH o Hl Ho). destruct (TransactionState.claim_all _ _ _); [|done]. done.
Qed.

(** [ownership] is the union of what the owning checkpoints claim: it is an error exactly when two
    of them claim one path, and otherwise a path belongs to the union exactly when one of them owns
    it, with that checkpoint's entry. *)
Theorem ownership_union (s : TransactionState) (b : bool)
  (Hs : Forall (fun k => bsorted (k_ownership k) = true) (s_checkpoints s)) :
  match TransactionState.ownership s b with
  | Ok o => bsorted o = true /\
            forall p, owners (s_checkpoints s) b p = match o @@ p with Some e => [e] | None => [] end
  | Err e => e = OwnershipErr "ownership journal contains duplicate paths" /\
             exists p, 1 < length (owners (s_checkpoints s) b p)
  end.
Proof. exact (claim_all_spec b (s_checkpoints s) [] Hs eq_refl). Qed.

(** ** Witnesses *)

Module JournalSample.
Definition entry : OwnershipEntry :=
  {| o_action_id := "core.runtime"; o_adapter := "core"; o_kind := "file"; o_mutable := Some true; o_preserve := true;
     o_sha256 := "c0ffee" |}.
Definition checkpoint : Checkpoint :=
  {| k_action_id := "core.runtime"; k_adapter := "core"; k_phase := Applied; k_data := [("port", json_int 443)];
     k_ownership := [("/etc/pc.conf", entry)]; k_evidence := None; k_rollback_evidence := None |}.
Definition rival : Checkpoint :=
  {| k_action_id := "tls.files"; k_adapter := "tls"; k_phase := Verified; k_data := [];
     k_ownership := [("/etc/pc.conf", entry)]; k_evidence := None; k_rollback_evidence := None |}.
Definition state : TransactionState :=
  TransactionState.set_checkpoints
    (TransactionState.new "0123456789abcdef0123456789abcdef" SApplying
       "0123456789abcdef0123456789abcdef0123456789abcdef0123456789abcdef") [checkpoint].

(** The document of [state] with an absent optional key written as [null]. *)
Definition null_document : Value :=
  match TransactionState.to_value state with Object m => Object (bset "rollback_target" Null m) | v => v end.

Lemma state_from_value_iff_witness :
  bool_decide (s_rollback_target state = None) = true /\
  ((TransactionState.from_value null_document = Ok state <->
    TransactionState.validate state = Ok tt /\ state_ok state = true /\
    written_form null_document = TransactionState.to_value state) /\
   (TransactionState.validate state = Ok tt -> state_ok state = true ->
    TransactionState.from_value (TransactionState.to_value state) = Ok state)) /\
  TransactionState.from_value null_document = Ok state.
Proof. split; [reflexivity|]. split; [apply (state_from_value_iff null_document state); reflexivity|reflexivity]. Defined.

Lemma with_checkpoint_spec_witness :
  let s' := TransactionState.with_checkpoint state rival in
  TransactionState.validate s' = Ok tt /\
  (forall i, TransactionState.checkpoint s' i =
     if k_action_id rival =?s i then Some rival else TransactionState.checkpoint state i) /\
  map k_action_id (s_checkpoints s') = ["core.runtime"; "tls.files"].
Proof. apply (with_checkpoint_spec state rival); reflexivity. Defined.

Lemma ownership_union_witness :
  TransactionState.ownership state false = Ok [("/etc/pc.conf", entry)] /\
  exists p, 1 < length (owners (s_checkpoints (TransactionState.with_checkpoint state rival)) true p).
Proof.
  split; [reflexivity|].
  refine (proj2 (ownership_union (TransactionState.with_checkpoint state rival) true _)).
  repeat constructor.
Defined.
End JournalSample.
