(* ===== verification/Store.v ===== *)
(** * The journal store

    [installer/src/store.rs] over a world of journal files and a host. What the operating system does
    with a write, a read or a removal is the host's: the class [Disk]. A write either replaces the
    file, or fails before it, or fails after it (the directory could not be synced): the outcomes of
    [pc_host::fs::atomic_write]. Every write and every call of an adapter leaves an event with the
    files as they were. *)

From S2P Require Import Prelude BTree Utf8 Numeric Json PyText Plan Errors Journal.

Inductive JournalFile := FState | FPlan | FOwnership | FReport.

Record Files := { f_state : option string; f_plan : option string; f_ownership : option string; f_report : option string }.

Definition file (f : JournalFile) (fs : Files) : option string :=
  match f with FState => f_state fs | FPlan => f_plan fs | FOwnership => f_ownership fs | FReport => f_report fs end.
Definition set_file (f : JournalFile) (text : option string) (fs : Files) : Files :=
  match f with
  | FState => {| f_state := text; f_plan := f_plan fs; f_ownership := f_ownership fs; f_report := f_report fs |}
  | FPlan => {| f_state := f_state fs; f_plan := text; f_ownership := f_ownership fs; f_report := f_report fs |}
  | FOwnership => {| f_state := f_state fs; f_plan := f_plan fs; f_ownership := text; f_report := f_report fs |}
  | FReport => {| f_state := f_state fs; f_plan := f_plan fs; f_ownership := f_ownership fs; f_report := text |}
  end.

(** The calls the engine makes to an adapter. *)
Inductive Call :=
| CPrepare (a : Action)
| CApply (a : Action) (data : CheckpointData)
| CReconcileApply (a : Action) (data : CheckpointData)
| CVerify (a : Action)
| CRepair (a : Action) (data : CheckpointData)
| CRollback (a : Action) (data : CheckpointData) (purge : bool) (target : RollbackTarget)
| CReconcileRollback (a : Action) (data : CheckpointData) (purge : bool) (target : RollbackTarget)
| CCommitted (phase : Phase) (a : Action).

Inductive Event :=
| Called (c : Call) (files : Files)
| Wrote (f : JournalFile) (text : string) (written : bool).

Record World (H : Type) := { w_files : Files; w_host : H; w_log : list Event }.
Arguments w_files {H} w. Arguments w_host {H} w. Arguments w_log {H} w.

(** ** Stateful, fallible code *)

Definition M (S A : Type) : Type := S -> result Error A * S.
#[export] Instance M_ret {S} : MRet (M S) := fun A a s => (Ok a, s).
#[export] Instance M_bind {S} : MBind (M S) :=
  fun A B f m s => match m s with (Ok a, s') => f a s' | (Err e, s') => (Err e, s') end.
#[export] Instance M_fmap {S} : base.FMap (M S) :=
  fun A B f m s => match m s with (Ok a, s') => (Ok (f a), s') | (Err e, s') => (Err e, s') end.

Definition lift {S A} (r : result Error A) : M S A := fun s => (r, s).
Definition tx {S A} (r : tx_result A) : M S A := lift (map_err ETx r).
Definition fail {S A} (e : Error) : M S A := lift (Err e).
Definition gets {S A} (f : S -> A) : M S A := fun s => (Ok (f s), s).
Definition modify {S} (f : S -> S) : M S unit := fun s => (Ok tt, f s).

(** [for x in l { body }]. *)
Fixpoint for_each {S A} (f : A -> M S unit) (l : list A) : M S unit :=
  match l with [] => mret tt | a :: l' => f a ≫= fun _ => for_each f l' end.

(** A step on the world while a state is threaded along. *)
Definition on_world {T W A} (m : M W A) : M (T * W) A :=
  fun '(t, w) => match m w with (r, w') => (r, (t, w')) end.

(** ** The host's side of the journal directory *)

Inductive WriteOutcome := Replaced | FailedBefore (e : Error) | FailedAfter (e : Error).

Class Disk (H : Type) := {
  disk_write : JournalFile -> string -> H -> WriteOutcome * H;
  disk_readable : JournalFile -> H -> bool;
  disk_remove : H -> option IoError * H;
  disk_lock : H -> tx_result unit * H;
  disk_unlock : H -> H;
}.

(** [serde_json]'s parser with the repository's duplicate check, behind its integer check. *)
Class JsonParser := { serde_parse : string -> result JsonError Value }.
Definition loads `{JsonParser} (text : string) : result JsonError Value :=
  check_integer_range text ≫= fun _ => serde_parse text.

Section store.
Context {H : Type} {DK : Disk H} {JP : JsonParser}.
Context {UT : UnicodeText} {FT : FloatText} {SHA : Sha256} {SD : SerdeDisplay}.

Abbreviation WM := (M (World H)).

Definition set_host (h : H) (w : World H) : World H := {| w_files := w_files w; w_host := h; w_log := w_log w |}.
Definition log (e : Event) : WM unit :=
  modify (fun w => {| w_files := w_files w; w_host := w_host w; w_log := w_log w ++ [e] |}).
(** An adapter's method runs on the host; the call is logged with the files it finds. *)
Definition call {A} (c : Call) (f : H -> result Error A * H) : WM A := fun w =>
  let w := {| w_files := w_files w; w_host := w_host w; w_log := w_log w ++ [Called c (w_files w)] |} in
  match f (w_host w) with (r, h) => (r, set_host h w) end.

Definition state_exists : WM bool :=
  gets (fun w => match f_state (w_files w) with Some _ => true | None => false end).

(** [initialize] and [atomic_write]. *)
Definition write_file (f : JournalFile) (text : string) : WM unit := fun w =>
  match disk_write f text (w_host w) with
  | (Replaced, h) =>
      (Ok tt, {| w_files := set_file f (Some text) (w_files w); w_host := h; w_log := w_log w ++ [Wrote f text true] |})
  | (FailedBefore e, h) =>
      (Err e, {| w_files := w_files w; w_host := h; w_log := w_log w ++ [Wrote f text false] |})
  | (FailedAfter e, h) =>
      (Err e, {| w_files := set_file f (Some text) (w_files w); w_host := h; w_log := w_log w ++ [Wrote f text true] |})
  end.

Definition read_file (f : JournalFile) : WM (option string) :=
  gets (fun w => if disk_readable f (w_host w) then file f (w_files w) else None).

Definition locked {A} (m : WM A) : WM A := fun w =>
  match disk_lock (w_host w) with
  | (Ok _, h) => match m (set_host h w) with (r, w') => (r, set_host (disk_unlock (w_host w')) w') end
  | (Err e, h) => (Err (ETx e), set_host h w)
  end.

Definition write_plan (plan : InstallPlan) : WM unit := write_file FPlan (InstallPlan.to_canonical_json plan).

Definition read_plan : WM InstallPlan :=
  text ← read_file FPlan;
  match text with
  | None => tx (Err (transaction "transaction plan is unreadable"))
  | Some text =>
      match loads text with
      | Err _ => tx (Err (transaction "transaction plan is unreadable"))
      | Ok value =>
          match InstallPlan.from_value value with
          | Err _ => tx (Err (transaction "transaction plan is invalid"))
          | Ok plan => mret plan
          end
      end
  end.

Definition write_json (f : JournalFile) (value : Value) : WM unit := write_file f (pretty2 value).

Definition read_json (f : JournalFile) (label : string) : WM (bmap Value) :=
  let unreadable := transaction ("transaction " +:+ label +:+ " is unreadable") in
  text ← read_file f;
  match text with
  | None => tx (Err unreadable)
  | Some text =>
      match loads text with
      | Err _ => tx (Err unreadable)
      | Ok (Object m) => mret m
      | Ok _ => tx (Err (transaction ("transaction " +:+ label +:+ " is invalid")))
      end
  end.

Definition write_state (s : TransactionState) : WM unit :=
  tx (TransactionState.validate s) ≫= fun _ => write_json FState (TransactionState.to_value s).

Definition read_state : WM TransactionState :=
  m ← read_json FState "state"; tx (TransactionState.from_value (Object m)).

Definition ownership_file (ownership : Ownership) : Value :=
  Object (bset "schema" (json_int TRANSACTION_SCHEMA) (bset "files" (ownership_to_value ownership) [])).

Definition write_ownership (ownership : Ownership) : WM unit := write_json FOwnership (ownership_file ownership).

Definition read_ownership : WM Ownership :=
  m ← read_json FOwnership "ownership journal";
  let journal_invalid := ownership_error "ownership journal is invalid" in
  if negb (length m =? 2)%nat || negb (bhas "files" m)
     || negb (match m @@ "schema" with Some v => value_eqb v (json_int TRANSACTION_SCHEMA) | None => false end)
  then tx (Err journal_invalid)
  else tx ((m @@ "files" ≫= ownership_from_value) or_err journal_invalid).

Definition write_report (report : Value) : WM unit := write_json FReport report.

Definition remove_state : WM unit := fun w =>
  match disk_remove (w_host w) with
  | (Some err, h) =>
      if match io_kind err with NotFound => true | _ => false end
      then (Ok tt, set_host h w) else (Err (ETx (Io err)), set_host h w)
  | (None, h) => (Ok tt, {| w_files := set_file FState None (w_files w); w_host := h; w_log := w_log w |})
  end.
End store.
