(* ===== verification/Engine.v ===== *)
(** * The transaction engine

    [installer/src/engine.rs]: apply, resume, repair and uninstall of an approved plan through its
    adapters, with a checkpoint persisted around every step. The adapters' methods and the host's
    file system are the classes [Adapters] and [Paths]; [owned_path]'s text and the UUID come from
    [pc_host/src/fs.rs]. *)

From S2P Require Import Prelude BTree Utf8 Numeric Json PyText Plan Errors Journal Store.

(** One adapter ([installer/src/adapter.rs], the engine's part of the trait). *)
Record Adapter (H : Type) := {
  ad_name : string;
  ad_prepare : Action -> H -> result Error CheckpointData * H;
  ad_apply : Action -> CheckpointData -> H -> result Error CheckpointData * H;
  ad_reconcile_apply : Action -> CheckpointData -> H -> result Error CheckpointData * H;
  ad_verify : Action -> H -> result Error Evidence * H;
  ad_repair : Action -> CheckpointData -> H -> result Error CheckpointData * H;
  ad_rollback : Action -> CheckpointData -> bool -> RollbackTarget -> H -> result Error Evidence * H;
  ad_reconcile_rollback : Action -> CheckpointData -> bool -> RollbackTarget -> H -> result Error Evidence * H;
  ad_committed : Phase -> Action -> H -> result Error unit * H;
}.
Arguments ad_name {H}. Arguments ad_prepare {H}. Arguments ad_apply {H}. Arguments ad_reconcile_apply {H}.
Arguments ad_verify {H}. Arguments ad_repair {H}. Arguments ad_rollback {H}. Arguments ad_reconcile_rollback {H}.
Arguments ad_committed {H}.

Inductive PathKind := PFile | PSymlink.
Definition kind_str (k : PathKind) : string := match k with PFile => "file" | PSymlink => "symlink" end.
Record PathIdentity := { pi_kind : PathKind; pi_sha256 : string }.

(** What the host answers about a rooted path: whether it stays inside the root
    ([assert_contained] of its parent), what it is ([path_identity]), whether something is there
    ([exists_or_symlink]); and 16 random bytes. *)
Class Paths (H : Type) := {
  host_root : string;
  contained : string -> H -> tx_result unit;
  path_identity : string -> H -> tx_result PathIdentity;
  exists_or_symlink : string -> H -> bool;
  random_bytes : H -> list N * H;
}.

(** ** [pc_host/src/fs.rs] *)

(** [PathBuf::push] of one component. *)
Definition push_path (base name : string) : string :=
  if str_empty base then name
  else match last_byte base with
       | Some b => if Ascii.eqb b "/"%char then base +:+ name else base +:+ "/" +:+ name
       | None => name
       end.

(** The components of an absolute path are what [path_parts] keeps. *)
Definition root_candidate (root absolute : string) : tx_result string :=
  let parts := path_parts absolute in
  if negb (String.prefix "/" absolute) || mem_str ".." parts
  then Err (transaction "host paths must be absolute and normalized")
  else Ok (fold_left push_path parts (if str_empty root then "." else root)).

(** The journal key of a declared host path. *)
Definition owned_key (raw : string) : tx_result string :=
  if negb (String.prefix "/" raw) then Err (ownership_error "owned path is unsafe") else
  let parts := path_parts raw in
  if mem_str ".." parts then Err (ownership_error "owned path is unsafe") else
  let double_anchor := String.prefix "//" raw && negb (String.prefix "///" raw) in
  Ok (if double_anchor then "/" +:+ join "/" ("//" :: parts) else "/" +:+ join "/" parts).

Definition hex_byte (b : N) : string :=
  String (digit (b / 16)) (String (digit (b mod 16)) EmptyString).
Definition hex (bytes : list N) : string := join EmptyString (map hex_byte bytes).

(** The version and variant bits of a UUID 4. *)
Definition uuid4_hex (bytes : list N) : string :=
  let bytes := alter (fun b => N.lor (N.land b 0x0f) 0x40) 6 bytes in
  let bytes := alter (fun b => N.lor (N.land b 0x3f) 0x80) 8 bytes in
  hex bytes.

Definition AGENT_MANAGED_PATHS : list string :=
  ["/etc/proxy-control/caddy-naive.pin"; "/usr/local/bin/caddy"; "/usr/bin/mita";
   "/opt/mtproxy-shared443/.env.mieru"; "/opt/mtproxy-shared443/.env.xray-router";
   "/usr/local/lib/proxy-control/xray-router/xray"; "/usr/local/lib/proxy-control/xray-router/geoip.dat";
   "/usr/local/lib/proxy-control/xray-router/geosite.dat"].

Definition drifted (host_path : string) : TxError := ownership_error ("owned file drifted: " +:+ host_path).

(** The comparison [assert_owned] and [assert_reconcile_safe] share: the entry's kind, and its digest
    unless the file is mutable or the version agent's. *)
Definition same_file (agent_managed : list string) (host_path : string) (expected : OwnershipEntry)
  (actual : PathIdentity) : bool :=
  (kind_str (pi_kind actual) =?s o_kind expected) &&
  (OwnershipEntry.is_mutable expected || mem_str host_path agent_managed || (pi_sha256 actual =?s o_sha256 expected)).

Section engine.
Context {H : Type} {DK : Disk H} {PS : Paths H} {JP : JsonParser}.
Context {UT : UnicodeText} {FT : FloatText} {SHA : Sha256} {SD : SerdeDisplay}.
Context (adapters : bmap (Adapter H)) (agent_managed : list string).

Abbreviation WM := (M (World H)).
(** The journal state in memory beside the world. *)
Abbreviation SM := (M (TransactionState * World H)).

(** [owned_path]. *)
Definition owned_path (raw : string) (h : H) : tx_result (string * string) :=
  normalized ← owned_key raw;
  rooted ← root_candidate host_root normalized;
  contained rooted h ≫= fun _ => Ok (normalized, rooted).

(** *** Ownership *)

Definition assert_owned_in (ownership : Ownership) (h : H) : tx_result unit :=
  try_for (fun '(host_path, expected) =>
    '(_, path) ← owned_path host_path h;
    actual ← match path_identity path h with
             | Ok actual => Ok actual
             | Err (OwnershipErr _) => Err (drifted host_path)
             | Err err => Err err
             end;
    if same_file agent_managed host_path expected actual then Ok tt else Err (drifted host_path)) ownership.

Definition assert_owned (ownership : Ownership) : WM unit :=
  fun w => tx (assert_owned_in ownership (w_host w)) w.

Definition assert_all_owned (s : TransactionState) : WM unit :=
  o ← tx (TransactionState.ownership s false); assert_owned o.

Definition assert_reconcile_safe_in (ownership : Ownership) (purge_data : bool) (h : H) : tx_result unit :=
  try_for (fun '(host_path, expected) =>
    '(_, path) ← owned_path host_path h;
    if negb (exists_or_symlink path h) then
      if o_preserve expected && negb purge_data then Err (drifted host_path) else Ok tt
    else
      actual ← path_identity path h;
      if same_file agent_managed host_path expected actual then Ok tt else Err (drifted host_path)) ownership.

Definition assert_reconcile_safe (ownership : Ownership) (purge_data : bool) : WM unit :=
  fun w => tx (assert_reconcile_safe_in ownership purge_data (w_host w)) w.

(** What the checkpoint data declares: paths with their declarations. *)
Definition declared (a : Action) (data : CheckpointData) : result Error (list (Value * Value)) :=
  let present key := match data @@ key with Some Null => None | o => o end in
  let declaration :=
    match present "ownership" with
    | Some v => v
    | None => match present "owned_files" with
              | Some v => v
              | None => default (Array []) (data @@ "owned_paths")
              end
    end in
  match declaration with
  | Object m => Ok (map (fun e => (Str e.1, e.2)) m)
  | Array items => Ok (map (fun p => (p, Null)) items)
  | _ => Err (ETx (transaction ("adapter ownership is invalid: " +:+ act_adapter a)))
  end.

(** The flags of one declaration: [mutable], [preserve]. *)
Definition check_declaration (a : Action) (host_path : string) (actual : PathIdentity) (expected : Value)
  : result Error (bool * bool) :=
  match expected with
  | Str digest =>
      if digest =?s pi_sha256 actual then Ok (false, false) else Err (ETx (drifted host_path))
  | Object flags =>
      mutable ← match flags @@ "mutable" with
                | Some v => as_bool v or_err ETx (transaction "adapter ownership mutability flag is invalid")
                | None => Ok false
                end;
      let bad_hash := match flags @@ "sha256" with
                      | None | Some Null => false
                      | Some (Str hash) => negb (hash =?s pi_sha256 actual)
                      | Some _ => true
                      end in
      if negb mutable && bad_hash then Err (ETx (drifted host_path)) else
      preserve ← match flags @@ "preserve" with
                 | Some v => as_bool v or_err ETx (transaction "adapter ownership preservation flag is invalid")
                 | None => Ok false
                 end;
      Ok (mutable, preserve)
  | Null => Ok (false, false)
  | _ => Err (ETx (transaction ("adapter ownership is invalid: " +:+ act_adapter a)))
  end.

Fixpoint capture (a : Action) (items : list (Value * Value)) (ownership : Ownership) (h : H)
  : result Error Ownership :=
  match items with
  | [] => Ok ownership
  | (raw_path, expected) :: rest =>
      raw_path ← as_str raw_path or_err ETx (ownership_error "owned path is unsafe");
      '(host_path, path) ← map_err ETx (owned_path raw_path h);
      actual ← map_err ETx (path_identity path h);
      '(mutable, preserve) ← check_declaration a host_path actual expected;
      capture a rest (bset host_path
        {| o_action_id := act_id a; o_adapter := act_adapter a; o_kind := kind_str (pi_kind actual);
           o_mutable := Some mutable; o_preserve := preserve; o_sha256 := pi_sha256 actual |} ownership) h
  end.

Definition capture_ownership (a : Action) (data : CheckpointData) : WM Ownership := fun w =>
  lift (items ← declared a data; capture a items [] (w_host w)) w.

(** *** Persistence *)

Definition persist (s : TransactionState) : WM unit :=
  write_state s ≫= fun _ =>
  o ← tx (TransactionState.ownership s true);
  write_ownership o ≫= fun _ => write_report (TransactionState.report_value s).

Definition adapter (a : Action) : WM (Adapter H) :=
  match adapters @@ act_adapter a with
  | Some ad => if ad_name ad =?s act_adapter a then mret ad
               else tx (Err (transaction ("adapter is unavailable: " +:+ act_adapter a)))
  | None => tx (Err (transaction ("adapter is unavailable: " +:+ act_adapter a)))
  end.

Definition validate_adapters (plan : InstallPlan) : WM unit :=
  for_each (fun a => adapter a ≫= fun _ => mret tt) (p_actions plan).

Definition persist_checkpoint (s : TransactionState) (k : Checkpoint) (a : Action) : WM unit :=
  persist s ≫= fun _ =>
  ad ← adapter a;
  call (CCommitted (k_phase k) a) (ad_committed ad (k_phase k) a).

Definition read_matching_plan (s : TransactionState) : WM InstallPlan :=
  plan ← read_plan;
  if negb (InstallPlan.digest plan =?s s_plan_digest s) || negb (s_accepted_digest s =?s s_plan_digest s)
  then tx (Err (transaction "persisted plan digest does not match transaction state"))
  else mret plan.

Definition verify (a : Action) : WM Evidence :=
  ad ← adapter a;
  evidence ← call (CVerify a) (ad_verify ad a);
  if negb (ev_action_id evidence =?s act_id a)
  then tx (Err (transaction ("adapter returned invalid evidence: " +:+ act_adapter a)))
  else if negb (ev_success evidence)
  then tx (Err (transaction ("adapter verification failed: " +:+ act_adapter a)))
  else mret evidence.

(** *** Updates of the state in memory *)

Definition get_state : SM TransactionState := gets fst.
Definition put_state (s : TransactionState) : SM unit := modify (fun sw => (s, sw.2)).

Definition with_status (s : TransactionState) (status : Status) (target : option RollbackTarget)
  (error : option string) : TransactionState :=
  {| s_transaction_id := s_transaction_id s; s_status := status; s_plan_digest := s_plan_digest s;
     s_accepted_digest := s_accepted_digest s; s_checkpoints := s_checkpoints s; s_purge_data := s_purge_data s;
     s_rollback_target := target; s_origin := s_origin s; s_error := error; s_legacy := s_legacy s;
     s_schema := s_schema s |}.
Definition with_purge (s : TransactionState) (purge_data : bool) : TransactionState :=
  {| s_transaction_id := s_transaction_id s; s_status := s_status s; s_plan_digest := s_plan_digest s;
     s_accepted_digest := s_accepted_digest s; s_checkpoints := s_checkpoints s; s_purge_data := Some purge_data;
     s_rollback_target := s_rollback_target s; s_origin := s_origin s; s_error := s_error s; s_legacy := s_legacy s;
     s_schema := s_schema s |}.

Definition persist_current : SM unit := s ← get_state; on_world (persist s).

(** [record]: the checkpoint joins the state, which is persisted with the adapter's hook. *)
Definition record_checkpoint (k : Checkpoint) (a : Action) : SM unit :=
  s ← get_state;
  let s := TransactionState.with_checkpoint s k in
  put_state s ≫= fun _ => on_world (persist_checkpoint s k a).

(** *** Apply *)

Definition finish_apply (a : Action) (k : Checkpoint) (data : CheckpointData) : WM Checkpoint :=
  ownership ← capture_ownership a data;
  mret {| k_action_id := k_action_id k; k_adapter := k_adapter k; k_phase := Applied; k_data := data;
          k_ownership := ownership; k_evidence := k_evidence k; k_rollback_evidence := k_rollback_evidence k |}.

Definition is_phase (k : Checkpoint) (p : Phase) : bool := bool_decide (k_phase k = p).

(** The first part of a turn of [continue_apply]: the action's checkpoint, prepared if new. *)
Definition prepare_action (a : Action) (checkpoints : bmap Checkpoint) : SM (Checkpoint * bmap Checkpoint) :=
  ad ← on_world (adapter a);
  match checkpoints @@ act_id a with
  | Some k => mret (k, checkpoints)
  | None =>
      data ← on_world (call (CPrepare a) (ad_prepare ad a));
      let k := Checkpoint.new (act_id a) (act_adapter a) Prepared data in
      record_checkpoint k a ≫= fun _ => mret (k, bset (act_id a) k checkpoints)
  end.

(** The second part: the mutation. *)
Definition mutate_action (a : Action) (k : Checkpoint) (checkpoints : bmap Checkpoint)
  : SM (Checkpoint * bmap Checkpoint) :=
  ad ← on_world (adapter a);
  if is_phase k Prepared then
    let k := Checkpoint.with_phase k Applying in
    record_checkpoint k a ≫= fun _ =>
    let checkpoints := bset (act_id a) k checkpoints in
    data ← on_world (call (CApply a (k_data k)) (ad_apply ad a (k_data k)));
    k ← on_world (finish_apply a k data);
    record_checkpoint k a ≫= fun _ => mret (k, bset (act_id a) k checkpoints)
  else if is_phase k Applying then
    data ← on_world (call (CReconcileApply a (k_data k)) (ad_reconcile_apply ad a (k_data k)));
    k ← on_world (finish_apply a k data);
    record_checkpoint k a ≫= fun _ => mret (k, bset (act_id a) k checkpoints)
  else mret (k, checkpoints).

Definition with_evidence (k : Checkpoint) (e : Evidence) : Checkpoint :=
  {| k_action_id := k_action_id k; k_adapter := k_adapter k; k_phase := Verified; k_data := k_data k;
     k_ownership := k_ownership k; k_evidence := Some (Evidence.to_map e);
     k_rollback_evidence := k_rollback_evidence k |}.

(** The third part: the proof. *)
Definition verify_action (a : Action) (k : Checkpoint) (checkpoints : bmap Checkpoint)
  : SM (Checkpoint * bmap Checkpoint) :=
  if is_phase k Applied then
    evidence ← on_world (verify a);
    let k := with_evidence k evidence in
    record_checkpoint k a ≫= fun _ => mret (k, bset (act_id a) k checkpoints)
  else mret (k, checkpoints).

Definition apply_action (a : Action) (checkpoints : bmap Checkpoint) : SM (bmap Checkpoint) :=
  '(k, checkpoints) ← prepare_action a checkpoints;
  '(k, checkpoints) ← mutate_action a k checkpoints;
  '(k, checkpoints) ← verify_action a k checkpoints;
  if is_phase k RollbackInProgress || is_phase k RolledBack
  then on_world (tx (Err (transaction "cannot apply a rolled-back checkpoint")))
  else mret checkpoints.

Fixpoint apply_actions (actions : list Action) (checkpoints : bmap Checkpoint) : SM unit :=
  match actions with
  | [] => mret tt
  | a :: rest => checkpoints ← apply_action a checkpoints; apply_actions rest checkpoints
  end.

Definition checkpoint_map (s : TransactionState) : bmap Checkpoint :=
  bcollect (map (fun k => (k_action_id k, k)) (s_checkpoints s)).

(** The body of [continue_apply], on the state it owns. *)
Definition continue_steps (plan : InstallPlan) : SM unit :=
  s ← get_state;
  apply_actions (p_actions plan) (checkpoint_map s) ≫= fun _ =>
  s ← get_state;
  put_state (with_status s SActive (s_rollback_target s) None) ≫= fun _ => persist_current.

(** Runs a body on a state of its own and returns that state. *)
Definition with_state {A} (s : TransactionState) (m : SM A) : WM TransactionState := fun w =>
  match m (s, w) with
  | (Ok _, (s', w')) => (Ok s', w')
  | (Err e, (_, w')) => (Err e, w')
  end.

Definition continue_apply (plan : InstallPlan) (s : TransactionState) : WM TransactionState :=
  with_state s (continue_steps plan).

(** *** Rollback *)

Definition with_rolled_back (k : Checkpoint) (e : Evidence) : Checkpoint :=
  {| k_action_id := k_action_id k; k_adapter := k_adapter k; k_phase := RolledBack; k_data := k_data k;
     k_ownership := k_ownership k; k_evidence := k_evidence k;
     k_rollback_evidence := Some (Evidence.to_map e) |}.

(** The adapter's part of one rollback, by the checkpoint's phase; the checkpoint as it is then. *)
Definition undo (a : Action) (k : Checkpoint) (purge_data : bool) (target : RollbackTarget)
  : SM (option (Checkpoint * Evidence)) :=
  ad ← on_world (adapter a);
  match k_phase k with
  | Applied | Verified =>
      on_world (assert_owned (k_ownership k)) ≫= fun _ =>
      let k := Checkpoint.with_phase k RollbackInProgress in
      record_checkpoint k a ≫= fun _ =>
      e ← on_world (call (CRollback a (k_data k) purge_data target) (ad_rollback ad a (k_data k) purge_data target));
      mret (Some (k, e))
  | Applying | RollbackInProgress =>
      k ← (if is_phase k Applying
           then let k := Checkpoint.with_phase k RollbackInProgress in record_checkpoint k a ≫= fun _ => mret k
           else mret k);
      on_world (assert_reconcile_safe (k_ownership k) purge_data) ≫= fun _ =>
      e ← on_world (call (CReconcileRollback a (k_data k) purge_data target)
                         (ad_reconcile_rollback ad a (k_data k) purge_data target));
      mret (Some (k, e))
  | Prepared | RolledBack => mret None
  end.

Definition settle (k : Checkpoint) : SM unit :=
  s ← get_state; put_state (TransactionState.with_checkpoint s k) ≫= fun _ => persist_current.

(** [by_action.get(id)]: of two actions with one id the last. *)
Definition action_of (plan : InstallPlan) (k : Checkpoint) : option Action :=
  match bcollect (map (fun a => (act_id a, a)) (p_actions plan)) @@ k_action_id k with
  | Some a => if act_adapter a =?s k_adapter k then Some a else None
  | None => None
  end.

(** One turn of the loop of [rollback_steps]. *)
Definition rollback_checkpoint (plan : InstallPlan) (purge_data : bool) (target : RollbackTarget) (k : Checkpoint)
  : SM unit :=
  if is_phase k RolledBack then mret tt else
  match action_of plan k with
  | None => on_world (tx (Err (transaction "checkpoint does not belong to the persisted plan")))
  | Some a =>
      if is_phase k Prepared then settle (Checkpoint.with_phase k RolledBack) else
      let preserve := List.filter (fun e => o_preserve e.2) (k_ownership k) in
      undone ← undo a k purge_data target;
      match undone with
      | None => mret tt
      | Some (k, e) =>
          if negb (ev_success e)
          then on_world (tx (Err (transaction ("adapter rollback failed: " +:+ act_adapter a))))
          else
            (if purge_data then mret tt else on_world (assert_owned preserve)) ≫= fun _ =>
            settle (with_rolled_back k e)
      end
  end.

Definition rollback_steps (plan : InstallPlan) (target : RollbackTarget) (error : option Error) : SM unit :=
  s ← get_state;
  on_world (assert_all_owned s) ≫= fun _ =>
  let status := match target with ToUninstalled => SUninstalling | ToRolledBack => SRollingBack end in
  let s := with_status s status (Some target)
             (match error with Some e => Some (Error.python_class_name e) | None => s_error s end) in
  put_state s ≫= fun _ =>
  persist_current ≫= fun _ =>
  let purge_data := bool_decide (target = ToRolledBack) || bool_decide (s_purge_data s = Some true) in
  for_each (rollback_checkpoint plan purge_data target) (rev (s_checkpoints s)) ≫= fun _ =>
  s ← get_state;
  put_state (with_status s (RollbackTarget.status target) (s_rollback_target s) (s_error s)) ≫= fun _ =>
  persist_current.

Definition rollback (plan : InstallPlan) (s : TransactionState) (target : RollbackTarget) (error : option Error)
  : WM TransactionState := fun w =>
  match rollback_steps plan target error (s, w) with
  | (Ok _, (s', w')) => (Ok s', w')
  | (Err e, (s', w')) =>
      if Error.is_fatal e then (Err e, w') else
      match persist (with_status s' SRollbackFailed (Some target) (Some (Error.python_class_name e))) w' with
      | (Ok _, w'') => (Err e, w'')
      | (Err e', w'') => (Err e', w'')
      end
  end.

Definition apply_or_roll_back (plan : InstallPlan) (s : TransactionState) : WM TransactionState := fun w =>
  match continue_apply plan s w with
  | (Ok s', w') => (Ok s', w')
  | (Err e, w') =>
      if Error.is_fatal e then (Err e, w') else
      (s ← read_state;
       rollback plan s ToRolledBack (Some e) ≫= fun _ => fail e) w'
  end.

(** *** The four commands *)

Definition fresh_uuid : WM string := fun w =>
  match random_bytes (w_host w) with (bytes, h) => (Ok (uuid4_hex bytes), set_host h w) end.

Definition start_transaction (plan : InstallPlan) : WM TransactionState :=
  validate_adapters plan ≫= fun _ =>
  write_plan plan ≫= fun _ =>
  uuid ← fresh_uuid;
  let s := TransactionState.new uuid SApplying (InstallPlan.digest plan) in
  persist s ≫= fun _ => apply_or_roll_back plan s.

Definition apply (plan : InstallPlan) (accepted_digest : string) : WM TransactionState :=
  if negb (accepted_digest =?s InstallPlan.digest plan)
  then tx (Err (AcceptedDigest "accepted plan digest does not match"))
  else locked (
    present ← state_exists;
    if negb present then start_transaction plan else
    existing ← read_state;
    same ← (if bool_decide (s_status existing = SActive)
            then p ← read_matching_plan existing;
                 mret (InstallPlan.intent_digest p =?s InstallPlan.intent_digest plan)
            else mret false);
    if (same : bool) then
      validate_adapters plan ≫= fun _ => assert_all_owned existing ≫= fun _ => mret existing
    else if negb (bool_decide (s_status existing = SRolledBack) || bool_decide (s_status existing = SUninstalled))
    then tx (Err (transaction "an installer transaction already exists"))
    else remove_state ≫= fun _ => start_transaction plan).

Definition resume : WM TransactionState :=
  locked (
    s ← read_state;
    plan ← read_matching_plan s;
    match s_status s with
    | SApplying => validate_adapters plan ≫= fun _ => apply_or_roll_back plan s
    | SRollingBack | SRollbackFailed | SUninstalling =>
        validate_adapters plan ≫= fun _ =>
        let target := default (if bool_decide (s_status s = SUninstalling) then ToUninstalled else ToRolledBack)
                              (s_rollback_target s) in
        rollback plan s target None
    | SActive =>
        validate_adapters plan ≫= fun _ => assert_all_owned s ≫= fun _ => persist s ≫= fun _ => mret s
    | SRolledBack | SUninstalled => persist s ≫= fun _ => mret s
    end).

Definition repaired (k : Checkpoint) (data : CheckpointData) (ownership : Ownership) (e : Evidence) : Checkpoint :=
  {| k_action_id := k_action_id k; k_adapter := k_adapter k; k_phase := k_phase k; k_data := data;
     k_ownership := ownership; k_evidence := Some (Evidence.to_map e);
     k_rollback_evidence := k_rollback_evidence k |}.

Fixpoint repair_actions (actions : list Action) (by_id : bmap Checkpoint) : SM unit :=
  match actions with
  | [] => mret tt
  | a :: rest =>
      match by_id @@ act_id a with
      | Some k =>
          if negb (is_phase k Verified)
          then on_world (tx (Err (transaction "active transaction has incomplete checkpoints")))
          else
            ad ← on_world (adapter a);
            data ← on_world (call (CRepair a (k_data k)) (ad_repair ad a (k_data k)));
            ownership ← on_world (capture_ownership a data);
            evidence ← on_world (verify a);
            let k := repaired k data ownership evidence in
            record_checkpoint k a ≫= fun _ => repair_actions rest (bset (act_id a) k by_id)
      | None => on_world (tx (Err (transaction "active transaction has incomplete checkpoints")))
      end
  end.

Definition repair_steps (plan : InstallPlan) : SM unit :=
  s ← get_state;
  repair_actions (p_actions plan) (checkpoint_map s) ≫= fun _ =>
  s ← get_state;
  put_state (with_status s (s_status s) (s_rollback_target s) None) ≫= fun _ => persist_current.

Definition repair : WM TransactionState :=
  locked (
    s ← read_state;
    plan ← read_matching_plan s;
    validate_adapters plan ≫= fun _ =>
    if negb (bool_decide (s_status s = SActive)) then
      if Status.is_interrupted (s_status s)
      then tx (Err (transaction "resume the interrupted transaction before repair"))
      else mret s
    else with_state s (repair_steps plan)).

Definition uninstall (purge_data : bool) : WM TransactionState :=
  locked (
    s ← read_state;
    plan ← read_matching_plan s;
    validate_adapters plan ≫= fun _ =>
    match s_status s with
    | SUninstalled | SRolledBack => persist s ≫= fun _ => mret s
    | SActive | SUninstalling =>
        if bool_decide (s_status s = SUninstalling) && negb (bool_decide (s_purge_data s = Some purge_data))
        then
          let required := if bool_decide (s_purge_data s = Some true) then "with --purge-data"
                          else "without --purge-data" in
          tx (Err (transaction ("retry the interrupted uninstall " +:+ required)))
        else
          assert_all_owned s ≫= fun _ =>
          let s := with_status (with_purge s purge_data) SUninstalling (Some ToUninstalled) None in
          persist s ≫= fun _ => rollback plan s ToUninstalled None
    | _ => tx (Err (transaction "resume the interrupted transaction before uninstall"))
    end).
End engine.
