(* ===== verification/EngineFacts.v ===== *)
(** * A program logic for the engine's code

    Triples over the fallible state monad of [Store.v]: what a piece of code adds to the event log,
    what holds when it returns and what holds when it fails. *)

From S2P Require Import Prelude BTree Utf8 Numeric Json PyText Plan Errors Journal JournalFacts Store Engine.

(** The event log of a state: of a world, or of a world with a state beside it. *)
Class Logged (S : Type) := log_of : S -> list Event.
#[export] Instance world_logged {H} : Logged (World H) := w_log.
#[export] Instance pair_logged {T H} : Logged (T * World H) := fun tw => w_log tw.2.

Section triples.
Context {S : Type} {LG : Logged S}.

(** From [s], [m] adds only events that satisfy [E] to the log; when it returns [Q] holds, when it
    fails [X] does. *)
Definition runs {A} (E : Event -> Prop) (m : M S A) (s : S) (Q : A -> S -> Prop) (X : Error -> S -> Prop) : Prop :=
  exists new, log_of (m s).2 = log_of s ++ new /\ Forall E new /\
    match (m s).1 with Ok a => Q a (m s).2 | Err e => X e (m s).2 end.

Lemma runs_pure {A} E (m : M S A) s (Q : A -> S -> Prop) X :
  log_of (m s).2 = log_of s -> match (m s).1 with Ok a => Q a (m s).2 | Err e => X e (m s).2 end -> runs E m s Q X.
Proof. intros Hl HQ. exists []. rewrite app_nil_r. by repeat split; [|constructor|]. Qed.

Lemma runs_ret {A} E (a : A) s (Q : A -> S -> Prop) X : Q a s -> runs E (mret a) s Q X.
Proof. intros HQ. by apply runs_pure. Qed.

Lemma runs_lift {A} E (r : result Error A) s (Q : A -> S -> Prop) (X : Error -> S -> Prop) :
  match r with Ok a => Q a s | Err e => X e s end -> runs E (lift r) s Q X.
Proof. intros HQ. by apply runs_pure. Qed.

Lemma runs_tx {A} E (r : tx_result A) s (Q : A -> S -> Prop) (X : Error -> S -> Prop) :
  match r with Ok a => Q a s | Err e => X (ETx e) s end -> runs E (tx r) s Q X.
Proof. intros HQ. apply runs_lift. by destruct r. Qed.

Lemma runs_bind {A B} E (m : M S A) (f : A -> M S B) s (Q : B -> S -> Prop) X :
  runs E m s (fun a s' => runs E (f a) s' Q X) X -> runs E (m ≫= f) s Q X.
Proof.
  intros (new & Hl & Hn & Hm). unfold runs in *. unfold mbind, M_bind. destruct (m s) as [[a|e] s']; simpl in *.
  - destruct Hm as (new' & Hl' & Hn' & HQ). exists (new ++ new'). rewrite Hl', Hl, app_assoc.
    split; [done|]. split; [by apply Forall_app|done].
  - by exists new.
Qed.

Lemma runs_mono {A} (E : Event -> Prop) (m : M S A) s (Q Q' : A -> S -> Prop) (X X' : Error -> S -> Prop) :
  runs E m s Q X -> (forall a s', Q a s' -> Q' a s') -> (forall e s', X e s' -> X' e s') -> runs E m s Q' X'.
Proof. intros (new & Hl & Hn & Hm) HQ HX. exists new. split; [done|]. split; [done|]. destruct (m s).1; auto. Qed.

Lemma runs_gets {A} E (f : S -> A) s (Q : A -> S -> Prop) X : Q (f s) s -> runs E (gets f) s Q X.
Proof. intros HQ. by apply runs_pure. Qed.

Lemma runs_for_each {A} E (f : A -> M S unit) (I : list A -> S -> Prop) (Q : unit -> S -> Prop) X l : forall s,
  I l s -> (forall a l' s, I (a :: l') s -> runs E (f a) s (fun _ s' => I l' s') X) ->
  (forall s, I [] s -> Q tt s) -> runs E (for_each f l) s Q X.
Proof.
  induction l as [|a l IH]; intros s HI Hf HQ; [by apply runs_ret, HQ|].
  apply runs_bind. eapply runs_mono; [by apply Hf| |done]. intros [] s' Hs'. by apply IH.
Qed.

Lemma runs_weaken {A} (E E' : Event -> Prop) (m : M S A) s Q X :
  runs E m s Q X -> (forall e, E e -> E' e) -> runs E' m s Q X.
Proof. intros (new & Hl & Hn & Hm) HE. exists new. split; [done|]. split; [by eapply Forall_impl|done]. Qed.

(** The outcomes may speak of the events added. *)
Lemma runs_added {A} (E : Event -> Prop) (m : M S A) s (Q Q' : A -> S -> Prop) (X X' : Error -> S -> Prop) :
  runs E m s Q X ->
  (forall a s' new, Q a s' -> log_of s' = log_of s ++ new -> Forall E new -> Q' a s') ->
  (forall e s' new, X e s' -> log_of s' = log_of s ++ new -> Forall E new -> X' e s') -> runs E m s Q' X'.
Proof. intros (new & Hl & Hn & Hm) HQ HX. exists new. split; [done|]. split; [done|]. destruct (m s).1; eauto. Qed.

(** What a triple says about a run that is known. *)
Lemma runs_Ok {A} E (m : M S A) s Q X a s' : runs E m s Q X -> m s = (Ok a, s') -> Q a s'.
Proof. intros (new & _ & _ & Hm) Heq. by rewrite Heq in Hm. Qed.
Lemma runs_Err {A} E (m : M S A) s Q X e s' : runs E m s Q X -> m s = (Err e, s') -> X e s'.
Proof. intros (new & _ & _ & Hm) Heq. by rewrite Heq in Hm. Qed.
Lemma runs_events {A} E (m : M S A) s Q X r s' : runs E m s Q X -> m s = (r, s') ->
  exists new, log_of s' = log_of s ++ new /\ Forall E new.
Proof. intros (new & Hl & Hn & _) Heq. rewrite Heq in Hl. by exists new. Qed.
End triples.

Lemma runs_on_world {T H A} E (m : M (World H) A) (t : T) w Q X :
  runs E m w (fun a w' => Q a (t, w')) (fun e w' => X e (t, w')) -> runs E (on_world m) (t, w) Q X.
Proof.
  intros (new & Hl & Hn & Hm). exists new. unfold on_world. destruct (m w) as [[a|e] w']; by simpl in *.
Qed.

(** ** The primitives of the store *)

Section store.
Context {H : Type} {DK : Disk H} {PS : Paths H} {JP : JsonParser}.
Context {UT : UnicodeText} {FT : FloatText} {SHA : Sha256} {SD : SerdeDisplay}.
Context (E : Event -> Prop) (Hwrote : forall f t b, E (Wrote f t b)).

(** A write leaves the other files alone; its own holds the text when it returns. *)
Definition wrote (f : JournalFile) (text : string) (w w' : World H) : Prop :=
  w_files w' = set_file f (Some text) (w_files w).

Lemma runs_write f text (w : World H) :
  runs E (write_file f text) w (fun _ w' => wrote f text w w')
    (fun _ w' => w_files w' = w_files w \/ wrote f text w w').
Proof.
  unfold runs, write_file. destruct (disk_write f text (w_host w)) as [[|e|e] h]; simpl.
  - eexists. split; [reflexivity|]. split; [by repeat constructor|done].
  - eexists. split; [reflexivity|]. split; [by repeat constructor|by left].
  - eexists. split; [reflexivity|]. split; [by repeat constructor|by right].
Qed.

Lemma runs_call {A} c (f : H -> result Error A * H) (w : World H) Q X :
  E (Called c (w_files w)) ->
  (forall r h, f (w_host w) = (r, h) -> forall w', w_files w' = w_files w -> w_host w' = h ->
     match r with Ok a => Q a w' | Err e => X e w' end) ->
  runs E (call c f) w Q X.
Proof.
  intros HE Hf. unfold runs, call. simpl. destruct (f (w_host w)) as [r h] eqn:Heq. simpl.
  eexists. split; [reflexivity|]. split; [by repeat constructor|]. by apply (Hf r h eq_refl).
Qed.
End store.

(** ** The state on disk *)

Section disk.
Context {JP : JsonParser} {FT : FloatText}.

(** [state.json] is what the engine wrote for [s], or reads as [s]. *)
Definition on_disk (fs : Files) (s : TransactionState) : Prop :=
  exists text, f_state fs = Some text /\
    (text = pretty2 (TransactionState.to_value s) \/
     exists m, loads text = Ok (Object m) /\ TransactionState.from_value (Object m) = Ok s).

Lemma on_disk_other f text fs s : f <> FState -> on_disk fs s -> on_disk (set_file f text fs) s.
Proof. intros Hf (t & Ht & Hs). exists t. split; [|done]. by destruct f. Qed.
End disk.

(** * The engine's apply

    Write-ahead and success of [continue_apply], [start_transaction] and [apply]
    ([installer/src/engine.rs]). *)

(** The state announces a call: the journal already says what the call is about to do. *)
Definition in_phase (s : TransactionState) (a : Action) (p : Phase) (data : CheckpointData) : Prop :=
  exists k, TransactionState.checkpoint s (act_id a) = Some k /\ k_phase k = p /\ k_data k = data.

Definition announced (c : Call) (s : TransactionState) : Prop :=
  match c with
  | CPrepare a => TransactionState.checkpoint s (act_id a) = None
  | CApply a data | CReconcileApply a data => in_phase s a Applying data
  | CVerify a => exists k, TransactionState.checkpoint s (act_id a) = Some k /\ (k_phase k = Applied \/ k_phase k = Verified)
  | CRepair a data => in_phase s a Verified data
  | CRollback a data _ _ | CReconcileRollback a data _ _ => in_phase s a RollbackInProgress data
  | CCommitted phase a => exists k, TransactionState.checkpoint s (act_id a) = Some k /\ k_phase k = phase
  end.

Section apply.
Context {H : Type} {DK : Disk H} {PS : Paths H} {JP : JsonParser}.
Context {UT : UnicodeText} {FT : FloatText} {SHA : Sha256} {SD : SerdeDisplay}.
Context (adapters : bmap (Adapter H)) (agent_managed : list string).

(** At every call of an adapter, the state on disk announces the call. *)
Definition ahead (e : Event) : Prop :=
  match e with Called c fs => exists s, on_disk fs s /\ announced c s | Wrote _ _ _ => True end.

Lemma ahead_wrote f t b : ahead (Wrote f t b).
Proof. done. Qed.

(** What [persist] leaves behind. *)
Definition persisted (s : TransactionState) (fs : Files) : Prop :=
  TransactionState.validate s = Ok tt /\ f_state fs = Some (pretty2 (TransactionState.to_value s)) /\
  (exists o, TransactionState.ownership s true = Ok o /\ f_ownership fs = Some (pretty2 (ownership_file o))) /\
  f_report fs = Some (pretty2 (TransactionState.report_value s)).

Lemma persisted_on_disk s fs : persisted s fs -> on_disk fs s.
Proof. intros (_ & Hs & _). eexists. split; [exact Hs|by left]. Qed.

Lemma runs_persist E s (w : World H) (HE : forall f t b, E (Wrote f t b)) :
  runs E (persist s) w (fun _ w' => persisted s (w_files w') /\ f_plan (w_files w') = f_plan (w_files w)) (fun _ _ => True).
Proof.
  apply runs_bind, runs_bind. apply runs_tx. destruct (TransactionState.validate s) as [[]|] eqn:Hv; [|done].
  eapply runs_mono; [by apply runs_write| |done]. intros [] w1 H1.
  apply runs_bind, runs_tx. destruct (TransactionState.ownership s true) as [o|] eqn:Ho; [|done].
  apply runs_bind. eapply runs_mono; [by apply runs_write| |done]. intros [] w2 H2.
  eapply runs_mono; [by apply runs_write| |done]. intros [] w3 H3.
  unfold wrote in *. rewrite H3, H2, H1. destruct (w_files w). simpl. repeat split; try done. by exists o.
Qed.

Lemma runs_persist_current E s (w : World H) (HE : forall f t b, E (Wrote f t b)) :
  runs E persist_current (s, w)
    (fun _ sw' => sw'.1 = s /\ persisted s (w_files sw'.2) /\ f_plan (w_files sw'.2) = f_plan (w_files w))
    (fun _ sw' => sw'.1 = s).
Proof.
  apply runs_bind, runs_gets, runs_on_world. eapply runs_mono; [by apply runs_persist| |done].
  intros [] w' [Hp Hplan]. done.
Qed.

Lemma runs_put_persist E s s' (w : World H) (HE : forall f t b, E (Wrote f t b)) :
  runs E (put_state s' ≫= fun _ => persist_current) (s, w)
    (fun _ sw' => sw'.1 = s' /\ persisted s' (w_files sw'.2) /\ f_plan (w_files sw'.2) = f_plan (w_files w))
    (fun _ sw' => sw'.1 = s').
Proof. apply runs_bind. apply runs_pure; [done|]. simpl. by apply runs_persist_current. Qed.

(** *** Recording a checkpoint *)

(** Only the checkpoints differ. *)
Definition frame (s s' : TransactionState) : Prop := s' = TransactionState.set_checkpoints s (s_checkpoints s').
Lemma frame_refl s : frame s s.
Proof. by destruct s. Qed.
Lemma frame_with s s' k : frame s s' -> frame s (TransactionState.with_checkpoint s' k).
Proof. unfold frame. intros ->. by destruct s. Qed.

Lemma runs_adapter E a (w : World H) (Q : Adapter H -> World H -> Prop) (X : Error -> World H -> Prop) :
  (forall ad, Q ad w) -> (forall e, X e w) -> runs E (adapter adapters a) w Q X.
Proof.
  intros HQ HX. unfold adapter. destruct (adapters @@ act_adapter a) as [ad|]; [|by apply runs_tx].
  destruct (_ =?s _); [by apply runs_ret|by apply runs_tx].
Qed.

Lemma checkpoint_with s k i : TransactionState.checkpoint (TransactionState.with_checkpoint s k) i =
  if k_action_id k =?s i then Some k else TransactionState.checkpoint s i.
Proof. apply find_put. Qed.

Lemma runs_record_gen (E : Event -> Prop) k a s w (Hk : k_action_id k = act_id a)
  (HEw : forall f t b, E (Wrote f t b))
  (HEc : forall fs s, on_disk fs s -> announced (CCommitted (k_phase k) a) s -> E (Called (CCommitted (k_phase k) a) fs)) :
  runs E (record_checkpoint adapters k a) (s, w)
    (fun _ '(s', w') => s' = TransactionState.with_checkpoint s k /\ on_disk (w_files w') s' /\
                        persisted s' (w_files w') /\ f_plan (w_files w') = f_plan (w_files w))
    (fun _ _ => True).
Proof.
  apply runs_bind, runs_gets. apply runs_bind. apply runs_pure; [done|]. simpl.
  apply runs_on_world. apply runs_bind. eapply runs_mono; [by apply runs_persist| |done].
  intros [] w1 [Hp Hplan]. apply runs_bind. apply runs_adapter; [|done]. intros ad.
  apply runs_call.
  - apply (HEc _ (TransactionState.with_checkpoint s k)); [by apply persisted_on_disk|].
    simpl. rewrite checkpoint_with, Hk, eqb_s_refl. by exists k.
  - intros [[]|e] h _ w2 Hw2 _; [|done]. rewrite Hw2. repeat split; try done; try apply Hp.
    by apply persisted_on_disk.
Qed.

Lemma runs_record k a s w (Hk : k_action_id k = act_id a) :
  runs ahead (record_checkpoint adapters k a) (s, w)
    (fun _ '(s', w') => s' = TransactionState.with_checkpoint s k /\ on_disk (w_files w') s' /\
                        persisted s' (w_files w') /\ f_plan (w_files w') = f_plan (w_files w))
    (fun _ _ => True).
Proof. apply runs_record_gen; [done..|]. intros fs s' Hd Ha. by exists s'. Qed.

(** *** One action *)

Definition mirrors (ck : bmap Checkpoint) (s : TransactionState) : Prop :=
  forall i, ck @@ i = TransactionState.checkpoint s i.

Lemma mirrors_set ck s k i : k_action_id k = i -> mirrors ck s ->
  mirrors (bset i k ck) (TransactionState.with_checkpoint s k).
Proof.
  intros <- Hm j. rewrite checkpoint_with, bget_bset, Hm. by rewrite String.eqb_sym.
Qed.

Lemma checkpoint_id s i k : TransactionState.checkpoint s i = Some k -> k_action_id k = i.
Proof. intros Hf. apply find_some in Hf as [_ Hf]. by apply eqb_s_true. Qed.

(** The loop's invariant between two steps of the action [i] on [k]. *)
Record step_inv (s0 : TransactionState) (i : string) (k : Checkpoint) (ck : bmap Checkpoint)
  (sw : TransactionState * World H) : Prop := {
  si_disk : on_disk (w_files sw.2) sw.1;
  si_mirrors : mirrors ck sw.1;
  si_frame : frame s0 sw.1;
  si_get : ck @@ i = Some k;
}.

Definition loop_inv (s0 : TransactionState) (ck : bmap Checkpoint) (sw : TransactionState * World H) : Prop :=
  on_disk (w_files sw.2) sw.1 /\ mirrors ck sw.1 /\ frame s0 sw.1.

Lemma step_id s0 i k ck sw : step_inv s0 i k ck sw -> k_action_id k = i.
Proof. intros [_ Hm _ Hg]. rewrite Hm in Hg. by apply checkpoint_id in Hg. Qed.

Lemma step_phase s0 a k ck s w : step_inv s0 (act_id a) k ck (s, w) -> in_phase s a (k_phase k) (k_data k).
Proof. intros [_ Hm _ Hg]. simpl in *. rewrite Hm in Hg. by exists k. Qed.

(** Recording the next version of the action's checkpoint keeps the invariant. *)
Lemma runs_advance s0 a k' ck s w (Hk : k_action_id k' = act_id a) :
  mirrors ck s -> frame s0 s ->
  runs ahead (record_checkpoint adapters k' a) (s, w)
    (fun _ sw' => step_inv s0 (act_id a) k' (bset (act_id a) k' ck) sw') (fun _ _ => True).
Proof.
  intros Hm Hf. eapply runs_mono; [by apply runs_record| |done].
  intros [] [s' w'] (-> & Hd & _ & _). constructor; simpl; [done|by apply mirrors_set|by apply frame_with|].
  apply bget_bset_eq.
Qed.

(** Keys other than the action's keep their checkpoint. *)
Definition same_but (i : string) (ck ck' : bmap Checkpoint) : Prop := forall j, j <> i -> ck' @@ j = ck @@ j.

Lemma same_but_refl i ck : same_but i ck ck.
Proof. done. Qed.
Lemma same_but_set i k ck ck' : same_but i ck ck' -> same_but i ck (bset i k ck').
Proof. intros Hs j Hj. rewrite bget_bset_ne by done. by apply Hs. Qed.

Definition stepped s0 a ck (phases : Phase -> Prop) : Checkpoint * bmap Checkpoint -> TransactionState * World H -> Prop :=
  fun '(k, ck') sw => step_inv s0 (act_id a) k ck' sw /\ same_but (act_id a) ck ck' /\ phases (k_phase k).

Lemma runs_prepare s0 a ck s w : loop_inv s0 ck (s, w) ->
  runs ahead (prepare_action adapters a ck) (s, w) (stepped s0 a ck (fun _ => True)) (fun _ _ => True).
Proof.
  intros (Hd & Hm & Hf). apply runs_bind, runs_on_world, runs_adapter; [|done]. intros ad.
  destruct (ck @@ act_id a) as [k|] eqn:Hg.
  - apply runs_ret. by repeat split.
  - apply runs_bind, runs_on_world, runs_call.
    + simpl. exists s. split; [done|]. simpl. by rewrite <-Hm.
    + intros [data|e] h _ w' Hw' _; [|done]. apply runs_bind.
      eapply runs_mono; [by apply (runs_advance s0 a (Checkpoint.new (act_id a) (act_adapter a) Prepared data))| |done].
      intros [] sw' Hs. apply runs_ret. split; [done|]. split; [by apply same_but_set|done].
Qed.

Lemma runs_finish E a k data (w : World H) :
  runs E (finish_apply a k data) w
    (fun k' w' => w' = w /\ k_action_id k' = k_action_id k /\ k_phase k' = Applied /\ k_data k' = data) (fun _ _ => True).
Proof.
  apply runs_bind. unfold capture_ownership. apply runs_pure; [done|]. simpl.
  destruct (items ← declared a data; capture a items [] (w_host w)); [|done]. by apply runs_ret.
Qed.

Lemma runs_mutate s0 a k ck s w : step_inv s0 (act_id a) k ck (s, w) ->
  runs ahead (mutate_action adapters a k ck) (s, w)
    (stepped s0 a ck (fun p => p <> Prepared /\ p <> Applying)) (fun _ _ => True).
Proof.
  intros Hinv. pose proof (step_id _ _ _ _ _ Hinv) as Hid. destruct Hinv as [Hd Hm Hf Hg]. simpl in *.
  apply runs_bind, runs_on_world, runs_adapter; [|done]. intros ad. unfold is_phase.
  assert (Hfinish : forall s1 w1 ck1 k1 data, k_action_id k1 = act_id a -> mirrors ck1 s1 -> frame s0 s1 ->
    same_but (act_id a) ck ck1 ->
    runs ahead (k2 ← on_world (finish_apply a k1 data);
                record_checkpoint adapters k2 a ≫= fun _ => mret (k2, bset (act_id a) k2 ck1)) (s1, w1)
      (stepped s0 a ck (fun p => p <> Prepared /\ p <> Applying)) (fun _ _ => True)).
  { intros s1 w1 ck1 k1 data Hk1 Hm1 Hf1 Hs1. apply runs_bind, runs_on_world.
    eapply runs_mono; [apply runs_finish| |done]. intros k2 w2 (-> & Hid2 & Hp2 & _). apply runs_bind.
    eapply runs_mono; [apply (runs_advance s0 a k2); [congruence|done..]| |done].
    intros [] sw' Hs'. apply runs_ret. split; [done|]. split; [by apply same_but_set|]. by rewrite Hp2. }
  destruct (bool_decide (k_phase k = Prepared)) eqn:H1; [|destruct (bool_decide (k_phase k = Applying)) eqn:H2].
  - set (k1 := Checkpoint.with_phase k Applying). apply runs_bind.
    eapply runs_mono; [apply (runs_advance s0 a k1); [done..]| |done].
    intros [] [s1 w1] [Hd1 Hm1 Hf1 Hg1]. simpl in *. apply runs_bind, runs_on_world, runs_call.
    + simpl. exists s1. split; [done|]. exists k1. rewrite <-Hm1. done.
    + intros [data|e] h _ w2 Hw2 _; [|done]. apply Hfinish; try done. by apply same_but_set.
  - apply bool_decide_eq_true in H2. apply runs_bind, runs_on_world, runs_call.
    + simpl. exists s. split; [done|]. exists k. rewrite <-Hm. done.
    + intros [data|e] h _ w2 Hw2 _; [|done]. by apply Hfinish.
  - apply runs_ret. apply bool_decide_eq_false in H1, H2. repeat split; done.
Qed.

Lemma runs_verify_call a s (w : World H) (Q : Evidence -> World H -> Prop) (X : Error -> World H -> Prop) :
  on_disk (w_files w) s ->
  (exists k, TransactionState.checkpoint s (act_id a) = Some k /\ (k_phase k = Applied \/ k_phase k = Verified)) ->
  (forall e w', w_files w' = w_files w -> ev_action_id e = act_id a -> ev_success e = true -> Q e w') ->
  (forall e w', X e w') -> runs ahead (verify adapters a) w Q X.
Proof.
  intros Hd Hk HQ HX. apply runs_bind, runs_adapter; [|done]. intros ad. apply runs_bind, runs_call; [by exists s|].
  intros [e|e] h _ w' Hw' _; [|done].
  destruct (ev_action_id e =?s act_id a) eqn:Hi; simpl; [|by apply runs_tx].
  destruct (ev_success e) eqn:Hs; simpl; [|by apply runs_tx]. apply runs_ret.
  apply eqb_s_true in Hi. by apply HQ.
Qed.

Lemma runs_verify s0 a k ck s w : step_inv s0 (act_id a) k ck (s, w) ->
  k_phase k <> Prepared -> k_phase k <> Applying ->
  runs ahead (verify_action adapters a k ck) (s, w)
    (stepped s0 a ck (fun p => p <> Prepared /\ p <> Applying /\ p <> Applied)) (fun _ _ => True).
Proof.
  intros Hinv H1 H2. pose proof (step_id _ _ _ _ _ Hinv) as Hid.
  unfold verify_action, is_phase. destruct (bool_decide (k_phase k = Applied)) eqn:H3.
  - apply bool_decide_eq_true in H3. pose proof Hinv as [Hd Hm Hf Hg]. simpl in *.
    apply runs_bind, runs_on_world. apply (runs_verify_call a s); [done| | |done].
    + exists k. rewrite <-Hm. split; [done|by left].
    + intros e w' Hw' _ _. apply runs_bind.
      eapply runs_mono; [apply (runs_advance s0 a (with_evidence k e)); [done..]| |done].
      intros [] sw' Hs'. apply runs_ret. split; [done|]. by split; [apply same_but_set|].
  - apply bool_decide_eq_false in H3. by apply runs_ret.
Qed.

Lemma runs_action s0 a ck s w : loop_inv s0 ck (s, w) ->
  runs ahead (apply_action adapters a ck) (s, w)
    (fun ck' sw' => loop_inv s0 ck' sw' /\ same_but (act_id a) ck ck' /\
                    exists k, ck' @@ act_id a = Some k /\ k_phase k = Verified) (fun _ _ => True).
Proof.
  intros Hinv. apply runs_bind. eapply runs_mono; [by apply runs_prepare| |done].
  intros [k1 ck1] [s1 w1] (Hi1 & Hs1 & _). apply runs_bind.
  eapply runs_mono; [by apply runs_mutate| |done]. intros [k2 ck2] [s2 w2] (Hi2 & Hs2 & H1 & H2).
  apply runs_bind. eapply runs_mono; [by apply runs_verify| |done].
  intros [k3 ck3] [s3 w3] (Hi3 & Hs3 & H3 & H4 & H5). unfold is_phase.
  destruct (bool_decide (k_phase k3 = RollbackInProgress)) eqn:H6;
    [by apply runs_on_world, runs_tx|].
  destruct (bool_decide (k_phase k3 = RolledBack)) eqn:H7; [by apply runs_on_world, runs_tx|].
  apply bool_decide_eq_false in H6, H7. apply runs_ret. destruct Hi3 as [Hd Hm Hf Hg]. simpl in *.
  split; [by repeat split|]. split.
  - intros j Hj. rewrite Hs3, Hs2 by done. by apply Hs1.
  - exists k3. split; [done|]. by destruct (k_phase k3).
Qed.

Definition verified (ck : bmap Checkpoint) (i : string) : Prop := exists k, ck @@ i = Some k /\ k_phase k = Verified.

Lemma runs_actions s0 actions : forall ck s w (done_ : string -> Prop), loop_inv s0 ck (s, w) ->
  (forall i, done_ i -> verified ck i) ->
  runs ahead (apply_actions adapters actions ck) (s, w)
    (fun _ '(s', w') => on_disk (w_files w') s' /\ frame s0 s' /\
       forall i, done_ i \/ i ∈ map act_id actions ->
         exists k, TransactionState.checkpoint s' i = Some k /\ k_phase k = Verified) (fun _ _ => True).
Proof.
  induction actions as [|a actions IH]; intros ck s w done_ Hinv Hdone; cbn [apply_actions].
  - apply runs_ret. destruct Hinv as (Hd & Hm & Hf). split; [done|]. split; [done|].
    intros i [Hi|Hi]; [|by apply not_elem_of_nil in Hi]. destruct (Hdone i Hi) as (k & Hk & Hp).
    exists k. by rewrite <-Hm.
  - apply runs_bind. eapply runs_mono; [by apply runs_action| |done]. intros ck' [s' w'] (Hinv' & Hsame & Hv).
    eapply runs_mono; [apply (IH ck' s' w' (fun i => done_ i \/ i = act_id a) Hinv')| |done].
    + intros i [Hi| ->]; [|exact Hv]. destruct (decide (i = act_id a)) as [->|Hne]; [exact Hv|].
      destruct (Hdone i Hi) as (k & Hk & Hp). exists k. by rewrite Hsame.
    + intros [] [s2 w2] (Hd2 & Hf2 & H2). split; [done|]. split; [done|]. intros i Hi. apply H2.
      simpl in Hi. rewrite elem_of_cons in Hi. tauto.
Qed.

(** *** The whole apply *)

Lemma validate_distinct s : TransactionState.validate s = Ok tt -> NoDup (map k_action_id (s_checkpoints s)).
Proof. intros Hv. apply state_validate_iff in Hv as (_ & _ & _ & _ & _ & Hd & _). apply all_distinct_NoDup in Hd. apply Hd. Qed.

Lemma checkpoint_map_mirrors s : TransactionState.validate s = Ok tt -> mirrors (checkpoint_map s) s.
Proof.
  intros Hv%validate_distinct i. unfold checkpoint_map, bcollect, TransactionState.checkpoint.
  rewrite bget_fold by (by rewrite map_map).
  induction (s_checkpoints s) as [|k l IH]; [done|]. cbn [map find fst snd].
  destruct (k_action_id k =?s i); [done|]. apply NoDup_cons in Hv as [_ Hv]. by apply IH.
Qed.

(** An active installation of [plan]: no error recorded, every action of the plan verified. *)
Definition active_for (plan : InstallPlan) (s : TransactionState) : Prop :=
  s_status s = SActive /\ s_error s = None /\
  forall a, a ∈ p_actions plan ->
    exists k, TransactionState.checkpoint s (act_id a) = Some k /\ k_phase k = Verified.

(** The parts of the state that identify the transaction. *)
Definition same_transaction (s s' : TransactionState) : Prop :=
  s_transaction_id s' = s_transaction_id s /\ s_plan_digest s' = s_plan_digest s /\
  s_origin s' = s_origin s /\ s_legacy s' = s_legacy s.

Lemma runs_continue plan s w : on_disk (w_files w) s -> TransactionState.validate s = Ok tt ->
  runs ahead (continue_apply adapters plan s) w
    (fun s' w' => persisted s' (w_files w') /\ active_for plan s' /\ same_transaction s s') (fun _ _ => True).
Proof.
  intros Hd Hv. unfold continue_apply.
  assert (Hsteps : runs ahead (continue_steps adapters plan) (s, w)
    (fun _ '(s', w') => persisted s' (w_files w') /\ active_for plan s' /\ same_transaction s s') (fun _ _ => True)).
  { apply runs_bind, runs_gets. apply runs_bind.
    eapply runs_mono; [apply (runs_actions s _ _ s w (fun _ => False))| |done].
    - split; [done|]. split; [by apply checkpoint_map_mirrors|apply frame_refl].
    - done.
    - intros [] [s1 w1] (_ & Hf1 & Hver). apply runs_bind, runs_gets. eapply runs_mono; [by apply runs_put_persist| |done].
      intros [] [s2 w2] (Hs2 & Hp & _). simpl in Hs2, Hp. subst s2. split; [exact Hp|]. split.
      + split; [done|]. split; [done|]. intros a Ha. apply (Hver (act_id a)). right.
        apply list_elem_of_fmap. by exists a.
      + unfold frame in Hf1. rewrite Hf1. by destruct s. }
  destruct Hsteps as (new & Hl & Hn & Hm). exists new. unfold with_state.
  destruct (continue_steps adapters plan (s, w)) as [[u|e] [s' w']]; simpl in *; done.
Qed.
End apply.
