(* ===== verification/EngineCommands.v ===== *)
(** * The engine's rollback and its four commands

    [rollback_steps] and [rollback] of [installer/src/engine.rs]: reverse order, write-ahead, and what
    the journal says at the end, whether every undo succeeded or one failed. *)

From S2P Require Import Prelude BTree Utf8 Numeric Json PyText Plan Errors Journal JournalFacts Store Engine.
From S2P Require Import EngineFacts.

(** The actions undone, in the order of the calls. *)
Definition undone_of (e : Event) : option string :=
  match e with
  | Called (CRollback a _ _ _) _ | Called (CReconcileRollback a _ _ _) _ => Some (act_id a)
  | _ => None
  end.
Definition undone (log : list Event) : list string := omap undone_of log.

Lemma undone_app l k : undone (l ++ k) = undone l ++ undone k.
Proof. apply omap_app. Qed.

Lemma undone_one e i : undone_of e = Some i -> undone [e] = [i].
Proof. intros He. unfold undone. cbn [omap list_omap]. by rewrite He. Qed.

Definition quiet (e : Event) : Prop := undone_of e = None.

Lemma undone_quiet l : Forall quiet l -> undone l = [].
Proof. unfold quiet, undone. induction 1 as [|e l He _ IH]; [done|]. simpl. by rewrite He. Qed.

(** A checkpoint whose adapter has something to undo. *)
Definition to_undo (k : Checkpoint) : bool :=
  match k_phase k with Prepared | RolledBack => false | _ => true end.
Definition undo_order (l : list Checkpoint) : list string := map k_action_id (List.filter to_undo l).

Lemma bget_collect_In {V} (l : list (string * V)) k v : bcollect l @@ k = Some v -> (k, v) ∈ l.
Proof.
  unfold bcollect. assert (Hg : forall m : bmap V, fold_left (fun m kv => bset kv.1 kv.2 m) l m @@ k = Some v ->
    (k, v) ∈ l \/ m @@ k = Some v).
  { induction l as [|[k' v'] l IH]; intros m; simpl; [by right|]. intros [Hin|Hm]%IH.
    - left. apply elem_of_cons. by right.
    - rewrite bget_bset in Hm. destruct (k =?s k') eqn:H; [|by right].
      apply eqb_s_true in H as ->. injection Hm as ->. left. apply elem_of_cons. by left. }
  intros H. by destruct (Hg _ H).
Qed.

Lemma action_of_Some plan k a : action_of plan k = Some a ->
  a ∈ p_actions plan /\ act_id a = k_action_id k /\ act_adapter a = k_adapter k.
Proof.
  unfold action_of. destruct (_ @@ _) as [a'|] eqn:Hg; [|done]. destruct (_ =?s _) eqn:Ha; [|done].
  intros [= ->]. apply bget_collect_In in Hg. apply list_elem_of_fmap in Hg as (b & Hb & Hin).
  injection Hb as Hid ->. apply eqb_s_true in Ha. done.
Qed.

Section rollback.
Context {H : Type} {DK : Disk H} {PS : Paths H} {JP : JsonParser}.
Context {UT : UnicodeText} {FT : FloatText} {SHA : Sha256} {SD : SerdeDisplay}.
Context (adapters : bmap (Adapter H)) (agent_managed : list string).

(** The log of a world undoes exactly [ids]. *)
Definition undid (ids : list string) (w : World H) : Prop := undone (w_log w) = ids.

Lemma undid_quiet ids (w w' : World H) new : undid ids w -> w_log w' = w_log w ++ new -> Forall quiet new -> undid ids w'.
Proof. unfold undid. intros Hu -> Hq. by rewrite undone_app, Hu, undone_quiet, app_nil_r. Qed.

(** A step that undoes nothing. *)
Lemma runs_quiet {A} (m : M (TransactionState * World H) A) s w (Q : A -> TransactionState * World H -> Prop) X ids :
  undid ids w -> runs (fun e => ahead e /\ quiet e) m (s, w) Q X ->
  runs ahead m (s, w) (fun a sw' => Q a sw' /\ undid ids sw'.2) (fun e sw' => X e sw' /\ undid ids sw'.2).
Proof.
  intros Hu Hr. eapply runs_weaken; [eapply runs_added; [exact Hr| |]|by intros ? [? _]]; simpl.
  - intros a sw' new HQ Hl Hn. split; [done|]. eapply undid_quiet; [exact Hu|exact Hl|].
    eapply Forall_impl; [exact Hn|]. by intros e [_ He].
  - intros e sw' new HX Hl Hn. split; [done|]. eapply undid_quiet; [exact Hu|exact Hl|].
    eapply Forall_impl; [exact Hn|]. by intros e' [_ He].
Qed.

Lemma runs_record_quiet k a s w ids (Hk : k_action_id k = act_id a) : undid ids w ->
  runs ahead (record_checkpoint adapters k a) (s, w)
    (fun _ '(s', w') => s' = TransactionState.with_checkpoint s k /\ on_disk (w_files w') s' /\ undid ids w')
    (fun _ '(_, w') => undid ids w').
Proof.
  intros Hu. eapply runs_mono; [eapply (runs_quiet _ s w _ _ ids Hu), runs_record_gen; [exact Hk|done|]| |].
  - intros fs s' Hd Ha. split; [by exists s'|done].
  - intros [] [s' w'] [(-> & Hd & _) Hu']. done.
  - intros e [s' w'] [_ Hu']. done.
Qed.

Lemma runs_put_quiet s s' w ids : undid ids w ->
  runs ahead (put_state s' ≫= fun _ => persist_current) (s, w)
    (fun _ sw' => sw'.1 = s' /\ persisted s' (w_files sw'.2) /\ undid ids sw'.2)
    (fun _ sw' => sw'.1 = s' /\ undid ids sw'.2).
Proof.
  intros Hu. eapply runs_mono; [eapply (runs_quiet _ s w _ _ ids Hu), runs_put_persist; done| |].
  - intros [] sw' [(? & ? & ?) ?]. done.
  - intros e sw' [? ?]. done.
Qed.

Lemma runs_settle k s w ids : undid ids w ->
  runs ahead (settle k) (s, w)
    (fun _ sw' => sw'.1 = TransactionState.with_checkpoint s k /\ on_disk (w_files sw'.2) sw'.1 /\ undid ids sw'.2)
    (fun _ sw' => undid ids sw'.2).
Proof.
  intros Hu. apply runs_bind, runs_gets. simpl. eapply runs_mono; [by apply runs_put_quiet| |].
  - intros [] [s' w'] (H1 & H2 & H3). simpl in *. subst. split; [done|]. split; [by apply persisted_on_disk|done].
  - intros e [s' w'] [_ H3]. done.
Qed.

(** *** One checkpoint *)

(** The outcome of one turn on [k] from [s]: the checkpoint is rolled back, the others are as they
    were. *)
Record turn_done (s : TransactionState) (k : Checkpoint) (ids : list string) (sw' : TransactionState * World H) : Prop := {
  td_disk : on_disk (w_files sw'.2) sw'.1;
  td_frame : frame s sw'.1;
  td_ids : map k_action_id (s_checkpoints sw'.1) = map k_action_id (s_checkpoints s);
  td_same : forall i, i <> k_action_id k -> TransactionState.checkpoint sw'.1 i = TransactionState.checkpoint s i;
  td_back : exists k', TransactionState.checkpoint sw'.1 (k_action_id k) = Some k' /\ k_phase k' = RolledBack;
  td_undid : undid (if to_undo k then ids ++ [k_action_id k] else ids) sw'.2;
}.

Lemma runs_assert E o s w (Q : unit -> TransactionState * World H -> Prop) (X : Error -> TransactionState * World H -> Prop) :
  Q tt (s, w) -> (forall e, X e (s, w)) -> runs E (on_world (assert_owned agent_managed o)) (s, w) Q X.
Proof.
  intros HQ HX. apply runs_on_world. apply runs_pure; [done|]. unfold assert_owned, tx, lift. simpl.
  destruct (assert_owned_in agent_managed o (w_host w)) as [[]|]; simpl; [exact HQ|apply HX].
Qed.

Lemma runs_assert_safe E o b s w (Q : unit -> TransactionState * World H -> Prop) (X : Error -> TransactionState * World H -> Prop) :
  Q tt (s, w) -> (forall e, X e (s, w)) -> runs E (on_world (assert_reconcile_safe agent_managed o b)) (s, w) Q X.
Proof.
  intros HQ HX. apply runs_on_world. apply runs_pure; [done|].
  unfold assert_reconcile_safe, tx, lift. simpl.
  destruct (assert_reconcile_safe_in agent_managed o b (w_host w)) as [[]|]; simpl; [exact HQ|apply HX].
Qed.

(** How a failed turn leaves the log. *)
Definition turn_failed (k : Checkpoint) (ids : list string) (sw' : TransactionState * World H) : Prop :=
  undid ids sw'.2 \/ (to_undo k = true /\ undid (ids ++ [k_action_id k]) sw'.2).

(** The call of the adapter that undoes. *)
Lemma runs_undo_call c (f : H -> result Error Evidence * H) a k s w ids :
  undone_of (Called c (w_files w)) = Some (act_id a) -> act_id a = k_action_id k -> to_undo k = true ->
  on_disk (w_files w) s -> announced c s -> undid ids w ->
  runs ahead (on_world (call c f)) (s, w)
    (fun _ sw' => sw'.1 = s /\ w_files sw'.2 = w_files w /\ undid (ids ++ [k_action_id k]) sw'.2)
    (fun _ sw' => turn_failed k ids sw').
Proof.
  intros Hof Ha Hk Hd Han Hu. apply runs_on_world.
  assert (Hlog : forall r h, f (w_host w) = (r, h) ->
    undid (ids ++ [k_action_id k]) (call c f w).2 /\ w_files (call c f w).2 = w_files w).
  { intros r h Heq. unfold call. simpl. rewrite Heq. unfold undid in *. simpl.
    by rewrite undone_app, Hu, (undone_one _ _ Hof), Ha. }
  unfold runs. destruct (f (w_host w)) as [r h] eqn:Heq. destruct (Hlog r h eq_refl) as [Hundid Hfiles].
  exists [Called c (w_files w)]. unfold call in *. simpl in *. rewrite Heq in *. simpl in *.
  split; [done|]. split; [constructor; [by exists s|constructor]|]. destruct r; [done|]. right. done.
Qed.

(** What [undo] of [k] from [s] leaves: the call was made, the state is [s], possibly with [k] recorded
    as in progress. *)
Definition undo_ok (s : TransactionState) (k : Checkpoint) (ids : list string)
  (r : option (Checkpoint * Evidence)) (sw' : TransactionState * World H) : Prop :=
  exists k1 e, r = Some (k1, e) /\ k_action_id k1 = k_action_id k /\
    (sw'.1 = s \/ sw'.1 = TransactionState.with_checkpoint s k1) /\ on_disk (w_files sw'.2) sw'.1 /\
    undid (ids ++ [k_action_id k]) sw'.2.

(** The journal in memory when the undo call comes: [k1] is there, in progress. *)
Definition in_progress (s : TransactionState) (k k1 : Checkpoint) (s1 : TransactionState) : Prop :=
  k_action_id k1 = k_action_id k /\ (s1 = s \/ s1 = TransactionState.with_checkpoint s k1) /\
  TransactionState.checkpoint s1 (k_action_id k) = Some k1 /\ k_phase k1 = RollbackInProgress.

Lemma in_progress_phase s k k1 s1 a : in_progress s k k1 s1 -> act_id a = k_action_id k ->
  in_phase s1 a RollbackInProgress (k_data k1).
Proof. intros (_ & _ & Hc & Hp) Ha. exists k1. by rewrite Ha. Qed.

(** The call itself and the return. *)
Lemma runs_undo_finish c (f : H -> result Error Evidence * H) a k k1 s s1 w ids :
  undone_of (Called c (w_files w)) = Some (act_id a) -> act_id a = k_action_id k -> to_undo k = true ->
  in_progress s k k1 s1 -> announced c s1 -> on_disk (w_files w) s1 -> undid ids w ->
  runs ahead (e ← on_world (call c f); mret (Some (k1, e))) (s1, w) (undo_ok s k ids) (fun _ sw' => turn_failed k ids sw').
Proof.
  intros Hof Ha Hk (Hid & Hs1 & _ & _) Han Hd Hu. apply runs_bind.
  eapply runs_mono; [by apply (runs_undo_call c f a k s1 w ids)| |done].
  intros e [s2 w2] (Hs2 & Hf2 & Hu2). simpl in *. subst s2. apply runs_ret. exists k1, e. simpl. by rewrite Hf2.
Qed.

Lemma runs_undo_safe ad a k k1 s s1 w ids purge target :
  act_id a = k_action_id k -> to_undo k = true -> in_progress s k k1 s1 -> on_disk (w_files w) s1 -> undid ids w ->
  runs ahead (on_world (assert_reconcile_safe agent_managed (k_ownership k1) purge) ≫= fun _ =>
              e ← on_world (call (CReconcileRollback a (k_data k1) purge target)
                                 (ad_reconcile_rollback (H := H) ad a (k_data k1) purge target));
              mret (Some (k1, e))) (s1, w) (undo_ok s k ids) (fun _ sw' => turn_failed k ids sw').
Proof.
  intros Ha Hk Hin Hd Hu. apply runs_bind, runs_assert_safe; [|by left].
  apply (runs_undo_finish _ _ a); try done. by apply (in_progress_phase s k).
Qed.

(** Recording [k] as in progress first. *)
Lemma runs_undo_record {A} a k s w ids (next : M (TransactionState * World H) A) Q :
  act_id a = k_action_id k -> undid ids w ->
  let k1 := Checkpoint.with_phase k RollbackInProgress in
  (forall s1 w1, in_progress s k k1 s1 -> on_disk (w_files w1) s1 -> undid ids w1 ->
     runs ahead next (s1, w1) Q (fun _ sw' => turn_failed k ids sw')) ->
  runs ahead (record_checkpoint adapters k1 a ≫= fun _ => next) (s, w) Q (fun _ sw' => turn_failed k ids sw').
Proof.
  intros Ha Hu k1 Hnext. apply runs_bind. eapply runs_mono; [apply runs_record_quiet; [by simpl|exact Hu]| |].
  - intros [] [s1 w1] (-> & Hd1 & Hu1). apply Hnext; try done. split; [done|]. split; [by right|].
    rewrite checkpoint_with. simpl. by rewrite eqb_s_refl.
  - intros e [s1 w1] Hu1. by left.
Qed.

(** [undo] of a checkpoint that is in the state. *)
Lemma runs_undo a k purge target s w ids :
  act_id a = k_action_id k -> to_undo k = true -> on_disk (w_files w) s ->
  TransactionState.checkpoint s (k_action_id k) = Some k -> undid ids w ->
  runs ahead (undo adapters agent_managed a k purge target) (s, w) (undo_ok s k ids) (fun _ sw' => turn_failed k ids sw').
Proof.
  intros Ha Hk Hd Hck Hu. apply runs_bind, runs_on_world, runs_adapter; [|by left]. intros ad.
  assert (Hroll : runs ahead (on_world (assert_owned agent_managed (k_ownership k)) ≫= fun _ =>
      let k := Checkpoint.with_phase k RollbackInProgress in
      record_checkpoint adapters k a ≫= fun _ =>
      e ← on_world (call (CRollback a (k_data k) purge target) (ad_rollback ad a (k_data k) purge target));
      mret (Some (k, e))) (s, w) (undo_ok s k ids) (fun _ sw' => turn_failed k ids sw')).
  { apply runs_bind, runs_assert; [|by left]. apply runs_undo_record; [done..|]. intros s1 w1 Hin Hd1 Hu1.
    apply (runs_undo_finish _ _ a); try done. by apply (in_progress_phase s k). }
  unfold is_phase. destruct (k_phase k) eqn:Hp; try (by unfold to_undo in Hk; rewrite Hp in Hk); try exact Hroll.
  - rewrite bool_decide_eq_true_2 by done. apply runs_bind. apply runs_undo_record; [done..|].
    intros s1 w1 Hin Hd1 Hu1. apply runs_ret. by apply runs_undo_safe.
  - rewrite bool_decide_eq_false_2 by done. apply runs_bind, runs_ret. apply runs_undo_safe; try done.
    split; [done|]. split; [by left|]. split; [by rewrite Hck|done].
Qed.

(** *** One turn *)

Lemma turn_done_with s s1 k k1 ids w :
  k_action_id k1 = k_action_id k -> k_phase k1 = RolledBack ->
  TransactionState.checkpoint s (k_action_id k) = Some k ->
  (s1 = s \/ exists k0, k_action_id k0 = k_action_id k /\ s1 = TransactionState.with_checkpoint s k0) ->
  on_disk (w_files w) (TransactionState.with_checkpoint s1 k1) ->
  undid (if to_undo k then ids ++ [k_action_id k] else ids) w ->
  turn_done s k ids (TransactionState.with_checkpoint s1 k1, w).
Proof.
  intros Hid Hp Hck Hs1 Hd Hu.
  assert (Hin : mem_str (k_action_id k) (map k_action_id (s_checkpoints s)) = true).
  { apply mem_str_true. apply find_some in Hck as [Hck _]. apply list_elem_of_fmap. exists k.
    split; [done|]. by apply list_elem_of_In. }
  assert (Hput : forall s2 k2, k_action_id k2 = k_action_id k ->
    map k_action_id (s_checkpoints s2) = map k_action_id (s_checkpoints s) ->
    map k_action_id (s_checkpoints (TransactionState.with_checkpoint s2 k2)) = map k_action_id (s_checkpoints s)).
  { intros s2 k2 Hk2 Hs2. simpl. rewrite put_ids, Hk2, Hs2, Hin. done. }
  constructor; simpl; try done.
  - destruct Hs1 as [->|(k0 & _ & ->)]; by repeat apply frame_with; apply frame_refl.
  - destruct Hs1 as [->|(k0 & Hk0 & ->)]; [by apply Hput|]. apply (Hput (TransactionState.with_checkpoint s k0)); [done|].
    by apply Hput.
  - intros i Hi. rewrite checkpoint_with, Hid, (proj2 (eqb_s_false _ _)) by congruence.
    destruct Hs1 as [->|(k0 & Hk0 & ->)]; [done|]. by rewrite checkpoint_with, Hk0, (proj2 (eqb_s_false _ _)) by congruence.
  - exists k1. by rewrite checkpoint_with, Hid, eqb_s_refl.
Qed.

Lemma runs_turn plan purge target k s w ids :
  on_disk (w_files w) s -> TransactionState.checkpoint s (k_action_id k) = Some k -> undid ids w ->
  runs ahead (rollback_checkpoint adapters agent_managed plan purge target k) (s, w)
    (fun _ sw' => turn_done s k ids sw') (fun _ sw' => turn_failed k ids sw').
Proof.
  intros Hd Hck Hu. unfold rollback_checkpoint, is_phase.
  destruct (bool_decide (k_phase k = RolledBack)) eqn:H1.
  { apply bool_decide_eq_true in H1. apply runs_ret. constructor; simpl; try done.
    - apply frame_refl.
    - by exists k.
    - unfold to_undo. by rewrite H1. }
  destruct (action_of plan k) as [a|] eqn:Ha; [|apply runs_on_world, runs_tx; by left].
  apply action_of_Some in Ha as (_ & Ha & _). apply bool_decide_eq_false in H1.
  destruct (bool_decide (k_phase k = Prepared)) eqn:H2.
  { apply bool_decide_eq_true in H2. eapply runs_mono; [by apply runs_settle| |by left].
    intros [] [s1 w1] (Hs1 & Hd1 & Hu1). simpl in *. subst s1.
    apply (turn_done_with s s k); try done; [by left|]. unfold to_undo. by rewrite H2. }
  apply bool_decide_eq_false in H2.
  assert (Hk : to_undo k = true) by (unfold to_undo; by destruct (k_phase k)).
  apply runs_bind. eapply runs_mono; [by apply runs_undo| |done].
  intros r [s1 w1] (k1 & e & -> & Hid & Hs1 & Hd1 & Hu1). simpl in *.
  assert (Hfail : forall x, turn_failed k ids (x, w1)) by (intros x; by right).
  destruct (negb (ev_success e)); [by apply runs_on_world, runs_tx|].
  assert (Hsettle : runs ahead (settle (with_rolled_back k1 e)) (s1, w1)
    (fun _ sw' => turn_done s k ids sw') (fun _ sw' => turn_failed k ids sw')).
  { eapply runs_mono; [by apply runs_settle| |intros x sw' Hx; by right].
    intros [] [s2 w2] (Hs2 & Hd2 & Hu2). simpl in *. subst s2. apply (turn_done_with s s1 k); try done.
    - destruct Hs1 as [->| ->]; [by left|right; by exists k1].
    - by rewrite Hk. }
  apply runs_bind. destruct purge; [by apply runs_ret|]. apply runs_assert; [exact Hsettle|done].
Qed.

(** *** The loop *)

(** Between two turns: [l] is still as the snapshot has it, [pre] is rolled back. *)
Record sweeping (s0 : TransactionState) (ids : list string) (pre l : list Checkpoint)
  (sw : TransactionState * World H) : Prop := {
  sv_disk : on_disk (w_files sw.2) sw.1;
  sv_frame : frame s0 sw.1;
  sv_ids : map k_action_id (s_checkpoints sw.1) = map k_action_id (s_checkpoints s0);
  sv_rest : forall k, k ∈ l -> TransactionState.checkpoint sw.1 (k_action_id k) = Some k;
  sv_back : forall k, k ∈ pre -> exists k', TransactionState.checkpoint sw.1 (k_action_id k) = Some k' /\ k_phase k' = RolledBack;
  sv_undid : undid (ids ++ undo_order pre) sw.2;
}.

Lemma undo_order_snoc pre k : undo_order (pre ++ [k]) = undo_order pre ++ (if to_undo k then [k_action_id k] else []).
Proof. unfold undo_order. rewrite List.filter_app, map_app. simpl. by destruct (to_undo k). Qed.

Lemma frame_trans s s1 s2 : frame s s1 -> frame s1 s2 -> frame s s2.
Proof. unfold frame. intros -> ->. by destruct s. Qed.

Lemma sweeping_turn s0 ids pre k l sw sw' : sweeping s0 ids pre (k :: l) sw ->
  NoDup (map k_action_id (k :: l)) -> NoDup (map k_action_id (pre ++ k :: l)) ->
  turn_done sw.1 k (ids ++ undo_order pre) sw' -> sweeping s0 ids (pre ++ [k]) l sw'.
Proof.
  intros [Hd Hf Hi Hr Hb Hu] Hnd Hnd2 [Td Tf Ti Ts Tb Tu]. rewrite map_cons in Hnd. apply NoDup_cons in Hnd as [Hk _].
  constructor.
  - done.
  - by eapply frame_trans.
  - by rewrite Ti.
  - intros k' Hk'. rewrite Ts; [apply Hr, elem_of_cons; by right|]. intros Heq. apply Hk. rewrite <-Heq.
    apply list_elem_of_fmap. by exists k'.
  - intros k' [Hk'|Hk']%elem_of_app.
    + rewrite Ts; [by apply Hb|]. intros Heq. rewrite map_app in Hnd2. apply NoDup_app in Hnd2 as (_ & Hnd2 & _).
      apply (Hnd2 (k_action_id k')); [apply list_elem_of_fmap; by exists k'|]. rewrite Heq. apply elem_of_cons. by left.
    + apply list_elem_of_singleton in Hk' as ->. done.
  - rewrite undo_order_snoc. destruct (to_undo k); [by rewrite app_assoc|by rewrite app_nil_r].
Qed.

(** A run that stopped has undone a prefix. *)
Definition stopped (ids : list string) (order : list Checkpoint) (sw : TransactionState * World H) : Prop :=
  exists pre suf, order = pre ++ suf /\ undid (ids ++ undo_order pre) sw.2.

Lemma runs_sweep plan purge target s0 ids l : forall pre s w,
  NoDup (map k_action_id (pre ++ l)) -> sweeping s0 ids pre l (s, w) ->
  runs ahead (for_each (rollback_checkpoint adapters agent_managed plan purge target) l) (s, w)
    (fun _ sw' => sweeping s0 ids (pre ++ l) [] sw') (fun _ sw' => stopped ids (pre ++ l) sw').
Proof.
  induction l as [|k l IH]; intros pre s w Hnd Hsw; cbn [for_each].
  - apply runs_ret. by rewrite app_nil_r.
  - pose proof Hsw as [Hd _ _ Hr _ Hu]. apply runs_bind. eapply runs_mono; [apply runs_turn; [exact Hd| |exact Hu]| |].
    + apply Hr, elem_of_cons. by left.
    + intros [] [s1 w1] Ht. rewrite cons_middle, app_assoc in Hnd |- *. apply IH; [done|].
      rewrite <-app_assoc in Hnd. simpl in Hnd. eapply sweeping_turn; [exact Hsw| |exact Hnd|exact Ht].
      rewrite map_app in Hnd. by apply NoDup_app in Hnd as (_ & _ & Hnd).
    + intros e sw' [Hf|[Hk Hf]]; [by exists pre, (k :: l)|]. exists (pre ++ [k]), l. rewrite <-app_assoc. split; [done|].
      by rewrite undo_order_snoc, Hk, app_assoc.
Qed.

(** *** The whole rollback *)

(** Where a finished rollback of [s] leads. *)
Definition rolled_back (s : TransactionState) (target : RollbackTarget) (s' : TransactionState) : Prop :=
  s_status s' = RollbackTarget.status target /\ s_rollback_target s' = Some target /\
  map k_action_id (s_checkpoints s') = map k_action_id (s_checkpoints s) /\
  (forall k, k ∈ s_checkpoints s' -> k_phase k = RolledBack) /\ same_transaction s s' /\
  s_purge_data s' = s_purge_data s.

Lemma checkpoint_of_In s k : NoDup (map k_action_id (s_checkpoints s)) -> k ∈ s_checkpoints s ->
  TransactionState.checkpoint s (k_action_id k) = Some k.
Proof.
  unfold TransactionState.checkpoint. induction (s_checkpoints s) as [|k' l IH]; [by intros _ ?%elem_of_nil|].
  cbn [map find]. intros [Hk' Hnd]%NoDup_cons [->|Hk]%elem_of_cons; [by rewrite eqb_s_refl|].
  rewrite (proj2 (eqb_s_false _ _)); [by apply IH|]. intros Heq. apply Hk'. rewrite Heq. apply list_elem_of_fmap. by exists k.
Qed.

Lemma In_checkpoint s k : k ∈ s_checkpoints s -> NoDup (map k_action_id (s_checkpoints s)) ->
  forall k', TransactionState.checkpoint s (k_action_id k) = Some k' -> k' = k.
Proof. intros Hk Hnd k' Hk'. rewrite (checkpoint_of_In _ _ Hnd Hk) in Hk'. by injection Hk'. Qed.

Lemma runs_rollback_steps plan target error s w :
  runs ahead (rollback_steps adapters agent_managed plan target error) (s, w)
    (fun _ '(s', w') => rolled_back s target s' /\ persisted s' (w_files w') /\
       undone (w_log w') = undone (w_log w) ++ undo_order (rev (s_checkpoints s)) /\
       s_error s' = match error with Some e => Some (Error.python_class_name e) | None => s_error s end)
    (fun _ sw' => stopped (undone (w_log w)) (rev (s_checkpoints s)) sw').
Proof.
  set (ids := undone (w_log w)).
  assert (Hnone : forall s' w', undid ids w' -> stopped ids (rev (s_checkpoints s)) (s', w')).
  { intros s' w' Hu. exists [], (rev (s_checkpoints s)). split; [done|]. simpl. by rewrite app_nil_r. }
  apply runs_bind, runs_gets. simpl. apply runs_bind.
  apply runs_on_world. apply runs_bind, runs_tx. destruct (TransactionState.ownership s false) as [o|]; [|by apply Hnone].
  apply runs_pure; [done|]. unfold assert_owned, tx, lift. simpl.
  destruct (assert_owned_in agent_managed o (w_host w)) as [[]|]; simpl; [|by apply Hnone].
  set (s1 := with_status s _ _ _).
  apply runs_bind. apply runs_pure; [done|]. simpl. apply runs_bind.
  eapply runs_mono; [eapply (runs_quiet _ s1 w _ _ ids eq_refl), runs_persist_current; done| |].
  2: { intros e [s' w'] [_ Hu]. by apply Hnone. }
  intros [] [s2 w2] [(Hs2 & Hp2 & _) Hu2]. simpl in *. subst s2.
  assert (Hnd : NoDup (map k_action_id (s_checkpoints s))).
  { destruct Hp2 as [Hv _]. by apply validate_distinct in Hv. }
  assert (Hndr : NoDup (map k_action_id (rev (s_checkpoints s)))).
  { rewrite map_rev. by rewrite <-Permutation_rev. }
  apply runs_bind. eapply runs_mono; [apply (runs_sweep plan _ target s1 ids (rev (s_checkpoints s)) [] s1 w2 Hndr)| |done].
  { constructor; simpl; try done.
    - by apply persisted_on_disk.
    - intros k Hk. apply (checkpoint_of_In s1); [done|]. by rewrite <-Permutation_rev in Hk.
    - intros k Hk. by apply elem_of_nil in Hk.
    - by rewrite app_nil_r. }
  intros [] [s3 w3] [Hd3 Hf3 Hi3 _ Hb3 Hu3]. simpl in *. apply runs_bind, runs_gets. simpl.
  eapply runs_mono; [by eapply (runs_put_quiet s3)| |].
  2: { intros e [s' w'] [_ Hu]. exists (rev (s_checkpoints s)), []. by rewrite app_nil_r. }
  intros [] [s4 w4] (Hs4 & Hp4 & Hu4). simpl in *. subst s4. unfold frame in Hf3.
  split; [|split; [done|split; [done|by rewrite Hf3]]]. split; [done|]. split; [by rewrite Hf3|].
  split; [exact Hi3|]. split; [|by rewrite Hf3].
  intros k Hk. simpl in Hk. assert (Hin : k_action_id k ∈ map k_action_id (s_checkpoints s)).
  { rewrite <-Hi3. apply list_elem_of_fmap. by exists k. }
  apply list_elem_of_fmap in Hin as (k0 & Hk0 & Hin0).
  destruct (Hb3 k0) as (k' & Hk' & Hp'); [by rewrite <-Permutation_rev|].
  rewrite <-Hk0 in Hk'. apply In_checkpoint in Hk'; [by subst|done|]. by rewrite Hi3.
Qed.

(** *** What never changes *)

(** Code that keeps the transaction's identity, however it ends. *)
Definition keeps {A} (m : M (TransactionState * World H) A) : Prop :=
  forall s w, same_transaction s (m (s, w)).2.1.

Lemma same_refl s : same_transaction s s.
Proof. done. Qed.
Lemma same_trans s s1 s2 : same_transaction s s1 -> same_transaction s1 s2 -> same_transaction s s2.
Proof. unfold same_transaction. intros (-> & -> & -> & ->) (-> & -> & -> & ->). done. Qed.

Lemma keeps_bind {A B} (m : M (TransactionState * World H) A) (f : A -> M (TransactionState * World H) B) :
  keeps m -> (forall a, keeps (f a)) -> keeps (m ≫= f).
Proof.
  intros Hm Hf s w. unfold mbind, M_bind. specialize (Hm s w). destruct (m (s, w)) as [[a|e] [s1 w1]]; [|done].
  eapply same_trans; [exact Hm|apply Hf].
Qed.
Lemma keeps_ret {A} (a : A) : keeps (mret a).
Proof. by intros s w. Qed.
Lemma keeps_world {A} (m : M (World H) A) : keeps (on_world m).
Proof. intros s w. unfold on_world. by destruct (m w). Qed.
Lemma keeps_get {A} (f : TransactionState -> M (TransactionState * World H) A) :
  (forall s w, same_transaction s (f s (s, w)).2.1) -> keeps (get_state ≫= f).
Proof. intros Hf s w. apply Hf. Qed.
Lemma keeps_for_each {A} (f : A -> M (TransactionState * World H) unit) l :
  (forall a, keeps (f a)) -> keeps (for_each f l).
Proof. intros Hf. induction l as [|a l IH]; [apply keeps_ret|]. apply keeps_bind; [apply Hf|intros []; exact IH]. Qed.

Lemma keeps_put {A} (f : TransactionState -> TransactionState) (m : M (TransactionState * World H) A) :
  (forall s, same_transaction s (f s)) -> keeps m -> keeps (s ← get_state; put_state (f s) ≫= fun _ => m).
Proof. intros Hf Hm. apply keeps_get. intros s w. eapply same_trans; [apply (Hf s)|apply Hm]. Qed.

Lemma keeps_persist_current : keeps (persist_current (H := H)).
Proof. apply keeps_get. intros s w. apply (keeps_world (persist s) s w). Qed.
Lemma keeps_settle k : keeps (settle k).
Proof. apply (keeps_put (fun s => TransactionState.with_checkpoint s k)); [done|apply keeps_persist_current]. Qed.
Lemma keeps_record k a : keeps (record_checkpoint adapters k a).
Proof.
  apply keeps_get. intros s w. eapply same_trans; [|apply (keeps_world (persist_checkpoint adapters _ k a) _ w)]. done.
Qed.

(** Walks code and closes its leaves. *)
Ltac keep := repeat (cbv zeta; lazymatch goal with
  | |- keeps (mret _) => apply keeps_ret
  | |- keeps (on_world _) => apply keeps_world
  | |- keeps (settle _) => apply keeps_settle
  | |- keeps (record_checkpoint _ _ _) => apply keeps_record
  | |- keeps persist_current => apply keeps_persist_current
  | |- keeps (for_each _ _) => apply keeps_for_each; intros ?
  | |- keeps (mbind _ _) => apply keeps_bind; [|intros ?]
  | |- keeps (match ?x with _ => _ end) => destruct x
  end).

Lemma keeps_undo a k purge target : keeps (undo adapters agent_managed a k purge target).
Proof. unfold undo. keep. Qed.

Lemma keeps_checkpoint plan purge target k : keeps (rollback_checkpoint adapters agent_managed plan purge target k).
Proof. unfold rollback_checkpoint. pose proof keeps_undo. keep. apply keeps_undo. Qed.

Lemma keeps_rollback_steps plan target error : keeps (rollback_steps adapters agent_managed plan target error).
Proof.
  intros s w. unfold rollback_steps.
  assert (Hloop : forall purge l, keeps (for_each (rollback_checkpoint adapters agent_managed plan purge target) l ≫= fun _ =>
    s ← get_state; put_state (with_status s (RollbackTarget.status target) (s_rollback_target s) (s_error s)) ≫= fun _ =>
    persist_current)).
  { intros purge l. apply keeps_bind; [apply keeps_for_each; intros k; apply keeps_checkpoint|]. intros [].
    apply (keeps_put (fun s => with_status s (RollbackTarget.status target) (s_rollback_target s) (s_error s))); [done|].
    apply keeps_persist_current. }
  assert (Hput : forall s1, same_transaction s s1 -> forall (m : M (TransactionState * World H) unit), keeps m ->
    forall w1, same_transaction s ((put_state s1 ≫= fun _ => m) (s, w1)).2.1).
  { intros s1 Hs1 m Hm w1. eapply same_trans; [exact Hs1|]. apply Hm. }
  change (same_transaction s ((on_world (assert_all_owned agent_managed s) ≫= fun _ => put_state
    (with_status s match target with ToUninstalled => SUninstalling | ToRolledBack => SRollingBack end (Some target)
      match error with Some e => Some (Error.python_class_name e) | None => s_error s end) ≫= fun _ =>
    persist_current ≫= fun _ => for_each (rollback_checkpoint adapters agent_managed plan
      (bool_decide (target = ToRolledBack) || bool_decide (s_purge_data s = Some true)) target)
      (rev (s_checkpoints s)) ≫= fun _ => s ← get_state;
      put_state (with_status s (RollbackTarget.status target) (s_rollback_target s) (s_error s)) ≫= fun _ =>
      persist_current) (s, w)).2.1).
  unfold mbind at 1, M_bind at 1, on_world at 1. destruct (assert_all_owned agent_managed s w) as [[[]|e] w1]; [|done].
  apply Hput; [done|]. apply keeps_bind; [apply keeps_persist_current|]. intros []. apply Hloop.
Qed.

(** What a failed rollback of [s] leaves: the failure is in the journal, or the journal could not be
    written. *)
Definition failure_recorded (s : TransactionState) (target : RollbackTarget) (e : Error) (w' : World H) : Prop :=
  exists s', s_status s' = SRollbackFailed /\ s_rollback_target s' = Some target /\ same_transaction s s' /\
    ((s_error s' = Some (Error.python_class_name e) /\ persisted s' (w_files w')) \/
     exists w1, persist s' w1 = (Err e, w')).

Lemma runs_rollback plan s target error w :
  runs ahead (rollback adapters agent_managed plan s target error) w
    (fun s' w' => rolled_back s target s' /\ persisted s' (w_files w') /\
       undone (w_log w') = undone (w_log w) ++ undo_order (rev (s_checkpoints s)) /\
       s_error s' = match error with Some e => Some (Error.python_class_name e) | None => s_error s end)
    (fun e w' => (Error.is_fatal e = false -> failure_recorded s target e w') /\
       exists pre suf, rev (s_checkpoints s) = pre ++ suf /\ undone (w_log w') = undone (w_log w) ++ undo_order pre).
Proof.
  destruct (runs_rollback_steps plan target error s w) as (new & Hl & Hn & Hm).
  pose proof (keeps_rollback_steps plan target error s w) as Hk. unfold runs, rollback.
  destruct (rollback_steps adapters agent_managed plan target error (s, w)) as [[[]|e] [s1 w1]]; simpl in *.
  { by exists new. }
  destruct (Error.is_fatal e) eqn:Hf; simpl. { exists new. split; [done|]. split; [done|]. split; [congruence|done]. }
  set (s2 := with_status s1 _ _ _).
  destruct (runs_persist (fun e => ahead e /\ quiet e) s2 w1) as (new2 & Hl2 & Hn2 & Hp); [done|].
  destruct (persist s2 w1) as [[[]|e'] w2] eqn:Hpers; unfold log_of, world_logged, pair_logged in *; simpl in *;
    exists (new ++ new2).
  all: assert (Hall : Forall ahead new2 /\ Forall quiet new2) by
    (split; (eapply Forall_impl; [exact Hn2|by intros ? []])); destruct Hall as [Ha2 Hq2].
  all: split; [by rewrite Hl2, Hl, app_assoc|]; split; [by apply Forall_app|].
  all: split; [intros Hf'; exists s2; repeat (split; [done|])|].
  all: try (destruct Hm as (pre & suf & Hpre & Hund); exists pre, suf; split; [done|]; unfold undid in Hund;
    rewrite Hl2, undone_app, (undone_quiet _ Hq2), app_nil_r; exact Hund).
  - left. by destruct Hp.
  - right. by exists w1.
Qed.
End rollback.

(** ** The four commands

    [apply], [resume], [repair] and [uninstall] of [installer/src/engine.rs]: what each does to the
    journal on every path, and that none of them calls an adapter before the journal says so. *)

Section commands.
Context {H : Type} {DK : Disk H} {PS : Paths H} {JP : JsonParser}.
Context {UT : UnicodeText} {FT : FloatText} {SHA : Sha256} {SD : SerdeDisplay}.
Context (adapters : bmap (Adapter H)) (agent_managed : list string).

(** *** Reading *)

Lemma from_value_valid v s : TransactionState.from_value v = Ok s -> TransactionState.validate s = Ok tt.
Proof.
  intros Hv. unfold TransactionState.from_value in Hv. apply bind_Ok in Hv as (m & _ & Hv).
  destruct (lacks_any _ _ || _); [done|].
  do 3 apply bind_Ok in Hv as (? & _ & Hv). destruct (negb _); [done|]. apply bind_Ok in Hv as (? & _ & Hv).
  destruct (negb _); [done|]. do 3 apply bind_Ok in Hv as (? & _ & Hv). destruct (_ || _); [done|].
  destruct (negb _); [done|]. do 5 apply bind_Ok in Hv as (? & _ & Hv). apply bind_Ok in Hv as ([] & Hval & Hv).
  by injection Hv as <-.
Qed.

(** What [read_state] answers. *)
Definition reads (s : TransactionState) (w : World H) : Prop :=
  exists text m, f_state (w_files w) = Some text /\ loads text = Ok (Object m) /\
    TransactionState.from_value (Object m) = Ok s.

Lemma reads_on_disk s w : reads s w -> on_disk (w_files w) s.
Proof. intros (t & m & Ht & Hl & Hs). exists t. split; [done|]. right. by exists m. Qed.
Lemma reads_valid s w : reads s w -> TransactionState.validate s = Ok tt.
Proof. intros (t & m & _ & _ & Hs). by eapply from_value_valid. Qed.

Lemma runs_read_file E f (w : World H) (Q : option string -> World H -> Prop) X :
  Q None w -> (forall t, file f (w_files w) = Some t -> Q (Some t) w) -> runs E (read_file f) w Q X.
Proof.
  intros HN HS. apply runs_gets. destruct (disk_readable f (w_host w)); [|done].
  destruct (file f (w_files w)) as [t|] eqn:Hf; [by apply HS|done].
Qed.

Lemma runs_read_state E w (Q : TransactionState -> World H -> Prop) (X : Error -> World H -> Prop) :
  (forall s, reads s w -> Q s w) -> (forall e, X e w) -> runs E read_state w Q X.
Proof.
  intros HQ HX. apply runs_bind. unfold read_json. apply runs_bind, runs_read_file; [by apply runs_tx|].
  intros t Ht. destruct (loads t) as [[]|] eqn:Hl; try by apply runs_tx. apply runs_ret, runs_tx.
  destruct (TransactionState.from_value _) as [s|e] eqn:Hs; [|done]. apply HQ. by eexists _, _.
Qed.

Lemma runs_read_plan E w (Q : InstallPlan -> World H -> Prop) (X : Error -> World H -> Prop) :
  (forall p, Q p w) -> (forall e, X e w) -> runs E read_plan w Q X.
Proof.
  intros HQ HX. apply runs_bind, runs_read_file; [by apply runs_tx|]. intros t Ht.
  destruct (loads t); [|by apply runs_tx]. destruct (InstallPlan.from_value _); [by apply runs_ret|by apply runs_tx].
Qed.

Lemma runs_matching E s w (Q : InstallPlan -> World H -> Prop) (X : Error -> World H -> Prop) :
  (forall p, InstallPlan.digest p = s_plan_digest s -> Q p w) -> (forall e, X e w) -> runs E (read_matching_plan s) w Q X.
Proof.
  intros HQ HX. apply runs_bind, runs_read_plan; [|done]. intros p.
  destruct (InstallPlan.digest p =?s s_plan_digest s) eqn:Hd; [|by apply runs_tx].
  destruct (s_accepted_digest s =?s s_plan_digest s); [|by apply runs_tx]. apply runs_ret, HQ. by apply eqb_s_true.
Qed.

Lemma runs_validate E plan w (Q : unit -> World H -> Prop) (X : Error -> World H -> Prop) :
  Q tt w -> (forall e, X e w) -> runs E (validate_adapters adapters plan) w Q X.
Proof.
  intros HQ HX. apply (runs_for_each E _ (fun _ w' => w' = w)); [done| |by intros ? ->].
  intros a l ? ->. apply runs_bind, runs_adapter; [|done]. intros ad. by apply runs_ret.
Qed.

Lemma runs_locked {A} E (m : M (World H) A) w (Q : A -> World H -> Prop) (X : Error -> World H -> Prop) :
  (forall h, runs E m (set_host h w) (fun a w' => forall h', Q a (set_host h' w')) (fun e w' => forall h', X e (set_host h' w'))) ->
  (forall e h, X e (set_host h w)) -> runs E (locked m) w Q X.
Proof.
  intros Hm HX. unfold runs, locked. destruct (disk_lock (w_host w)) as [[[]|e] h].
  - destruct (Hm h) as (new & Hl & Hn & Hr). destruct (m (set_host h w)) as [r w'].
    exists new. simpl in *. split; [exact Hl|]. split; [done|]. destruct r; apply Hr.
  - exists []. simpl. rewrite app_nil_r. split; [done|]. split; [done|]. apply HX.
Qed.

(** *** Apply *)

Lemma read_state_same (w : World H) : exists r, read_state w = (r, w).
Proof.
  unfold read_state, read_json, read_file, gets, tx, lift, mbind, M_bind. simpl.
  destruct (disk_readable FState (w_host w)); simpl; [|eauto]. destruct (f_state (w_files w)) as [t|]; simpl; [|eauto].
  destruct (loads t) as [[]|]; simpl; eauto.
Qed.

(** How an apply that failed leaves the journal: as it was at a fatal error; rolled back, with the
    failure's class; with the rollback's own failure; or unreadable. *)
Definition apply_failed (e : Error) (w' : World H) : Prop :=
  Error.is_fatal e = true \/
  (exists s s', rolled_back s ToRolledBack s' /\ persisted s' (w_files w') /\
     s_error s' = Some (Error.python_class_name e)) \/
  (exists s, failure_recorded s ToRolledBack e w') \/
  read_state w' = (Err e, w').

Lemma runs_apply_or_roll_back plan s w : on_disk (w_files w) s -> TransactionState.validate s = Ok tt ->
  runs ahead (apply_or_roll_back adapters agent_managed plan s) w
    (fun s' w' => persisted s' (w_files w') /\ active_for plan s' /\ same_transaction s s') apply_failed.
Proof.
  intros Hd Hv. destruct (runs_continue adapters plan s w Hd Hv) as (new & Hl & Hn & Hm).
  unfold runs, apply_or_roll_back. destruct (continue_apply adapters plan s w) as [[s'|e] w1]; simpl in *.
  { by exists new. }
  destruct (Error.is_fatal e) eqn:Hf. { exists new. split; [done|]. split; [done|]. by left. }
  assert (Hr : runs ahead (s ← read_state; rollback adapters agent_managed plan s ToRolledBack (Some e) ≫= fun _ => fail e)
    w1 (fun (_ : TransactionState) _ => False) apply_failed).
  { apply runs_bind. destruct (read_state_same w1) as [r Hr]. apply runs_pure; rewrite Hr; [done|]. simpl.
    destruct r as [s1|e1]; simpl; [|by do 3 right].
    apply runs_bind. eapply runs_mono; [apply runs_rollback| |].
    - intros s2 w2 (Hb & Hp & _ & He). apply runs_lift. right; left. by exists s1, s2.
    - intros e2 w2 [Hrec _]. destruct (Error.is_fatal e2) eqn:Hf2; [by left|].
      right; right; left. exists s1. by apply Hrec. }
  destruct Hr as (new2 & Hl2 & Hn2 & Hm2). exists (new ++ new2).
  destruct ((s ← read_state; rollback adapters agent_managed plan s ToRolledBack (Some e) ≫= fun _ => fail e) w1)
    as [[s2|e2] w2]; simpl in *; [done|].
  split; [unfold log_of, world_logged in *; by rewrite Hl2, Hl, app_assoc|]. split; [by apply Forall_app|done].
Qed.

Lemma runs_start plan w :
  runs ahead (start_transaction adapters agent_managed plan) w
    (fun s' w' => persisted s' (w_files w') /\ active_for plan s' /\ s_plan_digest s' = InstallPlan.digest plan)
    (fun _ _ => True).
Proof.
  apply runs_bind, runs_validate; [|done]. apply runs_bind.
  eapply runs_mono; [by apply runs_write| |done]. intros [] w1 H1. apply runs_bind.
  unfold fresh_uuid. apply runs_pure.
  { by destruct (random_bytes (w_host w1)). }
  destruct (random_bytes (w_host w1)) as [bytes h]. simpl. set (s := TransactionState.new _ _ _). apply runs_bind.
  eapply runs_mono; [by apply runs_persist| |done]. intros [] w2 [Hp Hplan].
  eapply runs_mono; [apply runs_apply_or_roll_back; [by apply persisted_on_disk|apply Hp]| |done].
  intros s' w' (Hp' & Ha & Hs). split; [done|]. split; [done|]. apply Hs.
Qed.

(** The two ways [apply] succeeds. *)
Definition installed (plan : InstallPlan) (s' : TransactionState) (w' : World H) : Prop :=
  persisted s' (w_files w') /\ active_for plan s' /\ s_plan_digest s' = InstallPlan.digest plan.
Definition already_installed (plan : InstallPlan) (s' : TransactionState) (w w' : World H) : Prop :=
  w_files w' = w_files w /\ reads s' w /\ s_status s' = SActive /\
  exists p, InstallPlan.digest p = s_plan_digest s' /\ InstallPlan.intent_digest p = InstallPlan.intent_digest plan.

Lemma runs_assert_all E s w (Q : unit -> World H -> Prop) (X : Error -> World H -> Prop) :
  Q tt w -> (forall e, X e w) -> runs E (assert_all_owned agent_managed s) w Q X.
Proof.
  intros HQ HX. apply runs_bind, runs_tx. destruct (TransactionState.ownership s false) as [o|]; [|done].
  apply runs_pure; [done|]. unfold assert_owned, tx, lift. simpl.
  destruct (assert_owned_in agent_managed o (w_host w)) as [[]|]; [exact HQ|apply HX].
Qed.

Lemma runs_remove E (w : World H) (Q : unit -> World H -> Prop) (X : Error -> World H -> Prop) :
  (forall w', Q tt w') -> (forall e w', X e w') -> runs E remove_state w Q X.
Proof.
  intros HQ HX. apply runs_pure; unfold remove_state; destruct (disk_remove (w_host w)) as [[err|] h]; try done.
  - by destruct (match io_kind err with NotFound => true | _ => false end).
  - destruct (match io_kind err with NotFound => true | _ => false end); [apply HQ|apply HX].
  - apply HQ.
Qed.

Lemma runs_apply plan accepted w :
  runs ahead (apply adapters agent_managed plan accepted) w
    (fun s' w' => accepted = InstallPlan.digest plan /\ (installed plan s' w' \/ already_installed plan s' w w'))
    (fun _ _ => True).
Proof.
  unfold apply. destruct (accepted =?s InstallPlan.digest plan) eqn:Hd; simpl; [|by apply runs_tx].
  apply eqb_s_true in Hd. apply runs_locked; [|done]. intros h. apply runs_bind, runs_gets.
  assert (Hstart : forall w1, runs ahead (start_transaction adapters agent_managed plan) w1
    (fun s' w' => forall h', accepted = InstallPlan.digest plan /\
       (installed plan s' (set_host h' w') \/ already_installed plan s' w (set_host h' w'))) (fun _ _ => forall _ : H, True)).
  { intros w1. eapply runs_mono; [apply runs_start| |done]. intros s' w' Hs h'. split; [done|]. by left. }
  destruct (f_state (w_files (set_host h w))) as [text|]; simpl; [|apply Hstart].
  apply runs_bind, runs_read_state; [|done]. intros s Hs. apply runs_bind.
  destruct (bool_decide (s_status s = SActive)) eqn:Hact.
  - apply bool_decide_eq_true in Hact. apply runs_bind, runs_matching; [|done]. intros p Hp. apply runs_ret.
    destruct (InstallPlan.intent_digest p =?s InstallPlan.intent_digest plan) eqn:Hi.
    + apply eqb_s_true in Hi. apply runs_bind, runs_validate; [|done]. apply runs_bind, runs_assert_all; [|done].
      apply runs_ret. intros h'. split; [done|]. right. split; [done|]. split; [exact Hs|]. split; [done|]. by exists p.
    + rewrite Hact. by apply runs_tx.
  - apply runs_ret. destruct (negb _); [by apply runs_tx|]. apply runs_bind, runs_remove; [|done]. intros w1. apply Hstart.
Qed.

(** *** Resume *)

(** What [resume] makes of the state it finds. *)
Definition resumed (s s' : TransactionState) : Prop :=
  match s_status s with
  | SApplying => s_status s' = SActive /\ s_error s' = None
  | SRollingBack | SRollbackFailed => rolled_back s (default ToRolledBack (s_rollback_target s)) s'
  | SUninstalling => rolled_back s (default ToUninstalled (s_rollback_target s)) s'
  | SActive | SRolledBack | SUninstalled => s' = s
  end.

Lemma runs_resume w :
  runs ahead (resume adapters agent_managed) w
    (fun s' w' => persisted s' (w_files w') /\ exists s, reads s w /\ same_transaction s s' /\ resumed s s')
    (fun _ _ => True).
Proof.
  apply runs_locked; [|done]. intros h. apply runs_bind, runs_read_state; [|done]. intros s Hs.
  apply runs_bind, runs_matching; [|done]. intros plan Hp.
  assert (Hback : forall target, resumed s = rolled_back s target ->
    runs ahead (rollback adapters agent_managed plan s target None) (set_host h w)
      (fun s' w' => forall h', persisted s' (w_files (set_host h' w')) /\
         exists s, reads s w /\ same_transaction s s' /\ resumed s s') (fun _ _ => forall _ : H, True)).
  { intros target Ht. eapply runs_mono; [apply runs_rollback| |done]. intros s' w' (Hb & Hp' & _) h'. split; [done|].
    exists s. split; [done|]. split; [apply Hb|]. by rewrite Ht. }
  assert (Hkeep : resumed s s -> runs ahead (persist s ≫= fun _ => mret s) (set_host h w)
      (fun s' w' => forall h', persisted s' (w_files (set_host h' w')) /\
         exists s, reads s w /\ same_transaction s s' /\ resumed s s') (fun _ _ => forall _ : H, True)).
  { intros Hr. apply runs_bind. eapply runs_mono; [by apply runs_persist| |done]. intros [] w1 [Hp1 _].
    apply runs_ret. intros h'. split; [done|]. by exists s. }
  unfold resumed in Hback, Hkeep. destruct (s_status s) eqn:Hst.
  all: try (by apply Hkeep); apply runs_bind, runs_validate; try done; try by apply Hback.
  - eapply runs_mono; [apply runs_apply_or_roll_back; [by apply (reads_on_disk s w)|by eapply reads_valid]| |done].
    intros s' w' (Hp' & Ha & Hsame) h'. split; [done|]. exists s. split; [done|]. split; [done|].
    unfold resumed. rewrite Hst. split; apply Ha.
  - apply runs_bind, runs_assert_all; [|done]. by apply Hkeep.
Qed.

(** *** Repair *)

Lemma runs_capture E a data (w : World H) (Q : Ownership -> World H -> Prop) (X : Error -> World H -> Prop) :
  (forall o, Q o w) -> (forall e, X e w) -> runs E (capture_ownership a data) w Q X.
Proof.
  intros HQ HX. unfold capture_ownership. apply runs_pure; [done|]. simpl.
  destruct (items ← declared a data; capture a items [] (w_host w)); [apply HQ|apply HX].
Qed.

Lemma runs_repair_actions s0 actions : forall ck s w (done_ : string -> Prop), loop_inv s0 ck (s, w) ->
  (forall i, done_ i -> verified ck i) ->
  runs ahead (repair_actions adapters actions ck) (s, w)
    (fun _ '(s', w') => frame s0 s' /\
       forall i, done_ i \/ i ∈ map act_id actions ->
         exists k, TransactionState.checkpoint s' i = Some k /\ k_phase k = Verified) (fun _ _ => True).
Proof.
  induction actions as [|a actions IH]; intros ck s w done_ Hinv Hdone; cbn [repair_actions].
  - apply runs_ret. destruct Hinv as (_ & Hm & Hf). split; [done|].
    intros i [Hi|Hi]; [|by apply not_elem_of_nil in Hi]. destruct (Hdone i Hi) as (k & Hk & Hp). exists k. by rewrite <-Hm.
  - destruct Hinv as (Hd & Hm & Hf). simpl in Hd, Hm, Hf.
    destruct (ck @@ act_id a) as [k|] eqn:Hg; [|by apply runs_on_world, runs_tx]. unfold is_phase.
    destruct (bool_decide (k_phase k = Verified)) eqn:Hv; simpl; [|by apply runs_on_world, runs_tx].
    apply bool_decide_eq_true in Hv. assert (Hck : TransactionState.checkpoint s (act_id a) = Some k) by (by rewrite <-Hm).
    apply runs_bind, runs_on_world, runs_adapter; [|done]. intros ad. apply runs_bind, runs_on_world, runs_call.
    { exists s. split; [done|]. by exists k. }
    intros [data|e] h _ w1 Hw1 _; [|done]. apply runs_bind, runs_on_world, runs_capture; [|done]. intros o.
    apply runs_bind, runs_on_world. apply (runs_verify_call adapters a s); [by rewrite Hw1| | |done].
    { exists k. split; [done|by right]. }
    intros e w2 Hw2 _ _. apply runs_bind. eapply runs_mono; [apply (runs_advance adapters s0 a (repaired k data o e) ck)| |done].
    { simpl. by eapply checkpoint_id. }
    { done. }
    { done. }
    intros [] [s3 w3] [Hd3 Hm3 Hf3 Hg3].
    eapply runs_mono; [apply (IH _ s3 w3 (fun i => done_ i \/ i = act_id a))| |done].
    + by split.
    + intros i [Hi| ->]; [|by exists (repaired k data o e)]. destruct (decide (i = act_id a)) as [->|Hne];
        [by exists (repaired k data o e)|]. destruct (Hdone i Hi) as (k' & Hk' & Hp'). exists k'.
      by rewrite bget_bset_ne.
    + intros [] [s4 w4] (Hf4 & H4). split; [done|]. intros i Hi. apply H4. simpl in Hi. rewrite elem_of_cons in Hi. tauto.
Qed.

(** What [repair] makes of an active installation. *)
Definition restored (plan : InstallPlan) (s s' : TransactionState) (w' : World H) : Prop :=
  persisted s' (w_files w') /\ active_for plan s' /\ same_transaction s s'.

Lemma runs_repair w :
  runs ahead (repair adapters) w
    (fun s' w' => exists s, reads s w /\
       if bool_decide (s_status s = SActive)
       then exists plan, InstallPlan.digest plan = s_plan_digest s /\ restored plan s s' w'
       else s' = s /\ Status.is_interrupted (s_status s) = false /\ w_files w' = w_files w) (fun _ _ => True).
Proof.
  apply runs_locked; [|done]. intros h. apply runs_bind, runs_read_state; [|done]. intros s Hs.
  apply runs_bind, runs_matching; [|done]. intros plan Hp. apply runs_bind, runs_validate; [|done].
  destruct (bool_decide (s_status s = SActive)) eqn:Hact; simpl.
  2:{ destruct (Status.is_interrupted (s_status s)) eqn:Hi; [by apply runs_tx|]. apply runs_ret. intros h'.
      exists s. split; [done|]. by rewrite Hact. }
  assert (Hsteps : runs ahead (repair_steps adapters plan) (s, set_host h w)
    (fun _ '(s', w') => restored plan s s' w') (fun _ _ => True)).
  { apply runs_bind, runs_gets. apply runs_bind.
    eapply runs_mono; [apply (runs_repair_actions s _ _ s _ (fun _ => False))| |done].
    - split; [by apply (reads_on_disk s w)|]. split; [apply checkpoint_map_mirrors; by eapply reads_valid|apply frame_refl].
    - done.
    - intros [] [s1 w1] (Hf1 & Hver). apply runs_bind, runs_gets. eapply runs_mono; [by apply runs_put_persist| |done].
      intros [] [s2 w2] (Hs2 & Hp2 & _). simpl in Hs2, Hp2. subst s2. unfold frame in Hf1. split; [exact Hp2|]. split.
      + apply bool_decide_eq_true in Hact. split; [by rewrite Hf1|]. split; [done|]. intros a Ha. apply (Hver (act_id a)).
        right. apply list_elem_of_fmap. by exists a.
      + rewrite Hf1. by destruct s. }
  destruct Hsteps as (new & Hl & Hn & Hm). exists new. unfold with_state.
  destruct (repair_steps adapters plan (s, set_host h w)) as [[u|e] [s' w']]; simpl in *; [|done].
  split; [done|]. split; [done|]. intros h'. exists s. split; [done|]. rewrite Hact. by exists plan.
Qed.

(** *** Uninstall *)

(** What [uninstall] makes of the state it finds. *)
Definition uninstalled (purge_data : bool) (s s' : TransactionState) : Prop :=
  match s_status s with
  | SUninstalled | SRolledBack => s' = s
  | SActive | SUninstalling =>
      (s_status s = SUninstalling -> s_purge_data s = Some purge_data) /\
      s_status s' = SUninstalled /\ s_purge_data s' = Some purge_data /\ s_error s' = None /\
      map k_action_id (s_checkpoints s') = map k_action_id (s_checkpoints s) /\
      forall k, k ∈ s_checkpoints s' -> k_phase k = RolledBack
  | _ => False
  end.

Lemma runs_uninstall purge w :
  runs ahead (uninstall adapters agent_managed purge) w
    (fun s' w' => persisted s' (w_files w') /\ exists s, reads s w /\ same_transaction s s' /\ uninstalled purge s s')
    (fun _ _ => True).
Proof.
  apply runs_locked; [|done]. intros h. apply runs_bind, runs_read_state; [|done]. intros s Hs.
  apply runs_bind, runs_matching; [|done]. intros plan Hp. apply runs_bind, runs_validate; [|done].
  assert (Hkeep : uninstalled purge s s -> runs ahead (persist s ≫= fun _ => mret s) (set_host h w)
      (fun s' w' => forall h', persisted s' (w_files (set_host h' w')) /\
         exists s, reads s w /\ same_transaction s s' /\ uninstalled purge s s') (fun _ _ => forall _ : H, True)).
  { intros Hr. apply runs_bind. eapply runs_mono; [by apply runs_persist| |done]. intros [] w1 [Hp1 _].
    apply runs_ret. intros h'. split; [done|]. by exists s. }
  assert (Hgo : (s_status s = SActive \/ s_status s = SUninstalling) ->
    (s_status s = SUninstalling -> s_purge_data s = Some purge) ->
    runs ahead (assert_all_owned agent_managed s ≫= fun _ =>
       let s := with_status (with_purge s purge) SUninstalling (Some ToUninstalled) None in
       persist s ≫= fun _ => rollback adapters agent_managed plan s ToUninstalled None) (set_host h w)
      (fun s' w' => forall h', persisted s' (w_files (set_host h' w')) /\
         exists s, reads s w /\ same_transaction s s' /\ uninstalled purge s s') (fun _ _ => forall _ : H, True)).
  { intros Hst Hpurge. apply runs_bind, runs_assert_all; [|done]. apply runs_bind.
    eapply runs_mono; [by apply runs_persist| |done]. intros [] w1 _.
    eapply runs_mono; [apply runs_rollback| |done]. intros s' w' ((H1 & H2 & H3 & H4 & H5 & H6) & Hp' & _ & He) h'.
    split; [done|]. exists s. split; [done|]. split; [exact H5|]. unfold uninstalled. simpl in *.
    destruct Hst as [Hst|Hst]; rewrite Hst; (split; [intros ?; apply Hpurge; congruence|]); by repeat (split; [done|]). }
  unfold uninstalled in Hkeep. destruct (s_status s) eqn:Hst; try (by apply runs_tx); try by apply Hkeep.
  - rewrite bool_decide_eq_false_2 by done. simpl. apply Hgo; [by left|done].
  - rewrite bool_decide_eq_true_2 by done. simpl.
    destruct (bool_decide (s_purge_data s = Some purge)) eqn:Hpu; simpl; [|by apply runs_tx].
    apply bool_decide_eq_true in Hpu. apply Hgo; [by right|done].
Qed.
End commands.
