(* ===== verification/EngineProps.v ===== *)
(** * A host to run the engine on

    A concrete host, parser and adapter: the instances at which the engine's theorems are evaluated. *)

From S2P Require Import Prelude BTree Utf8 Numeric Json JsonFacts PyText Plan PlanFacts Errors Journal JournalFacts.
From S2P Require Import Store Engine EngineFacts EngineCommands.

#[export] Existing Instances ascii_text no_floats toy_hash no_display.

(** The files the host holds, and whether the adapter's [apply] fails. *)
Record Host := { h_paths : bmap PathIdentity; h_broken : bool }.

#[export] Instance host_disk : Disk Host := {|
  disk_write := fun _ _ h => (Replaced, h);
  disk_readable := fun _ _ => true;
  disk_remove := fun h => (None, h);
  disk_lock := fun h => (Ok tt, h);
  disk_unlock := fun h => h;
|}.

#[export] Instance host_paths : Paths Host := {|
  host_root := "/srv";
  contained := fun _ _ => Ok tt;
  path_identity := fun p h =>
    match h_paths h @@ p with Some i => Ok i | None => Err (ownership_error "owned path is unavailable") end;
  exists_or_symlink := fun p h => bhas p (h_paths h);
  random_bytes := fun h => (map N.of_nat (seq 0 16), h);
|}.

(** A parser that knows the texts of some values. *)
Definition table_parser (known : list (string * Value)) : JsonParser :=
  {| serde_parse := fun text =>
       match find (fun e => e.1 =?s text) known with
       | Some e => Ok (snd e)
       | None => Err (Invalid "expected value")
       end |}.

Definition conf_path : string := "/srv/etc/pc.conf".
Definition conf : PathIdentity := {| pi_kind := PFile; pi_sha256 := "c0ffee" |}.
Definition put_conf (h : Host) : Host := {| h_paths := bset conf_path conf (h_paths h); h_broken := h_broken h |}.
Definition drop_conf (h : Host) : Host := {| h_paths := List.filter (fun e => negb (e.1 =?s conf_path)) (h_paths h); h_broken := h_broken h |}.

Definition ok_evidence (a : Action) : Evidence :=
  {| ev_action_id := act_id a; ev_success := true; ev_observations := []; ev_details := [] |}.
Definition conf_data : CheckpointData := [("owned_paths", Array [Str "/etc/pc.conf"])].

Definition core : Adapter Host := {|
  ad_name := "core";
  ad_prepare := fun _ h => (Ok [], h);
  ad_apply := fun _ _ h => if h_broken h then (Err (EOther "RuntimeError" "no space"), h) else (Ok conf_data, put_conf h);
  ad_reconcile_apply := fun _ _ h => (Ok conf_data, put_conf h);
  ad_verify := fun a h => (Ok (ok_evidence a), h);
  ad_repair := fun _ _ h => (Ok conf_data, put_conf h);
  ad_rollback := fun a _ _ _ h => (Ok (ok_evidence a), drop_conf h);
  ad_reconcile_rollback := fun a _ _ _ h => (Ok (ok_evidence a), drop_conf h);
  ad_committed := fun _ _ h => (Ok tt, h);
|}.
Definition adapters : bmap (Adapter Host) := [("core", core)].

Definition no_files : Files := {| f_state := None; f_plan := None; f_ownership := None; f_report := None |}.
Definition fresh (broken : bool) : World Host :=
  {| w_files := no_files; w_host := {| h_paths := []; h_broken := broken |}; w_log := [] |}.

Definition plan : InstallPlan := Sample.plan.
Definition accepted : string := InstallPlan.digest plan.
Definition known (s : TransactionState) : JsonParser :=
  table_parser [(InstallPlan.to_canonical_json plan, InstallPlan.canonical_value plan);
                (pretty2 (TransactionState.to_value s), TransactionState.to_value s)].

(** A state and a world from a run. *)
Definition out_state (r : result Error TransactionState * World Host) : TransactionState :=
  match r.1 with Ok s => s | Err _ => TransactionState.new EmptyString SApplying EmptyString end.

Definition ok_or_else {E A} (d : A) (r : result E A) : A := match r with Ok a => a | Err _ => d end.

Definition run_apply (JP : JsonParser) (w : World Host) := apply (JP := JP) adapters AGENT_MANAGED_PATHS plan accepted w.

(** The installed state and its world. *)
Definition first_run := run_apply (table_parser []) (fresh false).
Definition installed_state : TransactionState := out_state first_run.
Definition installed_world : World Host := first_run.2.

(** An apply that a crash interrupted before its first action. *)
Definition interrupted_state : TransactionState :=
  TransactionState.new (uuid4_hex (map N.of_nat (seq 0 16))) SApplying accepted.
Definition interrupted_world (broken : bool) : World Host :=
  {| w_files := {| f_state := Some (pretty2 (TransactionState.to_value interrupted_state));
                   f_plan := Some (InstallPlan.to_canonical_json plan); f_ownership := None; f_report := None |};
     w_host := {| h_paths := []; h_broken := broken |}; w_log := [] |}.


(** * What the engine promises

    The properties of [apply], [resume], [repair], [uninstall] and of the rollback, stated of the
    commands as they run, and the durability of the journal they keep. *)

Section properties.
Context {H : Type} {DK : Disk H} {PS : Paths H} {JP : JsonParser}.
Context {UT : UnicodeText} {FT : FloatText} {SHA : Sha256} {SD : SerdeDisplay}.
Context (adapters : bmap (Adapter H)) (agent_managed : list string).

(** Every event the run adds satisfies [E]. *)
Definition always {A} (E : Event -> Prop) (m : M (World H) A) (w : World H) : Prop :=
  exists new, w_log (m w).2 = w_log w ++ new /\ Forall E new.

Lemma always_runs {A} E (m : M (World H) A) w Q X : runs E m w Q X -> always E m w.
Proof. intros (new & Hl & Hn & _). by exists new. Qed.

(** C1: write-ahead. Whatever the adapters do and wherever a write fails, when [apply], [resume],
    [repair] or [uninstall] calls an adapter the journal on disk already announces the call:
    [prepare] finds no checkpoint of its action, [apply] and [reconcile_apply] find it [applying]
    with the data they are given, [verify] finds it applied, [repair] verified, the two rollbacks
    find it [rollback_in_progress] with their data, and the [committed] hook finds the phase it is
    told. A crash at any call can therefore be resumed. *)
Theorem write_ahead (plan : InstallPlan) (accepted : string) (purge_data : bool) (w : World H) :
  always ahead (apply adapters agent_managed plan accepted) w /\
  always ahead (resume adapters agent_managed) w /\
  always ahead (repair adapters) w /\
  always ahead (uninstall adapters agent_managed purge_data) w.
Proof.
  repeat split; eapply always_runs; [apply runs_apply|apply runs_resume|apply runs_repair|apply runs_uninstall].
Qed.

(** C3: what a successful [apply] means: the accepted digest is the plan's, and either a new
    transaction for that digest is [active], error-free, with every action of the plan verified,
    and the three journal files hold exactly that valid state; or an active installation of the
    same intent was already there, is returned as the journal has it, and no journal file changed. *)
Theorem apply_succeeds (plan : InstallPlan) (accepted : string) (w w' : World H) (s' : TransactionState)
  (Hrun : apply adapters agent_managed plan accepted w = (Ok s', w')) :
  accepted = InstallPlan.digest plan /\ (installed plan s' w' \/ already_installed plan s' w w').
Proof. exact (runs_Ok _ _ _ _ _ _ _ (runs_apply adapters agent_managed plan accepted w) Hrun). Qed.

(** What [apply] refuses without touching a file: a digest that is not the plan's, before the
    lock is even taken; and, with the right digest, a journal whose transaction is still
    interrupted. *)
Theorem apply_gate (plan : InstallPlan) (accepted : string) (w : World H) :
  (accepted <> InstallPlan.digest plan ->
     apply adapters agent_managed plan accepted w = (Err (ETx (AcceptedDigest "accepted plan digest does not match")), w)) /\
  (forall h s, accepted = InstallPlan.digest plan -> disk_lock (w_host w) = (Ok tt, h) ->
     read_state (set_host h w) = (Ok s, set_host h w) -> Status.is_interrupted (s_status s) = true ->
     apply adapters agent_managed plan accepted w =
       (Err (ETx (Transaction "an installer transaction already exists")), set_host (disk_unlock h) (set_host h w))).
Proof.
  split.
  - intros Hne. unfold apply. by rewrite (proj2 (eqb_s_false _ _) Hne).
  - intros h s -> Hlock Hread Hint. unfold apply. rewrite eqb_s_refl. simpl. unfold locked. rewrite Hlock.
    unfold mbind, M_bind, state_exists, gets. simpl.
    destruct (f_state (w_files w)) as [text|] eqn:Hf.
    + simpl. rewrite Hread. simpl. destruct (s_status s) eqn:Hst; try done.
    + exfalso. unfold read_state, read_json, read_file, gets, mbind, M_bind in Hread. simpl in Hread. rewrite Hf in Hread.
      by destruct (disk_readable FState h).
Qed.


(** C2: the rollback. It undoes the checkpoints in the reverse of the order they were recorded in,
    skipping those only prepared or already rolled back: the adapters' undo calls are exactly that
    sequence when it succeeds and a prefix of it when it fails. On success the state has the
    target's status, every checkpoint is [rolled_back], the identity, purge choice and checkpoint
    set are unchanged and the journal holds that state; after an ordinary failure the journal holds
    [rollback_failed] with the target and the failure's class, unless writing it failed. *)
Theorem rollback_spec (plan : InstallPlan) (s : TransactionState) (target : RollbackTarget) (error : option Error)
  (w : World H) :
  match rollback adapters agent_managed plan s target error w with
  | (Ok s', w') =>
      rolled_back s target s' /\ persisted s' (w_files w') /\
      undone (w_log w') = undone (w_log w) ++ undo_order (rev (s_checkpoints s)) /\
      s_error s' = match error with Some e => Some (Error.python_class_name e) | None => s_error s end
  | (Err e, w') =>
      (exists pre suf, rev (s_checkpoints s) = pre ++ suf /\
         undone (w_log w') = undone (w_log w) ++ undo_order pre) /\
      if Error.is_fatal e then True else failure_recorded s target e w'
  end.
Proof.
  destruct (runs_rollback adapters agent_managed plan s target error w) as (new & _ & _ & Hm).
  destruct (rollback adapters agent_managed plan s target error w) as [[s'|e] w']; simpl in *; [done|].
  destruct Hm as [Hrec Hpre]. split; [done|]. destruct (Error.is_fatal e); [done|by apply Hrec].
Qed.


(** C10: a successful [uninstall] either found the transaction settled and left it as it was, or
    brought an active (or interrupted, with the same purge choice) one to [uninstalled]: every
    checkpoint rolled back, the purge choice recorded, no error, the same checkpoints and identity,
    and the journal files holding that state. *)
Theorem uninstall_completes (purge_data : bool) (w w' : World H) (s' : TransactionState)
  (Hrun : uninstall adapters agent_managed purge_data w = (Ok s', w')) :
  persisted s' (w_files w') /\ exists s, reads s w /\ same_transaction s s' /\ uninstalled purge_data s s'.
Proof. exact (runs_Ok _ _ _ _ _ _ _ (runs_uninstall adapters agent_managed purge_data w) Hrun). Qed.


(** *** Durability *)

(** The writes of [persist], in order. *)
Definition writes (s : TransactionState) : list (JournalFile * string) :=
  (FState, pretty2 (TransactionState.to_value s)) ::
  match TransactionState.ownership s true with
  | Ok o => [(FOwnership, pretty2 (ownership_file o)); (FReport, pretty2 (TransactionState.report_value s))]
  | Err _ => []
  end.
Definition put_files (l : list (JournalFile * string)) (fs : Files) : Files :=
  fold_left (fun fs e => set_file e.1 (Some e.2) fs) l fs.

Lemma write_file_outcome f text (w : World H) :
  exists h b log, write_file f text w =
    ((if b : bool then Ok tt else Err (match (disk_write f text (w_host w)).1 with
                                        | FailedBefore e | FailedAfter e => e | Replaced => ETx (Busy EmptyString) end)),
     {| w_files := if log : bool then set_file f (Some text) (w_files w) else w_files w; w_host := h;
        w_log := w_log w ++ [Wrote f text log] |}) /\ (b = true -> log = true).
Proof.
  unfold write_file. destruct (disk_write f text (w_host w)) as [[|e|e] h]; simpl.
  - by exists h, true, true.
  - by exists h, false, false.
  - by exists h, false, true.
Qed.

(** [persist] writes the state first, then the ownership journal and the report derived from it:
    however it ends, the files on disk are the old ones with a prefix of those three replacements, so
    the derived files are never newer than the state; an invalid state writes nothing; and when it
    returns, all three are in place and hold the valid state. *)
Theorem persist_order (s : TransactionState) (w : World H) :
  exists n, w_files (persist s w).2 = put_files (take n (writes s)) (w_files w) /\
    match TransactionState.validate s with Ok _ => True | Err _ => n = 0 end /\
    match (persist s w).1 with Ok _ => n = 3 /\ persisted s (w_files (persist s w).2) | Err _ => True end.
Proof.
  pose proof (runs_persist (fun _ => True) s w) as Hp. destruct Hp as (new & _ & _ & Hp); [done|].
  destruct (persist s w) as [r w'] eqn:Hrun. simpl in *. revert Hrun.
  unfold persist, write_state, write_ownership, write_report, write_json, writes, mbind, M_bind, tx, lift.
  destruct (TransactionState.validate s) as [[]|e]; simpl; [|intros [= <- <-]; by exists 0].
  destruct (write_file_outcome FState (pretty2 (TransactionState.to_value s)) w) as (h1 & b1 & l1 & -> & Hb1).
  destruct b1; simpl; [rewrite (Hb1 eq_refl)|intros [= <- <-]; by destruct l1; [exists 1|exists 0]].
  destruct (TransactionState.ownership s true) as [o|e]; simpl; [|intros [= <- <-]; by exists 1].
  match goal with |- context [write_file FOwnership _ ?x] => set (w1 := x) end.
  destruct (write_file_outcome FOwnership (pretty2 (ownership_file o)) w1) as (h2 & b2 & l2 & -> & Hb2).
  destruct b2; simpl; [rewrite (Hb2 eq_refl)|intros [= <- <-]; by destruct l2; [exists 2|exists 1]].
  match goal with |- context [write_file FReport _ ?x] => set (w2 := x) end.
  destruct (write_file_outcome FReport (pretty2 (TransactionState.report_value s)) w2) as (h3 & b3 & l3 & -> & Hb3).
  destruct b3; simpl; intros [= <- <-]; [|by destruct l3; [exists 3|exists 2]].
  rewrite (Hb3 eq_refl) in *. exists 3. split; [done|]. split; [done|]. split; [done|]. apply Hp.
Qed.

(** The two documents of a state that are read back: the state and the ownership journal. *)
Definition journal_values (s : TransactionState) : list Value :=
  TransactionState.to_value s ::
  match TransactionState.ownership s true with Ok o => [ownership_file o] | Err _ => [] end.

Lemma loads_written v : exact v = true /\ serde_parse (pretty2 v) = Ok v -> loads (pretty2 v) = Ok v.
Proof. intros [He Hv]. unfold loads. by rewrite pretty_in_range. Qed.

(** C9: the journal can be read back: when [persist] returned, and with a parser that inverts the
    writer on the state and its ownership journal, [read_state] finds in the files [persist] left
    exactly the state that was persisted and [read_ownership] the ownership derived from it, through
    the integer check, the strict readers and [validate]. *)
Theorem journal_readback (s : TransactionState) (w w' : World H)
  (Hrun : persist s w = (Ok tt, w')) (Hok : state_ok s = true)
  (Hread : forall f, disk_readable f (w_host w') = true)
  (Hparse : Forall (fun v => exact v = true /\ serde_parse (pretty2 v) = Ok v) (journal_values s)) :
  exists o, TransactionState.ownership s true = Ok o /\
    read_state w' = (Ok s, w') /\ read_ownership w' = (Ok o, w').
Proof.
  destruct (persist_order s w) as (n & _ & _ & Hp). rewrite Hrun in Hp. simpl in Hp. destruct Hp as [_ Hp].
  destruct Hp as (Hv & Hs & (o & Ho & Hf) & _). exists o. split; [done|]. unfold journal_values in Hparse. rewrite Ho in Hparse.
  apply Forall_cons in Hparse as [Hps Hpo]. apply Forall_singleton, loads_written in Hpo. apply loads_written in Hps.
  assert (Hso : bsorted o = true).
  { pose proof (ownership_union s true) as Hu. rewrite Ho in Hu. refine (proj1 (Hu _)).
    unfold state_ok in Hok. apply andb_prop in Hok as [Hok _]. apply Forall_forall. intros k Hk.
    rewrite forallb_forall in Hok. apply list_elem_of_In, Hok in Hk. unfold checkpoint_ok in Hk.
    by apply andb_prop in Hk as [[[Hk _]%andb_prop _]%andb_prop _]. }
  split.
  - unfold read_state, read_json, read_file, gets, mbind, M_bind. rewrite Hread. simpl. rewrite Hs, Hps.
    destruct (state_map_of s) as (m & Hm & _). pose proof (state_roundtrip s Hv Hok) as Hr. rewrite Hm in *.
    simpl. unfold tx, lift. by rewrite Hr.
  - unfold read_ownership, read_json, read_file, gets, mbind, M_bind. rewrite Hread. simpl. rewrite Hf, Hpo.
    unfold ownership_file. simpl. unfold tx, lift. by rewrite ownership_roundtrip.
Qed.
End properties.

(** ** Witnesses *)

Lemma apply_succeeds_witness :
  accepted = InstallPlan.digest plan /\
  (installed plan installed_state installed_world \/
   already_installed (JP := table_parser []) plan installed_state (fresh false) installed_world).
Proof.
  apply (apply_succeeds (JP := table_parser []) adapters AGENT_MANAGED_PATHS plan accepted (fresh false)).
  vm_compute. reflexivity.
Defined.

Lemma apply_gate_witness :
  let run := apply (JP := known interrupted_state) adapters AGENT_MANAGED_PATHS plan in
  (run EmptyString (interrupted_world false)).1 = Err (ETx (AcceptedDigest "accepted plan digest does not match")) /\
  run accepted (interrupted_world false) =
    (Err (ETx (Transaction "an installer transaction already exists")), interrupted_world false).
Proof.
  pose proof (fun d => apply_gate (JP := known interrupted_state) adapters AGENT_MANAGED_PATHS plan d
    (interrupted_world false)) as Hg.
  intros run. split.
  - refine (f_equal fst (proj1 (Hg EmptyString) _)). vm_compute. discriminate.
  - apply (proj2 (Hg accepted) (w_host (interrupted_world false)) interrupted_state); vm_compute; reflexivity.
Defined.



Lemma uninstall_completes_witness :
  let r := uninstall (JP := known installed_state) adapters AGENT_MANAGED_PATHS true installed_world in
  s_status (out_state r) = SUninstalled /\ persisted (out_state r) (w_files r.2) /\
  exists s, reads (JP := known installed_state) s installed_world /\ same_transaction s (out_state r) /\
    uninstalled true s (out_state r).
Proof.
  intros r. split; [vm_compute; reflexivity|].
  apply (uninstall_completes (JP := known installed_state) adapters AGENT_MANAGED_PATHS true installed_world).
  vm_compute. reflexivity.
Defined.


(** A parser that knows the state and its ownership. *)
Definition known_journal (s : TransactionState) (o : Ownership) : JsonParser :=
  table_parser [(pretty2 (TransactionState.to_value s), TransactionState.to_value s);
                (pretty2 (ownership_file o), ownership_file o)].
Definition installed_ownership : Ownership := ok_or_else [] (TransactionState.ownership installed_state true).

Lemma journal_readback_witness :
  let JP := known_journal installed_state installed_ownership in
  let w' := (persist installed_state (fresh false)).2 in
  bkeys installed_ownership = ["/etc/pc.conf"] /\
  exists o, TransactionState.ownership installed_state true = Ok o /\
    read_state (JP := JP) w' = (Ok installed_state, w') /\ read_ownership (JP := JP) w' = (Ok o, w').
Proof.
  intros JP w'. split; [vm_compute; reflexivity|].
  refine (journal_readback (JP := JP) installed_state (fresh false) w' _ _ (fun _ => eq_refl) _).
  - vm_compute. reflexivity.
  - vm_compute. reflexivity.
  - assert (Hj : journal_values installed_state =
      [TransactionState.to_value installed_state; ownership_file installed_ownership]) by (vm_compute; reflexivity).
    rewrite Hj. repeat apply Forall_cons_2; [..|apply Forall_nil_2]; split; vm_compute; reflexivity.
Defined.
