(* ===== verification/OwnedFacts.v ===== *)
(** * What the engine owns

    [owned_path], [assert_owned], [assert_reconcile_safe] and [capture_ownership]
    ([pc_host/src/fs.rs], [installer/src/engine.rs]): the journal's key of a path leads back to the
    same file, and what was captured is found intact. The transaction's identifier. *)

From S2P Require Import Prelude BTree Utf8 Numeric Json PyText TextFacts Plan PlanFacts Errors Journal Store Engine EngineProps.

(** ** Components *)

Definition slash : Ascii.ascii := "/"%char.
Definition kept (p : string) : bool := negb (str_empty p) && negb (p =?s ".").

Lemma slash_app x : "/" +:+ x = String slash x.
Proof. done. Qed.

Lemma path_parts_slash x : path_parts ("/" +:+ x) = path_parts x.
Proof. reflexivity. Qed.

Lemma path_parts_app x y : path_parts (x +:+ "/" +:+ y) = path_parts x ++ path_parts y.
Proof. unfold path_parts. by rewrite slash_app, split_app, List.filter_app. Qed.

(** A component: no slash, neither empty nor a dot. *)
Definition component (p : string) : Prop := path_parts p = [p].

Lemma path_parts_join l : Forall component l -> path_parts (join "/" l) = l.
Proof.
  induction 1 as [|p l Hp Hl IH]; [done|]. destruct l as [|q l]; [done|].
  change (join "/" (p :: q :: l)) with (p +:+ "/" +:+ join "/" (q :: l)). rewrite path_parts_app, IH. by rewrite Hp.
Qed.

Lemma path_parts_components s : Forall component (path_parts s).
Proof.
  apply Forall_forall. intros p Hp. unfold path_parts in Hp. apply list_elem_of_In, filter_In in Hp as [Hp Hk].
  unfold component, path_parts. pose proof (split_parts "/"%char s) as Hs. rewrite Forall_forall in Hs.
  rewrite (Hs p) by (by apply list_elem_of_In). simpl. by rewrite Hk.
Qed.

(** The key is a path of the same components. *)
Lemma owned_key_parts raw key : owned_key raw = Ok key ->
  String.prefix "/" key = true /\ path_parts key = path_parts raw /\ mem_str ".." (path_parts raw) = false.
Proof.
  unfold owned_key. destruct (String.prefix "/" raw); simpl; [|done].
  destruct (mem_str ".." (path_parts raw)); [done|]. destruct (_ && _); intros [= <-].
  - destruct (path_parts raw) as [|p l] eqn:Hp; [done|]. split; [done|]. split; [|done].
    change (join "/" ("//" :: p :: l)) with ("//" +:+ "/" +:+ join "/" (p :: l)).
    rewrite path_parts_slash, path_parts_app, path_parts_join; [done|]. rewrite <-Hp. apply path_parts_components.
  - split; [by destruct (join _ _)|]. split; [|done]. rewrite path_parts_slash.
    apply path_parts_join, path_parts_components.
Qed.

(** A key is readable again, and leads to the same file. *)
Lemma owned_key_again raw key : owned_key raw = Ok key -> exists key', owned_key key = Ok key'.
Proof.
  intros Hk. apply owned_key_parts in Hk as (Hpre & Hparts & Hdots). unfold owned_key. rewrite Hpre, Hparts, Hdots. simpl.
  eauto.
Qed.

Lemma root_candidate_parts root p q : String.prefix "/" p = true -> String.prefix "/" q = true ->
  path_parts p = path_parts q -> root_candidate root p = root_candidate root q.
Proof. intros Hp Hq Heq. unfold root_candidate. by rewrite Hp, Hq, Heq. Qed.

Section owned.
Context {H : Type} {PS : Paths H} (agent_managed : list string).

Lemma owned_path_again raw h key path : owned_path raw h = Ok (key, path) ->
  exists key', owned_path key h = Ok (key', path).
Proof.
  unfold owned_path. intros Hr. apply bind_Ok in Hr as (k & Hk & Hr). apply bind_Ok in Hr as (rooted & Hroot & Hr).
  apply bind_Ok in Hr as ([] & Hc & Hr). injection Hr as <- <-.
  pose proof (owned_key_again _ _ Hk) as (k' & Hk'). exists k'.
  apply owned_key_parts in Hk as (Hpre & _ & _). apply owned_key_parts in Hk' as Hk2. destruct Hk2 as (Hpre' & Hparts' & _).
  eapply bind_Ok_intro; [exact Hk'|]. eapply bind_Ok_intro;
    [rewrite <-Hroot; by apply root_candidate_parts|]. by eapply bind_Ok_intro; [exact Hc|].
Qed.

(** An entry that matches the file at its key. *)
Definition intact (h : H) (e : string * OwnershipEntry) : Prop :=
  exists key path actual, owned_path e.1 h = Ok (key, path) /\ path_identity path h = Ok actual /\
    same_file agent_managed e.1 e.2 actual = true.

Lemma assert_owned_ok o h : assert_owned_in agent_managed o h = Ok tt <-> Forall (intact h) o.
Proof.
  unfold assert_owned_in. rewrite try_for_Ok.
  split; intros Hf; (eapply Forall_impl; [exact Hf|]); intros [p e]; unfold intact; simpl.
  - intros Hb. apply bind_Ok in Hb as ([key path] & Ho & Hb). apply bind_Ok in Hb as (actual & Ha & Hb).
    exists key, path, actual. split; [done|].
    destruct (path_identity path h) as [i|[]]; try done. injection Ha as ->.
    split; [done|]. by destruct (same_file agent_managed p e actual).
  - intros (key & path & actual & Ho & Hi & Hs). eapply bind_Ok_intro; [exact Ho|]. simpl.
    eapply bind_Ok_intro; [by rewrite Hi|]. by rewrite Hs.
Qed.

Lemma intact_bset h k e (o : Ownership) : intact h (k, e) -> Forall (intact h) o -> Forall (intact h) (bset k e o).
Proof.
  intros He. induction 1 as [|[k' e'] o Hk' Ho IH]; simpl; [by apply Forall_cons_2|].
  destruct (str_ltb k k'); [by repeat apply Forall_cons_2|]. destruct (str_ltb k' k); by apply Forall_cons_2.
Qed.

Lemma capture_intact a h items : forall o o', Forall (intact h) o -> capture a items o h = Ok o' -> Forall (intact h) o'.
Proof.
  induction items as [|[raw expected] items IH]; intros o o' Ho; simpl; [by intros [= <-]|].
  intros Hc. apply bind_Ok in Hc as (r & _ & Hc). apply bind_Ok in Hc as ([key path] & Hp & Hc).
  apply bind_Ok in Hc as (actual & Ha & Hc). apply bind_Ok in Hc as ([mutable preserve] & _ & Hc).
  refine (IH _ _ _ Hc). apply intact_bset; [|done].
  destruct (owned_path r h) as [[key1 path1]|] eqn:Hr; [|done]. injection Hp as -> ->.
  destruct (path_identity path h) as [i|] eqn:Hi; [|done]. injection Ha as ->.
  apply owned_path_again in Hr as (key' & Hr). exists key', path, actual. split; [done|]. split; [done|].
  unfold same_file. simpl. rewrite !eqb_s_refl. by rewrite !orb_true_r.
Qed.
End owned.

(** ** Identifiers *)

Lemma is_hex_app a b n m : is_hex a n = true -> is_hex b m = true -> is_hex (a +:+ b) (n + m) = true.
Proof.
  unfold is_hex. intros [Ha Hfa]%andb_prop [Hb Hfb]%andb_prop. apply Nat.eqb_eq in Ha, Hb. apply andb_true_intro. split.
  - apply Nat.eqb_eq. rewrite length_app_s. lia.
  - clear Ha Hb. induction a as [|c a IH]; [by rewrite app_nil_s|]. rewrite app_cons_s. cbn [forallb_s] in *.
    apply andb_prop in Hfa as [Hc Hfa]. rewrite Hc. by apply IH.
Qed.

(** Two lower-case digits per byte: checked on every byte. *)
Lemma hex_byte_hex b : (b < 256)%N -> is_hex (hex_byte b) 2 = true.
Proof.
  intros Hb. apply (all_below_spec 256 (fun b => is_hex (hex_byte b) 2)); [vm_compute; done|done].
Qed.

Lemma hex_hex l : Forall (fun b => (b < 256)%N) l -> is_hex (hex l) (2 * length l) = true.
Proof.
  induction 1 as [|b l Hb Hl IH]; [done|]. destruct l as [|c l]; [by apply hex_byte_hex|].
  change (hex (b :: c :: l)) with (hex_byte b +:+ EmptyString +:+ hex (c :: l)). rewrite app_nil_s.
  replace (2 * length (b :: c :: l))%nat with (2 + 2 * length (c :: l))%nat by (simpl; lia).
  by apply is_hex_app; [apply hex_byte_hex|].
Qed.

Lemma version_bits b : (b < 256)%N -> (N.lor (N.land b 0x0f) 0x40 < 256)%N /\ (N.lor (N.land b 0x0f) 0x40 / 16 = 4)%N.
Proof.
  intros Hb. pose proof (all_below_spec 256 (fun b => let v := N.lor (N.land b 0x0f) 0x40 in (v <? 256)%N && (v / 16 =? 4)%N)
    ltac:(vm_compute; done) b Hb) as Hv.
  apply andb_prop in Hv as [H1 H2]. apply N.ltb_lt in H1. by apply N.eqb_eq in H2.
Qed.

Lemma variant_bits b : (b < 256)%N ->
  (N.lor (N.land b 0x3f) 0x80 < 256)%N /\ (8 <= N.lor (N.land b 0x3f) 0x80 / 16 <= 11)%N.
Proof.
  intros Hb. pose proof (all_below_spec 256 (fun b => let v := N.lor (N.land b 0x3f) 0x80 in
    (v <? 256)%N && ((8 <=? v / 16)%N && (v / 16 <=? 11)%N)) ltac:(vm_compute; done) b Hb) as Hv.
  apply andb_prop in Hv as [H1 H2]. apply andb_prop in H2 as [H2 H3]. apply N.ltb_lt in H1. by apply N.leb_le in H2, H3.
Qed.

(** ** Properties *)

(** What [assert_reconcile_safe] tolerates: the file is gone, unless it is data to keep. *)
Definition safe {H} `{PS : Paths H} (agent_managed : list string) (purge_data : bool) (h : H)
  (e : string * OwnershipEntry) : Prop :=
  exists key path, owned_path e.1 h = Ok (key, path) /\
    ((exists_or_symlink path h = false /\ (o_preserve e.2 = false \/ purge_data = true)) \/
     (exists_or_symlink path h = true /\ exists actual, path_identity path h = Ok actual /\
        same_file agent_managed e.1 e.2 actual = true)).

(** The engine's two proofs of ownership are exact. [assert_owned] accepts a journal exactly when
    every entry's path resolves inside the root to an entry of the recorded kind whose digest is the
    recorded one, unless the file is declared mutable or managed by the version agent;
    [assert_reconcile_safe] accepts it exactly when every path that still exists is that file and
    every path that is gone was not preserved data (or data is being purged). *)
Theorem ownership_checks {H} {PS : Paths H} (agent_managed : list string) (o : Ownership) (purge_data : bool) (h : H) :
  (assert_owned_in agent_managed o h = Ok tt <-> Forall (intact agent_managed h) o) /\
  (assert_reconcile_safe_in agent_managed o purge_data h = Ok tt <-> Forall (safe agent_managed purge_data h) o).
Proof.
  split; [apply assert_owned_ok|]. unfold assert_reconcile_safe_in. rewrite try_for_Ok.
  split; intros Hf; (eapply Forall_impl; [exact Hf|]); intros [p e]; unfold safe; simpl.
  - intros Hb. apply bind_Ok in Hb as ([key path] & Ho & Hb). exists key, path. split; [done|].
    destruct (exists_or_symlink path h); simpl in Hb.
    + right. split; [done|]. apply bind_Ok in Hb as (actual & Ha & Hb). exists actual. split; [done|].
      by destruct (same_file agent_managed p e actual).
    + left. split; [done|]. destruct (o_preserve e); [|by left]. right. by destruct purge_data.
  - intros (key & path & Ho & Hcase). eapply bind_Ok_intro; [exact Ho|]. simpl.
    destruct Hcase as [[-> Hpre]|(-> & actual & Ha & Hs)]; simpl.
    + by destruct Hpre as [-> | ->]; rewrite ?andb_false_r.
    + eapply bind_Ok_intro; [exact Ha|]. by rewrite Hs.
Qed.

(** What an adapter's action declared and the engine captured is found intact at once: when
    [capture_ownership] returns a journal of paths (relative dots, doubled slashes and the
    two-slash anchor normalised, one entry per file), [assert_owned] of it on the same host
    succeeds. *)
Theorem capture_then_owned {H} {PS : Paths H} (agent_managed : list string) (a : Action) (data : CheckpointData)
  (w w' : World H) (o : Ownership) (Hc : capture_ownership a data w = (Ok o, w')) :
  w' = w /\ assert_owned_in agent_managed o (w_host w) = Ok tt.
Proof.
  unfold capture_ownership, lift in Hc. injection Hc as Hc <-. split; [done|].
  apply bind_Ok in Hc as (items & _ & Hc). apply assert_owned_ok. eapply capture_intact; [|exact Hc]. apply Forall_nil_2.
Qed.

Lemma capture_then_owned_witness :
  let w := {| w_files := no_files; w_host := put_conf (w_host (fresh false)); w_log := [] |} in
  exists o, capture_ownership (H := Host) Sample.action [("owned_paths", Array [Str "/etc/./pc.conf"; Str "//etc//pc.conf"])] w = (Ok o, w) /\
    bkeys o = ["////etc/pc.conf"; "/etc/pc.conf"] /\ assert_owned_in AGENT_MANAGED_PATHS o (w_host w) = Ok tt.
Proof.
  intros w. eexists. split; [vm_compute; reflexivity|]. split; [reflexivity|].
  refine (proj2 (capture_then_owned AGENT_MANAGED_PATHS Sample.action
    [("owned_paths", Array [Str "/etc/./pc.conf"; Str "//etc//pc.conf"])] w w _ _)). vm_compute. reflexivity.
Defined.

(** A fresh transaction's identifier is a UUID 4: from any sixteen bytes, [uuid4_hex] makes 32
    lower-case hexadecimal digits (so the state passes the journal's identity check), the thirteenth
    a 4 and the seventeenth one of 8, 9, a and b, the other bytes kept as they were. *)
Theorem uuid4_shape (bytes : list N) (Hl : length bytes = 16) (Hb : Forall (fun b => (b < 256)%N) bytes) :
  is_hex (uuid4_hex bytes) 32 = true /\
  exists bytes', uuid4_hex bytes = hex bytes' /\ length bytes' = 16 /\
    (forall b, bytes' !! 6 = Some b -> (b / 16 = 4)%N) /\
    (forall b, bytes' !! 8 = Some b -> (8 <= b / 16 <= 11)%N) /\
    (forall i, i <> 6 -> i <> 8 -> bytes' !! i = bytes !! i).
Proof.
  set (v6 := fun b => N.lor (N.land b 0x0f) 0x40). set (v8 := fun b => N.lor (N.land b 0x3f) 0x80).
  assert (Hget : forall i b, bytes !! i = Some b -> (b < 256)%N) by (intros i b Hi; exact (Forall_lookup_1 _ _ _ _ Hb Hi)).
  change (uuid4_hex bytes) with (hex (alter v8 8 (alter v6 6 bytes))).
  split.
  - change 32 with (2 * 16)%nat. rewrite <-Hl, <-(length_alter v6 bytes 6), <-(length_alter v8 (alter v6 6 bytes) 8).
    apply hex_hex. apply Forall_alter; [apply Forall_alter; [done|]|].
    + intros b Hi _. apply version_bits. by eapply Hget.
    + intros b Hi _. rewrite list_lookup_alter_ne in Hi by done. apply variant_bits. by eapply Hget.
  - exists (alter v8 8 (alter v6 6 bytes)). split; [done|]. split; [by rewrite !length_alter|]. split; [|split].
    + intros b. rewrite list_lookup_alter_ne, list_lookup_alter_eq by done. destruct (bytes !! 6) as [c|] eqn:Hc; [|done].
      intros [= <-]. apply version_bits. by eapply Hget.
    + intros b. rewrite list_lookup_alter_eq, list_lookup_alter_ne by done. destruct (bytes !! 8) as [c|] eqn:Hc; [|done].
      intros [= <-]. apply variant_bits. by eapply Hget.
    + intros i H6 H8. by rewrite !list_lookup_alter_ne by done.
Qed.

Lemma uuid4_shape_witness : is_hex (uuid4_hex (map N.of_nat (seq 240 16))) 32 = true.
Proof.
  refine (proj1 (uuid4_shape (map N.of_nat (seq 240 16)) eq_refl _)).
  apply Forall_forall. intros b Hb. apply list_elem_of_fmap in Hb as (n & -> & Hn). apply elem_of_seq in Hn. lia.
Defined.
