(* ===== verification/IndexMap.v ===== *)
(** * Insertion-ordered maps

    [indexmap::IndexMap<String, V>], which is [serde_json::Map] in the crates that enable
    [preserve_order] (the managers and the panel), as the list of its entries in insertion order.
    Lookups are those of [BTree]; [insert] keeps the place of a key that is present, [shift_remove]
    keeps the order of the rest. *)

From S2P Require Import Prelude BTree.

Abbreviation imap V := (list (string * V)).

Section imap.
Context {V : Type}.
Implicit Types (m : imap V) (k : string) (v : V).

(** [map.insert(k, v)]: in place when the key is present, at the end otherwise. *)
Fixpoint iset k v m : imap V :=
  match m with
  | [] => [(k, v)]
  | (k', v') :: m' => if k =?s k' then (k', v) :: m' else (k', v') :: iset k v m'
  end.

(** [map.shift_remove(k)]. *)
Fixpoint idel k m : imap V :=
  match m with
  | [] => []
  | (k', v') :: m' => if k =?s k' then m' else (k', v') :: idel k m'
  end.

(** [map[k] = f(map[k])] through [get_mut]. *)
Fixpoint iupd (f : V -> V) k m : imap V :=
  match m with
  | [] => []
  | (k', v') :: m' => if k =?s k' then (k', f v') :: m' else (k', v') :: iupd f k m'
  end.

(** [map.values()]. *)
Definition ivalues m : list V := map snd m.

(** [iter.collect::<IndexMap<_, _>>()], [map.extend(iter)]. *)
Definition iextend m (l : list (string * V)) : imap V := fold_left (fun m kv => iset kv.1 kv.2 m) l m.
Definition icollect (l : list (string * V)) : imap V := iextend [] l.

(** Distinct keys, the invariant of the structure. *)
Definition iok m : Prop := NoDup (bkeys m).

Lemma bget_iset k k' v m : bget k (iset k' v m) = if k =?s k' then Some v else bget k m.
Proof.
  induction m as [|[q w] m IH]; simpl; [done|].
  destruct (k' =?s q) eqn:Hq; simpl.
  - apply eqb_s_true in Hq as ->. by destruct (k =?s q).
  - rewrite IH. destruct (k =?s q) eqn:Hk; [|done].
    apply eqb_s_true in Hk as ->. destruct (q =?s k') eqn:Hqk; [|done].
    apply eqb_s_true in Hqk as ->. by rewrite eqb_s_refl in Hq.
Qed.

Lemma bget_iset_eq k v m : bget k (iset k v m) = Some v.
Proof. by rewrite bget_iset, eqb_s_refl. Qed.

Lemma bget_iset_ne k k' v m : k <> k' -> bget k (iset k' v m) = bget k m.
Proof. intros H. rewrite bget_iset. by apply eqb_s_false in H as ->. Qed.

Lemma bkeys_iset k v m : bkeys (iset k v m) = if bhas k m then bkeys m else bkeys m ++ [k].
Proof.
  unfold bhas. induction m as [|[q w] m IH]; simpl; [done|].
  destruct (k =?s q) eqn:Hq; simpl; [done|]. rewrite IH. by destruct (bget k m).
Qed.

Lemma iset_fresh k v m : bhas k m = false -> iset k v m = m ++ [(k, v)].
Proof.
  unfold bhas. induction m as [|[q w] m IH]; simpl; [done|].
  destruct (k =?s q); [done|]. simpl. intros H. by rewrite IH.
Qed.

Lemma iok_iset k v m : iok m -> iok (iset k v m).
Proof.
  unfold iok. rewrite bkeys_iset. destruct (bhas k m) eqn:Hh; [done|]. intros H.
  apply NoDup_app. split; [done|]. split; [|apply NoDup_singleton].
  intros x Hx ->%list_elem_of_singleton. apply bhas_true in Hx. congruence.
Qed.

Lemma bkeys_idel_sub k m x : x ∈ bkeys (idel k m) -> x ∈ bkeys m.
Proof.
  induction m as [|[q w] m IH]; simpl; [done|].
  destruct (k =?s q); simpl; rewrite !elem_of_cons; tauto.
Qed.

Lemma iok_idel k m : iok m -> iok (idel k m).
Proof.
  unfold iok. induction m as [|[q w] m IH]; simpl; [done|].
  rewrite NoDup_cons. intros [Hq Hm]. destruct (k =?s q); [done|]. simpl. apply NoDup_cons.
  split; [|by apply IH]. intros H. by apply Hq, (bkeys_idel_sub k).
Qed.

Lemma bkeys_iupd f k m : bkeys (iupd f k m) = bkeys m.
Proof. induction m as [|[q w] m IH]; simpl; [done|]. destruct (k =?s q); simpl; by rewrite ?IH. Qed.

Lemma iok_iupd f k m : iok m -> iok (iupd f k m).
Proof. unfold iok. by rewrite bkeys_iupd. Qed.

Lemma bget_iupd f k k' m : bget k (iupd f k' m) = if k =?s k' then f <$> bget k m else bget k m.
Proof.
  induction m as [|[q w] m IH]; simpl; [by destruct (k =?s k')|].
  destruct (k' =?s q) eqn:Hq; simpl.
  - apply eqb_s_true in Hq as ->. by destruct (k =?s q).
  - rewrite IH. destruct (k =?s q) eqn:Hk; [|done]. apply eqb_s_true in Hk as ->.
    assert (q =?s k' = false) as ->; [|done]. apply eqb_s_false. intros ->. by rewrite eqb_s_refl in Hq.
Qed.

Lemma bget_None k m : bget k m = None <-> k ∉ bkeys m.
Proof.
  rewrite <-bhas_true. unfold bhas. by destruct (bget k m).
Qed.

Lemma bget_idel k k' m : iok m -> bget k (idel k' m) = if k =?s k' then None else bget k m.
Proof.
  unfold iok. induction m as [|[q w] m IH]; simpl; [by destruct (k =?s k')|].
  rewrite NoDup_cons. intros [Hq Hm]. destruct (k' =?s q) eqn:Hk'.
  - apply eqb_s_true in Hk' as ->. destruct (k =?s q) eqn:Hk; [|done].
    apply eqb_s_true in Hk as ->. by apply bget_None.
  - simpl. rewrite IH by done. destruct (k =?s q) eqn:Hk; [|done]. apply eqb_s_true in Hk as ->.
    assert (q =?s k' = false) as ->; [|done]. apply eqb_s_false. intros ->. by rewrite eqb_s_refl in Hk'.
Qed.

Lemma bget_ok_In k v m : iok m -> (k, v) ∈ m -> bget k m = Some v.
Proof.
  unfold iok. induction m as [|[q w] m IH]; simpl; [by intros _ ?%not_elem_of_nil|].
  rewrite NoDup_cons, elem_of_cons. intros [Hq Hm] [[= -> ->]|Hin]; [by rewrite eqb_s_refl|].
  assert (k =?s q = false) as ->; [|by apply IH].
  apply eqb_s_false. intros ->. apply Hq. apply (list_elem_of_fmap_2 fst _ _ Hin).
Qed.

Lemma In_iset k v m e : iok m -> e ∈ iset k v m <-> e = (k, v) \/ (e ∈ m /\ e.1 <> k).
Proof.
  unfold iok. induction m as [|[q w] m IH]; simpl.
  - intros _. rewrite list_elem_of_singleton. split; [by left|]. intros [?|[?%not_elem_of_nil _]]; done.
  - rewrite NoDup_cons. intros [Hq Hm]. destruct (k =?s q) eqn:Hk.
    + apply eqb_s_true in Hk as ->. rewrite !elem_of_cons. split; [|by intros [->|[[->|H] Hn]]; [left|by destruct Hn|right]].
      intros [->|H]; [by left|right]. split; [by right|]. intros <-. apply Hq. apply (list_elem_of_fmap_2 fst _ _ H).
    + apply eqb_s_false in Hk. rewrite !elem_of_cons, IH by done. split.
      * intros [->|[->|[H Hn]]]; [right; split; [by left|done]|by left|right; split; [by right|done]].
      * intros [->|[[->|H] Hn]]; [by right; left|by left|right; by right].
Qed.

Lemma In_idel k m e : iok m -> e ∈ idel k m <-> e ∈ m /\ e.1 <> k.
Proof.
  unfold iok. induction m as [|[q w] m IH]; simpl.
  - intros _. split; [by intros ?%not_elem_of_nil|by intros [? _]].
  - rewrite NoDup_cons. intros [Hq Hm]. destruct (k =?s q) eqn:Hk.
    + apply eqb_s_true in Hk as ->. rewrite elem_of_cons. split; [|by intros [[->|H] Hn]; [destruct Hn|]].
      intros H. split; [by right|]. intros <-. apply Hq. apply (list_elem_of_fmap_2 fst _ _ H).
    + apply eqb_s_false in Hk. rewrite !elem_of_cons, IH by done. split.
      * intros [->|[H Hn]]; [split; [by left|done]|split; [by right|done]].
      * intros [[->|H] Hn]; [by left|by right].
Qed.

Lemma iset_id k v m : bget k m = Some v -> iset k v m = m.
Proof.
  induction m as [|[q w] m IH]; simpl; [done|].
  destruct (k =?s q) eqn:Hk; [by intros [= ->]|]. intros H. by rewrite IH.
Qed.

Lemma iok_iextend l m : iok m -> iok (iextend m l).
Proof. unfold iextend. revert m. induction l as [|e l IH]; simpl; [done|]. intros m Hm. by apply IH, iok_iset. Qed.

Lemma icollect_fold l m : NoDup (bkeys m ++ map fst l) -> iextend m l = m ++ l.
Proof.
  unfold iextend. revert m. induction l as [|[k v] l IH]; simpl; intros m H; [by rewrite app_nil_r|].
  apply NoDup_app in H as (Hm & Hd & Hl). apply NoDup_cons in Hl as [Hk Hl].
  assert (Hf : bhas k m = false).
  { destruct (bhas k m) eqn:E; [|done]. apply bhas_true in E. exfalso. apply (Hd k E). by left. }
  rewrite (iset_fresh k v m Hf), IH; [by rewrite <-app_assoc|].
  unfold bkeys. rewrite map_app. simpl. apply NoDup_app. split; [|split; [|done]].
  - apply NoDup_app. split; [done|]. split; [|apply NoDup_singleton].
    intros x Hx ->%list_elem_of_singleton. apply (Hd k Hx). by left.
  - intros x [Hx| ->%list_elem_of_singleton]%elem_of_app; [|done]. intros Hx'. apply (Hd x Hx). by right.
Qed.

(** Collecting entries with distinct keys gives them back in order. *)
Lemma icollect_id l : iok l -> icollect l = l.
Proof. intros H. unfold icollect. by rewrite icollect_fold. Qed.

Lemma iok_filter f m : iok m -> iok (List.filter f m).
Proof.
  unfold iok. induction m as [|[q w] m IH]; simpl; [done|]. rewrite NoDup_cons. intros [Hq Hm].
  destruct (f (q, w)); [|by apply IH]. simpl. apply NoDup_cons. split; [|by apply IH].
  intros H. apply Hq. apply list_elem_of_fmap in H as (e & -> & He). apply list_elem_of_In, filter_In in He as [He _].
  by apply list_elem_of_fmap_2, list_elem_of_In.
Qed.

Lemma bget_filter_key f k m : bget k (List.filter (fun e => f e.1) m) = if f k then bget k m else None.
Proof.
  induction m as [|[q w] m IH]; simpl; [by destruct (f k)|].
  destruct (f q) eqn:Hf; simpl.
  - rewrite IH. destruct (k =?s q) eqn:Hk; [|done]. apply eqb_s_true in Hk as ->. by rewrite Hf.
  - rewrite IH. destruct (k =?s q) eqn:Hk; [|done]. apply eqb_s_true in Hk as ->. by rewrite Hf.
Qed.
End imap.

#[export] Hint Resolve iok_iset iok_idel iok_iupd : core.
