(* ===== verification/StdNet.v ===== *)
(** * The standard library's IPv6 reader

    [std::net::Ipv6Addr::from_str], which the AmneziaWG manager calls: the recursive-descent reader
    of [core::net::parser], on the bytes of a text. A reader returns its value and the rest. *)

From S2P Require Import Prelude Numeric IpAddr.

Local Open Scope N_scope.

(** [Parser::read_number] with [max_digits]: the value below [limit], the rest of the text. *)
Fixpoint take_digits (radix : N) (max : nat) (value : N) (count : nat) (s : string) : option (N * nat * string) :=
  match s with
  | String a rest =>
      match digit_val radix a with
      | Some d =>
          if (max <? S count)%nat then None
          else match max with
               | O => None
               | S _ => take_digits radix max (value * radix + d) (S count) rest
               end
      | None => Some (value, count, s)
      end
  | EmptyString => Some (value, count, s)
  end.

Definition read_number (radix : N) (max : nat) (allow_zero_prefix : bool) (limit : N) (s : string) : option (N * string) :=
  '(value, count, rest) ← take_digits radix max 0 0 s;
  if (count =? 0)%nat then None
  else if negb allow_zero_prefix && starts_with_zero s && (1 <? count)%nat then None
  else if value <? limit then Some (value, rest) else None.

Definition read_given_char (b : Ascii.ascii) (s : string) : option string :=
  match s with String a rest => if Ascii.eqb a b then Some rest else None | EmptyString => None end.

(** [Parser::read_separator]: the separator is read before every item but the first. *)
Definition read_separator {A} (sep : Ascii.ascii) (index : nat) (inner : string -> option (A * string)) (s : string) :
    option (A * string) :=
  match index with
  | O => inner s
  | S _ => read_given_char sep s ≫= inner
  end.

Fixpoint read_octets (n : nat) (index : nat) (value : N) (s : string) : option (N * string) :=
  match n with
  | O => Some (value, s)
  | S n' =>
      '(octet, rest) ← read_separator dot index (read_number 10 3 false 256) s;
      read_octets n' (S index) (value * 256 + octet) rest
  end.

Definition read_ipv4_addr (s : string) : option (N * string) := read_octets 4 0 0 s.

(** [read_groups]: [n] groups are left of a slice of [n + index]; the groups, whether an embedded
    IPv4 address ended them, and the rest. *)
Fixpoint read_groups (n : nat) (index : nat) (s : string) : list N * bool * string :=
  match n with
  | O => ([], false, s)
  | S n' =>
      let group :=
        match read_separator colon index (read_number 16 4 true 65536) s with
        | Some (g, rest) => let '(gs, v4, rest') := read_groups n' (S index) rest in (g :: gs, v4, rest')
        | None => ([], false, s)
        end in
      match n' with
      | S _ =>
          match read_separator colon index read_ipv4_addr s with
          | Some (v4, rest) => ([v4 / 65536; v4 mod 65536], true, rest)
          | None => group
          end
      | O => group
      end
  end.

Definition groups_value (groups : list N) : N := fold_left (fun v g => v * 65536 + g) groups 0.

(** [Parser::read_ipv6_addr]. *)
Definition read_ipv6_addr (s : string) : option (N * string) :=
  let '(head, head_v4, rest) := read_groups 8 0 s in
  if (length head =? 8)%nat then Some (groups_value head, rest)
  else if head_v4 then None
  else
    rest ← read_given_char colon rest ≫= read_given_char colon;
    let limit := (8 - (length head + 1))%nat in
    let '(tail, _, rest) := read_groups limit 0 rest in
    Some (groups_value (head ++ replicate (8 - length head - length tail) 0 ++ tail), rest).

(** [text.parse::<Ipv6Addr>()]. *)
Definition parse_ipv6 (s : string) : option N :=
  match read_ipv6_addr s with
  | Some (value, EmptyString) => Some value
  | _ => None
  end.

Example parse_ipv6_values :
  map parse_ipv6 ["::1"; "2606:4700::1111"; "::ffff:1.2.3.4"; "1:2:3:4:5:6:7:8"; "1::"; "::"; "1:2:3:4:5:6:7::"; "1:2:3:4:5:6:1.2.3.4"] =
  [Some 1; Some 0x26064700000000000000000000001111; Some 0xffff01020304; Some 0x00010002000300040005000600070008;
   Some (2 ^ 112); Some 0; Some 0x00010002000300040005000600070000; Some 0x00010002000300040005000601020304].
Proof. vm_compute. reflexivity. Qed.

Example parse_ipv6_refused :
  forallb (fun s => match parse_ipv6 s with None => true | Some _ => false end)
    [""; ":"; ":::"; "1"; "1:2:3:4:5:6:7"; "12345::"; "1::2::3"; "1:2:3:4:5:6:7:8:9"; "1:2:3:4:5:6:7:1.2.3.4"; "::01.2.3.4"; "g::"] = true.
Proof. vm_compute. reflexivity. Qed.
