(* ===== verification/AwgNet.v ===== *)
(** * IPv4 networks of the AmneziaWG manager

    [awg_manager/src/ipnet.rs]: the part of Python's [ipaddress] the manager uses. Addresses and
    masks are [u32]s ([u128]s for IPv6), with the shifts in their width. *)

From S2P Require Import Prelude Utf8 Numeric PyText IpAddr StdNet.

Local Open Scope N_scope.

Definition U32_MAX : N := 2 ^ 32 - 1.
Definition U128_MAX : N := 2 ^ 128 - 1.
Definition slash : Ascii.ascii := "/"%char.
Definition percent : Ascii.ascii := "%"%char.

(** ** Addresses *)

(** One octet of [parse_v4]. *)
Definition v4_octet (octet : string) : option N :=
  if str_empty octet || (3 <? String.length octet)%nat || negb (forallb_s is_digit octet) then None
  else if negb (octet =?s "0") && starts_with_zero octet then None
  else
    byte ← Z.to_N <$> parse_u32 octet;
    if 255 <? byte then None else Some byte.

Fixpoint v4_octets (octets : list string) (value : N) : option N :=
  match octets with
  | [] => Some value
  | octet :: rest => byte ← v4_octet octet; v4_octets rest (N.lor ((N.shiftl value 8) mod 2 ^ 32) byte)
  end.

Definition parse_v4 (text : string) : option N :=
  let octets := split_byte dot text in
  if negb (length octets =? 4)%nat then None else v4_octets octets 0.

Definition format_v4 (value : N) : string := ipv4_str value.

Definition parse_v6 (text : string) : option N :=
  let '(address, scope) := match split_once percent text with
                           | Some (address, scope) => (address, Some scope)
                           | None => (text, None)
                           end in
  if match scope with Some scope => str_empty scope || contains_s "%" scope | None => false end then None
  else parse_ipv6 address.

Definition is_ip_address (text : string) : bool :=
  match parse_v4 text with Some _ => true | None => match parse_v6 text with Some _ => true | None => false end end.

(** ** Prefixes and masks *)

Definition prefix_digits (text : string) (max : N) : option N :=
  if str_empty text || negb (forallb_s is_digit text) then None
  else match Z.to_N <$> parse_u32 text with
       | Some prefix => if prefix <=? max then Some prefix else None
       | None => None
       end.

(** [u32::trailing_zeros] of a number that is not 0. *)
Fixpoint trailing_zeros (p : positive) : N :=
  match p with xO q => N.succ (trailing_zeros q) | _ => 0 end.

Definition prefix_from_mask (mask : N) : option N :=
  let zeros := match mask with N0 => 32 | Npos p => trailing_zeros p end in
  let prefix := 32 - zeros in
  let ones := if zeros =? 32 then 0 else N.shiftr mask zeros in
  let expected := if prefix =? 0 then 0 else N.shiftr U32_MAX (32 - prefix) in
  if ones =? expected then Some prefix else None.

(** [!mask]. *)
Definition not32 (mask : N) : N := N.lxor mask U32_MAX.

(** ** Networks *)

Record Ipv4Net := { network : N; prefix : N }.

#[export] Instance Ipv4Net_eq_dec : EqDecision Ipv4Net.
Proof. solve_decision. Defined.

Definition mask (n : Ipv4Net) : N :=
  if prefix n =? 0 then 0 else (N.shiftl U32_MAX (32 - prefix n)) mod 2 ^ 32.

Definition broadcast (n : Ipv4Net) : N := N.lor (network n) (not32 (mask n)).

Definition contains (n : Ipv4Net) (address : N) : bool := N.land address (mask n) =? network n.

Definition subnet_of (n other : Ipv4Net) : bool :=
  (network other <=? network n) && (broadcast n <=? broadcast other).

Definition overlaps (n other : Ipv4Net) : bool :=
  contains n (network other) || contains n (broadcast other) || contains other (network n) || contains other (broadcast n).

(** [u32] addition: the release build wraps. *)
Definition gateway (n : Ipv4Net) : N := (network n + 1) mod 2 ^ 32.

(** [first..=last]. *)
Definition addresses (first last : N) : list N :=
  map (fun i => first + N.of_nat i) (seq 0 (N.to_nat (last + 1 - first))).

Definition hosts (n : Ipv4Net) : list N :=
  if 31 <=? prefix n then addresses (network n) (broadcast n)
  else addresses (network n + 1) (broadcast n - 1).

(** [Display]. *)
Definition net_str (n : Ipv4Net) : string := format_v4 (network n) +:+ "/" +:+ fmt_N (prefix n).

Inductive Network := V4 (n : Ipv4Net) | V6.

Definition parse_v4_network (text : string) (strict : bool) : option Ipv4Net :=
  let parts := split_byte slash text in
  if (2 <? length parts)%nat then None else
  address ← head parts ≫= parse_v4;
  prefix ← match nth_error parts 1 with
           | None => Some 32
           | Some raw =>
               match prefix_digits raw 32 with
               | Some prefix => Some prefix
               | None =>
                   m ← parse_v4 raw;
                   match prefix_from_mask m with Some p => Some p | None => prefix_from_mask (not32 m) end
               end
           end;
  let net := {| network := address; prefix := prefix |} in
  let masked := N.land address (mask net) in
  if strict && negb (masked =? address) then None
  else Some {| network := masked; prefix := prefix |}.

Definition parse_v6_network (text : string) (strict : bool) : bool :=
  let parts := split_byte slash text in
  if (2 <? length parts)%nat then false else
  match head parts ≫= parse_v6 with
  | None => false
  | Some address =>
      match (match nth_error parts 1 with None => Some 128 | Some raw => prefix_digits raw 128 end) with
      | None => false
      | Some prefix =>
          let m := if prefix =? 0 then 0 else (N.shiftl U128_MAX (128 - prefix)) mod 2 ^ 128 in
          negb strict || (N.land address m =? address)
      end
  end.

Definition ip_network (text : string) (strict : bool) : option Network :=
  match parse_v4_network text strict with
  | Some net => Some (V4 net)
  | None => if parse_v6_network text strict then Some V6 else None
  end.
