(* ===== verification/AwgNetFacts.v ===== *)
(** * IPv4 networks: the set of addresses behind the bit operations

    A network of [AwgNet] denotes an aligned interval of addresses; membership, inclusion and overlap
    are those of the interval, masks and prefixes correspond one to one, and the texts the manager
    writes are read back. *)

From S2P Require Import Prelude Utf8 Numeric PyText TextFacts IpAddr IpAddrFacts StdNet AwgNet.

Local Open Scope N_scope.

(** ** Addresses *)

Definition octet_agrees (s : string) : bool :=
  match v4_octet s, parse_octet s with
  | Some v, Ok w => v =? w
  | None, Err _ => true
  | _, _ => false
  end.

Lemma octets_agree : short_digits octet_agrees = true.
Proof. vm_compute. reflexivity. Qed.

(** The manager's reader of octets is the installer's. *)
Lemma v4_octet_eq s : v4_octet s = ok (parse_octet s).
Proof.
  destruct (str_empty s) eqn:He; [by destruct s|].
  destruct (forallb_s is_digit s) eqn:Hd; [|by unfold v4_octet, parse_octet; rewrite He, Hd, orb_true_r].
  destruct (3 <? String.length s)%nat eqn:Hl; [by unfold v4_octet, parse_octet; rewrite He, Hd, Hl|].
  assert (Ha : octet_agrees s = true).
  { apply (short_digits_spec _ _ octets_agree); [done|by intros ->|]. by apply Nat.ltb_ge in Hl. }
  unfold octet_agrees in Ha. destruct (v4_octet s) as [v|], (parse_octet s) as [w|e]; try done.
  by apply N.eqb_eq in Ha as ->.
Qed.

Lemma v4_octets_eq text l v : v4_octets l v = ok (ipv4_octets text l v).
Proof.
  revert v. induction l as [|s l IH]; intros v; [done|]. simpl. rewrite v4_octet_eq.
  destruct (parse_octet s) as [w|e]; simpl; [|done]. apply IH.
Qed.

Lemma parse_v4_eq s : parse_v4 s = ok (ipv4_int s).
Proof.
  unfold parse_v4, ipv4_int. destruct (str_empty s) eqn:He; [by destruct s|].
  destruct (length (split_byte dot s) =? 4)%nat; simpl; [|done]. apply v4_octets_eq.
Qed.

Lemma parse_v4_inv s v : parse_v4 s = Some v -> v < 2 ^ 32 /\ s = format_v4 v.
Proof.
  rewrite parse_v4_eq. destruct (ipv4_int s) as [w|] eqn:Hw; [|done]. intros [= ->]. by apply ipv4_int_inv.
Qed.

Lemma parse_format v : v < 2 ^ 32 -> parse_v4 (format_v4 v) = Some v.
Proof. intros Hv. rewrite parse_v4_eq. unfold format_v4. by rewrite ipv4_int_str. Qed.

Lemma format_v4_inj v w : v < 2 ^ 32 -> w < 2 ^ 32 -> format_v4 v = format_v4 w -> v = w.
Proof. intros Hv Hw H. apply parse_format in Hv, Hw. congruence. Qed.

(** ** Masks *)

(** The bits below the prefix. *)
Definition host_bits (n : Ipv4Net) : N := 32 - prefix n.

Lemma below_pow2 a k : a < 2 ^ k -> forall i, k <= i -> N.testbit a i = false.
Proof.
  intros Ha i Hi. destruct (N.eq_dec a 0) as [->|H0]; [apply N.bits_0|].
  apply N.bits_above_log2. apply N.log2_lt_pow2 in Ha; lia.
Qed.

(** What [mask] is for each of the 33 prefixes. *)
Definition mask_facts (p : N) : bool :=
  let n := {| network := 0; prefix := p |} in
  (mask n =? N.ldiff (N.ones 32) (N.ones (32 - p))) && (not32 (mask n) =? N.ones (32 - p))
  && match prefix_from_mask (mask n) with Some q => q =? p | None => false end.

Lemma masks_hold : all_below 33 mask_facts = true.
Proof. vm_compute. reflexivity. Qed.

Lemma mask_prefix n : mask n = mask {| network := 0; prefix := prefix n |}.
Proof. done. Qed.

Lemma mask_spec n : prefix n <= 32 ->
  mask n = N.ldiff (N.ones 32) (N.ones (host_bits n)) /\ not32 (mask n) = N.ones (host_bits n)
  /\ prefix_from_mask (mask n) = Some (prefix n).
Proof.
  intros Hp. assert (Hf : mask_facts (prefix n) = true) by (apply (all_below_spec 33 _ masks_hold); lia).
  unfold mask_facts in Hf. rewrite <-mask_prefix in Hf. apply andb_prop in Hf as [[H1 H2]%andb_prop H3].
  destruct (prefix_from_mask (mask n)) as [q|]; [|done].
  apply N.eqb_eq in H1, H2, H3. by rewrite H3.
Qed.

(** Masking clears the host bits. *)
Lemma land_mask n a : prefix n <= 32 -> a < 2 ^ 32 -> N.land a (mask n) = a / 2 ^ host_bits n * 2 ^ host_bits n.
Proof.
  intros Hp Ha. destruct (mask_spec n Hp) as [-> _].
  rewrite <-N.shiftr_div_pow2, <-N.shiftl_mul_pow2, <-N.ldiff_ones_r.
  apply N.bits_inj. intros i. rewrite N.land_spec, !N.ldiff_spec.
  destruct (N.lt_ge_cases i 32) as [Hi|Hi]; [by rewrite N.ones_spec_low|].
  by rewrite (below_pow2 a 32 Ha i Hi).
Qed.

(** ** Networks as intervals *)

(** A network the readers produce: a prefix of at most 32 bits and no host bit set. *)
Definition net_ok (n : Ipv4Net) : Prop :=
  prefix n <= 32 /\ network n < 2 ^ 32 /\ network n mod 2 ^ host_bits n = 0.

Lemma host_pos n : 0 < 2 ^ host_bits n.
Proof. apply N.neq_0_lt_0, N.pow_nonzero. lia. Qed.

Lemma net_split n : prefix n <= 32 -> 2 ^ prefix n * 2 ^ host_bits n = 2 ^ 32.
Proof. intros Hp. rewrite <-N.pow_add_r. f_equal. unfold host_bits. lia. Qed.

Lemma net_div n : net_ok n -> network n = network n / 2 ^ host_bits n * 2 ^ host_bits n.
Proof.
  intros (_ & _ & Hm). pose proof (host_pos n).
  rewrite (N.div_mod (network n) (2 ^ host_bits n)) at 1 by lia. rewrite Hm. lia.
Qed.

Lemma broadcast_eq n : net_ok n -> broadcast n = network n + (2 ^ host_bits n - 1).
Proof.
  intros (Hp & Hn & Hm). unfold broadcast. destruct (mask_spec n Hp) as (_ & -> & _).
  rewrite N.ones_equiv. pose proof (host_pos n).
  rewrite lor_low with (k := host_bits n); [lia|lia|done].
Qed.

Lemma broadcast_lt n : net_ok n -> broadcast n < 2 ^ 32.
Proof.
  intros H. rewrite broadcast_eq by done. pose proof (net_div n H) as Hd. destruct H as (Hp & Hn & _).
  pose proof (net_split n Hp) as Hs. pose proof (host_pos n). set (k := network n / 2 ^ host_bits n) in *.
  set (u := 2 ^ host_bits n) in *. rewrite Hd in *. rewrite <-Hs in *.
  assert (k < 2 ^ prefix n) by nia. nia.
Qed.

Lemma contains_iff n a : net_ok n -> a < 2 ^ 32 -> contains n a = true <-> network n <= a <= broadcast n.
Proof.
  intros H Ha. rewrite broadcast_eq by done. unfold contains. rewrite N.eqb_eq, land_mask by (apply H || done).
  pose proof (net_div n H) as Hd. pose proof (host_pos n) as Hp.
  pose proof (N.div_mod a (2 ^ host_bits n)) as Hdm. pose proof (N.mod_lt a (2 ^ host_bits n)) as Hlt.
  set (u := 2 ^ host_bits n) in *. set (k := network n / u) in *. split.
  - intros He. lia.
  - intros Hr. assert (a / u = k) as ->; [|lia]. symmetry. apply (N.div_unique a u k (a - k * u)); lia.
Qed.

Lemma net_ends n : net_ok n -> network n <= broadcast n /\ network n < 2 ^ 32 /\ broadcast n < 2 ^ 32.
Proof.
  intros H. split; [rewrite broadcast_eq by done; lia|]. split; [apply H|by apply broadcast_lt].
Qed.

Lemma overlaps_iff n m : net_ok n -> net_ok m ->
  overlaps n m = true <-> network n <= broadcast m /\ network m <= broadcast n.
Proof.
  intros Hn Hm. destruct (net_ends n Hn) as (? & ? & ?), (net_ends m Hm) as (? & ? & ?). unfold overlaps.
  rewrite !orb_true_iff, !contains_iff by done. split; [lia|]. intros H'.
  (* Two overlapping intervals: one contains an end of the other. *)
  lia.
Qed.

Lemma subnet_of_iff n m : subnet_of n m = true <-> network m <= network n /\ broadcast n <= broadcast m.
Proof. unfold subnet_of. rewrite andb_true_iff, !N.leb_le. done. Qed.

(** ** What the readers produce *)

Lemma land_aligned n a : prefix n <= 32 -> a < 2 ^ 32 -> net_ok {| network := N.land a (mask n); prefix := prefix n |}.
Proof.
  intros Hp Ha. unfold net_ok, host_bits. simpl. fold (host_bits n). rewrite land_mask by done.
  pose proof (host_pos n). pose proof (N.div_mod a (2 ^ host_bits n)). split; [done|].
  split; [nia|]. apply N.Div0.mod_mul.
Qed.

Lemma prefix_digits_le s max p : prefix_digits s max = Some p -> p <= max.
Proof.
  unfold prefix_digits. destruct (str_empty s || _); [done|]. destruct (Z.to_N <$> parse_u32 s) as [q|]; [|done].
  destruct (q <=? max) eqn:Hq; [|done]. intros [= ->]. lia.
Qed.

Lemma prefix_from_mask_le m p : prefix_from_mask m = Some p -> p <= 32.
Proof. unfold prefix_from_mask. destruct (_ =? _); [|done]. intros [= <-]. lia. Qed.

(** The whole reader as a relation: the address, the prefix part, the strict check. *)
Lemma parse_v4_network_inv s strict n : parse_v4_network s strict = Some n ->
  exists a, a < 2 ^ 32 /\ prefix n <= 32 /\ network n = N.land a (mask n) /\ (strict = true -> network n = a).
Proof.
  unfold parse_v4_network. destruct (2 <? _)%nat; [done|].
  intros (a & Ha & H)%bind_Some. apply bind_Some in Ha as (t & _ & Ha). apply parse_v4_inv in Ha as [Ha _].
  apply bind_Some in H as (p & Hp & H).
  assert (Hle : p <= 32).
  { destruct (nth_error _ 1) as [raw|]; [|injection Hp as <-; lia].
    destruct (prefix_digits raw 32) as [q|] eqn:Hq; [injection Hp as ->; by apply prefix_digits_le in Hq|].
    apply bind_Some in Hp as (m & _ & Hp).
    destruct (prefix_from_mask m) as [q'|] eqn:Hq'; [injection Hp as ->|]; by eapply prefix_from_mask_le. }
  destruct (strict && _) eqn:Hs; [done|]. injection H as <-. exists a. split; [done|]. split; [done|]. split; [done|].
  intros ->. simpl in *. apply negb_false_iff, N.eqb_eq in Hs. done.
Qed.

Lemma parse_v4_network_ok s strict n : parse_v4_network s strict = Some n -> net_ok n.
Proof.
  intros (a & Ha & Hp & Hn & _)%parse_v4_network_inv. destruct n as [w p]. simpl in Hp, Hn.
  change (mask {| network := w; prefix := p |}) with (mask {| network := 0; prefix := p |}) in Hn. subst w.
  by apply (land_aligned {| network := 0; prefix := p |} a).
Qed.

(** ** The hosts of a network *)

Lemma elem_of_addresses first last a : a ∈ addresses first last <-> first <= a <= last.
Proof.
  unfold addresses. rewrite list_elem_of_In, in_map_iff. setoid_rewrite in_seq. split.
  - intros (i & <- & Hi). lia.
  - intros H. exists (N.to_nat (a - first)). split; lia.
Qed.

Lemma addresses_NoDup first last : NoDup (addresses first last).
Proof.
  unfold addresses. apply NoDup_fmap_2_strong; [|apply NoDup_seq].
  intros x y _ _ H. lia.
Qed.

Lemma hosts_iff n a : net_ok n -> prefix n < 31 -> a ∈ hosts n <-> network n < a < broadcast n.
Proof.
  intros H Hp. unfold hosts. destruct (31 <=? prefix n) eqn:E; [lia|]. rewrite elem_of_addresses.
  pose proof (net_ends n H). lia.
Qed.

Lemma gateway_eq n : net_ok n -> prefix n < 32 -> gateway n = network n + 1.
Proof.
  intros H Hp. unfold gateway. apply N.mod_small. pose proof (broadcast_lt n H) as Hb. rewrite broadcast_eq in Hb by done.
  assert (2 ^ 1 <= 2 ^ host_bits n) by (apply N.pow_le_mono_r; unfold host_bits; lia). simpl in *. lia.
Qed.

(** The first host is the gateway; what is left are the addresses between it and the broadcast. *)
Lemma tail_hosts_iff n a : net_ok n -> prefix n < 31 -> a ∈ tail (hosts n) <-> gateway n < a < broadcast n.
Proof.
  intros H Hp. rewrite gateway_eq by (done || lia). unfold hosts. destruct (31 <=? prefix n) eqn:E; [lia|].
  unfold addresses. pose proof (broadcast_eq n H) as Hb.
  assert (Hk : 2 ^ 2 <= 2 ^ host_bits n) by (apply N.pow_le_mono_r; unfold host_bits; lia). change (2 ^ 2) with 4 in Hk.
  destruct (N.to_nat (broadcast n - 1 + 1 - (network n + 1))) as [|k] eqn:Ek; [lia|].
  rewrite <-cons_seq. simpl tail. rewrite list_elem_of_In, in_map_iff. setoid_rewrite in_seq. split.
  - intros (i & <- & Hi). lia.
  - intros Ha. exists (N.to_nat (a - (network n + 1))). split; lia.
Qed.

(** ** Texts *)

Lemma split_slash_v4 v : split_byte slash (format_v4 v) = [format_v4 v].
Proof.
  unfold format_v4, ipv4_str. apply (split_whole (fun a => is_digit a || Ascii.eqb a dot)); [|done].
  assert (Hc : forall l, forallb_s (fun a => is_digit a || Ascii.eqb a dot) (join "." (map fmt_N l)) = true).
  { assert (Hd : forall n, forallb_s (fun a => is_digit a || Ascii.eqb a dot) (fmt_N n) = true).
    { intros n. apply fmt_N_plain. by intros a ->. }
    assert (Happ : forall f x y, forallb_s f (x +:+ y) = forallb_s f x && forallb_s f y).
    { intros f x y. induction x as [|c x IH]; [done|]. rewrite app_cons_s. cbn [forallb_s]. by rewrite IH, andb_assoc. }
    induction l as [|n [|m l] IH]; [done|apply Hd|]. simpl map. rewrite join_cons2, !Happ, Hd. exact IH. }
  apply Hc.
Qed.

Lemma prefix_digits_fmt p max : p <= max -> max < 2 ^ 32 -> prefix_digits (fmt_N p) max = Some p.
Proof.
  intros Hp Hm. unfold prefix_digits. rewrite fmt_N_digits.
  destruct (fmt_N_cons p) as (a & s & Hf & _). rewrite Hf. cbn [str_empty orb negb]. rewrite <-Hf.
  assert (Hz : parse_u32 (fmt_N p) = Some (Z.of_N p)).
  { pose proof (parse_int_fmt 0 (2 ^ 32 - 1) (Z.of_N p)) as H. unfold fmt_Z in H.
    destruct (Z.of_N p <? 0)%Z eqn:E; [lia|]. rewrite N2Z.id in H. apply H. lia. }
  rewrite Hz. simpl. rewrite N2Z.id. by assert ((p <=? max) = true) as -> by lia.
Qed.

(** A dotted quad is never a prefix length. *)
Lemma prefix_digits_quad v max : prefix_digits (format_v4 v) max = None.
Proof.
  unfold prefix_digits. destruct (str_empty _); [done|].
  assert (forallb_s is_digit (format_v4 v) = false) as ->; [|done].
  destruct (forallb_s is_digit (format_v4 v)) eqn:E; [|done]. exfalso.
  pose proof (contains_none is_digit dot _ E eq_refl) as Hn. unfold format_v4, ipv4_str in Hn.
  assert (Hdot : forall x y, contains_s (String dot EmptyString) (x +:+ ("." +:+ y)) = true).
  { intros x y. change ("." +:+ y) with (String dot y). induction x as [|a x IH]; [simpl; by destruct (Ascii.ascii_dec dot dot), y|].
    rewrite app_cons_s. simpl. rewrite IH. by rewrite orb_true_r. }
  unfold be_bytes in Hn. cbn [map] in Hn. rewrite join_cons2 in Hn. by rewrite Hdot in Hn.
Qed.

(** The network written with a suffix that reads as its prefix is read back. *)
Lemma read_suffixed n suffix strict : net_ok n -> split_byte slash suffix = [suffix] ->
  (match prefix_digits suffix 32 with
   | Some p => Some p
   | None => parse_v4 suffix ≫= fun m => match prefix_from_mask m with Some p => Some p | None => prefix_from_mask (not32 m) end
   end) = Some (prefix n) ->
  ip_network (format_v4 (network n) +:+ "/" +:+ suffix) strict = Some (V4 n).
Proof.
  intros H Hsp Hpre. unfold ip_network, parse_v4_network. change ("/" +:+ suffix) with (String slash suffix).
  rewrite split_app, split_slash_v4, Hsp. cbn [app length Nat.ltb Nat.leb head nth_error].
  rewrite Hpre. cbn [mbind option_bind]. rewrite parse_format by apply H. cbn [mbind option_bind].
  assert (Hl : N.land (network n) (mask n) = network n).
  { rewrite land_mask by apply H. symmetry. by apply net_div. }
  destruct n as [w p]. simpl in *.
  rewrite Hl, N.eqb_refl, andb_false_r. done.
Qed.

Lemma mask_lt n : prefix n <= 32 -> mask n < 2 ^ 32 /\ not32 (mask n) < 2 ^ 32.
Proof.
  intros Hp. split.
  - unfold mask. destruct (prefix n =? 0); [lia|]. apply N.mod_lt. lia.
  - destruct (mask_spec n Hp) as (_ & -> & _). rewrite N.ones_equiv.
    assert (2 ^ host_bits n <= 2 ^ 32) by (apply N.pow_le_mono_r; unfold host_bits; lia). pose proof (host_pos n). lia.
Qed.

Lemma not32_involutive m : not32 (not32 m) = m.
Proof. unfold not32. rewrite N.lxor_assoc, N.lxor_nilpotent. apply N.lxor_0_r. Qed.

Lemma hostmask_prefix :
  all_below 33 (fun p => (p =? 0) || (p =? 32) ||
    match prefix_from_mask (not32 (mask {| network := 0; prefix := p |})) with None => true | Some _ => false end) = true.
Proof. vm_compute. reflexivity. Qed.

Lemma ip_network_ok s strict n : ip_network s strict = Some (V4 n) -> net_ok n.
Proof.
  unfold ip_network. destruct (parse_v4_network s strict) as [m|] eqn:Hm.
  - intros [= <-]. by eapply parse_v4_network_ok.
  - by destruct (parse_v6_network s strict).
Qed.

(** ** Properties *)

(** The bit tricks on networks are set operations: for networks the reader accepted, membership is
    the interval from the network address to the broadcast address, [overlaps] holds exactly when some
    address is in both, and [subnet_of] exactly when every address of one is in the other. *)
Theorem network_semantics (s t : string) (strict strict' : bool) (n m : Ipv4Net)
  (Hn : ip_network s strict = Some (V4 n)) (Hm : ip_network t strict' = Some (V4 m)) :
  (forall a, a < 2 ^ 32 -> contains n a = true <-> network n <= a <= broadcast n)
  /\ (overlaps n m = true <-> exists a, a < 2 ^ 32 /\ contains n a = true /\ contains m a = true)
  /\ (subnet_of n m = true <-> forall a, a < 2 ^ 32 -> contains n a = true -> contains m a = true).
Proof.
  apply ip_network_ok in Hn, Hm. pose proof (net_ends n Hn) as (? & ? & ?). pose proof (net_ends m Hm) as (? & ? & ?).
  split; [intros a Ha; by apply contains_iff|]. split.
  - rewrite overlaps_iff by done. split.
    + intros H'. exists (N.max (network n) (network m)). rewrite !contains_iff by (done || lia). lia.
    + intros (a & Ha & Hna & Hma). apply contains_iff in Hna, Hma; [lia|done..].
  - rewrite subnet_of_iff. split.
    + intros H' a Ha. rewrite !contains_iff by done. lia.
    + intros Hall. pose proof (Hall (network n)) as Hlo. pose proof (Hall (broadcast n)) as Hhi.
      rewrite !contains_iff in Hlo, Hhi by done. lia.
Qed.

Lemma network_semantics_witness :
  let n := {| network := 0x0a420f00; prefix := 24 |} in
  (overlaps n n = true <-> exists a, a < 2 ^ 32 /\ contains n a = true /\ contains n a = true).
Proof.
  intros n. apply (network_semantics "10.66.15.0/24" "10.66.15.0/255.255.255.0" true true n n); vm_compute; reflexivity.
Defined.

(** A network is read back from each of its notations, strict or not: the text the manager writes
    (address and prefix length), address and netmask, and, but for the two prefixes whose hostmask is
    also a netmask, address and hostmask. *)
Theorem network_notations (s : string) (strict strict' : bool) (n : Ipv4Net)
  (Hn : ip_network s strict = Some (V4 n)) :
  ip_network (net_str n) strict' = Some (V4 n)
  /\ ip_network (format_v4 (network n) +:+ "/" +:+ format_v4 (mask n)) strict' = Some (V4 n)
  /\ (0 < prefix n -> prefix n < 32 ->
      ip_network (format_v4 (network n) +:+ "/" +:+ format_v4 (not32 (mask n))) strict' = Some (V4 n)).
Proof.
  apply ip_network_ok in Hn. pose proof Hn as (Hp & _ & _). destruct (mask_lt n Hp) as [Hm Hi].
  destruct (mask_spec n Hp) as (_ & _ & Hpre). split; [|split].
  - unfold net_str. apply read_suffixed; [done|by apply split_fmt_N|]. by rewrite prefix_digits_fmt.
  - apply read_suffixed; [done|apply split_slash_v4|].
    rewrite prefix_digits_quad, parse_format by done. simpl. by rewrite Hpre.
  - intros H0 H32. apply read_suffixed; [done|apply split_slash_v4|].
    rewrite prefix_digits_quad, parse_format by done. simpl.
    assert (Hh := all_below_spec 33 _ hostmask_prefix (prefix n) ltac:(lia)). cbv beta in Hh.
    rewrite <-mask_prefix in Hh. destruct (prefix n =? 0) eqn:E0; [lia|]. destruct (prefix n =? 32) eqn:E32; [lia|].
    destruct (prefix_from_mask (not32 (mask n))); [done|]. by rewrite not32_involutive, Hpre.
Qed.

Lemma network_notations_witness :
  ip_network "10.66.20.0/255.255.255.240" false = Some (V4 {| network := 0x0a421400; prefix := 28 |}).
Proof.
  refine (proj1 (proj2 (network_notations "10.66.20.5/28" false false {| network := 0x0a421400; prefix := 28 |} _))).
  vm_compute. reflexivity.
Defined.
