(* ===== verification/Difflib.v ===== *)
(** * Line diffs

    [panel/crates/routing/src/difflib.rs]: Python's [SequenceMatcher] with its heuristic for popular
    lines, and the changed lines of a unified diff without context. A slice index is a [nat]; a line
    read past the end, which would panic, is the empty line ([opcodes_tile] shows none is). *)

From stdpp Require Import gmap.
From S2P Require Import Prelude.

Abbreviation lines := (list string).
Definition line_at (l : lines) (i : nat) : string := nth i l EmptyString.

(** A triple [(i, j, size)]: [a[i..i+size]] is [b[j..j+size]]. *)
Abbreviation Block := (nat * nat * nat)%type.

Record Matcher := { m_a : lines; m_b : lines; b2j : gmap string (list nat) }.

Module Matcher.

(** [b2j.entry(line).or_default().push(index)]. *)
Definition push (line : string) (index : nat) (m : gmap string (list nat)) : gmap string (list nat) :=
  <[line := default [] (m !! line) ++ [index]]> m.

Fixpoint index_lines (index : nat) (l : lines) (m : gmap string (list nat)) : gmap string (list nat) :=
  match l with
  | [] => m
  | line :: l' => index_lines (S index) l' (push line index m)
  end.

Definition new (a b : lines) : Matcher :=
  let all := index_lines 0 b ∅ in
  {| m_a := a; m_b := b;
     b2j := if (200 <=? length b)%nat
            then let limit := (length b / 100 + 1)%nat in
                 base.filter (fun e : string * list nat => (length e.2 <=? limit)%nat = true) all
            else all |}.

Section find.
Context (m : Matcher) (alo ahi blo bhi : nat).

(** The inner loop: the candidates [j] for line [i], the best block so far and the row of lengths. *)
Fixpoint scan (i : nat) (j2len : gmap nat nat) (js : list nat) (best : Block) (next : gmap nat nat) :
    Block * gmap nat nat :=
  match js with
  | [] => (best, next)
  | j :: js' =>
      if (j <? blo)%nat then scan i j2len js' best next
      else if (bhi <=? j)%nat then (best, next)
      else
        let k := ((match j with O => 0 | S p => default 0 (j2len !! p) end) + 1)%nat in
        let next := <[j := k]> next in
        let '(besti, bestj, bestsize) := best in
        scan i j2len js' (if (bestsize <? k)%nat then (i + 1 - k, j + 1 - k, k)%nat else best) next
  end.

Definition row (st : Block * gmap nat nat) (i : nat) : Block * gmap nat nat :=
  let '(best, j2len) := st in
  scan i j2len (default [] (b2j m !! line_at (m_a m) i)) best ∅.

Definition same (i j : nat) : bool := line_at (m_a m) i =?s line_at (m_b m) j.

(** The two extension loops; the first argument bounds the steps that are left. *)
Fixpoint extend_back (steps : nat) (besti bestj bestsize : nat) : Block :=
  match steps with
  | O => (besti, bestj, bestsize)
  | S n =>
      if (alo <? besti)%nat && (blo <? bestj)%nat && same (besti - 1) (bestj - 1)
      then extend_back n (besti - 1) (bestj - 1) (bestsize + 1)
      else (besti, bestj, bestsize)
  end.

Fixpoint extend_on (steps : nat) (besti bestj bestsize : nat) : Block :=
  match steps with
  | O => (besti, bestj, bestsize)
  | S n =>
      if (besti + bestsize <? ahi)%nat && (bestj + bestsize <? bhi)%nat && same (besti + bestsize) (bestj + bestsize)
      then extend_on n besti bestj (bestsize + 1)
      else (besti, bestj, bestsize)
  end.

Definition find_longest_match : Block :=
  let '((besti, bestj, bestsize), _) := fold_left row (seq alo (ahi - alo)) ((alo, blo, 0), ∅) in
  let '(besti, bestj, bestsize) := extend_back besti besti bestj bestsize in
  extend_on ahi besti bestj bestsize.
End find.

(** The [while let Some(..) = queue.pop()] loop. *)
Fixpoint drain (fuel : nat) (m : Matcher) (queue : list (nat * nat * nat * nat)) (blocks : list Block) : option (list Block) :=
  match queue with
  | [] => Some blocks
  | (alo, ahi, blo, bhi) :: queue =>
      match fuel with
      | O => None
      | S fuel =>
          let '(i, j, k) := find_longest_match m alo ahi blo bhi in
          if (0 <? k)%nat then
            let queue := if (alo <? i)%nat && (blo <? j)%nat then (alo, i, blo, j) :: queue else queue in
            let queue := if (i + k <? ahi)%nat && (j + k <? bhi)%nat then (i + k, ahi, j + k, bhi)%nat :: queue else queue in
            drain fuel m queue (blocks ++ [(i, j, k)])
          else drain fuel m queue blocks
      end
  end.

(** The order of [blocks.sort()]. *)
Definition block_le (x y : Block) : Prop :=
  let '(i, j, k) := x in let '(i', j', k') := y in
  (i < i' \/ (i = i' /\ (j < j' \/ (j = j' /\ k <= k'))))%nat.
#[export] Instance block_le_dec x y : Decision (block_le x y).
Proof. destruct x as [[i j] k], y as [[i' j'] k']. unfold block_le. apply _. Defined.

(** Adjacent blocks become one. *)
Fixpoint merge_blocks (cur : Block) (blocks merged : list Block) : list Block :=
  let '(i1, j1, k1) := cur in
  match blocks with
  | [] => if (0 <? k1)%nat then merged ++ [cur] else merged
  | (i2, j2, k2) :: blocks =>
      if (i1 + k1 =? i2)%nat && (j1 + k1 =? j2)%nat then merge_blocks (i1, j1, (k1 + k2)%nat) blocks merged
      else merge_blocks (i2, j2, k2) blocks (if (0 <? k1)%nat then merged ++ [cur] else merged)
  end.

(** Every turn of the loop consumes a line of [a] or an entry ([drain_enough]). *)
Definition matching_blocks (m : Matcher) : option (list Block) :=
  let la := length (m_a m) in let lb := length (m_b m) in
  blocks ← drain (2 * la + 1) m [(0, la, 0, lb)%nat] [];
  Some (merge_blocks (0, 0, 0)%nat (merge_sort block_le blocks) [] ++ [(la, lb, 0)%nat]).

Inductive Tag := Replace | Delete | Insert | Equal.

(** [(tag, i1, i2, j1, j2)]. *)
Abbreviation Opcode := (Tag * nat * nat * nat * nat)%type.

Fixpoint opcodes_from (i j : nat) (blocks : list Block) : list Opcode :=
  match blocks with
  | [] => []
  | (ai, bj, size) :: blocks =>
      let tag := if (i <? ai)%nat && (j <? bj)%nat then Some Replace
                 else if (i <? ai)%nat then Some Delete
                 else if (j <? bj)%nat then Some Insert else None in
      match tag with Some t => [(t, i, ai, j, bj)] | None => [] end ++
      (if (0 <? size)%nat then [(Equal, ai, ai + size, bj, bj + size)%nat] else []) ++
      opcodes_from (ai + size) (bj + size) blocks
  end.

Definition opcodes (m : Matcher) : option (list Opcode) := opcodes_from 0 0 <$> matching_blocks m.
End Matcher.

(** [l[i..j]]. *)
Definition slice {A} (l : list A) (i j : nat) : list A := take (j - i) (drop i l).

Definition opcode_lines (a b : lines) (op : Matcher.Opcode) : lines :=
  let '(tag, i1, i2, j1, j2) := op in
  match tag with
  | Matcher.Replace => map (String.append "-") (slice a i1 i2) ++ map (String.append "+") (slice b j1 j2)
  | Matcher.Delete => map (String.append "-") (slice a i1 i2)
  | Matcher.Insert => map (String.append "+") (slice b j1 j2)
  | Matcher.Equal => []
  end.

Definition header_line (line : string) : bool :=
  String.prefix "---" line || String.prefix "+++" line || String.prefix "@@" line.

Definition changed_lines (a b : lines) : option lines :=
  ops ← Matcher.opcodes (Matcher.new a b);
  Some (List.filter (fun line => negb (header_line line)) (concat (map (opcode_lines a b) ops))).

Example changed_lines_tests :
  map (fun ab => changed_lines ab.1 ab.2)
    [(["x"; "a"; "b"], ["a"; "c"; "b"; "d"]); (["a"; "b"], ["c"]); (["--x"], []); (["same"], ["same"])] =
  [Some ["-x"; "+c"; "+d"]; Some ["-a"; "-b"; "+c"]; Some []; Some []].
Proof. vm_compute. reflexivity. Qed.
