(* ===== verification/DifflibFacts.v ===== *)
(** * Line diffs are edit scripts

    Whatever the heuristics choose, the opcodes of [Difflib] tile both documents, so that they turn the
    one into the other; two equal documents have no changed line. *)

From stdpp Require Import gmap.
From S2P Require Import Prelude Difflib.

Import Matcher.
Local Open Scope nat_scope.

(** ** The candidates of a line *)

Fixpoint pos (index : nat) (line : string) (l : lines) : list nat :=
  match l with
  | [] => []
  | x :: l' => if x =?s line then index :: pos (S index) line l' else pos (S index) line l'
  end.

Lemma index_lines_lookup l index m line :
  default [] (index_lines index l m !! line) = default [] (m !! line) ++ pos index line l.
Proof.
  revert index m. induction l as [|x l IH]; intros index m; simpl; [by rewrite app_nil_r|].
  rewrite IH. unfold push. destruct (x =?s line) eqn:Hx.
  - apply eqb_s_true in Hx as ->. rewrite lookup_insert_eq. simpl. by rewrite <-app_assoc.
  - apply eqb_s_false in Hx. by rewrite lookup_insert_ne.
Qed.

Lemma elem_of_pos l index line j :
  j ∈ pos index line l <-> index <= j < index + length l /\ line_at l (j - index) = line.
Proof.
  revert index. induction l as [|x l IH]; intros index; simpl.
  - split; [by intros ?%not_elem_of_nil|lia].
  - assert (Hs : j ∈ pos (S index) line l <-> S index <= j < index + S (length l) /\ line_at (x :: l) (j - index) = line).
    { rewrite IH. replace (S index + length l) with (index + S (length l)) by lia.
      split; intros [Hj Hl]; (split; [lia|]); replace (j - index) with (S (j - S index)) in * by lia; done. }
    destruct (x =?s line) eqn:Hx; rewrite ?elem_of_cons, Hs.
    + apply eqb_s_true in Hx. split.
      * intros [->|[? ?]]; [|split; [lia|done]]. rewrite Nat.sub_diag. split; [lia|done].
      * intros [Hj Hl]. destruct (decide (j = index)); [by left|right; split; [lia|done]].
    + apply eqb_s_false in Hx. split; [intros [? ?]; split; [lia|done]|].
      intros [Hj Hl]. split; [|done]. destruct (decide (j = index)) as [->|]; [|lia].
      rewrite Nat.sub_diag in Hl. done.
Qed.

Lemma pos_sorted l index line : StronglySorted lt (pos index line l).
Proof.
  revert index. induction l as [|x l IH]; intros index; simpl; [constructor|].
  destruct (x =?s line); [|apply IH]. constructor; [apply IH|].
  apply Forall_forall. intros j Hj%elem_of_pos. lia.
Qed.

Definition cands (m : Matcher) (line : string) : list nat := default [] (b2j m !! line).

(** A popular line has no candidates, any other all its positions. *)
Lemma cands_new a b line : cands (new a b) line = [] \/ cands (new a b) line = pos 0 line b.
Proof.
  unfold cands. pose proof (index_lines_lookup b 0 ∅ line) as Hl. rewrite lookup_empty in Hl. simpl in Hl.
  cbv beta iota zeta delta [new b2j]. destruct (200 <=? length b); [|by right].
  match goal with |- context [base.filter ?P _ !! _] => set (Q := P) end.
  destruct (base.filter Q (index_lines 0 b ∅) !! line) as [js|] eqn:Hf; [right|by left].
  apply map_lookup_filter_Some in Hf as [Hf _]. by rewrite Hf in Hl.
Qed.

(** ** The longest match is a match *)

Section match_ok.
Context (m : Matcher).
Context (Hcands : forall line j, j ∈ cands m line -> line_at (m_b m) j = line).

Definition common (i j k : nat) : Prop := forall t, t < k -> line_at (m_a m) (i + t) = line_at (m_b m) (j + t).

Definition in_range (alo ahi blo bhi : nat) (bl : Block) : Prop :=
  let '(i, j, k) := bl in alo <= i /\ i + k <= ahi /\ blo <= j /\ j + k <= bhi /\ common i j k.

(** The lengths of the matches that end at line [e] of [a] and after line [j] of [b]. *)
Definition row_ok (alo blo bhi e : nat) (r : gmap nat nat) : Prop :=
  forall j k, r !! j = Some k -> blo <= j < bhi /\ k <= e - alo /\ k <= j + 1 - blo /\ common (e - k) (j + 1 - k) k.

Lemma scan_ok alo ahi blo bhi i j2len js best next :
  alo <= i < ahi -> row_ok alo blo bhi i j2len -> (forall j, j ∈ js -> line_at (m_b m) j = line_at (m_a m) i) ->
  row_ok alo blo bhi (i + 1) next -> in_range alo ahi blo bhi best ->
  let r := scan blo bhi i j2len js best next in
  in_range alo ahi blo bhi r.1 /\ row_ok alo blo bhi (i + 1) r.2.
Proof.
  intros Hi Hrow. revert best next. induction js as [|j js IH]; intros best next Hjs Hnext Hbest; simpl; [done|].
  assert (Hj : line_at (m_b m) j = line_at (m_a m) i) by (apply Hjs; by left).
  assert (Hjs' : forall j, j ∈ js -> line_at (m_b m) j = line_at (m_a m) i) by (intros; apply Hjs; by right).
  destruct (j <? blo) eqn:Hlo; [by apply IH|]. destruct (bhi <=? j) eqn:Hhi; [done|].
  assert (Hhere : forall x y, x = i -> y = j -> line_at (m_a m) x = line_at (m_b m) y) by (by intros ? ? -> ->).
  set (prev := match j with O => 0 | S p => default 0 (j2len !! p) end).
  assert (Hk : prev + 1 <= i + 1 - alo /\ prev + 1 <= j + 1 - blo /\ common (i + 1 - (prev + 1)) (j + 1 - (prev + 1)) (prev + 1)).
  { subst prev. destruct j as [|p].
    - repeat split; [lia|lia|]. intros t Ht. apply Hhere; lia.
    - destruct (j2len !! p) as [k|] eqn:Hp; simpl.
      + apply Hrow in Hp as (Hr & Hk1 & Hk2 & Hc). repeat split; [lia|lia|].
        intros t Ht. destruct (decide (t = k)) as [->|]; [apply Hhere; lia|].
        specialize (Hc t ltac:(lia)). replace (i + 1 - (k + 1) + t) with (i - k + t) by lia.
        rewrite Hc. f_equal. lia.
      + repeat split; [lia|lia|]. intros t Ht. apply Hhere; lia. }
  destruct Hk as (Hk1 & Hk2 & Hc). destruct best as [[besti bestj] bestsize]. apply IH; [done| |].
  - intros j' k' [[<- <-]|[Hne Hl]]%lookup_insert_Some; [|by apply Hnext]. repeat split; [lia..|exact Hc].
  - destruct (bestsize <? prev + 1); [|done]. simpl. repeat split; [lia..|exact Hc].
Qed.

Lemma rows_ok alo ahi blo bhi n i st :
  alo <= i -> i + n <= ahi -> in_range alo ahi blo bhi st.1 -> row_ok alo blo bhi i st.2 ->
  in_range alo ahi blo bhi (fold_left (row m blo bhi) (seq i n) st).1.
Proof.
  revert i st. induction n as [|n IH]; intros i st Hlo Hhi Hb Hr; [done|]. simpl. destruct st as [best j2len].
  simpl in *. destruct (scan_ok alo ahi blo bhi i j2len (cands m (line_at (m_a m) i)) best ∅) as [H1 H2].
  - lia.
  - done.
  - intros j Hj. by apply Hcands.
  - intros j k. by rewrite lookup_empty.
  - done.
  - apply IH; [lia|lia|done|]. by rewrite <-Nat.add_1_r.
Qed.

Lemma extend_back_ok alo ahi blo bhi n i j k :
  in_range alo ahi blo bhi (i, j, k) ->
  let '(i', j', k') := extend_back m alo blo n i j k in in_range alo ahi blo bhi (i', j', k') /\ k <= k'.
Proof.
  revert i j k. induction n as [|n IH]; intros i j k H; simpl; [by split|].
  destruct ((alo <? i) && (blo <? j) && same m (i - 1) (j - 1)) eqn:E; [|by split].
  apply andb_prop in E as [[Hi Hj]%andb_prop Hs]. apply Nat.ltb_lt in Hi, Hj. apply eqb_s_true in Hs.
  assert (Hn : in_range alo ahi blo bhi (i - 1, j - 1, k + 1)).
  { destruct H as (? & ? & ? & ? & Hc). simpl. repeat split; [lia..|]. intros [|t] Ht; [by rewrite !Nat.add_0_r|].
    specialize (Hc t ltac:(lia)). replace (i - 1 + S t) with (i + t) by lia. by replace (j - 1 + S t) with (j + t) by lia. }
  specialize (IH _ _ _ Hn). destruct (extend_back m alo blo n (i - 1) (j - 1) (k + 1)) as [[i' j'] k'].
  destruct IH. split; [done|lia].
Qed.

Lemma extend_on_ok alo ahi blo bhi n i j k :
  in_range alo ahi blo bhi (i, j, k) ->
  let '(i', j', k') := extend_on m ahi bhi n i j k in in_range alo ahi blo bhi (i', j', k') /\ k <= k'.
Proof.
  revert k. induction n as [|n IH]; intros k H; simpl; [by split|].
  destruct ((i + k <? ahi) && (j + k <? bhi) && same m (i + k) (j + k)) eqn:E; [|by split].
  apply andb_prop in E as [[Hi Hj]%andb_prop Hs]. apply Nat.ltb_lt in Hi, Hj. apply eqb_s_true in Hs.
  assert (Hn : in_range alo ahi blo bhi (i, j, k + 1)).
  { destruct H as (? & ? & ? & ? & Hc). simpl. repeat split; [lia..|]. intros t Ht.
    destruct (decide (t = k)) as [->|]; [done|apply Hc; lia]. }
  specialize (IH _ Hn). destruct (extend_on m ahi bhi n i j (k + 1)) as [[i' j'] k'].
  destruct IH. split; [done|lia].
Qed.

Lemma find_ok alo ahi blo bhi :
  alo <= ahi -> blo <= bhi -> in_range alo ahi blo bhi (find_longest_match m alo ahi blo bhi).
Proof.
  intros Ha Hb. unfold find_longest_match.
  assert (H0 : in_range alo ahi blo bhi (alo, blo, 0)) by (simpl; repeat split; [lia..|intros t Ht; lia]).
  pose proof (rows_ok alo ahi blo bhi (ahi - alo) alo ((alo, blo, 0), ∅)) as H. simpl in H.
  specialize (H ltac:(lia) ltac:(lia) H0 ltac:(intros j k; by rewrite lookup_empty)).
  destruct (fold_left _ _ _) as [[[i j] k] r]. simpl in H.
  pose proof (extend_back_ok alo ahi blo bhi i i j k H) as Hbk. destruct (extend_back _ _ _ _ _ _ _) as [[i1 j1] k1].
  destruct Hbk as [Hbk _]. pose proof (extend_on_ok alo ahi blo bhi ahi i1 j1 k1 Hbk) as Hon.
  destruct (extend_on _ _ _ _ _ _ _) as [[i2 j2] k2]. by destruct Hon.
Qed.
End match_ok.

(** ** Rectangles that do not cross *)

Abbreviation Rect := (nat * nat * nat * nat)%type.
Definition of_block (x : Block) : Rect := let '(i, j, k) := x in (i, i + k, j, j + k).

Definition before (r s : Rect) : Prop :=
  let '(_, ahi, _, bhi) := r in let '(alo, _, blo, _) := s in ahi <= alo /\ bhi <= blo.
Definition sep (r s : Rect) : Prop := before r s \/ before s r.
Definition inside (r s : Rect) : Prop :=
  let '(alo, ahi, blo, bhi) := r in let '(alo', ahi', blo', bhi') := s in
  alo' <= alo /\ ahi <= ahi' /\ blo' <= blo /\ bhi <= bhi'.

Fixpoint apart (l : list Rect) : Prop :=
  match l with [] => True | r :: l' => Forall (sep r) l' /\ apart l' end.

Lemma sep_sym r s : sep r s -> sep s r.
Proof. unfold sep. tauto. Qed.

Lemma sep_inside r r' s : inside r' r -> sep r s -> sep r' s.
Proof. destruct r as [[[? ?] ?] ?], r' as [[[? ?] ?] ?], s as [[[? ?] ?] ?]. unfold sep, before, inside. lia. Qed.

#[export] Instance apart_perm : Proper ((≡ₚ) ==> iff) apart.
Proof.
  assert (H : forall l k, l ≡ₚ k -> apart l -> apart k).
  { induction 1 as [|r l k Hp IH|r s l|]; simpl; [done| | |tauto].
    - intros [Hr Hl]. split; [|by apply IH].
      rewrite Forall_forall in Hr |- *. intros x Hx. apply Hr. by rewrite Hp.
    - rewrite !Forall_cons. intros [[Hs Hr] [Hs' Hl]]. pose proof (sep_sym _ _ Hs). tauto. }
  intros l k Hp. split; apply H; [done|by symmetry].
Qed.

Lemma apart_app l k : apart l -> apart k -> Forall (fun r => Forall (sep r) k) l -> apart (l ++ k).
Proof.
  induction l as [|r l IH]; simpl; [done|]. intros [Hr Hl] Hk [Hrk Hlk]%Forall_cons.
  split; [by apply Forall_app|by apply IH].
Qed.

(** A rectangle may be replaced by separate parts of it. *)
Lemma apart_replace r X L : apart (r :: L) -> Forall (fun x => inside x r) X -> apart X -> apart (X ++ L).
Proof.
  simpl. intros [Hr HL] HX Hap. apply apart_app; [done..|].
  eapply Forall_impl; [exact HX|]. intros x Hx. simpl. eapply Forall_impl; [exact Hr|].
  intros s Hs. by apply (sep_inside r).
Qed.

(** ** The queue of [matching_blocks] *)

Section drain_ok.
Context (m : Matcher).
Context (Hcands : forall line j, j ∈ cands m line -> line_at (m_b m) j = line).

Abbreviation la := (length (m_a m)).
Abbreviation lb := (length (m_b m)).

Definition rect_ok (r : Rect) : Prop :=
  let '(alo, ahi, blo, bhi) := r in alo <= ahi <= la /\ blo <= bhi <= lb.
Definition block_ok (x : Block) : Prop :=
  let '(i, j, k) := x in 0 < k /\ i + k <= la /\ j + k <= lb /\ common m i j k.

Fixpoint weight (queue : list Rect) : nat :=
  match queue with [] => 0 | (alo, ahi, _, _) :: queue => 2 * (ahi - alo) + 1 + weight queue end.

Lemma weight_app l k : weight (l ++ k) = weight l + weight k.
Proof. induction l as [|[[[? ?] ?] ?] l IH]; simpl; [done|]. rewrite IH. lia. Qed.

Lemma drain_enough fuel queue blocks :
  weight queue <= fuel -> Forall rect_ok queue -> Forall block_ok blocks -> apart (queue ++ map of_block blocks) ->
  exists bl, drain fuel m queue blocks = Some bl /\ Forall block_ok bl /\ apart (map of_block bl).
Proof.
  revert queue blocks. induction fuel as [|fuel IH]; intros [|r queue] blocks Hw Hq Hb Hap; simpl; try (by eexists).
  - destruct r as [[[alo ahi] blo] bhi]. simpl in Hw. lia.
  - destruct r as [[[alo ahi] blo] bhi]. apply Forall_cons in Hq as [Hr Hq].
    destruct Hr as [Ha Hb']. pose proof (find_ok m Hcands alo ahi blo bhi ltac:(lia) ltac:(lia)) as Hf.
    destruct (find_longest_match m alo ahi blo bhi) as [[i j] k]. destruct Hf as (H1 & H2 & H3 & H4 & Hc).
    simpl in Hw.
    destruct (0 <? k) eqn:Hk; [|apply IH; [lia|done|done|by destruct Hap]]. apply Nat.ltb_lt in Hk.
    set (left := if (alo <? i) && (blo <? j) then [(alo, i, blo, j)] else []).
    set (right := if (i + k <? ahi) && (j + k <? bhi) then [(i + k, ahi, j + k, bhi)] else []).
    assert (Hqueue : forall Q, (if (i + k <? ahi) && (j + k <? bhi) then (i + k, ahi, j + k, bhi)
        :: (if (alo <? i) && (blo <? j) then (alo, i, blo, j) :: Q else Q)
        else if (alo <? i) && (blo <? j) then (alo, i, blo, j) :: Q else Q) = right ++ left ++ Q).
    { intros Q. subst left right. by destruct (_ && _), (_ && _). }
    rewrite Hqueue. clear Hqueue. apply IH.
    + rewrite !weight_app.
      subst left right. destruct ((alo <? i) && _), ((i + k <? ahi) && _); simpl; lia.
    + apply Forall_app. split; [|apply Forall_app; split; [|done]]; subst left right;
        (destruct (_ && _); [apply Forall_singleton; simpl; lia|done]).
    + apply Forall_app. split; [done|]. apply Forall_singleton. simpl. repeat split; [lia..|done].
    + assert (Hp : (right ++ left ++ queue) ++ map of_block (blocks ++ [(i, j, k)])
                   ≡ₚ (right ++ left ++ [of_block (i, j, k)]) ++ (queue ++ map of_block blocks)).
      { rewrite map_app. simpl. solve_Permutation. }
      rewrite Hp. eapply apart_replace; [exact Hap| |].
      * subst left right. destruct ((alo <? i) && _), ((i + k <? ahi) && _); simpl; rewrite ?Forall_cons, ?Forall_nil; simpl; lia.
      * subst left right. destruct ((alo <? i) && _), ((i + k <? ahi) && _); simpl; rewrite ?Forall_cons, ?Forall_nil;
          unfold sep, before, of_block; lia.
Qed.
End drain_ok.

(** ** Blocks in order *)

#[export] Instance block_le_total : Total block_le.
Proof. intros [[i j] k] [[i' j'] k']. unfold block_le. lia. Qed.
#[export] Instance block_le_trans : Transitive block_le.
Proof. intros [[i j] k] [[i' j'] k'] [[i'' j''] k'']. unfold block_le. lia. Qed.

Section chain.
Context (m : Matcher).

(** Common blocks one after the other in both documents, from lines [i] and [j] on. *)
Fixpoint chain (i j : nat) (l : list Block) : Prop :=
  match l with
  | [] => i <= length (m_a m) /\ j <= length (m_b m)
  | (ai, bj, k) :: l' => i <= ai /\ j <= bj /\ common m ai bj k /\ chain (ai + k) (bj + k) l'
  end.

Lemma chain_bound i j l : chain i j l -> i <= length (m_a m) /\ j <= length (m_b m).
Proof.
  revert i j. induction l as [|[[ai bj] k] l IH]; intros i j; simpl; [done|].
  intros (? & ? & _ & H). apply IH in H. lia.
Qed.

Lemma chain_weaken i j i' j' l : i' <= i -> j' <= j -> chain i j l -> chain i' j' l.
Proof. destruct l as [|[[ai bj] k] l]; simpl; intros ? ?; [lia|]. intros (? & ? & ? & ?). repeat split; try lia; done. Qed.

(** Separate blocks in the order of [sort] follow each other. *)
Lemma sorted_chain l i j :
  StronglySorted block_le l -> Forall (block_ok m) l -> apart (map of_block l) ->
  Forall (fun x => let '(ai, bj, _) := x in i <= ai /\ j <= bj) l ->
  i <= length (m_a m) -> j <= length (m_b m) -> chain i j l.
Proof.
  revert i j. induction l as [|[[ai bj] k] l IH]; intros i j Hs Hok Hap Hlo Hi Hj; simpl; [done|].
  inversion Hs as [|? ? Hs' Hle]; subst. apply Forall_cons in Hok as [(Hk & Ha & Hb & Hc) Hok].
  apply Forall_cons in Hlo as [[Hlo1 Hlo2] Hlo]. simpl in Hap. destruct Hap as [Hsep Hap].
  repeat split; [lia|lia|done|]. apply IH; try done; try lia.
  apply Forall_forall. intros [[i' j'] k'] Hx. rewrite Forall_forall in Hle, Hok.
  specialize (Hle _ Hx). specialize (Hok _ Hx).
  assert (Hsx : sep (of_block (ai, bj, k)) (of_block (i', j', k'))).
  { rewrite Forall_forall in Hsep. apply Hsep. by apply list_elem_of_fmap_2. }
  unfold block_le in Hle. destruct Hok as (? & _). unfold sep, before in Hsx. simpl in Hsx. lia.
Qed.

Lemma common_join i j k k' : common m i j k -> common m (i + k) (j + k) k' -> common m i j (k + k').
Proof.
  intros H1 H2 t Ht. destruct (decide (t < k)); [by apply H1|]. specialize (H2 (t - k) ltac:(lia)).
  replace (i + k + (t - k)) with (i + t) in H2 by lia. by replace (j + k + (t - k)) with (j + t) in H2 by lia.
Qed.

(** [merge_blocks] without its accumulator. *)
Fixpoint merged (cur : Block) (blocks : list Block) : list Block :=
  let '(i1, j1, k1) := cur in
  let here := if 0 <? k1 then [cur] else [] in
  match blocks with
  | [] => here
  | (i2, j2, k2) :: blocks =>
      if (i1 + k1 =? i2) && (j1 + k1 =? j2) then merged (i1, j1, k1 + k2) blocks
      else here ++ merged (i2, j2, k2) blocks
  end.

Lemma merge_blocks_eq cur blocks acc : merge_blocks cur blocks acc = acc ++ merged cur blocks.
Proof.
  revert cur acc. induction blocks as [|[[i2 j2] k2] blocks IH]; intros [[i1 j1] k1] acc; simpl.
  - destruct (0 <? k1); [done|by rewrite app_nil_r].
  - destruct ((i1 + k1 =? i2) && (j1 + k1 =? j2)); rewrite IH; [done|].
    destruct (0 <? k1); [by rewrite <-app_assoc|done].
Qed.

Lemma merged_chain i j cur blocks : chain i j (cur :: blocks) -> chain i j (merged cur blocks).
Proof.
  revert i j cur. induction blocks as [|[[i2 j2] k2] blocks IH]; intros i j [[i1 j1] k1] H; cbn [merged].
  - destruct (0 <? k1); [done|]. destruct H as (? & ? & _ & ? & ?). simpl. lia.
  - destruct H as (H1 & H2 & Hc & H3 & H4 & Hc2 & H). destruct ((i1 + k1 =? i2) && (j1 + k1 =? j2)) eqn:E.
    + apply andb_prop in E as [E1 E2]. apply Nat.eqb_eq in E1, E2. subst. apply IH. simpl.
      rewrite !Nat.add_assoc. repeat split; try done. by apply common_join.
    + assert (Hrest : chain (i1 + k1) (j1 + k1) ((i2, j2, k2) :: blocks)) by done. apply IH in Hrest.
      destruct (0 <? k1) eqn:Hk; simpl; [done|]. eapply chain_weaken; [| |exact Hrest]; lia.
Qed.

Lemma chain_snoc i j l : chain i j l -> chain i j (l ++ [(length (m_a m), length (m_b m), 0)]).
Proof.
  revert i j. induction l as [|[[ai bj] k] l IH]; intros i j; simpl.
  - intros [? ?]. repeat split; [lia|lia|intros t Ht; lia|lia|lia].
  - intros (? & ? & ? & ?). repeat split; try done. by apply IH.
Qed.
End chain.

Section blocks.
Context (a b : lines).
Abbreviation mt := (new a b).

Lemma new_cands line j : j ∈ cands mt line -> line_at (m_b mt) j = line.
Proof.
  destruct (cands_new a b line) as [-> | ->]; [by intros ?%not_elem_of_nil|].
  intros [_ H]%elem_of_pos. by rewrite Nat.sub_0_r in H.
Qed.

Lemma matching_blocks_chain :
  exists bl, matching_blocks mt = Some (bl ++ [(length a, length b, 0)]) /\ chain mt 0 0 bl.
Proof.
  unfold matching_blocks. change (m_a mt) with a. change (m_b mt) with b.
  destruct (drain_enough mt new_cands (2 * length a + 1) [(0, length a, 0, length b)] []) as (bl & -> & Hok & Hap).
  - simpl. lia.
  - apply Forall_singleton. simpl. lia.
  - constructor.
  - simpl. done.
  - eexists. split; [reflexivity|]. rewrite merge_blocks_eq. simpl app. apply merged_chain.
    pose proof (merge_sort_Permutation block_le bl) as Hp.
    assert (Hs : chain mt 0 0 (merge_sort block_le bl)).
    { apply sorted_chain.
      - apply StronglySorted_merge_sort; apply _.
      - by rewrite Hp.
      - by rewrite Hp.
      - apply Forall_forall. intros [[? ?] ?] _. lia.
      - lia.
      - lia. }
    simpl. repeat split; [lia|lia|intros t Ht; lia|exact Hs].
Qed.
End blocks.

(** ** Opcodes are an edit script *)

(** What carrying out an opcode leaves of the one document and of the other. *)
Definition patched (a b : lines) (op : Opcode) : lines :=
  let '(tag, i1, i2, j1, j2) := op in
  match tag with Equal => slice a i1 i2 | Delete => [] | Replace | Insert => slice b j1 j2 end.
Definition unpatched (a b : lines) (op : Opcode) : lines :=
  let '(tag, i1, i2, j1, j2) := op in
  match tag with Equal => slice b j1 j2 | Insert => [] | Replace | Delete => slice a i1 i2 end.

Lemma slice_split {A} (l : list A) i j : i <= j -> slice l i j ++ drop j l = drop i l.
Proof.
  intros H. unfold slice. replace j with (i + (j - i)) at 2 by lia. rewrite <-drop_drop. apply take_drop.
Qed.

Lemma slice_nil {A} (l : list A) i : slice l i i = [].
Proof. unfold slice. by rewrite Nat.sub_diag. Qed.

Lemma slice_common m i j k : common m i j k -> i + k <= length (m_a m) -> j + k <= length (m_b m) ->
  slice (m_a m) i (i + k) = slice (m_b m) j (j + k).
Proof.
  intros Hc Ha Hb. unfold slice. replace (i + k - i) with k by lia. replace (j + k - j) with k by lia.
  apply list_eq. intros t. destruct (decide (t < k)) as [Ht|Ht].
  - rewrite !lookup_take_lt, !lookup_drop by lia. specialize (Hc t Ht). unfold line_at in Hc.
    destruct (m_a m !! (i + t)) as [x|] eqn:Hx; [|apply lookup_ge_None in Hx; lia].
    destruct (m_b m !! (j + t)) as [y|] eqn:Hy; [|apply lookup_ge_None in Hy; lia].
    rewrite (nth_lookup_Some _ _ _ _ Hx), (nth_lookup_Some _ _ _ _ Hy) in Hc. congruence.
  - rewrite !lookup_take_ge; [done|lia|lia].
Qed.

Lemma opcodes_patch a b i j l :
  chain (new a b) i j l ->
  concat (map (patched a b) (opcodes_from i j (l ++ [(length a, length b, 0)]))) = drop j b /\
  concat (map (unpatched a b) (opcodes_from i j (l ++ [(length a, length b, 0)]))) = drop i a.
Proof.
  revert i j. induction l as [|[[ai bj] k] l IH]; intros i j H.
  - destruct H as [Hi Hj]. simpl in Hi, Hj. cbn [app opcodes_from]. rewrite !app_nil_r.
    pose proof (slice_split a i (length a) Hi) as Ha. pose proof (slice_split b j (length b) Hj) as Hb.
    rewrite drop_all, app_nil_r in Ha, Hb.
    destruct (i <? length a) eqn:E1, (j <? length b) eqn:E2; simpl; rewrite ?app_nil_r; split; try done.
    all: symmetry; apply drop_ge; lia.
  - destruct H as (Hi & Hj & Hc & H). pose proof (chain_bound _ _ _ _ H) as [Hba Hbb]. simpl in Hba, Hbb.
    destruct (IH _ _ H) as [IH1 IH2]. cbn [app opcodes_from]. rewrite !map_app, !concat_app, IH1, IH2.
    pose proof (slice_common (new a b) ai bj k Hc Hba Hbb) as Hs. simpl in Hs.
    rewrite <-(slice_split a i ai Hi), <-(slice_split b j bj Hj).
    rewrite <-(slice_split a ai (ai + k)), <-(slice_split b bj (bj + k)) by lia.
    destruct (i <? ai) eqn:E1, (j <? bj) eqn:E2, (0 <? k) eqn:E3; simpl; rewrite ?app_nil_r.
    all: try apply Nat.ltb_ge in E1; try apply Nat.ltb_ge in E2; try apply Nat.ltb_ge in E3.
    all: try (assert (i = ai) by lia; subst i); try (assert (j = bj) by lia; subst j); try (assert (k = 0) by lia; subst k).
    all: rewrite ?Nat.add_0_r, ?slice_nil, ?app_nil_l, ?Hs; done.
Qed.

(** ** Equal documents *)

Section same.
Context (a : lines).
Abbreviation mt := (new a a).
Abbreviation n := (length a).

Definition rare (line : string) : bool := match cands mt line with [] => false | _ => true end.

(** How many lines before [e] in a row are not popular. *)
Fixpoint run (e : nat) : nat :=
  match e with O => 0 | S r => if rare (line_at a r) then run r + 1 else 0 end.

Lemma rare_cands line : rare line = true -> cands mt line = pos 0 line a.
Proof. unfold rare. destruct (cands_new a a line) as [-> | ->]; done. Qed.

Definition bounded (e : nat) (r : gmap nat nat) : Prop := forall j k, r !! j = Some k -> k <= run e /\ k <= run (j + 1).

Definition prev_of (j2len : gmap nat nat) (j : nat) : nat := match j with O => 0 | S p => default 0 (j2len !! p) end.

Lemma prev_bounded i j2len j line :
  bounded i j2len -> j ∈ pos 0 line a -> line = line_at a i -> rare line = true ->
  prev_of j2len j + 1 <= run (i + 1) /\ prev_of j2len j + 1 <= run (j + 1).
Proof.
  intros Hb [Hj Hl]%elem_of_pos -> Hr. rewrite Nat.sub_0_r in Hl. rewrite !Nat.add_1_r. simpl. rewrite Hl, Hr.
  destruct j as [|p]; simpl; [lia|]. destruct (j2len !! p) as [k|] eqn:Hk; simpl; [|lia].
  apply Hb in Hk. rewrite Nat.add_1_r in Hk. simpl in Hk. lia.
Qed.

(** Candidates away from the diagonal never win. *)
Lemma scan_off i j2len js rest best next line :
  bounded i j2len -> line = line_at a i -> rare line = true ->
  (forall j, j ∈ js -> j ∈ pos 0 line a /\ (j < i \/ (i < j /\ run (i + 1) <= best.2))) ->
  (forall r, r <= i -> run r <= best.2) -> bounded (i + 1) next ->
  exists next', scan 0 n i j2len (js ++ rest) best next = scan 0 n i j2len rest best next'
    /\ bounded (i + 1) next' /\ next' !! i = next !! i.
Proof.
  intros Hb Hline Hr. revert next. induction js as [|j js IH]; intros next Hjs Hbest Hn; [by exists next|].
  destruct (Hjs j ltac:(by left)) as [Hj Hoff].
  pose proof (prev_bounded i j2len j line Hb Hj Hline Hr) as [Hk1 Hk2].
  apply elem_of_pos in Hj as [Hj _]. simpl app. cbn [scan]. fold (prev_of j2len j).
  destruct (n <=? j) eqn:E; [apply Nat.leb_le in E; lia|]. destruct best as [[besti bestj] bestsize]. simpl in *.
  assert (Hno : (bestsize <? prev_of j2len j + 1) = false).
  { apply Nat.ltb_ge. destruct Hoff as [Hlt|[_ Hle]]; [|lia]. specialize (Hbest (j + 1) ltac:(lia)). lia. }
  rewrite Hno. destruct (IH (<[j:=prev_of j2len j + 1]> next)) as (next' & Hs & Hb' & Hi).
  - intros j' Hj'. apply Hjs. by right.
  - done.
  - intros j' k' [[<- <-]|[_ Hl]]%lookup_insert_Some; [lia|by apply Hn].
  - exists next'. split; [exact Hs|]. split; [done|]. rewrite Hi, lookup_insert_ne by lia. done.
Qed.

(** Row [i]: the best block stays on the diagonal and is at least the run that ends here. *)
Definition diagonal (e : nat) (st : Block * gmap nat nat) : Prop :=
  let '((besti, bestj, bestsize), r) := st in
  besti = bestj /\ (forall x, x <= e -> run x <= bestsize) /\ bounded e r /\
  (forall p, e = S p -> 0 < run e -> r !! p = Some (run e)).

Lemma row_diagonal i st : i < n -> diagonal i st -> diagonal (i + 1) (row mt 0 n st i).
Proof.
  intros Hi. destruct st as [[[besti bestj] bestsize] r]. intros (<- & Hbest & Hb & Hd).
  unfold row. change (m_a mt) with a. fold (cands mt (line_at a i)).
  destruct (rare (line_at a i)) eqn:Hr.
  2:{ assert (Hc : cands mt (line_at a i) = []) by (unfold rare in Hr; by destruct (cands mt (line_at a i))).
      rewrite Hc. simpl. rewrite Nat.add_1_r. simpl. rewrite Hr. repeat split.
      - intros x Hx. destruct (decide (x = S i)) as [->|]; [simpl; rewrite Hr; lia|apply Hbest; lia].
      - by rewrite lookup_empty in *.
      - by rewrite lookup_empty in *.
      - lia. }
  rewrite (rare_cands _ Hr). pose proof (pos_sorted a 0 (line_at a i)) as Hsort.
  assert (Hin : i ∈ pos 0 (line_at a i) a) by (apply elem_of_pos; rewrite Nat.sub_0_r; split; [lia|done]).
  apply list_elem_of_split in Hin as (l1 & l2 & Hsp).
  assert (Hline : forall j, j ∈ l1 ++ i :: l2 -> j ∈ pos 0 (line_at a i) a) by (intros j; by rewrite Hsp).
  rewrite Hsp in Hsort |- *. clear Hsp. apply StronglySorted_app in Hsort as (Hlt & _ & Hsort).
  inversion Hsort as [|? ? _ Hgt]; subst. rewrite Forall_forall in Hgt.
  destruct (scan_off i r l1 (i :: l2) (besti, besti, bestsize) ∅ (line_at a i)) as (n1 & -> & Hn1 & _); try done.
  { intros j Hj. split; [apply Hline, elem_of_app; by left|left]. apply Hlt; [done|by left]. }
  pose proof (prev_bounded i r i (line_at a i) Hb (Hline i ltac:(apply elem_of_app; right; by left)) eq_refl Hr) as [Hk _].
  cbn [scan]. destruct (n <=? i) eqn:E; [apply Nat.leb_le in E; lia|]. fold (prev_of r i). simpl (i <? 0). cbv iota.
  assert (Hprev : prev_of r i + 1 = run (i + 1)).
  { assert (Hrun : run (i + 1) = run i + 1) by (rewrite (Nat.add_1_r i); simpl; by rewrite Hr).
    rewrite Hrun in Hk |- *. f_equal. destruct i as [|p]; [done|]. cbn [prev_of] in *.
    destruct (decide (0 < run (S p))) as [Hp|Hp]; [by rewrite (Hd p eq_refl Hp)|lia]. }
  rewrite Hprev. set (best' := if bestsize <? run (i + 1) then _ else _).
  assert (Hb' : exists x, best' = (x, x, Nat.max bestsize (run (i + 1)))).
  { subst best'. destruct (bestsize <? run (i + 1)) eqn:Hc.
    - apply Nat.ltb_lt in Hc. exists (i + 1 - run (i + 1)). f_equal. lia.
    - apply Nat.ltb_ge in Hc. exists besti. f_equal. lia. }
  destruct Hb' as [x Hx]. rewrite Hx.
  destruct (scan_off i r l2 [] (x, x, Nat.max bestsize (run (i + 1))) (<[i:=run (i + 1)]> n1) (line_at a i))
    as (n2 & Hs & Hn2 & Hi2); try done.
  { intros j Hj. split; [apply Hline, elem_of_app; right; by right|right]. split; [by apply Hgt|simpl; lia]. }
  { intros y Hy. simpl. specialize (Hbest y Hy). lia. }
  { intros j k [[<- <-]|[_ Hl]]%lookup_insert_Some; [lia|by apply Hn1]. }
  rewrite app_nil_r in Hs. rewrite Hs. cbn [diagonal]. split; [done|]. split; [|split; [done|]].
  - intros y Hy. destruct (decide (y = i + 1)) as [->|]; [lia|]. specialize (Hbest y ltac:(lia)). lia.
  - intros p Hp _. assert (p = i) as -> by lia. by rewrite Hi2, lookup_insert_eq.
Qed.

Lemma rows_diagonal k i st : i + k <= n -> diagonal i st -> diagonal (i + k) (fold_left (row mt 0 n) (seq i k) st).
Proof.
  revert i st. induction k as [|k IH]; intros i st Hk H; simpl; [by rewrite Nat.add_0_r|].
  replace (i + S k) with (S i + k) by lia. apply IH; [lia|]. rewrite <-Nat.add_1_r. apply row_diagonal; [lia|done].
Qed.

Lemma extend_back_diagonal k s : extend_back mt 0 0 k k k s = (0, 0, s + k).
Proof.
  revert s. induction k as [|k IH]; intros s; simpl; [by rewrite Nat.add_0_r|].
  unfold same. simpl. rewrite eqb_s_refl. rewrite Nat.sub_0_r, IH. f_equal. lia.
Qed.

Lemma extend_on_diagonal steps s : s <= n -> n <= s + steps -> extend_on mt n n steps 0 0 s = (0, 0, n).
Proof.
  revert s. induction steps as [|steps IH]; intros s Hs Hn; simpl.
  - f_equal. lia.
  - destruct (s <? n) eqn:E; simpl.
    + unfold same. simpl. rewrite eqb_s_refl. apply Nat.ltb_lt in E. apply IH; lia.
    + apply Nat.ltb_ge in E. f_equal. lia.
Qed.

(** The longest match of a document with itself is all of it. *)
Lemma find_same : find_longest_match mt 0 n 0 n = (0, 0, n).
Proof.
  unfold find_longest_match. rewrite Nat.sub_0_r.
  assert (H0 : diagonal 0 ((0, 0, 0), ∅)).
  { split; [done|]. split; [intros x Hx; by assert (x = 0) as -> by lia|]. split; [intros j k; by rewrite lookup_empty|lia]. }
  pose proof (rows_diagonal n 0 _ ltac:(lia) H0) as H.
  pose proof (rows_ok mt (new_cands a a) 0 n 0 n n 0 ((0, 0, 0), ∅)) as Hr. simpl in Hr.
  assert (Hin : in_range mt 0 n 0 n (0, 0, 0)) by (simpl; repeat split; lia).
  specialize (Hr ltac:(lia) ltac:(lia) Hin ltac:(intros j k; by rewrite lookup_empty)).
  destruct (fold_left _ _ _) as [[[i j] k] r]. simpl in H, Hr. destruct H as (-> & _). destruct Hr as (_ & Hk & _).
  rewrite extend_back_diagonal. apply extend_on_diagonal; lia.
Qed.

Lemma opcodes_same : opcodes mt = Some (if 0 <? n then [(Equal, 0, n, 0, n)] else []).
Proof.
  unfold opcodes, matching_blocks. change (m_a mt) with a. change (m_b mt) with a.
  replace (2 * n + 1) with (S (2 * n)) by lia. cbn [drain]. rewrite find_same.
  destruct (0 <? n) eqn:E; simpl.
  - rewrite !Nat.ltb_irrefl. simpl. destruct (n + (n + 0)); simpl; rewrite E; simpl; rewrite E; simpl;
      by rewrite !Nat.ltb_irrefl.
  - apply Nat.ltb_ge in E. replace n with 0 by lia. done.
Qed.
End same.

(** ** Properties *)

(** C40: the diff of two documents is an edit script for them, whatever the heuristics choose: the
    matcher always answers, carrying out its opcodes on the old document gives the new one, carrying
    them out backwards gives the old one, and a document has no changed line against itself. *)
Theorem diff_is_edit_script (a b : lines) :
  (exists ops, opcodes (new a b) = Some ops
    /\ concat (map (patched a b) ops) = b /\ concat (map (unpatched a b) ops) = a
    /\ changed_lines a b = Some (List.filter (fun line => negb (header_line line)) (concat (map (opcode_lines a b) ops))))
  /\ changed_lines a a = Some [].
Proof.
  split.
  - destruct (matching_blocks_chain a b) as (bl & Hbl & Hc). destruct (opcodes_patch a b 0 0 bl Hc) as [H1 H2].
    assert (Ho : opcodes (new a b) = Some (opcodes_from 0 0 (bl ++ [(length a, length b, 0)]))) by (unfold opcodes; by rewrite Hbl).
    eexists. split; [exact Ho|]. split; [exact H1|]. split; [exact H2|]. unfold changed_lines. by rewrite Ho.
  - unfold changed_lines. rewrite opcodes_same. by destruct (0 <? length a).
Qed.
