(* ===== verification/AwgKeys.v ===== *)
(** * WireGuard keys

    [awg_manager/src/keys.rs]: strict 32-byte base64 keys and their hexadecimal form. A byte string is
    a [string]. Base64 ([base64], engine [STANDARD]) and X25519 ([x25519_dalek]) are crates: the classes
    [Base64], with the laws the manager relies on, and [X25519]. *)

From S2P Require Import Prelude Utf8 Numeric PyText TextFacts IpAddrFacts.

Class Base64 := {
  encode : string -> string;         (** [STANDARD.encode] *)
  decode : string -> option string;  (** [STANDARD.decode(..).ok()] *)
}.

(** RFC 4648: what is encoded is decoded again, and 32 bytes take 44 characters. *)
Class Base64Laws `{Base64} := {
  decode_encode : forall s, decode (encode s) = Some s;
  encode_key : forall s, String.length s = 32 -> length (chars (encode s)) = 44;
}.

Class X25519 := { public_key : string -> string }.

Section keys.
Context {B64 : Base64}.

Definition b64 (raw : string) : string := encode raw.

Definition unb64 (text : string) : result string string :=
  if negb (length (chars text) =? 44)%nat then Err "key must be 44 base64 characters" else
  raw ← decode text or_err "key is not valid base64";
  if negb (String.length raw =? 32)%nat then Err "key must decode to 32 bytes" else
  if negb (b64 raw =?s text) then Err "key must decode to 32 bytes" else Ok raw.

(** [format!("{b:02x}")] of every byte. *)
Fixpoint hex (bytes : string) : string :=
  match bytes with
  | EmptyString => EmptyString
  | String a s => pad0 2 (fmt_hex (Ascii.N_of_ascii a)) +:+ hex s
  end.

Definition hexkey (text : string) : result string string := hex <$> unb64 text.

(** [generate_private]: the clamp of 32 random bytes. *)
Definition set_byte (i : nat) (f : N -> N) (s : string) : string :=
  match String.get i s with
  | Some a => String.substring 0 i s +:+ String (byte (f (Ascii.N_of_ascii a))) (String.substring (S i) (String.length s - S i) s)
  | None => s
  end.
Definition generate_private (random_bytes : string) : string :=
  let bytes := set_byte 0 (fun b => N.land b 248) random_bytes in
  let bytes := set_byte 31 (fun b => N.land b 127) bytes in
  set_byte 31 (fun b => N.lor b 64) bytes.

Context {BL : Base64Laws}.

(** A key is accepted exactly when it is the encoding of 32 bytes, and read as those bytes. *)
Lemma unb64_iff text raw : unb64 text = Ok raw <-> String.length raw = 32 /\ text = b64 raw.
Proof.
  unfold unb64. split.
  - destruct (length (chars text) =? 44)%nat; simpl; [|done]. intros H. apply bind_Ok in H as (r & Hr & H).
    destruct (String.length r =? 32)%nat eqn:Hl; simpl in H; [|done].
    destruct (b64 r =?s text) eqn:He; simpl in H; [|done]. apply Ok_inj in H as <-.
    apply Nat.eqb_eq in Hl. by apply eqb_s_true in He.
  - intros [Hl ->]. unfold b64. rewrite (encode_key raw Hl), decode_encode. simpl.
    rewrite Hl. simpl. by rewrite eqb_s_refl.
Qed.

Lemma hex_inj s t : hex s = hex t -> s = t.
Proof.
  assert (Hp : forall a, exists x y, pad0 2 (fmt_hex (Ascii.N_of_ascii a)) = String x (String y EmptyString)
    /\ digits_val 16 (String x (String y EmptyString)) = Some (Ascii.N_of_ascii a)).
  { intros a. set (n := Ascii.N_of_ascii a). assert (Hn : (n < 256)%N) by apply Ascii.N_ascii_bounded.
    clearbody n. assert (Hc : forallb (fun i => let s := pad0 2 (fmt_hex (N.of_nat i)) in
      (String.length s =? 2)%nat && match digits_val 16 s with Some m => (m =? N.of_nat i)%N | None => false end) (seq 0 256) = true)
      by (vm_compute; reflexivity).
    rewrite forallb_forall in Hc. specialize (Hc (N.to_nat n)). rewrite N2Nat.id in Hc.
    apply andb_prop in Hc as [Hl Hv]; [|apply in_seq; lia].
    destruct (pad0 2 (fmt_hex n)) as [|x [|y [|z s']]]; try done. exists x, y. split; [done|].
    destruct (digits_val 16 _) as [v|]; [|done]. apply N.eqb_eq in Hv. by subst. }
  revert t. induction s as [|a s IH]; intros [|b t]; simpl; try done.
  - destruct (Hp b) as (x & y & -> & _). done.
  - destruct (Hp a) as (x & y & -> & _). done.
  - destruct (Hp a) as (x & y & -> & Ha), (Hp b) as (x' & y' & -> & Hb). intros [= -> -> H].
    rewrite (IH _ H). f_equal. rewrite Ha in Hb. injection Hb as Hb.
    by rewrite <-(Ascii.ascii_N_embedding a), Hb, Ascii.ascii_N_embedding.
Qed.
End keys.

(** * Base64 as in RFC 4648

    An executable instance of [AwgKeys.Base64] that satisfies its laws: the standard alphabet with
    padding. The manager's code takes it from a crate; the examples of the development use this one. *)

Local Open Scope N_scope.

Definition sextet (n : N) : Ascii.ascii :=
  Ascii.ascii_of_N (if n <? 26 then 65 + n else if n <? 52 then 71 + n else if n <? 62 then n - 4
                    else if n =? 62 then 43 else 47).
Definition sextet_val (a : Ascii.ascii) : option N :=
  let b := Ascii.N_of_ascii a in
  if (65 <=? b) && (b <=? 90) then Some (b - 65)
  else if (97 <=? b) && (b <=? 122) then Some (b - 71)
  else if (48 <=? b) && (b <=? 57) then Some (b + 4)
  else if b =? 43 then Some 62 else if b =? 47 then Some 63 else None.

Definition pad : Ascii.ascii := "="%char.

Definition group (a b c : N) (used : nat) : string :=
  let v := a * 65536 + b * 256 + c in
  let x := sextet (v / 262144) in let y := sextet (v / 4096 mod 64) in
  let z := sextet (v / 64 mod 64) in let w := sextet (v mod 64) in
  String x (String y (match used with
    | 1%nat => String pad (String pad EmptyString)
    | 2%nat => String z (String pad EmptyString)
    | _ => String z (String w EmptyString) end)).

Fixpoint rfc_encode (s : string) : string :=
  let n := Ascii.N_of_ascii in
  match s with
  | EmptyString => EmptyString
  | String a EmptyString => group (n a) 0 0 1
  | String a (String b EmptyString) => group (n a) (n b) 0 2
  | String a (String b (String c s')) => group (n a) (n b) (n c) 3 +:+ rfc_encode s'
  end.

Definition bytes_of (v : N) (used : nat) : string :=
  String (byte (v / 65536)) (match used with
    | 1%nat => EmptyString
    | 2%nat => String (byte (v / 256 mod 256)) EmptyString
    | _ => String (byte (v / 256 mod 256)) (String (byte (v mod 256)) EmptyString) end).

Fixpoint rfc_decode (s : string) : option string :=
  match s with
  | EmptyString => Some EmptyString
  | String x (String y (String z (String w s'))) =>
      p ← sextet_val x; q ← sextet_val y;
      if Ascii.eqb z pad then
        if Ascii.eqb w pad && str_empty s' then Some (bytes_of (p * 262144 + q * 4096) 1) else None
      else
        r ← sextet_val z;
        if Ascii.eqb w pad then if str_empty s' then Some (bytes_of (p * 262144 + q * 4096 + r * 64) 2) else None
        else
          t ← sextet_val w;
          rest ← rfc_decode s';
          Some (bytes_of (p * 262144 + q * 4096 + r * 64 + t) 3 +:+ rest)
  | _ => None
  end.

Lemma sextets : all_below 64 (fun n => match sextet_val (sextet n) with
  | Some m => (m =? n) && negb (Ascii.eqb (sextet n) pad) && (Ascii.N_of_ascii (sextet n) <? 192) | None => false end) = true.
Proof. vm_compute. reflexivity. Qed.

Lemma sextet_ok n : n < 64 ->
  sextet_val (sextet n) = Some n /\ Ascii.eqb (sextet n) pad = false /\ (Ascii.N_of_ascii (sextet n) <? 192) = true.
Proof.
  intros Hn. pose proof (all_below_spec 64 _ sextets n Hn) as H. cbv beta in H.
  destruct (sextet_val (sextet n)) as [m|]; [|done]. apply andb_prop in H as [[Hm%N.eqb_eq Hp]%andb_prop Hb].
  apply negb_true_iff in Hp. by subst.
Qed.

Lemma byte_N a : byte (Ascii.N_of_ascii a) = a.
Proof. apply Ascii.ascii_N_embedding. Qed.

(** The four sextets of a group and the three bytes of their value. *)
Lemma group_split a b c : a < 256 -> b < 256 -> c < 256 ->
  let v := a * 65536 + b * 256 + c in
  v / 262144 < 64 /\ v / 4096 mod 64 < 64 /\ v / 64 mod 64 < 64 /\ v mod 64 < 64
  /\ v / 262144 * 262144 + v / 4096 mod 64 * 4096 + v / 64 mod 64 * 64 + v mod 64 = v
  /\ v / 65536 = a /\ v / 256 mod 256 = b /\ v mod 256 = c.
Proof.
  intros Ha Hb Hc. cbv zeta. set (v := _ + c).
  assert (Hd : forall d q r, v = d * q + r -> r < d -> v / d = q /\ v mod d = r).
  { intros d q r Hv Hr. split; symmetry; [by apply (N.div_unique v d q r)|by apply (N.mod_unique v d q r)]. }
  destruct (Hd 65536 a (b * 256 + c)) as [Ea _]; [subst v; lia|lia|].
  destruct (Hd 256 (a * 256 + b) c) as [Eb Ec]; [subst v; lia|lia|].
  split; [apply N.Div0.div_lt_upper_bound; subst v; lia|]. do 3 (split; [by apply N.mod_lt|]).
  split; [|split; [done|split; [|done]]].
  - replace 262144 with (4096 * 64) by reflexivity. rewrite <-N.Div0.div_div. replace 4096 with (64 * 64) by reflexivity.
    rewrite <-!N.Div0.div_div.
    pose proof (N.div_mod v 64 ltac:(done)) as H1. pose proof (N.div_mod (v / 64) 64 ltac:(done)) as H2.
    pose proof (N.div_mod (v / 64 / 64) 64 ltac:(done)) as H3. revert H1 H2 H3.
    generalize (v / 64 / 64 / 64) (v / 64 / 64 mod 64) (v / 64 mod 64) (v mod 64).
    generalize (v / 64 / 64). generalize (v / 64). clear. intros. lia.
  - rewrite Eb. symmetry. by apply (N.mod_unique _ 256 a b); [|lia].
Qed.

Lemma N_of_ascii_lt a : Ascii.N_of_ascii a < 256.
Proof. apply Ascii.N_ascii_bounded. Qed.

(** Induction three bytes at a time. *)
Lemma three_ind (P : string -> Prop) :
  P EmptyString -> (forall a, P (String a EmptyString)) -> (forall a b, P (String a (String b EmptyString))) ->
  (forall a b c s, P s -> P (String a (String b (String c s)))) -> forall s, P s.
Proof.
  intros H0 H1 H2 H3. fix go 1. intros [|a [|b [|c s]]]; [exact H0|apply H1|apply H2|apply H3, go].
Qed.

Lemma rfc_decode_encode s : rfc_decode (rfc_encode s) = Some s.
Proof.
  induction s as [|a|a b|a b c s IH] using three_ind; [done| | |].
  - pose proof (group_split (Ascii.N_of_ascii a) 0 0 (N_of_ascii_lt a) ltac:(lia) ltac:(lia)) as (H1 & H2 & H3 & H4 & Hv & Ha & Hb & Hc).
    cbn [rfc_encode]. unfold group. set (v := _ + 0) in *. cbn [rfc_decode].
    destruct (sextet_ok _ H1) as (-> & _), (sextet_ok _ H2) as (-> & _). simpl.
    assert (v = (Ascii.N_of_ascii a * 16) * 64 * 64) as Hm by (subst v; lia).
    assert (v / 64 mod 64 = 0 /\ v mod 64 = 0) as [E1 E2] by (rewrite Hm, N.div_mul, !N.Div0.mod_mul; done). rewrite E1, E2, N.mul_0_l, !N.add_0_r in Hv.
    rewrite Hv. unfold bytes_of. by rewrite Ha, byte_N.
  - pose proof (group_split _ _ 0 (N_of_ascii_lt a) (N_of_ascii_lt b) ltac:(lia)) as (H1 & H2 & H3 & H4 & Hv & Ha & Hb & Hc).
    cbn [rfc_encode]. unfold group. set (v := _ + 0) in *. cbn [rfc_decode].
    destruct (sextet_ok _ H1) as (-> & _), (sextet_ok _ H2) as (-> & _), (sextet_ok _ H3) as (-> & -> & _). simpl.
    assert (v = (Ascii.N_of_ascii a * 1024 + Ascii.N_of_ascii b * 4) * 64) as Hm by (subst v; lia).
    assert (v mod 64 = 0) as E2 by (by rewrite Hm, N.Div0.mod_mul). rewrite E2, N.add_0_r in Hv.
    rewrite Hv. unfold bytes_of. by rewrite Ha, Hb, !byte_N.
  - pose proof (group_split _ _ _ (N_of_ascii_lt a) (N_of_ascii_lt b) (N_of_ascii_lt c)) as (H1 & H2 & H3 & H4 & Hv & Ha & Hb & Hc).
    cbn [rfc_encode]. unfold group. set (v := _ + Ascii.N_of_ascii c) in *. rewrite !app_cons_s, app_nil_s. cbn [rfc_decode].
    destruct (sextet_ok _ H1) as (-> & _), (sextet_ok _ H2) as (-> & _), (sextet_ok _ H3) as (-> & -> & _), (sextet_ok _ H4) as (-> & -> & _).
    cbn [mbind option_bind]. rewrite IH. simpl. rewrite Hv. unfold bytes_of. by rewrite Ha, Hb, Hc, !byte_N.
Qed.

Lemma rfc_encode_ascii s : forallb_s (fun a => Ascii.N_of_ascii a <? 192) (rfc_encode s) = true.
Proof.
  induction s as [|a|a b|a b c s IH] using three_ind; [done| | |]; cbn [rfc_encode]; unfold group;
    set (v := _ * 65536 + _ * 256 + _); assert (H1 : v / 262144 < 64) by
    (pose proof (N_of_ascii_lt a); try pose proof (N_of_ascii_lt b); try pose proof (N_of_ascii_lt c); apply N.Div0.div_lt_upper_bound; subst v; lia);
    destruct (sextet_ok _ H1) as (_ & _ & E1);
    destruct (sextet_ok (v / 4096 mod 64)) as (_ & _ & E2); [by apply N.mod_lt| |by apply N.mod_lt| |by apply N.mod_lt|];
    destruct (sextet_ok (v / 64 mod 64)) as (_ & _ & E3); [by apply N.mod_lt| |by apply N.mod_lt| |by apply N.mod_lt|];
    destruct (sextet_ok (v mod 64)) as (_ & _ & E4); [by apply N.mod_lt| |by apply N.mod_lt| |by apply N.mod_lt|];
    rewrite ?app_cons_s, ?app_nil_s; cbn [forallb_s]; rewrite ?E1, ?E2, ?E3, ?E4, ?IH; done.
Qed.

#[export] Instance rfc_base64 : Base64 := {| encode := rfc_encode; decode := rfc_decode |}.

Lemma rfc_length s : String.length (rfc_encode s) = (4 * ((String.length s + 2) / 3))%nat.
Proof.
  induction s as [|a|a b|a b c s IH] using three_ind; [done..|]. cbn [rfc_encode]. rewrite length_app_s, IH.
  simpl String.length at 1. cbn [String.length]. lia.
Qed.

#[export] Instance rfc_laws : Base64Laws.
Proof.
  split; [apply rfc_decode_encode|]. intros s Hs. pose proof (char_len_ascii _ (rfc_encode_ascii s)) as Hc.
  unfold PyText.char_len in Hc. simpl encode. rewrite Hc, rfc_length, Hs. done.
Qed.

Example rfc_vectors :
  map rfc_encode [""; "f"; "fo"; "foo"; "foob"; "fooba"; "foobar"] =
  [""; "Zg=="; "Zm8="; "Zm9v"; "Zm9vYg=="; "Zm9vYmE="; "Zm9vYmFy"].
Proof. vm_compute. reflexivity. Qed.
