(* ===== verification/Obfuscation.v ===== *)
(** * AmneziaWG obfuscation parameters

    [awg_manager/src/obfuscation.rs]: the parameters of a protocol version, generated, validated and
    written out. The random source is the class [Rng] over a state that every draw moves on; the loops
    that draw until a value fits take fuel. A missing key that indexing would panic on is [Panicked]. *)

From stdpp Require Import sorting.
From S2P Require Import Prelude BTree Utf8 Numeric Json PyText TextFacts IpAddr IndexMap AwgKeys.

Local Open Scope N_scope.

Abbreviation Params := (imap string).

Definition UINT32 : N := 4294967295.
Definition MIN_HEADER_PROTECTION_PADDING : N := 12.
Definition COMMON : list string := ["Jc"; "Jmin"; "Jmax"; "S1"; "S2"; "H1"; "H2"; "H3"; "H4"].
Definition I_KEYS : list string := ["I1"; "I2"; "I3"; "I4"; "I5"].
Definition VERSIONS : list string := ["1.5"; "2.0"; "3.1"].

Inductive ObfuscationError := Refused (message : string) | Panicked.
Abbreviation OR := (result ObfuscationError).

Definition err {A} (message : string) : OR A := Err (Refused message).

(** [map[key]]. *)
Definition at_key (key : string) (m : Params) : OR string := bget key m or_err Panicked.

Definition extra_keys (version : string) : list string :=
  if version =?s "2.0" then ["S3"; "S4"]
  else if version =?s "3.1"
  then ["S3"; "S4"; "HeaderProtectionKey"; "ContentPaddingAddition"; "RandomTrailers"; "DisableCookies"]
  else [].

Definition allowed (version key : string) : bool :=
  mem_str key COMMON || mem_str key I_KEYS || mem_str key (extra_keys version).

Definition required (version : string) : list string :=
  COMMON ++ (if version =?s "2.0" then ["S3"; "S4"]
             else if version =?s "3.1" then ["S3"; "S4"; "HeaderProtectionKey"] else []).

(** ** Validation helpers *)

(** At most ten decimal digits. *)
Definition int (params : Params) (key : string) (lo hi : N) : OR N :=
  let raw := default "" (bget key params) in
  if str_empty raw || (10 <? String.length raw)%nat || negb (forallb_s is_digit raw)
  then err (key +:+ " must be an integer string")
  else
    value ← (Z.to_N <$> parse_u64 raw) or_err Panicked;
    if negb ((lo <=? value) && (value <=? hi))
    then err (key +:+ " must be " +:+ fmt_N lo +:+ "-" +:+ fmt_N hi) else Ok value.

Definition digits (text : string) : bool :=
  (1 <=? String.length text)%nat && (String.length text <=? 10)%nat && forallb_s is_digit text.

Definition parse_range (text key : string) : OR (N * N) :=
  '(lo, hi) ← match split_once "-"%char text with
              | Some (lo, hi) => if digits lo && digits hi then Ok (lo, hi) else err (key +:+ " must be N or N-M")
              | None => if digits text then Ok (text, text) else err (key +:+ " must be N or N-M")
              end;
  lo ← (Z.to_N <$> parse_u64 lo) or_err Panicked;
  hi ← (Z.to_N <$> parse_u64 hi) or_err Panicked;
  if (hi <? lo) || (UINT32 <? hi) then err (key +:+ " range is invalid") else Ok (lo, hi).

(** [iter().take_while(f).count()] and the rest. *)
Definition count_while (f : Ascii.ascii -> bool) (s : string) : nat * string :=
  let '(run, rest) := span_s f s in (String.length run, rest).

(** What follows the body of one tag, before its closing bracket. *)
Definition tag_body (body : string) : option string :=
  match strip_prefix "b 0x" body with
  | Some hexpart =>
      let '(count, rest) := count_while is_hexdigit hexpart in
      if (count =? 0)%nat || negb (count mod 2 =? 0)%nat then None else Some rest
  | None =>
      match (match strip_prefix "r " body with
             | Some n => Some n
             | None => match strip_prefix "rc " body with Some n => Some n | None => strip_prefix "rd " body end
             end) with
      | Some number =>
          let '(count, rest) := count_while is_digit number in
          if negb ((1 <=? count)%nat && (count <=? 4)%nat) then None else Some rest
      | None =>
          match body with
          | String a rest => if Ascii.eqb a "t"%char || Ascii.eqb a "c"%char then Some rest else None
          | EmptyString => None
          end
      end
  end.

Fixpoint cps_loop (fuel : nat) (rest : string) : bool :=
  match rest with
  | EmptyString => true
  | _ =>
      match fuel with
      | O => false
      | S fuel =>
          match (strip_prefix "<" rest ≫= tag_body) ≫= strip_prefix ">" with
          | Some next => cps_loop fuel next
          | None => false
          end
      end
  end.

(** Every tag takes at least one byte ([cps_fuel]). *)
Definition is_cps (text : string) : bool :=
  if str_empty text then false else cps_loop (String.length text) text.

Section validate.
Context {B64 : Base64}.

Definition head_ok (version : string) (floor : N) (i : nat) (range : N * N) : OR unit :=
  let '(lo, hi) := range in
  if lo <? floor then err ("H" +:+ fmt_nat (i + 1) +:+ " must be at least " +:+ fmt_N floor)
  else if (version =?s "1.5") && negb (lo =? hi)
  then err ("H" +:+ fmt_nat (i + 1) +:+ " must be a single value for 1.5") else Ok tt.

Definition ranges_meet (a b : N * N) : bool := (a.1 <=? b.2) && (b.1 <=? a.2).

Fixpoint heads_apart (heads : list (N * N)) : bool :=
  match heads with
  | [] => true
  | a :: rest => negb (existsb (ranges_meet a) rest) && heads_apart rest
  end.

Definition S_NAMES : list string := ["S1"; "S2"; "S3"; "S4"].

(** [iter().enumerate()]. *)
Definition imap_index {A} (l : list A) : list (nat * A) := combine (seq 0 (length l)) l.

(** The values of the S parameters that are present. *)
Fixpoint s_values (clean : Params) (names : list string) : OR (imap N) :=
  match names with
  | [] => Ok []
  | name :: names =>
      if bhas name clean then
        value ← int clean name 0 1132;
        rest ← s_values clean names;
        Ok ((name, value) :: rest)
      else s_values clean names
  end.

Definition s_at (name : string) (s : imap N) : OR N := bget name s or_err Panicked.

Definition head_ranges (clean : Params) : OR (list (N * N)) :=
  mapM (fun i => let key := "H" +:+ fmt_nat i in raw ← at_key key clean; parse_range raw key) [1%nat; 2%nat; 3%nat; 4%nat].

Definition header_protection (clean : Params) (s : imap N) : OR unit :=
  _ ← try_for (fun name =>
        value ← s_at name s;
        if value <? MIN_HEADER_PROTECTION_PADDING then err (name +:+ " must be at least 12 with header protection") else Ok tt) S_NAMES;
  key ← at_key "HeaderProtectionKey" clean;
  _ ← (if is_ok (unb64 key) then Ok tt else err "HeaderProtectionKey must be a base64 32-byte key");
  _ ← match bget "ContentPaddingAddition" clean with
      | Some padding => _ ← parse_range padding "ContentPaddingAddition"; Ok tt
      | None => Ok tt
      end;
  try_for (fun flag =>
    if mem_str (default "false" (bget flag clean)) ["true"; "false"] then Ok tt
    else err (flag +:+ " must be true or false")) ["RandomTrailers"; "DisableCookies"].

Definition cleaned (params : Params) : Params :=
  icollect (List.filter (fun e => negb (mem_str e.1 I_KEYS && str_empty e.2)) params).

Definition validate (version : string) (params : Params) (mtu : N) : OR Params :=
  if negb (mem_str version VERSIONS) then err ("unknown version " +:+ version) else
  let clean := cleaned params in
  _ ← match sort_str (List.filter (fun key => negb (allowed version key)) (bkeys clean)) with
      | first :: _ => err (first +:+ " is not valid for " +:+ version)
      | [] => Ok tt
      end;
  _ ← match sort_str (List.filter (fun key => negb (bhas key clean)) (required version)) with
      | first :: _ => err (first +:+ " is required for " +:+ version)
      | [] => Ok tt
      end;
  _ ← int clean "Jc" 1 128;
  jmin ← int clean "Jmin" 1 mtu;
  jmax ← int clean "Jmax" 1 mtu;
  _ ← (if jmax <=? jmin then err "Jmin must be below Jmax" else Ok tt);
  s ← s_values clean S_NAMES;
  s1 ← s_at "S1" s;
  s2 ← s_at "S2" s;
  _ ← (if s1 + 56 =? s2 then err "S1 + 56 must differ from S2" else Ok tt);
  heads ← head_ranges clean;
  let floor := if version =?s "3.1" then 1 else 5 in
  _ ← try_for (fun e => head_ok version floor e.1 e.2) (imap_index heads);
  _ ← (if heads_apart heads then Ok tt else err "H1..H4 must not overlap");
  _ ← try_for (fun key => match bget key clean with
        | Some value => if is_cps value then Ok tt else err (key +:+ " is not a valid CPS string")
        | None => Ok tt
        end) I_KEYS;
  _ ← (if version =?s "3.1" then header_protection clean s else Ok tt);
  Ok clean.

Definition apply_overrides (version : string) (base overrides : Params) (mtu : N) : OR Params :=
  validate version (iextend base overrides) mtu.

(** ** UAPI, client and stored forms *)

Definition client_view (params : Params) : Params :=
  icollect (List.filter (fun e => negb (mem_str e.1 ["RandomTrailers"; "DisableCookies"] && negb (e.2 =?s "true"))) params).

(** [key.to_lowercase()] of the ASCII names. *)
Definition device_line (params : Params) (key : string) : list string :=
  match bget key params with Some value => [ascii_lower key +:+ "=" +:+ value] | None => [] end.

Definition uapi_lines (params : Params) : result string (list string) :=
  let numbers := concat (map (device_line params) ["Jc"; "Jmin"; "Jmax"; "S1"; "S2"; "S3"; "S4"; "H1"; "H2"; "H3"; "H4"]) in
  let packets := concat (map (fun key =>
    match bget key params with
    | Some value => if str_empty value then [] else device_line params key
    | None => []
    end) I_KEYS) in
  protection ← match bget "HeaderProtectionKey" params with
               | Some key => k ← hexkey key; Ok ["header_protection_key=" +:+ k]
               | None => Ok []
               end;
  let padding := match bget "ContentPaddingAddition" params with
                 | Some padding => ["content_padding_addition=" +:+ padding] | None => [] end in
  let flag key line := match bget key params with Some v => if v =?s "true" then [line] else [] | None => [] end in
  Ok (numbers ++ packets ++ protection ++ padding ++ flag "RandomTrailers" "random_trailers=true"
      ++ flag "DisableCookies" "disable_cookies=true").

Definition from_value (value : Value) : OR Params :=
  match as_object value with
  | None => err "parameters must be a string map"
  | Some m =>
      icollect <$> mapM (fun e => match e.2 with
        | Str text => Ok (e.1, text)
        | _ => err "parameters must be a string map"
        end) m
  end.

Definition to_value (params : Params) : Value := Object (icollect (map (fun e => (e.1, Str e.2)) params)).

Definition override_text (key : string) (value : Value) : OR string :=
  match value with
  | Bool flag => Ok (if flag then "true" else "false")
  | Str text => Ok text
  | Num (NInt z) => Ok (fmt_Z z)
  | _ => err ("obfuscation file: bad value for " +:+ key)
  end.

(** [AwgUtil.py_repr] quotes the version: an argument. *)
Fixpoint override_params (values : list (string * Value)) (params : Params) : OR Params :=
  match values with
  | [] => Ok params
  | (key, value) :: rest => text ← override_text key value; override_params rest (iset key text params)
  end.

Fixpoint override_sections (repr : string -> string) (sections : list (string * Value)) (out : imap Params) : OR (imap Params) :=
  match sections with
  | [] => Ok out
  | (version, values) :: rest =>
      values ← match as_object values with
               | Some values => if mem_str version VERSIONS then Ok values
                                else err ("obfuscation file: bad section " +:+ repr version)
               | None => err ("obfuscation file: bad section " +:+ repr version)
               end;
      params ← override_params values [];
      override_sections repr rest (iset version params out)
  end.

Definition load_overrides (repr : string -> string) (raw : Value) : OR (imap Params) :=
  match as_object raw with
  | None => err "obfuscation file must be a JSON object"
  | Some sections => override_sections repr sections []
  end.
End validate.

(** ** Randomness *)

(** [below(n)] draws from [0..n], [fill] draws bytes; both move the source on. *)
Class Rng (G : Type) := {
  below : N -> G -> N * G;
  fill : nat -> G -> string * G;
}.

Class RngLaws (G : Type) `{Rng G} := {
  below_lt : forall n g, 0 < n -> (below n g).1 < n;
  fill_length : forall k g, String.length (fill k g).1 = k;
}.

(** Computations that draw: [None] is out of fuel. *)
Definition Gen (G A : Type) : Type := G -> option (A * G).
#[export] Instance Gen_ret {G} : MRet (Gen G) := fun A a g => Some (a, g).
#[export] Instance Gen_bind {G} : MBind (Gen G) :=
  fun A B f m g => match m g with Some (a, g') => f a g' | None => None end.

Section generate.
Context {B64 : Base64} {G : Type} {RG : Rng G}.

Definition drawn {A} (f : G -> A * G) : Gen G A := fun g => Some (f g).
Definition randint (lo hi : N) : Gen G N := fun g => let '(v, g') := below (hi - lo + 1) g in Some (lo + v, g').

(** [items.swap(i, j)]. *)
Definition swap {A} (i j : nat) (l : list A) : list A :=
  match l !! i, l !! j with
  | Some x, Some y => <[j:=x]> (<[i:=y]> l)
  | _, _ => l
  end.

(** [for i in (1..items.len()).rev()]: [i] from [n] down to 1. *)
Fixpoint shuffle_from {A} (n : nat) (items : list A) : Gen G (list A) :=
  match n with
  | O => mret items
  | S n' => fun g => let '(j, g') := below (N.of_nat n + 1) g in shuffle_from n' (swap n (N.to_nat j) items) g'
  end.

Definition shuffle {A} (items : list A) : Gen G (list A) := shuffle_from (length items - 1) items.

(** [(0..count).map(|_| draw).collect()]. *)
Fixpoint draws {A} (l : list (Gen G A)) : Gen G (list A) :=
  match l with [] => mret [] | d :: l => a ← d; rest ← draws l; mret (a :: rest) end.

(** [while s0 + 56 == s1 { s1 = randint(lo, hi) }]. *)
Fixpoint redraw (fuel : nat) (lo hi s0 s1 : N) : Gen G N :=
  if s0 + 56 =? s1 then
    match fuel with
    | O => fun _ => None
    | S fuel => v ← randint lo hi; redraw fuel lo hi s0 v
    end
  else mret s1.

(** [while heads.len() < 4 { .. }]. *)
Fixpoint draw_heads (fuel : nat) (heads : list N) : Gen G (list N) :=
  if (length heads <? 4)%nat then
    match fuel with
    | O => fun _ => None
    | S fuel =>
        head ← randint 5 UINT32;
        draw_heads fuel (if existsb (N.eqb head) heads then heads else heads ++ [head])
    end
  else mret heads.

(** [values.sort_unstable()] of integers. *)
Definition sort_n (l : list N) : list N := merge_sort N.le l.

Definition quarter (slot : N) : Gen G string :=
  let span := (UINT32 - 5) / 4 in
  let base := 5 + slot * span in
  a ← randint 0 (span / 2 - 1000);
  let lo := base + a in
  b ← randint 1000 (span / 2 - 1);
  let hi := lo + b in
  mret (fmt_N lo +:+ "-" +:+ fmt_N hi).

Definition header_values (fuel : nat) (version : string) : Gen G (list string) :=
  if version =?s "1.5" then
    heads ← draw_heads fuel [];
    heads ← shuffle (sort_n heads);
    mret (map fmt_N heads)
  else if version =?s "2.0" then values ← draws (map quarter [0; 1; 2; 3]); shuffle values
  else mret ["1"; "2"; "3"; "4"].

Definition default_i1 : Gen G string :=
  a ← randint 0 3;
  let first := N.lor 0xC0 a in
  i ← drawn (below 6);
  let dcid_len := nth (N.to_nat i) [8; 8; 8; 16; 18; 20] 0 in
  tail ← randint 32 96;
  mret ("<b 0x" +:+ pad0 2 (fmt_hex first) +:+ "00000001" +:+ pad0 2 (fmt_hex dcid_len) +:+ "><r "
        +:+ fmt_N dcid_len +:+ "><b 0x0000><t><r " +:+ fmt_N tail +:+ ">").

(** The four S values. *)
Definition s_draws (fuel : nat) (version : string) : Gen G (N * N * N * N) :=
  let '(lo, hi, lo', hi') :=
    if version =?s "3.1" then (MIN_HEADER_PROTECTION_PADDING, 64, MIN_HEADER_PROTECTION_PADDING, 64) else (15, 150, 8, 64) in
  s0 ← randint lo hi;
  s1 ← randint lo hi;
  s2 ← randint lo' hi';
  s3 ← randint lo' hi';
  s1 ← redraw fuel lo hi s0 s1;
  mret (s0, s1, s2, s3).

(** [H1], [H2], ... with the values. *)
Definition head_entries (values : list string) : list (string * string) :=
  map (fun e => ("H" +:+ fmt_nat (e.1 + 1), e.2)) (imap_index values).

(** [out.insert(..)] one after the other. *)
Definition inserts (entries : list (string * string)) (out : Params) : Params := iextend out entries.

Definition generate (fuel : nat) (version : string) (mtu : N) : Gen G (OR Params) :=
  if negb (mem_str version VERSIONS) then mret (err ("unknown version " +:+ version)) else
  jmin ← randint 8 24;
  j ← randint 40 120;
  let jmax := N.min (jmin + j) mtu in
  jc ← randint 4 8;
  let out := inserts [("Jc", fmt_N jc); ("Jmin", fmt_N jmin); ("Jmax", fmt_N jmax)] [] in
  '(s0, s1, s2, s3) ← s_draws fuel version;
  let out := inserts [("S1", fmt_N s0); ("S2", fmt_N s1)] out in
  let out := if negb (version =?s "1.5") then inserts [("S3", fmt_N s2); ("S4", fmt_N s3)] out else out in
  values ← header_values fuel version;
  let out := inserts (head_entries values) out in
  i1 ← default_i1;
  let out := inserts [("I1", i1)] out in
  if version =?s "3.1" then
    key ← drawn (fill 32);
    let out := inserts [("HeaderProtectionKey", b64 key); ("ContentPaddingAddition", "0-32")] out in
    mret (_ ← validate version out mtu; Ok out)
  else mret (_ ← validate version out mtu; Ok out).
End generate.

(** ** The system's random source *)

Section system.
Context {W : Type} (next_word : W -> N * W).

(** [SystemRng::below]: [next_word] is the [u64] read from eight random bytes. *)
Definition draw_limit (n : N) : N := (2 ^ 64 - 1) - (2 ^ 64 - 1) mod n.

Fixpoint system_below (fuel : nat) (n : N) (w : W) : option (N * W) :=
  match fuel with
  | O => None
  | S fuel =>
      let '(value, w') := next_word w in
      if value <? draw_limit n then Some (value mod n, w') else system_below fuel n w'
  end.
End system.
