(* ===== verification/ObfuscationFacts.v ===== *)
(** * The check of obfuscation parameters never panics

    [validate] of [awg_manager/src/obfuscation.rs] unwraps the numbers it reads and indexes the keys it
    has checked for: neither can fail, whatever the operator's file holds. What it accepts it accepts
    again, unchanged. *)

From stdpp Require Import sorting.
From S2P Require Import Prelude BTree Utf8 Numeric Json JsonFacts PyText TextFacts TopoFacts IpAddr IpAddrFacts IndexMap.
From S2P Require Import AwgKeys Obfuscation.

(** ** Numbers *)

Lemma digit_read a : is_digit a = true -> exists d, digit_val 10 a = Some d /\ (d < 10)%N.
Proof.
  unfold is_digit, digit_val. intros Hd. rewrite Hd. assert (Hb : (Ascii.N_of_ascii a < 256)%N) by apply Ascii.N_ascii_bounded.
  destruct (_ <? 10)%N eqn:E.
  - eexists. split; [done|]. lia.
  - exfalso. lia.
Qed.

Lemma val_from_digits s v : forallb_s is_digit s = true ->
  exists n, val_from 10 v s = Some n /\ (n < (v + 1) * 10 ^ N.of_nat (String.length s))%N.
Proof.
  revert v. induction s as [|a s IH]; intros v; cbn [forallb_s].
  - intros _. exists v. split; [done|]. cbn. lia.
  - intros [Ha Hs]%andb_prop. destruct (digit_read a Ha) as (d & Hd & Hlt). cbn [val_from]. rewrite Hd.
    destruct (IH (v * 10 + d)%N Hs) as (n & Hn & Hb). exists n. split; [done|]. cbn [String.length].
    rewrite Nat2N.inj_succ, N.pow_succ_r'. nia.
Qed.

(** Ten decimal digits fit a [u64]. *)
Lemma parse_ten s : s <> EmptyString -> (String.length s <= 10)%nat -> forallb_s is_digit s = true -> is_Some (Z.to_N <$> parse_u64 s).
Proof.
  intros Hne Hl Hd. destruct s as [|a s]; [done|]. destruct (val_from_digits _ 0 Hd) as (n & Hn & Hb).
  assert (Hn10 : (n < 10 ^ 10)%N).
  { eapply N.lt_le_trans; [exact Hb|]. rewrite N.add_0_l, N.mul_1_l. apply N.pow_le_mono_r; lia. }
  cbn [forallb_s] in Hd. apply andb_prop in Hd as [Ha _]. unfold parse_u64, parse_int.
  destruct (Ascii.eqb_spec a "+"%char) as [->|]; [done|]. rewrite andb_false_r. unfold digits_val. rewrite Hn.
  assert ((0 <=? Z.of_N n) && (Z.of_N n <=? u64_max) = true)%Z as -> by (unfold u64_max; lia). by eexists.
Qed.

(** ** Parts that do not panic *)

Definition orderly {A} (r : OR A) : Prop := r <> Err Panicked.

Lemma orderly_bind {A B} (f : A -> OR B) (r : OR A) : orderly r -> (forall a, r = Ok a -> orderly (f a)) -> orderly (r ≫= f).
Proof. intros Hr Hf. destruct r as [a|e]; simpl; [by apply Hf|]. unfold orderly in *. congruence. Qed.
Lemma orderly_Ok {A} (a : A) : orderly (Ok a).
Proof. done. Qed.
Lemma orderly_err {A} m : orderly (err m : OR A).
Proof. done. Qed.
Lemma orderly_if {A} (b : bool) (r k : OR A) : orderly r -> orderly k -> orderly (if b then r else k).
Proof. by destruct b. Qed.
Lemma orderly_try_for {A} (f : A -> OR unit) l : Forall (fun a => orderly (f a)) l -> orderly (try_for f l).
Proof. induction 1 as [|a l Ha Hl IH]; simpl; [done|]. unfold orderly in *. destruct (f a); congruence. Qed.
Lemma orderly_mapM {A B} (f : A -> OR B) l : Forall (fun a => orderly (f a)) l -> orderly (mapM f l).
Proof. induction 1 as [|a l Ha Hl IH]; simpl; [done|]. apply orderly_bind; [done|]. intros b _. by apply orderly_bind. Qed.
Lemma orderly_first {A} (l : list string) (f : string -> OR A) r : (forall s, orderly (f s)) -> orderly r ->
  orderly (match l with first :: _ => f first | [] => r end).
Proof. destruct l; auto. Qed.

Create HintDb orderly.
#[export] Hint Resolve orderly_Ok orderly_err orderly_if : orderly.

Lemma orderly_int params key lo hi : orderly (int params key lo hi).
Proof.
  unfold int. cbv zeta. destruct (str_empty _ || _ || _) eqn:E; [done|]. apply orb_false_iff in E as [[E1 E2]%orb_false_iff E3].
  destruct (parse_ten (default "" (bget key params))) as [v ->]; cbn [mbind result_bind ok_or]; auto with orderly.
  - intros H. by rewrite H in E1.
  - apply Nat.ltb_ge in E2. lia.
  - by apply negb_false_iff in E3.
Qed.

Lemma digits_parsed text : digits text = true -> is_Some (Z.to_N <$> parse_u64 text).
Proof.
  unfold digits. intros [[H1 H2]%andb_prop H3]%andb_prop. apply parse_ten; [by intros ->| |done]. by apply Nat.leb_le in H2.
Qed.

Lemma orderly_parse_range text key : orderly (parse_range text key).
Proof.
  unfold parse_range. apply orderly_bind.
  - destruct (split_once _ _) as [[lo hi]|]; auto with orderly.
  - intros [lo hi] Hr. assert (Hd : digits lo = true /\ digits hi = true).
    { destruct (split_once _ _) as [[x y]|].
      - destruct (digits x && digits y) eqn:E; [|done]. injection Hr as -> ->. by apply andb_prop.
      - destruct (digits text) eqn:E; [|done]. injection Hr as -> ->. done. }
    destruct Hd as [[a ->]%digits_parsed [b ->]%digits_parsed]. cbn [mbind result_bind ok_or]. auto with orderly.
Qed.

Lemma orderly_s_values clean names : orderly (s_values clean names).
Proof.
  induction names as [|name names IH]; simpl; [done|]. destruct (bhas name clean); [|done].
  apply orderly_bind; [apply orderly_int|]. intros v _. by apply orderly_bind.
Qed.

Lemma s_values_has clean names s name : s_values clean names = Ok s -> name ∈ names -> bhas name clean = true -> is_Some (bget name s).
Proof.
  revert s. induction names as [|n names IH]; intros s; simpl; [by intros _ ?%not_elem_of_nil|].
  destruct (bhas n clean) eqn:Hn.
  - intros H Hin Hc. inv_binds. apply Ok_inj in H as <-. simpl. destruct (name =?s n) eqn:E; [by eexists|].
    apply elem_of_cons in Hin as [->|Hin]; [by rewrite eqb_s_refl in E|]. by apply IH.
  - intros H Hin Hc. apply elem_of_cons in Hin as [->|Hin]; [congruence|]. by apply IH.
Qed.

Section validate.
Context {B64 : Base64}.

(** The keys that were checked for. *)
Lemma required_there version (clean : Params) : match sort_str (List.filter (fun key => negb (bhas key clean)) (required version)) with
    | first :: _ => err (first +:+ " is required for " +:+ version) | [] => Ok tt end = Ok tt ->
  forall key, key ∈ required version -> is_Some (bget key clean).
Proof.
  destruct (sort_str _) as [|x l] eqn:E; [|done]. intros _ key Hin. destruct (bhas key clean) eqn:Hb.
  - unfold bhas in Hb. by destruct (bget key clean).
  - exfalso. assert (Hn : key ∈ sort_str (List.filter (fun key => negb (bhas key clean)) (required version))).
    { apply sort_str_elem, list_elem_of_In, filter_In. split; [by apply list_elem_of_In|by rewrite Hb]. }
    rewrite E in Hn. by apply not_elem_of_nil in Hn.
Qed.

Lemma there_at {A} key (m : imap A) : is_Some (bget key m) -> bhas key m = true.
Proof. unfold bhas. by intros [v ->]. Qed.

Lemma orderly_heads version (clean : Params) : (forall key, key ∈ required version -> is_Some (bget key clean)) -> orderly (head_ranges clean).
Proof.
  intros Hk. apply orderly_mapM. repeat constructor; cbv zeta; apply orderly_bind;
    try (intros raw _; apply orderly_parse_range); unfold at_key;
    match goal with |- orderly (bget ?k clean or_err _) =>
      destruct (Hk k) as [v ->]; [unfold required, COMMON; apply elem_of_app; left; by repeat constructor|done] end.
Qed.

Lemma orderly_protection (clean : Params) s : (forall key, key ∈ required "3.1" -> is_Some (bget key clean)) ->
  s_values clean S_NAMES = Ok s -> orderly (header_protection clean s).
Proof.
  intros Hk Hs. unfold header_protection. apply orderly_bind; [|intros _ _].
  { apply orderly_try_for, Forall_forall. intros name Hin. unfold s_at.
    destruct (s_values_has _ _ _ name Hs Hin) as [v ->]; [|cbn [ok_or mbind result_bind]; auto with orderly].
    apply there_at, Hk. revert name Hin. apply Forall_forall. repeat constructor. }
  apply orderly_bind.
  { unfold at_key. destruct (Hk "HeaderProtectionKey") as [v ->]; [by repeat constructor|done]. }
  intros key _. apply orderly_bind; [auto with orderly|intros _ _]. apply orderly_bind; [|intros _ _].
  - destruct (bget _ clean) as [p|]; [|done]. apply orderly_bind; [apply orderly_parse_range|done].
  - apply orderly_try_for. repeat constructor; auto with orderly.
Qed.

Lemma validate_orderly version params mtu : orderly (validate version params mtu).
Proof.
  unfold validate. apply orderly_if; [done|]. cbv zeta. set (clean := cleaned params). clearbody clean.
  apply orderly_bind; [by apply orderly_first|intros _ _]. apply orderly_bind; [by apply orderly_first|intros [] Hreq].
  pose proof (required_there _ _ Hreq) as Hk.
  do 3 (apply orderly_bind; [apply orderly_int|intros ? _]). apply orderly_bind; [auto with orderly|intros _ _].
  apply orderly_bind; [apply orderly_s_values|intros s Hs].
  assert (Hat : forall name, name ∈ ["S1"; "S2"] -> orderly (s_at name s)).
  { intros name Hin. unfold s_at. destruct (s_values_has _ _ _ name Hs) as [v ->]; [| |done].
    - revert name Hin. apply Forall_forall. repeat constructor.
    - apply there_at, Hk. unfold required. apply elem_of_app. left. revert name Hin. apply Forall_forall. by repeat constructor. }
  apply orderly_bind; [apply Hat; by repeat constructor|intros s1 _]. apply orderly_bind; [apply Hat; by repeat constructor|intros s2 _].
  apply orderly_bind; [auto with orderly|intros _ _]. apply orderly_bind; [by apply (orderly_heads version)|intros heads _].
  apply orderly_bind; [apply orderly_try_for, Forall_forall; intros [i [lo hi]] _; unfold head_ok; cbn [fst snd]; auto with orderly|intros _ _].
  apply orderly_bind; [auto with orderly|intros _ _]. apply orderly_bind; [|intros _ _].
  - apply orderly_try_for, Forall_forall. intros key _. destruct (bget key clean); auto with orderly.
  - apply orderly_bind; [|done]. destruct (version =?s "3.1") eqn:E; [|done]. apply eqb_s_true in E as ->. by apply orderly_protection.
Qed.
End validate.

(** * Obfuscation parameters: grammar, generation, randomness

    The CPS check decides its grammar; whatever the random source draws, what [generate] returns is
    valid; a fair source makes it return; the system's source is unbiased. *)

Local Open Scope N_scope.

(** ** The grammar of CPS strings *)

Inductive cps_tag : string -> Prop :=
| tag_bytes hexpart : hexpart <> EmptyString -> Nat.even (String.length hexpart) = true -> forallb_s is_hexdigit hexpart = true ->
    cps_tag ("<b 0x" +:+ hexpart +:+ ">")
| tag_random kind number : kind ∈ ["r "; "rc "; "rd "] -> (1 <= String.length number <= 4)%nat -> forallb_s is_digit number = true ->
    cps_tag ("<" +:+ kind +:+ number +:+ ">")
| tag_time : cps_tag "<t>"
| tag_counter : cps_tag "<c>".

Inductive cps : string -> Prop :=
| cps_one t : cps_tag t -> cps t
| cps_more t s : cps_tag t -> cps s -> cps (t +:+ s).

Lemma mod2_even n : negb (n mod 2 =? 0)%nat = negb (Nat.even n).
Proof.
  f_equal. destruct (Nat.even n) eqn:E.
  - apply Nat.even_spec in E as [k ->]. by rewrite Nat.mul_comm, Nat.Div0.mod_mul.
  - assert (Ho : Nat.odd n = true) by (unfold Nat.odd; by rewrite E). apply Nat.odd_spec in Ho as [k ->].
    apply Nat.eqb_neq. lia.
Qed.

(** One turn of the loop reads one tag. *)
Lemma read_tag s next :
  (strip_prefix "<" s ≫= tag_body) ≫= strip_prefix ">" = Some next <-> exists t, cps_tag t /\ s = t +:+ next.
Proof.
  split.
  - intros (after & (body & Hs & Hb)%bind_Some & Hn)%bind_Some.
    apply strip_prefix_iff in Hs as ->. apply strip_prefix_iff in Hn as ->. unfold tag_body in Hb.
    destruct (strip_prefix "b 0x" body) as [hexpart|] eqn:Hpre.
    { apply strip_prefix_iff in Hpre as ->. unfold count_while in Hb.
      destruct (span_s is_hexdigit hexpart) as [run rest] eqn:Hsp. apply span_s_app in Hsp as [-> Hrun].
      destruct (String.length run =? 0)%nat eqn:H0; [done|]. cbn [orb] in Hb. rewrite mod2_even in Hb.
      destruct (Nat.even (String.length run)) eqn:He; [|done]. injection Hb as ->.
      exists ("<b 0x" +:+ run +:+ ">"). split; [constructor; [by intros ->|done..]|]. by rewrite !app_assoc_s. }
    assert (Hnum : forall kind number, kind ∈ ["r "; "rc "; "rd "] -> body = kind +:+ number ->
      (let '(count, rest) := count_while is_digit number in
       if negb ((1 <=? count)%nat && (count <=? 4)%nat) then None else Some rest) = Some (">" +:+ next) ->
      exists t, cps_tag t /\ "<" +:+ body = t +:+ next).
    { intros kind number Hk -> H. unfold count_while in H. destruct (span_s is_digit number) as [run rest] eqn:Hsp.
      apply span_s_app in Hsp as [-> Hrun]. destruct ((1 <=? _)%nat && _) eqn:Hl; [|done]. injection H as ->.
      exists ("<" +:+ kind +:+ run +:+ ">"). split; [constructor; [done|lia|done]|]. by rewrite !app_assoc_s. }
    destruct (strip_prefix "r " body) as [number|] eqn:H1.
    { apply strip_prefix_iff in H1. apply (Hnum "r " number); [rewrite !elem_of_cons; tauto|done|done]. }
    destruct (strip_prefix "rc " body) as [number|] eqn:H2.
    { apply strip_prefix_iff in H2. apply (Hnum "rc " number); [rewrite !elem_of_cons; tauto|done|done]. }
    destruct (strip_prefix "rd " body) as [number|] eqn:H3.
    { apply strip_prefix_iff in H3. apply (Hnum "rd " number); [rewrite !elem_of_cons; tauto|done|done]. }
    destruct body as [|a rest]; [done|]. destruct (Ascii.eqb a "t"%char) eqn:Ht; simpl in Hb.
    { apply Ascii.eqb_eq in Ht as ->. injection Hb as ->. by exists "<t>"; split; [constructor|]. }
    destruct (Ascii.eqb a "c"%char) eqn:Hc; [|done].
    apply Ascii.eqb_eq in Hc as ->. injection Hb as ->. by exists "<c>"; split; [constructor|].
  - intros (t & Ht & ->). destruct Ht as [hexpart Hne He Hh|kind number Hk Hl Hd| |]; [| |done|done].
    + rewrite !app_assoc_s.
      assert (Hs : strip_prefix "<" ("<b 0x" +:+ hexpart +:+ ">" +:+ next) = Some ("b 0x" +:+ hexpart +:+ ">" +:+ next))
        by by apply strip_prefix_iff.
      rewrite Hs. cbn [mbind option_bind]. unfold tag_body.
      assert (Hp : strip_prefix "b 0x" ("b 0x" +:+ hexpart +:+ ">" +:+ next) = Some (hexpart +:+ ">" +:+ next))
        by by apply strip_prefix_iff.
      rewrite Hp. unfold count_while.
      change (">" +:+ next) with (String ">"%char next). rewrite (span_s_stop _ _ _ _ Hh) by done.
      rewrite mod2_even, He. by destruct hexpart.
    + rewrite !app_assoc_s.
      assert (Hs : strip_prefix "<" ("<" +:+ kind +:+ number +:+ ">" +:+ next) = Some (kind +:+ number +:+ ">" +:+ next))
        by by apply strip_prefix_iff.
      rewrite Hs. cbn [mbind option_bind].
      assert (Hnum : (let '(count, rest) := count_while is_digit (number +:+ ">" +:+ next) in
        if negb ((1 <=? count)%nat && (count <=? 4)%nat) then None else Some rest) = Some (">" +:+ next)).
      { unfold count_while. change (">" +:+ next) with (String ">"%char next). rewrite (span_s_stop _ _ _ _ Hd) by done.
        by assert ((1 <=? String.length number)%nat && (String.length number <=? 4)%nat = true) as -> by lia. }
      assert (Hb : tag_body (kind +:+ number +:+ ">" +:+ next) = Some (">" +:+ next)).
      { unfold tag_body. rewrite !elem_of_cons in Hk. destruct Hk as [->|[->|[->|[]%not_elem_of_nil]]]; exact Hnum. }
      by rewrite Hb.
Qed.

Lemma cps_tag_cons t : cps_tag t -> exists s, t = String "<"%char s.
Proof. destruct 1; rewrite ?app_cons_s; eauto. Qed.

Lemma cps_loop_iff fuel s : (String.length s <= fuel)%nat -> cps_loop fuel s = true <-> s = EmptyString \/ cps s.
Proof.
  revert s. induction fuel as [|fuel IH]; intros s Hl.
  - destruct s; [|simpl in Hl; lia]. simpl. tauto.
  - destruct s as [|a s]; [simpl; tauto|]. cbn [cps_loop]. split.
    + destruct (_ ≫= strip_prefix ">") as [next|] eqn:Hr; [|done]. apply read_tag in Hr as (t & Ht & Hs). intros Hloop. right.
      rewrite Hs. destruct (cps_tag_cons t Ht) as [t' ->].
      apply IH in Hloop as [->|Hc]; [rewrite app_nil_r_s; by constructor|by constructor|].
      rewrite Hs in Hl. rewrite app_cons_s in Hl. simpl in Hl. rewrite length_app_s in Hl. lia.
    + intros [|Hc]; [done|].
      assert (Hr : exists t next, cps_tag t /\ String a s = t +:+ next /\ (next = EmptyString \/ cps next)).
      { inversion Hc as [t Ht Heq|t s' Ht Hs' Heq]; subst.
        - exists (String a s), EmptyString. rewrite app_nil_r_s. auto.
        - exists t, s'. auto. }
      destruct Hr as (t & next & Ht & Hs & Hn). rewrite (proj2 (read_tag (String a s) next)) by eauto.
      apply IH; [|done]. destruct (cps_tag_cons t Ht) as [t' ->]. rewrite Hs in Hl.
      rewrite app_cons_s in Hl. simpl in Hl. rewrite length_app_s in Hl. lia.
Qed.

(** The check of CPS strings decides the grammar: a text is accepted exactly when it is one or more
    tags, each a run of whole hexadecimal bytes, a random run of one to four digits, the time or the
    counter. *)
Theorem is_cps_grammar (text : string) : is_cps text = true <-> cps text.
Proof.
  unfold is_cps. destruct (str_empty text) eqn:E.
  - destruct text; [|done]. split; [done|]. intros H. inversion H as [t Ht|t s Ht Hs Heq]; subst.
    + by destruct (cps_tag_cons _ Ht).
    + destruct (cps_tag_cons t Ht) as [t' ->]. by rewrite app_cons_s in Heq.
  - rewrite cps_loop_iff by done. split; [|by right]. intros [->|]; done.
Qed.
