(* ===== verification/GenerateFacts.v ===== *)
(** * Generated obfuscation parameters are valid

    Whatever the random source draws, [generate] passes its own validation; a fair source makes its
    loops end; the system's source is unbiased. *)

From stdpp Require Import sorting.
From S2P Require Import Prelude BTree Utf8 Numeric Json PyText TextFacts IpAddr IpAddrFacts IndexMap AwgKeys.
From S2P Require Import Obfuscation ObfuscationFacts.

Local Open Scope N_scope.

(** ** Numbers and ranges that validation reads back *)

Lemma fmt_N_length_le v : v < 10 ^ 10 -> (1 <= String.length (fmt_N v) <= 10)%nat.
Proof.
  intros Hv. destruct (fmt_N_cons v) as (a & s & Hf & _). split; [rewrite Hf; simpl; lia|].
  unfold fmt_N, fmt_radix. pose proof (radix_digits_length 10 (S (N.to_nat (N.log2 v))) ltac:(lia) 9 v EmptyString Hv) as H.
  simpl String.length in H at 2. lia.
Qed.

Lemma parse_u64_fmt v : v < 2 ^ 64 -> Z.to_N <$> parse_u64 (fmt_N v) = Some v.
Proof.
  intros Hv. pose proof (parse_int_fmt 0 u64_max (Z.of_N v)) as H. unfold fmt_Z in H.
  destruct (Z.of_N v <? 0)%Z eqn:E; [lia|]. rewrite N2Z.id in H. unfold parse_u64. rewrite H by (unfold u64_max; lia).
  simpl. by rewrite N2Z.id.
Qed.

Lemma int_fmt params key lo hi v :
  bget key params = Some (fmt_N v) -> lo <= v <= hi -> v < 10 ^ 10 -> int params key lo hi = Ok v.
Proof.
  intros Hb Hr Hv. unfold int. rewrite Hb. simpl default. pose proof (fmt_N_length_le v Hv) as Hl.
  rewrite fmt_N_digits. assert (str_empty (fmt_N v) = false) as -> by (destruct (fmt_N v); [simpl in Hl; lia|done]).
  assert ((10 <? String.length (fmt_N v))%nat = false) as -> by (apply Nat.ltb_ge; lia). cbn [orb negb].
  rewrite parse_u64_fmt by lia. simpl. by assert ((lo <=? v) && (v <=? hi) = true) as -> by lia.
Qed.

Lemma digits_fmt v : v < 10 ^ 10 -> digits (fmt_N v) = true.
Proof.
  intros Hv. pose proof (fmt_N_length_le v Hv). unfold digits. rewrite fmt_N_digits.
  rewrite andb_true_r. apply andb_true_intro. split; apply Nat.leb_le; lia.
Qed.

Lemma split_dash_fmt v : split_once "-"%char (fmt_N v) = None.
Proof. apply split_once_none. apply (contains_none is_digit); [apply fmt_N_digits|done]. Qed.

Lemma parse_single v key : v <= UINT32 -> parse_range (fmt_N v) key = Ok (v, v).
Proof.
  unfold UINT32. intros Hv. unfold parse_range. rewrite split_dash_fmt, digits_fmt by lia. simpl.
  rewrite parse_u64_fmt by lia. simpl. unfold UINT32.
  by assert ((v <? v) || (4294967295 <? v) = false) as -> by lia.
Qed.

Lemma parse_pair lo hi key : lo <= hi -> hi <= UINT32 -> parse_range (fmt_N lo +:+ "-" +:+ fmt_N hi) key = Ok (lo, hi).
Proof.
  unfold UINT32. intros Hlo Hhi. unfold parse_range. change ("-" +:+ fmt_N hi) with (String "-"%char (fmt_N hi)).
  rewrite split_once_at.
  2:{ apply fmt_N_plain. intros a Ha. by destruct (is_digit_not_sign a Ha) as [_ ->]. }
  rewrite !digits_fmt by lia. simpl. rewrite !parse_u64_fmt by lia. simpl. unfold UINT32.
  by assert ((hi <? lo) || (4294967295 <? hi) = false) as -> by lia.
Qed.

(** ** The four headers *)

(** A header value that reads as a range the version allows. *)
Definition head_value (version : string) (value : string) (range : N * N) : Prop :=
  (forall key, parse_range value key = Ok range) /\
  (forall i, head_ok version (if version =?s "3.1" then 1 else 5) i range = Ok tt).

Lemma ranges_meet_sym a b : ranges_meet a b = ranges_meet b a.
Proof. unfold ranges_meet. apply andb_comm. Qed.

Lemma heads_apart_perm l k : l ≡ₚ k -> heads_apart l = true -> heads_apart k = true.
Proof.
  assert (Hex : forall x l k, l ≡ₚ k -> existsb (ranges_meet x) l = existsb (ranges_meet x) k).
  { intros x. induction 1 as [|y l' k' Hp IH|y z l'|]; simpl; [done|by rewrite IH| |congruence].
    rewrite !orb_assoc. f_equal. apply orb_comm. }
  induction 1 as [|x l k Hp IH|x y l|]; simpl; [done| | |tauto].
  - rewrite (Hex x l k Hp). intros [H1 H2]%andb_prop. by rewrite H1, IH.
  - intros [H1 [H2 H3]%andb_prop]%andb_prop. apply negb_true_iff in H1, H2. apply orb_false_iff in H1 as [H1 H1'].
    by rewrite (ranges_meet_sym x y), H1, H1', H2, H3.
Qed.

(** Four values that validation takes as [H1] to [H4]. *)
Definition heads_good (version : string) (values : list string) : Prop :=
  exists ranges, Forall2 (head_value version) values ranges /\ heads_apart ranges = true /\ length values = 4%nat.

Lemma heads_good_perm version l k : l ≡ₚ k -> heads_good version l -> heads_good version k.
Proof.
  intros Hp (r & Hf & Ha & Hl).
  assert (Hr : exists r', Forall2 (head_value version) k r' /\ r ≡ₚ r').
  { clear Ha Hl. revert r Hf. induction Hp as [|x l k Hp IH|x y l|l k m Hp1 IH1 Hp2 IH2]; intros r Hf.
    - inversion Hf; subst. by exists [].
    - inversion Hf as [|? b ? r0 Hb Hf']; subst. destruct (IH _ Hf') as (r' & H1 & H2).
      exists (b :: r'). split; [by constructor|by apply perm_skip].
    - inversion Hf as [|? b ? r0 Hb Hf']; subst. inversion Hf' as [|? c ? r1 Hc Hf'']; subst.
      exists (c :: b :: r1). split; [by constructor; [|constructor]|apply perm_swap].
    - destruct (IH1 _ Hf) as (r1 & H1 & H2). destruct (IH2 _ H1) as (r2 & H3 & H4).
      exists r2. split; [done|by rewrite H2]. }
  destruct Hr as (r' & Hf' & Hp'). exists r'. split; [done|]. split; [by eapply heads_apart_perm|].
  by rewrite <-Hp.
Qed.

(** ** Validation of generated parameters *)

(** What [generate] draws. *)
Record Drawn := {
  d_jc : N; d_jmin : N; d_jmax : N; d_s0 : N; d_s1 : N; d_s2 : N; d_s3 : N;
  d_h1 : string; d_h2 : string; d_h3 : string; d_h4 : string; d_i1 : string; d_key : string }.

(** The smallest S value of a version. *)
Definition s_floor (version : string) : N := if version =?s "3.1" then MIN_HEADER_PROTECTION_PADDING else 0.

Record drawn_ok (version : string) (mtu : N) (d : Drawn) : Prop := {
  ok_version : version ∈ VERSIONS;
  ok_jc : 1 <= d_jc d <= 128;
  ok_jmin : 1 <= d_jmin d < d_jmax d;
  ok_jmax : d_jmax d <= mtu /\ d_jmax d < 10 ^ 10;
  ok_s0 : s_floor version <= d_s0 d <= 1132;
  ok_s1 : s_floor version <= d_s1 d <= 1132;
  ok_s2 : s_floor version <= d_s2 d <= 1132;
  ok_s3 : s_floor version <= d_s3 d <= 1132;
  ok_apart : d_s0 d + 56 <> d_s1 d;
  ok_heads : heads_good version [d_h1 d; d_h2 d; d_h3 d; d_h4 d];
  ok_i1 : is_cps (d_i1 d) = true;
  ok_key : String.length (d_key d) = 32%nat }.

(** Case analysis on the version, in every proof below. *)
Ltac by_version Hv :=
  unfold VERSIONS in Hv; rewrite !elem_of_cons in Hv; destruct Hv as [->|[->|[->|[]%not_elem_of_nil]]].

Section valid.
Context {B64 : Base64} {BL : Base64Laws}.

Definition params_of (version : string) (d : Drawn) : Params :=
  [("Jc", fmt_N (d_jc d)); ("Jmin", fmt_N (d_jmin d)); ("Jmax", fmt_N (d_jmax d)); ("S1", fmt_N (d_s0 d)); ("S2", fmt_N (d_s1 d))]
  ++ (if version =?s "1.5" then [] else [("S3", fmt_N (d_s2 d)); ("S4", fmt_N (d_s3 d))])
  ++ [("H1", d_h1 d); ("H2", d_h2 d); ("H3", d_h3 d); ("H4", d_h4 d); ("I1", d_i1 d)]
  ++ (if version =?s "3.1" then [("HeaderProtectionKey", b64 (d_key d)); ("ContentPaddingAddition", "0-32")] else []).

Lemma params_clean version d : version ∈ VERSIONS -> is_cps (d_i1 d) = true -> cleaned (params_of version d) = params_of version d.
Proof.
  intros Hv Hi. assert (Hi1 : str_empty (d_i1 d) = false) by (destruct (d_i1 d); [by vm_compute in Hi|done]).
  unfold cleaned, params_of. by_version Hv; cbn; by rewrite Hi1.
Qed.

Lemma params_keys version d : version ∈ VERSIONS ->
  sort_str (List.filter (fun key => negb (allowed version key)) (bkeys (params_of version d))) = []
  /\ sort_str (List.filter (fun key => negb (bhas key (params_of version d))) (required version)) = [].
Proof. intros Hv. by_version Hv; done. Qed.

Lemma params_head version d i key h r :
  version ∈ VERSIONS -> (i, key, h) ∈ [(1%nat, "H1", d_h1 d); (2%nat, "H2", d_h2 d); (3%nat, "H3", d_h3 d); (4%nat, "H4", d_h4 d)] ->
  head_value version h r ->
  (let key := "H" +:+ fmt_nat i in raw ← at_key key (params_of version d); parse_range raw key) = Ok r.
Proof.
  intros Hv Hin [Hr _]. assert (Hb : bget ("H" +:+ fmt_nat i) (params_of version d) = Some h).
  { rewrite !elem_of_cons in Hin. by_version Hv; destruct Hin as [[= -> -> ->]|[[= -> -> ->]|[[= -> -> ->]|[[= -> -> ->]|[]%not_elem_of_nil]]]]; done. }
  cbv zeta. unfold at_key. rewrite Hb. simpl. apply Hr.
Qed.

Lemma heads_checked version hs rs : Forall2 (head_value version) hs rs -> forall i,
  try_for (fun e => head_ok version (if version =?s "3.1" then 1 else 5) e.1 e.2) (combine (seq i (length rs)) rs) = Ok tt.
Proof. induction 1 as [|h r hs rs [_ Hr] Hf IH]; intros i; [done|]. simpl. rewrite Hr. apply IH. Qed.

Lemma params_heads version mtu d : drawn_ok version mtu d ->
  exists ranges, head_ranges (params_of version d) = Ok ranges /\ heads_apart ranges = true /\
    try_for (fun e => head_ok version (if version =?s "3.1" then 1 else 5) e.1 e.2) (imap_index ranges) = Ok tt.
Proof.
  intros H. pose proof (ok_version _ _ _ H) as Hv. destruct (ok_heads _ _ _ H) as (ranges & Hf & Hap & _).
  exists ranges. split; [|split; [done|]].
  - apply mapM_Ok_iff. inversion Hf as [|? r1 ? l1 H1 Hf1]; subst. inversion Hf1 as [|? r2 ? l2 H2 Hf2]; subst.
    inversion Hf2 as [|? r3 ? l3 H3 Hf3]; subst. inversion Hf3 as [|? r4 ? l4 H4 Hf4]; subst. inversion Hf4; subst.
    repeat first [apply Forall2_nil_2|apply Forall2_cons_2];
      eapply params_head; try done; rewrite !elem_of_cons; tauto.
  - by eapply heads_checked.
Qed.

Lemma params_packets version d : version ∈ VERSIONS -> is_cps (d_i1 d) = true ->
  try_for (fun key => match bget key (params_of version d) with
    | Some value => if is_cps value then Ok tt else err (key +:+ " is not a valid CPS string")
    | None => Ok tt end) I_KEYS = Ok tt.
Proof. intros Hv Hi. by_version Hv; cbn -[is_cps]; by rewrite Hi. Qed.

Lemma params_int version d name v hi : bget name (params_of version d) = Some (fmt_N v) -> v <= hi -> hi < 10 ^ 10 ->
  int (params_of version d) name 0 hi = Ok v.
Proof. intros. apply int_fmt; [done|lia|lia]. Qed.

Lemma params_s version mtu d : drawn_ok version mtu d ->
  exists s, s_values (params_of version d) S_NAMES = Ok s /\ s_at "S1" s = Ok (d_s0 d) /\ s_at "S2" s = Ok (d_s1 d) /\
    (if version =?s "3.1" then header_protection (params_of version d) s else Ok tt) = Ok tt.
Proof.
  intros H. pose proof (ok_version _ _ _ H) as Hv. pose proof (ok_s0 _ _ _ H) as H0. pose proof (ok_s1 _ _ _ H) as H1.
  pose proof (ok_s2 _ _ _ H) as H2. pose proof (ok_s3 _ _ _ H) as H3.
  assert (Hkey : is_ok (unb64 (b64 (d_key d))) = true) by (by rewrite (proj2 (unb64_iff _ _) (conj (ok_key _ _ _ H) eq_refl))).
  clear H. by_version Hv; unfold S_NAMES; cbn [s_values].
  - exists [("S1", d_s0 d); ("S2", d_s1 d)]. by rewrite (params_int _ _ "S1" (d_s0 d)), (params_int _ _ "S2" (d_s1 d)) by (done || lia).
  - exists [("S1", d_s0 d); ("S2", d_s1 d); ("S3", d_s2 d); ("S4", d_s3 d)].
    by rewrite (params_int _ _ "S1" (d_s0 d)), (params_int _ _ "S2" (d_s1 d)), (params_int _ _ "S3" (d_s2 d)), (params_int _ _ "S4" (d_s3 d))
      by (done || lia).
  - exists [("S1", d_s0 d); ("S2", d_s1 d); ("S3", d_s2 d); ("S4", d_s3 d)].
    rewrite (params_int _ _ "S1" (d_s0 d)), (params_int _ _ "S2" (d_s1 d)), (params_int _ _ "S3" (d_s2 d)), (params_int _ _ "S4" (d_s3 d))
      by (done || lia). do 3 (split; [done|]).
    unfold s_floor, MIN_HEADER_PROTECTION_PADDING in *. simpl in H0, H1, H2, H3.
    assert ((d_s0 d <? 12) = false /\ (d_s1 d <? 12) = false /\ (d_s2 d <? 12) = false /\ (d_s3 d <? 12) = false) as (E0 & E1 & E2 & E3) by lia.
    unfold header_protection, s_at, S_NAMES, MIN_HEADER_PROTECTION_PADDING. cbn -[N.ltb unb64 is_ok]. by rewrite E0, E1, E2, E3, Hkey.
Qed.

Lemma validate_drawn version mtu d : drawn_ok version mtu d ->
  validate version (params_of version d) mtu = Ok (params_of version d).
Proof.
  intros H. pose proof (ok_version _ _ _ H) as Hv. destruct (params_keys version d Hv) as [Hextra Hmissing].
  destruct (params_heads version mtu d H) as (ranges & Hh & Hap & Hchk). destruct (params_s version mtu d H) as (s & Hs & HS1 & HS2 & Hp).
  pose proof (params_packets version d Hv (ok_i1 _ _ _ H)) as Hcps.
  unfold validate. rewrite (proj2 (mem_str_true _ _) Hv), (params_clean version d Hv (ok_i1 _ _ _ H)). cbn [negb].
  rewrite Hextra, Hmissing. destruct (ok_jc _ _ _ H), (ok_jmin _ _ _ H), (ok_jmax _ _ _ H).
  eapply bind_Ok_intro; [reflexivity|]. eapply bind_Ok_intro; [reflexivity|]. cbv beta.
  eapply bind_Ok_intro; [apply (int_fmt _ _ _ _ (d_jc d)); [done|done|lia]|].
  eapply bind_Ok_intro; [apply (int_fmt _ _ _ _ (d_jmin d)); [done|lia|lia]|].
  eapply bind_Ok_intro; [apply (int_fmt _ _ _ _ (d_jmax d)); [done|lia|lia]|].
  assert ((d_jmax d <=? d_jmin d) = false) as -> by lia. eapply bind_Ok_intro; [reflexivity|]. cbv beta.
  eapply bind_Ok_intro; [exact Hs|]. eapply bind_Ok_intro; [exact HS1|]. eapply bind_Ok_intro; [exact HS2|].
  pose proof (ok_apart _ _ _ H). assert ((d_s0 d + 56 =? d_s1 d) = false) as -> by lia. eapply bind_Ok_intro; [reflexivity|]. cbv beta.
  eapply bind_Ok_intro; [exact Hh|]. cbv zeta beta. eapply bind_Ok_intro; [exact Hchk|]. cbv beta. rewrite Hap.
  eapply bind_Ok_intro; [reflexivity|]. eapply bind_Ok_intro; [exact Hcps|]. by eapply bind_Ok_intro; [exact Hp|].
Qed.
End valid.

(** ** Computations that draw: results and termination *)

Section logic.
Context {G : Type}.

(** Every result satisfies [P]. *)
Definition gen_post {A} (m : Gen G A) (P : A -> Prop) : Prop := forall g a g', m g = Some (a, g') -> P a.

(** With enough fuel there is a result, the same for any more. *)
Definition settles {A} (m : nat -> Gen G A) : Prop :=
  forall g, exists n r, forall n', (n <= n')%nat -> m n' g = Some r.

Lemma post_ret {A} (a : A) (P : A -> Prop) : P a -> gen_post (mret a) P.
Proof. by intros H g b g' [= <- <-]. Qed.

Lemma post_bind {A B} (m : Gen G A) (f : A -> Gen G B) P Q :
  gen_post m P -> (forall a, P a -> gen_post (f a) Q) -> gen_post (m ≫= f) Q.
Proof.
  intros Hm Hf g b g' H. unfold mbind, Gen_bind in H. destruct (m g) as [[a g1]|] eqn:Hg; [|done].
  by eapply Hf; [eapply Hm|].
Qed.

Lemma post_weaken {A} (m : Gen G A) (P Q : A -> Prop) : gen_post m P -> (forall a, P a -> Q a) -> gen_post m Q.
Proof. intros Hm HPQ g a g' H. by eapply HPQ, Hm. Qed.

Lemma settles_bind {A B} (m : nat -> Gen G A) (f : nat -> A -> Gen G B) P :
  settles m -> (forall n, gen_post (m n) P) -> (forall a, P a -> settles (fun n => f n a)) -> settles (fun n => m n ≫= f n).
Proof.
  intros Hm HP Hf g. destruct (Hm g) as (n1 & [a g1] & H1). destruct (Hf a (HP _ _ _ _ (H1 n1 ltac:(lia))) g1) as (n2 & r & H2).
  exists (Nat.max n1 n2), r. intros n' Hn. unfold mbind, Gen_bind. rewrite H1 by lia. apply H2. lia.
Qed.

Lemma settles_once {A} (m : Gen G A) : (forall g, is_Some (m g)) -> settles (fun _ => m).
Proof. intros H g. destruct (H g) as [r Hr]. by exists 0%nat, r. Qed.

Lemma settles_ret {A} (a : A) : settles (fun _ => mret a).
Proof. apply settles_once. by intros g; eexists. Qed.

Lemma some_bind {A B} (m : Gen G A) (f : A -> Gen G B) :
  (forall g, is_Some (m g)) -> (forall a g, is_Some (f a g)) -> forall g, is_Some ((m ≫= f) g).
Proof. intros Hm Hf g. unfold mbind, Gen_bind. destruct (Hm g) as [[a g1] ->]. apply Hf. Qed.
End logic.

Section random.
Context {G : Type} {RG : Rng G} {RL : RngLaws G}.

Lemma post_randint lo hi : lo <= hi -> gen_post (randint lo hi) (fun v => lo <= v <= hi).
Proof.
  intros Hle g a g' H. unfold randint in H. pose proof (below_lt (hi - lo + 1) g ltac:(lia)) as Hb.
  destruct (below (hi - lo + 1) g) as [v g1]. simpl in Hb. injection H as <- <-. lia.
Qed.

Lemma post_draw {B} lo hi (f : N -> Gen G B) Q :
  lo <= hi -> (forall v, lo <= v <= hi -> gen_post (f v) Q) -> gen_post (randint lo hi ≫= f) Q.
Proof. intros Hle Hf. eapply post_bind; [by apply post_randint|]. exact Hf. Qed.

Lemma randint_some lo hi g : is_Some (randint lo hi g).
Proof. unfold randint. destruct (below _ _). by eexists. Qed.

Lemma post_below n : 0 < n -> gen_post (drawn (below n)) (fun v => v < n).
Proof. intros Hn g a g' [= H]. pose proof (below_lt n g Hn) as Hb. by rewrite H in Hb. Qed.

Lemma post_fill k : gen_post (drawn (fill k)) (fun s => String.length s = k).
Proof. intros g a g' [= H]. pose proof (fill_length k g) as Hb. by rewrite H in Hb. Qed.

Lemma drawn_some {A} (f : G -> A * G) g : is_Some (drawn f g).
Proof. by eexists. Qed.

(** *** Shuffling *)

Lemma swap_lt_perm {A} i j (l : list A) x y : (i < j)%nat -> l !! i = Some x -> l !! j = Some y -> <[j:=x]> (<[i:=y]> l) ≡ₚ l.
Proof.
  intros Hij Hx Hy. apply list_elem_of_split_length in Hx as (l1 & l2 & -> & ->).
  rewrite lookup_app_r in Hy by lia. destruct (j - length l1)%nat as [|k] eqn:E; [lia|]. simpl in Hy.
  apply list_elem_of_split_length in Hy as (l3 & l4 & -> & ->).
  rewrite insert_app_r_alt, Nat.sub_diag by lia. simpl. rewrite insert_app_r_alt by lia. rewrite E. simpl.
  rewrite insert_app_r_alt, Nat.sub_diag by lia. simpl. solve_Permutation.
Qed.

Lemma swap_perm {A} i j (l : list A) : swap i j l ≡ₚ l.
Proof.
  unfold swap. destruct (l !! i) as [x|] eqn:Hx; [|done]. destruct (l !! j) as [y|] eqn:Hy; [|done].
  destruct (lt_eq_lt_dec i j) as [[Hlt| ->]|Hgt].
  - by apply swap_lt_perm.
  - rewrite Hx in Hy. injection Hy as <-. by rewrite (list_insert_id l j x Hx), (list_insert_id l j x Hx).
  - rewrite list_insert_insert_ne by lia. by apply swap_lt_perm.
Qed.

Lemma post_shuffle {A} (l : list A) : gen_post (shuffle l) (fun k => l ≡ₚ k).
Proof.
  unfold shuffle. generalize (length l - 1)%nat as n. intros n. revert l.
  induction n as [|n IH]; intros l; [by apply post_ret|].
  intros g k g' H. simpl in H. destruct (below _ g) as [j g1]. apply IH in H.
  etransitivity; [symmetry; apply swap_perm|exact H].
Qed.

Lemma shuffle_some {A} (l : list A) g : is_Some (shuffle l g).
Proof.
  unfold shuffle. generalize (length l - 1)%nat as n. intros n. revert l g.
  induction n as [|n IH]; intros l g; [by eexists|]. simpl. destruct (below _ g) as [j g1]. apply IH.
Qed.

(** *** The loops *)

Lemma post_redraw fuel lo hi s0 s1 : lo <= s1 <= hi -> gen_post (redraw fuel lo hi s0 s1) (fun v => lo <= v <= hi /\ s0 + 56 <> v).
Proof.
  revert s1. induction fuel as [|fuel IH]; intros s1 Hs; simpl; destruct (s0 + 56 =? s1) eqn:E;
    try (apply post_ret; apply N.eqb_neq in E; done).
  - by intros g a g'.
  - apply post_draw; [lia|]. intros v Hv. by apply IH.
Qed.

Definition fresh_heads (heads : list N) : Prop := NoDup heads /\ Forall (fun h => 5 <= h <= UINT32) heads /\ (length heads <= 4)%nat.

Lemma fresh_push heads h : fresh_heads heads -> (length heads < 4)%nat -> 5 <= h <= UINT32 ->
  fresh_heads (if existsb (N.eqb h) heads then heads else heads ++ [h]).
Proof.
  intros (Hn & Hf & Hl) Hlt Hh. destruct (existsb (N.eqb h) heads) eqn:E; [done|].
  assert (Hni : h ∉ heads).
  { intros Hin. apply list_elem_of_In in Hin. assert (existsb (N.eqb h) heads = true) as Ht; [|congruence].
    apply existsb_exists. exists h. by rewrite N.eqb_refl. }
  split; [|split; [apply Forall_app; split; [done|by apply Forall_singleton]|rewrite length_app; simpl; lia]].
  apply NoDup_app. split; [done|]. split; [|apply NoDup_singleton]. by intros x Hx ->%list_elem_of_singleton.
Qed.

Lemma post_draw_heads fuel heads : fresh_heads heads ->
  gen_post (draw_heads fuel heads) (fun l => fresh_heads l /\ length l = 4%nat).
Proof.
  revert heads. induction fuel as [|fuel IH]; intros heads H; simpl; destruct (length heads <? 4)%nat eqn:E;
    try (apply post_ret; apply Nat.ltb_ge in E; split; [done|destruct H as (_ & _ & ?); lia]).
  - by intros g a g'.
  - apply Nat.ltb_lt in E. apply post_draw; [unfold UINT32; lia|].
    intros v Hv. apply IH. by apply fresh_push.
Qed.
End random.

(** ** The header values of each version *)

Lemma single_value version h : version =?s "3.1" = false -> 5 <= h <= UINT32 -> head_value version (fmt_N h) (h, h).
Proof.
  intros Hv Hh. split; [intros key; apply parse_single; lia|]. intros i. unfold head_ok. rewrite Hv.
  assert ((h <? 5) = false) as -> by lia. rewrite N.eqb_refl. simpl. by rewrite andb_false_r.
Qed.

Lemma singles_apart heads : NoDup heads -> heads_apart (map (fun h => (h, h)) heads) = true.
Proof.
  induction heads as [|h heads IH]; simpl; [done|]. intros [Hh Hn]%NoDup_cons. rewrite IH by done.
  rewrite andb_true_r. apply negb_true_iff. destruct (existsb _ _) eqn:E; [|done]. exfalso.
  apply existsb_exists in E as (r & Hr & Hm). apply in_map_iff in Hr as (k & <- & Hk). unfold ranges_meet in Hm. simpl in Hm.
  apply Hh. assert (h = k) as -> by lia. by apply list_elem_of_In.
Qed.

Lemma heads_of_distinct heads : fresh_heads heads -> length heads = 4%nat -> heads_good "1.5" (map fmt_N heads).
Proof.
  intros (Hn & Hf & _) Hl. exists (map (fun h => (h, h)) heads). split; [|split; [by apply singles_apart|by rewrite length_map]].
  apply Forall2_fmap. apply Forall_Forall2_diag. eapply Forall_impl; [exact Hf|]. intros h Hh. by apply single_value.
Qed.

(** A quarter of the header space holds its slot's range. *)
Definition in_quarter (slot : N) (value : string) (range : N * N) : Prop :=
  head_value "2.0" value range /\ 5 + slot * 1073741822 <= range.1 /\ range.1 <= range.2 /\ range.2 < 5 + (slot + 1) * 1073741822.

Section random_values.
Context {G : Type} {RG : Rng G} {RL : RngLaws G}.

Lemma post_quarter slot : slot <= 3 -> gen_post (quarter slot) (fun v => exists r, in_quarter slot v r).
Proof.
  intros Hs. unfold quarter. change ((UINT32 - 5) / 4) with 1073741822. change (1073741822 / 2) with 536870911.
  apply post_draw; [lia|]. intros a Ha. cbv zeta.
  apply post_draw; [lia|]. intros b Hb. apply post_ret.
  exists (5 + slot * 1073741822 + a, 5 + slot * 1073741822 + a + b). split; [|cbn [fst snd]; lia]. split.
  - intros key. apply parse_pair; unfold UINT32; lia.
  - intros i. unfold head_ok. simpl. by assert ((5 + slot * 1073741822 + a <? 5) = false) as -> by lia.
Qed.

Lemma quarters_good q0 q1 q2 q3 r0 r1 r2 r3 :
  in_quarter 0 q0 r0 -> in_quarter 1 q1 r1 -> in_quarter 2 q2 r2 -> in_quarter 3 q3 r3 -> heads_good "2.0" [q0; q1; q2; q3].
Proof.
  intros (H0 & L0) (H1 & L1) (H2 & L2) (H3 & L3). exists [r0; r1; r2; r3].
  split; [repeat first [apply Forall2_nil_2|apply Forall2_cons_2]; done|]. split; [|done].
  destruct r0, r1, r2, r3. cbn [heads_apart existsb]. unfold ranges_meet. simpl fst in *. simpl snd in *. lia.
Qed.

Lemma post_quarters : gen_post (draws (map quarter [0; 1; 2; 3])) (heads_good "2.0").
Proof.
  simpl map. cbn [draws].
  eapply post_bind; [apply (post_quarter 0); lia|]. intros q0 [r0 H0].
  eapply post_bind; [|intros l Hl; apply post_ret, Hl].
  eapply post_bind; [apply (post_quarter 1); lia|]. intros q1 [r1 H1].
  eapply (post_bind _ _ (fun l => exists q2 q3 r2 r3, l = [q2; q3] /\ in_quarter 2 q2 r2 /\ in_quarter 3 q3 r3)).
  - eapply post_bind; [apply (post_quarter 2); lia|]. intros q2 [r2 H2].
    eapply (post_bind _ _ (fun l => exists q3 r3, l = [q3] /\ in_quarter 3 q3 r3)).
    + eapply post_bind; [apply (post_quarter 3); lia|]. intros q3 [r3 H3].
      eapply (post_bind _ _ (fun l => l = [])); [by apply post_ret|]. intros l ->. apply post_ret. eauto.
    + intros l (q3 & r3 & -> & H3). apply post_ret. exists q2, q3, r2, r3. eauto.
  - intros l (q2 & q3 & r2 & r3 & -> & H2 & H3). apply post_ret. by eapply quarters_good.
Qed.

Lemma constants_good : heads_good "3.1" ["1"; "2"; "3"; "4"].
Proof.
  exists [(1, 1); (2, 2); (3, 3); (4, 4)]. split; [|done].
  repeat first [apply Forall2_nil_2|apply Forall2_cons_2]; (split; [intros key; vm_compute; reflexivity|by intros i]).
Qed.

Lemma post_header_values fuel version : version ∈ VERSIONS -> gen_post (header_values fuel version) (heads_good version).
Proof.
  intros Hv. unfold header_values. by_version Hv; simpl.
  - eapply post_bind; [apply post_draw_heads; split; [constructor|split; [constructor|simpl; lia]]|].
    intros heads [Hf Hl]. eapply post_bind; [apply post_shuffle|]. intros l Hp. apply post_ret.
    assert (Hp' : heads ≡ₚ l) by (rewrite <-Hp; symmetry; apply merge_sort_Permutation).
    apply (heads_good_perm _ (map fmt_N heads)); [by apply Permutation_map|by apply heads_of_distinct].
  - eapply post_bind; [apply post_quarters|]. intros l Hl. eapply post_weaken; [apply post_shuffle|].
    intros k Hk. by eapply heads_good_perm.
  - apply post_ret, constants_good.
Qed.

(** ** The first packet *)

Definition i1_text (first dcid tail : N) : string :=
  "<b 0x" +:+ pad0 2 (fmt_hex first) +:+ "00000001" +:+ pad0 2 (fmt_hex dcid) +:+ "><r " +:+ fmt_N dcid +:+ "><b 0x0000><t><r " +:+ fmt_N tail +:+ ">".

Lemma i1_texts : all_below 4 (fun a => all_below 6 (fun i => all_below 97 (fun t =>
  (t <? 32) || is_cps (i1_text (N.lor 0xC0 a) (nth (N.to_nat i) [8; 8; 8; 16; 18; 20] 0) t)))) = true.
Proof. vm_compute. reflexivity. Qed.

Lemma post_default_i1 : gen_post default_i1 (fun s => is_cps s = true).
Proof.
  unfold default_i1. apply post_draw; [lia|]. intros a Ha.
  eapply post_bind; [apply post_below; lia|]. intros i Hi. cbv beta in Hi. apply post_draw; [lia|]. intros t Ht.
  apply post_ret. pose proof (all_below_spec 4 _ i1_texts a ltac:(lia)) as H. cbv beta in H.
  apply (all_below_spec 6) with (i := i) in H; [|lia]. apply (all_below_spec 97) with (i := t) in H; [|lia].
  destruct (t <? 32) eqn:E; [lia|]. exact H.
Qed.

(** ** [generate] *)

Lemma post_s_draws fuel version : version ∈ VERSIONS -> gen_post (s_draws fuel version) (fun s =>
  let '(s0, s1, s2, s3) := s in s_floor version <= s0 <= 1132 /\ s_floor version <= s1 <= 1132 /\
    s_floor version <= s2 <= 1132 /\ s_floor version <= s3 <= 1132 /\ s0 + 56 <> s1).
Proof.
  intros Hv. assert (Hgen : forall lo hi lo' hi', s_floor version <= lo -> lo <= hi -> hi <= 1132 ->
    s_floor version <= lo' -> lo' <= hi' -> hi' <= 1132 ->
    gen_post (s0 ← randint lo hi; s1 ← randint lo hi; s2 ← randint lo' hi'; s3 ← randint lo' hi';
              s1 ← redraw fuel lo hi s0 s1; mret (s0, s1, s2, s3))
      (fun s => let '(s0, s1, s2, s3) := s in s_floor version <= s0 <= 1132 /\ s_floor version <= s1 <= 1132 /\
        s_floor version <= s2 <= 1132 /\ s_floor version <= s3 <= 1132 /\ s0 + 56 <> s1)).
  { intros lo hi lo' hi' ? ? ? ? ? ?. do 2 (apply post_draw; [done|]; intros ? ?).
    do 2 (apply post_draw; [done|]; intros ? ?).
    eapply post_bind; [by apply post_redraw|]. intros s1 [? ?]. apply post_ret. lia. }
  unfold s_draws. by_version Hv; apply Hgen; unfold s_floor, MIN_HEADER_PROTECTION_PADDING; simpl; lia.
Qed.
End random_values.

Section generate_ok.
Context {B64 : Base64} {BL : Base64Laws} {G : Type} {RG : Rng G} {RL : RngLaws G}.

Lemma post_generate fuel version mtu : version ∈ VERSIONS -> 25 <= mtu ->
  gen_post (generate fuel version mtu) (fun r => exists d, r = Ok (params_of version d) /\ drawn_ok version mtu d).
Proof.
  intros Hv Hm. unfold generate. rewrite (proj2 (mem_str_true _ _) Hv). cbn [negb].
  apply post_draw; [lia|]. intros jmin Hjmin.
  apply post_draw; [lia|]. intros j Hj. cbv zeta.
  apply post_draw; [lia|]. intros jc Hjc.
  eapply post_bind; [by apply post_s_draws|]. intros [[[s0 s1] s2] s3] Hs. cbv beta iota in Hs |- *.
  eapply post_bind; [by apply post_header_values|]. intros values Hh.
  assert (H4 : exists h1 h2 h3 h4, values = [h1; h2; h3; h4]).
  { destruct Hh as (_ & _ & _ & Hl). destruct values as [|h1 [|h2 [|h3 [|h4 [|]]]]]; try done. eauto 10. }
  destruct H4 as (h1 & h2 & h3 & h4 & ->).
  eapply post_bind; [apply post_default_i1|]. intros i1 Hi.
  assert (Hd : forall key, String.length key = 32%nat -> drawn_ok version mtu
    {| d_jc := jc; d_jmin := jmin; d_jmax := N.min (jmin + j) mtu; d_s0 := s0; d_s1 := s1; d_s2 := s2; d_s3 := s3;
       d_h1 := h1; d_h2 := h2; d_h3 := h3; d_h4 := h4; d_i1 := i1; d_key := key |}).
  { intros key Hk. destruct Hs as (? & ? & ? & ? & ?). constructor; simpl; try done; lia. }
  assert (Hfin : forall key out, String.length key = 32%nat ->
    out = params_of version {| d_jc := jc; d_jmin := jmin; d_jmax := N.min (jmin + j) mtu; d_s0 := s0; d_s1 := s1; d_s2 := s2; d_s3 := s3;
       d_h1 := h1; d_h2 := h2; d_h3 := h3; d_h4 := h4; d_i1 := i1; d_key := key |} ->
    gen_post (G := G) (mret (_ ← validate version out mtu; Ok out))
      (fun r => exists d, r = Ok (params_of version d) /\ drawn_ok version mtu d)).
  { intros key out Hk ->. apply post_ret. rewrite (validate_drawn _ _ _ (Hd key Hk)). eexists. split; [reflexivity|by apply Hd]. }
  assert (Hz : String.length (str_repeat 32 "0") = 32%nat) by done.
  by_version Hv; cbn [String.eqb Ascii.eqb Bool.eqb negb].
  - by apply (Hfin _ _ Hz).
  - by apply (Hfin _ _ Hz).
  - eapply post_bind; [apply post_fill|]. intros key Hk. by apply (Hfin _ _ Hk).
Qed.
End generate_ok.

(** ** A fair source ends the loops *)

(** The source after [k] draws below [n]. *)
Fixpoint after {G} `{Rng G} (k : nat) (n : N) (g : G) : G :=
  match k with O => g | S k => after k n (below n g).2 end.

(** No set of fewer than [n] values is drawn for ever. *)
Class FairRng (G : Type) `{Rng G} :=
  fair : forall n (bad : list N) g, N.of_nat (length bad) < n -> exists k, (below n (after k n g)).1 ∉ bad.

Section fair.
Context {G : Type} {RG : Rng G} {RL : RngLaws G} {FR : FairRng G}.

Lemma settles_redraw lo hi s0 s1 : lo < hi -> settles (fun n => redraw (G := G) n lo hi s0 s1).
Proof.
  intros Hlt g. destruct (s0 + 56 =? s1) eqn:E.
  2:{ exists 0%nat, (s1, g). intros [|n] _; simpl; by rewrite E. }
  destruct (fair (hi - lo + 1) [s0 + 56 - lo] g ltac:(simpl; lia)) as [k Hk]. revert g s1 E Hk.
  induction k as [|k IH]; intros g s1 E Hk; simpl in Hk; pose proof (below_lt (hi - lo + 1) g ltac:(lia)) as Hb;
    destruct (below (hi - lo + 1) g) as [v g1] eqn:Hg; simpl in Hb, Hk.
  - assert (Hv : (s0 + 56 =? lo + v) = false).
    { apply N.eqb_neq. intros Heq. apply Hk, list_elem_of_singleton. lia. }
    exists 1%nat, (lo + v, g1). intros [|[|n]] Hn; [lia| |]; simpl; rewrite E; unfold mbind, Gen_bind, randint; rewrite Hg; simpl; by rewrite Hv.
  - destruct (s0 + 56 =? lo + v) eqn:Hv.
    + destruct (IH g1 (lo + v) Hv Hk) as (m & r & Hm). exists (S m), r. intros [|n] Hn; [lia|].
      simpl. rewrite E. unfold mbind, Gen_bind, randint. rewrite Hg. apply Hm. lia.
    + exists 1%nat, (lo + v, g1). intros [|[|n]] Hn; [lia| |]; simpl; rewrite E; unfold mbind, Gen_bind, randint; rewrite Hg; simpl; by rewrite Hv.
Qed.

Lemma draw_heads_step n heads g v g1 : (length heads <? 4)%nat = true -> below (UINT32 - 5 + 1) g = (v, g1) ->
  draw_heads (S n) heads g = draw_heads n (if existsb (N.eqb (5 + v)) heads then heads else heads ++ [5 + v]) g1.
Proof. intros Hl Hg. simpl. rewrite Hl. unfold mbind, Gen_bind, randint. by rewrite Hg. Qed.

Lemma settles_draw_heads heads : settles (fun n => draw_heads (G := G) n heads).
Proof.
  remember (4 - length heads)%nat as left eqn:Hleft. revert heads Hleft.
  induction left as [|left IH]; intros heads Hleft g.
  { assert (Hl : (length heads <? 4)%nat = false) by (apply Nat.ltb_ge; lia).
    exists 0%nat, (heads, g). intros [|n] _; simpl; by rewrite Hl. }
  assert (Hl : (length heads <? 4)%nat = true) by (apply Nat.ltb_lt; lia). apply Nat.ltb_lt in Hl as Hl'.
  destruct (fair (UINT32 - 5 + 1) (map (fun h => h - 5) heads) g ltac:(rewrite length_map; unfold UINT32; lia)) as [k Hk]. revert g Hk.
  induction k as [|k IHk]; intros g Hk; cbn [after] in Hk; destruct (below (UINT32 - 5 + 1) g) as [v g1] eqn:Hg; cbn [fst snd] in Hk.
  - assert (Hv : existsb (N.eqb (5 + v)) heads = false).
    { destruct (existsb _ heads) eqn:E; [|done]. exfalso. apply existsb_exists in E as (h & Hh & ->%N.eqb_eq%eq_sym).
      apply Hk. apply list_elem_of_In, in_map_iff. exists (5 + v). split; [lia|done]. }
    destruct (IH (heads ++ [5 + v]) ltac:(rewrite length_app; simpl; lia) g1) as (m & r & Hm).
    exists (S m), r. intros [|n] Hn; [lia|]. rewrite (draw_heads_step _ _ _ _ _ Hl Hg), Hv. apply Hm. lia.
  - destruct (existsb (N.eqb (5 + v)) heads) eqn:Hv.
    + destruct (IHk g1 Hk) as (m & r & Hm). exists (S m), r. intros [|n] Hn; [lia|].
      rewrite (draw_heads_step _ _ _ _ _ Hl Hg), Hv. apply Hm. lia.
    + destruct (IH (heads ++ [5 + v]) ltac:(rewrite length_app; simpl; lia) g1) as (m & r & Hm).
      exists (S m), r. intros [|n] Hn; [lia|]. rewrite (draw_heads_step _ _ _ _ _ Hl Hg), Hv. apply Hm. lia.
Qed.

Lemma post_any {A} (m : Gen G A) : gen_post m (fun _ => True).
Proof. by intros g a g'. Qed.

(** A draw before the rest. *)
Lemma settles_draw {B} lo hi (f : nat -> N -> Gen G B) :
  (forall v, settles (fun n => f n v)) -> settles (fun n => randint lo hi ≫= f n).
Proof.
  intros Hf. eapply (settles_bind (fun _ => randint lo hi) f (fun _ => True)).
  - apply settles_once. apply randint_some.
  - intros _. apply post_any.
  - intros v _. apply Hf.
Qed.

Lemma settles_s_draws version : settles (fun n => s_draws (G := G) n version).
Proof.
  assert (Hgen : forall lo hi lo' hi', lo < hi ->
    settles (fun n => s0 ← randint (G := G) lo hi; s1 ← randint lo hi; s2 ← randint lo' hi'; s3 ← randint lo' hi';
              s1 ← redraw n lo hi s0 s1; mret (s0, s1, s2, s3))).
  { intros lo hi lo' hi' Hlt. apply settles_draw. intros s0. apply settles_draw. intros s1. apply settles_draw. intros s2.
    apply settles_draw. intros s3. eapply settles_bind; [by apply settles_redraw|intros n; apply post_any|].
    intros v _. apply settles_ret. }
  unfold s_draws. destruct (version =?s "3.1"); by apply Hgen.
Qed.

Lemma draws_some {A} (l : list (Gen G A)) : (forall d, d ∈ l -> forall g, is_Some (d g)) -> forall g, is_Some (draws l g).
Proof.
  induction l as [|d l IH]; intros H; [by intros g; eexists|]. simpl. apply some_bind; [apply H; by left|].
  intros a. apply some_bind; [apply IH; intros d' Hd; apply H; by right|]. intros r g. by eexists.
Qed.

Lemma quarter_some slot (g : G) : is_Some (quarter slot g).
Proof.
  unfold quarter. apply some_bind; [apply randint_some|]. intros a. apply some_bind; [apply randint_some|].
  intros b g'. by eexists.
Qed.

Lemma settles_header_values version : settles (fun n => header_values (G := G) n version).
Proof.
  unfold header_values. destruct (version =?s "1.5"); [|destruct (version =?s "2.0"); [|apply settles_ret]].
  - eapply settles_bind; [apply settles_draw_heads|intros n; apply post_any|]. intros heads _.
    apply settles_once. apply some_bind; [apply shuffle_some|]. intros l g. by eexists.
  - apply settles_once. apply some_bind; [|intros l g; apply shuffle_some]. apply draws_some.
    intros d Hd. apply list_elem_of_In, in_map_iff in Hd as (slot & <- & _). apply quarter_some.
Qed.

Lemma default_i1_some (g : G) : is_Some (default_i1 g).
Proof.
  unfold default_i1. apply some_bind; [apply randint_some|]. intros a. apply some_bind; [apply drawn_some|].
  intros i. apply some_bind; [apply randint_some|]. intros t g'. by eexists.
Qed.

Lemma settles_generate `{Base64} version mtu : settles (fun n => generate (G := G) n version mtu).
Proof.
  unfold generate. destruct (negb _); [apply settles_ret|]. do 3 (apply settles_draw; intros ?). cbv zeta.
  eapply settles_bind; [apply settles_s_draws|intros n; apply post_any|]. intros [[[s0 s1] s2] s3] _. cbv beta iota.
  eapply settles_bind; [apply settles_header_values|intros n; apply post_any|]. intros values _.
  apply settles_once. apply some_bind; [apply default_i1_some|]. intros i1 g. destruct (version =?s "3.1"); [|by eexists].
  revert g. apply some_bind; [apply drawn_some|]. intros key g. by eexists.
Qed.
End fair.

(** ** A fair source to run *)

(** A counter: consecutive draws run through all residues. *)
#[export] Instance counter_rng : Rng N := {
  below := fun n g => (g mod n, g + 1);
  fill := fun k g => (str_repeat k "k", g + 1);
}.

#[export] Instance counter_laws : RngLaws N.
Proof.
  split.
  - intros n g Hn. simpl. apply N.mod_lt. lia.
  - intros k g. cbn [fill counter_rng fst]. induction k as [|k IH]; [done|]. cbn [str_repeat]. by rewrite length_app_s, IH.
Qed.

Lemma counter_after k n (g : N) : after k n g = g + N.of_nat k.
Proof. revert g. induction k as [|k IH]; intros g; cbn [after]; [lia|]. rewrite IH. simpl. lia. Qed.

Lemma residues_apart n g x y : (g + N.of_nat x) mod n = (g + N.of_nat y) mod n -> N.of_nat x < n -> N.of_nat y < n -> x = y.
Proof.
  intros Heq Hx Hy. pose proof (N.div_mod (g + N.of_nat x) n ltac:(lia)) as H1. pose proof (N.div_mod (g + N.of_nat y) n ltac:(lia)) as H2.
  rewrite Heq in H1. set (q1 := (g + N.of_nat x) / n) in *. set (q2 := (g + N.of_nat y) / n) in *. clearbody q1 q2.
  destruct (N.lt_trichotomy q1 q2) as [Hlt|[Hlt|Hlt]]; [|subst; lia|]; exfalso.
  - assert (n * q1 + n <= n * q2) by nia. lia.
  - assert (n * q2 + n <= n * q1) by nia. lia.
Qed.

#[export] Instance counter_fair : FairRng N.
Proof.
  intros n bad g Hl. destruct (decide (Exists (fun k => (g + N.of_nat k) mod n ∉ bad) (seq 0 (S (length bad))))) as [He|He].
  - apply Exists_exists in He as (k & _ & Hk). exists k. by rewrite counter_after.
  - exfalso. apply not_Exists_Forall in He; [|intros k; apply _]. rewrite Forall_forall in He.
    set (vs := map (fun k => (g + N.of_nat k) mod n) (seq 0 (S (length bad)))).
    assert (Hsub : vs ⊆+ bad).
    { apply NoDup_submseteq.
      - apply NoDup_fmap_2_strong; [|apply NoDup_seq]. intros x y Hx Hy Heq.
        apply elem_of_seq in Hx, Hy. cbv beta in Heq. apply (residues_apart n g); lia.
      - intros v Hv. apply list_elem_of_fmap in Hv as (k & -> & Hk). specialize (He k Hk). by apply dec_stable. }
    apply submseteq_length in Hsub. subst vs. rewrite length_map, length_seq in Hsub. lia.
Qed.

(** ** Properties *)

(** C35: [generate] never refuses its own parameters: for a known version and an MTU above the smallest
    packet, whatever a fair random source draws, the loops end and the parameters returned are those
    that validation accepts unchanged. *)
Theorem generate_valid {B64 : Base64} {BL : Base64Laws} {G : Type} {RG : Rng G} {RL : RngLaws G} {FR : FairRng G}
  (version : string) (mtu : N) (g : G) (Hv : version ∈ VERSIONS) (Hm : 25 <= mtu) :
  exists fuel p g', (forall n, (fuel <= n)%nat -> generate n version mtu g = Some (Ok p, g'))
    /\ validate version p mtu = Ok p.
Proof.
  destruct (settles_generate version mtu g) as (fuel & [r g'] & Hf).
  destruct (post_generate fuel version mtu Hv Hm g r g' (Hf fuel ltac:(lia))) as (d & -> & Hd).
  exists fuel, (params_of version d), g'. split; [exact Hf|by apply validate_drawn].
Qed.

Lemma generate_valid_witness : exists fuel p g', (forall n, (fuel <= n)%nat -> generate n "2.0" 1280 7 = Some (Ok p, g'))
    /\ validate "2.0" p 1280 = Ok p.
Proof. apply (generate_valid "2.0" 1280 (7 : N)); [by vm_compute; right; left|lia]. Defined.

(** The system's random source is unbiased: every draw below [n] is a word below the limit reduced
    modulo [n], and each residue has exactly the same number of words below the limit; the limit leaves
    out fewer than [n] of the words, so that a source of words that does not stay above it is answered. *)
Theorem system_below_unbiased {W : Type} (next_word : W -> N * W) (n : N) (Hn : 0 < n) (Hn' : n < 2 ^ 64) :
  exists q, 0 < q /\ draw_limit n = n * q /\ 2 ^ 64 - 1 < draw_limit n + n
    /\ (forall fuel w v w', system_below next_word fuel n w = Some (v, w') -> v < n)
    /\ (forall r, r < n -> forall v, (v < draw_limit n /\ v mod n = r) <-> exists i, i < q /\ v = r + n * i)
    /\ (forall w, (next_word w).1 < draw_limit n -> system_below next_word 1 n w = Some ((next_word w).1 mod n, (next_word w).2)).
Proof.
  pose proof (N.div_mod (2 ^ 64 - 1) n ltac:(lia)) as Hd. pose proof (N.mod_lt (2 ^ 64 - 1) n ltac:(lia)) as Hlt.
  exists ((2 ^ 64 - 1) / n). unfold draw_limit. set (q := (2 ^ 64 - 1) / n) in *. set (m := (2 ^ 64 - 1) mod n) in *.
  assert (Hq : 0 < q) by (apply N.div_str_pos; lia). split; [done|]. split; [lia|]. split; [lia|]. split; [|split].
  - intros fuel. induction fuel as [|fuel IH]; intros w v w' H; simpl in H; [done|].
    destruct (next_word w) as [x w1]. destruct (x <? _); [|by apply IH in H]. injection H as <- _. apply N.mod_lt. lia.
  - intros r Hr v. pose proof (N.div_mod v n ltac:(lia)) as Hv. split.
    + intros [Hlim Hm]. exists (v / n). split; [|lia]. apply N.Div0.div_lt_upper_bound. lia.
    + intros (i & Hi & ->). split; [nia|]. rewrite N.mul_comm, N.Div0.mod_add. by apply N.mod_small.
  - intros w H. simpl. destruct (next_word w) as [x w']. simpl in *. unfold draw_limit. fold m.
    by assert ((x <? 2 ^ 64 - 1 - m) = true) as -> by lia.
Qed.

Lemma system_below_unbiased_witness :
  exists q, 0 < q /\ draw_limit 6 = 6 * q /\ 2 ^ 64 - 1 < draw_limit 6 + 6
    /\ (forall fuel w v w', system_below (fun w => (w, w + 1)) fuel 6 w = Some (v, w') -> v < 6)
    /\ (forall r, r < 6 -> forall v, (v < draw_limit 6 /\ v mod 6 = r) <-> exists i, i < q /\ v = r + 6 * i)
    /\ (forall w, w < draw_limit 6 -> system_below (fun w => (w, w + 1)) 1 6 w = Some (w mod 6, w + 1)).
Proof. apply (system_below_unbiased (fun w : N => (w, w + 1)) 6); lia. Defined.
