(* ===== verification/AwgConfig.v ===== *)
(** * The AmneziaWG manager's configuration

    [awg_manager/src/config.rs] with the helpers of [awg_manager/src/util.rs] it uses. The environment
    is the function of its lookups; [str::trim] and [str::to_lowercase] are Rust's. *)

From S2P Require Import Prelude BTree Utf8 Numeric PyText IpAddr IndexMap AwgNet.

(** ** [util.rs] *)

(** [char::is_whitespace]. *)
Definition rust_space (c : char) : bool :=
  in_range 0x09 0x0d c || (c =? 0x20)%N || (c =? 0x85)%N || (c =? 0xa0)%N || (c =? 0x1680)%N
  || in_range 0x2000 0x200a c || (c =? 0x2028)%N || (c =? 0x2029)%N || (c =? 0x202f)%N
  || (c =? 0x205f)%N || (c =? 0x3000)%N.

(** [str::trim]. *)
Definition trim (text : string) : string := of_chars (trim_matches rust_space (chars text)).

Definition underscore : Ascii.ascii := "_"%char.

(** [text.replace(b, "")]. *)
Fixpoint drop_byte (b : Ascii.ascii) (s : string) : string :=
  match s with
  | EmptyString => EmptyString
  | String a s' => if Ascii.eqb a b then drop_byte b s' else String a (drop_byte b s')
  end.

Definition is_radix_digit (base : N) (a : Ascii.ascii) : bool :=
  match digit_val base a with Some _ => true | None => false end.

(** Python's [int(text, base)] for bases 8 and 10. *)
Definition parse_py_int (text : string) (base : N) : option Z :=
  let text := trim text in
  let '(negative, digits) :=
    match text with
    | String a rest => if Ascii.eqb a "-"%char then (true, rest) else if Ascii.eqb a "+"%char then (false, rest) else (false, text)
    | EmptyString => (false, text)
    end in
  let digits :=
    if (base =? 8)%N
    then match strip_prefix "0o" digits with Some d => d | None => default digits (strip_prefix "0O" digits) end
    else digits in
  if str_empty digits || String.prefix "_" digits || is_byte underscore (last_byte digits) || contains_s "__" digits then None else
  let cleaned := drop_byte underscore digits in
  if negb (forallb_s (is_radix_digit base) cleaned) then None else
  value ← digits_val base cleaned;
  if (i64_max <? Z.of_N value)%Z then None else Some (if negative then - Z.of_N value else Z.of_N value)%Z.

(** [py_repr]: the branches of [PyText.repr_char] with every character printable. *)
Definition quote_repr (text : string) : string := repr_with_printable (fun _ => true) text.

(** ** [config.rs] *)

Definition KNOWN_VERSIONS : list string := ["1.5"; "2.0"; "3.1"].
Definition DEFAULT_PORTS : list (string * string) := [("1.5", "51820"); ("2.0", "51821"); ("3.1", "51822")].
Definition DEFAULT_SUBNETS : list (string * string) :=
  [("1.5", "10.66.15.0/24"); ("2.0", "10.66.20.0/24"); ("3.1", "10.66.31.0/24")].
Definition LOG_LEVELS : list string := ["verbose"; "error"; "silent"].
Definition PRIVATE : list string := ["10.0.0.0/8"; "172.16.0.0/12"; "192.168.0.0/16"].

(** [ConfigError]; [CfgPanic] is indexing a map with a missing key. *)
Inductive AwgConfigError := CfgError (message : string) | CfgPanic.
Abbreviation GR := (result AwgConfigError).
Definition cfg_fail {A} (message : string) : GR A := Err (CfgError message).
Definition cfg_index {V} (key : string) (m : imap V) : GR V := bget key m or_err CfgPanic.

Definition interface_name (version : string) : string := "awg" +:+ drop_byte "."%char version.

Record AwgConfig := {
  token_file : string; socket : string; socket_mode : Z; state_dir : string; versions : list string;
  ports : bmap Z; subnets : bmap Ipv4Net; mtu : Z; dns : list string; nat_ : bool; log_level : string;
  obfuscation_file : option string; router_tun : option string; router_uid : Z;
}.

Definition comma : Ascii.ascii := ","%char.

(** The loop of [pairs]: the map so far and the keys seen. *)
Fixpoint pair_items (name : string) (items : list string) (out : imap string) (seen : list string) : GR (imap string) :=
  match items with
  | [] => Ok out
  | item :: rest =>
      let item := trim item in
      if str_empty item then pair_items name rest out seen else
      let '(key, value) := match split_once "="%char item with
                           | Some (key, value) => (trim key, trim value)
                           | None => ("", "")
                           end in
      if negb (contains_s "=" item) || negb (mem_str key KNOWN_VERSIONS) || str_empty value || mem_str key seen
      then cfg_fail (name +:+ ": bad entry " +:+ quote_repr item)
      else pair_items name rest (iset key value out) (seen ++ [key])
  end.

Definition pairs (raw name : string) (defaults : list (string * string)) : GR (imap string) :=
  pair_items name (split_byte comma raw) (icollect defaults) [].

Definition cfg_int (raw name : string) (base : N) : GR Z := parse_py_int raw base or_err CfgError (name +:+ ": not a number").

Definition is_lower (a : Ascii.ascii) : bool := let n := Ascii.N_of_ascii a in ((97 <=? n) && (n <=? 122))%N.
Definition is_short_interface (name : string) : bool :=
  (2 <=? String.length name)%nat && (String.length name <=? 15)%nat
  && match name with
     | String a rest => is_lower a && forallb_s (fun b => is_lower b || is_digit b) rest
     | EmptyString => false
     end.

(** The words a comma-separated variable lists. *)
Definition words (raw : string) : list string :=
  List.filter (fun v => negb (str_empty v)) (map trim (split_byte comma raw)).

(** [sort(); dedup(); len()] against the length. *)
Definition repeated (l : list string) : bool := negb (length (dedup (sort_str l)) =? length l)%nat.

Fixpoint insert_int (z : Z) (l : list Z) : list Z :=
  match l with [] => [z] | x :: l' => if (x <? z)%Z then x :: insert_int z l' else z :: l end.
Fixpoint dedup_int (l : list Z) : list Z :=
  match l with
  | x :: l' => match l' with y :: _ => if (x =? y)%Z then dedup_int l' else x :: dedup_int l' | [] => [x] end
  | [] => []
  end.
Definition repeated_int (l : list Z) : bool := negb (length (dedup_int (foldr insert_int [] l)) =? length l)%nat.

Definition private_networks : list Ipv4Net :=
  omap (fun p => match ip_network p true with Some (V4 net) => Some net | _ => None end) PRIVATE.

(** One turn of the loop over the subnets. *)
Definition read_subnet (subnets_raw : imap string) (v : string) : GR Ipv4Net :=
  raw ← cfg_index v subnets_raw;
  net ← match ip_network raw true with
        | None => cfg_fail ("AWG_SUBNETS[" +:+ v +:+ "]: invalid network")
        | Some (V4 net) => if ((24 <=? prefix net) && (prefix net <=? 28))%N then Ok net
                           else cfg_fail ("AWG_SUBNETS[" +:+ v +:+ "]: must be an IPv4 /24 to /28")
        | Some V6 => cfg_fail ("AWG_SUBNETS[" +:+ v +:+ "]: must be an IPv4 /24 to /28")
        end;
  if negb (existsb (subnet_of net) private_networks)
  then cfg_fail ("AWG_SUBNETS[" +:+ v +:+ "]: must be inside a private range") else Ok net.

Fixpoint nets_overlap (nets : list Ipv4Net) : bool :=
  match nets with [] => false | a :: rest => existsb (overlaps a) rest || nets_overlap rest end.

Definition check (b : bool) (message : string) : GR unit := if b then cfg_fail message else Ok tt.

Section from_env.
Context {UT : UnicodeText}.

Definition boolean (raw name : string) : GR bool :=
  let word := to_lowercase (trim raw) in
  if mem_str word ["1"; "true"; "yes"; "on"] then Ok true
  else if mem_str word ["0"; "false"; "no"; "off"] then Ok false
  else cfg_fail (name +:+ ": expected true or false").

Definition from_env (env : string -> option string) : GR AwgConfig :=
  let get key default := match env key with Some v => trim v | None => default end in
  _ ← check (str_empty (get "AWG_MANAGER_TOKEN_FILE" "")) "AWG_MANAGER_TOKEN_FILE is required";
  let versions := words (get "AWG_VERSIONS" "1.5,2.0,3.1") in
  _ ← check (match versions with [] => true | _ => false end || repeated versions) "AWG_VERSIONS: empty or duplicated";
  _ ← match List.find (fun v => negb (mem_str v KNOWN_VERSIONS)) versions with
      | Some unknown => cfg_fail ("AWG_VERSIONS: unknown version " +:+ quote_repr unknown)
      | None => Ok tt
      end;
  ports_raw ← pairs (get "AWG_PORTS" "") "AWG_PORTS" DEFAULT_PORTS;
  port_list ← mapM (fun v => raw ← cfg_index v ports_raw; cfg_int raw ("AWG_PORTS[" +:+ v +:+ "]") 10) versions;
  let ports := bcollect (zip versions port_list) in
  _ ← try_for (fun v => port ← cfg_index v ports;
        check (negb ((1024 <=? port) && (port <=? 65535)))%Z ("AWG_PORTS[" +:+ v +:+ "]: must be 1024-65535")) versions;
  _ ← check (repeated_int (map snd ports)) "AWG_PORTS: ports must be distinct";
  subnets_raw ← pairs (get "AWG_SUBNETS" "") "AWG_SUBNETS" DEFAULT_SUBNETS;
  nets ← mapM (read_subnet subnets_raw) versions;
  _ ← check (nets_overlap nets) "AWG_SUBNETS: subnets overlap";
  mtu ← cfg_int (get "AWG_MTU" "1280") "AWG_MTU" 10;
  _ ← check (negb ((1280 <=? mtu) && (mtu <=? 1420)))%Z "AWG_MTU: must be 1280-1420";
  let dns := words (get "AWG_DNS" "1.1.1.1,1.0.0.1") in
  _ ← check (negb ((1 <=? length dns) && (length dns <=? 4)))%nat "AWG_DNS: 1 to 4 addresses";
  _ ← match List.find (fun d => negb (is_ip_address d)) dns with
      | Some bad => cfg_fail ("AWG_DNS: invalid address " +:+ quote_repr bad)
      | None => Ok tt
      end;
  let log_level := to_lowercase (get "AWG_LOG_LEVEL" "error") in
  _ ← check (negb (mem_str log_level LOG_LEVELS)) "AWG_LOG_LEVEL: verbose, error or silent";
  mode ← cfg_int (get "AWG_MANAGER_SOCKET_MODE" "660") "AWG_MANAGER_SOCKET_MODE" 8;
  _ ← check (negb ((0 <? mode) && (mode <=? 511)) || negb (Z.land mode 7 =? 0))%Z
        "AWG_MANAGER_SOCKET_MODE: must not grant access to others";
  let socket := get "AWG_MANAGER_SOCKET" "/run/awg-manager/manager.sock" in
  let state_dir := get "AWG_STATE_DIR" "/var/lib/awg-manager" in
  _ ← check (negb (String.prefix "/" socket) || negb (String.prefix "/" state_dir))
        "AWG_MANAGER_SOCKET and AWG_STATE_DIR must be absolute";
  let obfuscation_file := get "AWG_OBFUSCATION_FILE" "" in
  let router_tun := let tun := get "AWG_EGRESS_ROUTER_TUN" "" in if str_empty tun then None else Some tun in
  _ ← check (match router_tun with Some tun => negb (is_short_interface tun) | None => false end)
        "AWG_EGRESS_ROUTER_TUN: a short interface name";
  router_uid ← cfg_int (get "AWG_EGRESS_ROUTER_UID" "10006") "AWG_EGRESS_ROUTER_UID" 10;
  _ ← check (negb ((1 <=? router_uid) && (router_uid <=? 65534)))%Z "AWG_EGRESS_ROUTER_UID: a uid";
  nat ← boolean (get "AWG_NAT" "true") "AWG_NAT";
  Ok {| token_file := get "AWG_MANAGER_TOKEN_FILE" ""; socket := socket; socket_mode := mode; state_dir := state_dir;
        versions := versions; ports := ports; subnets := bcollect (zip versions nets); mtu := mtu; dns := dns; nat_ := nat;
        log_level := log_level; obfuscation_file := (if str_empty obfuscation_file then None else Some obfuscation_file);
        router_tun := router_tun; router_uid := router_uid |}.
End from_env.
