(* ===== verification/AwgConfigFacts.v ===== *)
(** * What an accepted AmneziaWG configuration guarantees

    The facts of [AwgConfig.from_env]: it never panics on a missing key, and the configuration it
    returns is consistent. *)

From stdpp Require Import sorting.
From S2P Require Import Prelude BTree Utf8 Numeric PyText IpAddr IndexMap AwgNet AwgNetFacts ConfigProps AwgConfig.

(** ** Entries collected in order *)

Lemma bset_fresh_perm {V} k (v : V) m : bget k m = None -> bset k v m ≡ₚ (k, v) :: m.
Proof.
  induction m as [|[q w] m IH]; simpl; [done|]. destruct (k =?s q) eqn:Hk; [done|]. intros H.
  destruct (str_ltb k q) eqn:Hl; [done|]. destruct (str_ltb q k) eqn:Hr.
  2: { apply eqb_s_false in Hk. by destruct Hk; apply str_ltb_total. }
  etransitivity; [by apply perm_skip, IH|apply Permutation_swap].
Qed.

Lemma bcollect_fold_perm {V} (l : list (string * V)) m :
  NoDup (map fst (l ++ m)) -> fold_left (fun m kv => bset kv.1 kv.2 m) l m ≡ₚ l ++ m.
Proof.
  revert m. induction l as [|[k v] l IH]; intros m; [done|]. simpl. rewrite NoDup_cons. intros [Hk Hnd].
  assert (Hb : bset k v m ≡ₚ (k, v) :: m).
  { apply bset_fresh_perm, bget_None. rewrite map_app, elem_of_app in Hk. intros H. apply Hk. by right. }
  rewrite IH; rewrite Hb.
  - by rewrite Permutation_middle.
  - rewrite <-Permutation_middle. simpl. apply NoDup_cons. done.
Qed.

Lemma bcollect_perm {V} (l : list (string * V)) : NoDup (map fst l) -> bcollect l ≡ₚ l.
Proof. intros H. unfold bcollect. rewrite bcollect_fold_perm; rewrite app_nil_r; done. Qed.

(** ** The parts of [from_env] *)

Lemma check_Ok b m u : check b m = Ok u -> b = false.
Proof. by destruct b. Qed.

Lemma repeated_spec l : repeated l = false <-> NoDup l.
Proof.
  apply (repeats_by str_ltb String.eqb);
    [apply eqb_s_true|apply str_ltb_irrefl|apply str_ltb_trans|apply str_ltb_total].
Qed.
Lemma repeated_int_spec l : repeated_int l = false <-> NoDup l.
Proof. apply (repeats_by Z.ltb Z.eqb); intros; lia. Qed.

(** Every version has an entry: the defaults name them all. *)
Definition complete {V} (m : imap V) : Prop := forall v, v ∈ KNOWN_VERSIONS -> is_Some (bget v m).

Lemma complete_iset {V} k (v : V) m : complete m -> complete (iset k v m).
Proof. intros H w Hw. rewrite bget_iset. destruct (w =?s k); eauto. Qed.

Lemma pair_items_complete name items out seen m :
  complete out -> pair_items name items out seen = Ok m -> complete m.
Proof.
  revert out seen. induction items as [|item items IH]; intros out seen Hc; simpl; [by intros [= <-]|].
  destruct (str_empty _); [by apply IH|]. destruct (match split_once _ _ with Some _ => _ | None => _ end) as [k v].
  destruct (_ || _); [done|]. apply IH. by apply complete_iset.
Qed.

Lemma complete_defaults : complete (icollect DEFAULT_PORTS) /\ complete (icollect DEFAULT_SUBNETS).
Proof.
  split; intros v; revert v; apply Forall_forall; repeat (apply Forall_cons; split; [by eexists|]); by apply Forall_nil.
Qed.

(** A part that cannot panic. *)
Definition quiet {A} (r : GR A) : Prop := r <> Err CfgPanic.

Lemma quiet_bind {A B} (f : A -> GR B) r : quiet r -> (forall a, r = Ok a -> quiet (f a)) -> quiet (r ≫= f).
Proof. intros Hr Hf. destruct r as [a|e]; simpl; [by apply Hf|]. unfold quiet in *. congruence. Qed.
Lemma quiet_Ok {A} (a : A) : quiet (Ok a).
Proof. done. Qed.
Lemma quiet_check b m : quiet (check b m).
Proof. by destruct b. Qed.
Lemma quiet_fail {A} m : quiet (cfg_fail m : GR A).
Proof. done. Qed.
Lemma quiet_int raw name base : quiet (cfg_int raw name base).
Proof. unfold cfg_int. by destruct (parse_py_int raw base). Qed.
Lemma quiet_index {V} k (m : imap V) : is_Some (bget k m) -> quiet (cfg_index k m).
Proof. unfold cfg_index. by intros [v ->]. Qed.
Lemma quiet_find {A} (o : option A) (f : A -> string) : quiet (match o with Some a => cfg_fail (f a) | None => Ok tt end).
Proof. by destruct o. Qed.

Lemma quiet_mapM {A B} (f : A -> GR B) l : Forall (fun a => quiet (f a)) l -> quiet (mapM f l).
Proof.
  induction 1 as [|a l Ha Hl IH]; simpl; [done|]. apply quiet_bind; [done|]. intros b _.
  apply quiet_bind; [done|]. done.
Qed.
Lemma quiet_try_for {A} (f : A -> GR unit) l : Forall (fun a => quiet (f a)) l -> quiet (try_for f l).
Proof. induction 1 as [|a l Ha Hl IH]; simpl; [done|]. unfold quiet in *. destruct (f a); congruence. Qed.

Lemma quiet_pairs raw name defaults : quiet (pairs raw name defaults).
Proof.
  unfold pairs. generalize (icollect defaults), (@nil string).
  induction (split_byte comma raw) as [|item items IH]; intros out seen; simpl; [done|].
  destruct (str_empty _); [apply IH|]. destruct (match split_once _ _ with Some _ => _ | None => _ end).
  destruct (_ || _); [done|apply IH].
Qed.

Lemma quiet_subnet raw v : is_Some (bget v raw) -> quiet (read_subnet raw v).
Proof.
  intros H. unfold read_subnet. apply quiet_bind; [by apply quiet_index|]. intros text _.
  apply quiet_bind; [|by intros net _; destruct (negb _)].
  destruct (ip_network text true) as [[net|]|]; try done. by destruct (_ && _).
Qed.

Create HintDb quiet.
#[export] Hint Resolve quiet_Ok quiet_check quiet_fail quiet_int quiet_find quiet_pairs : quiet.

(** ** What was accepted *)

(** The addresses of the private ranges of RFC 1918. *)
Definition rfc1918 (a : N) : Prop :=
  (0x0a000000 <= a <= 0x0affffff \/ 0xac100000 <= a <= 0xac1fffff \/ 0xc0a80000 <= a <= 0xc0a8ffff)%N.

Lemma private_ranges n : existsb (subnet_of n) private_networks = true -> net_ok n ->
  forall a, (a < 2 ^ 32)%N -> contains n a = true -> rfc1918 a.
Proof.
  assert (private_networks = [{| network := 0x0a000000; prefix := 8 |}; {| network := 0xac100000; prefix := 12 |};
    {| network := 0xc0a80000; prefix := 16 |}]) as -> by (vm_compute; reflexivity).
  intros H Hn a Ha Hc. apply contains_iff in Hc; [|done..]. apply existsb_exists in H as (p & Hp & Hs).
  apply subnet_of_iff in Hs. unfold rfc1918.
  destruct Hp as [<-|[<-|[<-|[]]]]; destruct Hs as [Hs1 Hs2]; cbn [network] in Hs1;
    (match type of Hs2 with (_ <= ?b)%N => let v := eval vm_compute in b in change b with v in Hs2 end); lia.
Qed.

Definition subnet_ok (n : Ipv4Net) : Prop :=
  net_ok n /\ (24 <= prefix n <= 28)%N /\ (forall a, (a < 2 ^ 32)%N -> contains n a = true -> rfc1918 a).

Lemma read_subnet_ok raw v n : read_subnet raw v = Ok n -> subnet_ok n.
Proof.
  unfold read_subnet. intros H. inv_binds. destruct (negb (existsb _ _)) eqn:He; [done|]. apply Ok_inj in H as <-.
  destruct (ip_network a true) as [[net|]|] eqn:Hi; try done. destruct (_ && _) eqn:Hp; [|done].
  apply Ok_inj in Hr0 as <-. apply ip_network_ok in Hi. apply negb_false_iff in He. split; [done|]. split; [lia|].
  by apply private_ranges.
Qed.

Definition disjoint_nets (n m : Ipv4Net) : Prop :=
  forall a, (a < 2 ^ 32)%N -> contains n a = true -> contains m a = true -> False.

Lemma nets_overlap_disjoint nets : Forall subnet_ok nets -> nets_overlap nets = false ->
  forall i j n m, i <> j -> nets !! i = Some n -> nets !! j = Some m -> disjoint_nets n m.
Proof.
  intros Hok Ho. assert (Hlt : forall i j n m, (i < j)%nat -> nets !! i = Some n -> nets !! j = Some m -> disjoint_nets n m).
  { induction nets as [|x nets IH]; [done|]. simpl in Ho. apply orb_false_iff in Ho as [Hx Ho].
    apply Forall_cons in Hok as [Hxk Hok]. intros [|i] [|j] n m Hij Hi Hj; [lia| |lia|].
    - injection Hi as <-. simpl in Hj. apply list_elem_of_lookup_2 in Hj. pose proof (proj1 (Forall_forall _ _) Hok _ Hj) as Hm.
      intros a Ha Hn' Hm'. apply contains_iff in Hn', Hm'; [|apply Hm|done|apply Hxk|done].
      enough (overlaps x m = true) as Hc.
      { assert (existsb (overlaps x) nets = true); [|congruence]. apply existsb_exists. exists m. by rewrite <-list_elem_of_In. }
      apply overlaps_iff; [apply Hxk|apply Hm|]. lia.
    - apply (IH Hok Ho i j); [lia|done|done]. }
  intros i j n m Hij Hi Hj. destruct (Nat.lt_total i j) as [H|[H|H]]; [by apply (Hlt i j)|done|].
  intros a Ha Hn Hm. by apply (Hlt j i m n H Hj Hi a).
Qed.

(** The values zipped with the versions, as a map. *)
Lemma bcollect_zip {V} (vs : list string) (l : list V) : NoDup vs -> length vs = length l ->
  bcollect (zip vs l) ≡ₚ zip vs l /\ bkeys (bcollect (zip vs l)) ≡ₚ vs /\ map snd (bcollect (zip vs l)) ≡ₚ l.
Proof.
  intros Hnd Hl. assert (Hk : map fst (zip vs l) = vs) by (apply fst_zip; lia).
  assert (Hp : bcollect (zip vs l) ≡ₚ zip vs l) by (apply bcollect_perm; by rewrite Hk).
  assert (Hs : map snd (zip vs l) = l) by (apply snd_zip; lia).
  split; [done|]. unfold bkeys. split; rewrite Hp; by rewrite ?Hk, ?Hs.
Qed.

Lemma bget_zip {V} (vs : list string) (l : list V) k v : NoDup vs -> length vs = length l ->
  bget k (bcollect (zip vs l)) = Some v -> exists i, vs !! i = Some k /\ l !! i = Some v.
Proof.
  intros Hnd Hl H. apply bget_Some_In in H. destruct (bcollect_zip vs l Hnd Hl) as (Hp & _). rewrite Hp in H.
  apply list_elem_of_lookup in H as [i Hi]. apply lookup_zip_with_Some in Hi as (x & y & Hxy & Hx & Hy).
  injection Hxy as -> ->. eauto.
Qed.

Definition port_ok (port : Z) : Prop := (1024 <= port <= 65535)%Z.

Definition listeners_ok (c : AwgConfig) : Prop :=
  bkeys (ports c) ≡ₚ versions c /\ Forall port_ok (map snd (ports c)) /\ NoDup (map snd (ports c)).

Definition subnets_ok (c : AwgConfig) : Prop :=
  bkeys (subnets c) ≡ₚ versions c /\ Forall subnet_ok (map snd (subnets c))
  /\ forall v w n m, v <> w -> bget v (subnets c) = Some n -> bget w (subnets c) = Some m -> disjoint_nets n m.

Definition awg_config_ok (c : AwgConfig) : Prop :=
  (versions c <> [] /\ NoDup (versions c) /\ versions c ⊆ KNOWN_VERSIONS)
  /\ listeners_ok c /\ subnets_ok c
  /\ (1280 <= mtu c <= 1420)%Z
  /\ ((1 <= length (dns c) <= 4)%nat /\ Forall (fun d => is_ip_address d = true) (dns c))
  /\ ((0 < socket_mode c <= 0x1ff)%Z /\ Z.land (socket_mode c) 7 = 0%Z)
  /\ (1 <= router_uid c <= 65534)%Z
  /\ (forall tun, router_tun c = Some tun -> is_short_interface tun = true).

Lemma listeners_accepted vs (raw : imap string) l :
  NoDup vs -> mapM (fun v => raw ← cfg_index v raw; cfg_int raw ("AWG_PORTS[" +:+ v +:+ "]") 10) vs = Ok l ->
  try_for (fun v => port ← cfg_index v (bcollect (zip vs l));
    check (negb ((1024 <=? port) && (port <=? 65535)))%Z ("AWG_PORTS[" +:+ v +:+ "]: must be 1024-65535")) vs = Ok tt ->
  repeated_int (map snd (bcollect (zip vs l))) = false ->
  bkeys (bcollect (zip vs l)) ≡ₚ vs /\ Forall port_ok (map snd (bcollect (zip vs l))) /\ NoDup (map snd (bcollect (zip vs l))).
Proof.
  intros Hnd Hm Ht Hr. apply mapM_Ok_iff, Forall2_length in Hm. destruct (bcollect_zip vs l Hnd Hm) as (Hp & Hk & Hs).
  split; [done|]. split; [|by apply repeated_int_spec]. apply try_for_Ok in Ht.
  apply Forall_forall. intros port Hport. apply list_elem_of_fmap in Hport as ([v p] & -> & Hin).
  assert (Hv : v ∈ vs) by (rewrite <-Hk; apply (list_elem_of_fmap_2 fst _ _ Hin)).
  pose proof (proj1 (Forall_forall _ _) Ht _ Hv) as H. simpl in H. unfold cfg_index in H.
  rewrite (bget_In v p) in H by (done || apply bsorted_bcollect). simpl in H. apply check_Ok in H. simpl.
  unfold port_ok. lia.
Qed.

Lemma subnets_accepted vs (raw : imap string) nets :
  NoDup vs -> mapM (read_subnet raw) vs = Ok nets -> nets_overlap nets = false ->
  bkeys (bcollect (zip vs nets)) ≡ₚ vs /\ Forall subnet_ok (map snd (bcollect (zip vs nets)))
  /\ forall v w n m, v <> w -> bget v (bcollect (zip vs nets)) = Some n -> bget w (bcollect (zip vs nets)) = Some m ->
     disjoint_nets n m.
Proof.
  intros Hnd Hm Ho. apply mapM_Ok_iff in Hm. pose proof (Forall2_length _ _ _ Hm) as Hl.
  destruct (bcollect_zip vs nets Hnd Hl) as (_ & Hk & Hs).
  assert (Hok : Forall subnet_ok nets).
  { apply Forall_forall. intros n Hn. apply list_elem_of_lookup in Hn as [i Hi].
    destruct (Forall2_lookup_r _ _ _ _ _ Hm Hi) as (v & _ & Hv). by eapply read_subnet_ok. }
  split; [done|]. split; [by rewrite Hs|]. intros v w n m Hvw Hn Hw.
  apply bget_zip in Hn as (i & Hi & Hn); [|done..]. apply bget_zip in Hw as (j & Hj & Hw); [|done..].
  apply (nets_overlap_disjoint nets Hok Ho i j); [|done..]. intros ->. congruence.
Qed.

Lemma find_None {A} (f : A -> bool) l e : match List.find f l with Some a => cfg_fail (e a) | None => Ok tt end = Ok tt ->
  Forall (fun a => f a = false) l.
Proof.
  induction l as [|a l IH]; simpl; [constructor|]. destruct (f a) eqn:Hf; [done|]. intros H. constructor; auto.
Qed.

Section from_env.
Context {UT : UnicodeText}.

Lemma quiet_boolean raw name : quiet (boolean raw name).
Proof. unfold boolean. by destruct (mem_str _ _); [|destruct (mem_str _ _)]. Qed.

(** The checks up to the subnets, which are the ones that index the maps. *)
Lemma quiet_from_env env : quiet (from_env env).
Proof.
  unfold from_env. set (vs := words _).
  apply quiet_bind; [auto with quiet|intros _ _]. apply quiet_bind; [auto with quiet|intros [] Hnd].
  apply check_Ok, orb_false_iff in Hnd as [_ Hnd]. apply repeated_spec in Hnd.
  apply quiet_bind; [apply quiet_find|intros [] Hf]. apply find_None in Hf.
  assert (Hkn : forall v, v ∈ vs -> v ∈ KNOWN_VERSIONS).
  { intros v Hv. apply mem_str_true. pose proof (proj1 (Forall_forall _ _) Hf v Hv) as H. by apply negb_false_iff in H. }
  apply quiet_bind; [auto with quiet|intros raw Hraw]. apply pair_items_complete in Hraw; [|apply complete_defaults].
  apply quiet_bind.
  { apply quiet_mapM, Forall_forall. intros v Hv. apply quiet_bind; [by apply quiet_index, Hraw, Hkn|auto with quiet]. }
  intros l Hl. apply mapM_Ok_iff, Forall2_length in Hl. destruct (bcollect_zip vs l Hnd Hl) as (_ & Hk & _).
  apply quiet_bind.
  { apply quiet_try_for, Forall_forall. intros v Hv. apply quiet_bind; [|auto with quiet].
    apply quiet_index. rewrite <-Hk in Hv. apply bhas_true in Hv. unfold bhas in Hv.
    case_match; [by eexists|done]. }
  intros _ _. apply quiet_bind; [auto with quiet|intros _ _].
  apply quiet_bind; [auto with quiet|intros raws Hraws]. apply pair_items_complete in Hraws; [|apply complete_defaults].
  apply quiet_bind.
  { apply quiet_mapM, Forall_forall. intros v Hv. by apply quiet_subnet, Hraws, Hkn. }
  intros nets _. repeat (apply quiet_bind; [solve [auto with quiet]|intros ? _]).
  apply quiet_bind; [apply quiet_boolean|done].
Qed.

(** Starting the manager fails closed: reading the environment never panics, and a configuration
    it accepts has distinct known versions, for each exactly one port of its own in the unprivileged
    range and one private subnet whose addresses no other version shares, an MTU that fits, one to four
    resolvers, and a socket that other users cannot reach. *)
Theorem awg_config_accepted (env : string -> option string) :
  from_env env <> Err CfgPanic /\ forall c, from_env env = Ok c -> awg_config_ok c.
Proof.
  split; [apply quiet_from_env|]. intros c H. unfold from_env in H. set (vs := words _) in H. inv_binds. apply Ok_inj in H as <-.
  repeat match goal with
  | H : check _ _ = Ok _ |- _ => apply check_Ok in H
  | H : match List.find _ _ with Some _ => _ | None => _ end = Ok _ |- _ => apply find_None in H
  end.
  apply orb_false_iff in Hr0 as [Hne Hnd]. apply repeated_spec in Hnd.
  unfold awg_config_ok. cbn [versions mtu dns socket_mode router_uid router_tun].
  split; [|split; [by apply listeners_accepted with (raw := a2)|split; [by apply (subnets_accepted vs a6)|]]].
  - split; [by destruct vs|]. split; [done|]. intros v Hv. apply mem_str_true.
    pose proof (proj1 (Forall_forall _ _) Hr1 v Hv) as Hm. by apply negb_false_iff in Hm.
  - apply orb_false_iff in Hr15 as [Hm1 Hm2]. split; [lia|]. split; [|split; [lia|split; [lia|]]].
    + split; [lia|]. eapply Forall_impl; [exact Hr12|]. intros d Hd. by apply negb_false_iff in Hd.
    + intros tun Ht. rewrite Ht in Hr17. by apply negb_false_iff in Hr17.
Qed.
End from_env.

(** The environment the manager's tests start from, and what it becomes. *)
Definition sample_env (key : string) : option string :=
  if key =?s "AWG_MANAGER_TOKEN_FILE" then Some "/run/token"
  else if key =?s "AWG_PORTS" then Some "3.1=60000"
  else if key =?s "AWG_SUBNETS" then Some "3.1=192.168.50.0/28" else None.

Lemma awg_config_accepted_witness :
  exists c, @from_env ascii_text sample_env = Ok c /\ bget "3.1" (ports c) = Some 60000%Z /\ awg_config_ok c.
Proof.
  eexists. split; [vm_compute; reflexivity|]. split; [vm_compute; reflexivity|].
  apply (awg_config_accepted (UT := ascii_text) sample_env). vm_compute. reflexivity.
Defined.
