(* ===== verification/Effect.v ===== *)
(** * Stateful code that can fail

    The monad of a service's handlers: a state threaded through calls that may return early with an
    error, the state reached so far kept. [post] is its program logic: what holds after a run, for
    each of the two outcomes. *)

From S2P Require Import Prelude.

Definition Eff (E S A : Type) : Type := S -> result E A * S.

#[export] Instance Eff_ret {E S} : MRet (Eff E S) := fun A a s => (Ok a, s).
#[export] Instance Eff_bind {E S} : MBind (Eff E S) :=
  fun A B f m s => match m s with (Ok a, s') => f a s' | (Err e, s') => (Err e, s') end.

Section effects.
Context {E S : Type}.

Definition raise {A} (e : E) : Eff E S A := fun s => (Err e, s).
Definition lift {A} (r : result E A) : Eff E S A := fun s => (r, s).
Definition inspect {A} (f : S -> A) : Eff E S A := fun s => (Ok (f s), s).
Definition update (f : S -> S) : Eff E S unit := fun s => (Ok tt, f s).

(** [for x in l { f(x)? }]. *)
Fixpoint each {A} (f : A -> Eff E S unit) (l : list A) : Eff E S unit :=
  match l with [] => mret tt | a :: l' => f a ≫= fun _ => each f l' end.

(** [l.iter().map(f).collect()]. *)
Fixpoint collect {A B} (f : A -> Eff E S B) (l : list A) : Eff E S (list B) :=
  match l with [] => mret [] | a :: l' => b ← f a; bs ← collect f l'; mret (b :: bs) end.

(** ** The logic *)

Definition post {A} (m : Eff E S A) (s : S) (Q : A -> S -> Prop) (X : E -> S -> Prop) : Prop :=
  match m s with (Ok a, s') => Q a s' | (Err e, s') => X e s' end.

Lemma post_ret_eff {A} (a : A) s (Q : A -> S -> Prop) X : Q a s -> post (mret a) s Q X.
Proof. done. Qed.
Lemma post_raise {A} e s (Q : A -> S -> Prop) (X : E -> S -> Prop) : X e s -> post (raise e) s Q X.
Proof. done. Qed.
Lemma post_lift {A} (r : result E A) s (Q : A -> S -> Prop) (X : E -> S -> Prop) :
  (forall a, r = Ok a -> Q a s) -> (forall e, r = Err e -> X e s) -> post (lift r) s Q X.
Proof. unfold post, lift. destruct r; auto. Qed.
Lemma post_inspect {A} (f : S -> A) s (Q : A -> S -> Prop) X : Q (f s) s -> post (inspect f) s Q X.
Proof. done. Qed.
Lemma post_update f s (Q : unit -> S -> Prop) X : Q tt (f s) -> post (update f) s Q X.
Proof. done. Qed.

Lemma post_bind_eff {A B} (m : Eff E S A) (f : A -> Eff E S B) s (Q : B -> S -> Prop) X :
  post m s (fun a s' => post (f a) s' Q X) X -> post (m ≫= f) s Q X.
Proof. unfold post, mbind, Eff_bind. by destruct (m s) as [[a|e] s']. Qed.

Lemma post_bind_inv {A B} (m : Eff E S A) (f : A -> Eff E S B) s (Q : B -> S -> Prop) X :
  post (m ≫= f) s Q X -> post m s (fun a s' => post (f a) s' Q X) X.
Proof. unfold post, mbind, Eff_bind. by destruct (m s) as [[a|e] s']. Qed.

Lemma post_mono {A} (m : Eff E S A) s (Q Q' : A -> S -> Prop) (X X' : E -> S -> Prop) :
  post m s Q X -> (forall a s', Q a s' -> Q' a s') -> (forall e s', X e s' -> X' e s') -> post m s Q' X'.
Proof. unfold post. destruct (m s) as [[a|e] s']; auto. Qed.

(** A relation between the state before and after that holds whatever the outcome. *)
Definition keeps {A} (R : S -> S -> Prop) (m : Eff E S A) : Prop := forall s, R s (m s).2.

Lemma keeps_ret_eff {A} (R : S -> S -> Prop) (a : A) : (forall s, R s s) -> keeps R (mret a).
Proof. intros H s. apply H. Qed.
Lemma keeps_bind_eff {A B} (R : S -> S -> Prop) (m : Eff E S A) (f : A -> Eff E S B) :
  (forall s t u, R s t -> R t u -> R s u) -> keeps R m -> (forall a, keeps R (f a)) -> keeps R (m ≫= f).
Proof.
  intros Ht Hm Hf s. specialize (Hm s). unfold mbind, Eff_bind. destruct (m s) as [[a|e] s']; simpl in *; [|done].
  eapply Ht; [exact Hm|apply Hf].
Qed.
Lemma keeps_each {A} (R : S -> S -> Prop) (f : A -> Eff E S unit) l :
  (forall s, R s s) -> (forall s t u, R s t -> R t u -> R s u) -> (forall a, keeps R (f a)) -> keeps R (each f l).
Proof. intros Hr Ht Hf. induction l; simpl; [by apply keeps_ret_eff|by apply keeps_bind_eff]. Qed.
Lemma keeps_collect {A B} (R : S -> S -> Prop) (f : A -> Eff E S B) l :
  (forall s, R s s) -> (forall s t u, R s t -> R t u -> R s u) -> (forall a, keeps R (f a)) -> keeps R (collect f l).
Proof.
  intros Hr Ht Hf. induction l; simpl; [by apply keeps_ret_eff|]. apply keeps_bind_eff; [done..|]. intros b.
  apply keeps_bind_eff; [done..|]. intros bs. by apply keeps_ret_eff.
Qed.
End effects.
