(* ===== verification/AwgService.v ===== *)
(** * The AmneziaWG manager's core

    [awg_manager/src/service.rs] and [awg_manager/src/state.rs]: the stored document, the instances with
    their processes, the peers' requests and the reconciliation of the devices. The document stays a
    JSON value, as in the code; the machine ([awg_manager/src/host.rs], the clocks, the random source,
    the file that is written) is the class [Host] over a state of its own. A panic is [Crash]. *)

From Stdlib Require Import SpecFloat.
From S2P Require Import Prelude BTree Utf8 Numeric Json PyText IndexMap Plan IpAddr AwgNet AwgKeys Obfuscation AwgConfig Effect.

(** ** Failures *)

Record ApiError := { status : Z; code : string; detail : string }.

(** [Fault] is the [String] of supervision and the [StateError] of the start; [Stuck] is a generation
    loop that has not ended within its fuel. *)
Inductive Failure := Api (e : ApiError) | Fault (message : string) | Crash | Stuck.
Abbreviation FR := (result Failure).

Definition api {A} (status : Z) (code detail : string) : FR A := Err (Api {| status := status; code := code; detail := detail |}).
Definition invalid {A} (detail : string) : FR A := api 422 "invalid_request" detail.
Definition internal {A} : FR A := api 500 "internal_error" "manager operation failed".

(** ** Doubles *)

Definition sub64 (x y : f64) : f64 := SFsub 53 1024 x y.
Definition add64 (x y : f64) : f64 := SFadd 53 1024 x y.
Definition of_Z64 (z : Z) : f64 := binary_normalize 53 1024 z 0 false.

(** [x as i64]: towards zero, saturating, 0 for what is not a number. *)
Definition as_i64_sat (x : f64) : Z :=
  match x with
  | S754_zero _ | S754_nan => 0
  | S754_infinity s => if s then i64_min else i64_max
  | S754_finite s m e =>
      let v := if (0 <=? e)%Z then (Z.pos m * 2 ^ e)%Z else (Z.pos m / 2 ^ (- e))%Z in
      let v := if s then (- v)%Z else v in
      Z.max i64_min (Z.min i64_max v)
  end.

Definition FULL_RECONCILE_SECONDS : f64 := of_Z64 30.
Definition DEVICE_READY_SECONDS : f64 := of_Z64 10.
Definition MAX_BACKOFF_SECONDS : Z := 30.
Definition STABLE_SECONDS : f64 := of_Z64 60.
Definition ZERO_KEY : string := str_repeat 64 "0".

(** [2f64.powi] of at most 16 is exact. *)
Definition backoff (failures : N) : f64 :=
  of_Z64 (Z.min MAX_BACKOFF_SECONDS (2 ^ Z.of_N (N.min (failures - 1) 16))).

(** ** [state.rs] *)

Definition SCHEMA : Z := 1.
Definition MAX_OPERATIONS : nat := 2000.

(** [StateStore::new]. *)
Definition empty_doc : Value :=
  Object [("schema", json_int SCHEMA); ("instances", Object []); ("peers", Object []); ("operations", Object [])].

(** [section]: the [expect] of a document that was not loaded is a panic. *)
Definition section (key : string) (doc : Value) : FR (imap Value) :=
  match as_object doc with
  | Some m => match bget key m with Some (Object entries) => Ok entries | _ => Err Crash end
  | None => Err Crash
  end.

(** The document after a change through [section_mut]. *)
Definition put_section (key : string) (entries : imap Value) (doc : Value) : Value :=
  match doc with Object m => Object (iset key (Object entries) m) | v => v end.

Definition with_section (key : string) (f : imap Value -> FR (imap Value)) (doc : Value) : FR Value :=
  entries ← section key doc; entries ← f entries; Ok (put_section key entries doc).

(** [while operations.len() > MAX_OPERATIONS]: the oldest are removed. *)
Fixpoint prune (operations : imap Value) : imap Value :=
  match operations with
  | [] => []
  | _ :: rest => if (MAX_OPERATIONS <? length operations)%nat then prune rest else operations
  end.

(** ** Values *)

(** [value[key]]. *)
Definition at_index (value : Value) (key : string) : Value :=
  match value with Object m => default Null (bget key m) | _ => Null end.

(** [value[key] = v]. *)
Definition set_index (key : string) (v value : Value) : FR Value :=
  match value with
  | Null => Ok (Object [(key, v)])
  | Object m => Ok (Object (iset key v m))
  | _ => Err Crash
  end.

(** [value.get(key)]. *)
Definition get_field (value : Value) (key : string) : option Value :=
  match value with Object m => bget key m | _ => None end.

Definition str_field (rec : Value) (key : string) : string :=
  default "" (get_field rec key ≫= as_str).

Definition is_bool (v : option Value) (b : bool) : bool :=
  match v with Some (Bool c) => Bool.eqb b c | _ => false end.

(** [json!] of an option. *)
Definition opt_json (v : option Value) : Value := default Null v.

(** ** UAPI texts *)

Definition newline_byte : Ascii.ascii := Ascii.ascii_of_nat 10.
Definition return_byte : Ascii.ascii := Ascii.ascii_of_nat 13.

(** [line.strip_suffix('\r')], the line itself without one. *)
Fixpoint strip_return (s : string) : string :=
  match s with
  | EmptyString => EmptyString
  | String a EmptyString => if Ascii.eqb a return_byte then EmptyString else s
  | String a s' => String a (strip_return s')
  end.

(** [str::lines]: what follows the last line feed is a line when it is not empty, and keeps its
    carriage return. *)
Fixpoint lines_of (parts : list string) : list string :=
  match parts with
  | [] => []
  | [last] => if str_empty last then [] else [last]
  | line :: rest => strip_return line :: lines_of rest
  end.
Definition lines (text : string) : list string := lines_of (split_byte newline_byte text).

Record LivePeer := { allowed_ips : list string; preshared_key : string; rx : Z; tx : Z; handshake : Z }.

Definition new_live : LivePeer := {| allowed_ips := []; preshared_key := ZERO_KEY; rx := 0; tx := 0; handshake := 0 |}.

(** The [match key] of a peer's line. *)
Definition live_field (key value : string) (p : LivePeer) : LivePeer :=
  if key =?s "allowed_ip" then
    {| allowed_ips := allowed_ips p ++ [value]; preshared_key := preshared_key p; rx := rx p; tx := tx p; handshake := handshake p |}
  else if key =?s "preshared_key" then
    {| allowed_ips := allowed_ips p; preshared_key := value; rx := rx p; tx := tx p; handshake := handshake p |}
  else if mem_str key ["rx_bytes"; "tx_bytes"; "last_handshake_time_sec"] then
    match parse_py_int value 10 with
    | Some number =>
        if key =?s "rx_bytes" then
          {| allowed_ips := allowed_ips p; preshared_key := preshared_key p; rx := number; tx := tx p; handshake := handshake p |}
        else if key =?s "tx_bytes" then
          {| allowed_ips := allowed_ips p; preshared_key := preshared_key p; rx := rx p; tx := number; handshake := handshake p |}
        else
          {| allowed_ips := allowed_ips p; preshared_key := preshared_key p; rx := rx p; tx := tx p; handshake := number |}
    | None => p
    end
  else p.

Record Parsed := { device : imap string; live : imap LivePeer; current : option string }.

Definition parse_line (st : Parsed) (line : string) : Parsed :=
  match split_once "="%char line with
  | None => st
  | Some (key, value) =>
      if key =?s "public_key" then
        {| device := device st; live := iset value new_live (live st); current := Some value |}
      else
        match (name ← current st; p ← bget name (live st); Some (name, p)) with
        | None => {| device := iset key value (device st); live := live st; current := current st |}
        | Some (name, p) => {| device := device st; live := iset name (live_field key value p) (live st); current := current st |}
        end
  end.

Definition parse_uapi (text : string) : imap string * imap LivePeer :=
  let st := fold_left parse_line (lines text) {| device := []; live := []; current := None |} in
  (device st, live st).

Definition peer_lines (pub_hex psk_hex address : string) : list string :=
  ["public_key=" +:+ pub_hex; "preshared_key=" +:+ psk_hex; "replace_allowed_ips=true"; "allowed_ip=" +:+ address +:+ "/32"].
Definition remove_lines (pub_hex : string) : list string := ["public_key=" +:+ pub_hex; "remove=true"].

(** [lines.join("\n") + "\n"]. *)
Definition block (lines : list string) : string := join nl lines +:+ nl.

(** ** Names *)

Definition is_upper (a : Ascii.ascii) : bool := let n := Ascii.N_of_ascii a in ((65 <=? n) && (n <=? 90))%N.
Definition one_of (bytes : string) (a : Ascii.ascii) : bool := negb (forallb_s (fun b => negb (Ascii.eqb a b)) bytes).

Definition is_username (text : string) : bool :=
  (1 <=? String.length text)%nat && (String.length text <=? 64)%nat
  && match text with String a _ => is_lower a || is_digit a | EmptyString => false end
  && forallb_s (fun b => is_lower b || is_digit b || one_of "._-" b) text.

Definition is_operation_id (text : string) : bool :=
  (1 <=? String.length text)%nat && (String.length text <=? 128)%nat
  && forallb_s (fun b => is_upper b || is_lower b || is_digit b || one_of "._:-" b) text.

(** ** The manager *)

(** [Instance]; a process is the machine's handle of it. *)
Record Instance := {
  i_version : string; i_iface : string; i_port : Z; i_subnet : Ipv4Net; process : option N; configured : bool;
  dirty : bool; failures : N; started_at : f64; next_start : f64; last_full : f64;
}.

Definition gateway_text (i : Instance) : string := format_v4 (gateway (i_subnet i)).

Section set_instance.
Context (i : Instance).
Definition with_run (p : option N) (c d : bool) (f : N) (started next full : f64) : Instance :=
  {| i_version := i_version i; i_iface := i_iface i; i_port := i_port i; i_subnet := i_subnet i; process := p;
     configured := c; dirty := d; failures := f; started_at := started; next_start := next; last_full := full |}.
Definition with_configured (c : bool) : Instance :=
  with_run (process i) c (dirty i) (failures i) (started_at i) (next_start i) (last_full i).
Definition with_dirty (d : bool) : Instance :=
  with_run (process i) (configured i) d (failures i) (started_at i) (next_start i) (last_full i).
(** The exit of the process at [now]. *)
Definition exited (now : f64) : Instance :=
  let f := if SFltb STABLE_SECONDS (sub64 now (started_at i)) then 0%N else failures i in
  let f := ((f + 1) mod 2 ^ 32)%N in
  with_run None false (dirty i) f (started_at i) (add64 now (backoff f)) (last_full i).
Definition not_started (now : f64) : Instance :=
  let f := ((failures i + 1) mod 2 ^ 32)%N in
  with_run (process i) (configured i) (dirty i) f (started_at i) (add64 now (backoff f)) (last_full i).
Definition started (p : N) (now : f64) : Instance :=
  with_run (Some p) false true (failures i) now (next_start i) (last_full i).
Definition reconciled (now : f64) : Instance :=
  with_run (process i) (configured i) false (failures i) (started_at i) (next_start i) now.
End set_instance.

(** What the manager does to the machine. *)
Class Host (H : Type) := {
  prepare_dir : H -> result string unit * H;                        (** the state directory and its mode *)
  read_state : H -> result bool string * H;                         (** the state file; [Err true]: there is none *)
  write_state : string -> H -> result string unit * H;              (** [write_atomic] of the state file *)
  start_process : string -> string -> H -> option N * H;
  poll : N -> H -> option Z * H;
  kill : N -> H -> H;
  ip : list string -> H -> result string unit * H;
  nft_apply : string -> H -> result string unit * H;
  uapi_set : string -> string -> H -> result string unit * H;
  uapi_get : string -> H -> result string string * H;
  clock : H -> f64 * H;
  wall : H -> f64 * H;
  random_key : H -> string * H;                                     (** [keys::random_bytes] *)
}.

Section service.
Context {H : Type} {HO : Host H} {RN : Rng H} {B64 : Base64} {X : X25519} {FT : FloatText} {SHA : Sha256}.
Context (config : AwgConfig) (overrides : imap Params) (fuel : nat).
(** [serde_json::from_slice]. *)
Context (from_slice : string -> option Value).

Record Inner := { doc : Value; instances : list Instance; last_nft : f64; host : H }.
Abbreviation SM := (Eff Failure Inner).

Definition done : SM unit := mret tt.

Definition set_doc (d : Value) (s : Inner) : Inner :=
  {| doc := d; instances := instances s; last_nft := last_nft s; host := host s |}.
Definition set_instances (l : list Instance) (s : Inner) : Inner :=
  {| doc := doc s; instances := l; last_nft := last_nft s; host := host s |}.
Definition set_last_nft (t : f64) (s : Inner) : Inner :=
  {| doc := doc s; instances := instances s; last_nft := t; host := host s |}.
Definition set_host (h : H) (s : Inner) : Inner :=
  {| doc := doc s; instances := instances s; last_nft := last_nft s; host := h |}.

Definition on_host {A} (f : H -> A * H) : SM A := fun s => let '(a, h) := f (host s) in (Ok a, set_host h s).

Definition section_of (key : string) (s : Inner) : FR (imap Value) := section key (doc s).
Definition the_section (key : string) : SM (imap Value) := fun s => (section_of key s, s).

(** [inner.instances[idx]]. *)
Definition instance_at (idx : nat) : SM Instance := fun s => (instances s !! idx or_err Crash, s).
Definition change_instance (idx : nat) (f : Instance -> Instance) : SM unit :=
  update (fun s => set_instances (alter f idx (instances s)) s).

(** [instance_index]. *)
Fixpoint position (version : string) (l : list Instance) : option nat :=
  match l with
  | [] => None
  | i :: l' => if i_version i =?s version then Some O else S <$> position version l'
  end.

(** *** [pyjson.rs] *)

Definition PY_CANONICAL : Options :=
  {| indent := None; separators := Some (",", ":"); sort_keys := true; ensure_ascii := true; numbers := NumSerde |}.
Definition json_canonical (value : Value) : string := dumps value PY_CANONICAL.
Definition json_state (value : Value) : string :=
  dumps value {| indent := Some 1%nat; separators := None; sort_keys := true; ensure_ascii := true; numbers := NumSerde |}.

(** *** The stored document *)

(** [StateStore::save]. *)
Definition save : SM (result string unit) :=
  d ← inspect doc;
  d ← lift (with_section "operations" (fun ops => Ok (prune ops)) d);
  _ ← update (set_doc d);
  on_host (write_state (json_state d)).

(** [commit]: the changes panic, if they do, before the first of them. *)
Definition commit (mutate : Value -> FR Value) : SM unit :=
  snapshot ← inspect doc;
  d ← lift (mutate snapshot);
  _ ← update (set_doc d);
  written ← save;
  match written with
  | Ok _ => done
  | Err _ => update (set_doc snapshot) ≫= fun _ => lift internal
  end.

(** The checks of [load] on the document. *)
Definition is_one (v : Value) : bool :=
  match v with Num (NInt z) => (z =? SCHEMA)%Z | Num (NFloat f) => SFeqb f (of_Z64 SCHEMA) | _ => false end.

Definition check_doc (d : Value) : FR unit :=
  if negb (is_object d) || negb (match get_field d "schema" with Some v => is_one v | None => false end)
  then Err (Fault "unsupported state schema")
  else try_for (fun key =>
    if match get_field d key with Some v => is_object v | None => false end then Ok tt
    else Err (Fault ("state field " +:+ key +:+ " is malformed"))) ["instances"; "peers"; "operations"].

Definition load : SM unit :=
  prepared ← on_host prepare_dir;
  _ ← lift (map_err Fault prepared);
  text ← on_host read_state;
  match text with
  | Err true => done
  | Err false => raise (Fault "cannot read the state")
  | Ok text =>
      match from_slice text with
      | None => raise (Fault "cannot read the state")
      | Some d => lift (check_doc d) ≫= fun _ => update (set_doc d)
      end
  end.

(** *** Devices *)

Definition device_lines (idx : nat) : SM (list string) :=
  i ← instance_at idx;
  stored ← the_section "instances";
  stored ← lift (bget (i_version i) stored or_err Crash);
  private ← lift (map_err Fault (hexkey (str_field stored "private_key")));
  params ← lift (map_err (fun e => match e with Refused m => Fault m | Obfuscation.Panicked => Crash end)
                   (Obfuscation.from_value (at_index stored "obfuscation")));
  lines ← lift (map_err Fault (uapi_lines params));
  mret (["private_key=" +:+ private; "listen_port=" +:+ fmt_Z (i_port i)] ++ lines).

(** [desired]: the enabled peers of a version, in the document's order. *)
Fixpoint desired_of (version : string) (peers : list Value) (out : imap (string * string)) : FR (imap (string * string)) :=
  match peers with
  | [] => Ok out
  | rec :: rest =>
      if (str_field rec "version" =?s version) && is_bool (get_field rec "enabled") true then
        public ← map_err Fault (hexkey (str_field rec "public_key"));
        psk ← map_err Fault (hexkey (str_field rec "preshared_key"));
        desired_of version rest (iset public (psk, str_field rec "address") out)
      else desired_of version rest out
  end.

Definition desired (version : string) : SM (imap (string * string)) :=
  peers ← the_section "peers"; lift (desired_of version (ivalues peers) []).

Definition is_as_wanted (have : option LivePeer) (psk address : string) : bool :=
  match have with
  | Some p => (preshared_key p =?s psk) && bool_decide (allowed_ips p = [address +:+ "/32"])
  | None => false
  end.

(** The lines that bring the device from [live] to [desired]. *)
Definition reconcile_lines (live : imap LivePeer) (desired : imap (string * string)) : list string :=
  concat (map (fun public => if bhas public desired then [] else remove_lines public) (bkeys live))
  ++ concat (map (fun e => let '(public, (psk, address)) := e in
       if is_as_wanted (bget public live) psk address then [] else peer_lines public psk address) desired).

Definition reconcile_peers (idx : nat) (now : f64) : SM unit :=
  i ← instance_at idx;
  reply ← on_host (uapi_get (i_iface i));
  match reply with
  | Err _ => change_instance idx (fun i => with_configured i false)
  | Ok text =>
      wanted ← desired (i_version i);
      let lines := reconcile_lines (parse_uapi text).2 wanted in
      sent ← (match lines with [] => mret (Ok tt) | _ => on_host (uapi_set (i_iface i) (block lines)) end : SM (result string unit));
      match sent with
      | Err _ => change_instance idx (fun i => with_configured i false)
      | Ok _ => change_instance idx (fun i => reconciled i now)
      end
  end.

Definition configure (idx : nat) (now : f64) : SM unit :=
  lines ← device_lines idx;
  i ← instance_at idx;
  sent ← on_host (uapi_set (i_iface i) (block lines));
  match sent with
  | Err _ =>
      if SFltb DEVICE_READY_SECONDS (sub64 now (started_at i)) then
        match process i with Some p => on_host (fun h => (tt, kill p h)) | None => done end
      else done
  | Ok _ =>
      let address := gateway_text i +:+ "/" +:+ fmt_N (prefix (i_subnet i)) in
      added ← on_host (ip ["addr"; "replace"; address; "dev"; i_iface i]);
      up ← (match added with
            | Ok _ => on_host (ip ["link"; "set"; i_iface i; "mtu"; fmt_Z (mtu config); "up"])
            | Err e => mret (Err e)
            end : SM (result string unit));
      match up with
      | Err _ => done
      | Ok _ => change_instance idx (fun i => with_configured i true) ≫= fun _ => reconcile_peers idx now
      end
  end.

(** The end of [supervise], with a process. *)
Definition converge (idx : nat) (now : f64) : SM unit :=
  i ← instance_at idx;
  if negb (configured i) then configure idx now
  else if dirty i || SFleb FULL_RECONCILE_SECONDS (sub64 now (last_full i)) then reconcile_peers idx now
  else done.

Definition supervise (idx : nat) (now : f64) : SM unit :=
  i ← instance_at idx;
  code ← (match process i with Some p => on_host (poll p) | None => mret None end : SM (option Z));
  _ ← match code with Some _ => change_instance idx (fun i => exited i now) | None => done end;
  i ← instance_at idx;
  match process i with
  | Some _ => converge idx now
  | None =>
      if SFltb now (next_start i) then done else
      p ← on_host (start_process (i_iface i) (log_level config));
      match p with
      | None => change_instance idx (fun i => not_started i now)
      | Some p => change_instance idx (fun i => started i p now) ≫= fun _ => converge idx now
      end
  end.

Definition nft_script (l : list Instance) : string :=
  let names := join ", " (map (fun i => dq +:+ i_iface i +:+ dq) l) in
  let rules := if nat_ config
               then join nl (map (fun i => "    ip saddr " +:+ net_str (i_subnet i) +:+ " oifname != " +:+ dq +:+ i_iface i +:+ dq +:+ " masquerade") l)
               else "" in
  join nl ["table inet awg_manager"; "delete table inet awg_manager"; "table inet awg_manager {"; "  chain forward {";
           "    type filter hook forward priority 0; policy accept;"; "    iifname { " +:+ names +:+ " } accept";
           "    oifname { " +:+ names +:+ " } accept"; "  }"; "  chain postrouting {";
           "    type nat hook postrouting priority srcnat; policy accept;"; rules; "  }"; "}"; ""].

Definition apply_nft : SM unit :=
  now ← on_host clock;
  _ ← update (set_last_nft now);
  l ← inspect instances;
  _ ← on_host (nft_apply (nft_script l));
  done.

(** One instance must not stop the others: its error is logged. *)
Definition supervised (idx : nat) (now : f64) : SM unit := fun s =>
  match supervise idx now s with (Err (Fault _), s') => (Ok tt, s') | r => r end.

(** [tick_locked] up to the egress. *)
Definition tick_instances : SM unit :=
  now ← on_host clock;
  l ← inspect instances;
  _ ← each (fun idx => supervised idx now) (seq 0 (length l));
  last ← inspect last_nft;
  if SFleb FULL_RECONCILE_SECONDS (sub64 now last) then apply_nft else done.

Definition live_change (idx : option nat) (lines : list string) : SM unit :=
  match idx with
  | None => done
  | Some idx =>
      i ← instance_at idx;
      if negb (configured i) || match lines with [] => true | _ => false end then done else
      sent ← on_host (uapi_set (i_iface i) (block lines));
      match sent with
      | Ok _ => done
      | Err _ => change_instance idx (fun i => with_dirty i true)
      end
  end.

(** *** Views *)

Definition strings (l : list string) : Value := Array (map Str l).

Definition instance_view (idx : nat) : SM Value :=
  i ← instance_at idx;
  stored ← the_section "instances";
  stored ← lift (bget (i_version i) stored or_err Crash);
  let params := match Obfuscation.from_value (at_index stored "obfuscation") with Ok p => p | Err _ => [] end in
  mret (Object [("version", Str (i_version i)); ("interface", Str (i_iface i)); ("port", json_int (i_port i));
    ("server_public_key", at_index stored "public_key"); ("gateway", Str (gateway_text i));
    ("subnet", Str (net_str (i_subnet i))); ("mtu", json_int (mtu config)); ("dns", strings (dns config));
    ("obfuscation", Obfuscation.to_value (client_view params))]).

Definition stats (idx : option nat) : SM (imap LivePeer) :=
  match idx with
  | None => mret []
  | Some idx =>
      i ← instance_at idx;
      if negb (configured i) then mret [] else
      reply ← on_host (uapi_get (i_iface i));
      mret (match reply with Ok text => (parse_uapi text).2 | Err _ => [] end)
  end.

Definition peer_view (name : string) (rec : Value) (stats : imap LivePeer) : Value :=
  let live := ok (hexkey (str_field rec "public_key")) ≫= fun public => bget public stats in
  let count (f : LivePeer -> Z) := json_int (match live with Some p => f p | None => 0%Z end) in
  Object [("username", Str name); ("version", opt_json (get_field rec "version")); ("enabled", opt_json (get_field rec "enabled"));
    ("address", opt_json (get_field rec "address")); ("public_key", opt_json (get_field rec "public_key"));
    ("revision", opt_json (get_field rec "revision")); ("rx", count rx); ("tx", count tx);
    ("latest_handshake", match live with Some p => if (handshake p =? 0)%Z then Null else json_int (handshake p) | None => Null end)].

Definition list_instances : SM Value :=
  l ← inspect instances;
  views ← collect instance_view (seq 0 (length l));
  mret (Object [("instances", Array views)]).

Definition list_peers : SM Value :=
  l ← inspect instances;
  stats ← collect (fun idx => i ← instance_at idx; st ← stats (Some idx); mret (i_version i, st)) (seq 0 (length l));
  let stats := icollect stats in
  peers ← the_section "peers";
  views ← lift (mapM (fun name => rec ← bget name peers or_err Crash;
    Ok (peer_view name rec (default [] (bget (str_field rec "version") stats)))) (sort_str (bkeys peers)));
  mret (Object [("peers", Array views)]).

(** *** Requests *)

Definition known_instance (s : Inner) (version : Value) : FR nat :=
  match as_str version with
  | Some version =>
      if mem_str version KNOWN_VERSIONS
      then match position version (instances s) with
           | Some idx => Ok idx
           | None => api 409 "version_disabled" "protocol version is not enabled on this node"
           end
      else api 422 "unknown_version" "unknown protocol version"
  | None => api 422 "unknown_version" "unknown protocol version"
  end.

Definition fields (body : imap Value) (required : list string) : FR unit :=
  if negb (length body =? length required)%nat || negb (forallb (fun key => bhas key body) required)
  then invalid "invalid request fields" else Ok tt.

(** [body[key]]. *)
Definition body_at (body : imap Value) (key : string) : FR Value := bget key body or_err Crash.

Definition operation_id (value : Value) : FR string :=
  match as_str value with
  | Some op => if is_operation_id op then Ok op else invalid "invalid operation_id"
  | None => invalid "invalid operation_id"
  end.

Definition all_zero (raw : string) : bool := forallb_s (fun b => Ascii.eqb b Ascii.zero) raw.

Definition key (value : Value) (name : string) : FR string :=
  match as_str value with
  | None => invalid ("invalid " +:+ name)
  | Some text =>
      match unb64 text with
      | Ok raw => if all_zero raw then invalid ("invalid " +:+ name) else Ok text
      | Err _ => invalid ("invalid " +:+ name)
      end
  end.

Definition digest (kind : string) (fields : list (string * string)) : string :=
  sha256_hex (json_canonical (Object (icollect (("kind", Str kind) :: map (fun e => (e.1, Str e.2)) fields)))).

Definition replayed (s : Inner) (op_id digest : string) : FR (option string) :=
  operations ← section "operations" (doc s);
  match bget op_id operations with
  | None => Ok None
  | Some known =>
      if negb (str_field known "digest" =?s digest)
      then api 409 "operation_conflict" "operation id was used with a different request"
      else
        let username := str_field known "username" in
        peers ← section "peers" (doc s);
        Ok (if bhas username peers then Some username else None)
  end.

(** The addresses the peers of a version hold. *)
Definition used_addresses (version : string) (peers : imap Value) : list string :=
  map (fun rec => str_field rec "address") (List.filter (fun rec => str_field rec "version" =?s version) (ivalues peers)).

Definition first_free (subnet : Ipv4Net) (used : list string) : option string :=
  List.find (fun address => negb (mem_str address used)) (map format_v4 (tail (hosts subnet))).

Definition free_address (s : Inner) (idx : nat) : FR string :=
  i ← instances s !! idx or_err Crash;
  peers ← section "peers" (doc s);
  match first_free (i_subnet i) (used_addresses (i_version i) peers) with
  | Some address => Ok address
  | None => api 409 "address_pool_exhausted" "no free address in the subnet"
  end.

Definition pubkey_taken (peers : imap Value) (version public : string) (except_user : option string) : bool :=
  existsb (fun e => (str_field e.2 "version" =?s version) && (str_field e.2 "public_key" =?s public)
    && negb (bool_decide (Some e.1 = except_user))) peers.

Definition peer_response (username : string) (idx : nat) : SM Value :=
  peers ← the_section "peers";
  rec ← lift (bget username peers or_err Crash);
  st ← stats (Some idx);
  view ← instance_view idx;
  mret (Object [("peer", peer_view username rec st); ("instance", view)]).

Definition record (s : Inner) (username : string) : FR Value :=
  peers ← section "peers" (doc s);
  match bget username peers with Some rec => Ok rec | None => api 404 "not_found" "peer not found" end.

Definition peer_result (username : string) (idx : option nat) : SM Value :=
  peers ← the_section "peers";
  rec ← lift (bget username peers or_err Crash);
  st ← stats idx;
  mret (Object [("peer", peer_view username rec st)]).

(** A computation on the state that only reads it. *)
Definition read {A} (f : Inner -> FR A) : SM A := fun s => (f s, s).

Definition operation_record (digest username : string) : Value := Object [("digest", Str digest); ("username", Str username)].
Definition new_record (version public psk address : string) (created : Z) (op_id : string) : Value :=
  Object [("version", Str version); ("public_key", Str public); ("preshared_key", Str psk); ("address", Str address);
          ("enabled", Bool true); ("revision", json_int 1); ("created_at", json_int created); ("operation_id", Str op_id)].

(** What [create_peer] commits. *)
Definition add_peer (username : string) (rec : Value) (op_id digest : string) (d : Value) : FR Value :=
  d ← with_section "peers" (fun peers => Ok (iset username rec peers)) d;
  with_section "operations" (fun ops => Ok (iset op_id (operation_record digest username) ops)) d.

(** A request that is not a repetition. *)
Definition create_new (idx : nat) (op_id username version public psk digest : string) : SM (Z * Value) :=
  peers ← the_section "peers";
  if bhas username peers then lift (api 409 "username_taken" "username already exists") else
  if pubkey_taken peers version public None then lift (api 409 "public_key_in_use" "public key already in use") else
  address ← read (fun s => free_address s idx);
  now ← on_host wall;
  _ ← commit (add_peer username (new_record version public psk address (as_i64_sat now) op_id) op_id digest);
  pub_hex ← lift (map_err (fun _ => Crash) (hexkey public));
  psk_hex ← lift (map_err (fun _ => Crash) (hexkey psk));
  _ ← live_change (Some idx) (peer_lines pub_hex psk_hex address);
  response ← peer_response username idx;
  mret (201%Z, response).

Definition username_of (value : Value) : FR string :=
  match as_str value with
  | Some name => if is_username name then Ok name else invalid "invalid username"
  | None => invalid "invalid username"
  end.

Definition create_peer (body : imap Value) : SM (Z * Value) :=
  _ ← lift (fields body ["operation_id"; "username"; "version"; "public_key"; "preshared_key"]);
  op_id ← lift (body_at body "operation_id" ≫= operation_id);
  username ← lift (body_at body "username" ≫= username_of);
  public ← lift (v ← body_at body "public_key"; key v "public_key");
  psk ← lift (v ← body_at body "preshared_key"; key v "preshared_key");
  v ← lift (body_at body "version");
  idx ← read (fun s => known_instance s v);
  i ← instance_at idx;
  let version := i_version i in
  let digest := digest "create" [("username", username); ("version", version); ("pub", public); ("psk", psk)] in
  again ← read (fun s => replayed s op_id digest);
  match again with
  | Some again => response ← peer_response again idx; mret (200%Z, response)
  | None => create_new idx op_id username version public psk digest
  end.

(** A change of a peer's record. *)
Definition edit_peer (username : string) (f : Value -> FR Value) (peers : imap Value) : FR (imap Value) :=
  rec ← bget username peers or_err Crash; rec ← f rec; Ok (iset username rec peers).

(** [rec["revision"].as_i64().unwrap_or(0) + 1], which wraps. *)
Definition wrap_i64 (z : Z) : Z := ((z + 2 ^ 63) mod 2 ^ 64 - 2 ^ 63)%Z.
Definition bump_revision (rec : Value) : FR Value :=
  set_index "revision" (json_int (wrap_i64 (default 0%Z (as_i64 (at_index rec "revision")) + 1))) rec.

Definition enable_record (enabled : bool) (rec : Value) : FR Value :=
  rec ← set_index "enabled" (Bool enabled) rec; bump_revision rec.

Definition set_enabled (username : string) (enabled : bool) : SM Value :=
  rec ← read (fun s => record s username);
  l ← inspect instances;
  let idx := position (str_field rec "version") l in
  if enabled && match idx with None => true | Some _ => false end
  then lift (api 409 "version_disabled" "protocol version is not enabled on this node") else
  _ ← (if is_bool (get_field rec "enabled") enabled then done else
    _ ← commit (with_section "peers" (edit_peer username (enable_record enabled)));
    live_change idx (match hexkey (str_field rec "public_key"), hexkey (str_field rec "preshared_key") with
      | Ok public, Ok psk => if enabled then peer_lines public psk (str_field rec "address") else remove_lines public
      | Ok public, Err _ => if enabled then [] else remove_lines public
      | _, _ => []
      end));
  peer_result username idx.

Definition rotate_record (public psk op_id : string) (rec : Value) : FR Value :=
  rec ← set_index "public_key" (Str public) rec;
  rec ← set_index "preshared_key" (Str psk) rec;
  rec ← set_index "operation_id" (Str op_id) rec;
  bump_revision rec.

Definition rotate_peer (username public psk op_id digest : string) (d : Value) : FR Value :=
  d ← with_section "peers" (edit_peer username (rotate_record public psk op_id)) d;
  with_section "operations" (fun ops => Ok (iset op_id (operation_record digest username) ops)) d.

(** A rotation that is not a repetition; [rec] is the peer's record. *)
Definition rotate_new (rec : Value) (idx : option nat) (op_id username public psk digest : string) : SM Value :=
  peers ← the_section "peers";
  if pubkey_taken peers (str_field rec "version") public (Some username)
  then lift (api 409 "public_key_in_use" "public key already in use") else
  old_public ← lift (match hexkey (str_field rec "public_key") with Ok k => Ok k | Err _ => internal end);
  _ ← commit (rotate_peer username public psk op_id digest);
  lines ← (if is_bool (get_field rec "enabled") true then
    pub_hex ← lift (map_err (fun _ => Crash) (hexkey public));
    psk_hex ← lift (map_err (fun _ => Crash) (hexkey psk));
    mret (remove_lines old_public ++ peer_lines pub_hex psk_hex (str_field rec "address"))
    else mret (remove_lines old_public));
  _ ← live_change idx lines;
  peer_result username idx.

Definition rotate (username : string) (body : imap Value) : SM Value :=
  _ ← lift (fields body ["operation_id"; "public_key"; "preshared_key"]);
  op_id ← lift (body_at body "operation_id" ≫= operation_id);
  public ← lift (v ← body_at body "public_key"; key v "public_key");
  psk ← lift (v ← body_at body "preshared_key"; key v "preshared_key");
  rec ← read (fun s => record s username);
  l ← inspect instances;
  let idx := position (str_field rec "version") l in
  let digest := digest "rotate" [("username", username); ("pub", public); ("psk", psk)] in
  again ← read (fun s => replayed s op_id digest);
  match again with
  | Some _ => peer_result username idx
  | None => rotate_new rec idx op_id username public psk digest
  end.

Definition delete_peer (username : string) : SM unit :=
  rec ← read (fun s => record s username);
  l ← inspect instances;
  let idx := position (str_field rec "version") l in
  _ ← commit (with_section "peers" (fun peers => Ok (idel username peers)));
  if is_bool (get_field rec "enabled") true then
    match hexkey (str_field rec "public_key") with
    | Ok public => live_change idx (remove_lines public)
    | Err _ => done
    end
  else done.

(** *** Start *)

Definition new_instance (version : string) : FR Instance :=
  port ← bget version (ports config) or_err Crash;
  subnet ← bget version (subnets config) or_err Crash;
  Ok {| i_version := version; i_iface := interface_name version; i_port := port; i_subnet := subnet; process := None;
        configured := false; dirty := true; failures := 0; started_at := of_Z64 0; next_start := of_Z64 0; last_full := of_Z64 0 |}.

(** [AwgManager::new]. *)
Definition new (h : H) : FR Inner :=
  l ← mapM new_instance (versions config);
  Ok {| doc := empty_doc; instances := l; last_nft := of_Z64 0; host := h |}.

Definition obfuscated {A} (f : string -> string) (r : OR A) : FR A :=
  map_err (fun e => match e with Refused m => Fault (f m) | Obfuscation.Panicked => Crash end) r.

(** The check of a stored instance. *)
Definition check_stored (version : string) (existing : Value) : FR unit :=
  let bad m := "stored instance " +:+ version +:+ " is invalid: " +:+ m in
  value ← get_field existing "obfuscation" or_err Fault (bad "'obfuscation'");
  params ← obfuscated bad (Obfuscation.from_value value);
  _ ← obfuscated bad (validate version params (Z.to_N (mtu config)));
  text ← (get_field existing "private_key" ≫= as_str) or_err Fault (bad "'private_key'");
  private ← map_err (fun m => Fault (bad m)) (unb64 text);
  if bool_decide (Some (b64 (public_key private)) = get_field existing "public_key" ≫= as_str) then Ok tt
  else Err (Fault (bad "key pair mismatch")).

Definition instance_record (private : string) (params : Params) (created : Z) : Value :=
  Object [("private_key", Str (b64 private)); ("public_key", Str (b64 (public_key private)));
          ("obfuscation", Obfuscation.to_value params); ("created_at", json_int created)].

(** A computation of the random source. *)
Definition on_rng {A} (g : Gen H A) : SM A := fun s =>
  match g (host s) with Some (a, h) => (Ok a, set_host h s) | None => (Err Stuck, s) end.

Definition ensure_instance_state (version : string) : SM bool :=
  stored ← the_section "instances";
  match bget version stored with
  | Some existing => lift (check_stored version existing) ≫= fun _ => mret false
  | None =>
      random ← on_host random_key;
      let private := generate_private random in
      generated ← on_rng (generate fuel version (Z.to_N (mtu config)));
      params ← lift (obfuscated (fun m => "obfuscation for " +:+ version +:+ ": " +:+ m)
        (params ← generated;
         match bget version overrides with
         | Some overrides => apply_overrides version params overrides (Z.to_N (mtu config))
         | None => Ok params
         end));
      now ← on_host wall;
      d ← inspect doc;
      d ← lift (with_section "instances" (fun l => Ok (iset version (instance_record private params (as_i64_sat now)) l)) d);
      _ ← update (set_doc d);
      mret true
  end.

(** A stored peer of an enabled version fits its subnet. *)
Definition peer_fits (l : list Instance) (name : string) (rec : Value) : FR unit :=
  match position (str_field rec "version") l with
  | None => Ok tt
  | Some idx =>
      i ← l !! idx or_err Crash;
      if match parse_v4 (str_field rec "address") with Some a => contains (i_subnet i) a | None => false end then Ok tt
      else Err (Fault ("peer " +:+ name +:+ " address is outside the configured subnet"))
  end.

(** [bootstrap] up to the devices and without the egress. *)
Definition bootstrap_state : SM unit :=
  _ ← load;
  changed ← collect ensure_instance_state (versions config);
  peers ← the_section "peers";
  l ← inspect instances;
  _ ← lift (try_for (fun e => peer_fits l e.1 e.2) peers);
  if negb (existsb id changed) then done else
  written ← save;
  lift (map_err (fun e => Fault ("cannot write state: " +:+ e)) written).
End service.
