(* ===== verification/AwgPeers.v ===== *)
(** * The AmneziaWG manager's document and its requests

    Facts of [AwgService]: which parts of the state each operation leaves alone, what the sections of
    the document hold, and the invariant of the peers that every request keeps. *)

From Stdlib Require Import SpecFloat.
From S2P Require Import Prelude BTree Utf8 Numeric Json PyText Plan IpAddr IndexMap AwgNet AwgNetFacts AwgKeys.
From S2P Require Import Obfuscation AwgConfig Effect AwgService.

(** ** Sections *)

Lemma section_Ok k d e : section k d = Ok e -> exists m, d = Object m /\ bget k m = Some (Object e).
Proof.
  unfold section. destruct d; simpl; try done. destruct (bget k map) as [[]|] eqn:Hk; try done.
  intros [= <-]. eauto.
Qed.

Lemma section_put k k' e d d' : section k d = Ok d' ->
  section k' (put_section k e d) = if k' =?s k then Ok e else section k' d.
Proof.
  intros (m & -> & Hk)%section_Ok. unfold section, put_section. simpl. rewrite bget_iset.
  destruct (k' =?s k); done.
Qed.

Lemma with_section_Ok k f d d' : with_section k f d = Ok d' ->
  exists e e', section k d = Ok e /\ f e = Ok e' /\ d' = put_section k e' d.
Proof. unfold with_section. intros H. inv_binds. apply Ok_inj in H as <-. eauto. Qed.

Lemma with_section_run k f d e e' : section k d = Ok e -> f e = Ok e' -> with_section k f d = Ok (put_section k e' d).
Proof. unfold with_section. intros -> H. simpl. by rewrite H. Qed.

Lemma prune_short ops : (length ops <= MAX_OPERATIONS)%nat -> prune ops = ops.
Proof.
  destruct ops as [|e ops]; [done|]. intros H. cbn [prune]. by rewrite (proj2 (Nat.ltb_ge _ _) H).
Qed.

Lemma prune_one e ops : (length ops = MAX_OPERATIONS)%nat -> prune (e :: ops) = ops.
Proof.
  intros H. cbn [prune]. cbn [length]. rewrite H, (proj2 (Nat.ltb_lt _ _) (Nat.lt_succ_diag_r _)).
  apply prune_short. by rewrite H.
Qed.

Lemma prune_length ops : (length (prune ops) <= MAX_OPERATIONS)%nat.
Proof.
  induction ops as [|e ops IH]; [apply Nat.le_0_l|]. cbn [prune].
  destruct (_ <? _)%nat eqn:H; [done|]. by apply Nat.ltb_ge in H.
Qed.

(** Recording an operation in a document that is not over the bound keeps it, and the bound. *)
Lemma prune_iset op v (ops : imap Value) : (length ops <= MAX_OPERATIONS)%nat ->
  prune (iset op v ops) = (if bhas op ops then iset op v ops
    else if (length ops =? MAX_OPERATIONS)%nat then tail ops ++ [(op, v)] else ops ++ [(op, v)]).
Proof.
  intros Hl. destruct (bhas op ops) eqn:Hb.
  - apply prune_short. assert (Hk : length (bkeys (iset op v ops)) = length (bkeys ops)) by (rewrite bkeys_iset, Hb; done).
    unfold bkeys in Hk. rewrite !length_map in Hk. by rewrite Hk.
  - rewrite iset_fresh by done. destruct (length ops =? _)%nat eqn:He.
    + apply Nat.eqb_eq in He. destruct ops as [|e ops]; [done|]. simpl. apply prune_one.
      rewrite length_app. cbn [length] in *. lia.
    + apply Nat.eqb_neq in He. apply prune_short. rewrite length_app. cbn [length]. lia.
Qed.

Lemma bget_tail k v (m : imap Value) : iok m -> bget k m = Some v -> bget k (tail m) = Some v \/ head m = Some (k, v).
Proof.
  destruct m as [|[q w] m]; [done|]. intros _. simpl. destruct (k =?s q) eqn:E; [|intros Hg; by left].
  apply eqb_s_true in E. intros Hg. right. congruence.
Qed.

Lemma iok_tail (m : imap Value) : iok m -> iok (tail m).
Proof. destruct m; [done|]. unfold iok. simpl. rewrite NoDup_cons. tauto. Qed.

Lemma iok_prune (ops : imap Value) : iok ops -> iok (prune ops).
Proof.
  induction ops as [|e ops IH]; [done|]. intros Hk. cbn [prune]. destruct (_ <? _)%nat; [|done].
  apply IH. unfold iok in *. simpl in Hk. by apply NoDup_cons in Hk as [_ ?].
Qed.

(** ** Values *)

Lemma get_field_obj_iset k v m k' : get_field (Object (iset k v m)) k' = if k' =?s k then Some v else get_field (Object m) k'.
Proof. apply bget_iset. Qed.

Lemma set_index_object k v rec m : rec = Object m -> set_index k v rec = Ok (Object (iset k v m)).
Proof. by intros ->. Qed.

Lemma str_field_iset k v m k' : k' <> k -> str_field (Object (iset k v m)) k' = str_field (Object m) k'.
Proof. intros Hne. unfold str_field, get_field. by rewrite bget_iset_ne. Qed.

Lemma str_field_iset_eq k s m : str_field (Object (iset k (Str s) m)) k = s.
Proof. unfold str_field, get_field. by rewrite bget_iset_eq. Qed.

(** ** Frames: what an operation leaves alone *)

Section frames.
Context {H : Type} {HO : Host H} {RN : Rng H} {B64 : Base64} {X : X25519} {FT : FloatText} {SHA : Sha256}.
Context (config : AwgConfig) (overrides : imap Params) (fuel : nat).

(** The part of an instance that the configuration fixes. *)
Definition fixed (i : Instance) : string * string * Z * Ipv4Net := (i_version i, i_iface i, i_port i, i_subnet i).
Definition same_instances (s t : @Inner H) : Prop := map fixed (instances t) = map fixed (instances s).
(** The document and the fixed part of the instances. *)
Definition same_store (s t : @Inner H) : Prop := doc t = doc s /\ same_instances s t.

Lemma same_store_refl s : same_store s s.
Proof. done. Qed.
Lemma same_store_trans s t u : same_store s t -> same_store t u -> same_store s u.
Proof. intros [H1 H2] [H3 H4]. split; unfold same_instances in *; congruence. Qed.

Abbreviation SM := (Eff Failure (@Inner H)).
Abbreviation calm := (keeps same_store).

Lemma calm_ret {A} (a : A) : calm (mret a : SM A).
Proof. apply keeps_ret_eff, same_store_refl. Qed.
Lemma calm_done : calm done.
Proof. apply keeps_ret_eff, same_store_refl. Qed.
Lemma calm_then {A B} (m : SM A) (f : A -> SM B) : calm m -> (forall a, calm (f a)) -> calm (m ≫= f).
Proof. apply keeps_bind_eff, same_store_trans. Qed.
Lemma calm_on_host {A} (f : H -> A * H) : calm (on_host f).
Proof. intros s. unfold on_host. by destruct (f (host s)). Qed.
Lemma calm_lift {A} (r : FR A) : calm (lift r : SM A).
Proof. intros s. apply same_store_refl. Qed.
Lemma calm_inspect {A} (f : Inner -> A) : calm (inspect f : SM A).
Proof. intros s. apply same_store_refl. Qed.
Lemma calm_read {A} (f : Inner -> FR A) : calm (read f).
Proof. intros s. apply same_store_refl. Qed.
Lemma calm_the_section k : calm (the_section (H:=H) k).
Proof. intros s. apply same_store_refl. Qed.
Lemma calm_instance_at idx : calm (instance_at (H:=H) idx).
Proof. intros s. apply same_store_refl. Qed.
Lemma calm_raise {A} e : calm (raise e : SM A).
Proof. intros s. apply same_store_refl. Qed.

Lemma map_alter_fixed f l idx : (forall i, fixed (f i) = fixed i) -> map fixed (alter f idx l) = map fixed l.
Proof.
  intros Hf. revert idx. induction l as [|i l IH]; intros [|idx]; simpl; [done..|by rewrite Hf|].
  f_equal. apply IH.
Qed.

Lemma calm_change idx f : (forall i, fixed (f i) = fixed i) -> calm (change_instance (H:=H) idx f).
Proof. intros Hf s. split; [done|]. by apply map_alter_fixed. Qed.

Lemma calm_last_nft t : calm (update (set_last_nft t) : SM unit).
Proof. intros s. done. Qed.
End frames.

Create HintDb calm.
#[export] Hint Resolve calm_ret calm_done calm_on_host calm_lift calm_inspect calm_read calm_the_section calm_instance_at calm_raise
  calm_last_nft : calm.

(** Goes through binds and case distinctions. *)
Ltac calm_step :=
  match goal with
  | |- keeps _ (mbind _ _) => apply calm_then; [|intros ?]
  | |- keeps _ (change_instance _ _) => apply calm_change; intros ?; reflexivity
  | |- keeps _ (match ?x with _ => _ end) => destruct x
  | |- keeps _ (let _ := _ in _) => cbv zeta
  | |- keeps _ _ => solve [auto with calm]
  end.
Ltac calm := repeat calm_step.

Section devices.
Context {H : Type} {HO : Host H} {RN : Rng H} {B64 : Base64} {X : X25519} {FT : FloatText} {SHA : Sha256}.
Context (config : AwgConfig) (overrides : imap Params) (fuel : nat).
Abbreviation calm := (keeps (same_store (H:=H))).

Lemma calm_device_lines idx : calm (device_lines idx).
Proof. unfold device_lines. calm. Qed.
Lemma calm_desired v : calm (desired v).
Proof. unfold desired. calm. Qed.
Hint Resolve calm_device_lines calm_desired : calm.
Lemma calm_reconcile_peers idx now : calm (reconcile_peers idx now).
Proof. unfold reconcile_peers. calm. Qed.
Hint Resolve calm_reconcile_peers : calm.
Lemma calm_configure idx now : calm (configure config idx now).
Proof. unfold configure. calm. Qed.
Hint Resolve calm_configure : calm.
Lemma calm_converge idx now : calm (converge config idx now).
Proof. unfold converge. calm. Qed.
Hint Resolve calm_converge : calm.
Lemma calm_supervise idx now : calm (supervise config idx now).
Proof. unfold supervise. calm. Qed.
Lemma calm_supervised idx now : calm (supervised config idx now).
Proof.
  intros s. pose proof (calm_supervise idx now s) as Hs. unfold supervised.
  destruct (supervise config idx now s) as [[[]|[]] s']; exact Hs.
Qed.
Lemma calm_apply_nft : calm (apply_nft config).
Proof. unfold apply_nft. calm. Qed.
Hint Resolve calm_apply_nft : calm.
Lemma calm_tick : calm (tick_instances config).
Proof.
  unfold tick_instances. calm.
  apply keeps_each; [apply same_store_refl|apply same_store_trans|intros i; apply calm_supervised].
Qed.
Lemma calm_live_change idx l : calm (live_change idx l).
Proof. unfold live_change. calm. Qed.
Lemma calm_instance_view idx : calm (instance_view config idx).
Proof. unfold instance_view. calm. Qed.
Lemma calm_stats idx : calm (stats idx).
Proof. unfold stats. calm. Qed.
Hint Resolve calm_live_change calm_instance_view calm_stats : calm.
Lemma calm_peer_response u idx : calm (peer_response config u idx).
Proof. unfold peer_response. calm. Qed.
Lemma calm_peer_result u idx : calm (peer_result u idx).
Proof. unfold peer_result. calm. Qed.
Lemma calm_list_instances : calm (list_instances config).
Proof. unfold list_instances. calm. apply keeps_collect; [apply same_store_refl|apply same_store_trans|auto with calm]. Qed.
Lemma calm_list_peers : calm (list_peers).
Proof. unfold list_peers. calm. apply keeps_collect; [apply same_store_refl|apply same_store_trans|intros; calm]. Qed.
End devices.
#[export] Hint Resolve calm_device_lines calm_desired calm_reconcile_peers calm_configure calm_converge calm_apply_nft calm_tick
  calm_live_change calm_instance_view calm_stats calm_peer_response calm_peer_result calm_list_instances calm_list_peers : calm.

(** * The invariant of the AmneziaWG manager's peers

    What the document and the instances guarantee between two requests, the changes of the peers that
    keep it, and the requests' outcomes. *)

Abbreviation Nets := (list (string * Ipv4Net)).

(** ** The peers *)

Record peers_ok (nets : Nets) (peers : imap Value) : Prop := {
  po_keys : iok peers;
  po_objects : forall u r, bget u peers = Some r -> is_object r = true;
  po_address : forall u r n, bget u peers = Some r -> (str_field r "version", n) ∈ nets ->
    exists a, (gateway n < a < broadcast n)%N /\ str_field r "address" = format_v4 a;
  po_apart : forall u u' r r', bget u peers = Some r -> bget u' peers = Some r' -> u <> u' ->
    str_field r "version" = str_field r' "version" ->
    str_field r "address" <> str_field r' "address" /\ str_field r "public_key" <> str_field r' "public_key";
}.

Definition nets_ok (nets : Nets) : Prop := NoDup (map fst nets) /\ forall v n, (v, n) ∈ nets -> net_ok n /\ (prefix n < 31)%N.

Lemma peers_ok_nil nets : peers_ok nets [].
Proof. by split; [constructor|..]. Qed.

Lemma in_values (peers : imap Value) u r : bget u peers = Some r -> r ∈ ivalues peers.
Proof. intros Hb. apply bget_Some_In in Hb. by apply (list_elem_of_fmap_2 snd _ _ Hb). Qed.

Lemma used_elem version peers a : a ∈ used_addresses version peers <->
  exists r, r ∈ ivalues peers /\ str_field r "version" = version /\ str_field r "address" = a.
Proof.
  unfold used_addresses. split.
  - intros (r & -> & Hr)%list_elem_of_fmap. apply list_elem_of_In, filter_In in Hr as [Hr Hv].
    apply eqb_s_true in Hv. apply list_elem_of_In in Hr. eauto.
  - intros (r & Hr & Hv & <-). apply (list_elem_of_fmap_2 (fun rec => str_field rec "address")).
    apply list_elem_of_In, filter_In. split; [by apply list_elem_of_In|by apply eqb_s_true].
Qed.

Lemma used_peer version peers u r : bget u peers = Some r -> str_field r "version" = version ->
  str_field r "address" ∈ used_addresses version peers.
Proof. intros Hb Hv. apply used_elem. exists r. split; [by eapply in_values|done]. Qed.

Lemma find_first {A} (f : A -> bool) l a : List.find f l = Some a ->
  exists pre rest, l = pre ++ a :: rest /\ f a = true /\ Forall (fun x => f x = false) pre.
Proof.
  induction l as [|x l IH]; simpl; [done|]. destruct (f x) eqn:Hf.
  - intros [= ->]. by exists [], l.
  - intros (pre & rest & -> & Ha & Hp)%IH. exists (x :: pre), rest. by split; [|split; [|constructor]].
Qed.

(** The numbers of [addresses] are in order: what comes before one of them is every smaller one. *)
Lemma addresses_before first last pre a rest : addresses first last = pre ++ a :: rest ->
  forall b, b ∈ pre <-> (first <= b < a)%N.
Proof.
  unfold addresses. generalize (N.to_nat (last + 1 - first)) as k. intros k Heq b.
  assert (Hlen : (length pre < k)%nat).
  { apply (f_equal length) in Heq. rewrite length_map, length_seq, length_app in Heq. simpl in Heq. lia. }
  assert (Ha : a = (first + N.of_nat (length pre))%N).
  { assert (Hn : map (fun i => first + N.of_nat i)%N (seq 0 k) !! length pre = Some a) by (rewrite Heq; by apply list_lookup_middle).
    rewrite list_lookup_fmap, lookup_seq_lt in Hn by done. simpl in Hn. congruence. }
  assert (Hp : pre = map (fun i => first + N.of_nat i)%N (seq 0 (length pre))).
  { replace k with (length pre + (k - length pre))%nat in Heq by lia. rewrite seq_app, map_app in Heq.
    apply app_inj_1 in Heq as [Heq _]; [done|]. by rewrite length_map, length_seq. }
  rewrite Hp, list_elem_of_fmap. subst a. split.
  - intros (i & -> & Hi%elem_of_seq). lia.
  - intros [Hl Hu]. exists (N.to_nat (b - first)). split; [lia|]. apply elem_of_seq. lia.
Qed.

(** The address a new peer gets: the smallest one between the gateway and the broadcast address that
    no peer of the version holds. *)
Lemma first_free_Some n used address : net_ok n -> (prefix n < 31)%N -> first_free n used = Some address ->
  exists a, address = format_v4 a /\ (gateway n < a < broadcast n)%N /\ (address ∉ used)
    /\ forall b, (gateway n < b < a)%N -> format_v4 b ∈ used.
Proof.
  intros Hn Hp Hf. unfold first_free in Hf. apply find_first in Hf as (pre & rest & Heq & Ha & Hpre).
  apply map_eq_app in Heq as (pre' & tl & Heq & <- & Htl). destruct tl as [|a tl]; [done|]. injection Htl as <- _.
  assert (Hin : a ∈ tail (hosts n)) by (rewrite Heq; apply elem_of_app; right; left).
  apply negb_true_iff in Ha. exists a. split; [done|]. split; [by apply tail_hosts_iff|]. split.
  { intros Hu. apply mem_str_true in Hu. congruence. }
  intros b Hb. assert (Hbp : b ∈ pre').
  { assert (Hh : hosts n = addresses (network n + 1) (broadcast n - 1)).
    { unfold hosts. by rewrite (proj2 (N.leb_gt _ _) Hp). }
    rewrite (gateway_eq n Hn) in Hb by lia.
    destruct (hosts n) as [|h t] eqn:Ht; [by destruct pre'|]. simpl in Heq. subst t.
    pose proof (addresses_before _ _ (h :: pre') a tl (eq_sym Hh)) as Hall.
    assert (Hbin : b ∈ h :: pre') by (apply Hall; lia). apply elem_of_cons in Hbin as [->|]; [|done].
    assert (Hfirst : h = (network n + 1)%N).
    { unfold addresses in Hh. destruct (N.to_nat _); [done|]. simpl in Hh. injection Hh as Hh _. lia. }
    lia. }
  apply (list_elem_of_fmap_2 format_v4) in Hbp. pose proof (proj1 (Forall_forall _ _) Hpre _ Hbp) as H.
  apply negb_false_iff in H. by apply mem_str_true.
Qed.

Lemma first_free_None n used : net_ok n -> (prefix n < 31)%N -> first_free n used = None ->
  forall a, (gateway n < a < broadcast n)%N -> format_v4 a ∈ used.
Proof.
  intros Hn Hp Hf a Ha. apply tail_hosts_iff in Ha; [|done..]. apply (list_elem_of_fmap_2 format_v4) in Ha.
  unfold first_free in Hf. pose proof (find_none _ _ Hf (format_v4 a) (proj1 (list_elem_of_In _ _) Ha)) as Hx.
  apply negb_false_iff in Hx. by apply mem_str_true.
Qed.

Lemma not_taken peers version public except : pubkey_taken peers version public except = false <->
  forall u r, (u, r) ∈ peers -> str_field r "version" = version -> str_field r "public_key" = public -> Some u = except.
Proof.
  unfold pubkey_taken. rewrite <-not_true_iff_false, existsb_exists. split.
  - intros Hn u r Hin Hv Hp. destruct (decide (Some u = except)) as [|Hne]; [done|]. exfalso. apply Hn. exists (u, r).
    split; [by apply list_elem_of_In|]. apply andb_true_intro. split; [|by apply negb_true_iff, bool_decide_eq_false].
    apply andb_true_intro. by rewrite !eqb_s_true.
  - intros Hf ((u & r) & Hin & Ht). apply andb_prop in Ht as [[Hv Hp]%andb_prop He].
    apply negb_true_iff, bool_decide_eq_false in He. simpl in *. apply He, (Hf u r); [by apply list_elem_of_In|by apply eqb_s_true..].
Qed.

(** ** Changes that keep the invariant *)

Lemma peers_ok_add nets peers u rec a n :
  peers_ok nets peers -> nets_ok nets -> bget u peers = None -> is_object rec = true ->
  (str_field rec "version", n) ∈ nets -> (gateway n < a < broadcast n)%N -> str_field rec "address" = format_v4 a ->
  str_field rec "address" ∉ used_addresses (str_field rec "version") peers ->
  pubkey_taken peers (str_field rec "version") (str_field rec "public_key") None = false ->
  peers_ok nets (iset u rec peers).
Proof.
  intros [Hk Ho Ha Hx] [Hnd _] Hu Hobj Hn Hra Hfa Hfree Hkey.
  assert (Hnew : forall u' r', u' <> u -> bget u' peers = Some r' -> str_field r' "version" = str_field rec "version" ->
    str_field r' "address" <> str_field rec "address" /\ str_field r' "public_key" <> str_field rec "public_key").
  { intros u' r' Hne Hr' Hv. split.
    - intros He. apply Hfree. rewrite <-He. by eapply used_peer.
    - intros He. apply bget_Some_In in Hr'. by pose proof (proj1 (not_taken _ _ _ _) Hkey u' r' Hr' Hv He). }
  split; [by apply iok_iset|..].
  - intros v r. rewrite bget_iset. destruct (v =?s u) eqn:E; [by intros [= <-]|apply Ho].
  - intros v r m. rewrite bget_iset. destruct (v =?s u) eqn:E; [|apply Ha].
    intros [= <-] Hm. assert (m = n) as ->; [|by exists a].
    apply (bget_ok_In _ _ _ Hnd) in Hm, Hn. congruence.
  - intros v v' r r'. rewrite !bget_iset. destruct (v =?s u) eqn:E, (v' =?s u) eqn:E'.
    + apply eqb_s_true in E, E'. congruence.
    + apply eqb_s_false in E'. intros [= <-] Hr' Hne Hv. destruct (Hnew v' r' E' Hr' (eq_sym Hv)). by split; apply not_eq_sym.
    + apply eqb_s_false in E. intros Hr [= <-] Hne Hv. by apply (Hnew v r).
    + apply Hx.
Qed.

Lemma peers_ok_edit nets peers u old rec :
  peers_ok nets peers -> bget u peers = Some old -> is_object rec = true ->
  str_field rec "version" = str_field old "version" -> str_field rec "address" = str_field old "address" ->
  (str_field rec "public_key" = str_field old "public_key"
   \/ pubkey_taken peers (str_field old "version") (str_field rec "public_key") (Some u) = false) ->
  peers_ok nets (iset u rec peers).
Proof.
  intros [Hk Ho Ha Hx] Hu Hobj Hv Hd Hp.
  assert (Hnew : forall u' r', u' <> u -> bget u' peers = Some r' -> str_field r' "version" = str_field rec "version" ->
    str_field r' "address" <> str_field rec "address" /\ str_field r' "public_key" <> str_field rec "public_key").
  { intros u' r' Hne Hr' Hv'. rewrite Hv in Hv'. destruct (Hx u' u r' old Hr' Hu Hne Hv') as [H1 H2]. rewrite Hd.
    split; [done|]. destruct Hp as [->|Hp]; [done|]. intros He. apply bget_Some_In in Hr'.
    pose proof (proj1 (not_taken _ _ _ _) Hp u' r' Hr' Hv' He) as Hs. congruence. }
  split; [by apply iok_iset|..].
  - intros v r. rewrite bget_iset. destruct (v =?s u); [by intros [= <-]|apply Ho].
  - intros v r m. rewrite bget_iset. destruct (v =?s u); [|apply Ha]. intros [= <-]. rewrite Hv, Hd. by apply (Ha u).
  - intros v v' r r'. rewrite !bget_iset. destruct (v =?s u) eqn:E, (v' =?s u) eqn:E'.
    + apply eqb_s_true in E, E'. congruence.
    + apply eqb_s_false in E'. intros [= <-] Hr' Hne Hv'. destruct (Hnew v' r' E' Hr' (eq_sym Hv')). by split; apply not_eq_sym.
    + apply eqb_s_false in E. intros Hr [= <-] Hne Hv'. by apply (Hnew v r).
    + apply Hx.
Qed.

Lemma peers_ok_delete nets peers u : peers_ok nets peers -> peers_ok nets (idel u peers).
Proof.
  intros [Hk Ho Ha Hx].
  assert (Hg : forall v r, bget v (idel u peers) = Some r -> bget v peers = Some r).
  { intros v r. rewrite bget_idel by done. by destruct (v =?s u). }
  split; [by apply iok_idel|intros; eapply Ho|intros v r n Hv; apply (Ha v r n)|intros v v' r r' Hv Hv'; apply Hx]; eauto.
Qed.

(** ** Between two requests *)

Section good.
Context {H : Type} {HO : Host H} {RN : Rng H} {B64 : Base64} {X : X25519} {FT : FloatText} {SHA : Sha256}.
Context (config : AwgConfig).

Definition nets (s : @Inner H) : Nets := map (fun i => (i_version i, i_subnet i)) (instances s).

Record good (s : @Inner H) : Prop := {
  gd_instances : exists l, section "instances" (doc s) = Ok l /\ Forall (fun i => bhas (i_version i) l = true) (instances s);
  gd_peers : exists peers, section "peers" (doc s) = Ok peers /\ peers_ok (nets s) peers;
  gd_operations : exists ops, section "operations" (doc s) = Ok ops /\ iok ops /\ (length ops <= MAX_OPERATIONS)%nat;
  gd_nets : nets_ok (nets s);
}.

Lemma same_nets (s t : @Inner H) : same_instances s t -> nets t = nets s.
Proof.
  unfold same_instances, nets. intros Hs.
  assert (Hf : forall l : list Instance, map (fun i => (i_version i, i_subnet i)) l = map (fun f => (f.1.1.1, f.2)) (map fixed l))
    by (intros l; rewrite map_map; done).
  by rewrite !Hf, Hs.
Qed.

Lemma same_Forall (s t : @Inner H) P : same_instances s t ->
  Forall (fun i => P (i_version i)) (instances s) -> Forall (fun i => P (i_version i)) (instances t).
Proof.
  unfold same_instances. intros Hs Hf.
  assert (Hm : forall l, Forall (fun i => P (i_version i)) l <-> Forall (fun f => P f.1.1.1) (map fixed l))
    by (intros l; rewrite Forall_map; done).
  apply Hm. rewrite Hs. by apply Hm.
Qed.

Lemma good_same s t : same_store s t -> good s -> good t.
Proof.
  intros [Hd Hi] [(l & Hl & Hf) (p & Hp & Hok) Ho Hn]. split; rewrite ?Hd, ?(same_nets s t Hi); try done; [|by exists p].
  exists l. split; [done|]. by apply (same_Forall s t (fun v => bhas v l = true)).
Qed.

(** A new document with good peers and operations and the instances as they were. *)
Lemma good_doc s t p o : good s -> same_instances s t -> section "instances" (doc t) = section "instances" (doc s) ->
  section "peers" (doc t) = Ok p -> peers_ok (nets s) p -> section "operations" (doc t) = Ok o -> iok o ->
  (length o <= MAX_OPERATIONS)%nat -> good t.
Proof.
  intros [(l & Hl & Hf) _ _ Hn] Hi His Hp Hpo Ho Hio Hlo. split; rewrite ?(same_nets s t Hi); [|by exists p|by exists o|done].
  exists l. rewrite His. split; [done|]. by apply (same_Forall s t (fun v => bhas v l = true)).
Qed.

Lemma position_Some v l idx : position v l = Some idx -> exists i, l !! idx = Some i /\ i_version i = v.
Proof.
  revert idx. induction l as [|i l IH]; intros idx; simpl; [done|]. destruct (i_version i =?s v) eqn:E.
  - intros [= <-]. exists i. split; [done|]. by apply eqb_s_true.
  - destruct (position v l) as [k|]; [|done]. intros [= <-]. apply IH. done.
Qed.

Lemma position_nets s v idx i : instances s !! idx = Some i -> i_version i = v -> (v, i_subnet i) ∈ nets s.
Proof. intros Hi <-. apply (list_elem_of_fmap_2 (fun i => (i_version i, i_subnet i))). by eapply list_elem_of_lookup_2. Qed.
End good.
