(* ===== verification/AwgRequests.v ===== *)
(** * The outcomes of the AmneziaWG manager's requests

    Triples for the parts of the handlers: what reads the state cannot panic between two requests, a
    commit either installs the new document or restores the old one. *)

From Stdlib Require Import SpecFloat.
From stdpp Require Import sets.
From S2P Require Import Prelude BTree Utf8 Numeric Json PyText Plan IpAddr IndexMap AwgNet AwgNetFacts AwgKeys.
From S2P Require Import Obfuscation AwgConfig Effect AwgService AwgPeers.

Section requests.
Context {H : Type} {HO : Host H} {RN : Rng H} {B64 : Base64} {X : X25519} {FT : FloatText} {SHA : Sha256}.
Context (config : AwgConfig).
Abbreviation SM := (Eff Failure (@Inner H)).
Abbreviation St := (@Inner H).

(** [m] returns and leaves the document and the fixed part of the instances alone. *)
Definition safe {A} (m : SM A) (s : St) : Prop := post m s (fun _ t => same_store s t) (fun _ _ => False).

Lemma safe_ret {A} (a : A) s : safe (mret a) s.
Proof. apply same_store_refl. Qed.
Lemma safe_bind {A B} (m : SM A) (f : A -> SM B) s :
  safe m s -> (forall a t, same_store s t -> safe (f a) t) -> safe (m ≫= f) s.
Proof.
  intros Hm Hf. apply post_bind_eff. eapply post_mono; [exact Hm| |done]. intros a t Ht.
  eapply post_mono; [exact (Hf a t Ht)| |done]. intros b u Hu. by apply (same_store_trans s t u).
Qed.
Lemma safe_on_host {A} (f : H -> A * H) s : safe (on_host f) s.
Proof. unfold safe, post, on_host. by destruct (f (host s)). Qed.
Lemma safe_lift {A} (r : FR A) (a : A) s : r = Ok a -> safe (lift r) s.
Proof. by intros ->. Qed.
Lemma safe_change idx f s : (forall i, fixed (f i) = fixed i) -> safe (change_instance idx f) s.
Proof. intros Hf. split; [done|]. by apply map_alter_fixed. Qed.

Lemma same_lookup (s t : St) idx : same_store s t -> is_Some (instances s !! idx) -> is_Some (instances t !! idx).
Proof.
  intros [_ Hi] Hs. apply lookup_lt_is_Some in Hs. apply lookup_lt_is_Some.
  apply (f_equal length) in Hi. rewrite !length_map in Hi. by rewrite Hi.
Qed.

Lemma safe_instance_at s idx : is_Some (instances s !! idx) -> safe (instance_at idx) s.
Proof. intros [i Hi]. unfold safe, post, instance_at. by rewrite Hi. Qed.

Lemma safe_live_change s idx l : (forall k, idx = Some k -> is_Some (instances s !! k)) -> safe (live_change idx l) s.
Proof.
  intros Hk. unfold live_change. destruct idx as [k|]; [|apply safe_ret]. apply safe_bind; [by apply safe_instance_at, Hk|].
  intros i t Ht. destruct (_ || _); [apply safe_ret|]. apply safe_bind; [apply safe_on_host|]. intros [u|e] t' Ht'; [apply safe_ret|].
  apply safe_change. done.
Qed.

Lemma safe_stats s idx : (forall k, idx = Some k -> is_Some (instances s !! k)) -> safe (stats idx) s.
Proof.
  intros Hk. unfold stats. destruct idx as [k|]; [|apply safe_ret]. apply safe_bind; [by apply safe_instance_at, Hk|].
  intros i t Ht. destruct (negb _); [apply safe_ret|]. apply safe_bind; [apply safe_on_host|]. intros r t' Ht'. apply safe_ret.
Qed.

(** ** What the answers say *)

(** The view of a peer: its stored fields, and the counters its device reports. *)
Definition shows (name : string) (rec view : Value) : Prop := exists rx tx handshake,
  view = Object [("username", Str name); ("version", opt_json (get_field rec "version")); ("enabled", opt_json (get_field rec "enabled"));
    ("address", opt_json (get_field rec "address")); ("public_key", opt_json (get_field rec "public_key"));
    ("revision", opt_json (get_field rec "revision")); ("rx", rx); ("tx", tx); ("latest_handshake", handshake)].

(** The view of an instance: its configuration and the public half of what is stored for it. *)
Definition describes (d : Value) (i : Instance) (view : Value) : Prop := exists stored entry obfuscation,
  section "instances" d = Ok stored /\ bget (i_version i) stored = Some entry /\
  view = Object [("version", Str (i_version i)); ("interface", Str (i_iface i)); ("port", json_int (i_port i));
    ("server_public_key", at_index entry "public_key"); ("gateway", Str (gateway_text i)); ("subnet", Str (net_str (i_subnet i)));
    ("mtu", json_int (mtu config)); ("dns", strings (dns config)); ("obfuscation", obfuscation)].

(** The answer to a creation: the peer [name] and its instance. *)
Definition shows_peer (d : Value) (i : Instance) (name : string) (view : Value) : Prop := exists peers rec peer instance,
  section "peers" d = Ok peers /\ bget name peers = Some rec /\
  view = Object [("peer", peer); ("instance", instance)] /\ shows name rec peer /\ describes d i instance.

Lemma shows_view name rec st : shows name rec (peer_view name rec st).
Proof. unfold shows, peer_view. by do 3 eexists. Qed.

Lemma describes_fixed d i j view : fixed i = fixed j -> describes d i view -> describes d j view.
Proof. unfold fixed, describes, gateway_text. intros [= -> -> -> ->] Hd. exact Hd. Qed.

Lemma shows_peer_fixed d i j u view : fixed i = fixed j -> shows_peer d i u view -> shows_peer d j u view.
Proof.
  intros Hf (p & rec & peer & v & Hp & Hr & Hv & Hs & Hd). exists p, rec, peer, v. repeat (split; [done|]).
  by apply (describes_fixed d i).
Qed.

(** [m] returns a value with [R] and leaves the document and the fixed part of the instances alone. *)
Definition reads {A} (m : SM A) (s : St) (R : A -> Prop) : Prop :=
  post m s (fun a t => same_store s t /\ R a) (fun _ _ => False).

Lemma reads_safe {A} (m : SM A) s R : reads m s R -> safe m s.
Proof. intros Hm. eapply post_mono; [exact Hm|by intros a t [Ht _]|done]. Qed.
Lemma reads_ret {A} (a : A) s (R : A -> Prop) : R a -> reads (mret a) s R.
Proof. intros Ha. split; [apply same_store_refl|exact Ha]. Qed.
Lemma reads_bind {A B} (m : SM A) (f : A -> SM B) s R R' :
  reads m s R -> (forall a t, same_store s t -> R a -> reads (f a) t R') -> reads (m ≫= f) s R'.
Proof.
  intros Hm Hf. apply post_bind_eff. eapply post_mono; [exact Hm| |done]. intros a t [Ht Ha].
  eapply post_mono; [exact (Hf a t Ht Ha)| |done]. intros b u [Hu Hb]. split; [by apply (same_store_trans s t u)|exact Hb].
Qed.
Lemma safe_reads {A} (m : SM A) s : safe m s -> reads m s (fun _ => True).
Proof. intros Hm. eapply post_mono; [exact Hm|done|done]. Qed.

Lemma same_fixed (s t : St) idx i : same_store s t -> instances s !! idx = Some i ->
  exists j, instances t !! idx = Some j /\ fixed j = fixed i.
Proof.
  intros [_ Hs] Hi. apply (f_equal (lookup idx)) in Hs. rewrite !list_lookup_fmap, Hi in Hs. simpl in Hs.
  destruct (instances t !! idx) as [j|]; [|done]. exists j. split; [done|]. exact (inj Some _ _ Hs).
Qed.

Lemma reads_instance_view s idx i : good s -> instances s !! idx = Some i -> reads (instance_view config idx) s (describes (doc s) i).
Proof.
  intros Hg Hi. pose proof (gd_instances _ Hg) as (l & Hl & Hf).
  pose proof (proj1 (Forall_forall _ _) Hf i (list_elem_of_lookup_2 _ _ _ Hi)) as Hb. cbv beta in Hb. unfold bhas in Hb.
  unfold instance_view, reads. apply post_bind_eff. unfold post at 1, instance_at. rewrite Hi. simpl.
  apply post_bind_eff. unfold post at 1, the_section, section_of. rewrite Hl.
  destruct (bget (i_version i) l) as [stored|] eqn:Hs; [|done]. split; [apply same_store_refl|].
  exists l, stored. eexists. split; [done|]. split; [done|]. reflexivity.
Qed.

Lemma reads_peer_result s idx u p rec : section "peers" (doc s) = Ok p -> bget u p = Some rec ->
  (forall k, idx = Some k -> is_Some (instances s !! k)) ->
  reads (peer_result u idx) s (fun v => exists view, v = Object [("peer", view)] /\ shows u rec view).
Proof.
  intros Hp Hu Hk. unfold peer_result. apply post_bind_eff. unfold post at 1, the_section, section_of. rewrite Hp.
  apply post_bind_eff. unfold post at 1, lift. rewrite Hu. cbv beta iota delta [ok_or].
  eapply reads_bind; [by apply safe_reads, safe_stats|]. intros st t Ht _. apply reads_ret. eexists. split; [done|apply shows_view].
Qed.

Lemma reads_peer_response s idx i u p rec : good s -> section "peers" (doc s) = Ok p -> bget u p = Some rec ->
  instances s !! idx = Some i -> reads (peer_response config u idx) s (shows_peer (doc s) i u).
Proof.
  intros Hg Hp Hu Hi. unfold peer_response. apply post_bind_eff. unfold post at 1, the_section, section_of. rewrite Hp.
  apply post_bind_eff. unfold post at 1, lift. rewrite Hu. cbv beta iota delta [ok_or].
  eapply reads_bind; [apply safe_reads, safe_stats; intros k [= <-]; by exists i|]. intros st t Ht _.
  destruct (same_fixed s t idx i Ht Hi) as (j & Hj & Hf).
  eapply reads_bind; [apply reads_instance_view; [by eapply good_same|exact Hj]|]. intros v t' Ht' Hv. apply reads_ret.
  exists p, rec, (peer_view u rec st), v. split; [done|]. split; [done|]. split; [done|]. split; [apply shows_view|].
  destruct Ht as [Hd _]. rewrite Hd in Hv. by apply (describes_fixed _ j).
Qed.

(** ** Commits *)

(** The write of the document failed. *)
Definition write_failed : Prop := exists text h e, (write_state (H:=H) text h).1 = Err e.

Definition e_internal : Failure := Api {| status := 500; code := "internal_error"; detail := "manager operation failed" |}.

Lemma post_commit f s d ops : f (doc s) = Ok d -> section "operations" d = Ok ops ->
  post (commit f) s (fun _ t => doc t = put_section "operations" (prune ops) d /\ same_instances s t)
    (fun e t => e = e_internal /\ same_store s t /\ write_failed).
Proof.
  intros Hf Ho. unfold commit, post, mbind, Eff_bind. cbn. rewrite Hf. cbn.
  unfold save, mbind, Eff_bind. cbn. rewrite (with_section_run _ _ _ ops (prune ops) Ho eq_refl). cbn.
  unfold on_host. cbn. destruct (write_state _ (host s)) as [[[]|e] h] eqn:Hw; cbn; [by split|].
  split; [done|]. split; [done|]. eexists _, _, e. rewrite Hw. done.
Qed.

(** ** The checks of a request *)

Definition key_ok (text : string) : Prop := exists raw, unb64 text = Ok raw /\ all_zero raw = false.

Lemma key_Ok v name text : key v name = Ok text <-> v = Str text /\ key_ok text.
Proof.
  unfold key, key_ok. split.
  - destruct v; simpl; try done. destruct (unb64 s) as [raw|] eqn:Hu; [|done]. destruct (all_zero raw) eqn:Hz; [done|].
    intros [= ->]. eauto.
  - intros [-> (raw & Hu & Hz)]. simpl. by rewrite Hu, Hz.
Qed.

Lemma key_hex text : key_ok text -> exists h, hexkey text = Ok h.
Proof. intros (raw & Hu & _). unfold hexkey. rewrite Hu. by eexists. Qed.

Lemma operation_id_Ok v op : operation_id v = Ok op <-> v = Str op /\ is_operation_id op = true.
Proof.
  unfold operation_id. split.
  - destruct v; simpl; try done. destruct (is_operation_id s) eqn:Hs; [|done]. by intros [= ->].
  - intros [-> Hs]. simpl. by rewrite Hs.
Qed.

Lemma username_of_Ok v u : username_of v = Ok u <-> v = Str u /\ is_username u = true.
Proof.
  unfold username_of. split.
  - destruct v; simpl; try done. destruct (is_username s) eqn:Hs; [|done]. by intros [= ->].
  - intros [-> Hs]. simpl. by rewrite Hs.
Qed.

(** ** Creating a peer *)

(** The address a peer of [i] gets among [peers]: the smallest that none of them holds. *)
Definition lowest_free (i : Instance) (peers : imap Value) (a : N) : Prop :=
  (gateway (i_subnet i) < a < broadcast (i_subnet i))%N /\ (format_v4 a ∉ used_addresses (i_version i) peers)
  /\ forall b, (gateway (i_subnet i) < b < a)%N -> format_v4 b ∈ used_addresses (i_version i) peers.

Definition pool_exhausted (i : Instance) (peers : imap Value) : Prop :=
  forall a, (gateway (i_subnet i) < a < broadcast (i_subnet i))%N -> format_v4 a ∈ used_addresses (i_version i) peers.

Definition e_conflict (code detail : string) : Failure := Api {| status := 409; code := code; detail := detail |}.

Lemma new_record_fields version public psk address created op :
  str_field (new_record version public psk address created op) "version" = version
  /\ str_field (new_record version public psk address created op) "public_key" = public
  /\ str_field (new_record version public psk address created op) "address" = address.
Proof. done. Qed.

Lemma add_peer_run user rec op digest d peers ops : section "peers" d = Ok peers -> section "operations" d = Ok ops ->
  exists d', add_peer user rec op digest d = Ok d' /\ section "peers" d' = Ok (iset user rec peers)
    /\ section "operations" d' = Ok (iset op (operation_record digest user) ops)
    /\ section "instances" d' = section "instances" d.
Proof.
  intros Hp Ho. set (d1 := put_section "peers" (iset user rec peers) d).
  assert (Ho1 : section "operations" d1 = Ok ops) by (unfold d1; by rewrite (section_put _ _ _ _ _ Hp)).
  exists (put_section "operations" (iset op (operation_record digest user) ops) d1). split.
  - unfold add_peer. eapply bind_Ok_intro; [by apply (with_section_run _ _ _ _ (iset user rec peers) Hp)|].
    by apply (with_section_run _ _ _ _ (iset op (operation_record digest user) ops) Ho1).
  - rewrite !(section_put _ _ _ _ _ Ho1). simpl. unfold d1. by rewrite !(section_put _ _ _ _ _ Hp).
Qed.

(** What a commit that also records an operation leaves. *)
Lemma committed d ops (t : St) : section "operations" d = Ok ops -> doc t = put_section "operations" (prune ops) d ->
  section "operations" (doc t) = Ok (prune ops) /\ section "peers" (doc t) = section "peers" d
  /\ section "instances" (doc t) = section "instances" d.
Proof. intros Ho Hd. rewrite Hd, !(section_put _ _ _ _ _ Ho). done. Qed.

Lemma create_keeps_good (s : St) idx i user public psk a created op peers :
  good s -> instances s !! idx = Some i -> peers_ok (nets s) peers -> bget user peers = None ->
  pubkey_taken peers (i_version i) public None = false -> lowest_free i peers a ->
  peers_ok (nets s) (iset user (new_record (i_version i) public psk (format_v4 a) created op) peers).
Proof.
  intros Hg Hi Hok Hu Hk (Hr & Hf & _). destruct (new_record_fields (i_version i) public psk (format_v4 a) created op) as (E1 & E2 & E3).
  apply (peers_ok_add _ _ _ _ a (i_subnet i)); rewrite ?E1, ?E2, ?E3; try done; [by apply gd_nets|].
  by apply (position_nets s _ idx).
Qed.

Lemma free_address_cases (s : St) idx i peers : good s -> instances s !! idx = Some i -> section "peers" (doc s) = Ok peers ->
  (exists a, free_address s idx = Ok (format_v4 a) /\ lowest_free i peers a)
  \/ (free_address s idx = Err (e_conflict "address_pool_exhausted" "no free address in the subnet") /\ pool_exhausted i peers).
Proof.
  intros Hg Hi Hp. destruct (gd_nets _ Hg) as [_ Hn].
  destruct (Hn _ _ (position_nets s _ idx i Hi eq_refl)) as [Hok Hpre].
  unfold free_address. rewrite Hi. simpl. rewrite Hp. simpl. destruct (first_free _ _) as [address|] eqn:Hf.
  - left. destruct (first_free_Some _ _ _ Hok Hpre Hf) as (a & -> & Ha). by exists a.
  - right. split; [done|]. intros a Ha. by apply (first_free_None _ _ Hok Hpre Hf).
Qed.
(** Why a new peer is refused. *)
Definition create_refused (i : Instance) (peers : imap Value) (user public : string) (e : Failure) : Prop :=
  (e = e_conflict "username_taken" "username already exists" /\ is_Some (bget user peers))
  \/ (e = e_conflict "public_key_in_use" "public key already in use" /\ bget user peers = None
      /\ pubkey_taken peers (i_version i) public None = true)
  \/ (e = e_conflict "address_pool_exhausted" "no free address in the subnet" /\ bget user peers = None
      /\ pool_exhausted i peers)
  \/ (e = e_internal /\ write_failed).

(** What a new peer changes. *)
Definition peer_created (s t : St) (i : Instance) (peers ops : imap Value) (op user public psk digest : string) : Prop :=
  bget user peers = None /\ pubkey_taken peers (i_version i) public None = false
  /\ (exists a created, lowest_free i peers a
      /\ section "peers" (doc t) = Ok (iset user (new_record (i_version i) public psk (format_v4 a) created op) peers))
  /\ section "operations" (doc t) = Ok (prune (iset op (operation_record digest user) ops))
  /\ section "instances" (doc t) = section "instances" (doc s)
  /\ same_instances s t.

Lemma peer_created_same s t u i peers ops op user public psk digest : same_store t u ->
  peer_created s t i peers ops op user public psk digest -> peer_created s u i peers ops op user public psk digest.
Proof.
  intros [Hd Hi] (? & ? & ? & ? & ? & Hs). unfold peer_created. rewrite Hd. unfold same_instances in *. split_and!; congruence.
Qed.

Lemma peer_created_good s t idx i peers ops op user public psk digest :
  good s -> instances s !! idx = Some i -> section "peers" (doc s) = Ok peers -> section "operations" (doc s) = Ok ops ->
  peer_created s t i peers ops op user public psk digest -> good t.
Proof.
  intros Hg Hi Hp Ho (Hu & Hk & (a & created & Hl & Hpt) & Hot & Hit & Hs).
  destruct (gd_peers _ Hg) as (p & Hp' & Hok). rewrite Hp in Hp'. injection Hp' as <-.
  destruct (gd_operations _ Hg) as (o & Ho' & Hoi & Hol). rewrite Ho in Ho'. injection Ho' as <-.
  eapply (good_doc s); [done|done|done|exact Hpt| |exact Hot| |apply prune_length].
  - by apply (create_keeps_good s idx).
  - by apply iok_prune, iok_iset.
Qed.

Lemma post_create_new s idx i op user public psk digest peers ops :
  good s -> instances s !! idx = Some i -> section "peers" (doc s) = Ok peers -> section "operations" (doc s) = Ok ops ->
  key_ok public -> key_ok psk ->
  post (create_new config idx op user (i_version i) public psk digest) s
    (fun r t => r.1 = 201%Z /\ peer_created s t i peers ops op user public psk digest /\ shows_peer (doc t) i user r.2)
    (fun e t => same_store s t /\ create_refused i peers user public e).
Proof.
  intros Hg Hi Hp Ho Hpub Hpsk. unfold create_new. apply post_bind_eff. unfold post at 1, the_section, section_of. rewrite Hp.
  destruct (bhas user peers) eqn:Hu.
  { split; [apply same_store_refl|]. left. split; [done|]. unfold bhas in Hu. by destruct (bget user peers). }
  assert (Hn : bget user peers = None) by (unfold bhas in Hu; by destruct (bget user peers)).
  destruct (pubkey_taken peers (i_version i) public None) eqn:Hk.
  { split; [apply same_store_refl|]. right. by left. }
  apply post_bind_eff. unfold post at 1, read. destruct (free_address_cases s idx i peers Hg Hi Hp) as [(a & Hf & Hl)|[Hf Hx]]; rewrite Hf.
  2: { split; [apply same_store_refl|]. right. right. by left. }
  apply post_bind_eff. unfold post at 1, on_host. destruct (wall (host s)) as [w h].
  set (rec := new_record (i_version i) public psk (format_v4 a) (as_i64_sat w) op).
  destruct (add_peer_run user rec op digest _ _ _ Hp Ho) as (d & Hd & Hdp & Hdo & Hdi).
  apply post_bind_eff. eapply post_mono; [exact (post_commit _ (set_host h s) d _ Hd Hdo)| |].
  2: { intros e t (-> & Hst & Hw). split; [exact Hst|]. right. right. right. done. }
  intros _ t [Hdoc Hin]. destruct (committed d _ t Hdo Hdoc) as (H1 & H2 & H3).
  assert (Hc : peer_created s t i peers ops op user public psk digest).
  { split; [done|]. split; [done|]. split; [exists a, (as_i64_sat w); split; [done|by rewrite H2, Hdp]|].
    split; [done|]. split; [by rewrite H3, Hdi|done]. }
  destruct (key_hex _ Hpub) as [hp Ehp], (key_hex _ Hpsk) as [hs Ehs].
  apply post_bind_eff. unfold post at 1, lift. rewrite Ehp. cbv beta iota delta [map_err].
  apply post_bind_eff. unfold post at 1, lift. rewrite Ehs. cbv beta iota delta [map_err].
  assert (Hgt : good t) by (by eapply (peer_created_good s t)).
  destruct (same_fixed (set_doc (doc t) s) t idx i) as (k & Hkt & Hfix); [by split|done|].
  apply post_bind_eff. eapply post_mono; [apply safe_live_change; intros k' Hk1; injection Hk1 as <-; by exists k| |done]. intros [] u Hu'.
  destruct (same_fixed t u idx k Hu' Hkt) as (k' & Hku & Hfix').
  apply post_bind_eff. eapply post_mono.
  - apply (reads_peer_response u idx k' user (iset user rec peers) rec).
    + by eapply good_same.
    + destruct Hu' as [-> _]. by rewrite H2, Hdp.
    + apply bget_iset_eq.
    + exact Hku.
  - intros r v [Hv Hr]. split; [done|]. split; [eapply peer_created_same; [|exact Hc]; by apply (same_store_trans t u v)|].
    destruct Hv as [-> _]. apply (shows_peer_fixed _ k'); [congruence|exact Hr].
  - done.
Qed.

(** ** Refusals are answers *)

Definition is_api (e : Failure) : Prop := exists a, e = Api a.
Definition answers {A} (r : FR A) : Prop := forall e, r = Err e -> is_api e.

Lemma answers_Ok {A} (a : A) : answers (Ok a).
Proof. done. Qed.
Lemma answers_api {A} st c d : answers (api st c d : FR A).
Proof. intros e [= <-]. by eexists. Qed.
Lemma answers_bind {A B} (r : FR A) (f : A -> FR B) : answers r -> (forall a, r = Ok a -> answers (f a)) -> answers (r ≫= f).
Proof. intros Hr Hf e. destruct r as [a|e']; simpl; [by apply Hf|]. intros [= <-]. by apply Hr. Qed.

Lemma fields_have body req k : fields body req = Ok tt -> k ∈ req -> exists v, bget k body = Some v.
Proof.
  unfold fields. destruct (negb (length body =? length req)%nat); [done|]. simpl. destruct (forallb _ req) eqn:Hf; [|done].
  intros _ Hk. rewrite forallb_forall in Hf. specialize (Hf k (proj1 (list_elem_of_In _ _) Hk)). unfold bhas in Hf.
  destruct (bget k body); [by eexists|done].
Qed.

Lemma answers_fields body req : answers (fields body req).
Proof. unfold fields. destruct (_ || _); [apply answers_api|apply answers_Ok]. Qed.
Lemma answers_operation_id v : answers (operation_id v).
Proof. unfold operation_id. destruct v; simpl; try apply answers_api. destruct (is_operation_id s); [apply answers_Ok|apply answers_api]. Qed.
Lemma answers_username v : answers (username_of v).
Proof. unfold username_of. destruct v; simpl; try apply answers_api. destruct (is_username s); [apply answers_Ok|apply answers_api]. Qed.
Lemma answers_key v name : answers (key v name).
Proof.
  unfold key. destruct v; simpl; try apply answers_api. destruct (unb64 s) as [raw|]; [|apply answers_api].
  destruct (all_zero raw); [apply answers_api|apply answers_Ok].
Qed.
Lemma answers_body {A} body req k (f : Value -> FR A) : fields body req = Ok tt -> k ∈ req -> (forall v, answers (f v)) ->
  answers (body_at body k ≫= f).
Proof. intros Hb Hk Hf. destruct (fields_have _ _ _ Hb Hk) as [v Hv]. unfold body_at. rewrite Hv. apply Hf. Qed.
Lemma answers_known s v : answers (known_instance (H:=H) s v).
Proof.
  unfold known_instance. destruct v; cbn [as_str]; try apply answers_api. destruct (mem_str s0 KNOWN_VERSIONS); [|apply answers_api].
  destruct (position s0 (instances s)); [apply answers_Ok|apply answers_api].
Qed.
Lemma answers_replayed s op d : good s -> answers (replayed (H:=H) s op d).
Proof.
  intros Hg. destruct (gd_operations _ Hg) as (ops & Ho & _). destruct (gd_peers _ Hg) as (p & Hp & _). unfold replayed.
  rewrite Ho. simpl. destruct (bget op ops); [|apply answers_Ok]. destruct (negb _); [apply answers_api|]. rewrite Hp. apply answers_Ok.
Qed.
Lemma answers_record s u : good s -> answers (record (H:=H) s u).
Proof.
  intros Hg. destruct (gd_peers _ Hg) as (p & Hp & _). unfold record. rewrite Hp. simpl.
  destruct (bget u p); [apply answers_Ok|apply answers_api].
Qed.

(** A step of a handler that only reads: it goes on with the value or ends with a refusal. *)
Lemma post_ask {A B} (r : FR A) (f : A -> SM B) s (Q : B -> St -> Prop) Y :
  answers r -> (forall a, r = Ok a -> post (f a) s Q Y) -> (forall e, is_api e -> Y e s) -> post (lift r ≫= f) s Q Y.
Proof. intros Hr Hf Hx. apply post_bind_eff, post_lift; [exact Hf|]. intros e He. by apply Hx, Hr. Qed.
Lemma post_ask_read {A B} (r : St -> FR A) (f : A -> SM B) s (Q : B -> St -> Prop) Y :
  answers (r s) -> (forall a, r s = Ok a -> post (f a) s Q Y) -> (forall e, is_api e -> Y e s) -> post (read r ≫= f) s Q Y.
Proof. intros Hr Hf Hx. by apply (post_ask (r s) f s). Qed.

(** ** The record of a peer *)

Definition next_revision (m : imap Value) : Value := json_int (wrap_i64 (default 0%Z (bget "revision" m ≫= as_i64) + 1)).

(** [m'] is the record [m] with [changes] made and its revision one higher; its other fields are kept. *)
Definition edited (changes : list (string * Value)) (m m' : imap Value) : Prop := forall k,
  bget k m' = if k =?s "revision" then Some (next_revision m)
              else match bget k changes with Some v => Some v | None => bget k m end.

Lemma bump_revision_run m : bump_revision (Object m) = Ok (Object (iset "revision" (next_revision m) m)).
Proof. unfold bump_revision, next_revision, at_index. by destruct (bget "revision" m). Qed.

Lemma edited_by changes m : bget "revision" changes = None ->
  let m1 := fold_right (fun e m => iset e.1 e.2 m) m changes in
  next_revision m1 = next_revision m /\ edited changes m (iset "revision" (next_revision m) m1).
Proof.
  intros Hr m1. assert (Hg : forall k, bget k m1 = match bget k changes with Some v => Some v | None => bget k m end).
  { intros k. unfold m1. clear Hr m1. induction changes as [|[q v] l IH]; simpl; [done|]. rewrite bget_iset. by destruct (k =?s q). }
  split; [unfold next_revision; by rewrite Hg, Hr|]. intros k. rewrite bget_iset. by destruct (k =?s "revision").
Qed.

Lemma enable_record_run b m : exists m', enable_record b (Object m) = Ok (Object m') /\ edited [("enabled", Bool b)] m m'.
Proof.
  destruct (edited_by [("enabled", Bool b)] m eq_refl) as [Hn He]. eexists. split; [|exact He].
  unfold enable_record. cbn [set_index mbind result_bind]. rewrite bump_revision_run. cbn [fold_right fst snd] in Hn. by rewrite Hn.
Qed.

Lemma rotate_record_run public psk op m : exists m', rotate_record public psk op (Object m) = Ok (Object m')
  /\ edited [("operation_id", Str op); ("preshared_key", Str psk); ("public_key", Str public)] m m'.
Proof.
  destruct (edited_by [("operation_id", Str op); ("preshared_key", Str psk); ("public_key", Str public)] m eq_refl) as [Hn He].
  eexists. split; [|exact He]. unfold rotate_record. cbn [set_index mbind result_bind]. rewrite bump_revision_run.
  cbn [fold_right fst snd] in Hn. by rewrite Hn.
Qed.

(** The fields that are not changed. *)
Lemma edited_fields changes m m' : edited changes m m' -> forall k, k <> "revision" -> bget k changes = None ->
  str_field (Object m') k = str_field (Object m) k.
Proof.
  intros He k Hk Hc. unfold str_field, get_field. rewrite He, Hc. destruct (k =?s "revision") eqn:E; [|done].
  by apply eqb_s_true in E.
Qed.
End requests.

(** * Every request of the AmneziaWG manager, as a transition of its document

    [transition] says, from what a request names, which answer it may get and what the document is
    then; each handler, from a state between two requests, either answers with a refusal and leaves
    the document alone, or carries out its transition and leaves a state between two requests. *)

Inductive Request :=
| Create (body : imap Value)
| Enable (username : string) (enabled : bool)
| Rotate (username : string) (body : imap Value)
| Delete (username : string)
| ListPeers
| ListInstances
| Tick.

Lemma apart_lists (l l' : list string) k : forallb (fun x => negb (mem_str x l')) l = true -> k ∈ l -> k ∉ l'.
Proof.
  intros Hf Hk Hk'. rewrite forallb_forall in Hf. apply list_elem_of_In in Hk. specialize (Hf k Hk).
  apply mem_str_true in Hk'. by rewrite Hk' in Hf.
Qed.

Section handlers.
Context {H : Type} {HO : Host H} {RN : Rng H} {B64 : Base64} {X : X25519} {FT : FloatText} {SHA : Sha256}.
Context (config : AwgConfig).
Abbreviation SM := (Eff Failure (@Inner H)).
Abbreviation St := (@Inner H).

Definition create_digest (version username public psk : string) : string :=
  digest "create" [("username", username); ("version", version); ("pub", public); ("psk", psk)].
Definition rotate_digest (username public psk : string) : string :=
  digest "rotate" [("username", username); ("pub", public); ("psk", psk)].

(** A well-formed creation request and what it names; likewise a rotation. *)
Record create_request (body : imap Value) (op user version public psk : string) : Prop := {
  cr_length : length body = 5%nat;
  cr_op : bget "operation_id" body = Some (Str op) /\ is_operation_id op = true;
  cr_user : bget "username" body = Some (Str user) /\ is_username user = true;
  cr_version : bget "version" body = Some (Str version) /\ version ∈ KNOWN_VERSIONS;
  cr_public : bget "public_key" body = Some (Str public) /\ key_ok public;
  cr_psk : bget "preshared_key" body = Some (Str psk) /\ key_ok psk;
}.
Record rotate_request (body : imap Value) (op public psk : string) : Prop := {
  rr_length : length body = 3%nat;
  rr_op : bget "operation_id" body = Some (Str op) /\ is_operation_id op = true;
  rr_public : bget "public_key" body = Some (Str public) /\ key_ok public;
  rr_psk : bget "preshared_key" body = Some (Str psk) /\ key_ok psk;
}.

(** What a client gets back: a status and a document, an empty reply; a tick has no client. *)
Inductive Answer := Reply (status : Z) (payload : Value) | Empty | Ticked.

(** One request and its answer, as [server.rs] makes it of the handler's. *)
Definition serve (r : Request) : SM Answer :=
  match r with
  | Create body => r ← create_peer config body; mret (Reply r.1 r.2)
  | Enable u b => v ← set_enabled u b; mret (Reply 200 v)
  | Rotate u body => v ← rotate u body; mret (Reply 200 v)
  | Delete u => delete_peer u ≫= fun _ => mret Empty
  | ListPeers => v ← list_peers; mret (Reply 200 v)
  | ListInstances => v ← list_instances config; mret (Reply 200 v)
  | Tick => tick_instances config ≫= fun _ => mret Ticked
  end.

Definition peers_of (s : St) : imap Value := match section "peers" (doc s) with Ok p => p | Err _ => [] end.
Definition operations_of (s : St) : imap Value := match section "operations" (doc s) with Ok o => o | Err _ => [] end.

(** The operation [op] was carried out with the digest [d] for [user], who is still there. *)
Definition repeated (s : St) (op d user : string) : Prop := exists known, bget op (operations_of s) = Some known
  /\ str_field known "digest" = d /\ str_field known "username" = user /\ is_Some (bget user (peers_of s)).
(** It was not carried out, or for a peer that is gone. *)
Definition pending (s : St) (op d : string) : Prop := match bget op (operations_of s) with
  | None => True
  | Some known => str_field known "digest" = d /\ bget (str_field known "username") (peers_of s) = None
  end.
Definition recorded (op d user : string) (s : St) : imap Value :=
  prune (iset op (Object [("digest", Str d); ("username", Str user)]) (operations_of s)).

(** No peer of the version but [except] has the key. *)
Definition key_unused (peers : imap Value) (version public : string) (except : option string) : Prop :=
  forall u rec, bget u peers = Some rec -> str_field rec "version" = version -> str_field rec "public_key" = public -> Some u = except.

Definition peer_answer (u : string) (rec : Value) (a : Answer) : Prop := exists view,
  a = Reply 200 (Object [("peer", view)]) /\ shows u rec view.

(** *** What a request that succeeds answers and does *)

(** A creation makes the peer it names, with the lowest free address, and records its operation; or its
    operation was carried out before: the document is as it was and the answer is the peer it made. *)
Definition creates (s : St) (body : imap Value) (a : Answer) (t : St) : Prop :=
  exists op user version public psk i, create_request body op user version public psk /\ i ∈ instances s /\ i_version i = version
  /\ let d := create_digest version user public psk in
     (exists view again, a = Reply 200 view /\ doc t = doc s /\ repeated s op d again /\ shows_peer config (doc t) i again view)
     \/ (exists view address created, a = Reply 201 view /\ pending s op d /\ bget user (peers_of s) = None
         /\ key_unused (peers_of s) version public None /\ lowest_free i (peers_of s) address
         /\ peers_of t = iset user (Object [("version", Str version); ("public_key", Str public); ("preshared_key", Str psk);
              ("address", Str (format_v4 address)); ("enabled", Bool true); ("revision", json_int 1);
              ("created_at", json_int created); ("operation_id", Str op)]) (peers_of s)
         /\ operations_of t = recorded op d user s /\ shows_peer config (doc t) i user view).

Definition enables (s : St) (u : string) (b : bool) (a : Answer) (t : St) : Prop :=
  exists m m', bget u (peers_of s) = Some (Object m) /\ peer_answer u (Object m') a /\
  if is_bool (bget "enabled" m) b then doc t = doc s /\ m' = m
  else edited [("enabled", Bool b)] m m' /\ peers_of t = iset u (Object m') (peers_of s) /\ operations_of t = operations_of s.

(** A rotation gives the peer the two keys it names and records its operation, or was carried out before. *)
Definition rotates (s : St) (u : string) (body : imap Value) (a : Answer) (t : St) : Prop :=
  exists op public psk m m', rotate_request body op public psk /\ bget u (peers_of s) = Some (Object m) /\ peer_answer u (Object m') a
  /\ let d := rotate_digest u public psk in
     ((exists again, repeated s op d again) /\ doc t = doc s /\ m' = m)
     \/ (pending s op d /\ key_unused (peers_of s) (str_field (Object m) "version") public (Some u)
         /\ edited [("operation_id", Str op); ("preshared_key", Str psk); ("public_key", Str public)] m m'
         /\ peers_of t = iset u (Object m') (peers_of s) /\ operations_of t = recorded op d u s).

Definition transition (s : St) (r : Request) (a : Answer) (t : St) : Prop :=
  match r with
  | Create body => creates s body a t
  | Enable u b => enables s u b a t
  | Rotate u body => rotates s u body a t
  | Delete u => a = Empty /\ is_Some (bget u (peers_of s)) /\ peers_of t = idel u (peers_of s) /\ operations_of t = operations_of s
  | ListPeers => doc t = doc s /\ exists views, a = Reply 200 (Object [("peers", Array views)]) /\
      Forall2 (fun u view => exists rec, bget u (peers_of s) = Some rec /\ shows u rec view) (sort_str (bkeys (peers_of s))) views
  | ListInstances => doc t = doc s /\ exists views, a = Reply 200 (Object [("instances", Array views)]) /\
      Forall2 (describes config (doc s)) (instances s) views
  | Tick => a = Ticked /\ doc t = doc s
  end.

(** The contract of a handler whose value is sent as [answer]. *)
Definition carried_out (s : St) (r : Request) (a : Answer) (t : St) : Prop := good t /\ same_instances s t /\ transition s r a t.
Definition refused (s : St) (e : Failure) (t : St) : Prop := same_store s t /\ is_api e.
Definition serves {A} (r : Request) (answer : A -> Answer) (m : SM A) (s : St) : Prop :=
  post m s (fun a t => carried_out s r (answer a) t) (refused s).

Lemma serves_sent {A} r (answer : A -> Answer) (m : SM A) s : serves r answer m s -> serves r id (a ← m; mret (answer a)) s.
Proof. intros Hm. apply post_bind_eff. eapply post_mono; [exact Hm|done|done]. Qed.

Lemma peers_of_section s p : section "peers" (doc s) = Ok p -> peers_of s = p.
Proof. unfold peers_of. by intros ->. Qed.
Lemma operations_of_section s o : section "operations" (doc s) = Ok o -> operations_of s = o.
Proof. unfold operations_of. by intros ->. Qed.
Lemma same_peers (s t : St) : same_store s t -> peers_of t = peers_of s.
Proof. intros [Hd _]. unfold peers_of. by rewrite Hd. Qed.
Lemma same_operations (s t : St) : same_store s t -> operations_of t = operations_of s.
Proof. intros [Hd _]. unfold operations_of. by rewrite Hd. Qed.

(** The end of a handler that does not touch the document. *)
Lemma serves_reads {A} r (answer : A -> Answer) (m : SM A) s t (R : A -> Prop) : good t -> same_instances s t -> reads m t R ->
  (forall a u, same_store t u -> R a -> transition s r (answer a) u) ->
  post m t (fun a u => carried_out s r (answer a) u) (refused s).
Proof.
  intros Hg Hi Hm Ht. eapply post_mono; [exact Hm| |done]. intros a u [Hu Ha]. split; [exact (good_same t u Hu Hg)|].
  split; [|by apply Ht]. destruct Hu as [_ Hu]. unfold same_instances in *. congruence.
Qed.

(** *** What the checks of a request say *)

Lemma body_at_Ok (body : imap Value) k v : body_at body k = Ok v <-> bget k body = Some v.
Proof. unfold body_at. destruct (bget k body); simpl; split; congruence. Qed.
Lemma body_length (body : imap Value) req : fields body req = Ok tt -> length body = length req.
Proof. unfold fields. destruct (length body =? length req)%nat eqn:E; [|done]. intros _. by apply Nat.eqb_eq. Qed.
Lemma asked_operation body op : body_at body "operation_id" ≫= operation_id = Ok op ->
  bget "operation_id" body = Some (Str op) /\ is_operation_id op = true.
Proof. intros (v & Hv & [-> Ho]%operation_id_Ok)%bind_Ok. by apply body_at_Ok in Hv. Qed.
Lemma asked_user body u : body_at body "username" ≫= username_of = Ok u ->
  bget "username" body = Some (Str u) /\ is_username u = true.
Proof. intros (v & Hv & [-> Ho]%username_of_Ok)%bind_Ok. by apply body_at_Ok in Hv. Qed.
Lemma asked_key body k text : (v ← body_at body k; key v k) = Ok text -> bget k body = Some (Str text) /\ key_ok text.
Proof. intros (v & Hv & [-> Ho]%key_Ok)%bind_Ok. by apply body_at_Ok in Hv. Qed.

Lemma unused_key peers version public except : pubkey_taken peers version public except = false ->
  key_unused peers version public except.
Proof. intros Hn u rec Hu. apply (proj1 (not_taken _ _ _ _) Hn). by apply bget_Some_In. Qed.

Lemma replayed_Ok (s : St) op d again : replayed s op d = Ok again ->
  match again with Some u => repeated s op d u | None => pending s op d end.
Proof.
  unfold replayed, repeated, pending. intros Hr. inv_binds. rewrite (operations_of_section _ _ Hr0).
  destruct (bget op a) as [known|]; [|by apply Ok_inj in Hr as <-]. destruct (negb _) eqn:Hd; [done|].
  apply negb_false_iff, eqb_s_true in Hd. inv_binds. rewrite (peers_of_section _ _ Hr1). apply Ok_inj in Hr as <-.
  unfold bhas. destruct (bget (str_field known "username") a0) eqn:Hu; [|done]. exists known. by rewrite Hu.
Qed.

Lemma known_instance_Ok (s : St) v idx : known_instance s v = Ok idx ->
  exists i, instances s !! idx = Some i /\ v = Str (i_version i) /\ i_version i ∈ KNOWN_VERSIONS.
Proof.
  unfold known_instance. destruct v as [| | |version| |]; cbn [as_str]; try done. destruct (mem_str version KNOWN_VERSIONS) eqn:Hm; [|done].
  destruct (position version (instances s)) as [k|] eqn:Hp; [|done]. intros [= <-].
  apply position_Some in Hp as (i & Hi & <-). exists i. split; [done|]. split; [done|]. by apply mem_str_true.
Qed.

Lemma serves_create_again s body op user public psk idx i again : good s -> instances s !! idx = Some i ->
  create_request body op user (i_version i) public psk -> repeated s op (create_digest (i_version i) user public psk) again ->
  post (response ← peer_response config again idx; mret (200%Z, response)) s
    (fun r t => carried_out s (Create body) (Reply r.1 r.2) t) (refused s).
Proof.
  intros Hg Hi Hreq Hrep. pose proof Hrep as (known & _ & _ & _ & [rec Hrec]).
  destruct (gd_peers _ Hg) as (p & Hp & _). rewrite (peers_of_section _ _ Hp) in Hrec.
  apply (serves_reads _ (fun r : Z * Value => Reply r.1 r.2) _ s s (fun r => r.1 = 200%Z /\ shows_peer config (doc s) i again r.2)); [done|done| |].
  - eapply reads_bind; [by apply (reads_peer_response config s idx i again p rec)|]. intros v t Ht Hv. by apply reads_ret.
  - intros [st v] t [Ht _] [Hst Hv]. simpl in *. subst st. exists op, user, (i_version i), public, psk, i.
    split; [done|]. split; [by eapply list_elem_of_lookup_2|]. split; [done|]. left. exists v, again. by rewrite Ht.
Qed.

Lemma serves_create_new s body op user public psk idx i : good s -> instances s !! idx = Some i ->
  create_request body op user (i_version i) public psk -> pending s op (create_digest (i_version i) user public psk) ->
  post (create_new config idx op user (i_version i) public psk (create_digest (i_version i) user public psk)) s
    (fun r t => carried_out s (Create body) (Reply r.1 r.2) t) (refused s).
Proof.
  intros Hg Hi Hreq Hpend. destruct (gd_peers _ Hg) as (p & Hp & Hok). destruct (gd_operations _ Hg) as (ops & Ho & _).
  destruct (cr_public _ _ _ _ _ _ Hreq) as [_ Hpub]. destruct (cr_psk _ _ _ _ _ _ Hreq) as [_ Hpsk].
  eapply post_mono; [by apply (post_create_new config s idx i op user public psk _ p ops)| |].
  - intros [st v] t (Hst & Hc & Hv). simpl in *. subst st. split; [by eapply (peer_created_good s t)|].
    destruct Hc as (H1 & H2 & (a & created & H3 & H4) & H5 & _ & H6). split; [done|].
    exists op, user, (i_version i), public, psk, i. split; [done|]. split; [by eapply list_elem_of_lookup_2|]. split; [done|].
    right. exists v, a, created. unfold recorded. rewrite (peers_of_section _ _ Hp), (peers_of_section _ _ H4), (operations_of_section _ _ Ho).
    split; [done|]. split; [done|]. split; [done|]. split; [by apply unused_key|]. split; [done|]. split; [done|].
    split; [by apply operations_of_section|done].
  - intros e t [Hs Hr]. split; [done|]. destruct Hr as [[-> _]|[[-> _]|[[-> _]|[-> _]]]]; by eexists.
Qed.

Lemma serves_create s body : good s -> serves (Create body) (fun r => Reply r.1 r.2) (create_peer config body) s.
Proof.
  intros Hg. unfold serves, create_peer.
  assert (Hx : forall e, is_api e -> refused s e s) by (intros e He; split; [apply same_store_refl|exact He]).
  apply post_ask; [apply answers_fields|intros [] Hf|exact Hx].
  apply post_ask; [apply (answers_body _ _ _ _ Hf); [by repeat constructor|apply answers_operation_id]|intros op Hop|exact Hx].
  apply post_ask; [apply (answers_body _ _ _ _ Hf); [by repeat constructor|apply answers_username]|intros user Huser|exact Hx].
  apply post_ask; [apply (answers_body _ _ _ _ Hf); [by repeat constructor|intros; apply answers_key]|intros public Hpub|exact Hx].
  apply post_ask; [apply (answers_body _ _ _ _ Hf); [by repeat constructor|intros; apply answers_key]|intros psk Hpsk|exact Hx].
  apply post_ask; [|intros v Hv|exact Hx].
  { destruct (fields_have _ _ "version" Hf) as [v Hv]; [by repeat constructor|]. unfold body_at. rewrite Hv. apply answers_Ok. }
  apply post_ask_read; [apply answers_known|intros idx Hidx|exact Hx].
  apply known_instance_Ok in Hidx as (i & Hi & -> & Hknown). apply post_bind_eff. unfold post at 1, instance_at. rewrite Hi.
  cbv beta iota delta [ok_or]. cbv zeta.
  apply post_ask_read; [by apply answers_replayed|intros again Hagain|exact Hx].
  apply asked_operation in Hop. apply asked_user in Huser. apply asked_key in Hpub, Hpsk. apply body_at_Ok in Hv.
  assert (Hreq : create_request body op user (i_version i) public psk) by (split; try done; by apply body_length in Hf).
  assert (Hin : i ∈ instances s) by (by eapply list_elem_of_lookup_2).
  apply replayed_Ok in Hagain. destruct again as [again|]; [by apply (serves_create_again s body op user public psk idx i again)|].
  by apply (serves_create_new s body op user public psk idx i).
Qed.

Lemma record_Ok (s : St) u rec : good s -> record s u = Ok rec ->
  exists p m, section "peers" (doc s) = Ok p /\ peers_ok (nets s) p /\ bget u p = Some rec /\ rec = Object m.
Proof.
  intros Hg. destruct (gd_peers _ Hg) as (p & Hp & Hok). unfold record. rewrite Hp. simpl.
  destruct (bget u p) as [r|] eqn:Hr; [|done]. intros [= <-]. pose proof (po_objects _ _ Hok _ _ Hr) as Ho.
  destruct r; try done. exists p, map. done.
Qed.

Lemma position_lookup (s : St) v k : position v (instances s) = Some k -> is_Some (instances s !! k).
Proof. intros (i & Hi & _)%position_Some. by exists i. Qed.

(** The commit of a change of the peers alone. *)
Lemma post_commit_peers s f p p' : good s -> section "peers" (doc s) = Ok p -> f p = Ok p' -> peers_ok (nets s) p' ->
  post (commit (with_section "peers" f)) s
    (fun _ t => good t /\ same_instances s t /\ peers_of t = p' /\ operations_of t = operations_of s) (refused s).
Proof.
  intros Hg Hp Hf Hok. destruct (gd_operations _ Hg) as (ops & Ho & Hoi & Hol).
  pose proof (with_section_run _ _ _ _ _ Hp Hf) as Hd. set (d := put_section "peers" p' (doc s)) in *.
  assert (Hdo : section "operations" d = Ok ops) by (unfold d; by rewrite (section_put _ _ _ _ _ Hp)).
  eapply post_mono; [exact (post_commit _ s d ops Hd Hdo)| |].
  - intros [] t [Ht Hi]. destruct (committed d ops t Hdo Ht) as (H1 & H2 & H3).
    assert (Hpt : section "peers" (doc t) = Ok p') by (rewrite H2; unfold d; by rewrite (section_put _ _ _ _ _ Hp)).
    split; [|split; [done|split; [by apply peers_of_section|]]].
    + eapply (good_doc s); [done|done| |exact Hpt|done|exact H1|by apply iok_prune|apply prune_length].
      rewrite H3. unfold d. by rewrite (section_put _ _ _ _ _ Hp).
    + rewrite (operations_of_section _ _ Ho), (operations_of_section _ _ H1). by apply prune_short.
  - intros e t (-> & Hs & _). split; [done|]. by eexists.
Qed.

(** The answer of a handler after its commit. *)
Lemma serves_answer r s t u rec idx l : good t -> same_instances s t -> bget u (peers_of t) = Some rec ->
  (forall k, idx = Some k -> is_Some (instances s !! k)) ->
  (forall a w, same_store t w -> peer_answer u rec a -> transition s r a w) ->
  post (live_change idx l ≫= fun _ => peer_result u idx) t (fun v w => carried_out s r (Reply 200 v) w) (refused s).
Proof.
  intros Hg Hi Hu Hk Ht. assert (Hkt : forall v, same_store t v -> forall k, idx = Some k -> is_Some (instances v !! k)).
  { intros v Hv k Hidx. apply (same_lookup t); [done|]. apply (same_lookup (set_doc (doc t) s)); [by split|by apply Hk]. }
  destruct (gd_peers _ Hg) as (p & Hp & _). rewrite (peers_of_section _ _ Hp) in Hu.
  apply (serves_reads _ (Reply 200) _ s t (fun v => exists view, v = Object [("peer", view)] /\ shows u rec view)); [done..| |].
  - eapply reads_bind; [apply safe_reads, safe_live_change, Hkt, same_store_refl|]. intros [] v Hv _.
    apply (reads_peer_result v idx u p rec); [by destruct Hv as [-> _]|done|by apply Hkt].
  - intros v w Hw (view & -> & Hv). apply Ht; [done|]. by exists view.
Qed.

Lemma serves_enable s u b : good s -> serves (Enable u b) (Reply 200) (set_enabled u b) s.
Proof.
  intros Hg. unfold serves, set_enabled.
  assert (Hx : forall e, is_api e -> refused s e s) by (intros e He; split; [apply same_store_refl|exact He]).
  apply post_ask_read; [by apply answers_record|intros rec Hrec|exact Hx].
  destruct (record_Ok _ _ _ Hg Hrec) as (p & m & Hp & Hok & Hu & ->). pose proof (peers_of_section _ _ Hp) as Hps.
  apply post_bind_eff, post_inspect. cbv zeta. set (idx := position _ _).
  assert (Hk : forall k, idx = Some k -> is_Some (instances s !! k)) by (intros k; apply position_lookup).
  destruct (b && _); [split; [apply same_store_refl|by eexists]|]. cbn [get_field].
  destruct (is_bool (bget "enabled" m) b) eqn:Hb.
  - apply post_bind_eff, post_ret_eff.
    apply (serves_reads _ (Reply 200) _ s s (fun v => exists view, v = Object [("peer", view)] /\ shows u (Object m) view));
      [done|done|by apply (reads_peer_result s idx u p (Object m))|].
    intros v t [Ht _] (view & -> & Hv). exists m, m. rewrite Hps, Hb. split; [done|]. split; [by exists view|done].
  - destruct (enable_record_run b m) as (m' & Hm & He). apply post_bind_eff. apply post_bind_eff. eapply post_mono.
    + apply (post_commit_peers s (edit_peer u (enable_record b)) p (iset u (Object m') p)); [done|done| |].
      * unfold edit_peer. rewrite Hu. cbn [ok_or mbind result_bind]. by rewrite Hm.
      * apply (peers_ok_edit _ _ _ (Object m)); [done|done|done| | |left]; by apply (edited_fields _ _ _ He).
    + intros [] t (Hgt & Hit & Hpt & Hot). apply post_bind_inv, (serves_answer _ _ _ _ (Object m')); [done|done| |done|].
      * by rewrite Hpt, bget_iset_eq.
      * intros a w Hw Ha. exists m, m'. rewrite Hps, Hb, (same_peers _ _ Hw), (same_operations _ _ Hw), Hpt. done.
    + done.
Qed.

Lemma rotate_peer_run u public psk op digest d p ops rec rec' : section "peers" d = Ok p -> section "operations" d = Ok ops ->
  bget u p = Some rec -> rotate_record public psk op rec = Ok rec' ->
  exists d', rotate_peer u public psk op digest d = Ok d' /\ section "peers" d' = Ok (iset u rec' p)
    /\ section "operations" d' = Ok (iset op (operation_record digest u) ops)
    /\ section "instances" d' = section "instances" d.
Proof.
  intros Hp Ho Hu Hr. set (d1 := put_section "peers" (iset u rec' p) d).
  assert (Ho1 : section "operations" d1 = Ok ops) by (unfold d1; by rewrite (section_put _ _ _ _ _ Hp)).
  exists (put_section "operations" (iset op (operation_record digest u) ops) d1). split.
  - unfold rotate_peer. eapply bind_Ok_intro.
    + apply (with_section_run _ _ _ _ (iset u rec' p) Hp). unfold edit_peer. rewrite Hu. cbn [ok_or mbind result_bind]. by rewrite Hr.
    + by apply (with_section_run _ _ _ _ (iset op (operation_record digest u) ops) Ho1).
  - rewrite !(section_put _ _ _ _ _ Ho1). simpl. unfold d1. by rewrite !(section_put _ _ _ _ _ Hp).
Qed.

Lemma serves_rotate_new s u body public psk op p m : good s -> section "peers" (doc s) = Ok p -> peers_ok (nets s) p ->
  bget u p = Some (Object m) -> rotate_request body op public psk -> pending s op (rotate_digest u public psk) ->
  serves (Rotate u body) (Reply 200)
    (rotate_new (Object m) (position (str_field (Object m) "version") (instances s)) op u public psk (rotate_digest u public psk)) s.
Proof.
  intros Hg Hp Hok Hu Hreq Hpend. unfold serves, rotate_new. set (idx := position _ _).
  destruct (rr_public _ _ _ _ Hreq) as [_ Hpub]. destruct (rr_psk _ _ _ _ Hreq) as [_ Hpsk].
  pose proof (peers_of_section _ _ Hp) as Hps. destruct (gd_operations _ Hg) as (ops & Ho & Hoi & Hol).
  assert (Hk : forall k, idx = Some k -> is_Some (instances s !! k)) by (intros k; apply position_lookup).
  apply post_bind_eff. unfold post at 1, the_section, section_of. rewrite Hp.
  destruct (pubkey_taken _ _ _ _) eqn:Ht; [split; [apply same_store_refl|by eexists]|].
  apply post_ask; [destruct (hexkey _); [done|apply answers_api]|intros old _|intros e He; split; [apply same_store_refl|exact He]].
  destruct (rotate_record_run public psk op m) as (m' & Hm & He).
  destruct (rotate_peer_run u public psk op (rotate_digest u public psk) _ _ _ _ _ Hp Ho Hu Hm) as (d & Hd & Hdp & Hdo & Hdi).
  apply post_bind_eff. eapply post_mono; [exact (post_commit _ s d _ Hd Hdo)| |].
  2: { intros e t (-> & Hst & Hw). split; [exact Hst|by eexists]. }
  intros [] t [Hdoc Hin]. destruct (committed d _ t Hdo Hdoc) as (H1 & H2 & H3). rewrite Hdp in H2. rewrite Hdi in H3.
  assert (Hkey : str_field (Object m') "public_key" = public) by (unfold str_field, get_field; by rewrite He).
  assert (Hgt : good t).
  { eapply (good_doc s); [done|done|done|exact H2| |exact H1|by apply iok_prune, iok_iset|apply prune_length].
    apply (peers_ok_edit _ _ _ (Object m)); [done|done|done| | |right; by rewrite Hkey]; by apply (edited_fields _ _ _ He). }
  apply post_bind_eff. set (lines := if is_bool _ _ then _ else _). assert (Hl : exists ls, lines t = (Ok ls, t)).
  { unfold lines. destruct (is_bool _ _); [|by eexists]. destruct (key_hex _ Hpub) as [hp Ep], (key_hex _ Hpsk) as [hs Es].
    unfold mbind, Eff_bind, lift. rewrite Ep, Es. by eexists. }
  destruct Hl as [ls Hl]. unfold post at 1. rewrite Hl. apply (serves_answer _ _ _ _ (Object m')); [done|done| |done|].
  - by rewrite (peers_of_section _ _ H2), bget_iset_eq.
  - intros a w Hw Ha. exists op, public, psk, m, m'. split; [done|]. split; [by rewrite Hps|]. split; [done|]. right.
    unfold recorded. rewrite (same_peers _ _ Hw), (same_operations _ _ Hw), Hps, (peers_of_section _ _ H2), (operations_of_section _ _ H1),
      (operations_of_section _ _ Ho). split; [done|]. split; [by apply unused_key|done].
Qed.

Lemma serves_rotate s u body : good s -> serves (Rotate u body) (Reply 200) (rotate u body) s.
Proof.
  intros Hg. unfold serves, rotate.
  assert (Hx : forall e, is_api e -> refused s e s) by (intros e He; split; [apply same_store_refl|exact He]).
  apply post_ask; [apply answers_fields|intros [] Hf|exact Hx].
  apply post_ask; [apply (answers_body _ _ _ _ Hf); [by repeat constructor|apply answers_operation_id]|intros op Hop|exact Hx].
  apply post_ask; [apply (answers_body _ _ _ _ Hf); [by repeat constructor|intros; apply answers_key]|intros public Hpub|exact Hx].
  apply post_ask; [apply (answers_body _ _ _ _ Hf); [by repeat constructor|intros; apply answers_key]|intros psk Hpsk|exact Hx].
  apply post_ask_read; [by apply answers_record|intros rec Hrec|exact Hx].
  destruct (record_Ok _ _ _ Hg Hrec) as (p & m & Hp & Hok & Hu & ->). pose proof (peers_of_section _ _ Hp) as Hps.
  apply post_bind_eff, post_inspect. cbv zeta.
  apply post_ask_read; [by apply answers_replayed|intros again Hagain|exact Hx].
  apply asked_operation in Hop. apply asked_key in Hpub, Hpsk. apply replayed_Ok in Hagain.
  assert (Hreq : rotate_request body op public psk) by (split; try done; by apply body_length in Hf).
  destruct again as [again|]; [|by apply (serves_rotate_new s u body public psk op p m)].
  apply (serves_reads _ (Reply 200) _ s s (fun v => exists view, v = Object [("peer", view)] /\ shows u (Object m) view)); [done|done| |].
  - apply (reads_peer_result s _ u p (Object m)); [done|done|intros k; apply position_lookup].
  - intros v t [Ht _] (view & -> & Hv). exists op, public, psk, m, m. rewrite Hps. split; [done|]. split; [done|].
    split; [by exists view|]. left. split; [by exists again|done].
Qed.

Lemma serves_delete s u : good s -> serves (Delete u) (fun _ => Empty) (delete_peer u) s.
Proof.
  intros Hg. unfold serves, delete_peer.
  apply post_ask_read; [by apply answers_record|intros rec Hrec|intros e He; split; [apply same_store_refl|exact He]].
  destruct (record_Ok _ _ _ Hg Hrec) as (p & m & Hp & Hok & Hu & ->). pose proof (peers_of_section _ _ Hp) as Hps.
  apply post_bind_eff, post_inspect. cbv zeta. set (idx := position _ _).
  assert (Hk : forall k, idx = Some k -> is_Some (instances s !! k)) by (intros k; apply position_lookup).
  apply post_bind_eff. eapply post_mono.
  - apply (post_commit_peers s _ p (idel u p)); [done|done|done|by apply peers_ok_delete].
  - intros [] t (Hgt & Hit & Hpt & Hot).
    assert (Hkt : forall k, idx = Some k -> is_Some (instances t !! k)).
    { intros k Hidx. apply (same_lookup (set_doc (doc t) s)); [by split|by apply Hk]. }
    apply (serves_reads _ (fun _ => Empty) _ s t (fun _ => True)); [done|done| |].
    + apply safe_reads. destruct (is_bool _ _); [|apply safe_ret]. destruct (hexkey _); [by apply safe_live_change|apply safe_ret].
    + intros [] w Hw _. simpl. rewrite (same_peers _ _ Hw), (same_operations _ _ Hw), Hpt, Hps. by split_and!.
  - done.
Qed.
End handlers.
