(* ===== verification/AwgSupervise.v ===== *)
(** * Supervision and the views of the AmneziaWG manager

    A supervision pass never panics and leaves the document alone, whatever the processes, the control
    sockets and the commands answer; so do the requests that only read. *)

From Stdlib Require Import SpecFloat.
From S2P Require Import Prelude BTree Utf8 Numeric Json PyText IndexMap Plan IpAddr AwgNet AwgNetFacts AwgKeys Obfuscation AwgConfig Effect.
From S2P Require Import TopoFacts AwgService AwgPeers AwgRequests.

Section supervision.
Context {H : Type} {HO : Host H} {RN : Rng H} {B64 : Base64} {X : X25519} {FT : FloatText} {SHA : Sha256}.
Context (config : AwgConfig).
Abbreviation SM := (Eff Failure (@Inner H)).
Abbreviation St := (@Inner H).

(** [m] leaves the document alone and fails, if it does, with an error that is logged. *)
Definition logged {A} (m : SM A) (s : St) : Prop :=
  post m s (fun _ t => same_store s t) (fun e t => same_store s t /\ exists message, e = Fault message).

Lemma safe_logged {A} (m : SM A) s : safe m s -> logged m s.
Proof. intros Hm. by eapply post_mono. Qed.

Lemma logged_bind {A B} (m : SM A) (f : A -> SM B) s :
  logged m s -> (forall a t, same_store s t -> logged (f a) t) -> logged (m ≫= f) s.
Proof.
  intros Hm Hf. apply post_bind_eff. eapply post_mono; [exact Hm| |done]. intros a t Ht.
  eapply post_mono; [exact (Hf a t Ht)| |].
  - intros b u Hu. by apply (same_store_trans s t u).
  - intros e u [Hu He]. split; [by apply (same_store_trans s t u)|done].
Qed.

Lemma logged_lift {A} (r : FR A) s : (forall e, r = Err e -> exists message, e = Fault message) -> logged (lift r) s.
Proof. intros Hr. apply post_lift; [intros; apply same_store_refl|intros e He; split; [apply same_store_refl|by apply Hr]]. Qed.

Lemma logged_map_err {A E} (r : result E A) (f : E -> string) s : logged (lift (map_err (fun e => Fault (f e)) r)) s.
Proof. apply logged_lift. intros e. destruct r; [done|]. intros [= <-]. by eexists. Qed.

Lemma from_value_refused v e : Obfuscation.from_value v = Err e -> exists m, e = Refused m.
Proof.
  unfold Obfuscation.from_value. destruct (as_object v) as [l|]; [|by intros [= <-]; eexists]. unfold fmap, result_fmap.
  intros Hm. enough (Hl : forall l e, mapM (fun e : string * Value => match e.2 with Str text => Ok (e.1, text)
    | _ => Obfuscation.err "parameters must be a string map" end) l = Err e -> exists m, e = Refused m).
  { destruct (mapM _ l) as [x|e'] eqn:He; [done|]. injection Hm as <-. by eapply Hl. }
  clear. induction l as [|[k x] l IH]; intros e; [done|]. simpl. destruct x; simpl; try (by intros [= <-]; eexists).
  destruct (mapM _ l) as [y|e'] eqn:He; simpl; [done|]. intros [= <-]. by apply IH.
Qed.

Lemma safe_section k (s : St) e : section k (doc s) = Ok e -> safe (the_section k) s.
Proof. intros He. unfold safe, post, the_section, section_of. by rewrite He. Qed.

Lemma logged_device_lines s idx : good s -> is_Some (instances s !! idx) -> logged (device_lines idx) s.
Proof.
  intros Hg [i Hi]. pose proof (gd_instances _ Hg) as (l & Hl & Hf).
  pose proof (proj1 (Forall_forall _ _) Hf i (list_elem_of_lookup_2 _ _ _ Hi)) as Hb. cbv beta in Hb. unfold bhas in Hb.
  unfold device_lines, logged. apply post_bind_eff. unfold post at 1, instance_at. rewrite Hi. cbv beta iota delta [ok_or].
  apply post_bind_eff. unfold post at 1, the_section, section_of. rewrite Hl.
  destruct (bget (i_version i) l) as [stored|] eqn:Hs; [|done]. apply post_bind_eff. unfold post at 1, lift at 1. cbv beta iota delta [ok_or].
  apply logged_bind; [apply (logged_map_err _ (fun m => m))|]. intros private t Ht. apply logged_bind.
  { apply logged_lift. intros e. destruct (Obfuscation.from_value _) as [v|e'] eqn:Hv; [done|].
    apply from_value_refused in Hv as [m ->]. intros [= <-]. by eexists. }
  intros params t' Ht'. apply logged_bind; [apply (logged_map_err _ (fun m => m))|]. intros ls t'' Ht''. apply safe_logged, safe_ret.
Qed.

Lemma desired_of_fault v peers out e : desired_of v peers out = Err e -> exists m, e = Fault m.
Proof.
  revert out. induction peers as [|r peers IH]; intros out; [done|]. simpl. destruct (_ && _); [|apply IH].
  destruct (hexkey (str_field r "public_key")); simpl; [|intros Hx; simplify_eq; by eexists].
  destruct (hexkey (str_field r "preshared_key")); simpl; [apply IH|intros Hx; simplify_eq; by eexists].
Qed.

Lemma logged_desired s v : good s -> logged (desired v) s.
Proof.
  intros Hg. destruct (gd_peers _ Hg) as (p & Hp & _). unfold desired. apply logged_bind; [by apply safe_logged, (safe_section _ _ _ Hp)|].
  intros peers t Ht. apply logged_lift. apply desired_of_fault.
Qed.

Lemma logged_reconcile s idx now : good s -> is_Some (instances s !! idx) -> logged (reconcile_peers idx now) s.
Proof.
  intros Hg Hi. unfold reconcile_peers. apply logged_bind; [by apply safe_logged, safe_instance_at|]. intros i t Ht.
  apply logged_bind; [apply safe_logged, safe_on_host|]. intros [text|e] t' Ht'; [|by apply safe_logged, safe_change].
  apply logged_bind; [apply logged_desired; apply (good_same t); [done|]; by apply (good_same s)|]. intros wanted t'' Ht''. cbv zeta.
  apply logged_bind; [destruct (reconcile_lines _ _); [apply safe_logged, safe_ret|apply safe_logged, safe_on_host]|].
  intros [u|e] t3 Ht3; by apply safe_logged, safe_change.
Qed.

Lemma logged_configure s idx now : good s -> is_Some (instances s !! idx) -> logged (configure config idx now) s.
Proof.
  intros Hg Hi. unfold configure. apply logged_bind; [by apply logged_device_lines|]. intros ls t Ht.
  assert (Hit : is_Some (instances t !! idx)) by (by apply (same_lookup s)).
  apply logged_bind; [by apply safe_logged, safe_instance_at|]. intros i t1 Ht1.
  apply logged_bind; [apply safe_logged, safe_on_host|]. intros [u|e] t2 Ht2.
  2: { apply safe_logged. destruct (SFltb _ _); [destruct (process i); [apply safe_on_host|]|]; apply safe_ret. }
  cbv zeta. apply logged_bind; [apply safe_logged, safe_on_host|]. intros added t3 Ht3.
  apply logged_bind; [apply safe_logged; destruct added; [apply safe_on_host|apply safe_ret]|]. intros [u'|e] t4 Ht4; [|apply safe_logged, safe_ret].
  assert (Hs4 : same_store s t4) by (repeat (eapply same_store_trans; [eassumption|]); apply same_store_refl).
  apply logged_bind; [by apply safe_logged, safe_change|]. intros v t5 Ht5.
  apply logged_reconcile; [by apply (good_same s); [apply (same_store_trans s t4 t5)|]|by apply (same_lookup t4); [|apply (same_lookup s)]].
Qed.

Lemma logged_converge s idx now : good s -> is_Some (instances s !! idx) -> logged (converge config idx now) s.
Proof.
  intros Hg Hi. unfold converge. apply logged_bind; [by apply safe_logged, safe_instance_at|]. intros i t Ht.
  assert (Hgt : good t) by (by apply (good_same s)). assert (Hit : is_Some (instances t !! idx)) by (by apply (same_lookup s)).
  destruct (negb _); [by apply logged_configure|]. destruct (_ || _); [by apply logged_reconcile|apply safe_logged, safe_ret].
Qed.

Lemma logged_supervise s idx now : good s -> is_Some (instances s !! idx) -> logged (supervise config idx now) s.
Proof.
  intros Hg Hi. unfold supervise. apply logged_bind; [by apply safe_logged, safe_instance_at|]. intros i t Ht.
  apply logged_bind; [apply safe_logged; destruct (process i); [apply safe_on_host|apply safe_ret]|]. intros code t1 Ht1.
  apply logged_bind; [apply safe_logged; destruct code; [by apply safe_change|apply safe_ret]|]. intros u t2 Ht2.
  assert (Hs2 : same_store s t2) by (repeat (eapply same_store_trans; [eassumption|]); apply same_store_refl).
  assert (Hg2 : good t2) by (by apply (good_same s)). assert (Hi2 : is_Some (instances t2 !! idx)) by (by apply (same_lookup s)).
  apply logged_bind; [by apply safe_logged, safe_instance_at|]. intros j t3 Ht3.
  assert (Hg3 : good t3) by (by apply (good_same t2)). assert (Hi3 : is_Some (instances t3 !! idx)) by (by apply (same_lookup t2)).
  destruct (process j); [by apply logged_converge|]. destruct (SFltb _ _); [apply safe_logged, safe_ret|].
  apply logged_bind; [apply safe_logged, safe_on_host|]. intros [p|] t4 Ht4; [|by apply safe_logged, safe_change].
  apply logged_bind; [by apply safe_logged, safe_change|]. intros v t5 Ht5. assert (Hs5 : same_store t3 t5) by (by eapply same_store_trans).
  apply logged_converge; [by apply (good_same t3)|by apply (same_lookup t3)].
Qed.

Lemma safe_supervised (s : St) idx now : good s -> is_Some (instances s !! idx) -> safe (supervised config idx now) s.
Proof.
  intros Hg Hi. pose proof (logged_supervise s idx now Hg Hi) as Hl. unfold safe, logged, post, supervised in *.
  destruct (supervise config idx now s) as [[[]|e] t]; [done|]. destruct Hl as [Ht [m ->]]. exact Ht.
Qed.

Lemma safe_each {A} (f : A -> SM unit) l s : (forall a t, a ∈ l -> same_store s t -> safe (f a) t) -> safe (each f l) s.
Proof.
  revert s. induction l as [|a l IH]; intros s Hf; simpl; [apply safe_ret|]. apply safe_bind; [apply Hf; [left|apply same_store_refl]|].
  intros u t Ht. apply IH. intros b v Hb Hv. apply Hf; [by right|by apply (same_store_trans s t v)].
Qed.

Lemma safe_collect {A B} (f : A -> SM B) l s : (forall a t, a ∈ l -> same_store s t -> safe (f a) t) -> safe (collect f l) s.
Proof.
  revert s. induction l as [|a l IH]; intros s Hf; simpl; [apply safe_ret|]. apply safe_bind; [apply Hf; [left|apply same_store_refl]|].
  intros u t Ht. apply safe_bind; [|intros; apply safe_ret]. apply IH. intros b v Hb Hv. apply Hf; [by right|by apply (same_store_trans s t v)].
Qed.

Lemma index_valid (s t : St) idx : same_store s t -> idx ∈ seq 0 (length (instances s)) -> is_Some (instances t !! idx).
Proof. intros Hs Hin. apply (same_lookup s); [done|]. apply lookup_lt_is_Some. apply elem_of_seq in Hin. lia. Qed.

Lemma safe_inspect {A B} (g : St -> A) (f : A -> SM B) s : safe (f (g s)) s -> safe (inspect g ≫= f) s.
Proof. done. Qed.

Lemma safe_apply_nft (s : St) : safe (apply_nft config) s.
Proof.
  unfold apply_nft. apply safe_bind; [apply safe_on_host|]. intros now t Ht. apply safe_bind; [done|]. intros u t1 Ht1.
  apply safe_inspect. apply safe_bind; [apply safe_on_host|]. intros r t2 Ht2. apply safe_ret.
Qed.

Lemma safe_tick (s : St) : good s -> safe (tick_instances config) s.
Proof.
  intros Hg. unfold tick_instances. apply safe_bind; [apply safe_on_host|]. intros now t Ht. apply safe_inspect.
  assert (Hgt : good t) by (by apply (good_same s)). apply safe_bind.
  - apply safe_each. intros idx u Hin Hu. apply safe_supervised; [by apply (good_same t)|by apply (index_valid t)].
  - intros u t1 Ht1. apply safe_inspect. destruct (SFleb _ _); [apply safe_apply_nft|apply safe_ret].
Qed.

Lemma reads_collect {A B} (f : A -> SM B) l s (R : A -> B -> Prop) :
  (forall a t, a ∈ l -> same_store s t -> reads (f a) t (R a)) -> reads (collect f l) s (Forall2 R l).
Proof.
  revert s. induction l as [|a l IH]; intros s Hf; simpl; [by apply reads_ret|].
  eapply reads_bind; [apply Hf; [left|apply same_store_refl]|]. intros b t Ht Hb. eapply reads_bind.
  - apply IH. intros a' v Ha Hv. apply Hf; [by right|by apply (same_store_trans s t v)].
  - intros bs v Hv Hbs. apply reads_ret. by constructor.
Qed.

(** What holds of every index holds of every element. *)
Lemma Forall2_indices {A B} (P : A -> B -> Prop) (l : list A) k :
  Forall2 (fun idx b => exists a, l !! idx = Some a /\ P a b) (seq 0 (length l)) k -> Forall2 P l k.
Proof.
  intros Hk. apply Forall2_same_length_lookup. split; [by apply Forall2_length in Hk; rewrite length_seq in Hk|].
  intros idx a b Ha Hb. assert (Hi : seq 0 (length l) !! idx = Some idx) by (apply lookup_seq; split; [done|by apply lookup_lt_Some in Ha]).
  destruct (Forall2_lookup_lr _ _ _ _ _ _ Hk Hi Hb) as (a' & Ha' & Hp). congruence.
Qed.

Lemma reads_list_instances (s : St) : good s -> reads (list_instances config) s
  (fun v => exists views, v = Object [("instances", Array views)] /\ Forall2 (describes config (doc s)) (instances s) views).
Proof.
  intros Hg. unfold list_instances. apply post_bind_eff, post_inspect. eapply reads_bind.
  - apply (reads_collect _ _ _ (fun idx v => exists i, instances s !! idx = Some i /\ describes config (doc s) i v)).
    intros idx u Hin Hu. apply elem_of_seq in Hin. destruct (instances s !! idx) as [i|] eqn:Hi; [|apply lookup_ge_None in Hi; lia].
    destruct (same_fixed s u idx i Hu Hi) as (j & Hj & Hf). eapply post_mono; [apply (reads_instance_view config u idx j); [by apply (good_same s)|done]| |done].
    intros v t [Ht Hv]. split; [done|]. exists i. split; [done|]. destruct Hu as [Hd _]. rewrite Hd in Hv. by apply (describes_fixed config _ j).
  - intros views t Ht Hv. apply reads_ret. exists views. split; [done|by apply Forall2_indices].
Qed.

Lemma reads_list_peers (s : St) : good s -> reads list_peers s
  (fun v => exists views, v = Object [("peers", Array views)] /\
     Forall2 (fun u view => exists rec, bget u (peers_of s) = Some rec /\ shows u rec view) (sort_str (bkeys (peers_of s))) views).
Proof.
  intros Hg. destruct (gd_peers _ Hg) as (p & Hp & _). rewrite (peers_of_section _ _ Hp). unfold list_peers.
  apply post_bind_eff, post_inspect. eapply reads_bind.
  - apply safe_reads, safe_collect. intros idx u Hin Hu. apply safe_bind; [by apply safe_instance_at, (index_valid s)|]. intros i v Hv.
    apply safe_bind; [|intros; apply safe_ret]. apply safe_stats. intros k [= <-]. apply (index_valid s); [|done].
    by apply (same_store_trans s u v).
  - intros st t [Ht Hi] _. cbv zeta. apply post_bind_eff. unfold post at 1, the_section, section_of. rewrite Ht, Hp.
    assert (Hm : exists views, mapM (fun name => rec ← bget name p or_err Crash;
      Ok (peer_view name rec (default [] (bget (str_field rec "version") (icollect st))))) (sort_str (bkeys p)) = Ok views
      /\ Forall2 (fun u view => exists rec, bget u p = Some rec /\ shows u rec view) (sort_str (bkeys p)) views).
    { assert (Hin : Forall (fun name => is_Some (bget name p)) (sort_str (bkeys p))).
      { rewrite sort_str_perm. apply Forall_forall. intros name Hn. apply bhas_true in Hn. unfold bhas in Hn. by destruct (bget name p). }
      induction Hin as [|name l [rec Hrec] _ (views & IH & Hv)]; [by exists []|]. simpl. rewrite Hrec. simpl. rewrite IH.
      eexists. split; [done|]. constructor; [|done]. exists rec. split; [done|apply shows_view]. }
    destruct Hm as (views & Hm & Hv). apply post_bind_eff. unfold post at 1, lift. rewrite Hm. apply reads_ret. by exists views.
Qed.

(** ** Every request *)

Lemma serves_every s r : good s -> serves config r id (serve config r) s.
Proof.
  intros Hg. destruct r as [body|u b|u body|u| | |]; simpl.
  - apply (serves_sent config _ (fun r => Reply r.1 r.2)), serves_create, Hg.
  - apply (serves_sent config _ (Reply 200)), serves_enable, Hg.
  - apply (serves_sent config _ (Reply 200)), serves_rotate, Hg.
  - apply (serves_sent config _ (fun _ => Empty)), serves_delete, Hg.
  - apply (serves_sent config _ (Reply 200)). eapply serves_reads; [done|done|by apply reads_list_peers|].
    intros v t [Ht _] (views & -> & Hv). split; [done|]. by exists views.
  - apply (serves_sent config _ (Reply 200)). eapply serves_reads; [done|done|by apply reads_list_instances|].
    intros v t [Ht _] (views & -> & Hv). split; [done|]. by exists views.
  - apply (serves_sent config _ (fun _ => Ticked)). eapply serves_reads; [done|done|by apply safe_reads, safe_tick|].
    intros v t [Ht _] _. by split.
Qed.

(** The states that the requests of a client lead to, whatever their answers. *)
Definition run_all (rs : list Request) (s : St) : St := fold_left (fun s r => (serve config r s).2) rs s.
End supervision.
