(* ===== verification/AwgSample.v ===== *)
(** * A machine to run the AmneziaWG manager on

    A small machine, a configuration and a state between two requests, to evaluate the manager with. *)

From Stdlib Require Import SpecFloat.
From S2P Require Import Prelude BTree Utf8 Numeric Json PyText IndexMap Plan IpAddr AwgNet AwgNetFacts AwgKeys Obfuscation GenerateFacts AwgConfig AwgConfigFacts Effect.
From S2P Require Import AwgService AwgPeers AwgRequests.

#[export] Existing Instances no_floats toy_hash.

(** The public key of a private key is its first byte moved by one. *)
#[export] Instance toy_x25519 : X25519 := {|
  public_key := fun s => match s with String a s => String (Ascii.ascii_of_N (Ascii.N_of_ascii a + 1)) s | EmptyString => EmptyString end |}.

(** A counter of ticks: nothing fails, no file is there, the clock shows the ticks. *)
#[export] Instance toy_host : Host N := {
  prepare_dir := fun h => (Ok tt, h);
  read_state := fun h => (Err true, h);
  write_state := fun _ h => (Ok tt, (h + 1)%N);
  start_process := fun _ _ h => (Some h, (h + 1)%N);
  poll := fun _ h => (None, h);
  kill := fun _ h => h;
  ip := fun _ h => (Ok tt, h);
  nft_apply := fun _ h => (Ok tt, h);
  uapi_set := fun _ _ h => (Ok tt, h);
  uapi_get := fun _ h => (Ok EmptyString, h);
  clock := fun h => (of_Z64 (Z.of_N h), (h + 1)%N);
  wall := fun h => (of_Z64 (Z.of_N h), (h + 1)%N);
  random_key := fun h => (str_repeat 32 "r", (h + 1)%N);
}.

(** 192.168.50.0/28. *)
Definition sample_net : Ipv4Net := {| network := 3232248320; prefix := 28 |}.

Definition sample_config : AwgConfig := {|
  token_file := "/run/token"; socket := "/run/awg-manager/manager.sock"; socket_mode := 432; state_dir := "/var/lib/awg-manager";
  versions := ["3.1"]; ports := [("3.1", 60000%Z)]; subnets := [("3.1", sample_net)]; mtu := 1280; dns := ["1.1.1.1"]; nat_ := true;
  log_level := "error"; obfuscation_file := None; router_tun := None; router_uid := 10006 |}.

Definition sample_instance : Instance := {|
  i_version := "3.1"; i_iface := "awg31"; i_port := 60000; i_subnet := sample_net; process := None; configured := false; dirty := true;
  failures := 0; started_at := of_Z64 0; next_start := of_Z64 0; last_full := of_Z64 0 |}.

(** A state without peers. *)
Definition sample_state : @Inner N := {|
  doc := Object [("schema", json_int 1);
                 ("instances", Object [("3.1", Object [("private_key", Str (rfc_encode (str_repeat 32 "a"))); ("public_key", Str "b");
                                                       ("obfuscation", Object [("Jc", Str "4")])])]);
                 ("peers", Object []); ("operations", Object [])];
  instances := [sample_instance]; last_nft := of_Z64 0; host := 7%N |}.

Lemma sample_net_ok : net_ok sample_net.
Proof. by vm_compute. Qed.

Lemma sample_subnet_ok : subnet_ok sample_net.
Proof.
  split; [exact sample_net_ok|]. split; [by vm_compute|]. intros a Ha Hc. apply (contains_iff _ _ sample_net_ok Ha) in Hc.
  change (broadcast sample_net) with 3232248335%N in Hc. change (network sample_net) with 3232248320%N in Hc. unfold rfc1918. lia.
Qed.

Lemma sample_config_ok : awg_config_ok sample_config.
Proof.
  unfold awg_config_ok, listeners_ok, subnets_ok. cbn [versions ports subnets mtu dns socket_mode router_uid router_tun sample_config].
  assert (Hnd : NoDup ["3.1"]) by (constructor; [apply not_elem_of_nil|constructor]).
  split_and!; try done; try lia.
  - intros v Hv. apply list_elem_of_singleton in Hv as ->. by repeat constructor.
  - by repeat constructor.
  - constructor; [apply not_elem_of_nil|constructor].
  - constructor; [exact sample_subnet_ok|constructor].
  - intros v w n m Hne Hv Hw. simpl in Hv, Hw. destruct (v =?s "3.1") eqn:E; [|done]. destruct (w =?s "3.1") eqn:E'; [|done].
    apply eqb_s_true in E, E'. congruence.
  - cbn [length]. lia.
  - by repeat constructor.
Qed.

Lemma sample_good : good sample_state.
Proof.
  split.
  - eexists. split; [reflexivity|]. by constructor.
  - exists []. split; [reflexivity|apply peers_ok_nil].
  - exists []. split; [reflexivity|]. split; [constructor|]. cbn [length]. unfold MAX_OPERATIONS. lia.
  - split; [constructor; [apply not_elem_of_nil|constructor]|]. intros v n Hin. apply list_elem_of_singleton in Hin. injection Hin as -> ->.
    split; [exact sample_net_ok|by vm_compute].
Qed.

(** Requests for peers: the keys are 32 times a letter. *)
Definition sample_key (letter : string) : string := rfc_encode (str_repeat 32 letter).
Definition sample_body (op user public : string) : imap Value :=
  [("operation_id", Str op); ("username", Str user); ("version", Str "3.1"); ("public_key", Str (sample_key public)); ("preshared_key", Str (sample_key "s"))].

Lemma sample_key_ok letter : String.length (str_repeat 32 letter) = 32%nat -> all_zero (str_repeat 32 letter) = false -> key_ok (sample_key letter).
Proof. intros Hl Hz. exists (str_repeat 32 letter). split; [by apply unb64_iff|done]. Qed.
