(* ===== verification/AwgStart.v ===== *)
(** * Texts of the stored document forget the order of its maps

    The state file is written with sorted keys ([awg_manager/src/pyjson.rs], [state]): two documents
    that differ in the order of a map's entries have the same text. *)

From Stdlib Require Import SpecFloat.
From S2P Require Import Prelude BTree Utf8 Numeric Json PyText Plan IpAddr IndexMap AwgNet AwgNetFacts AwgKeys.
From S2P Require Import Obfuscation ObfuscationFacts GenerateFacts AwgConfig AwgConfigFacts Effect AwgService.
From S2P Require Import AwgPeers AwgRequests AwgSample.

Lemma insert_entry_comm {A} (a b : string * A) l : a.1 <> b.1 -> insert_entry a (insert_entry b l) = insert_entry b (insert_entry a l).
Proof.
  assert (Hlt : forall a b : string * A, str_ltb a.1 b.1 = true -> forall l, insert_entry a (insert_entry b l) = insert_entry b (insert_entry a l)).
  { clear. intros a b Hab. assert (Hba : str_ltb b.1 a.1 = false).
    { destruct (str_ltb b.1 a.1) eqn:E; [|done]. pose proof (str_ltb_trans _ _ _ Hab E) as H. by rewrite str_ltb_irrefl in H. }
    induction l as [|x l IH]; simpl; [by rewrite Hab, Hba|]. destruct (str_ltb x.1 b.1) eqn:Hxb, (str_ltb x.1 a.1) eqn:Hxa; simpl.
    - by rewrite Hxa, Hxb, IH.
    - by rewrite Hxa, Hab, Hxb.
    - pose proof (str_ltb_trans _ _ _ Hxa Hab) as H. congruence.
    - by rewrite Hba, Hab, Hxb. }
  intros Hne. destruct (str_ltb a.1 b.1) eqn:Hab; [by apply Hlt|]. destruct (str_ltb b.1 a.1) eqn:Hba; [by symmetry; apply Hlt|].
  exfalso. by apply Hne, str_ltb_total.
Qed.

Lemma sort_entries_perm {A} (l k : list (string * A)) : NoDup (map fst l) -> l ≡ₚ k -> sort_entries l = sort_entries k.
Proof.
  intros Hnd Hp. induction Hp as [|x l k Hp IH|x y l|l k m Hlk IH1 Hkm IH2]; [done| | |].
  - simpl in *. apply NoDup_cons in Hnd as [_ Hnd]. unfold sort_entries in *. simpl. by rewrite (IH Hnd).
  - unfold sort_entries. simpl. apply insert_entry_comm. simpl in Hnd. apply NoDup_cons in Hnd as [Hn _].
    intros He. apply Hn. rewrite He. left.
  - rewrite (IH1 Hnd). apply IH2. by rewrite <-Hlk.
Qed.

Section texts.
Context {FT : FloatText}.
Context (o : Options) (Hsort : sort_keys o = true) (item key : string).

Lemma write_perm (m n : imap Value) level : iok m -> m ≡ₚ n ->
  write_value o item key (Object m) level = write_value o item key (Object n) level.
Proof.
  intros Hm Hp. destruct m as [|e m].
  - apply Permutation_nil in Hp as ->. done.
  - destruct n as [|e' n]; [by apply Permutation_sym, Permutation_nil in Hp|]. cbn [write_value]. rewrite Hsort.
    rewrite (sort_entries_perm _ (map (fun e => (e.1, write_value o item key e.2 (S level))) (e' :: n))); [done| |].
    + unfold iok, bkeys in Hm. by rewrite map_map.
    + by apply Permutation_map.
Qed.

Lemma write_iset k v w (m : imap Value) level : bget k m = Some v -> (forall l, write_value o item key v l = write_value o item key w l) ->
  write_value o item key (Object (iset k w m)) level = write_value o item key (Object m) level.
Proof.
  intros Hb Hvw. assert (Ht : map (fun e => (e.1, write_value o item key e.2 (S level))) (iset k w m)
    = map (fun e => (e.1, write_value o item key e.2 (S level))) m).
  { clear Hsort. induction m as [|[q u] m IH]; [done|]. simpl in *. destruct (k =?s q) eqn:E; simpl.
    - injection Hb as ->. apply eqb_s_true in E as ->. by rewrite Hvw.
    - by rewrite IH. }
  destruct m as [|e m]; [done|]. destruct (iset k w (e :: m)) as [|e' m'] eqn:Hi; [done|]. cbn [write_value]. by rewrite Ht.
Qed.
End texts.

(** The file keeps no order: documents that differ in the order of the recorded operations are
    written as the same text, so a restart cannot tell which operation is the oldest. *)
Theorem state_text_forgets_order {FT : FloatText} (d : Value) (ops ops' : imap Value)
  (Ho : section "operations" d = Ok ops) (Hk : iok ops) (Hp : ops ≡ₚ ops') :
  json_state (put_section "operations" ops' d) = json_state d.
Proof.
  apply section_Ok in Ho as (m & -> & Hb). unfold json_state, dumps, put_section. cbn [effective_separators separators indent].
  apply (write_iset _ _ _ _ (Object ops)); [done|]. intros l. by apply write_perm.
Qed.

Lemma state_text_forgets_order_witness :
  let stored ops := put_section "operations" ops (doc sample_state) in
  json_state (stored [("z-first", Bool true); ("a-second", Bool true)]) = json_state (stored [("a-second", Bool true); ("z-first", Bool true)]).
Proof.
  intros stored. change (stored [("z-first", Bool true); ("a-second", Bool true)]) with
    (put_section "operations" [("z-first", Bool true); ("a-second", Bool true)] (stored [("a-second", Bool true); ("z-first", Bool true)])).
  apply (state_text_forgets_order _ [("a-second", Bool true); ("z-first", Bool true)]); [reflexivity| |].
  - constructor; [|constructor; [apply not_elem_of_nil|constructor]]. intros Hin. apply list_elem_of_singleton in Hin. discriminate.
  - apply perm_swap.
Defined.

(** * The first start of the AmneziaWG manager

    From a configuration that was accepted and a machine without a state file to a state in which
    requests can be served; and what the stored document keeps over a restart. *)

(** ** Keys and parameters *)

Lemma cut_length i (s : string) a b : String.get i s = Some a ->
  String.length (String.substring 0 i s +:+ String b (String.substring (S i) (String.length s - S i) s)) = String.length s.
Proof.
  revert i. induction s as [|c s IH]; intros i; [by destruct i|]. destruct i as [|i]; cbn [String.get].
  - intros _. cbn [String.substring String.length]. replace (S (String.length s) - 1)%nat with (String.length s) by lia.
    rewrite app_nil_s. simpl. f_equal. clear IH. induction s as [|d s IHs]; [done|]. simpl. by rewrite IHs.
  - intros Hi. specialize (IH i Hi). change (String.substring 0 (S i) (String c s)) with (String c (String.substring 0 i s)).
    rewrite app_cons_s. cbn [String.length]. by f_equal.
Qed.

Lemma set_byte_length i f s : String.length (set_byte i f s) = String.length s.
Proof. unfold set_byte. destruct (String.get i s) eqn:Hg; [|done]. by eapply cut_length. Qed.

Lemma private_length random : String.length random = 32%nat -> String.length (generate_private random) = 32%nat.
Proof. intros Hl. unfold generate_private. by rewrite !set_byte_length. Qed.

Section params.
Context {B64 : Base64}.

Lemma iok_cleaned p : iok (cleaned p).
Proof. apply iok_iextend. constructor. Qed.

Lemma validate_cleaned version p mtu q : validate version p mtu = Ok q -> q = cleaned p.
Proof.
  unfold validate. intros H. destruct (negb _); [done|]. cbv zeta in H. inv_binds. by apply Ok_inj in H.
Qed.

Lemma filter_idem {A} (f : A -> bool) l : List.filter f (List.filter f l) = List.filter f l.
Proof. induction l as [|a l IH]; simpl; [done|]. destruct (f a) eqn:Hf; simpl; rewrite ?Hf; by rewrite IH. Qed.

Lemma filter_collected (f : string * string -> bool) p : List.filter f (icollect (List.filter f p)) = icollect (List.filter f p).
Proof.
  assert (Hall : forall e, e ∈ icollect (List.filter f p) -> f e = true).
  { unfold icollect, iextend. assert (Hin : forall e : string * string, e ∈ List.filter f p -> f e = true).
    { intros e He. apply list_elem_of_In, filter_In in He. tauto. }
    revert Hin. generalize (List.filter f p) as l. intros l Hl.
    assert (Hgo : forall (l m : imap string), iok m -> (forall e, e ∈ m -> f e = true) -> (forall e, e ∈ l -> f e = true) ->
      forall e, e ∈ fold_left (fun m kv => iset kv.1 kv.2 m) l m -> f e = true).
    { clear l Hl. induction l as [|[k v] l IH]; simpl; intros m Hm Hf Hl; [done|]. apply IH; [by apply iok_iset| |].
      - intros e He. apply In_iset in He as [->|[He _]]; [|by apply Hf|done]. apply Hl. left.
      - intros e He. apply Hl. by right. }
    apply Hgo; [constructor|by intros e ?%not_elem_of_nil|done]. }
  revert Hall. generalize (icollect (List.filter f p)) as l. induction l as [|e l IH]; intros Hall; simpl; [done|].
  rewrite (Hall e) by left. f_equal. apply IH. intros e' He. apply Hall. by right.
Qed.

Lemma cleaned_idem p : cleaned (cleaned p) = cleaned p.
Proof. unfold cleaned at 1. unfold cleaned at 1. rewrite filter_collected. apply icollect_id, iok_cleaned. Qed.

(** Validated parameters are accepted again, unchanged. *)
Lemma validate_again version p mtu q : validate version p mtu = Ok q -> validate version q mtu = Ok q /\ iok q.
Proof.
  intros H. pose proof (validate_cleaned _ _ _ _ H) as ->. split; [|apply iok_cleaned].
  unfold validate in *. by rewrite cleaned_idem.
Qed.

Lemma strings_back (p : Params) : mapM (fun e => match e.2 with
  | Str text => Ok (e.1, text) | _ => err (A := string * string) "parameters must be a string map" end) (map (fun e => (e.1, Str e.2)) p) = Ok p.
Proof. induction p as [|[k v] p IH]; [done|]. simpl. by rewrite IH. Qed.

(** Stored parameters are read back. *)
Lemma from_to_value (p : Params) : iok p -> Obfuscation.from_value (Obfuscation.to_value p) = Ok p.
Proof.
  intros Hp. unfold Obfuscation.from_value, Obfuscation.to_value. cbn [as_object].
  rewrite icollect_id by (unfold iok, bkeys in *; by rewrite map_map). rewrite strings_back. simpl. by rewrite icollect_id.
Qed.
End params.

(** ** The start *)

Section start.
Context {H : Type} {HO : Host H} {RN : Rng H} {RL : RngLaws H} {FA : FairRng H} {B64 : Base64} {BL : Base64Laws} {X : X25519} {FT : FloatText} {SHA : Sha256}.
Context (config : AwgConfig) (overrides : imap Params) (from_slice : string -> option Value).
Abbreviation SM := (Eff Failure (@Inner H)).
Abbreviation St := (@Inner H).

(** An instance the manager starts with again. *)
Definition stored_ok (l : imap Value) (version : string) : Prop :=
  exists rec, bget version l = Some rec /\ check_stored config version rec = Ok tt.

Lemma instances_built : awg_config_ok config -> exists l, mapM (new_instance config) (versions config) = Ok l
  /\ map i_version l = versions config /\ nets_ok (map (fun i => (i_version i, i_subnet i)) l).
Proof.
  intros ((_ & Hnd & Hk) & (Hp & _) & (Hs & Hok & _) & _).
  assert (Hbuilt : forall vs, vs ⊆ versions config -> exists l, mapM (new_instance config) vs = Ok l
    /\ map i_version l = vs /\ Forall (fun i => subnet_ok (i_subnet i)) l).
  { induction vs as [|v vs IH]; intros Hsub; [by exists []|].
    destruct IH as (l & Hl & Hv & Hf); [by intros w Hw; apply Hsub; right|]. simpl.
    assert (Hin : v ∈ versions config) by (apply Hsub; left).
    assert (Hport : is_Some (bget v (ports config))).
    { rewrite <-Hp in Hin. apply bhas_true in Hin. unfold bhas in Hin. by destruct (bget v (ports config)). }
    assert (Hnet : exists n, bget v (subnets config) = Some n /\ subnet_ok n).
    { rewrite <-Hs in Hin. apply bhas_true in Hin. unfold bhas in Hin. destruct (bget v (subnets config)) as [n|] eqn:Hb; [|done].
      exists n. split; [done|]. apply (proj1 (Forall_forall _ _) Hok). apply bget_Some_In in Hb. by apply (list_elem_of_fmap_2 snd _ _ Hb). }
    assert (Hi : exists i, new_instance config v = Ok i /\ i_version i = v /\ subnet_ok (i_subnet i)).
    { destruct Hport as [port Hport], Hnet as (n & Hnet & Hn). unfold new_instance. rewrite Hport. cbn [ok_or mbind result_bind].
      rewrite Hnet. by eexists. }
    destruct Hi as (i & -> & Hiv & Hn). cbn [mbind result_bind]. rewrite Hl. exists (i :: l). split; [done|]. cbn [map]. rewrite Hv, Hiv.
    split; [done|by constructor]. }
  destruct (Hbuilt _ ltac:(done)) as (l & Hl & Hv & Hf). exists l. split; [done|]. split; [done|]. split.
  - rewrite map_map. change (NoDup (map i_version l)). by rewrite Hv.
  - intros v n (i & Heq & Hi)%list_elem_of_fmap. injection Heq as -> ->.
    destruct (proj1 (Forall_forall _ _) Hf i Hi) as (Hn & Hpre & _). split; [done|lia].
Qed.

(** What a start has made: the instances of [made], in this order, no peers and no operations. *)
Record prepared (made : list string) (s : St) : Prop := {
  pr_instances : exists l, section "instances" (doc s) = Ok l /\ bkeys l = made /\ Forall (stored_ok l) made;
  pr_peers : section "peers" (doc s) = Ok [];
  pr_operations : section "operations" (doc s) = Ok [];
}.

(** Why the start on the machine [h] stops: the state directory cannot be prepared, the operator's
    parameters for a version do not fit generated ones, or the document cannot be written. *)
Definition start_failed (h : H) (e : Failure) : Prop :=
  (exists m, (prepare_dir h).1 = Err m /\ e = Fault m)
  \/ (exists version o p m, version ∈ versions config /\ bget version overrides = Some o
      /\ validate version p (Z.to_N (mtu config)) = Ok p
      /\ apply_overrides version p o (Z.to_N (mtu config)) = Err (Refused m)
      /\ e = Fault ("obfuscation for " +:+ version +:+ ": " +:+ m))
  \/ (exists text h' m, (write_state (H := H) text h').1 = Err m /\ e = Fault ("cannot write state: " +:+ m)).

(** With enough fuel, and the same for any more, [m] ends: with [Q] and the instances kept, or with one
    of the failures [Fl]. *)
Definition ends {A} (Fl : Failure -> Prop) (m : nat -> SM A) (s : St) (Q : A -> St -> Prop) : Prop :=
  exists n r t, (forall n', (n <= n')%nat -> m n' s = (r, t)) /\
    match r with Ok a => Q a t /\ instances t = instances s | Err e => Fl e end.

Lemma start_bind {A B} (Fl : Failure -> Prop) (m : nat -> SM A) (f : nat -> A -> SM B) s P Q :
  ends Fl m s P -> (forall a t, P a t -> ends Fl (fun n => f n a) t Q) -> ends Fl (fun n => m n ≫= f n) s Q.
Proof.
  intros (n & [a|e] & t & Hm & Hr) Hf.
  - destruct Hr as [Ha Ht]. destruct (Hf a t Ha) as (k & r & u & Hk & Hu). exists (Nat.max n k), r, u. split.
    + intros n' Hn. unfold mbind, Eff_bind. rewrite Hm by lia. apply Hk. lia.
    + destruct r as [b|e]; [|done]. destruct Hu as [Hb Hu]. split; [done|congruence].
  - exists n, (Err e), t. split; [|done]. intros n' Hn. unfold mbind, Eff_bind. by rewrite Hm.
Qed.

(** A step without loops. *)
Lemma ends_post {A} (Fl : Failure -> Prop) (m : SM A) s Q : post m s (fun a t => Q a t /\ instances t = instances s) (fun e _ => Fl e) ->
  ends Fl (fun _ => m) s Q.
Proof. intros Hm. unfold post in Hm. destruct (m s) as [r t] eqn:E. by exists 0%nat, r, t. Qed.

Lemma ends_host {A} (Fl : Failure -> Prop) (f : H -> A * H) s Q : (forall a h, f (host s) = (a, h) -> Q a (set_host h s)) -> ends Fl (fun _ => on_host f) s Q.
Proof. intros Hq. apply ends_post. unfold post, on_host. destruct (f (host s)) as [a h] eqn:E. by split; [apply Hq|]. Qed.
Lemma ends_lift {A} (Fl : Failure -> Prop) (r : FR A) s (Q : A -> St -> Prop) : (forall a, r = Ok a -> Q a s) -> (forall e, r = Err e -> Fl e) -> ends Fl (fun _ => lift r) s Q.
Proof. intros Hq Hx. apply ends_post, post_lift; [|exact Hx]. intros a Ha. by split; [apply Hq|]. Qed.
Lemma ends_ret {A} (Fl : Failure -> Prop) (a : A) s (Q : A -> St -> Prop) : Q a s -> ends Fl (fun _ => mret a) s Q.
Proof. intros Hq. by apply ends_post, post_ret_eff. Qed.
Lemma ends_update (Fl : Failure -> Prop) f s (Q : unit -> St -> Prop) : Q tt (f s) -> instances (f s) = instances s -> ends Fl (fun _ => update f) s Q.
Proof. intros Hq Hi. by apply ends_post, post_update. Qed.
Lemma ends_inspect {A} (Fl : Failure -> Prop) (f : St -> A) s (Q : A -> St -> Prop) : Q (f s) s -> ends Fl (fun _ => inspect f) s Q.
Proof. intros Hq. by apply ends_post, post_inspect. Qed.
Lemma ends_section (Fl : Failure -> Prop) k s e (Q : imap Value -> St -> Prop) : section k (doc s) = Ok e -> Q e s -> ends Fl (fun _ => the_section k) s Q.
Proof. intros He Hq. apply ends_post. unfold post, the_section, section_of. by rewrite He. Qed.

Lemma instance_accepted version private params created q :
  String.length private = 32%nat -> validate version q (Z.to_N (mtu config)) = Ok params ->
  check_stored config version (instance_record private params created) = Ok tt.
Proof.
  intros Hl Hv. apply validate_again in Hv as [Hv Hp]. unfold check_stored. set (rec := instance_record _ _ _).
  change (get_field rec "obfuscation") with (Some (Obfuscation.to_value params)).
  change (get_field rec "private_key") with (Some (Str (b64 private))).
  change (get_field rec "public_key") with (Some (Str (b64 (public_key private)))).
  cbn [ok_or mbind result_bind option_bind as_str]. rewrite (from_to_value _ Hp). cbn [obfuscated map_err mbind result_bind]. rewrite Hv.
  cbn [obfuscated map_err mbind result_bind]. rewrite (proj2 (unb64_iff _ _) (conj Hl eq_refl)). cbn [map_err mbind result_bind].
  by rewrite bool_decide_eq_true_2.
Qed.

Context (Hkey : forall h, String.length (random_key (H := H) h).1 = 32%nat).

Lemma stored_kept l version v w : stored_ok l v -> v <> version -> stored_ok (iset version w l) v.
Proof. intros (rec & Hr & Hc) Hne. exists rec. by rewrite bget_iset_ne. Qed.

(** Two documents with the same sections. *)
Lemma prepared_doc made (s t : St) : prepared made s -> (forall k, section k (doc t) = section k (doc s)) -> prepared made t.
Proof. intros [H1 H2 H3] Hk. split; by rewrite Hk. Qed.

Lemma prepared_next made version (s : St) rec : prepared made s -> version ∉ made -> check_stored config version rec = Ok tt ->
  exists d, with_section "instances" (fun l => Ok (iset version rec l)) (doc s) = Ok d /\ prepared (made ++ [version]) (set_doc d s).
Proof.
  intros [(l & Hl & Hkeys & Hall) Hpeers Hops] Hnew Hrec.
  assert (Hb : bget version l = None) by (apply bget_None; by rewrite Hkeys).
  eexists. split; [exact (with_section_run "instances" (fun l => Ok (iset version rec l)) _ _ _ Hl eq_refl)|].
  split; cbn [doc set_doc]; [|by rewrite (section_put _ _ _ _ _ Hl)..].
  exists (iset version rec l). rewrite (section_put _ _ _ _ _ Hl). split; [done|].
  rewrite iset_fresh by (unfold bhas; by rewrite Hb). unfold bkeys. rewrite map_app. unfold bkeys in Hkeys. rewrite Hkeys. split; [done|].
  rewrite <-iset_fresh by (unfold bhas; by rewrite Hb). apply Forall_app. split.
  - apply Forall_forall. intros v Hvm. apply stored_kept; [by apply (proj1 (Forall_forall _ _) Hall)|congruence].
  - constructor; [|constructor]. exists rec. split; [apply bget_iset_eq|done].
Qed.

(** Generated parameters, with the operator's over them. *)
Lemma overridden_cases version p : validate version p (Z.to_N (mtu config)) = Ok p -> version ∈ versions config ->
  let r := obfuscated (fun m => "obfuscation for " +:+ version +:+ ": " +:+ m)
    (params ← Ok p : OR Params; match bget version overrides with
      | Some overrides => apply_overrides version params overrides (Z.to_N (mtu config)) | None => Ok params end) in
  (forall q, r = Ok q -> exists raw, validate version raw (Z.to_N (mtu config)) = Ok q)
  /\ (forall h e, r = Err e -> start_failed h e).
Proof.
  intros Hp Hin. cbn [mbind result_bind]. destruct (bget version overrides) as [o|] eqn:Ho.
  2: { split; [|done]. intros q [= <-]. by exists p. }
  pose proof (validate_orderly version (iextend p o) (Z.to_N (mtu config))) as Hval.
  destruct (apply_overrides version p o (Z.to_N (mtu config))) as [q'|[m|]] eqn:Ha; unfold apply_overrides in Ha; rewrite Ha in Hval; [| |done].
  - split; [|done]. intros q [= <-]. by exists (iextend p o).
  - split; [done|]. intros h e [= <-]. right. left. by exists version, o, p, m.
Qed.

Lemma ends_ensure h made version (s : St) : awg_config_ok config -> prepared made s -> (version ∉ made) -> version ∈ VERSIONS ->
  version ∈ versions config ->
  ends (start_failed h) (fun n => ensure_instance_state config overrides n version) s (fun _ t => prepared (made ++ [version]) t).
Proof.
  intros Hc Hs Hnew Hv Hin. pose proof (pr_instances _ _ Hs) as (l & Hl & Hkeys & _). unfold ensure_instance_state.
  eapply (start_bind _ _ _ _ (fun stored t => stored = l /\ t = s)); [by apply (ends_section _ _ _ l)|]. intros stored t [-> ->].
  assert (Hb : bget version l = None) by (apply bget_None; by rewrite Hkeys). rewrite Hb.
  eapply (start_bind _ _ _ _ (fun r t => doc t = doc s /\ String.length r = 32%nat)).
  { apply ends_host. intros r h' Hr. split; [done|]. pose proof (Hkey (host s)) as Hk. by rewrite Hr in Hk. }
  intros random t [Hd Hr]. cbv zeta.
  assert (Hm : (25 <= Z.to_N (mtu config))%N) by (destruct Hc as (_ & _ & _ & Hm & _); lia).
  eapply (start_bind _ _ _ _ (fun r t => doc t = doc s /\ exists p, r = Ok p /\ validate version p (Z.to_N (mtu config)) = Ok p)).
  { destruct (settles_generate version (Z.to_N (mtu config)) (host t)) as (n & [r g] & Hg).
    pose proof (post_generate n version _ Hv Hm _ _ _ (Hg n (le_n n))) as (d & -> & Hdr).
    exists n, (Ok (Ok (params_of version d))), (set_host g t). split; [intros n' Hn; unfold on_rng; by rewrite Hg|].
    split; [|done]. split; [done|]. exists (params_of version d). split; [done|by apply validate_drawn]. }
  intros generated t1 (Hd1 & p & -> & Hp). destruct (overridden_cases version p Hp Hin) as [Hgood Hbad].
  eapply (start_bind _ _ _ _ (fun q u => doc u = doc s /\ exists r, validate version r (Z.to_N (mtu config)) = Ok q)).
  { apply ends_lift; [|apply Hbad]. intros q Hq. split; [done|by apply Hgood]. }
  intros params t2 (Hd2 & q & Hq).
  eapply (start_bind _ _ _ _ (fun _ u => doc u = doc s)); [by apply ends_host|]. intros now t3 Hd3.
  eapply (start_bind _ _ _ _ (fun d u => d = doc s /\ u = t3)); [by apply ends_inspect|]. intros d0 u [-> ->].
  destruct (prepared_next made version t3 (instance_record (generate_private random) params (as_i64_sat now))) as (d & Hdoc & Hnext).
  { apply (prepared_doc made s); [done|]. intros k. by rewrite Hd3. }
  { done. }
  { apply (instance_accepted _ _ _ _ q); [by apply private_length|done]. }
  rewrite Hd3 in Hdoc. eapply (start_bind _ _ _ _ (fun a u => a = d /\ u = t3)).
  { apply ends_lift; rewrite Hdoc; [|done]. intros a [= <-]. done. }
  intros a u [-> ->]. eapply (start_bind _ _ _ _ (fun _ u => prepared (made ++ [version]) u)); [by apply ends_update|].
  intros [] u Hu. by apply ends_ret.
Qed.

Lemma ends_all h vs made (s : St) : awg_config_ok config -> prepared made s -> NoDup (made ++ vs) -> vs ⊆ VERSIONS -> vs ⊆ versions config ->
  ends (start_failed h) (fun n => collect (ensure_instance_state config overrides n) vs) s (fun _ t => prepared (made ++ vs) t).
Proof.
  intros Hc. revert made s. induction vs as [|v vs IH]; intros made s Hs Hnd Hin Hvs; cbn [collect].
  - rewrite app_nil_r. by apply ends_ret.
  - assert (Hv : v ∉ made) by (apply NoDup_app in Hnd as (_ & Hd & _); intros Hm; apply (Hd v Hm); left).
    eapply start_bind; [apply (ends_ensure h made); [done|done|done|apply Hin; left|apply Hvs; left]|]. intros b t Ht.
    eapply (start_bind _ _ _ _ (fun _ u => prepared (made ++ v :: vs) u)).
    { replace (made ++ v :: vs) with ((made ++ [v]) ++ vs) by (by rewrite <-app_assoc).
      apply IH; [done|by rewrite <-app_assoc|intros w Hw; apply Hin; by right|intros w Hw; apply Hvs; by right]. }
    intros bs u Hu. by apply ends_ret.
Qed.

Lemma save_run made (s : St) : prepared made s -> exists written t, save s = (Ok written, t) /\ prepared made t
  /\ instances t = instances s /\ match written with Ok _ => True | Err m => exists text h, (write_state (H := H) text h).1 = Err m end.
Proof.
  intros Hs. pose proof (pr_operations _ _ Hs) as Ho. unfold save, mbind, Eff_bind. cbn.
  rewrite (with_section_run "operations" (fun ops => Ok (prune ops)) _ _ _ Ho eq_refl). cbn. unfold on_host. cbn.
  match goal with |- context [write_state ?x ?y] => destruct (write_state x y) as [w h] eqn:Hw; exists w; eexists; split; [reflexivity|] end.
  split; [|split; [done|]].
  - apply (prepared_doc made s); [done|]. intros k. simpl. rewrite (section_put _ _ _ _ _ Ho).
    destruct (k =?s "operations") eqn:E; [|done]. apply eqb_s_true in E as ->. by rewrite Ho.
  - destruct w as [|m]; [done|]. eexists _, _. by rewrite Hw.
Qed.

Lemma ends_load made (s : St) : (forall h, (read_state (H := H) h).1 = Err true) -> prepared made s ->
  ends (start_failed (host s)) (fun _ => load from_slice) s (fun _ t => prepared made t).
Proof.
  intros Hfile Hs. unfold load. eapply (start_bind _ _ _ _ (fun r t => (prepare_dir (host s)).1 = r /\ prepared made t)).
  { apply ends_host. intros r h Hr. split; [by rewrite Hr|]. by apply (prepared_doc made s). }
  intros r t [Hr Ht]. eapply (start_bind _ _ _ _ (fun _ u => prepared made u)).
  { apply ends_lift; [done|]. intros e He. left. destruct r as [|m]; [done|]. injection He as <-. by exists m. }
  intros _ u Hu. eapply (start_bind _ _ _ _ (fun text v => text = Err true /\ prepared made v)).
  { apply ends_host. intros a h Ha. pose proof (Hfile (host u)) as Hf. rewrite Ha in Hf. split; [exact Hf|]. by apply (prepared_doc made u). }
  intros text v [-> Hv]. by apply ends_ret.
Qed.

Lemma ends_bootstrap (s : St) : awg_config_ok config -> (forall h, (read_state (H := H) h).1 = Err true) -> prepared [] s ->
  ends (start_failed (host s)) (fun n => bootstrap_state config overrides n from_slice) s (fun _ t => prepared (versions config) t).
Proof.
  intros Hc Hfile Hs. pose proof Hc as ((_ & Hnd & Hk) & _). unfold bootstrap_state.
  eapply start_bind; [by apply (ends_load [])|]. intros [] t Ht.
  eapply start_bind; [by apply (ends_all _ _ [])|]. intros changed u Hu. simpl in Hu.
  eapply (start_bind _ _ _ _ (fun p v => p = [] /\ v = u)); [by apply (ends_section _ _ _ []); [apply (pr_peers _ _ Hu)|]|]. intros p v [-> ->].
  eapply (start_bind _ _ _ _ (fun _ v => v = u)); [by apply ends_inspect|]. intros l v ->.
  eapply (start_bind _ _ _ _ (fun _ v => v = u)); [by apply ends_lift|]. intros [] v ->.
  destruct (negb _); [by apply ends_ret|]. destruct (save_run _ u Hu) as (written & v & Hsave & Hv & Hi & Hw).
  eapply (start_bind _ _ _ _ (fun w v' => w = written /\ v' = v)); [by exists 0%nat, (Ok written), v|]. intros w v' [-> ->].
  apply ends_lift; [done|]. intros e He. right. right. destruct written as [|m]; [done|]. injection He as <-.
  destruct Hw as (text & h & Hw). by exists text, h, m.
Qed.

Lemma prepared_good (s : St) : prepared (versions config) s -> map i_version (instances s) = versions config ->
  nets_ok (nets s) -> good s /\ peers_of s = [].
Proof.
  intros [(l & Hl & Hkeys & _) Hp Ho] Hv Hn. split; [|by apply peers_of_section]. split; [| | |done].
  - exists l. split; [done|]. apply Forall_forall. intros i Hi. apply bhas_true. rewrite Hkeys, <-Hv. by apply (list_elem_of_fmap_2 i_version).
  - exists []. split; [done|apply peers_ok_nil].
  - exists []. split; [done|]. split; [constructor|]. simpl. unfold MAX_OPERATIONS. lia.
Qed.
End start.

(** ** Properties *)

(** C16: a first start comes to an end: with an accepted configuration, no state file and a fair random
    source, building the manager cannot fail, and its start ends, in one outcome for any fuel large
    enough. It ends in a state in which requests can be served, without peers, with an instance for
    each configured version, in order, that a later start accepts; unless the state directory could
    not be prepared, the operator's parameters for a configured version do not fit generated ones, or
    the document could not be written, and then with that very message. *)
Theorem first_start {H : Type} {HO : Host H} {RN : Rng H} {RL : RngLaws H} {FA : FairRng H} {B64 : Base64} {BL : Base64Laws} {X : X25519}
  {FT : FloatText} {SHA : Sha256} (config : AwgConfig) (overrides : imap Params) (from_slice : string -> option Value)
  (h : H) (Hc : awg_config_ok config) (Hfile : forall h : H, (read_state h).1 = Err true)
  (Hkey : forall h : H, String.length (random_key h).1 = 32%nat) :
  exists s, new config h = Ok s /\
  exists fuel r t, (forall fuel', (fuel <= fuel')%nat -> bootstrap_state config overrides fuel' from_slice s = (r, t)) /\
  match r with
  | Ok _ => good t /\ peers_of t = [] /\ map i_version (instances t) = versions config
      /\ exists l, section "instances" (doc t) = Ok l /\ bkeys l = versions config /\ Forall (stored_ok config l) (versions config)
  | Err e => start_failed config overrides h e
  end.
Proof.
  destruct (instances_built config Hc) as (l & Hl & Hv & Hn). eexists. split; [unfold new; by rewrite Hl|].
  set (s := {| doc := empty_doc; instances := l; last_nft := of_Z64 0; host := h |}).
  assert (Hs : prepared config [] s) by (split; [by exists []|done|done]).
  destruct (ends_bootstrap config overrides from_slice Hkey s Hc Hfile Hs) as (n & r & t & Hrun & Hr).
  exists n, r, t. split; [exact Hrun|]. destruct r as [a|e]; [|exact Hr]. destruct Hr as [Ht Hi].
  assert (Hvt : map i_version (instances t) = versions config) by (by rewrite Hi).
  destruct (prepared_good config t Ht Hvt) as [Hg Hpe]; [unfold nets; by rewrite Hi|].
  split; [done|]. split; [done|]. split; [done|]. apply Ht.
Qed.

Lemma first_start_witness : exists s, new sample_config 3%N = Ok s /\
  exists fuel t, (forall fuel', (fuel <= fuel')%nat -> bootstrap_state sample_config [] fuel' (fun _ => None) s = (Ok tt, t))
    /\ good t /\ map i_version (instances t) = ["3.1"].
Proof.
  destruct (first_start (HO := toy_host) sample_config [] (fun _ => None) 3%N sample_config_ok (fun _ => eq_refl) (fun _ => eq_refl))
    as (s & Hs & fuel & r & t & Hrun & Hr).
  exists s. split; [exact Hs|]. exists fuel, t. destruct r as [[]|e].
  - split; [exact Hrun|]. destruct Hr as (Hg & _ & Hv & _). split; [exact Hg|exact Hv].
  - exfalso. destruct Hr as [(m & Hm & _)|[(version & o & p & m & _ & Ho & _)|(text & h & m & Hm & _)]]; discriminate.
Defined.
