(* ===== verification/AwgServiceProps.v ===== *)
(** * What the AmneziaWG manager guarantees its clients

    The theorems about the requests: the invariant of the peers over every history, each request as a
    transition that is carried out whole or not at all, the address a new peer gets, and repeated
    requests. *)

From Stdlib Require Import SpecFloat.
From S2P Require Import Prelude BTree Utf8 Numeric Json PyText IndexMap Plan IpAddr AwgNet AwgNetFacts AwgKeys Obfuscation GenerateFacts AwgConfig Effect.
From S2P Require Import AwgService AwgPeers AwgRequests AwgSupervise AwgSample.

Section props.
Context {H : Type} {HO : Host H} {RN : Rng H} {B64 : Base64} {X : X25519} {FT : FloatText} {SHA : Sha256}.
Context (config : AwgConfig).
Abbreviation SM := (Eff Failure (@Inner H)).
Abbreviation St := (@Inner H).

(** ** The parts of a creation request *)

Definition create_args (body : imap Value) : FR (string * string * string * string * Value) :=
  _ ← fields body ["operation_id"; "username"; "version"; "public_key"; "preshared_key"];
  op_id ← body_at body "operation_id" ≫= operation_id;
  username ← body_at body "username" ≫= username_of;
  public ← (v ← body_at body "public_key"; key v "public_key");
  psk ← (v ← body_at body "preshared_key"; key v "preshared_key");
  v ← body_at body "version";
  Ok (op_id, username, public, psk, v).

Lemma lift_bind {A B} (r : FR A) (f : A -> SM B) (s : St) :
  (lift r ≫= f) s = match r with Ok a => f a s | Err e => (Err e, s) end.
Proof. by destruct r. Qed.

Lemma create_peer_eq body (s : St) : create_peer config body s =
  match create_args body with
  | Err e => (Err e, s)
  | Ok (op, user, public, psk, v) =>
      (idx ← read (fun s => known_instance s v);
       i ← instance_at idx;
       let d := create_digest (i_version i) user public psk in
       again ← read (fun s => replayed s op d);
       match again with
       | Some again => response ← peer_response config again idx; mret (200%Z, response)
       | None => create_new config idx op user (i_version i) public psk d
       end) s
  end.
Proof.
  unfold create_peer, create_args. rewrite lift_bind. destruct (fields _ _) as [[]|e]; [|done]. cbn [mbind result_bind].
  rewrite lift_bind. destruct (body_at body "operation_id" ≫= operation_id) as [op|e]; [|done]. cbn [mbind result_bind].
  rewrite lift_bind. destruct (body_at body "username" ≫= username_of) as [user|e]; [|done]. cbn [mbind result_bind].
  rewrite lift_bind. destruct (v ← body_at body "public_key"; key v "public_key") as [public|e]; [|done]. cbn [mbind result_bind].
  rewrite lift_bind. destruct (v ← body_at body "preshared_key"; key v "preshared_key") as [psk|e]; [|done]. cbn [mbind result_bind].
  rewrite lift_bind. by destruct (body_at body "version") as [v|e].
Qed.

Lemma create_request_args body op user version public psk : create_request body op user version public psk ->
  create_args body = Ok (op, user, public, psk, Str version).
Proof.
  intros [Hl [Ho Ho'] [Hu Hu'] [Hv _] [Hp Hp'] [Hs Hs']]. unfold create_args, fields, bhas. cbn [forallb].
  rewrite Hl, Ho, Hu, Hv, Hp, Hs. cbn [length Nat.eqb negb orb andb mbind result_bind]. unfold body_at.
  rewrite Ho, Hu, Hv, Hp, Hs. cbn [ok_or mbind result_bind].
  rewrite (proj2 (operation_id_Ok _ _) (conj eq_refl Ho')), (proj2 (username_of_Ok _ _) (conj eq_refl Hu')). cbn [mbind result_bind].
  rewrite (proj2 (key_Ok _ _ _) (conj eq_refl Hp')), (proj2 (key_Ok _ _ _) (conj eq_refl Hs')). done.
Qed.

Lemma known_at (s : St) version idx : version ∈ KNOWN_VERSIONS -> position version (instances s) = Some idx ->
  known_instance s (Str version) = Ok idx.
Proof. intros Hv Hp. unfold known_instance. cbn [as_str]. apply mem_str_true in Hv. by rewrite Hv, Hp. Qed.

(** A new request: what [create_peer] does once the request is well formed and its operation unknown. *)
Lemma create_peer_new s body op user version public psk idx i ops :
  create_request body op user version public psk -> position version (instances s) = Some idx ->
  instances s !! idx = Some i -> section "operations" (doc s) = Ok ops -> bget op ops = None ->
  create_peer config body s = create_new config idx op user version public psk (create_digest version user public psk) s.
Proof.
  intros Hr Hi Hl Ho Hn. pose proof (position_Some _ _ _ Hi) as (j & Hj & Hv). rewrite Hl in Hj. injection Hj as <-.
  rewrite create_peer_eq, (create_request_args _ _ _ _ _ _ Hr). destruct Hr as [_ _ _ [_ Hkv] _ _].
  unfold mbind, Eff_bind, read, instance_at. rewrite (known_at _ _ _ Hkv Hi), Hl. cbn [ok_or]. cbv zeta. rewrite Hv.
  unfold replayed. rewrite Ho. cbn [mbind result_bind]. by rewrite Hn.
Qed.

(** ** Histories *)

Lemma run_all_good rs s : good s -> good (run_all config rs s).
Proof.
  revert s. induction rs as [|r rs IH]; intros s Hg; [done|]. simpl. apply IH.
  pose proof (serves_every config s r Hg) as Hs. unfold serves, post in Hs.
  destruct (serve config r s) as [[a|e] t]; [apply Hs|]. by apply (good_same s); [apply Hs|].
Qed.

(** The operation just recorded is among the operations kept. *)
Lemma recorded_kept (ops : imap Value) op v : iok ops -> (length ops <= MAX_OPERATIONS)%nat ->
  bget op (prune (iset op v ops)) = Some v.
Proof.
  intros Hk Hl. rewrite prune_iset by done. unfold bhas. destruct (bget op ops) as [w|] eqn:Hb; [by rewrite bget_iset_eq|].
  assert (Hlast : forall m, bget op m = None -> bget op (m ++ [(op, v)]) = Some v).
  { intros m. induction m as [|[q w] m IH]; simpl; [by rewrite eqb_s_refl|]. destruct (op =?s q); [done|apply IH]. }
  destruct (_ =? _)%nat; apply Hlast; [|done]. destruct ops as [|[q w] ops]; [done|]. simpl in *. by destruct (op =?s q).
Qed.

(** A request whose operation is known. *)
Lemma create_peer_known s body op user version public psk idx i peers ops known :
  create_request body op user version public psk -> position version (instances s) = Some idx ->
  instances s !! idx = Some i -> section "operations" (doc s) = Ok ops -> bget op ops = Some known ->
  section "peers" (doc s) = Ok peers -> create_peer config body s =
  (if negb (str_field known "digest" =?s create_digest version user public psk)
   then (Err (e_conflict "operation_conflict" "operation id was used with a different request"), s)
   else if bhas (str_field known "username") peers
   then (response ← peer_response config (str_field known "username") idx; mret (200%Z, response)) s
   else create_new config idx op user version public psk (create_digest version user public psk) s).
Proof.
  intros Hr Hi Hl Ho Hn Hp. pose proof (position_Some _ _ _ Hi) as (j & Hj & Hv). rewrite Hl in Hj. injection Hj as <-.
  rewrite create_peer_eq, (create_request_args _ _ _ _ _ _ Hr). destruct Hr as [_ _ _ [_ Hkv] _ _].
  unfold mbind at 1 2 3, Eff_bind at 1 2 3, read, instance_at. rewrite (known_at _ _ _ Hkv Hi), Hl. cbn [ok_or]. cbv zeta. rewrite Hv.
  unfold replayed. rewrite Ho. cbn [mbind result_bind]. rewrite Hn. destruct (negb _); [done|]. rewrite Hp. cbn [mbind result_bind].
  by destruct (bhas _ _).
Qed.

Lemma position_fixed v l l' : map fixed l = map fixed l' -> position v l = position v l'.
Proof.
  revert l'. induction l as [|i l IH]; intros [|j l']; simpl; intros Hm; try done. injection Hm as Hv _ _ _ Hm.
  by rewrite Hv, (IH _ Hm).
Qed.

(** The instance of a version is at the same place as long as the instances are the same. *)
Lemma same_position (s u : St) v idx : same_instances s u -> position v (instances s) = Some idx ->
  position v (instances u) = Some idx /\ exists i, instances u !! idx = Some i.
Proof.
  intros Hs Hp. rewrite <-(position_fixed v _ _ (eq_sym Hs)). split; [done|].
  rewrite (position_fixed v _ _ (eq_sym Hs)) in Hp. by apply position_lookup in Hp.
Qed.

(** A state that knows the operation [op] and still has its peer. *)
Definition knows (s : St) (op user digest : string) : Prop :=
  good s /\ is_Some (bget user (peers_of s))
  /\ exists o, section "operations" (doc s) = Ok o /\ bget op o = Some (operation_record digest user).

Lemma created_known (s t : St) idx i peers ops op user public psk digest : good s -> instances s !! idx = Some i ->
  section "peers" (doc s) = Ok peers -> section "operations" (doc s) = Ok ops ->
  peer_created s t i peers ops op user public psk digest -> knows t op user digest.
Proof.
  intros Hg Hi Hp Ho Hc. split; [by eapply (peer_created_good s t)|]. destruct Hc as (_ & _ & (a & created & _ & Hpt) & Hot & _).
  split; [by rewrite (peers_of_section _ _ Hpt), bget_iset_eq|]. eexists. split; [exact Hot|].
  destruct (gd_operations _ Hg) as (o & Ho' & Hoi & Hol). rewrite Ho in Ho'. injection Ho' as <-. by apply recorded_kept.
Qed.

(** The repeated request. *)
Lemma create_again (u : St) body op user version public psk idx i : create_request body op user version public psk ->
  position version (instances u) = Some idx -> instances u !! idx = Some i -> knows u op user (create_digest version user public psk) ->
  exists v w, create_peer config body u = (Ok (200%Z, v), w) /\ doc w = doc u /\ shows_peer config (doc w) i user v.
Proof.
  intros Hb Hp Hi (Hg & [rec Hrec] & o & Ho & Hop).
  destruct (gd_peers _ Hg) as (p & Hps & _). rewrite (peers_of_section _ _ Hps) in Hrec.
  rewrite (create_peer_known u body op user version public psk idx i p o _ Hb Hp Hi Ho Hop Hps).
  change (str_field _ "digest") with (create_digest version user public psk). rewrite eqb_s_refl. cbn [negb].
  change (str_field _ "username") with user. unfold bhas. rewrite Hrec.
  pose proof (reads_peer_response config u idx i user p rec Hg Hps Hrec Hi) as Hs. unfold reads, post in Hs.
  unfold mbind, Eff_bind. destruct (peer_response config user idx u) as [[r|e] w]; [|done]. exists r, w. destruct Hs as [[Hd _] Hs].
  by rewrite Hd.
Qed.

(** The first answer to a request. *)
Lemma created_answer (s t : St) body op user version public psk idx i ops view p : good s ->
  create_request body op user version public psk -> position version (instances s) = Some idx -> instances s !! idx = Some i ->
  section "operations" (doc s) = Ok ops -> bget op ops = None -> section "peers" (doc s) = Ok p ->
  create_peer config body s = (Ok (201%Z, view), t) ->
  peer_created s t i p ops op user public psk (create_digest version user public psk) /\ shows_peer config (doc t) i user view.
Proof.
  intros Hs Hb Hi Hl Ho Hn Hp Hc. destruct (position_Some _ _ _ Hi) as (j & Hj & Hv). rewrite Hl in Hj. injection Hj as <-.
  rewrite (create_peer_new s body op user version public psk idx i ops) in Hc by done. subst version.
  pose proof (post_create_new config s idx i op user public psk (create_digest (i_version i) user public psk) p ops Hs Hl Hp Ho
    (proj2 (cr_public _ _ _ _ _ _ Hb)) (proj2 (cr_psk _ _ _ _ _ _ Hb))) as H'.
  unfold post in H'. rewrite Hc in H'. destruct H' as (_ & H1 & H2). by split.
Qed.

(** ** Properties *)

(** C13: whatever the clients ask, in any order and number, and whatever the machine answers: no request
    panics or ends in anything but an answer, every peer of an enabled version has an address of its
    subnet between the gateway and the broadcast address, and no two peers of a version share an
    address or a public key. *)
Theorem peers_never_clash (s : St) (rs : list Request) (Hs : good s) :
  let t := run_all config rs s in
  (forall r, match (serve config r t).1 with Ok _ => True | Err e => exists a, e = Api a end)
  /\ (forall u rec i, bget u (peers_of t) = Some rec -> i ∈ instances t -> i_version i = str_field rec "version" ->
       exists a, (gateway (i_subnet i) < a < broadcast (i_subnet i))%N /\ str_field rec "address" = format_v4 a)
  /\ (forall u u' rec rec', bget u (peers_of t) = Some rec -> bget u' (peers_of t) = Some rec' -> u <> u' ->
       str_field rec "version" = str_field rec' "version" ->
       str_field rec "address" <> str_field rec' "address" /\ str_field rec "public_key" <> str_field rec' "public_key").
Proof.
  intros t. pose proof (run_all_good rs s Hs) as Hg. fold t in Hg.
  destruct (gd_peers _ Hg) as (p & Hp & Hok). rewrite (peers_of_section _ _ Hp). split; [|split; [|apply Hok]].
  - intros r. pose proof (serves_every config t r Hg) as Hr. unfold serves, post in Hr.
    destruct (serve config r t) as [[a|e] u]; [done|apply Hr].
  - intros u rec i Hu Hi Hv. apply (po_address _ _ Hok u rec (i_subnet i) Hu). rewrite <-Hv.
    apply (list_elem_of_fmap_2 (fun i => (i_version i, i_subnet i)) _ _ Hi).
Qed.

(** C12: every request is a transaction on the document. It is either carried out whole: its answer and
    the new document are then those of its transition, made from what the request names - a creation
    makes that peer with those keys, answers with it and records the operation, a rotation gives the
    peer exactly those keys, and only an operation recorded before with the same digest is answered
    again with nothing changed - and the instances stay. Or it is refused with an answer, and then the
    document is what it was, operations included. *)
Theorem requests_are_transactions (s : St) (r : Request) (Hs : good s) :
  match serve config r s with
  | (Ok a, t) => transition config s r a t /\ same_instances s t /\ good t
  | (Err e, t) => (exists a, e = Api a) /\ doc t = doc s /\ same_instances s t
  end.
Proof.
  pose proof (serves_every config s r Hs) as Hr. unfold serves, post, carried_out in Hr.
  destruct (serve config r s) as [[a|e] t]; [tauto|]. destruct Hr as [[Hd Hi] He]. by split.
Qed.

(** C14: a well-formed request for a new peer gets the smallest address that is free, between the
    gateway and the broadcast address, and its operation is recorded; it is refused only when the name
    is taken, the key is in use, every address is used, or the document could not be written. *)
Theorem create_allocates (s : St) (body : imap Value) (op user version public psk : string) (idx : nat) (i : Instance)
  (peers ops : imap Value) (Hs : good s) (Hb : create_request body op user version public psk)
  (Hi : position version (instances s) = Some idx) (Hl : instances s !! idx = Some i)
  (Hp : section "peers" (doc s) = Ok peers) (Ho : section "operations" (doc s) = Ok ops) (Hn : bget op ops = None) :
  match create_peer config body s with
  | (Ok (status, _), t) => status = 201%Z
      /\ peer_created s t i peers ops op user public psk (create_digest version user public psk)
  | (Err e, t) => same_store s t /\ create_refused i peers user public e
  end.
Proof.
  rewrite (create_peer_new s body op user version public psk idx i ops) by done.
  destruct (position_Some _ _ _ Hi) as (j & Hj & <-). rewrite Hl in Hj. injection Hj as <-.
  pose proof (post_create_new config s idx i op user public psk (create_digest (i_version i) user public psk) peers ops
    Hs Hl Hp Ho (proj2 (cr_public _ _ _ _ _ _ Hb)) (proj2 (cr_psk _ _ _ _ _ _ Hb))) as H'. unfold post in H'.
  destruct (create_new _ _ _ _ _ _ _ _ _) as [[[st v]|e] t]; [|exact H']. destruct H' as (H1 & H2 & _). by split.
Qed.

(** C15: requests are idempotent: a creation answers with the view of the peer it made, and the same
    request is then answered with the view of that very peer and instance as the document has them,
    changing nothing in it, at once and in every later state that still knows the operation and the
    peer; another request with the same operation id is refused. *)
Theorem create_is_idempotent (s t : St) (body : imap Value) (op user version public psk : string) (idx : nat)
  (ops : imap Value) (view : Value) (Hs : good s) (Hb : create_request body op user version public psk)
  (Hi : position version (instances s) = Some idx)
  (Ho : section "operations" (doc s) = Ok ops) (Hn : bget op ops = None)
  (Hc : create_peer config body s = (Ok (201%Z, view), t)) :
  let d := create_digest version user public psk in
  knows t op user d /\ same_instances s t
  /\ (forall i, instances s !! idx = Some i -> shows_peer config (doc t) i user view)
  /\ (forall u i, same_instances s u -> knows u op user d -> instances u !! idx = Some i ->
       exists v w, create_peer config body u = (Ok (200%Z, v), w) /\ doc w = doc u /\ shows_peer config (doc w) i user v)
  /\ (forall u body' user' public' psk', same_instances s u -> knows u op user d ->
       create_request body' op user' version public' psk' -> create_digest version user' public' psk' <> d ->
       create_peer config body' u = (Err (e_conflict "operation_conflict" "operation id was used with a different request"), u)).
Proof.
  intros d. destruct (position_Some _ _ _ Hi) as (i & Hl & Hv). destruct (gd_peers _ Hs) as (p & Hp & _).
  destruct (created_answer s t body op user version public psk idx i ops view p) as [Hpc Hview]; [done..|].
  split; [by eapply (created_known s t)|]. split; [apply Hpc|]. split; [intros j Hj; congruence|]. split.
  - intros u j Hu Hk Hj. apply (create_again u body op user version public psk idx j Hb); [|done|done].
    by apply (same_position s u version idx).
  - intros u body' user' public' psk' Hu (Hg & _ & o & Huo & Hop) Hb' Hne.
    destruct (same_position s u version idx Hu Hi) as [Hp' [j Hj]]. destruct (gd_peers _ Hg) as (q & Hq & _).
    rewrite (create_peer_known u body' op user' version public' psk' idx j q o _ Hb' Hp' Hj Huo Hop Hq).
    change (str_field _ "digest") with d. destruct (d =?s _) eqn:E; [|done]. apply eqb_s_true in E. congruence.
Qed.
End props.

(** ** The properties at the sample state *)

Lemma sample_request op user public : is_operation_id op = true -> is_username user = true ->
  String.length (str_repeat 32 public) = 32%nat -> all_zero (str_repeat 32 public) = false ->
  create_request (sample_body op user public) op user "3.1" (sample_key public) (sample_key "s").
Proof.
  intros Ho Hu Hl Hz. split; try done; split; try done; try by apply sample_key_ok. by repeat constructor.
Qed.

(** Creating a peer, asking for one with its key, turning it off and deleting another one. *)
Definition sample_history : list Request :=
  [Create (sample_body "op-1" "alice" "p"); Create (sample_body "op-2" "bob" "p"); Enable "alice" false;
   Create (sample_body "op-3" "carol" "q"); Tick; Delete "alice"].

Lemma peers_never_clash_witness : let t := run_all sample_config sample_history sample_state in
  bkeys (peers_of t) = ["carol"]
  /\ forall u rec i, bget u (peers_of t) = Some rec -> i ∈ instances t -> i_version i = str_field rec "version" ->
       exists a, (gateway (i_subnet i) < a < broadcast (i_subnet i))%N /\ str_field rec "address" = format_v4 a.
Proof.
  split; [vm_compute; reflexivity|].
  exact (proj1 (proj2 (peers_never_clash sample_config sample_state sample_history sample_good))).
Defined.

Lemma requests_are_transactions_witness : match serve sample_config (Create (sample_body "op-1" "alice" "p")) sample_state with
  | (Ok a, t) => transition sample_config sample_state (Create (sample_body "op-1" "alice" "p")) a t
  | (Err e, t) => False
  end.
Proof.
  pose proof (requests_are_transactions sample_config sample_state (Create (sample_body "op-1" "alice" "p")) sample_good) as Ht.
  destruct (serve _ _ _) as [[a|e] t] eqn:Hs; [apply Ht|]. exfalso. revert Hs. vm_compute. discriminate.
Defined.

Lemma create_allocates_witness : exists view t, create_peer sample_config (sample_body "op-1" "alice" "p") sample_state = (Ok (201%Z, view), t)
  /\ peer_created sample_state t sample_instance [] [] "op-1" "alice" (sample_key "p") (sample_key "s")
       (create_digest "3.1" "alice" (sample_key "p") (sample_key "s")).
Proof.
  pose proof (create_allocates sample_config sample_state (sample_body "op-1" "alice" "p") "op-1" "alice" "3.1" (sample_key "p") (sample_key "s")
    0 sample_instance [] [] sample_good (sample_request "op-1" "alice" "p" eq_refl eq_refl eq_refl eq_refl) eq_refl eq_refl eq_refl eq_refl eq_refl) as Ha.
  destruct (create_peer _ _ _) as [[[status view]|e] t] eqn:Hc.
  - destruct Ha as [-> Ha]. exists view, t. split; [reflexivity|exact Ha].
  - exfalso. revert Hc. vm_compute. discriminate.
Defined.

(** The state after the peer was created. *)
Definition sample_created : @Inner N := (create_peer sample_config (sample_body "op-1" "alice" "p") sample_state).2.

Lemma create_is_idempotent_witness : exists v w,
  create_peer sample_config (sample_body "op-1" "alice" "p") sample_created = (Ok (200%Z, v), w) /\ doc w = doc sample_created
  /\ shows_peer sample_config (doc w) sample_instance "alice" v.
Proof.
  destruct (create_peer sample_config (sample_body "op-1" "alice" "p") sample_state) as [[[status view]|e] t] eqn:Hc.
  2: { exfalso. revert Hc. vm_compute. discriminate. }
  assert (Ht : sample_created = t) by (unfold sample_created; by rewrite Hc).
  assert (Hi : instances sample_created !! 0%nat = Some sample_instance) by (vm_compute; reflexivity). rewrite Ht in *.
  assert (status = 201%Z) as -> by (revert Hc; vm_compute; by intros [= <- _ _]).
  destruct (create_is_idempotent sample_config sample_state t (sample_body "op-1" "alice" "p") "op-1" "alice" "3.1" (sample_key "p") (sample_key "s")
    0 [] view sample_good (sample_request "op-1" "alice" "p" eq_refl eq_refl eq_refl eq_refl) eq_refl eq_refl eq_refl Hc) as (Hk & Hs & _ & Hr & _).
  exact (Hr t sample_instance Hs Hk Hi).
Defined.
