(* ===== verification/PyIp.v ===== *)
(** * The panel's IP addresses

    [panel/crates/core/src/pytext/ip.rs]: CPython's [ipaddress.ip_address] with its text form and its
    tables of special addresses. An address is its number; a scope is kept as it was written. *)

From S2P Require Import Prelude Utf8 Numeric PyText IpAddr.
Local Open Scope N_scope.

Inductive IpAddress := V4 (value : N) | V6 (value : N) (scope : option string).

#[export] Instance IpAddress_eq_dec : EqDecision IpAddress.
Proof. solve_decision. Defined.

(** ** The readers *)

Definition octet_value (text : string) : option N :=
  if str_empty text || (3 <? String.length text)%nat || negb (forallb_s is_digit text) then None
  else if negb (text =?s "0") && starts_with_zero text then None
  else value ← Z.to_N <$> parse_u32 text; if value <=? 255 then Some value else None.

Fixpoint quad_value (octets : list string) (value : N) : option N :=
  match octets with
  | [] => Some value
  | octet :: rest => byte ← octet_value octet; quad_value rest (N.lor ((N.shiftl value 8) mod 2 ^ 32) byte)
  end.

Definition read_v4 (text : string) : option N :=
  if str_empty text || contains_s "/" text then None else
  let octets := split_byte dot text in
  if negb (length octets =? 4)%nat then None else quad_value octets 0.

Definition hextet_value (text : string) : option N :=
  if str_empty text || negb (forallb_s is_hexdigit text) || (4 <? String.length text)%nat then None else digits_val 16 text.

(** [text.splitn(n, b)]: the last piece keeps the separators in it. *)
Definition splitn (n : nat) (b : Ascii.ascii) (text : string) : list string :=
  let parts := split_byte b text in
  if (length parts <=? n)%nat then parts
  else take (n - 1) parts ++ [join (String b EmptyString) (drop (n - 1) parts)].

Definition HEXTETS : nat := 8.

(** A dotted quad in the last place becomes two hextets. *)
Definition with_quad (parts : list string) : option (list string) :=
  match last parts with
  | Some tail =>
      if contains_s "." tail then
        v4 ← read_v4 tail;
        Some (removelast parts ++ [fmt_hex (N.land (N.shiftr v4 16) 0xffff); fmt_hex (N.land v4 0xffff)])
      else Some parts
  | None => Some parts
  end.

(** The one empty part that is neither the first nor the last: none, one, or too many ([None]). *)
Fixpoint skipped_part (index : nat) (parts : list string) (skip : option nat) : option (option nat) :=
  match parts with
  | [] => Some skip
  | part :: rest =>
      if str_empty part then match skip with Some _ => None | None => skipped_part (S index) rest (Some index) end
      else skipped_part (S index) rest skip
  end.

(** How many parts stand before and after the skipped hextets, and how many are skipped. *)
Definition part_layout (parts : list string) (skip : option nat) : option (nat * nat * nat) :=
  let n := length parts in
  let empty_at i := str_empty (default EmptyString (parts !! i)) in
  match skip with
  | Some skip =>
      let hi := if empty_at 0%nat then (skip - 1)%nat else skip in
      if empty_at 0%nat && negb (hi =? 0)%nat then None else
      let lo := if empty_at (n - 1)%nat then (n - skip - 1 - 1)%nat else (n - skip - 1)%nat in
      if empty_at (n - 1)%nat && negb (lo =? 0)%nat then None else
      if (HEXTETS - (hi + lo) <? 1)%nat then None else Some (hi, lo, (HEXTETS - (hi + lo))%nat)
  | None =>
      if negb (n =? HEXTETS)%nat || empty_at 0%nat || empty_at (n - 1)%nat then None else Some (n, 0, 0)%nat
  end.

Fixpoint push_parts (parts : list string) (value : N) : option N :=
  match parts with
  | [] => Some value
  | part :: rest => h ← hextet_value part; push_parts rest (N.lor (shl128 value 16) h)
  end.

Definition read_hextets (parts : list string) : option N :=
  if (HEXTETS + 1 <? length parts)%nat then None else
  skip ← skipped_part 1 (drop 1 (take (length parts - 1) parts)) None;
  '(hi, lo, skipped) ← part_layout parts skip;
  value ← push_parts (take hi parts) 0;
  let value := if (skipped <? 8)%nat then shl128 value (16 * N.of_nat skipped) else 0 in
  push_parts (drop (length parts - lo) parts) value.

Definition read_v6 (text : string) : option (N * option string) :=
  if contains_s "/" text then None else
  '(address, scope) ←
    match split_once "%"%char text with
    | None => Some (text, None)
    | Some (address, scope) => if str_empty scope || contains_s "%" scope then None else Some (address, Some scope)
    end;
  if str_empty address || (45 <? char_len address)%nat then None else
  let parts := splitn (HEXTETS + 2) colon address in
  if (length parts <? 3)%nat then None else
  parts ← with_quad parts;
  value ← read_hextets parts;
  Some (value, scope).

(** [ip_address(text)]; the error's text is not kept. *)
Definition py_ip_address (text : string) : option IpAddress :=
  match read_v4 text with
  | Some value => Some (V4 value)
  | None => match read_v6 text with Some (value, scope) => Some (V6 value scope) | None => None end
  end.

(** ** The tables *)

(** [u32::MAX << (32 - prefix)] and [u128::MAX << (128 - prefix)]. *)
Definition prefix_mask (bits prefix : N) : N := if prefix =? 0 then 0 else N.shiftl (N.ones prefix) (bits - prefix).
Definition v4_in (address network prefix : N) : bool := N.land address (prefix_mask 32 prefix) =? network.
Definition v6_in (address network prefix : N) : bool := N.land address (prefix_mask 128 prefix) =? network.

Definition V4_PRIVATE : list (N * N) :=
  [(0, 8); (0x0a000000, 8); (0x7f000000, 8); (0xa9fe0000, 16); (0xac100000, 12); (0xc0000000, 24); (0xc00000aa, 31); (0xc0000200, 24);
   (0xc0a80000, 16); (0xc6120000, 15); (0xc6336400, 24); (0xcb007100, 24); (0xf0000000, 4); (0xffffffff, 32)].
Definition V4_PRIVATE_EXCEPTIONS : list (N * N) := [(0xc0000009, 32); (0xc000000a, 32)].
Definition V6_PRIVATE : list (N * N) :=
  [(1, 128); (0, 128); (0xffff00000000, 96); (N.shiftl 0x0064ff9b0001 80, 48); (N.shiftl 0x0100 112, 64); (N.shiftl 0x2001 112, 23);
   (N.shiftl 0x20010db8 96, 32); (N.shiftl 0x2002 112, 16); (N.shiftl 0x3fff 112, 20); (N.shiftl 0xfc00 112, 7); (N.shiftl 0xfe80 112, 10)].
Definition V6_PRIVATE_EXCEPTIONS : list (N * N) :=
  [(N.lor (N.shiftl 0x20010001 96) 1, 128); (N.lor (N.shiftl 0x20010001 96) 2, 128); (N.shiftl 0x20010003 96, 32);
   (N.shiftl 0x200100040112 80, 48); (N.shiftl 0x20010020 96, 28); (N.shiftl 0x20010030 96, 28)].
Definition V6_RESERVED : list (N * N) :=
  [(0, 8); (N.shiftl 0x0100 112, 8); (N.shiftl 0x0200 112, 7); (N.shiftl 0x0400 112, 6); (N.shiftl 0x0800 112, 5); (N.shiftl 0x1000 112, 4);
   (N.shiftl 0x4000 112, 3); (N.shiftl 0x6000 112, 3); (N.shiftl 0x8000 112, 3); (N.shiftl 0xA000 112, 3); (N.shiftl 0xC000 112, 3);
   (N.shiftl 0xE000 112, 4); (N.shiftl 0xF000 112, 5); (N.shiftl 0xF800 112, 6); (N.shiftl 0xFE00 112, 9)].

Definition v4_is_private (address : N) : bool :=
  existsb (fun e => v4_in address e.1 e.2) V4_PRIVATE && negb (existsb (fun e => v4_in address e.1 e.2) V4_PRIVATE_EXCEPTIONS).
Definition v4_is_global (address : N) : bool := negb (v4_in address 0x64400000 10) && negb (v4_is_private address).

Definition ipv4_mapped (a : IpAddress) : option N :=
  match a with V6 value _ => if N.shiftr value 32 =? 0xffff then Some (value mod 2 ^ 32) else None | V4 _ => None end.
Definition v4_view (a : IpAddress) : option N := match a with V4 value => Some value | V6 _ _ => ipv4_mapped a end.
(** [v6_value], which is only asked of what has no IPv4 view. *)
Definition v6_value (a : IpAddress) : N := match a with V6 value _ => value | V4 _ => 0 end.

Definition is_private (a : IpAddress) : bool :=
  match v4_view a with
  | Some address => v4_is_private address
  | None => existsb (fun e => v6_in (v6_value a) e.1 e.2) V6_PRIVATE
            && negb (existsb (fun e => v6_in (v6_value a) e.1 e.2) V6_PRIVATE_EXCEPTIONS)
  end.
Definition is_global (a : IpAddress) : bool :=
  match a with
  | V4 value => v4_is_global value
  | V6 _ _ => match ipv4_mapped a with Some address => v4_is_global address | None => negb (is_private a) end
  end.
Definition is_multicast (a : IpAddress) : bool :=
  match v4_view a with Some address => v4_in address 0xe0000000 4 | None => v6_in (v6_value a) (N.shiftl 0xff00 112) 8 end.
Definition is_loopback (a : IpAddress) : bool :=
  match v4_view a with Some address => v4_in address 0x7f000000 8 | None => v6_value a =? 1 end.
Definition is_link_local (a : IpAddress) : bool :=
  match v4_view a with Some address => v4_in address 0xa9fe0000 16 | None => v6_in (v6_value a) (N.shiftl 0xfe80 112) 10 end.
Definition is_unspecified (a : IpAddress) : bool :=
  match v4_view a with Some address => address =? 0 | None => v6_value a =? 0 end.
Definition is_reserved (a : IpAddress) : bool :=
  match v4_view a with
  | Some address => v4_in address 0xf0000000 4
  | None => existsb (fun e => v6_in (v6_value a) e.1 e.2) V6_RESERVED
  end.

(** ** The text form *)

(** The longest run of ["0"], the first of the longest: its start and length. *)
Fixpoint longest_zeros (index : nat) (l : list string) (best_start best_len start run : nat) : nat * nat :=
  match l with
  | [] => (best_start, best_len)
  | h :: rest =>
      if h =?s "0" then
        let start := if (run =? 0)%nat then index else start in
        let run := S run in
        if (best_len <? run)%nat then longest_zeros (S index) rest start run start run
        else longest_zeros (S index) rest best_start best_len start run
      else longest_zeros (S index) rest best_start best_len start 0
  end.

Definition format_hextets (value : N) : string :=
  let hextets := hextets value in
  let '(best_start, best_len) := longest_zeros 0 hextets 0 0 0 0 in
  if (best_len <? 2)%nat then join ":" hextets
  else join ":" (take best_start hextets) +:+ "::" +:+ join ":" (drop (best_start + best_len) hextets).

Definition ip_display (a : IpAddress) : string :=
  match a with
  | V4 value => ipv4_str value
  | V6 value scope =>
      match ipv4_mapped a with
      | Some v4 => format_hextets (N.shiftr value 32) +:+ ":" +:+ ipv4_str v4
      | None => format_hextets value
      end +:+ match scope with Some scope => "%" +:+ scope | None => EmptyString end
  end.

Example ip_texts :
  map (fun t => ip_display <$> py_ip_address t)
    ["2001:DB8:0:0:0:0:0:1"; "::ffff:1.2.3.4"; "::"; "1:0:0:2:0:0:3:4"; "fe80::1%eth0"; "01.1.1.1"; "10.8.0.2"; "1:2:3:4:5:6:7:8:9"; "1::2::3"; "::1.2.3"] =
  [Some "2001:db8::1"; Some "::ffff:1.2.3.4"; Some "::"; Some "1::2:0:0:3:4"; Some "fe80::1%eth0"; None; Some "10.8.0.2"; None; None; None].
Proof. vm_compute. reflexivity. Qed.

Example ip_classes :
  map (fun t => match py_ip_address t with Some a => (is_private a, is_global a, is_loopback a) | None => (false, false, false) end)
    ["10.1.2.3"; "100.64.0.1"; "8.8.8.8"; "::ffff:127.0.0.1"; "::1"; "2606:4700::1111"; "192.0.0.9"] =
  [(true, false, false); (false, false, false); (false, true, false); (true, false, true); (true, false, true); (false, true, false); (false, true, false)].
Proof. vm_compute. reflexivity. Qed.
