(* ===== verification/RoutingNet.v ===== *)
(** * Networks of a routing policy

    [panel/crates/routing/src/net.rs] (does a network overlap a private range, is an address in a
    network) and [panel/crates/model/src/routing/net.rs] (the canonical text of a network). *)

From S2P Require Import Prelude Utf8 Numeric PyText IpAddr PyIp.

Local Open Scope N_scope.

Definition slash : Ascii.ascii := "/"%char.

(** ** [routing/src/net.rs] *)

Record Network := { v6 : bool; address : N; prefix : N }.

Definition family_bits (v6 : bool) : N := if v6 then 128 else 32.

Definition ip_parts (a : IpAddress) : bool * N := match a with V4 value => (false, value) | V6 value _ => (true, value) end.

Definition net_parse (text : string) : option Network :=
  let '(addr, pre) := match split_once slash text with Some (a, p) => (a, Some p) | None => (text, None) end in
  a ← py_ip_address addr;
  let '(six, value) := ip_parts a in
  let bits := family_bits six in
  p ← match pre with
      | None => Some bits
      | Some text => if negb (str_empty text) && forallb_s is_digit text then Z.to_N <$> parse_u32 text else None
      end;
  if p <=? bits then Some {| v6 := six; address := value; prefix := p |} else None.

(** [all & (all << (bits - prefix))] in 128 bits. *)
Definition net_mask (six : bool) (p : N) : N :=
  let bits := family_bits six in
  let all := N.ones bits in
  if p =? 0 then 0 else N.land all (N.shiftl all (bits - p) mod 2 ^ 128).

Definition net_overlaps (n other : Network) : bool :=
  if negb (Bool.eqb (v6 n) (v6 other)) then false else
  let mask := net_mask (v6 n) (N.min (prefix n) (prefix other)) in
  N.land (address n) mask =? N.land (address other) mask.

Definition net_contains (n : Network) (a : IpAddress) : bool :=
  let '(six, value) := ip_parts a in
  let mask := net_mask (v6 n) (prefix n) in
  Bool.eqb six (v6 n) && (N.land value mask =? N.land (address n) mask).

Definition PRIVATE_NETWORKS : list string :=
  ["0.0.0.0/8"; "10.0.0.0/8"; "100.64.0.0/10"; "127.0.0.0/8"; "169.254.0.0/16"; "172.16.0.0/12"; "192.168.0.0/16"; "::1/128"; "fc00::/7"; "fe80::/10"].

(** [PRIVATE_NETWORKS.iter().filter_map(Network::parse)]. *)
Definition private_networks : list Network := omap net_parse PRIVATE_NETWORKS.

Definition is_private_network (cidr : string) : bool :=
  match net_parse cidr with Some n => existsb (net_overlaps n) private_networks | None => false end.

(** ** [model/src/routing/net.rs] *)

Definition prefix_length (text : string) (max : N) : option N :=
  if str_empty text || negb (forallb_s is_digit text) then None else
  value ← match Z.to_N <$> parse_int 0 (2 ^ 128 - 1) text with
          | Some v => Some v
          | None => if forallb_s (fun a => Ascii.eqb a "0"%char) text then Some 0 else None
          end;
  if value <=? max then Some value else None.

(** [mask.leading_ones()] of 32 bits. *)
Fixpoint leading_ones (bits : nat) (mask : N) : N :=
  match bits with O => 0 | S b => if N.testbit mask (N.of_nat b) then 1 + leading_ones b mask else 0 end.

Definition contiguous_prefix (mask : N) : option N :=
  let ones := leading_ones 32 mask in
  let rest := if ones <? 32 then N.shiftl mask ones mod 2 ^ 32 else 0 in
  if rest =? 0 then Some ones else None.

Definition v4_prefix (text : string) : option N :=
  match prefix_length text 32 with
  | Some p => Some p
  | None =>
      if negb (str_empty text) && forallb_s is_digit text then None else
      mask ← (if contains_s "/" text then None else ok (ipv4_int text));
      match contiguous_prefix mask with
      | Some p => Some p
      | None => contiguous_prefix (N.lxor mask (N.ones 32))
      end
  end.

Definition ip_network (text : string) : option string :=
  match split_byte slash text with
  | [] => None
  | addr :: rest =>
      if (1 <? length rest)%nat then None else
      a ← py_ip_address addr;
      match a with
      | V4 value =>
          p ← match head rest with None => Some 32 | Some mask => v4_prefix mask end;
          Some (ip_display (V4 (N.land value (prefix_mask 32 p))) +:+ "/" +:+ fmt_N p)
      | V6 value scope =>
          p ← match head rest with None => Some 128 | Some mask => prefix_length mask 128 end;
          let net := N.land value (prefix_mask 128 p) in
          let a := if net =? value then V6 value scope else V6 net None in
          Some (ip_display a +:+ "/" +:+ fmt_N p)
      end
  end.

Example ip_network_tests :
  map ip_network ["10.0.0.5/8"; "10.0.0.0/255.0.0.0"; "10.0.0.0/0.0.0.255"; "1.2.3.4/0.0.0.0"; "10.0.0.0/255.0.255.0"; "fe80::1%eth0/64"; "fe80::%eth0/64"; "1.2.3.4/64"] =
  [Some "10.0.0.0/8"; Some "10.0.0.0/8"; Some "10.0.0.0/24"; Some "0.0.0.0/0"; None; Some "fe80::/64"; Some "fe80::%eth0/64"; None].
Proof. vm_compute. reflexivity. Qed.

Example private_tests :
  (map is_private_network ["127.0.0.1/32"; "10.1.2.0/24"; "192.168.0.0/16"; "169.254.1.1/32"; "::1/128"; "fd00::/8"; "0.0.0.0/0"],
   map is_private_network ["203.0.113.0/24"; "1.1.1.0/24"; "2001:db8::/32"; "11.0.0.0/8"]) =
  ([true; true; true; true; true; true; true], [false; false; false; false]).
Proof. vm_compute. reflexivity. Qed.

(** * Networks as sets of addresses

    Masks bit by bit; two networks that share an address overlap, so a network that overlaps no private
    range has no private address in it. *)

Local Open Scope N_scope.

Lemma net_mask_bit six p i : p <= family_bits six ->
  N.testbit (net_mask six p) i = (family_bits six - p <=? i) && (i <? family_bits six).
Proof.
  intros Hp. assert (Hb : family_bits six <= 128) by (unfold family_bits; destruct six; lia). unfold net_mask. cbv zeta.
  destruct (p =? 0) eqn:E.
  - rewrite N.bits_0. apply N.eqb_eq in E as ->. rewrite N.sub_0_r.
    destruct (family_bits six <=? i) eqn:H1, (i <? family_bits six) eqn:H2; try done. lia.
  - assert (Hones : forall k, N.testbit (N.ones (family_bits six)) k = (k <? family_bits six)).
    { intros k. destruct (k <? family_bits six) eqn:H; [apply N.ones_spec_low; lia|apply N.ones_spec_high; lia]. }
    rewrite N.land_spec, Hones. destruct (i <? family_bits six) eqn:H1; [|by rewrite andb_false_r].
    rewrite N.mod_pow2_bits_low by lia. rewrite andb_true_r. cbn [andb].
    destruct (family_bits six - p <=? i) eqn:H2.
    + rewrite N.shiftl_spec_high' by lia. rewrite Hones. lia.
    + rewrite N.shiftl_spec_low by lia. done.
Qed.

(** The mask of a shorter prefix is part of the mask of a longer one. *)
Lemma net_mask_sub six p q : p <= q -> q <= family_bits six -> N.land (net_mask six q) (net_mask six p) = net_mask six p.
Proof.
  intros Hpq Hq. apply N.bits_inj. intros i. rewrite N.land_spec, !net_mask_bit by lia.
  destruct (family_bits six - p <=? i) eqn:H1; [|by rewrite andb_false_r]. assert ((family_bits six - q <=? i) = true) as -> by lia.
  by destruct (i <? family_bits six).
Qed.

Definition net_wf (n : Network) : Prop := prefix n <= family_bits (v6 n).

Lemma net_parse_wf text n : net_parse text = Some n -> net_wf n.
Proof.
  unfold net_parse. destruct (match split_once slash text with Some _ => _ | None => _ end) as [addr pre].
  destruct (py_ip_address addr) as [a|]; [|done]. simpl. destruct (ip_parts a) as [six value].
  destruct (match pre with None => _ | Some _ => _ end) as [p|]; [|done]. simpl. destruct (p <=? family_bits six) eqn:E; [|done].
  intros [= <-]. unfold net_wf. simpl. lia.
Qed.

(** Networks with an address in common overlap. *)
Lemma common_overlaps n m a : net_wf n -> net_wf m -> net_contains n a = true -> net_contains m a = true -> net_overlaps n m = true.
Proof.
  unfold net_wf, net_contains, net_overlaps. destruct (ip_parts a) as [six value]. intros Hn Hm [H1 H2]%andb_prop [H3 H4]%andb_prop.
  apply Bool.eqb_prop in H1, H3. subst six. rewrite <-H3 in *. rewrite Bool.eqb_reflx. cbn [negb]. cbv zeta.
  apply N.eqb_eq in H2, H4. apply N.eqb_eq. set (q := N.min (prefix n) (prefix m)).
  assert (Hx : forall x y p, q <= p -> p <= family_bits (v6 n) -> N.land x (net_mask (v6 n) p) = N.land y (net_mask (v6 n) p) ->
    N.land x (net_mask (v6 n) q) = N.land y (net_mask (v6 n) q)).
  { intros x y p Hqp Hp He. rewrite <-(net_mask_sub (v6 n) q p Hqp Hp), !N.land_assoc. by rewrite He. }
  rewrite <-(Hx value (address n) (prefix n)); [|unfold q; lia|done|done]. apply (Hx value (address m) (prefix m)); [unfold q; lia|done|done].
Qed.

Lemma private_networks_wf n : n ∈ private_networks -> net_wf n.
Proof. unfold private_networks. intros (text & _ & Ht)%list_elem_of_omap. by eapply net_parse_wf. Qed.

(** A network that is not private has no private address. *)
Lemma not_private cidr n p a : is_private_network cidr = false -> net_parse cidr = Some n -> p ∈ private_networks ->
  net_contains p a = true -> net_contains n a = false.
Proof.
  unfold is_private_network. intros Hp Hn Hin Ha. rewrite Hn in Hp. destruct (net_contains n a) eqn:Hc; [|done]. exfalso.
  apply not_true_iff_false in Hp. apply Hp, existsb_exists. exists p. split; [by apply list_elem_of_In|].
  by apply (common_overlaps n p a); [eapply net_parse_wf|apply private_networks_wf|..].
Qed.
