(* ===== verification/RoutingModel.v ===== *)
(** * The routing policy

    [panel/crates/model/src/routing/models.rs]: the engine-neutral policy an operator writes, what
    compiling it produces, and the texts of exits and lanes. The enumerations have a module each, as
    their variants share names; the validation of the wire form is not modelled. *)

From S2P Require Import Prelude BTree Utf8 Numeric Json PyText IndexMap IpAddr.

(** ** Enumerations ([wire_enum!]) *)

Module Action.
Inductive t := Direct | Block | Egress.
#[global] Instance t_eq_dec : EqDecision t.
Proof. solve_decision. Defined.
Definition ALL : list t := [Direct; Block; Egress].
Definition as_str (a : t) : string := match a with Direct => "direct" | Block => "block" | Egress => "egress" end.
End Action.

Module DefaultAction.
Inductive t := Direct | Egress.
#[global] Instance t_eq_dec : EqDecision t.
Proof. solve_decision. Defined.
Definition ALL : list t := [Direct; Egress].
Definition as_str (a : t) : string := match a with Direct => "direct" | Egress => "egress" end.
End DefaultAction.

Module Fallback.
Inductive t := FailClosed | ApprovedDirect.
#[global] Instance t_eq_dec : EqDecision t.
Proof. solve_decision. Defined.
Definition ALL : list t := [FailClosed; ApprovedDirect].
Definition as_str (a : t) : string := match a with FailClosed => "fail_closed" | ApprovedDirect => "approved_direct" end.
End Fallback.

Module PolicyState.
Inductive t := Draft | Applying | Applied | Failed | RolledBack.
#[global] Instance t_eq_dec : EqDecision t.
Proof. solve_decision. Defined.
Definition ALL : list t := [Draft; Applying; Applied; Failed; RolledBack].
Definition as_str (s : t) : string :=
  match s with Draft => "draft" | Applying => "applying" | Applied => "applied" | Failed => "failed" | RolledBack => "rolled_back" end.
End PolicyState.

Module CompileStatus.
Inductive t := Supported | Unsupported.
#[global] Instance t_eq_dec : EqDecision t.
Proof. solve_decision. Defined.
Definition ALL : list t := [Supported; Unsupported].
Definition as_str (s : t) : string := match s with Supported => "supported" | Unsupported => "unsupported" end.
End CompileStatus.

Module Protocol.
Inductive t := Mtproxy | Naive | Mieru | Amneziawg | Trusttunnel.
#[global] Instance t_eq_dec : EqDecision t.
Proof. solve_decision. Defined.
Definition ALL : list t := [Mtproxy; Naive; Mieru; Amneziawg; Trusttunnel].
Definition as_str (p : t) : string :=
  match p with Mtproxy => "mtproxy" | Naive => "naive" | Mieru => "mieru" | Amneziawg => "amneziawg" | Trusttunnel => "trusttunnel" end.
End Protocol.

Module Backend.
Inductive t := NaiveNative | MieruNative | MtproxyNative | TrusttunnelNative | AmneziawgNative | XrayRouter.
#[global] Instance t_eq_dec : EqDecision t.
Proof. solve_decision. Defined.
Definition ALL : list t := [NaiveNative; MieruNative; MtproxyNative; TrusttunnelNative; AmneziawgNative; XrayRouter].
Definition as_str (b : t) : string :=
  match b with
  | NaiveNative => "naive_native" | MieruNative => "mieru_native" | MtproxyNative => "mtproxy_native"
  | TrusttunnelNative => "trusttunnel_native" | AmneziawgNative => "amneziawg_native" | XrayRouter => "xray_router"
  end.
End Backend.

(** [WireEnum::from_wire]. *)
Definition from_wire {E} (all : list E) (as_str : E -> string) (text : string) : option E :=
  List.find (fun item => as_str item =?s text) all.

(** [backend_for], [backends_for]. *)
Definition backend_for (protocol : string) : option Backend.t :=
  if protocol =?s "naive" then Some Backend.NaiveNative
  else if protocol =?s "mieru" then Some Backend.MieruNative
  else if protocol =?s "mtproxy" then Some Backend.MtproxyNative
  else if protocol =?s "trusttunnel" then Some Backend.TrusttunnelNative
  else if protocol =?s "amneziawg" then Some Backend.AmneziawgNative
  else None.

Definition ROUTER_BACKEND : Backend.t := Backend.XrayRouter.
Definition backends_for (protocol : string) : list Backend.t :=
  match backend_for protocol with Some native => [native; ROUTER_BACKEND] | None => [] end.

Definition AMNEZIAWG_WHOLE_ONLY : string :=
  "On its own AmneziaWG routes the whole tunnel: directly or through WARP. For rules by domain, address, port or protocol, custom exits and other nodes attach it to the node's Xray-router".
Definition LANES_UNSUPPORTED_AMNEZIAWG : string :=
  "AmneziaWG has no client lanes: the router sees its tunnels as one source, so the route is set for the whole service".
Definition LANES_UNSUPPORTED_TRUSTTUNNEL : string :=
  "TrustTunnel has no client lanes: its endpoint reaches the router as one anonymous SOCKS5 client, so the router cannot tell its users apart. Route the whole service instead".
Definition COMPILER_VERSION : string := "3".
Definition LANE_SERVICE : string := "svc".
Definition MAX_CHAIN_HOPS : nat := 3.

(** ** Exits and lanes *)

Definition is_alnum (a : Ascii.ascii) : bool :=
  let n := Ascii.N_of_ascii a in (((48 <=? n) && (n <=? 57)) || ((65 <=? n) && (n <=? 90)) || ((97 <=? n) && (n <=? 122)))%N.
Definition is_guid (text : string) : bool :=
  (1 <=? String.length text)%nat && (String.length text <=? 64)%nat
  && forallb_s (fun b => is_alnum b || Ascii.eqb b "_"%char || Ascii.eqb b "-"%char) text.

Definition is_grant_lane (text : string) : bool :=
  match strip_prefix "grant:" text with Some rest => is_guid rest | None => false end.

(** No guid occurs before itself. *)
Fixpoint distinct_from (seen : list string) (guids : list string) : bool :=
  match guids with [] => true | g :: rest => negb (mem_str g seen) && distinct_from (seen ++ [g]) rest end.

Definition general_exit : string := "an egress must be warp, exit:<id> or node:<guid>".

Section exits.
Context {UT : UnicodeText}.

Definition normalise_exit (value : string) : result string string :=
  if str_empty value then Err general_exit else
  let text := strip value in
  if to_lowercase text =?s "warp" then Ok "warp" else
  let '(kind, rest) := default (text, EmptyString) (split_once colon text) in
  if to_lowercase kind =?s "exit" then
    if str_empty rest || negb (is_guid rest) then Err "an exit egress is exit:<id>" else Ok ("exit:" +:+ rest)
  else if negb (to_lowercase kind =?s "node") || str_empty rest then Err general_exit
  else
    '(chain, via_warp) ←
      match split_once colon rest with
      | None => Ok (rest, false)
      | Some (chain, tail) =>
          if to_lowercase tail =?s "warp" then Ok (chain, true)
          else Err "a chain exits direct or through the last node's warp"
      end;
    let guids := split_byte ","%char chain in
    if negb ((1 <=? length guids) && (length guids <=? MAX_CHAIN_HOPS))%nat || negb (distinct_from [] guids) || negb (forallb is_guid guids)
    then Err "a chain names one to three distinct nodes"
    else Ok ("node:" +:+ join "," guids +:+ if (via_warp : bool) then ":warp" else EmptyString).
End exits.

(** [text.strip_suffix(suffix)]. *)
Definition strip_suffix (suffix text : string) : option string :=
  let k := (String.length text - String.length suffix)%nat in
  if String.substring k (String.length text) text =?s suffix then Some (String.substring 0 k text) else None.

Definition exit_hops (value : option string) : list string * option string :=
  match value ≫= strip_prefix "node:" with
  | None => ([], None)
  | Some body =>
      match strip_suffix ":warp" body with
      | Some body => (split_byte ","%char body, Some "warp")
      | None => (split_byte ","%char body, Some "direct")
      end
  end.

Definition is_node_exit (value : string) : bool := String.prefix "node:" value.
Definition is_custom_exit (value : string) : bool := String.prefix "exit:" value.

Definition normalise_lane (value : option string) : result string string :=
  match value with
  | None => Ok LANE_SERVICE
  | Some lane =>
      if str_empty lane || (lane =?s LANE_SERVICE) then Ok LANE_SERVICE
      else if is_grant_lane lane then Ok lane else Err "a lane is svc or grant:<id>"
  end.

(** ** Rules *)

Inductive Port := One (value : Z) | Range (range : string).

#[export] Instance Port_eq_dec : EqDecision Port.
Proof. solve_decision. Defined.

Definition port_value (p : Port) : Value := match p with One port => json_int port | Range range => Str range end.

Record RuleMatch := {
  domains : list string;
  cidrs : list string;
  ports : list Port;
  geosites : list string;
  geoips : list string;
  protocols : list string;
}.

Definition none_of {A} (l : list A) : bool := match l with [] => true | _ => false end.

Definition selectors (m : RuleMatch) : bool := negb (none_of (domains m) && none_of (cidrs m) && none_of (geosites m) && none_of (geoips m)).
(** [RuleMatch::is_empty]. *)
Definition match_is_empty (m : RuleMatch) : bool := negb (selectors m) && none_of (ports m) && none_of (protocols m).

Record RoutingRule := {
  rule_id : option string;
  position : Z;
  enabled : bool;
  matcher : RuleMatch;
  action : Action.t;
  egress : option string;
  note : string;
  preset : option string;
}.

(** The check of a rule's action and egress at the end of its validation. *)
Definition rule_problem (action : Action.t) (egress : option string) : option string :=
  match action, egress with
  | Action.Egress, None => Some "an egress rule must name its egress"
  | Action.Direct, Some _ | Action.Block, Some _ => Some "only an egress rule names an egress"
  | _, _ => None
  end.

Record Intent := {
  default_action : DefaultAction.t;
  default_egress : option string;
  fallback : Fallback.t;
  rules : list RoutingRule;
}.

Definition intent_default : Intent :=
  {| default_action := DefaultAction.Direct; default_egress := None; fallback := Fallback.FailClosed; rules := [] |}.

(** [Intent::check]. *)
Definition intent_check (i : Intent) : result string unit :=
  match default_action i, default_egress i with
  | DefaultAction.Egress, None => Err "a default of egress must name its egress"
  | DefaultAction.Direct, Some _ => Err "only a default of egress names an egress"
  | _, _ => Ok tt
  end.

(** [Vec::push] of what is not there yet. *)
Definition push_new (found : list string) (value : string) : list string :=
  if mem_str value found then found else found ++ [value].

(** [Intent::exits], [node_exits], [custom_exits]. *)
Definition intent_exits (i : Intent) : list string :=
  fold_left push_new (omap id (default_egress i :: map egress (List.filter enabled (rules i)))) [].
Definition node_exits (i : Intent) : list string := List.filter is_node_exit (intent_exits i).
Definition custom_exits (i : Intent) : list string := map (drop_s 5) (List.filter is_custom_exit (intent_exits i)).

Record RoutingPolicy := {
  intent : Intent;
  id_ : string;
  node_id : string;
  protocol : Protocol.t;
  lane : string;
  backend : Backend.t;
  revision : Z;
  state : PolicyState.t;
  applied_revision : option Z;
  applied_digest : option string;
  applied_at : option Z;
  last_error : option string;
  created_at : Z;
  updated_at : Z;
}.

Definition applied_current (p : RoutingPolicy) : bool :=
  bool_decide (state p = PolicyState.Applied) && bool_decide (applied_revision p = Some (revision p)).

(** ** What compiling produces *)

Record Reason := { code : string; reason_rule : option string; message : string }.

Record Compiled := {
  status : CompileStatus.t;
  reasons : list Reason;
  warnings : list string;
  document : option Value;
  digest : option string;
  diff : list string;
  restart_required : bool;
  rollback : option Value;
  compiler_version : string;
  compiled_backend : option string;
  runtime_version : option string;
  attach : option Value;
}.

(** [Compiled::new]. *)
Definition compiled_new (status : CompileStatus.t) : Compiled :=
  {| status := status; reasons := []; warnings := []; document := None; digest := None; diff := []; restart_required := false;
     rollback := None; compiler_version := COMPILER_VERSION; compiled_backend := None; runtime_version := None; attach := None |}.

(** ** Targets ([panel/crates/model/src/protocols.rs]) *)

Record AppliedDocument := { ap_revision : string; ap_digest : string; ap_document : Value }.

Module EgressMode.
Inductive t := Direct | Proxy | Custom.
Definition as_str (m : t) : string := match m with Direct => "direct" | Proxy => "proxy" | Custom => "custom" end.
End EgressMode.

Record EgressTarget := {
  tg_protocol : string;
  tg_backend : Backend.t;
  tg_capabilities : list string;
  tg_providers : imap Value;
  tg_revision : string;
  tg_applied : option AppliedDocument;
  tg_mode : EgressMode.t;
  tg_restart_required : bool;
  tg_warnings : list string;
  tg_runtime_version : option string;
  router_attached : bool;
}.

Record RouterTarget := {
  available : bool;
  service : string;
  rt_capabilities : list string;
  rt_providers : imap Value;
  rt_revision : string;
  rt_applied : option AppliedDocument;
  xray_version : option string;
  rt_restart_required : bool;
  rt_reason : option string;
}.

Definition router_unavailable (service reason : string) : RouterTarget :=
  {| available := false; service := service; rt_capabilities := []; rt_providers := []; rt_revision := EmptyString; rt_applied := None;
     xray_version := None; rt_restart_required := true; rt_reason := Some reason |}.

(** Where [EgressTarget::new] starts from. *)
Definition target_new (protocol : string) (backend : Backend.t) (revision : string) : EgressTarget :=
  {| tg_protocol := protocol; tg_backend := backend; tg_capabilities := []; tg_providers := []; tg_revision := revision; tg_applied := None;
     tg_mode := EgressMode.Direct; tg_restart_required := false; tg_warnings := []; tg_runtime_version := None; router_attached := false |}.

Example exits_tests :
  map (fun t => exit_hops (Some t)) ["node:a,b:warp"; "node:a"; "warp"; "exit:x"] =
  [(["a"; "b"], Some "warp"); (["a"], Some "direct"); ([], None); ([], None)].
Proof. vm_compute. reflexivity. Qed.

#[local] Existing Instance ascii_text.
Example normalise_exit_tests :
  map normalise_exit [" WARP "; "exit:a-1"; "Node:a,b:Warp"; "node:a,a"; "node:"; "node:a,b,c,d"; "other"] =
  [Ok "warp"; Ok "exit:a-1"; Ok "node:a,b:warp"; Err "a chain names one to three distinct nodes"; Err general_exit;
   Err "a chain names one to three distinct nodes"; Err general_exit].
Proof. vm_compute. reflexivity. Qed.
