(* ===== verification/RoutingDocument.v ===== *)
(** * Compiled egress documents

    [panel/crates/model/src/routing/document.rs], the equality of [panel/crates/model/src/pyrepr.rs] and
    the texts of [panel/crates/core/src/pyjson.rs] it uses (the writer is the one of [Json]): the native
    documents, what the operator is shown of them, and a document without one lane. *)

From Stdlib Require Import SpecFloat.
From S2P Require Import Prelude BTree Utf8 Numeric Json PyText IndexMap Plan IpAddr.

(** ** JSON text and equality *)

(** [Options::CANONICAL] of [pyjson.rs]; numbers are written as Python writes them. *)
Definition PANEL_CANONICAL : Options :=
  {| indent := None; separators := Some (",", ":"); sort_keys := true; ensure_ascii := true; numbers := NumPython FloatPython |}.

Section text.
Context {FT : FloatText} {SHA : Sha256}.

Definition doc_canonical (document : Value) : string := dumps document PANEL_CANONICAL.
Definition document_digest (document : Value) : string := sha256_hex (doc_canonical document).
End text.

Inductive Numeric := Int (z : Z) | Float (f : f64).

Definition numeric (v : Value) : option Numeric :=
  match v with
  | Bool flag => Some (Int (if flag then 1 else 0))
  | Num (NInt z) => Some (Int z)
  | Num (NFloat f) => Some (Float f)
  | _ => None
  end.

(** The integer a finite double without a fraction is. *)
Definition float_int (f : f64) : option Z :=
  match f with
  | S754_zero _ => Some 0%Z
  | S754_finite s m e =>
      let v := if (0 <=? e)%Z then Some (Z.pos m * 2 ^ e)%Z
               else if (Z.pos m mod 2 ^ (- e) =? 0)%Z then Some (Z.pos m / 2 ^ (- e))%Z else None in
      v ← v; Some (if s then (- v)%Z else v)
  | _ => None
  end.

Definition numeric_eq (a b : Numeric) : bool :=
  let mixed z f := match float_int f with Some v => (Z.abs v <? 18 * 10 ^ 18)%Z && (v =? z)%Z | None => false end in
  match a, b with
  | Int a, Int b => (a =? b)%Z
  | Float a, Float b => SFeqb a b
  | Int z, Float f | Float f, Int z => mixed z f
  end.

Fixpoint py_eq (a b : Value) : bool :=
  match a, b with
  | Null, Null => true
  | Str a, Str b => a =?s b
  | Array a, Array b =>
      (fix go a b := match a, b with
        | [], [] => true
        | x :: a', y :: b' => py_eq x y && go a' b'
        | _, _ => false
        end) a b
  | Object a, Object b =>
      (length a =? length b)%nat
      && forallb (fun e => match bget e.1 b with Some other => py_eq e.2 other | None => false end) a
  | _, _ => match numeric a, numeric b with Some a, Some b => numeric_eq a b | _, _ => false end
  end.

(** ** The native documents *)

Definition schema_1 : string * Value := ("schema", json_int 1).

(** [ATTACH_DOCUMENTS[protocol]]. *)
Definition attach_document (protocol : string) : option Value :=
  if protocol =?s "naive" then
    Some (Object [schema_1; ("upstream", Object [("provider", Str "router")]); ("acl", Array [])])
  else if protocol =?s "mieru" then
    Some (Object [schema_1; ("proxies", Array [Object [("name", Str "router"); ("provider", Str "router")]]);
      ("rules", Array [Object [("domains", Array [Str "*"]); ("cidrs", Array [Str "*"]); ("action", Str "PROXY"); ("proxy", Str "router")]])])
  else if protocol =?s "mtproxy" then Some (Object [schema_1; ("upstream", Object [("provider", Str "router")])])
  else if protocol =?s "trusttunnel" then Some (Object [("mode", Str "socks5"); ("address", Str "127.0.0.1:45104")])
  else if protocol =?s "amneziawg" then Some (Object [schema_1; ("upstream", Object [("provider", Str "router")])])
  else None.

Definition trusttunnel_direct_document : Value := Object [("mode", Str "direct")].
Definition telemt_direct_document : Value := Object [schema_1; ("upstream", Null)].
Definition router_direct_intent : Value :=
  Object [schema_1; ("default", Object [("action", Str "direct"); ("egress", Null)]); ("rules", Array [])].

Definition truthy_list (v : option Value) : list Value := match v with Some (Array items) => items | _ => [] end.

(** [attach["rules"][0]] of the mieru document. *)
Definition mieru_catch_all : Value :=
  Object [("domains", Array [Str "*"]); ("cidrs", Array [Str "*"]); ("action", Str "PROXY"); ("proxy", Str "router")].

Definition attached_to_router (protocol : string) (document : Value) : bool :=
  match document with
  | Object map =>
      let router := Object [("provider", Str "router")] in
      if mem_str protocol ["naive"; "mtproxy"; "amneziawg"] then
        match bget "upstream" map with Some upstream => py_eq upstream router | None => false end
      else if protocol =?s "trusttunnel" then
        match attach_document "trusttunnel" with Some attach => py_eq document attach | None => false end
      else if protocol =?s "mieru" then
        existsb (fun proxy => match as_object proxy ≫= bget "name" with Some (Str name) => name =?s "router" | _ => false end)
          (truthy_list (bget "proxies" map))
        && match last (truthy_list (bget "rules" map)) with Some rule => py_eq rule mieru_catch_all | None => false end
      else false
  | _ => false
  end.

(** ** What the operator is shown *)

Definition masked : Value := Str "***".

(** [get_mut(key)] of an object and its change. *)
Definition change_field (key : string) (f : Value -> Value) (map : imap Value) : imap Value := iupd f key map.

Definition redact_hop (hop : Value) : Value :=
  match hop with Object m => Object (if bhas "uuid" m then iset "uuid" masked m else m) | v => v end.
Definition redact_chain (chain : Value) : Value :=
  match chain with
  | Object m => Object (change_field "hops" (fun hops => match hops with Array l => Array (map redact_hop l) | v => v end) m)
  | v => v
  end.
Definition redact_exit (exit : Value) : Value :=
  match exit with
  | Object m => Object (change_field "credential"
      (fun c => match c with Object c => Object (map (fun e => (e.1, masked)) c) | v => v end) m)
  | v => v
  end.
Definition on_values (f : Value -> Value) (v : Value) : Value :=
  match v with Object m => Object (map (fun e => (e.1, f e.2)) m) | v => v end.

Definition redact_document (document : Value) : Value :=
  match document with
  | Object m =>
      if match bget "chains" m with Some chains => is_object chains | None => false end
      then Object (change_field "exits" (on_values redact_exit) (change_field "chains" (on_values redact_chain) m))
      else document
  | _ => document
  end.

Definition QUOTE : char := 34%N.
Definition secret_keys : list (list char) := map chars [dq +:+ "uuid" +:+ dq +:+ ":"; dq +:+ "password" +:+ dq +:+ ":"].

(** [rest.strip_prefix(key)]. *)
Fixpoint strip_chars (key rest : list char) : option (list char) :=
  match key, rest with
  | [], _ => Some rest
  | k :: key', c :: rest' => if (k =? c)%N then strip_chars key' rest' else None
  | _, _ => None
  end.

Fixpoint span_chars (p : char -> bool) (l : list char) : list char * list char :=
  match l with
  | c :: l' => if p c then let '(x, y) := span_chars p l' in (c :: x, y) else ([], l)
  | [] => ([], [])
  end.

(** What follows the next quote. *)
Fixpoint after_quote (l : list char) : option (list char) :=
  match l with c :: l' => if (c =? QUOTE)%N then Some l' else after_quote l' | [] => None end.

Definition mask_value (key rest : list char) : option (list char * list char) :=
  after_key ← strip_chars key rest;
  let '(spaces, after_spaces) := span_chars is_space after_key in
  value_and_tail ← strip_chars [QUOTE] after_spaces;
  tail ← after_quote value_and_tail;
  Some (key ++ spaces ++ chars (dq +:+ "***" +:+ dq), tail).

(** A value that begins here, masked, and what follows it. *)
Fixpoint mask_here (keys : list (list char)) (rest : list char) : option (list char * list char) :=
  match keys with
  | [] => None
  | key :: keys => match mask_value key rest with Some r => Some r | None => mask_here keys rest end
  end.

(** Each step leaves less of the line. *)
Fixpoint redact_chars (fuel : nat) (rest : list char) : list char :=
  match fuel, rest with
  | S fuel, c :: rest' =>
      match mask_here secret_keys rest with
      | Some (out, tail) => out ++ redact_chars fuel tail
      | None => c :: redact_chars fuel rest'
      end
  | _, _ => []
  end.
Definition redact_line (line : string) : string := let l := chars line in of_chars (redact_chars (length l) l).
Definition redact_diff (lines : list string) : list string := map redact_line lines.

(** ** A document without one lane *)

(** The egresses the kept lanes name: those of the rules of every lane, then the defaults. *)
Definition field (key : string) (v : Value) : Value := match v with Object m => default Null (bget key m) | _ => Null end.
Definition used_egresses (kept : imap Value) : list Value :=
  concat (map (fun body => map (field "egress") (match field "rules" body with Array l => l | _ => [] end)) (ivalues kept))
  ++ map (fun body => field "egress" (field "default" body)) (ivalues kept).

Definition names_used (used : list Value) (prefix id : string) : bool :=
  existsb (fun value => bool_decide (as_str value = Some (prefix +:+ ":" +:+ id))) used.

(** The entries of [map[section]] whose id is used. *)
Definition kept_entries (used : list Value) (section prefix : string) (map : imap Value) : imap Value :=
  match bget section map with Some (Object entries) => List.filter (fun e => names_used used prefix e.1) entries | _ => [] end.

Definition without_lane (document : Value) (lane : string) : Value :=
  match document with
  | Object map =>
      match bget "lanes" map with
      | Some (Object lanes) =>
          if negb (py_eq (default Null (bget "schema" map)) (json_int 2)) || negb (bhas lane lanes) then document else
          let kept := List.filter (fun e => negb (e.1 =?s lane)) lanes in
          let used := used_egresses kept in
          let result := iset "chains" (Object (kept_entries used "chains" "chain" map)) (iset "lanes" (Object kept) map) in
          Object (if bhas "exits" map then
                    let exits := kept_entries used "exits" "exit" map in
                    match exits with [] => idel "exits" result | _ => iset "exits" (Object exits) result end
                  else result)
      | _ => document
      end
  | _ => document
  end.

Example redact_line_tests :
  map redact_line [" " +:+ dq +:+ "uuid" +:+ dq +:+ ":  " +:+ dq +:+ "s3" +:+ dq +:+ ","; "plain"; dq +:+ "uuid" +:+ dq +:+ ": 5"] =
  [" " +:+ dq +:+ "uuid" +:+ dq +:+ ":  " +:+ dq +:+ "***" +:+ dq +:+ ","; "plain"; dq +:+ "uuid" +:+ dq +:+ ": 5"].
Proof. vm_compute. reflexivity. Qed.

Example py_eq_tests :
  (py_eq (json_int 1) (Bool true), py_eq (Num (NFloat (S754_finite false 1 0))) (json_int 1), py_eq (Str "1") (json_int 1),
   py_eq (Object [("a", json_int 1); ("b", Null)]) (Object [("b", Null); ("a", Bool true)])) = (true, true, false, true).
Proof. vm_compute. reflexivity. Qed.
