(* ===== verification/RoutingCompiler.v ===== *)
(** * The routing compiler

    [panel/crates/routing/src/compiler.rs] and [panel/crates/routing/src/intent.rs]: a policy is compiled
    to the document of its backend, or refused with every reason. What the compiler asks of the service
    (the relays of other nodes, the custom exits) are lookups over a state of their own; a lookup's
    failure that is not a reason ends the compilation. *)

From S2P Require Import Prelude BTree Utf8 Numeric Json PyText IndexMap Plan IpAddr PyIp Difflib Effect.
From S2P Require Import RoutingNet RoutingModel RoutingDocument.

Definition MAX_DOCUMENT_BYTES : N := 16384.
Definition MAX_DOCUMENT_BYTES_V2 : N := 65536.
Definition ACL_SUBJECTS_PER_LINE : nat := 64.
Definition PRIVATE_DOMAINS : list string := ["localhost"; "*.localhost"].

(** [panic] is an index out of range; [Escaped] what a lookup failed with. *)
Inductive RoutingFailure (E : Type) := Internal (text : string) | Escaped (error : E) | Panicked.
Arguments Internal {E}. Arguments Escaped {E}. Arguments Panicked {E}.

Definition line_feed : Ascii.ascii := Ascii.ascii_of_nat 10.

(** ** Rules *)

Definition enabled_rules (policy : RoutingPolicy) : list RoutingRule := List.filter enabled (rules (intent policy)).

Definition private (rule : RoutingRule) : bool :=
  existsb (fun domain => mem_str domain PRIVATE_DOMAINS) (domains (matcher rule)) || existsb is_private_network (cidrs (matcher rule)).

Definition is_block (a : Action.t) : bool := match a with Action.Block => true | _ => false end.
Definition kind_of (rule : RoutingRule) : string := if is_block (action rule) then "block" else "selective".

(** [needed] of [compiler.rs]: the cells of a native backend. *)
Definition native_needed (rule : RoutingRule) : list string :=
  (if none_of (domains (matcher rule)) then [] else [kind_of rule +:+ "_domain"])
  ++ (if none_of (cidrs (matcher rule)) then [] else [kind_of rule +:+ "_cidr"]).

(** [needed] of [intent.rs]: the cells of the router. *)
Definition router_needed (rule : RoutingRule) : list string :=
  let m := matcher rule in
  concat (map (fun e => if (e.1 : bool) then [] else [kind_of rule +:+ "_" +:+ e.2])
    [(none_of (domains m), "domain"); (none_of (geosites m), "geosite"); (none_of (cidrs m), "cidr");
     (none_of (geoips m), "geoip"); (none_of (ports m), "port"); (none_of (protocols m), "protocol")]).

(** The needed cells a backend has not declared, sorted. *)
Definition missing_cells (needed : list string) (capabilities : list string) : list string :=
  sort_str (List.filter (fun cell => negb (mem_str cell capabilities)) needed).

(** [*.x] and [x] are one suffix, kept once, in first-seen order. *)
Definition suffix_of (domain : string) : string := default domain (strip_prefix "*." domain).
Definition suffixes (domains : list string) : list string := fold_left (fun out d => push_new out (suffix_of d)) domains [].

Definition strs (l : list string) : Value := Array (map Str l).
Definition opt_str (s : option string) : Value := match s with Some s => Str s | None => Null end.

(** ** Native documents *)

Definition warp_upstream (a : DefaultAction.t) : Value :=
  match a with DefaultAction.Egress => Object [("provider", Str "warp")] | DefaultAction.Direct => Null end.

(** [chunks(n)]: [fuel] is the length. *)
Fixpoint chunks_go {A} (fuel n : nat) (l : list A) : list (list A) :=
  match fuel, l with S fuel, _ :: _ => take n l :: chunks_go fuel n (drop n l) | _, _ => [] end.
Definition chunks {A} (n : nat) (l : list A) : list (list A) := chunks_go (length l) n l.

Definition naive_document (a : DefaultAction.t) (rules : list RoutingRule) : Value :=
  let subjects := concat (map (fun rule => domains (matcher rule) ++ cidrs (matcher rule)) rules) in
  Object [schema_1; ("upstream", warp_upstream a);
          ("acl", Array (map (fun chunk => Object [("deny", strs chunk)]) (chunks ACL_SUBJECTS_PER_LINE subjects)))].

Definition amneziawg_document (a : DefaultAction.t) : Value := Object [schema_1; ("upstream", warp_upstream a)].

Definition mieru_action (a : Action.t) : string :=
  match a with Action.Direct => "DIRECT" | Action.Block => "REJECT" | Action.Egress => "PROXY" end.
Definition mieru_rule (rule : RoutingRule) : Value :=
  Object [("domains", strs (suffixes (domains (matcher rule)))); ("cidrs", strs (cidrs (matcher rule)));
          ("action", Str (mieru_action (action rule)));
          ("proxy", match action rule with Action.Egress => Str "warp" | _ => Null end)].
Definition mieru_default : Value :=
  Object [("domains", strs ["*"]); ("cidrs", strs ["*"]); ("action", Str "PROXY"); ("proxy", Str "warp")].
Definition uses_proxy (rule : Value) : bool := match field "action" rule with Str a => a =?s "PROXY" | _ => false end.

Definition mieru_document (a : DefaultAction.t) (rules : list RoutingRule) : Value :=
  let compiled := map mieru_rule rules ++ match a with DefaultAction.Egress => [mieru_default] | _ => [] end in
  let proxies := if existsb uses_proxy compiled then [Object [("name", Str "warp"); ("provider", Str "warp")]] else [] in
  Object [schema_1; ("proxies", Array proxies); ("rules", Array compiled)].

Definition direct_document (b : Backend.t) : Value :=
  match b with
  | Backend.XrayRouter => router_direct_intent
  | Backend.MtproxyNative => telemt_direct_document
  | Backend.TrusttunnelNative => trusttunnel_direct_document
  | Backend.AmneziawgNative => amneziawg_document DefaultAction.Direct
  | Backend.NaiveNative => naive_document DefaultAction.Direct []
  | Backend.MieruNative => mieru_document DefaultAction.Direct []
  end.

(** ** What is said of a compilation *)

Definition reason (code : string) (rule : option string) (message : string) : Reason :=
  {| code := code; reason_rule := rule; message := message |}.

(** [Compiled] with its reasons and warnings. *)
Definition refuse (c : Compiled) (reasons : list Reason) (warnings : list string) : Compiled :=
  {| status := status c; reasons := reasons; warnings := warnings; document := document c; digest := digest c; diff := diff c;
     restart_required := restart_required c; rollback := rollback c; compiler_version := compiler_version c;
     compiled_backend := compiled_backend c; runtime_version := runtime_version c; attach := attach c |}.
(** [unsupported.reasons.push(reason)]. *)
Definition because (c : Compiled) (r : Reason) : Compiled := refuse c (reasons c ++ [r]) (warnings c).

Definition unsupported_as (backend runtime : option string) (restart : bool) : Compiled :=
  {| status := CompileStatus.Unsupported; reasons := []; warnings := []; document := None; digest := None; diff := [];
     restart_required := restart; rollback := None; compiler_version := COMPILER_VERSION; compiled_backend := backend;
     runtime_version := runtime; attach := None |}.
Definition unsupported_for (policy : RoutingPolicy) (target : option EgressTarget) : Compiled :=
  unsupported_as (Some (Backend.as_str (backend policy))) (target ≫= tg_runtime_version) false.

(** [provider.get("reachable") == Some(false)]. *)
Definition unreachable (provider : Value) : bool :=
  match provider with Object m => match bget "reachable" m with Some (Bool false) => true | _ => false end | _ => false end.

Definition foreign_exit (value : option string) : bool :=
  match value with Some v => is_node_exit v || is_custom_exit v | None => false end.

(** A rule through WARP becomes direct. *)
Definition rule_direct (rule : RoutingRule) : RoutingRule :=
  {| rule_id := rule_id rule; position := position rule; enabled := enabled rule; matcher := matcher rule; action := Action.Direct;
     egress := None; note := note rule; preset := preset rule |}.

Section texts.
Context {FT : FloatText} {SHA : Sha256}.

Definition pretty (value : Value) : string :=
  dumps value {| indent := Some 1%nat; separators := None; sort_keys := true; ensure_ascii := true; numbers := NumPython FloatPython |}.

(** [diff]; [changed_lines] always answers ([DifflibFacts]). *)
Definition doc_diff (before : option Value) (after : Value) : list string :=
  default [] (changed_lines (split_byte line_feed (pretty (default Null before))) (split_byte line_feed (pretty after))).

Definition diff_against (applied : option AppliedDocument) (document : Value) (digest : string) : list string :=
  match applied with
  | Some applied =>
      if is_null (ap_document applied) then if ap_digest applied =?s digest then [] else doc_diff None document
      else doc_diff (Some (ap_document applied)) document
  | None => doc_diff None document
  end.

Definition rollback_of (applied : option AppliedDocument) : option Value :=
  (fun applied => Object [("to_revision", Str (ap_revision applied)); ("to_digest", Str (ap_digest applied))]) <$> applied.

(** ** The router's intent *)

Section lanes.
Context {St : Type}.
(** The egress of the document for an egress of the policy. *)
Context (egress_map : string -> St -> string * St).

Definition map_egress (value : option string) (s : St) : Value * St :=
  match value with Some v => let '(t, s) := egress_map v s in (Str t, s) | None => (Null, s) end.

Definition lane_rule (rule : RoutingRule) (egress : Value) : Value :=
  let m := matcher rule in
  Object ([("domains", strs (suffixes (domains m))); ("geosites", strs (geosites m)); ("cidrs", strs (cidrs m));
           ("geoips", strs (geoips m)); ("ports", Array (map port_value (ports m))); ("action", Str (Action.as_str (action rule)));
           ("egress", egress)]
          ++ if none_of (protocols m) then [] else [("protocols", strs (protocols m))]).

Fixpoint lane_rules (rules : list RoutingRule) (s : St) : list Value * St :=
  match rules with
  | [] => ([], s)
  | rule :: rest =>
      let '(e, s) := map_egress (egress rule) s in
      let '(l, s) := lane_rules rest s in (lane_rule rule e :: l, s)
  end.

Definition lane_body (a : DefaultAction.t) (default_egress : option string) (rules : list RoutingRule) (s : St) : imap Value * St :=
  let '(compiled, s) := lane_rules rules s in
  let '(e, s) := map_egress default_egress s in
  ([("default", Object [("action", Str (DefaultAction.as_str a)); ("egress", e)]); ("rules", Array compiled)], s).
End lanes.

Definition intent_of (a : DefaultAction.t) (rules : list RoutingRule) : Value :=
  let e := match a with DefaultAction.Egress => Some "warp" | DefaultAction.Direct => None end in
  Object (iextend [schema_1] (lane_body (fun value (s : unit) => (value, s)) a e rules tt).1).

Record CheckedLane := {
  ck_lane : string; ck_action : DefaultAction.t; ck_egress : option string; ck_rules : list RoutingRule;
}.

(** [position] of a value in a list it is added to when it is not there. *)
Fixpoint index_of (value : string) (l : list string) : option nat :=
  match l with [] => None | v :: l' => if v =?s value then Some O else S <$> index_of value l' end.
Definition index_push (value : string) (l : list string) : nat * list string :=
  match index_of value l with Some i => (i, l) | None => (length l, l ++ [value]) end.

(** [egress_map] of [intent_v2] over the node exits and the custom exits met so far. *)
Definition intent_egress (value : string) (s : list string * list string) : string * (list string * list string) :=
  let '(ids, exit_ids) := s in
  if is_custom_exit value then
    let '(i, exit_ids) := index_push value exit_ids in ("exit:e" +:+ fmt_nat (i + 1), (ids, exit_ids))
  else if negb (is_node_exit value) then (value, s)
  else let '(i, ids) := index_push value ids in ("chain:c" +:+ fmt_nat (i + 1), (ids, exit_ids)).

Definition lane_key (protocol : string) (lane : string) : string := if lane =?s LANE_SERVICE then "svc:" +:+ protocol else lane.

Fixpoint rendered_lanes (protocol : string) (lanes : list CheckedLane) (out : imap Value) (s : list string * list string)
  : imap Value * (list string * list string) :=
  match lanes with
  | [] => (out, s)
  | l :: rest =>
      let '(body, s) := lane_body intent_egress (ck_action l) (ck_egress l) (ck_rules l) s in
      rendered_lanes protocol rest (iset (lane_key protocol (ck_lane l)) (Object body) out) s
  end.

(** [lookup]: the spec of the first pair with this name. *)
Definition lookup_pair (pairs : list (string * Value)) (value : string) : Value :=
  match List.find (fun e => e.1 =?s value) pairs with Some e => e.2 | None => Null end.
(** [c1], [c2], ... with the spec of each. *)
Fixpoint number_from (i : nat) (prefix : string) (pairs : list (string * Value)) (ids : list string) : imap Value :=
  match ids with [] => [] | value :: rest => (prefix +:+ fmt_nat i, lookup_pair pairs value) :: number_from (S i) prefix pairs rest end.
Definition numbered (prefix : string) (pairs : list (string * Value)) (ids : list string) : imap Value :=
  icollect (number_from 1 prefix pairs ids).

Definition intent_v2 (protocol : string) (lanes : list CheckedLane) (chains exits : list (string * Value)) : Value :=
  let '(rendered, (ids, exit_ids)) := rendered_lanes protocol lanes [] ([], []) in
  Object ([("schema", json_int 2); ("lanes", Object rendered); ("chains", Object (numbered "c" chains ids))]
          ++ match exit_ids with [] => [] | _ => [("exits", Object (numbered "e" exits exit_ids))] end).

Record ChainHop := {
  hop_guid : string; hop_address : string; hop_port : Z; server_name : string; public_key : string; short_id : string;
  uuid_direct : string; uuid_warp : option string;
}.

(** ** Compiling *)

Section compile.
Context {E R : Type}.
Abbreviation Failure := (RoutingFailure E).
(** A lookup over the state of the service: an answer, or the reason it cannot be used. *)
Abbreviation Lookup A := (R -> result Failure (result Reason A) * R).

(** What the compiler collects over the lanes, and the service it asks. *)
Record Collect := {
  c_reasons : list Reason; c_warnings : list string; c_chains : list (string * Value); c_exits : list (string * Value); world : R;
}.
Abbreviation CM := (Eff Failure Collect).

Definition push_reason (r : Reason) (c : Collect) : Collect :=
  {| c_reasons := c_reasons c ++ [r]; c_warnings := c_warnings c; c_chains := c_chains c; c_exits := c_exits c; world := world c |}.
Definition push_warning (w : string) (c : Collect) : Collect :=
  {| c_reasons := c_reasons c; c_warnings := c_warnings c ++ [w]; c_chains := c_chains c; c_exits := c_exits c; world := world c |}.
Definition push_chain (e : string * Value) (c : Collect) : Collect :=
  {| c_reasons := c_reasons c; c_warnings := c_warnings c; c_chains := c_chains c ++ [e]; c_exits := c_exits c; world := world c |}.
Definition push_exit (e : string * Value) (c : Collect) : Collect :=
  {| c_reasons := c_reasons c; c_warnings := c_warnings c; c_chains := c_chains c; c_exits := c_exits c ++ [e]; world := world c |}.
Definition set_world (w : R) (c : Collect) : Collect :=
  {| c_reasons := c_reasons c; c_warnings := c_warnings c; c_chains := c_chains c; c_exits := c_exits c; world := w |}.

Definition ask {A} (lookup : Lookup A) : CM (result Reason A) :=
  fun c => let '(r, w) := lookup (world c) in (r, set_world w c).
Definition because_of (r : Reason) : CM unit := update (push_reason r).
Definition nothing : CM unit := mret tt.

(** The keyword arguments of [compile]. *)
Record Options := {
  old_node : bool;
  router : option RouterTarget;
  lanes : list RoutingPolicy;
  chains : option (string -> Lookup ChainHop);
  own_guids : list string;
  exits : option (string -> Lookup Value);
}.

Definition hop_value (guid uuid : string) (h : ChainHop) : Value :=
  Object [("guid", Str guid); ("address", Str (hop_address h)); ("port", json_int (hop_port h)); ("server_name", Str (server_name h));
          ("public_key", Str (public_key h)); ("short_id", Str (short_id h)); ("uuid", Str uuid)].

(** The hops of a chain in order; the last one's account is the one its exit needs. *)
Fixpoint resolve_hops (resolve : string -> Lookup ChainHop) (via : option string) (guids : list string) : CM (result Reason (list Value)) :=
  match guids with
  | [] => mret (Ok [])
  | guid :: rest =>
      found ← ask (resolve guid);
      match found with
      | Err r => mret (Err r)
      | Ok found =>
          let uuid := if none_of rest && bool_decide (via = Some "warp") then uuid_warp found else Some (uuid_direct found) in
          match uuid with
          | None => mret (Err (reason "relay_no_warp" None ("node " +:+ guid +:+ " has no relay account for its warp")))
          | Some uuid =>
              hops ← resolve_hops resolve via rest;
              mret (hops ← hops; Ok (hop_value guid uuid found :: hops))
          end
      end
  end.

Definition resolve_chain (value : string) (resolve : string -> Lookup ChainHop) (own : list string) : CM (result Reason Value) :=
  let '(guids, via) := exit_hops (Some value) in
  if existsb (fun guid => mem_str guid own) guids
  then mret (Err (reason "chain_loop" None "a chain cannot pass through this node"))
  else
    hops ← resolve_hops resolve via guids;
    mret (hops ← hops; Ok (Object [("hops", Array hops); ("exit", opt_str via)])).

(** [with_rule]. *)
Definition with_rule (r : Reason) (rule : option string) : Reason := reason (code r) rule (message r).

Section lane.
Context (rt : RouterTarget) (resolver : option (string -> Lookup ChainHop)) (own : list string) (exit_resolver : option (string -> Lookup Value)).

Definition private_reason (rule : option string) : Reason :=
  reason "private_destination" rule "loopback, link-local and private networks may only be blocked".

Definition check_rule (rule : RoutingRule) : CM unit :=
  match missing_cells (router_needed rule) (rt_capabilities rt) with
  | [] => if negb (is_block (action rule)) && private rule then because_of (private_reason (rule_id rule)) else nothing
  | missing => because_of (reason "backend_capability_missing" (rule_id rule) ("xray_router lacks " +:+ join ", " missing))
  end.

(** One egress of the lane: a custom exit or a chain is resolved the first time it is named. *)
Definition check_egress (e : option string * option string) : CM unit :=
  match e with
  | (_, None) => nothing
  | (rule, Some value) =>
      exits ← inspect c_exits;
      chains ← inspect c_chains;
      if is_custom_exit value then
        if existsb (fun e => e.1 =?s value) exits then nothing else
        match (if mem_str "custom_exits" (rt_capabilities rt) then exit_resolver else None) with
        | None => because_of (reason "backend_capability_missing" rule "the node's router does not run custom exits (update the node)")
        | Some resolve =>
            spec ← ask (resolve (drop_s 5 value));
            match spec with Ok spec => update (push_exit (value, spec)) | Err r => because_of (with_rule r rule) end
        end
      else if negb (is_node_exit value) || existsb (fun e => e.1 =?s value) chains then nothing
      else
        match resolver with
        | None => raise (Internal "no chain resolver for a node exit")
        | Some resolve =>
            chain ← resolve_chain value resolve own;
            match chain with Ok chain => update (push_chain (value, chain)) | Err r => because_of (with_rule r rule) end
        end
  end.

Definition is_warp (e : option string) : bool := bool_decide (e = Some "warp").

(** This node's own WARP: the lane's default and rules as they can be run. *)
Definition check_warp (policy : RoutingPolicy) (rules : list RoutingRule) : CM CheckedLane :=
  let i := intent policy in
  let lane a e rules := {| ck_lane := lane policy; ck_action := a; ck_egress := e; ck_rules := rules |} in
  let as_is := lane (default_action i) (default_egress i) rules in
  if negb (is_warp (default_egress i) || existsb (fun rule => is_warp (egress rule)) rules) then mret as_is else
  match bget "warp" (rt_providers rt) with
  | None => _ ← because_of (reason "provider_unavailable" None "the node's router has no warp egress configured"); mret as_is
  | Some provider =>
      if negb (unreachable provider) then mret as_is else
      match fallback i with
      | Fallback.ApprovedDirect =>
          _ ← update (push_warning "provider_unreachable");
          let '(a, e) := if is_warp (default_egress i) then (DefaultAction.Direct, None) else (default_action i, default_egress i) in
          mret (lane a e (map (fun rule => if is_warp (egress rule) then rule_direct rule else rule) rules))
      | Fallback.FailClosed =>
          _ ← because_of (reason "provider_unreachable" None "warp does not answer on the node; the policy stays fail-closed");
          mret as_is
      end
  end.

Definition whole_cell (a : DefaultAction.t) : string :=
  match a with DefaultAction.Egress => "whole_warp" | DefaultAction.Direct => "whole_direct" end.

Definition check_lane (policy : RoutingPolicy) : CM CheckedLane :=
  let rules := enabled_rules policy in
  let i := intent policy in
  let whole := whole_cell (default_action i) in
  _ ← (if mem_str whole (rt_capabilities rt) then nothing
       else because_of (reason "backend_capability_missing" None ("xray_router lacks " +:+ whole)));
  _ ← each check_rule rules;
  _ ← each check_egress ((None, default_egress i) :: map (fun rule => (rule_id rule, egress rule)) rules);
  check_warp policy rules.
End lane.

Definition is_service (p : RoutingPolicy) : bool := lane p =?s LANE_SERVICE.
Definition is_direct (a : DefaultAction.t) : bool := match a with DefaultAction.Direct => true | _ => false end.

(** The policies of the service, its own lane first. *)
Definition lanes_of (policy : RoutingPolicy) (others : list RoutingPolicy) : list RoutingPolicy * list RoutingPolicy :=
  let every := policy :: List.filter (fun other => negb (id_ other =?s id_ policy)) others in
  (List.filter is_service every, List.filter (fun p => negb (is_service p)) every).

(** [checked[0]]. *)
Definition first_lane (checked : list CheckedLane) : Eff Failure R (option CheckedLane) :=
  match checked with first :: _ => mret (Some first) | [] => raise Panicked end.

Definition compile_intent (policy : RoutingPolicy) (rt : RouterTarget) (o : Options) (warnings : list string) (own : list string)
  : Eff Failure R Compiled := fun w =>
  let unsupported := unsupported_as (Some "xray_router") (xray_version rt) true in
  let '(service, grants) := lanes_of policy (lanes o) in
  let start := {| c_reasons := []; c_warnings := warnings; c_chains := []; c_exits := []; world := w |} in
  match collect (check_lane rt (chains o) own (exits o)) (service ++ grants) start with
  | (Err e, c) => (Err e, world c)
  | (Ok checked, c) =>
      match c_reasons c with
      | _ :: _ => (Ok (refuse unsupported (c_reasons c) (c_warnings c)), world c)
      | [] =>
          let schema_2 := negb (none_of grants && none_of (c_chains c) && none_of (c_exits c)) in
          let finish (first : option CheckedLane) : Eff Failure R Compiled :=
            let document := match first with
              | None => intent_v2 (Protocol.as_str (protocol policy)) checked (c_chains c) (c_exits c)
              | Some first => intent_of (ck_action first) (ck_rules first)
              end in
            let limit := if schema_2 then MAX_DOCUMENT_BYTES_V2 else MAX_DOCUMENT_BYTES in
            if (limit <? N.of_nat (String.length (doc_canonical document)))%N
            then mret (refuse unsupported [reason "document_too_large" None
                   ("the compiled document exceeds " +:+ fmt_N (limit / 1024) +:+ " KiB")] (c_warnings c))
            else
              let warnings := c_warnings c
                ++ match first with
                   | Some first => if is_direct (ck_action first) && none_of (ck_rules first) then ["policy_empty"] else []
                   | None => []
                   end in
              let digest := document_digest document in
              mret {| status := CompileStatus.Supported; reasons := []; warnings := warnings; document := Some document;
                      digest := Some digest; diff := diff_against (rt_applied rt) document digest; restart_required := true;
                      rollback := rollback_of (rt_applied rt); compiler_version := COMPILER_VERSION;
                      compiled_backend := Some "xray_router"; runtime_version := xray_version rt;
                      attach := attach_document (Protocol.as_str (protocol policy)) |} in
          ((if schema_2 then mret None else first_lane checked) ≫= finish) (world c)
      end
  end.

(** What MTProxy's traffic can never match on the router, and its lanes. *)
Definition mtproxy_rule (rule : RoutingRule) : list Reason :=
  let m := matcher rule in
  if enabled rule && negb (none_of (domains m) && none_of (geosites m) && none_of (protocols m))
  then [reason "rule_kind_unsupported" (rule_id rule)
          "MTProxy connects to Telegram data centres by address: match it by CIDR, geoip or port, not by domain, geosite or protocol"]
  else [].
Definition mtproxy_rules (policy : RoutingPolicy) (others : list RoutingPolicy) : list Reason :=
  concat (map (fun other =>
    if negb (is_service other)
    then [reason "rule_kind_unsupported" None "MTProxy has no client lanes: Telemt cannot tell its users apart upstream"]
    else concat (map mtproxy_rule (rules (intent other)))) (policy :: others)).

(** A document a native backend runs. *)
Definition supported (target : EgressTarget) (document : Value) (warnings : list string) (restart : bool) : Compiled :=
  let digest := document_digest document in
  {| status := CompileStatus.Supported; reasons := []; warnings := warnings; document := Some document; digest := Some digest;
     diff := diff_against (tg_applied target) document digest; restart_required := restart; rollback := rollback_of (tg_applied target);
     compiler_version := COMPILER_VERSION; compiled_backend := Some (Backend.as_str (tg_backend target));
     runtime_version := tg_runtime_version target; attach := None |}.

Definition compile_direct_only (policy : RoutingPolicy) (target : EgressTarget) (unsupported : Compiled) : Compiled :=
  if negb (is_direct (default_action (intent policy))) || existsb enabled (rules (intent policy)) then
    let name := match tg_backend target with Backend.TrusttunnelNative => "TrustTunnel" | _ => "MTProxy" end in
    refuse unsupported (reasons unsupported ++ [reason "not_attached" None
      (name +:+ " is routed only through the node's Xray-router: attach it first")]) (tg_warnings target)
  else supported target (direct_document (tg_backend target)) (tg_warnings target ++ ["policy_empty"]) false.

(** The reasons one rule gives on a native backend. *)
Definition native_rule (target : EgressTarget) (a : DefaultAction.t) (rule : RoutingRule) : list Reason :=
  let m := matcher rule in
  let id := rule_id rule in
  if foreign_exit (egress rule) then
    [reason "rule_kind_unsupported" id "an exit through another node or a custom outbound is enforced only by xray_router"]
  else if negb (none_of (ports m) && none_of (geosites m) && none_of (geoips m) && none_of (protocols m)) then
    [reason "rule_kind_unsupported" id "matching by port, geosite, geoip or protocol is enforced only by xray_router"]
  else
    match missing_cells (native_needed rule) (tg_capabilities target) with
    | [] =>
        if negb (is_block (action rule)) && private rule then [private_reason id]
        else if bool_decide (tg_backend target = Backend.NaiveNative) && is_block (action rule) && negb (is_direct a) then
          [reason "rule_kind_unsupported" id
             "forwardproxy does not enforce a block beside an upstream: naive_native cannot block while the whole service goes through warp"]
        else []
    | missing => [reason "backend_capability_missing" id (Backend.as_str (tg_backend target) +:+ " lacks " +:+ join ", " missing)]
    end.

Definition is_egress (rule : RoutingRule) : bool := match action rule with Action.Egress => true | _ => false end.

(** WARP on the node: reasons, warnings, and the default and rules as they can be run. *)
Definition native_warp (target : EgressTarget) (i : Intent) (rules : list RoutingRule)
  : list Reason * list string * DefaultAction.t * list RoutingRule :=
  let a := default_action i in
  if negb (negb (is_direct a) || existsb is_egress rules) then ([], [], a, rules) else
  match bget "warp" (tg_providers target) with
  | None => ([reason "provider_unavailable" None "the node has no warp egress configured"], [], a, rules)
  | Some provider =>
      if negb (unreachable provider) then ([], [], a, rules) else
      match fallback i with
      | Fallback.ApprovedDirect =>
          ([], ["provider_unreachable"], DefaultAction.Direct, map (fun rule => if is_egress rule then rule_direct rule else rule) rules)
      | Fallback.FailClosed =>
          ([reason "provider_unreachable" None "warp does not answer on the node; the policy stays fail-closed"], [], a, rules)
      end
  end.

Definition native_document (b : Backend.t) (a : DefaultAction.t) (rules : list RoutingRule) : Value :=
  match b with
  | Backend.AmneziawgNative => amneziawg_document a
  | Backend.NaiveNative => naive_document a rules
  | _ => mieru_document a rules
  end.

(** [compile] for a policy that its native manager runs. *)
Definition compile_native (policy : RoutingPolicy) (target : EgressTarget) (unsupported : Compiled) : Compiled :=
  let i := intent policy in
  let rules := enabled_rules policy in
  let whole := whole_cell (default_action i) in
  let whole_reasons := if mem_str whole (tg_capabilities target) then []
    else [reason "backend_capability_missing" None (Backend.as_str (tg_backend target) +:+ " lacks " +:+ whole)] in
  let '(amnezia_reasons, rules) :=
    match bool_decide (tg_backend target = Backend.AmneziawgNative), rules with
    | true, first :: _ => ([reason "rule_kind_unsupported" (rule_id first) AMNEZIAWG_WHOLE_ONLY], [])
    | _, _ => ([], rules)
    end in
  let exit_reasons := if foreign_exit (default_egress i)
    then [reason "rule_kind_unsupported" None "an exit through another node or a custom outbound is enforced only by xray_router"] else [] in
  let rule_reasons := concat (map (native_rule target (default_action i)) rules) in
  let '(warp_reasons, warp_warnings, a, rules) := native_warp target i rules in
  let all := whole_reasons ++ amnezia_reasons ++ exit_reasons ++ rule_reasons ++ warp_reasons in
  let warnings := tg_warnings target ++ warp_warnings in
  match all with
  | _ :: _ => refuse unsupported all warnings
  | [] =>
      let document := native_document (tg_backend target) a rules in
      if (MAX_DOCUMENT_BYTES <? N.of_nat (String.length (doc_canonical document)))%N
      then refuse unsupported [reason "document_too_large" None "the compiled document exceeds 16 KiB"] warnings
      else supported target document (warnings ++ if is_direct a && none_of rules then ["policy_empty"] else []) (tg_restart_required target)
  end.

(** [compile] for a policy that the router runs. *)
Definition compile_router (policy : RoutingPolicy) (target : EgressTarget) (o : Options) (is_lane : bool) (unsupported : Compiled)
  : Eff Failure R Compiled :=
  match router o with
  | Some rt =>
      if negb (available rt) then
        let code := match rt_reason rt with None => "router_unavailable" | Some other => other end in
        mret (because unsupported (reason code None "the node has no Xray-router to run this policy"))
      else if negb (router_attached target) then
        mret (because unsupported (reason (if is_lane then "lane_not_attached" else "not_attached") None
          (Protocol.as_str (protocol policy) +:+ " is not attached to the node's Xray-router")))
      else
        match (if bool_decide (protocol policy = Protocol.Mtproxy) then mtproxy_rules policy (lanes o) else []) with
        | (_ :: _) as reasons => mret (refuse unsupported reasons (warnings unsupported))
        | [] => compile_intent policy rt o (tg_warnings target) (match own_guids o with [] => ["local"] | own => own end)
        end
  | None => mret (because unsupported (reason "router_unavailable" None "the node has no Xray-router to run this policy"))
  end.

Definition compile (policy : RoutingPolicy) (target : option EgressTarget) (o : Options) : Eff Failure R Compiled :=
  let unsupported := unsupported_for policy target in
  let no code message := mret (because unsupported (reason code None message)) in
  let proto := Protocol.as_str (protocol policy) in
  match backend_for proto, old_node o, target with
  | None, _, _ => no "protocol_out_of_scope" (proto +:+ " has no egress")
  | _, true, _ => no "node_lacks_egress_v1" "the node's panel does not support egress policies — update it"
  | _, _, None => no "protocol_disabled_on_node" (proto +:+ " reports no egress target on this node")
  | _, _, Some target =>
      let is_lane := negb (is_service policy) || existsb (fun other => negb (is_service other)) (lanes o) in
      let router_up := match router o with Some rt => available rt | None => false end in
      if is_lane && bool_decide (protocol policy = Protocol.Amneziawg) then no "lanes_unsupported" LANES_UNSUPPORTED_AMNEZIAWG
      else if is_lane && bool_decide (protocol policy = Protocol.Trusttunnel) then no "lanes_unsupported" LANES_UNSUPPORTED_TRUSTTUNNEL
      else if is_lane && negb router_up then no "lane_requires_router" "a client lane runs only on the node's Xray-router"
      else if bool_decide (backend policy = Backend.XrayRouter) then compile_router policy target o is_lane unsupported
      else if is_lane then no "lane_requires_router" "a client lane runs only on the node's Xray-router"
      else if negb (bool_decide (backend policy = tg_backend target)) then
        no "backend_capability_missing" ("the node runs " +:+ Backend.as_str (tg_backend target) +:+ ", the policy targets "
                                         +:+ Backend.as_str (backend policy))
      else if router_attached target then
        no "backend_capability_missing" (proto +:+ " is attached to the node's Xray-router: the policy must target xray_router")
      else
        match tg_backend target with
        | Backend.MtproxyNative | Backend.TrusttunnelNative => mret (compile_direct_only policy target unsupported)
        | _ => mret (compile_native policy target unsupported)
        end
  end.
End compile.
End texts.

(** ** Explaining a destination *)

Section explain.
Context {UT : UnicodeText}.

Definition port_in (port : Z) (item : Port) : bool :=
  match item with
  | One value => (value =? port)%Z
  | Range range =>
      let '(low, high) := default (range, range) (split_once "-"%char range) in
      let low := default i64_max (parse_i64 low) in
      let high := default i64_min (parse_i64 high) in
      ((low <=? port) && (port <=? high))%Z
  end.
Definition port_matches (ports : list Port) (port : Z) : bool := existsb (port_in port) ports.

Definition domain_hits (lowered domain : string) : bool :=
  let suffix := suffix_of domain in (lowered =?s suffix) || ends_with ("." +:+ suffix) lowered.
Definition cidr_hits (address : IpAddress) (cidr : string) : bool :=
  match net_parse cidr with Some network => net_contains network address | None => false end.

(** [None]: only geodata or the sniffed protocol could say. *)
Definition destination_matches (rule : RoutingRule) (host : string) (port : Z) : option bool :=
  let m := matcher rule in
  if negb (none_of (ports m)) && negb (port_matches (ports m) port) then Some false else
  let lowered := trim_end_byte "."%char (to_lowercase host) in
  let hit := existsb (domain_hits lowered) (domains m)
             || match py_ip_address host with Some address => existsb (cidr_hits address) (cidrs m) | None => false end in
  if hit then Some true
  else if negb (none_of (geosites m) && none_of (geoips m) && none_of (protocols m)) then None
  else if none_of (domains m) && none_of (cidrs m) then Some true
  else Some false.

(** The first rule that decides, and the rules before it that only geodata could match. *)
Fixpoint first_decider (rules : list RoutingRule) (host : string) (port : Z) : list string * option RoutingRule :=
  match rules with
  | [] => ([], None)
  | rule :: rest =>
      match destination_matches rule host port with
      | None => let '(uncertain, winner) := first_decider rest host port in (default EmptyString (rule_id rule) :: uncertain, winner)
      | Some true => ([], Some rule)
      | Some false => first_decider rest host port
      end
  end.

Definition explain (policy : RoutingPolicy) (host : string) (port : Z) : imap Value :=
  let '(uncertain, winner) := first_decider (enabled_rules policy) host port in
  let '(action, value) :=
    match winner with
    | Some rule => (Action.as_str (action rule), egress rule)
    | None => (DefaultAction.as_str (default_action (intent policy)), default_egress (intent policy))
    end in
  let '(hops, via) := exit_hops value in
  [("lane", Str (lane policy)); ("rule_id", opt_str (winner ≫= rule_id)); ("action", Str action); ("exit", opt_str value);
   ("hops", strs hops); ("via", opt_str via); ("uncertain", strs uncertain)].
End explain.
