(* ===== verification/RoutingLaneFacts.v ===== *)
(** * What the router's compilation establishes

    Reasons only accumulate, so a compilation without any says that every check passed: no selected
    private network, every chain and custom exit of a lane resolved, WARP answered or was dropped with
    the operator's approval. *)

From S2P Require Import Prelude BTree Utf8 Numeric Json PyText IndexMap Plan IpAddr PyIp Difflib Effect.
From S2P Require Import RoutingNet RoutingModel RoutingDocument RoutingCompiler.

Section lanes.
Context {E R : Type}.
Abbreviation CM := (Eff (RoutingFailure E) (Collect (R := R))).
Abbreviation Collected := (Collect (R := R)).
Implicit Types c d : Collected.

(** ** What only grows *)

Definition grows c d : Prop :=
  c_reasons c `prefix_of` c_reasons d /\ c_chains c `prefix_of` c_chains d /\ c_exits c `prefix_of` c_exits d.

#[global] Instance grows_preorder : PreOrder grows.
Proof.
  split; [intros c; done|]. intros a b c (H1 & H2 & H3) (G1 & G2 & G3).
  split; [by etrans|split; by etrans].
Qed.

Lemma grows_trans c d x : grows c d -> grows d x -> grows c x.
Proof. apply transitivity. Qed.

Lemma grows_silent c d : grows c d -> c_reasons d = [] -> c_reasons c = [].
Proof. intros (H & _) Hd. rewrite Hd in H. by apply prefix_nil_inv in H. Qed.

Lemma grows_reason r c : grows c (push_reason r c).
Proof. split; [by exists [r]|done]. Qed.
Lemma grows_world w c : grows c (set_world w c).
Proof. done. Qed.

Ltac grown :=
  match goal with
  | |- keeps _ (mbind _ _) => apply keeps_bind_eff; [exact grows_trans| |intros ?]
  | |- keeps _ (match ?x with _ => _ end) => destruct x
  | |- keeps _ (because_of _) => intros ?; apply grows_reason
  | |- keeps _ (ask ?l) => intros ?; unfold ask; destruct (l _); apply grows_world
  | |- keeps _ (mret _) => by apply keeps_ret_eff
  | |- keeps _ nothing => by apply keeps_ret_eff
  | |- keeps _ (raise _) => by intros ?
  | |- keeps _ (inspect _) => by intros ?
  | |- keeps _ (update (push_warning _)) => by intros ?
  | |- keeps _ (update (push_exit ?e)) => intros ?; split; [done|split; [done|by exists [e]]]
  | |- keeps _ (update (push_chain ?e)) => intros ?; split; [done|split; [by exists [e]|done]]
  | |- keeps _ (each _ _) => apply keeps_each; [done|exact grows_trans|intros ?]
  | |- keeps _ (let _ := _ in _) => cbv zeta
  end.

Lemma resolve_hops_grows resolve via guids : keeps grows (resolve_hops (E := E) (R := R) resolve via guids).
Proof. induction guids as [|g l IH]; simpl; repeat grown; apply IH. Qed.
Lemma resolve_chain_grows value resolve own : keeps grows (resolve_chain (E := E) (R := R) value resolve own).
Proof. unfold resolve_chain. repeat grown. apply resolve_hops_grows. Qed.

Section lane.
Context (rt : RouterTarget).
Context (resolver : option (string -> R -> result (RoutingFailure E) (result Reason ChainHop) * R)) (own : list string).
Context (exit_resolver : option (string -> R -> result (RoutingFailure E) (result Reason Value) * R)).

Lemma check_rule_grows rule : keeps grows (check_rule (E := E) (R := R) rt rule).
Proof. unfold check_rule. repeat grown. Qed.
Lemma check_egress_grows e : keeps grows (check_egress rt resolver own exit_resolver e).
Proof. unfold check_egress. repeat grown. apply resolve_chain_grows. Qed.
Lemma check_warp_grows p rules : keeps grows (check_warp (E := E) (R := R) rt p rules).
Proof. unfold check_warp. repeat grown. Qed.
Lemma check_lane_grows p : keeps grows (check_lane rt resolver own exit_resolver p).
Proof. unfold check_lane. repeat grown; auto using check_rule_grows, check_egress_grows, check_warp_grows. Qed.

(** ** What a run without a reason says *)

(** [m] from [c] answers [a] in [d] without a reason. *)
Definition clean {A} (m : CM A) c (a : A) d : Prop := m c = (Ok a, d) /\ c_reasons d = [].

Lemma clean_bind {A B} (m : CM A) (f : A -> CM B) c b d : (forall a, keeps grows (f a)) -> clean (m ≫= f) c b d ->
  exists a x, clean m c a x /\ clean (f a) x b d.
Proof.
  intros Hf [Hr Hd]. unfold mbind, Eff_bind in Hr. destruct (m c) as [[a|e] x] eqn:Hm; [|done]. exists a, x.
  split; [split; [done|]|done]. eapply grows_silent; [|exact Hd]. specialize (Hf a x). by rewrite Hr in Hf.
Qed.

Lemma clean_ret {A} (a b : A) c d : clean (mret a) c b d -> a = b /\ c = d.
Proof. by intros [[= <- <-] _]. Qed.
Lemma clean_nothing u c d : clean nothing c u d -> c = d.
Proof. by intros [[= <- <-] _]. Qed.
Lemma clean_update f c u d : clean (update f) c u d -> d = f c.
Proof. by intros [[= <- <-] _]. Qed.

Lemma clean_grows {A} (m : CM A) c a d : keeps grows m -> clean m c a d -> grows c d.
Proof. intros Hm [Hr _]. specialize (Hm c). by rewrite Hr in Hm. Qed.

Lemma clean_each {A} (f : A -> CM unit) l (P : A -> Prop) : (forall a, keeps grows (f a)) ->
  (forall a c d, clean (f a) c tt d -> P a) -> forall c d, clean (each f l) c tt d -> forall a, a ∈ l -> P a.
Proof.
  intros Hf HP. induction l as [|x l IH]; intros c d Hc a Ha; [by apply not_elem_of_nil in Ha|]. cbn [each] in Hc.
  apply clean_bind in Hc as ([] & s & H1 & H2). 2:{ intros _. apply keeps_each; [done|exact grows_trans|exact Hf]. }
  apply elem_of_cons in Ha as [->|Ha]; [by eapply HP|by eapply IH].
Qed.

(** A rule that may be compiled: it is blocked or selects nothing private. *)
Definition public_rule (rule : RoutingRule) : Prop := is_block (action rule) = true \/ private rule = false.

Lemma because_clean r c d : ~ clean (because_of r) c tt d.
Proof. intros [Hr Hd]. unfold because_of, update in Hr. injection Hr as <-. simpl in Hd. by destruct (c_reasons c). Qed.

Lemma check_rule_clean rule c d : clean (check_rule rt rule) c tt d -> public_rule rule.
Proof.
  unfold check_rule, public_rule. destruct (missing_cells _ _); [|by intros ?%because_clean].
  destruct (is_block _); [by left|]. destruct (private rule); [by intros ?%because_clean|by right].
Qed.

(** ** Resolved egresses *)

(** A pair the compiler collected: the service resolved the chain, or the exit. *)
Definition resolved_chain (e : string * Value) : Prop :=
  exists resolve c d, resolver = Some resolve /\ resolve_chain e.1 resolve own c = (Ok (Ok e.2), d).
Definition resolved_exit (e : string * Value) : Prop :=
  exists resolve c d, exit_resolver = Some resolve /\ ask (resolve (drop_s 5 e.1)) c = (Ok (Ok e.2), d).

Definition all_resolved c : Prop := Forall resolved_chain (c_chains c) /\ Forall resolved_exit (c_exits c).

(** The pairs have what the value refers to. *)
Definition covered c (value : string) : Prop :=
  (is_custom_exit value = true -> value ∈ map fst (c_exits c)) /\
  (is_custom_exit value = false -> is_node_exit value = true -> value ∈ map fst (c_chains c)).

Lemma covered_grows c d value : grows c d -> covered c value -> covered d value.
Proof.
  intros (_ & [l Hl] & [k Hk]) [H1 H2]. split; intros; rewrite ?Hl, ?Hk, map_app; apply elem_of_app; left; auto.
Qed.

Lemma known_pair (value : string) (pairs : list (string * Value)) : existsb (fun e => e.1 =?s value) pairs = true -> value ∈ map fst pairs.
Proof. intros (e & He & <-%eqb_s_true)%existsb_exists. by apply list_elem_of_In, in_map. Qed.

Lemma check_egress_clean rule value c d : clean (check_egress rt resolver own exit_resolver (rule, Some value)) c tt d -> covered d value.
Proof.
  unfold check_egress, covered. intros Hc.
  apply clean_bind in Hc as (exits & x & [[= <- <-] _] & Hc). 2:{ intros a. repeat grown. apply resolve_chain_grows. }
  apply clean_bind in Hc as (chains & x & [[= <- <-] _] & Hc). 2:{ intros a. repeat grown. apply resolve_chain_grows. }
  destruct (is_custom_exit value) eqn:Hx.
  - split; [intros _|done]. destruct (existsb _ (c_exits c)) eqn:Hk; [apply clean_nothing in Hc as <-; by apply known_pair|].
    destruct (if mem_str _ _ then _ else _) as [resolve|]; [|by apply because_clean in Hc].
    apply clean_bind in Hc as ([] & x & _ & Hc); [..|intros a; repeat grown].
    + apply clean_update in Hc as ->. simpl. rewrite map_app. apply elem_of_app. right. by left.
    + by apply because_clean in Hc.
  - split; [done|intros _ Hn]. rewrite Hn in Hc. simpl in Hc.
    destruct (existsb _ (c_chains c)) eqn:Hk; [apply clean_nothing in Hc as <-; by apply known_pair|].
    destruct resolver as [resolve|]; [|by destruct Hc]. apply clean_bind in Hc as ([] & x & _ & Hc); [..|intros a; repeat grown].
    + apply clean_update in Hc as ->. simpl. rewrite map_app. apply elem_of_app. right. by left.
    + by apply because_clean in Hc.
Qed.

(** What does not touch the pairs. *)
Definition same_pairs c d : Prop := c_chains c = c_chains d /\ c_exits c = c_exits d.
#[local] Instance same_pairs_preorder : PreOrder same_pairs.
Proof. split; [done|]. intros a b c [H1 H2] [G1 G2]. split; congruence. Qed.
Lemma same_pairs_trans c d x : same_pairs c d -> same_pairs d x -> same_pairs c x.
Proof. apply transitivity. Qed.

Lemma ask_pairs {A} (l : R -> result (RoutingFailure E) (result Reason A) * R) : keeps same_pairs (ask l).
Proof. intros c. unfold ask. by destruct (l _). Qed.
Lemma resolve_hops_pairs resolve via guids : keeps same_pairs (resolve_hops (E := E) (R := R) resolve via guids).
Proof.
  induction guids as [|g l IH]; simpl; [done|]. apply keeps_bind_eff; [exact same_pairs_trans|apply ask_pairs|]. intros [found|r]; [|done].
  destruct (if (_ && _)%bool then _ else _); [|done]. apply keeps_bind_eff; [exact same_pairs_trans|done|done].
Qed.
Lemma resolve_chain_pairs value resolve : keeps same_pairs (resolve_chain (E := E) (R := R) value resolve own).
Proof.
  unfold resolve_chain. destruct (exit_hops _). destruct (existsb _ _); [done|].
  apply keeps_bind_eff; [exact same_pairs_trans|apply resolve_hops_pairs|done].
Qed.
Lemma check_rule_pairs rule : keeps same_pairs (check_rule (E := E) (R := R) rt rule).
Proof. unfold check_rule. destruct (missing_cells _ _); [|done]. by destruct (_ && _). Qed.
Lemma check_warp_pairs p rules : keeps same_pairs (check_warp (E := E) (R := R) rt p rules).
Proof.
  unfold check_warp. cbv zeta. destruct (negb _); [done|]. destruct (bget _ _) as [v|]; [|done]. destruct (negb _); [done|].
  destruct (fallback _); [done|]. apply keeps_bind_eff; [exact same_pairs_trans|done|]. intros _. by destruct (is_warp _).
Qed.

Lemma all_resolved_same c d : same_pairs c d -> all_resolved c -> all_resolved d.
Proof. unfold all_resolved. by intros [-> ->]. Qed.

Lemma check_egress_resolved e c d : clean (check_egress rt resolver own exit_resolver e) c tt d -> all_resolved c -> all_resolved d.
Proof.
  destruct e as [rule [value|]]; cbn [check_egress]; [|by intros ->%clean_nothing].
  intros Hc Ha. apply clean_bind in Hc as (exits & x & [[= <- <-] _] & Hc). 2:{ intros a. repeat grown. apply resolve_chain_grows. }
  apply clean_bind in Hc as (chains & x & [[= <- <-] _] & Hc). 2:{ intros a. repeat grown. apply resolve_chain_grows. }
  destruct (is_custom_exit value).
  - destruct (existsb _ _); [by apply clean_nothing in Hc as <-|].
    destruct (if mem_str _ _ then exit_resolver else _) as [resolve|] eqn:Hx; [|by apply because_clean in Hc].
    apply clean_bind in Hc as ([spec|r] & x & [Hm _] & Hc); [..|intros a; repeat grown]; [|by apply because_clean in Hc].
    apply clean_update in Hc as ->. pose proof (ask_pairs (resolve (drop_s 5 value)) c) as Hs. rewrite Hm in Hs.
    destruct (all_resolved_same _ _ Hs Ha) as [H1 H2]. split; [done|]. apply Forall_app. split; [done|]. apply Forall_singleton.
    exists resolve, c, x. split; [by destruct (mem_str _ _)|done].
  - destruct (_ || _); [by apply clean_nothing in Hc as <-|]. destruct resolver as [resolve|] eqn:Hx; [|by destruct Hc].
    apply clean_bind in Hc as ([chain|r] & x & [Hm _] & Hc); [..|intros a; repeat grown]; [|by apply because_clean in Hc].
    apply clean_update in Hc as ->. pose proof (resolve_chain_pairs value resolve c) as Hs. rewrite Hm in Hs.
    destruct (all_resolved_same _ _ Hs Ha) as [H1 H2]. split; [|done]. apply Forall_app. split; [done|]. apply Forall_singleton.
    by exists resolve, c, x.
Qed.

Lemma clean_each_step {A} (f : A -> CM unit) l (P : Collected -> Prop) : (forall a, keeps grows (f a)) ->
  (forall a c d, clean (f a) c tt d -> P c -> P d) -> forall c d, clean (each f l) c tt d -> P c -> P d.
Proof.
  intros Hf HP. induction l as [|x l IH]; intros c d Hc Hp; [by apply clean_nothing in Hc as <-|]. cbn [each] in Hc.
  apply clean_bind in Hc as ([] & s & H1 & H2). 2:{ intros _. apply keeps_each; [done|exact grows_trans|exact Hf]. }
  eapply IH; [exact H2|]. by eapply HP.
Qed.

Lemma egresses_covered l c d : clean (each (check_egress rt resolver own exit_resolver) l) c tt d ->
  forall rule value, (rule, Some value) ∈ l -> covered d value.
Proof.
  revert c. induction l as [|e l IH]; intros c Hc rule value Hin; [by apply not_elem_of_nil in Hin|]. cbn [each] in Hc.
  assert (Hg : keeps grows (each (check_egress rt resolver own exit_resolver) l)).
  { apply keeps_each; [done|exact grows_trans|apply check_egress_grows]. }
  apply clean_bind in Hc as ([] & s & H1 & H2); [|by intros _]. apply elem_of_cons in Hin as [<-|Hin]; [|by eapply IH].
  eapply covered_grows; [by eapply clean_grows|by eapply check_egress_clean].
Qed.

(** ** The lanes as they run *)

Definition warp_down : bool := match bget "warp" (rt_providers rt) with Some provider => unreachable provider | None => false end.
Definition rule_as_run (rule : RoutingRule) : RoutingRule := if warp_down && is_warp (egress rule) then rule_direct rule else rule.

(** What a policy is compiled to: an egress through a WARP that does not answer is direct. *)
Definition runs_as (p : RoutingPolicy) : CheckedLane :=
  let i := intent p in
  let down := warp_down && is_warp (default_egress i) in
  {| ck_lane := lane p; ck_action := if down then DefaultAction.Direct else default_action i;
     ck_egress := if down then None else default_egress i; ck_rules := map rule_as_run (enabled_rules p) |}.

(** An egress that is dropped was approved. *)
Definition approved (p : RoutingPolicy) : Prop :=
  is_warp (default_egress (intent p)) = true \/ existsb (fun rule => is_warp (egress rule)) (enabled_rules p) = true ->
  exists provider, bget "warp" (rt_providers rt) = Some provider /\
    (unreachable provider = true -> fallback (intent p) = Fallback.ApprovedDirect).

Lemma no_warp_as_run rules : existsb (fun rule => is_warp (egress rule)) rules = false -> map rule_as_run rules = rules.
Proof.
  induction rules as [|r l IH]; [done|]. cbn [existsb map]. intros [H1 H2]%orb_false_iff.
  unfold rule_as_run at 1. rewrite H1, andb_false_r. by rewrite IH.
Qed.
Lemma warp_up_as_run rules : warp_down = false -> map rule_as_run rules = rules.
Proof. intros H. induction rules as [|r l IH]; [done|]. simpl. rewrite IH. unfold rule_as_run. by rewrite H. Qed.

Lemma check_warp_clean p c cl d : clean (check_warp rt p (enabled_rules p)) c cl d -> cl = runs_as p /\ approved p.
Proof.
  unfold check_warp. cbv zeta. unfold approved, runs_as. cbv zeta.
  destruct (is_warp (default_egress (intent p)) || existsb _ _) eqn:Hu; cbn [negb].
  2:{ apply orb_false_iff in Hu as [H1 H2]. intros [<- _]%clean_ret. rewrite H1, H2, andb_false_r, no_warp_as_run by done. by split; [|intros []]. }
  assert (Hw : forall x, bget "warp" (rt_providers rt) = Some x -> warp_down = unreachable x) by (unfold warp_down; by intros x ->).
  destruct (bget "warp" (rt_providers rt)) as [v|] eqn:Hb.
  2:{ intros (u & x & H & _)%clean_bind; [|by intros _]. destruct u. by apply because_clean in H. }
  rewrite (Hw v eq_refl). destruct (unreachable v) eqn:Hv; cbn [negb andb].
  2:{ intros [<- _]%clean_ret. rewrite warp_up_as_run by (by rewrite (Hw v)). split; [done|]. intros _. exists v. by rewrite Hv. }
  destruct (fallback (intent p)) eqn:Hf.
  { intros (u & x & H & _)%clean_bind; [|by intros _]. destruct u. by apply because_clean in H. }
  intros (u & x & _ & H)%clean_bind. 2:{ intros _. by destruct (is_warp _). }
  split; [|intros _; by exists v].
  assert (Hm : map (fun rule => if is_warp (egress rule) then rule_direct rule else rule) (enabled_rules p) = map rule_as_run (enabled_rules p)).
  { apply map_ext. intros rule. unfold rule_as_run. by rewrite (Hw v eq_refl), Hv. }
  rewrite Hm in H. by destruct (is_warp (default_egress (intent p))); apply clean_ret in H as [<- _].
Qed.

(** What an accepted lane satisfies. *)
Record lane_ok c (p : RoutingPolicy) : Prop := {
  ok_public : forall rule, rule ∈ enabled_rules p -> public_rule rule;
  ok_default : forall value, default_egress (intent p) = Some value -> covered c value;
  ok_rules : forall rule value, rule ∈ enabled_rules p -> egress rule = Some value -> covered c value;
  ok_warp : approved p;
}.

Lemma check_lane_clean p c cl d : clean (check_lane rt resolver own exit_resolver p) c cl d ->
  cl = runs_as p /\ lane_ok d p /\ (all_resolved c -> all_resolved d).
Proof.
  assert (He : keeps grows (each (check_egress rt resolver own exit_resolver)
    ((None, default_egress (intent p)) :: map (fun rule => (rule_id rule, egress rule)) (enabled_rules p)))).
  { apply keeps_each; [done|exact grows_trans|apply check_egress_grows]. }
  assert (Hr : keeps grows (each (check_rule (E := E) (R := R) rt) (enabled_rules p))).
  { apply keeps_each; [done|exact grows_trans|apply check_rule_grows]. }
  unfold check_lane. cbv zeta. intros (u & x & H0 & H)%clean_bind.
  2:{ intros _. repeat grown; auto using check_rule_grows, check_egress_grows, check_warp_grows. }
  apply clean_bind in H as ([] & y & H1 & H). 2:{ intros _. repeat grown; auto using check_egress_grows, check_warp_grows. }
  apply clean_bind in H as ([] & z & H2 & H3). 2:{ intros _. apply check_warp_grows. }
  pose proof (clean_grows _ _ _ _ (check_warp_grows p _) H3) as Hg. pose proof (check_warp_pairs p (enabled_rules p) z) as Hp.
  rewrite (proj1 H3) in Hp. apply check_warp_clean in H3 as [-> Hw]. split; [done|]. split.
  - split; [|intros value Hv|intros rule value Hin Hv|done].
    + eapply clean_each; [apply check_rule_grows| |exact H1]. intros a c' d'. apply check_rule_clean.
    + eapply covered_grows, egresses_covered with (rule := None); [exact Hg|exact H2|rewrite Hv; by left].
    + eapply covered_grows, egresses_covered with (rule := rule_id rule); [exact Hg|exact H2|]. right. rewrite <-Hv.
      apply list_elem_of_In, (in_map (fun rule => (rule_id rule, egress rule))). by apply list_elem_of_In.
  - intros Ha. apply (all_resolved_same _ _ Hp). eapply (clean_each_step _ _ all_resolved); [apply check_egress_grows| |exact H2|].
    { intros a c' d'. apply check_egress_resolved. }
    eapply (clean_each_step _ _ all_resolved); [apply check_rule_grows| |exact H1|].
    { intros a c' d' [Hx _]. pose proof (check_rule_pairs a c') as Hs. rewrite Hx in Hs. by apply all_resolved_same. }
    destruct (mem_str _ _); [by apply clean_nothing in H0 as <-|]. destruct u. by apply because_clean in H0.
Qed.

Lemma lane_ok_grows c d p : grows c d -> lane_ok c p -> lane_ok d p.
Proof. intros Hg []. split; eauto using covered_grows. Qed.

Lemma collect_clean l c checked d : clean (collect (check_lane rt resolver own exit_resolver) l) c checked d ->
  checked = map runs_as l /\ (forall p, p ∈ l -> lane_ok d p) /\ (all_resolved c -> all_resolved d).
Proof.
  revert c checked d. induction l as [|p l IH]; intros c checked d; cbn [collect].
  { intros [<- <-]%clean_ret. split; [done|]. split; [by intros p ?%not_elem_of_nil|done]. }
  assert (Hk : keeps grows (collect (check_lane rt resolver own exit_resolver) l)).
  { apply keeps_collect; [done|exact grows_trans|apply check_lane_grows]. }
  intros (cl & x & H1 & H2)%clean_bind. 2:{ intros a. by repeat grown. }
  apply clean_bind in H2 as (cls & y & H2 & [<- <-]%clean_ret); [|by intros a].
  pose proof (clean_grows _ _ _ _ Hk H2) as Hg. apply check_lane_clean in H1 as (-> & Hok & Hres). apply IH in H2 as (-> & Hoks & Hress).
  split; [done|]. split; [|auto]. intros q [->|Hq]%elem_of_cons; [by eapply lane_ok_grows|by apply Hoks].
Qed.
End lane.
End lanes.
