(* ===== verification/RoutingCompileFacts.v ===== *)
(** * Reading the router's document back

    A lane of the document, each of its egresses replaced by what the document says of it. The compiler
    numbers chains and custom exits as it meets them, across the lanes: every number it writes is
    defined, and by the spec of the exit it stands for. *)

From S2P Require Import Prelude BTree Utf8 Numeric Json PyText TextFacts Plan IpAddr IndexMap Difflib Effect PyIp.
From S2P Require Import RoutingNet RoutingModel RoutingDocument RoutingCompiler RoutingLaneFacts.

(** ** The reader *)

(** What an egress of the document stands for. *)
Definition deref (d e : Value) : Value :=
  match e with
  | Str t =>
      match strip_prefix "chain:" t, strip_prefix "exit:" t with
      | Some id, _ => field id (field "chains" d)
      | _, Some id => field id (field "exits" d)
      | None, None => e
      end
  | _ => e
  end.
Definition deref_in (d v : Value) : Value := match v with Object m => Object (iupd (deref d) "egress" m) | _ => v end.

Definition elements (v : Value) : list Value := match v with Array l => l | _ => [] end.

(** The body of a lane: a document of the first schema is one. *)
Definition body_of (d : Value) (key : string) : Value :=
  match field "lanes" d with Null => d | lanes => field key lanes end.
Definition read_default (d : Value) (key : string) : Value := deref_in d (field "default" (body_of d key)).
Definition read_rules (d : Value) (key : string) : list Value := map (deref_in d) (elements (field "rules" (body_of d key))).

(** An egress as its reader ([normalise_exit]) leaves it. *)
Definition egress_text (value : string) : Prop := value = "warp" \/ is_custom_exit value = true \/ is_node_exit value = true.

Definition spec_of (chains exits : list (string * Value)) (value : option string) : Value :=
  match value with
  | None => Null
  | Some v => if is_custom_exit v then lookup_pair exits v else if is_node_exit v then lookup_pair chains v else Str v
  end.

Definition default_of (action : DefaultAction.t) (spec : Value) : Value :=
  Object [("action", Str (DefaultAction.as_str action)); ("egress", spec)].

Lemma normalise_exit_text `{UT : UnicodeText} text value : normalise_exit text = Ok value -> egress_text value.
Proof.
  unfold normalise_exit, egress_text. destruct (str_empty text); [done|]. cbv zeta. destruct (_ =?s _); [intros [= <-]; by left|].
  destruct (default _ _) as [kind rest]. destruct (_ =?s _); [destruct (_ || _); [done|]; intros [= <-]; right; left; apply prefix_app_s|].
  destruct (_ || _); [done|]. intros ([chain via] & _ & Hv)%bind_Ok. destruct (_ || _); [done|]. injection Hv as <-. right; right. apply (prefix_app_s "node:").
Qed.

(** ** Numbers *)

Abbreviation Met := (list string * list string)%type.
Definition extends (s t : Met) : Prop := s.1 `prefix_of` t.1 /\ s.2 `prefix_of` t.2.
#[export] Instance extends_preorder : PreOrder extends.
Proof. split; [intros s; done|]. intros a b c [H1 H2] [G1 G2]. split; by etrans. Qed.

(** The text [t] names the egress [v] in a document with these exits. *)
Definition names (f : Met) (v t : string) : Prop :=
  if is_custom_exit v then exists i, f.2 !! i = Some v /\ t = "exit:e" +:+ fmt_nat (i + 1)
  else if is_node_exit v then exists i, f.1 !! i = Some v /\ t = "chain:c" +:+ fmt_nat (i + 1)
  else t = v.
Definition names_opt (f : Met) (v : option string) (e : Value) : Prop :=
  match v with Some v => exists t, e = Str t /\ names f v t | None => e = Null end.

Lemma names_extends f g v t : extends f g -> names f v t -> names g v t.
Proof.
  intros [H1 H2]. unfold names. destruct (is_custom_exit v); [|destruct (is_node_exit v); [|done]];
    intros (i & Hi & ->); exists i; split; try done; by eapply prefix_lookup_Some.
Qed.
Lemma names_opt_extends f g v e : extends f g -> names_opt f v e -> names_opt g v e.
Proof. intros H. destruct v; [|done]. intros (t & -> & Ht). exists t. split; [done|]. by eapply names_extends. Qed.

Lemma index_of_lookup value l i : index_of value l = Some i -> l !! i = Some value.
Proof.
  revert i. induction l as [|v l IH]; intros i; [done|]. cbn [index_of]. destruct (v =?s value) eqn:E.
  - intros [= <-]. by apply eqb_s_true in E as ->.
  - intros H. apply fmap_Some in H as (j & Hj & ->). by apply IH.
Qed.
Lemma index_push_spec value l i k : index_push value l = (i, k) -> l `prefix_of` k /\ k !! i = Some value.
Proof.
  unfold index_push. destruct (index_of value l) eqn:E.
  - intros [= <- <-]. split; [done|]. by apply index_of_lookup.
  - intros [= <- <-]. split; [by eexists|]. by rewrite lookup_app_r, Nat.sub_diag.
Qed.

Lemma intent_egress_names v s t f : intent_egress v s = (t, f) -> extends s f /\ names f v t.
Proof.
  unfold intent_egress, names, extends. destruct s as [ids exits]. destruct (is_custom_exit v); [|destruct (is_node_exit v)]; cbn [negb].
  - destruct (index_push v exits) as [i k] eqn:E. intros [= <- <-]. apply index_push_spec in E as [H1 H2]. split; [done|]. by exists i.
  - destruct (index_push v ids) as [i k] eqn:E. intros [= <- <-]. apply index_push_spec in E as [H1 H2]. split; [done|]. by exists i.
  - by intros [= <- <-].
Qed.
Lemma map_egress_names v s e f : map_egress intent_egress v s = (e, f) -> extends s f /\ names_opt f v e.
Proof.
  unfold map_egress. destruct v as [v|]; [|by intros [= <- <-]]. destruct (intent_egress v s) as [t g] eqn:E. intros [= <- <-].
  apply intent_egress_names in E as [H1 H2]. split; [done|]. by exists t.
Qed.

Definition rule_names (f : Met) (rule : RoutingRule) (v : Value) : Prop :=
  exists e, v = lane_rule rule e /\ names_opt f (egress rule) e.

Lemma lane_rules_names rules : forall s l f, lane_rules intent_egress rules s = (l, f) -> extends s f /\ Forall2 (rule_names f) rules l.
Proof.
  induction rules as [|rule rest IH]; intros s l f; cbn [lane_rules]; [by intros [= <- <-]|].
  destruct (map_egress _ _ s) as [e g] eqn:He. destruct (lane_rules _ rest g) as [k h] eqn:Hr. intros [= <- <-].
  apply map_egress_names in He as [H1 H2]. apply IH in Hr as [H3 H4]. split; [by etrans|]. constructor; [|done].
  exists e. split; [done|]. by eapply names_opt_extends.
Qed.

(** The body of a lane, in a document with these exits. *)
Definition body_names (f : Met) (l : CheckedLane) (body : imap Value) : Prop :=
  exists e rules, body = [("default", default_of (ck_action l) e); ("rules", Array rules)]
    /\ names_opt f (ck_egress l) e /\ Forall2 (rule_names f) (ck_rules l) rules.

Lemma rule_names_extends f g rule v : extends f g -> rule_names f rule v -> rule_names g rule v.
Proof. intros H (e & -> & He). exists e. split; [done|]. by eapply names_opt_extends. Qed.
Lemma body_names_extends f g l body : extends f g -> body_names f l body -> body_names g l body.
Proof.
  intros H (e & rules & -> & He & Hr). exists e, rules. split; [done|]. split; [by eapply names_opt_extends|].
  eapply Forall2_impl; [exact Hr|]. intros rule v. by apply rule_names_extends.
Qed.

Lemma lane_body_names l s body f : lane_body intent_egress (ck_action l) (ck_egress l) (ck_rules l) s = (body, f) ->
  extends s f /\ body_names f l body.
Proof.
  unfold lane_body. destruct (lane_rules _ _ s) as [k g] eqn:Hr. destruct (map_egress _ _ g) as [e h] eqn:He. intros [= <- <-].
  apply lane_rules_names in Hr as [H1 H2]. apply map_egress_names in He as [H3 H4]. split; [by etrans|]. exists e, k.
  split; [done|]. split; [done|]. eapply Forall2_impl; [exact H2|]. intros rule v. by apply rule_names_extends.
Qed.

Definition keyed (protocol : string) (f : Met) (l : CheckedLane) (e : string * Value) : Prop :=
  e.1 = lane_key protocol (ck_lane l) /\ exists body, e.2 = Object body /\ body_names f l body.

Lemma rendered_lanes_names protocol lanes : forall out s rendered f,
  rendered_lanes protocol lanes out s = (rendered, f) -> NoDup (bkeys out ++ map (fun l => lane_key protocol (ck_lane l)) lanes) ->
  extends s f /\ exists new, rendered = out ++ new /\ Forall2 (keyed protocol f) lanes new.
Proof.
  induction lanes as [|l rest IH]; intros out s rendered f; cbn [rendered_lanes map].
  { intros [= <- <-] _. split; [done|]. exists []. by rewrite app_nil_r. }
  destruct (lane_body _ _ _ _ s) as [body g] eqn:Hb. intros Hr Hn. apply lane_body_names in Hb as [H1 H2].
  assert (Hout : iset (lane_key protocol (ck_lane l)) (Object body) out = out ++ [(lane_key protocol (ck_lane l), Object body)]).
  { apply iset_fresh. destruct (bhas _ out) eqn:E; [|done]. exfalso. apply NoDup_app in Hn as (_ & Hd & _).
    unfold bhas in E. destruct (bget _ out) eqn:E2; [|done]. apply (Hd (lane_key protocol (ck_lane l))); [|by left].
    apply dec_stable. intros Hx%bget_None. by rewrite Hx in E2. }
  rewrite Hout in Hr. apply IH in Hr as (H3 & new & -> & H4).
  2:{ unfold bkeys. rewrite map_app, <-app_assoc. exact Hn. }
  split; [by etrans|]. eexists. rewrite <-app_assoc. split; [done|]. constructor; [|done].
  split; [done|]. exists body. split; [done|]. by eapply body_names_extends.
Qed.

(** ** What a number stands for *)

Lemma number_from_keys prefix pairs ids : forall i, bkeys (number_from i prefix pairs ids) = map (fun j => prefix +:+ fmt_nat j) (seq i (length ids)).
Proof. induction ids as [|v ids IH]; intros i; [done|]. cbn [number_from length seq map]. unfold bkeys in *. cbn [map fst]. by rewrite IH. Qed.

Lemma number_from_nodup prefix pairs ids i : NoDup (bkeys (number_from i prefix pairs ids)).
Proof.
  rewrite number_from_keys. apply NoDup_fmap_2; [|apply NoDup_seq]. intros a b Hab%app_inj_l_s.
  unfold fmt_nat in Hab. apply fmt_N_inj in Hab. lia.
Qed.

Lemma number_from_In prefix pairs ids : forall i j v, ids !! j = Some v ->
  (prefix +:+ fmt_nat (i + j), lookup_pair pairs v) ∈ number_from i prefix pairs ids.
Proof.
  induction ids as [|w ids IH]; intros i j v; [done|]. destruct j as [|j]; cbn [number_from].
  - intros [= ->]. rewrite Nat.add_0_r. by left.
  - cbn. intros H. right. replace (i + S j)%nat with (S i + j)%nat by lia. by apply IH.
Qed.

Lemma numbered_field prefix pairs ids j v : ids !! j = Some v ->
  field (prefix +:+ fmt_nat (j + 1)) (Object (numbered prefix pairs ids)) = lookup_pair pairs v.
Proof.
  intros H. unfold field, numbered. rewrite icollect_id by apply number_from_nodup.
  rewrite (bget_ok_In _ (lookup_pair pairs v)); [done|apply number_from_nodup|]. rewrite Nat.add_comm. by apply number_from_In.
Qed.

(** The document of the second schema around its lanes. *)
Definition v2_document (rendered : imap Value) (f : Met) (chains exits : list (string * Value)) : Value :=
  Object ([("schema", json_int 2); ("lanes", Object rendered); ("chains", Object (numbered "c" chains f.1))]
          ++ match f.2 with [] => [] | _ => [("exits", Object (numbered "e" exits f.2))] end).

Lemma deref_names rendered f chains exits v t : egress_text v -> names f v t ->
  deref (v2_document rendered f chains exits) (Str t) = spec_of chains exits (Some v).
Proof.
  unfold names, spec_of. intros Hv Ht. destruct (is_custom_exit v) eqn:Hc; [|destruct (is_node_exit v) eqn:Hn].
  - destruct Ht as (i & Hi & ->). unfold deref. assert (Hs : strip_prefix "exit:" ("exit:e" +:+ fmt_nat (i + 1)) = Some ("e" +:+ fmt_nat (i + 1))).
    { by apply strip_prefix_iff. }
    rewrite Hs. change (strip_prefix "chain:" _) with (@None string). cbv iota. rewrite <-(numbered_field "e" exits f.2 i v Hi).
    unfold v2_document. by destruct f.2.
  - destruct Ht as (i & Hi & ->). unfold deref. assert (Hs : strip_prefix "chain:" ("chain:c" +:+ fmt_nat (i + 1)) = Some ("c" +:+ fmt_nat (i + 1))).
    { by apply strip_prefix_iff. }
    rewrite Hs. rewrite <-(numbered_field "c" chains f.1 i v Hi). by unfold v2_document.
  - destruct Hv as [->|[?|?]]; [|congruence..]. by rewrite Ht.
Qed.

Lemma deref_names_opt rendered f chains exits v e : (forall x, v = Some x -> egress_text x) -> names_opt f v e ->
  deref (v2_document rendered f chains exits) e = spec_of chains exits v.
Proof. destruct v as [v|]; [|by intros _ ->]. intros Hv (t & -> & Ht). apply deref_names; [by apply Hv|done]. Qed.

Lemma deref_in_rule d rule e : deref_in d (lane_rule rule e) = lane_rule rule (deref d e).
Proof. done. Qed.
Lemma deref_in_default d a e : deref_in d (default_of a e) = default_of a (deref d e).
Proof. done. Qed.

(** A lane whose egresses are texts of exits. *)
Definition lane_texts (l : CheckedLane) : Prop :=
  (forall v, ck_egress l = Some v -> egress_text v) /\ (forall rule v, rule ∈ ck_rules l -> egress rule = Some v -> egress_text v).

(** Every lane reads back as it was checked. *)
Lemma intent_v2_reads protocol lanes chains exits l : NoDup (map (fun l => lane_key protocol (ck_lane l)) lanes) -> l ∈ lanes -> lane_texts l ->
  let d := intent_v2 protocol lanes chains exits in
  read_default d (lane_key protocol (ck_lane l)) = default_of (ck_action l) (spec_of chains exits (ck_egress l))
  /\ read_rules d (lane_key protocol (ck_lane l)) = map (fun rule => lane_rule rule (spec_of chains exits (egress rule))) (ck_rules l).
Proof.
  intros Hn Hin [Hd Hrules]. destruct (rendered_lanes protocol lanes [] ([], [])) as [rendered f] eqn:Hr.
  destruct (rendered_lanes_names _ _ _ _ _ _ Hr Hn) as (_ & new & -> & Hf). cbn [app] in *.
  assert (Hdoc : intent_v2 protocol lanes chains exits = v2_document new f chains exits) by (unfold intent_v2; rewrite Hr; by destruct f).
  rewrite Hdoc. apply list_elem_of_lookup in Hin as (i & Hi). destruct (Forall2_lookup_l _ _ _ _ _ Hf Hi) as ([k v] & Hk & Hkey & body & Hb & Hbody).
  cbn [fst snd] in Hkey, Hb. subst k v. cbv zeta.
  assert (Hbody_of : body_of (v2_document new f chains exits) (lane_key protocol (ck_lane l)) = Object body).
  { unfold body_of, v2_document. cbn. rewrite (bget_ok_In _ (Object body)); [done| |by eapply list_elem_of_lookup_2].
    assert (Hkeys : bkeys new = map (fun l => lane_key protocol (ck_lane l)) lanes).
    { clear -Hf. induction Hf as [|x e xs es He _ IH]; [done|]. unfold bkeys in *. cbn [map]. by rewrite IH, (proj1 He). }
    unfold iok. by rewrite Hkeys. }
  destruct Hbody as (e & rules & -> & He & Hrs). unfold read_default, read_rules. rewrite Hbody_of.
  change (field "default" _) with (default_of (ck_action l) e). change (field "rules" _) with (Array rules). cbn [elements].
  rewrite deref_in_default. split; [by rewrite (deref_names_opt _ _ _ _ _ _ Hd He)|].
  clear -Hrs Hrules. induction Hrs as [|rule w rs ws (e & -> & He) _ IH]; [done|]. cbn [map]. rewrite IH.
  - rewrite deref_in_rule. f_equal. f_equal. eapply deref_names_opt; [|done]. intros x Hx. eapply Hrules; [by left|done].
  - intros r v Hr. apply Hrules. by right.
Qed.

(** * The compiler's answers

    How a supported compilation came about: which backend ran, what was checked, and the document. *)

Definition supports (c : Compiled) : Prop := status c = CompileStatus.Supported.

Section facts.
Context {FT : FloatText} {SHA : Sha256} {E R : Type}.
Implicit Types (policy p : RoutingPolicy) (c : Compiled) (o : Options (E := E) (R := R)) (w : R).

Lemma supports_mret policy t code rule m w c w' :
  (mret (because (unsupported_for policy t) (reason code rule m)) : Eff (RoutingFailure E) R Compiled) w = (Ok c, w') -> ~ supports c.
Proof. by intros [= <- <-]. Qed.
Lemma not_supports_refuse policy t rs ws c w w' :
  (mret (refuse (unsupported_for policy t) rs ws) : Eff (RoutingFailure E) R Compiled) w = (Ok c, w') -> ~ supports c.
Proof. by intros [= <- <-]. Qed.

(** Every policy the compiler runs. *)
Definition compiled_policies policy o : list RoutingPolicy := (lanes_of policy (lanes o)).1 ++ (lanes_of policy (lanes o)).2.

Lemma policy_compiled policy o : policy ∈ compiled_policies policy o.
Proof.
  unfold compiled_policies, lanes_of. cbn [fst snd]. apply list_elem_of_In, in_app_iff.
  destruct (is_service policy) eqn:H; [left|right]; apply filter_In; (split; [by left|]); by rewrite H.
Qed.

(** The nodes a chain may not pass. *)
Definition own_of o : list string := match own_guids o with [] => ["local"] | own => own end.

(** Whether the document is of the second schema. *)
Definition needs_v2 policy o (collected : Collect (R := R)) : bool :=
  negb (none_of (lanes_of policy (lanes o)).2 && none_of (c_chains collected) && none_of (c_exits collected)).

Definition router_document policy o (collected : Collect (R := R)) (checked : list CheckedLane) : Value :=
  match needs_v2 policy o collected, checked with
  | false, first :: _ => intent_of (ck_action first) (ck_rules first)
  | _, _ => intent_v2 (Protocol.as_str (protocol policy)) checked (c_chains collected) (c_exits collected)
  end.

Definition collect_from (warnings : list string) w : Collect :=
  {| c_reasons := []; c_warnings := warnings; c_chains := []; c_exits := []; world := w |}.

Lemma compile_intent_supports policy rt o warnings own w c w' : compile_intent policy rt o warnings own w = (Ok c, w') -> supports c ->
  exists checked collected,
    clean (collect (check_lane rt (chains o) own (exits o)) (compiled_policies policy o)) (collect_from warnings w) checked collected
    /\ document c = Some (router_document policy o collected checked)
    /\ (N.of_nat (String.length (doc_canonical (router_document policy o collected checked)))
        <= if needs_v2 policy o collected then MAX_DOCUMENT_BYTES_V2 else MAX_DOCUMENT_BYTES)%N.
Proof.
  unfold compile_intent, router_document, needs_v2, compiled_policies. cbv beta zeta. destruct (lanes_of policy (lanes o)) as [service grants]. cbn [fst snd].
  destruct (collect _ _ _) as [[checked|e] d] eqn:Hc; [|done]. destruct (c_reasons d) eqn:Hd; [|intros Hr; injection Hr as <- <-; done].
  intros Hr Hs. exists checked, d. split; [done|].
  destruct (negb _) eqn:Hv.
  - unfold mbind, Eff_bind, mret, Eff_ret in Hr. destruct (_ <? _)%N eqn:Hl; injection Hr as <- <-; [done|].
    split; [done|]. apply N.ltb_ge in Hl. exact Hl.
  - destruct checked as [|first rest]; [done|]. unfold mbind, Eff_bind, first_lane, mret, Eff_ret in Hr.
    destruct (_ <? _)%N eqn:Hl; injection Hr as <- <-; [done|]. split; [done|]. apply N.ltb_ge in Hl. exact Hl.
Qed.

(** How a policy can be supported. *)
Inductive supported_by policy (t : EgressTarget) o w c w' : Prop :=
| by_router rt : backend policy = Backend.XrayRouter -> router o = Some rt -> available rt = true -> router_attached t = true ->
    compile_intent policy rt o (tg_warnings t) (own_of o) w = (Ok c, w') -> supported_by policy t o w c w'
| by_direct_only : backend policy = tg_backend t -> tg_backend t = Backend.MtproxyNative \/ tg_backend t = Backend.TrusttunnelNative ->
    compile_direct_only policy t (unsupported_for policy (Some t)) = c -> supported_by policy t o w c w'
| by_native : backend policy = tg_backend t -> tg_backend t <> Backend.XrayRouter -> is_service policy = true ->
    compile_native policy t (unsupported_for policy (Some t)) = c -> supported_by policy t o w c w'.

Lemma compile_supported policy target o w c w' : compile policy target o w = (Ok c, w') -> supports c ->
  exists t, target = Some t /\ supported_by policy t o w c w'.
Proof.
  unfold compile. cbv zeta. intros Hr Hs. destruct (backend_for _) as [native|]; [|by apply supports_mret in Hr].
  destruct (old_node o); [by apply supports_mret in Hr|]. destruct target as [t|]; [|by apply supports_mret in Hr]. exists t. split; [done|].
  set (is_lane := negb (is_service policy) || _) in Hr.
  destruct (is_lane && bool_decide (protocol policy = Protocol.Amneziawg)); [by apply supports_mret in Hr|].
  destruct (is_lane && bool_decide (protocol policy = Protocol.Trusttunnel)); [by apply supports_mret in Hr|].
  destruct (is_lane && negb _); [by apply supports_mret in Hr|]. case_bool_decide as Hx.
  - unfold compile_router in Hr. destruct (router o) as [rt|] eqn:Hrt; [|by apply supports_mret in Hr].
    destruct (available rt) eqn:Ha; cbn [negb] in Hr; [|by apply supports_mret in Hr].
    destruct (router_attached t) eqn:Hat; cbn [negb] in Hr; [|by apply supports_mret in Hr].
    destruct (if bool_decide _ then _ else _); [|by apply not_supports_refuse in Hr]. by eapply by_router.
  - destruct is_lane eqn:Hl; [by apply supports_mret in Hr|]. case_bool_decide as Hb; [|by apply supports_mret in Hr]. cbn [negb] in Hr.
    destruct (router_attached t); [by apply supports_mret in Hr|]. apply orb_false_iff in Hl as [Hl _]. apply negb_false_iff in Hl.
    destruct (tg_backend t) eqn:Ht; injection Hr as Hr <-;
      first [apply by_direct_only; [congruence|by rewrite Ht; auto|done]|apply by_native; [congruence|congruence|done|done]].
Qed.
(** What is said of a policy that its native manager runs. *)
Lemma compile_native_supports policy t c : compile_native policy t (unsupported_for policy (Some t)) = c -> supports c ->
  (forall rule, rule ∈ enabled_rules policy -> tg_backend t <> Backend.AmneziawgNative /\ native_rule t (default_action (intent policy)) rule = [])
  /\ exists warnings a rules, native_warp t (intent policy) (enabled_rules policy) = ([], warnings, a, rules)
    /\ document c = Some (native_document (tg_backend t) a rules)
    /\ (N.of_nat (String.length (doc_canonical (native_document (tg_backend t) a rules))) <= MAX_DOCUMENT_BYTES)%N.
Proof.
  unfold compile_native. cbv zeta. intros Hc Hs. set (whole := if mem_str _ _ then _ else _) in Hc. set (exit := if foreign_exit _ then _ else _) in Hc.
  destruct (match bool_decide _ with true => _ | false => _ end) as [amnezia rules] eqn:Ha.
  destruct (native_warp t (intent policy) rules) as [[[reasons warnings] a] run] eqn:Hw.
  destruct (whole ++ amnezia ++ exit ++ _ ++ reasons) eqn:Hall; [|by rewrite <-Hc in Hs].
  apply app_eq_nil in Hall as [_ Hall]. apply app_eq_nil in Hall as [-> Hall]. apply app_eq_nil in Hall as [_ Hall]. apply app_eq_nil in Hall as [Hall ->].
  assert (Hrules : rules = enabled_rules policy /\ (forall rule, rule ∈ rules -> tg_backend t <> Backend.AmneziawgNative)).
  { case_bool_decide as Hb; [|by simplify_eq]. destruct (enabled_rules policy); simplify_eq.
    split; [done|]. by intros rule ?%not_elem_of_nil. }
  destruct Hrules as [-> Hb]. split.
  - intros rule Hr. split; [by eapply Hb|]. clear -Hall Hr. induction (enabled_rules policy) as [|r l IH]; [by apply not_elem_of_nil in Hr|].
    cbn [map concat] in Hall. apply app_eq_nil in Hall as [H1 H2]. apply elem_of_cons in Hr as [->|Hr]; [done|by apply IH].
  - destruct (_ <? _)%N eqn:Hl; [by rewrite <-Hc in Hs|]. exists warnings, a, run. split; [done|]. rewrite <-Hc. split; [done|]. by apply N.ltb_ge in Hl.
Qed.

Lemma native_rule_public t a rule : native_rule t a rule = [] -> public_rule rule.
Proof.
  unfold native_rule, public_rule. cbv zeta. destruct (foreign_exit _); [done|]. destruct (negb _); [done|]. destruct (missing_cells _ _); [|done].
  destruct (is_block _); [by left|]. destruct (private rule); [done|by right].
Qed.

End facts.
