(* ===== verification/RoutingSample.v ===== *)
(** * A node to compile for

    Policies, a router with a chain and a custom exit, and a Mieru service, for the theorems' witnesses. *)

From S2P Require Import Prelude BTree Utf8 Numeric Json PyText IndexMap Plan IpAddr PyIp Difflib Effect.
From S2P Require Import RoutingNet RoutingModel RoutingDocument RoutingCompiler.

Definition sample_match (ds cs : list string) : RuleMatch := {| domains := ds; cidrs := cs; ports := []; geosites := []; geoips := []; protocols := [] |}.
Definition sample_rule (id : string) (m : RuleMatch) (a : Action.t) (e : option string) : RoutingRule :=
  {| rule_id := Some id; position := 0; enabled := true; matcher := m; action := a; egress := e; note := EmptyString; preset := None |}.

Definition sample_policy (id : string) (p : Protocol.t) (b : Backend.t) (lane : string) (i : Intent) : RoutingPolicy :=
  {| intent := i; id_ := id; node_id := "local"; protocol := p; lane := lane; backend := b; revision := 1; state := PolicyState.Draft;
     applied_revision := None; applied_digest := None; applied_at := None; last_error := None; created_at := 0; updated_at := 0 |}.

Definition sample_cells : list string :=
  ["whole_direct"; "whole_warp"; "custom_exits"; "selective_domain"; "selective_cidr"; "block_domain"; "block_cidr"].

(** ** The router: a service lane through WARP, a client's lane through another node *)

Definition sample_service : RoutingPolicy :=
  sample_policy "p1" Protocol.Naive Backend.XrayRouter "svc"
    {| default_action := DefaultAction.Egress; default_egress := Some "warp"; fallback := Fallback.FailClosed;
       rules := [sample_rule "r1" (sample_match ["localhost"; "*.ads.example"] []) Action.Block None;
                 sample_rule "r2" (sample_match ["example.com"] ["203.0.113.0/24"]) Action.Egress (Some "node:n2,n3:warp");
                 sample_rule "r3" (sample_match ["b.example"] []) Action.Egress (Some "exit:e9")] |}.
Definition sample_lane : RoutingPolicy :=
  sample_policy "p2" Protocol.Naive Backend.XrayRouter "grant:g1"
    {| default_action := DefaultAction.Egress; default_egress := Some "node:n2,n3:warp"; fallback := Fallback.FailClosed; rules := [] |}.

Definition sample_target (p : string) (b : Backend.t) (attached : bool) : EgressTarget :=
  {| tg_protocol := p; tg_backend := b; tg_capabilities := sample_cells; tg_providers := [("warp", Object [("reachable", Bool true)])];
     tg_revision := "7"; tg_applied := None; tg_mode := EgressMode.Direct; tg_restart_required := false; tg_warnings := [];
     tg_runtime_version := None; router_attached := attached |}.
Definition sample_router : RouterTarget :=
  {| available := true; service := "xray-router"; rt_capabilities := sample_cells; rt_providers := [("warp", Object [("reachable", Bool true)])];
     rt_revision := "1"; rt_applied := None; xray_version := Some "26.1"; rt_restart_required := true; rt_reason := None |}.

Definition sample_hop (guid : string) (w : unit) : result (RoutingFailure string) (result Reason ChainHop) * unit :=
  (Ok (Ok {| hop_guid := guid; hop_address := guid +:+ ".example"; hop_port := 443; server_name := "cdn.example"; public_key := "pk";
             short_id := "01"; uuid_direct := "direct-" +:+ guid; uuid_warp := Some ("warp-" +:+ guid) |}), w).
Definition sample_exit (id : string) (w : unit) : result (RoutingFailure string) (result Reason Value) * unit :=
  (Ok (Ok (Object [("protocol", Str "socks"); ("id", Str id)])), w).

Definition sample_options : Options (E := string) (R := unit) :=
  {| old_node := false; router := Some sample_router; lanes := [sample_lane]; chains := Some sample_hop; own_guids := ["local"]; exits := Some sample_exit |}.

(** ** Mieru, on its own *)

Definition sample_mieru : RoutingPolicy :=
  sample_policy "p3" Protocol.Mieru Backend.MieruNative "svc"
    {| default_action := DefaultAction.Egress; default_egress := Some "warp"; fallback := Fallback.ApprovedDirect;
       rules := [sample_rule "r1" (sample_match ["*.ads.example"] []) Action.Block None;
                 sample_rule "r2" (sample_match ["example.com"] ["203.0.113.0/24"]) Action.Direct None] |}.
Definition sample_alone : Options (E := string) (R := unit) :=
  {| old_node := false; router := None; lanes := []; chains := None; own_guids := []; exits := None |}.
