(* ===== verification/RoutingProps.v ===== *)
(** * The compiler's promises: the router

    What an accepted policy becomes on the node's Xray-router, and what no accepted policy does. *)

From S2P Require Import Prelude BTree Utf8 Numeric Json PyText TextFacts Plan IpAddr IndexMap Difflib Effect PyIp RoutingNet.
From S2P Require Import RoutingModel RoutingDocument RoutingCompiler RoutingLaneFacts RoutingCompileFacts.
From S2P Require Import RoutingSample.

Section props.
Context {FT : FloatText} {SHA : Sha256} {E R : Type}.
Implicit Types (policy p : RoutingPolicy) (c : Compiled) (o : Options (E := E) (R := R)) (w : R).

(** A policy that its reader accepted: its default names an egress exactly when it is one, and every
    egress is the text of an exit. *)
Record policy_ok p : Prop := {
  po_check : intent_check (intent p) = Ok tt;
  po_default : forall value, default_egress (intent p) = Some value -> egress_text value;
  po_rules : forall rule value, rule ∈ enabled_rules p -> egress rule = Some value -> egress_text value;
}.

(** What the router is told of an egress: the spec the service resolved it to. *)
Definition egress_runs o (value : option string) (spec : Value) : Prop :=
  match value with
  | None => spec = Null
  | Some v =>
      if is_custom_exit v then resolved_exit (E := E) (R := R) (exits o) (v, spec)
      else if is_node_exit v then resolved_chain (E := E) (R := R) (chains o) (own_of o) (v, spec)
      else spec = Str v
  end.

(** ** A rule of the document, read on its own

    What the router reads in a rule of a lane, field by field, beside what the policy's rule says. *)

(** The texts of a field: their array, and nothing where there are none. *)
Definition reads_texts (l : list string) (v : Value) : Prop := v = Array (map Str l).

(** The suffixes a rule's domains stand for: [*.x] and [x] are both [x] and what is under it, and each is
    written once. *)
Definition reads_domains (l : list string) (v : Value) : Prop := exists ds, v = Array (map Str ds) /\ NoDup ds /\
  forall suffix, suffix ∈ ds <->
    exists domain, domain ∈ l /\ (domain = "*." +:+ suffix \/ (domain = suffix /\ forall rest, domain <> "*." +:+ rest)).

(** The ports of a rule: a number, or the text of a range. *)
Definition reads_port (port : Port) (v : Value) : Prop :=
  match port with One n => v = Num (NInt n) | Range range => v = Str range end.

(** A rule of the document says what the rule of the policy says: each selector in the field of its own
    name, the action's name, and what became of its egress; and it says nothing else. *)
Record rule_reads (rule : RoutingRule) (spec v : Value) : Prop := {
  rr_domains : reads_domains (domains (matcher rule)) (field "domains" v);
  rr_geosites : reads_texts (geosites (matcher rule)) (field "geosites" v);
  rr_cidrs : reads_texts (cidrs (matcher rule)) (field "cidrs" v);
  rr_geoips : reads_texts (geoips (matcher rule)) (field "geoips" v);
  rr_ports : exists vs, field "ports" v = Array vs /\ Forall2 reads_port (ports (matcher rule)) vs;
  rr_protocols : match protocols (matcher rule) with [] => field "protocols" v = Null | l => reads_texts l (field "protocols" v) end;
  rr_action : field "action" v = Str (match action rule with Action.Direct => "direct" | Action.Block => "block" | Action.Egress => "egress" end);
  rr_egress : field "egress" v = spec;
  rr_nothing_else : forall key, key ∉ ["domains"; "geosites"; "cidrs"; "geoips"; "ports"; "protocols"; "action"; "egress"] -> field key v = Null;
}.

(** The lane of a policy in the document: its default and its rules, in their order. *)
Definition lane_runs o (d : Value) (key : string) (l : CheckedLane) : Prop :=
  (exists spec, read_default d key
     = Object [("action", Str (match ck_action l with DefaultAction.Direct => "direct" | DefaultAction.Egress => "egress" end)); ("egress", spec)]
     /\ egress_runs o (ck_egress l) spec)
  /\ Forall2 (fun rule v => exists spec, rule_reads rule spec v /\ egress_runs o (egress rule) spec) (ck_rules l) (read_rules d key).

Lemma suffix_of_stands domain suffix : suffix = suffix_of domain <->
  (domain = "*." +:+ suffix \/ (domain = suffix /\ forall rest, domain <> "*." +:+ rest)).
Proof.
  unfold suffix_of. destruct (strip_prefix "*." domain) as [rest|] eqn:Hs; cbn [default].
  - apply strip_prefix_iff in Hs as ->. split; [intros ->; by left|]. intros [H|[<- H]]; [by apply app_inj_l_s in H|by destruct (H rest)].
  - split; [intros ->; right; split; [done|]|].
    + intros rest ->. assert (strip_prefix "*." ("*." +:+ rest) = Some rest) by by apply strip_prefix_iff. congruence.
    + intros [-> |[-> _]]; [|done]. assert (strip_prefix "*." ("*." +:+ suffix) = Some suffix) by by apply strip_prefix_iff. congruence.
Qed.

Lemma push_new_nodup l x : NoDup l -> NoDup (push_new l x).
Proof.
  intros H. unfold push_new. destruct (mem_str x l) eqn:Hx; [done|]. apply NoDup_app. split; [done|]. split; [|by apply NoDup_singleton].
  intros y Hy ->%list_elem_of_singleton. apply mem_str_true in Hy. congruence.
Qed.
Lemma push_new_in l x y : y ∈ push_new l x <-> y ∈ l \/ y = x.
Proof.
  unfold push_new. destruct (mem_str x l) eqn:Hx; [split; [by left|]; intros [?|Hy]; [done|subst y; by apply mem_str_true]|].
  by rewrite elem_of_app, list_elem_of_singleton.
Qed.

Lemma suffixes_stand ds : NoDup (suffixes ds) /\ forall suffix, suffix ∈ suffixes ds <-> exists domain, domain ∈ ds /\ suffix = suffix_of domain.
Proof.
  unfold suffixes. enough (H : forall l, NoDup l -> let out := fold_left (fun out d => push_new out (suffix_of d)) ds l in
    NoDup out /\ forall x, x ∈ out <-> x ∈ l \/ exists d, d ∈ ds /\ x = suffix_of d).
  { destruct (H [] (NoDup_nil_2)) as [H1 H2]. split; [done|]. intros x. rewrite H2. split; [intros [?%not_elem_of_nil|]; done|by right]. }
  induction ds as [|d ds IH]; intros l Hl; cbn [fold_left].
  - split; [done|]. intros x. split; [by left|]. intros [?|(d & ?%not_elem_of_nil & _)]; done.
  - destruct (IH (push_new l (suffix_of d)) (push_new_nodup _ _ Hl)) as [H1 H2]. split; [done|]. intros x. rewrite H2, push_new_in. split.
    + intros [[?|?]|(e & He & ->)]; [by left|right; exists d; split; [by left|done]|right; exists e; split; [by right|done]].
    + intros [?|(e & [->|He]%elem_of_cons & ->)]; [by left; left|by left; right|right; by exists e].
Qed.

Lemma lane_rule_reads rule spec : rule_reads rule spec (lane_rule rule spec).
Proof.
  destruct (suffixes_stand (domains (matcher rule))) as [Hn Hs]. split; try done.
  - exists (suffixes (domains (matcher rule))). split; [done|]. split; [done|]. intros suffix. rewrite Hs. by setoid_rewrite suffix_of_stands.
  - eexists. split; [reflexivity|]. induction (ports (matcher rule)) as [|p l IH]; constructor; [by destruct p|done].
  - unfold lane_rule. destruct (protocols (matcher rule)); done.
  - intros key Hk. rewrite !not_elem_of_cons in Hk. destruct Hk as (H1 & H2 & H3 & H4 & H5 & H6 & H7 & H8 & _).
    unfold lane_rule, field. destruct (none_of _); cbn [app bget]; rewrite ?(proj2 (eqb_s_false _ _) H1), ?(proj2 (eqb_s_false _ _) H2), ?(proj2 (eqb_s_false _ _) H3), ?(proj2 (eqb_s_false _ _) H4),
      ?(proj2 (eqb_s_false _ _) H5), ?(proj2 (eqb_s_false _ _) H6), ?(proj2 (eqb_s_false _ _) H7), ?(proj2 (eqb_s_false _ _) H8); done.
Qed.

Lemma default_reads a spec : default_of a spec
  = Object [("action", Str (match a with DefaultAction.Direct => "direct" | DefaultAction.Egress => "egress" end)); ("egress", spec)].
Proof. by destruct a. Qed.

Lemma lookup_known v (pairs : list (string * Value)) (P : string * Value -> Prop) :
  v ∈ map fst pairs -> Forall P pairs -> P (v, lookup_pair pairs v).
Proof.
  unfold lookup_pair. induction pairs as [|[k x] pairs IH]; cbn [map fst List.find]; [by intros ?%not_elem_of_nil|].
  intros Hin [H1 H2]%Forall_cons_1. destruct (k =?s v) eqn:Hk; [by apply eqb_s_true in Hk as ->|].
  apply eqb_s_false in Hk. apply elem_of_cons in Hin as [->|Hin]; [done|]. by apply IH.
Qed.

Lemma spec_runs o collected v : (forall x, v = Some x -> covered (R := R) collected x) ->
  all_resolved (chains o) (own_of o) (exits o) collected -> egress_runs o v (spec_of (c_chains collected) (c_exits collected) v).
Proof.
  destruct v as [v|]; [|done]. intros Hc [H1 H2]. destruct (Hc v eq_refl) as [G1 G2]. unfold egress_runs, spec_of.
  destruct (is_custom_exit v); [by apply lookup_known; [apply G1|]|]. destruct (is_node_exit v); [by apply lookup_known; [apply G2|]|done].
Qed.

(** The egresses of a lane as it runs are egresses of its policy. *)
Lemma run_default rt p v : ck_egress (runs_as rt p) = Some v -> default_egress (intent p) = Some v.
Proof. unfold runs_as. simpl. by destruct (_ && _). Qed.
Lemma run_rule rt p rule v : rule ∈ ck_rules (runs_as rt p) -> egress rule = Some v ->
  exists rule', rule' ∈ enabled_rules p /\ egress rule' = Some v.
Proof.
  unfold runs_as. cbn [ck_rules]. intros (r & <- & Hr)%list_elem_of_In%in_map_iff. apply list_elem_of_In in Hr.
  unfold rule_as_run. destruct (_ && _); [done|]. intros H. by exists r.
Qed.
Lemma run_texts rt p : policy_ok p -> lane_texts (runs_as rt p).
Proof.
  intros []. split; [intros v Hv%run_default; auto|]. intros rule v Hin Hv. destruct (run_rule _ _ _ _ Hin Hv) as (r & H1 & H2). eauto.
Qed.
Lemma run_covered rt p collected : lane_ok (R := R) rt collected p ->
  (forall v, ck_egress (runs_as rt p) = Some v -> covered collected v)
  /\ (forall rule v, rule ∈ ck_rules (runs_as rt p) -> egress rule = Some v -> covered collected v).
Proof.
  intros []. split; [intros v Hv%run_default; auto|]. intros rule v Hin Hv. destruct (run_rule _ _ _ _ Hin Hv) as (r & H1 & H2). eauto.
Qed.
Lemma run_default_check rt p : policy_ok p ->
  match ck_action (runs_as rt p) with DefaultAction.Egress => exists v, ck_egress (runs_as rt p) = Some v | DefaultAction.Direct => ck_egress (runs_as rt p) = None end.
Proof.
  intros []. unfold runs_as. simpl. destruct (_ && _); [done|]. unfold intent_check in *.
  destruct (default_action _), (default_egress _); try done. by eexists.
Qed.

Lemma rules_map {A B} (P : A -> B -> Prop) (f : A -> B) l : (forall a, a ∈ l -> P a (f a)) -> Forall2 P l (map f l).
Proof. induction l as [|a l IH]; intros H; constructor; [by apply H; left|]. apply IH. intros b Hb. apply H. by right. Qed.

(** ** The two schemas *)

Lemma v2_lane_runs o protocol (policies : list RoutingPolicy) rt collected p :
  NoDup (map (fun p => lane_key protocol (lane p)) policies) -> p ∈ policies -> policy_ok p -> lane_ok (R := R) rt collected p ->
  all_resolved (chains o) (own_of o) (exits o) collected ->
  lane_runs o (intent_v2 protocol (map (runs_as rt) policies) (c_chains collected) (c_exits collected)) (lane_key protocol (lane p)) (runs_as rt p).
Proof.
  intros Hn Hin Hok Hl Hr. destruct (run_covered _ _ _ Hl) as [G1 G2].
  destruct (intent_v2_reads protocol (map (runs_as rt) policies) (c_chains collected) (c_exits collected) (runs_as rt p)) as [H1 H2].
  - rewrite map_map. exact Hn.
  - apply list_elem_of_In, in_map. by apply list_elem_of_In.
  - by apply run_texts.
  - split; [eexists; split; [etrans; [exact H1|apply default_reads]|]; by apply spec_runs|]. change (lane p) with (ck_lane (runs_as rt p)). rewrite H2.
    apply rules_map. intros rule Hin'. eexists. split; [apply lane_rule_reads|]. apply spec_runs; [|done]. intros v Hv. by eapply G2.
Qed.

Lemma intent_of_rules rules : (lane_rules (fun value (s : unit) => (value, s)) rules tt).1 = map (fun rule => lane_rule rule (opt_str (egress rule))) rules.
Proof.
  induction rules as [|r l IH]; [done|]. cbn [lane_rules map]. unfold map_egress. destruct (egress r) as [v|];
    destruct (lane_rules _ l tt) as [k []]; cbn [fst] in *; by rewrite IH.
Qed.

Definition intent_1 (a : DefaultAction.t) (e : Value) (rules : list Value) : Value :=
  Object [schema_1; ("default", default_of a e); ("rules", Array rules)].
Lemma intent_of_eq a rules : intent_of a rules =
  intent_1 a (match a with DefaultAction.Egress => Str "warp" | DefaultAction.Direct => Null end) (map (fun rule => lane_rule rule (opt_str (egress rule))) rules).
Proof.
  unfold intent_of, lane_body. rewrite <-intent_of_rules. destruct (lane_rules _ rules tt) as [k []]. by destruct a.
Qed.

Lemma v1_lane_runs o rt p collected key : policy_ok p -> lane_ok (R := R) rt collected p -> c_chains collected = [] -> c_exits collected = [] ->
  lane_runs o (intent_of (ck_action (runs_as rt p)) (ck_rules (runs_as rt p))) key (runs_as rt p).
Proof.
  intros Hok Hl Hc Hx. destruct (run_covered _ _ _ Hl) as [G1 G2]. destruct (run_texts rt p Hok) as [T1 T2]. pose proof (run_default_check rt p Hok) as Hd.
  assert (Hwarp : forall v, egress_text v -> covered (R := R) collected v -> v = "warp").
  { intros v Ht [C1 C2]. rewrite Hc, Hx in *. destruct Ht as [->|[Ht|Ht]]; [done|by apply C1, not_elem_of_nil in Ht|].
    destruct (is_custom_exit v) eqn:Hcu; [by destruct (not_elem_of_nil v (C1 eq_refl))|by apply C2, not_elem_of_nil in Ht]. }
  rewrite intent_of_eq. set (l := runs_as rt p) in *. set (rules := map _ _). set (a := ck_action l) in *. split.
  - change (read_default _ key) with (default_of a (deref (intent_1 a (match a with DefaultAction.Egress => Str "warp" | DefaultAction.Direct => Null end) rules)
      (match a with DefaultAction.Egress => Str "warp" | DefaultAction.Direct => Null end))).
    eexists. split; [apply default_reads|]. destruct a; [by rewrite Hd|]. destruct Hd as (v & Hv). rewrite Hv.
    by rewrite (Hwarp v (T1 _ Hv) (G1 _ Hv)).
  - change (read_rules _ key) with (map (deref_in (intent_1 a (match a with DefaultAction.Egress => Str "warp" | DefaultAction.Direct => Null end) rules)) rules).
    unfold rules at 2. rewrite map_map. apply rules_map. intros rule Hin. rewrite deref_in_rule. eexists. split; [apply lane_rule_reads|].
    destruct (egress rule) as [v|] eqn:Hv; [|done]. by rewrite (Hwarp v (T2 _ _ Hin Hv) (G2 _ _ Hin Hv)).
Qed.

(** ** Supported policies *)

Lemma router_supported policy t o w c w' : compile policy (Some t) o w = (Ok c, w') -> supports c -> backend policy = Backend.XrayRouter ->
  exists rt checked collected, router o = Some rt /\ checked = map (runs_as rt) (compiled_policies policy o)
    /\ (forall p, p ∈ compiled_policies policy o -> lane_ok (R := R) rt collected p)
    /\ all_resolved (chains o) (own_of o) (exits o) collected
    /\ document c = Some (router_document policy o collected checked).
Proof.
  intros Hrun Hs Hb. destruct (compile_supported _ _ _ _ _ _ Hrun Hs) as (? & [= <-] & [rt B Hrt Av At Hi|B Hx Hd|B Hx Hsv Hn]).
  - destruct (compile_intent_supports _ _ _ _ _ _ _ _ Hi Hs) as (checked & collected & Hc & Hd & _).
    destruct (collect_clean _ _ _ _ _ _ _ _ Hc) as (-> & Hl & Hr). exists rt. eexists. exists collected. split; [done|]. split; [done|].
    split; [done|]. split; [|done]. by apply Hr.
  - destruct Hx; congruence.
  - congruence.
Qed.

(** A document of the first schema is that of the policy alone. *)
Lemma one_lane policy o (collected : Collect (R := R)) : needs_v2 policy o collected = false ->
  NoDup (map (fun p => lane_key (Protocol.as_str (protocol policy)) (lane p)) (compiled_policies policy o)) ->
  compiled_policies policy o = [policy] /\ c_chains collected = [] /\ c_exits collected = [].
Proof.
  unfold needs_v2. intros Hv Hn. apply negb_false_iff in Hv. apply andb_prop in Hv as [Hv Hx]. apply andb_prop in Hv as [Hg Hc].
  split; [|split; [by destruct (c_chains collected)|by destruct (c_exits collected)]].
  pose proof (policy_compiled policy o) as Hin. unfold compiled_policies in *.
  destruct (lanes_of policy (lanes o)).2; [|done]. rewrite app_nil_r in *.
  assert (Hall : forall p, p ∈ (lanes_of policy (lanes o)).1 -> is_service p = true).
  { unfold lanes_of. cbn [fst]. by intros p [_ ?]%list_elem_of_In%filter_In. }
  destruct (lanes_of policy (lanes o)).1 as [|p [|q l]]; [by apply not_elem_of_nil in Hin|by apply list_elem_of_singleton in Hin as ->|].
  exfalso. cbn [map] in Hn. apply NoDup_cons in Hn as [Hn _]. apply Hn. apply elem_of_cons. left.
  pose proof (Hall p (list_elem_of_here _ _)) as H1. pose proof (Hall q (list_elem_of_further _ _ _ (list_elem_of_here _ _))) as H2.
  unfold is_service in *. apply eqb_s_true in H1, H2. by rewrite H1, H2.
Qed.

Lemma existsb_false {A} (f : A -> bool) l : existsb f l = false <-> forall a, a ∈ l -> f a = false.
Proof.
  split.
  - intros H a Ha. destruct (f a) eqn:Hx; [|done]. assert (existsb f l = true) by (apply existsb_exists; exists a; by rewrite <-list_elem_of_In). congruence.
  - intros H. destruct (existsb f l) eqn:Hx; [|done]. apply existsb_exists in Hx as (a & Ha & Hx). apply list_elem_of_In in Ha. rewrite H in Hx by done. done.
Qed.

Lemma supported_public policy t o w c w' p rule : compile policy (Some t) o w = (Ok c, w') -> supports c ->
  p = policy \/ (backend policy = Backend.XrayRouter /\ p ∈ compiled_policies policy o) -> rule ∈ enabled_rules p -> public_rule rule.
Proof.
  intros Hrun Hs Hp Hr. destruct (decide (backend policy = Backend.XrayRouter)) as [Hb|Hb].
  - destruct (router_supported _ _ _ _ _ _ Hrun Hs Hb) as (rt & checked & collected & _ & _ & Hl & _).
    eapply (ok_public _ _ _ (Hl p _)), Hr. Unshelve. destruct Hp as [->|[_ ?]]; [apply policy_compiled|done].
  - destruct Hp as [->|[? _]]; [|done]. destruct (compile_supported _ _ _ _ _ _ Hrun Hs) as (? & [= <-] & [rt B Hrt Av At Hi|B Hx Hd|B Hx Hsv Hn]); [done| |].
    + unfold compile_direct_only in Hd. clear Hx. destruct (negb _ || _) eqn:Hx; [by rewrite <-Hd in Hs|].
      apply orb_false_iff in Hx as [_ Hx]. unfold enabled_rules in Hr. apply list_elem_of_In, filter_In in Hr as [Hin He].
      rewrite existsb_false in Hx. rewrite Hx in He by by apply list_elem_of_In. done.
    + destruct (compile_native_supports _ _ _ Hn Hs) as [Hall _]. destruct (Hall rule Hr) as [_ Hn']. by eapply native_rule_public.
Qed.

(** C21: A policy the compiler accepts for the router runs there as it was written. For every policy of
    the service and its lanes, what the document says under the lane's key is the policy's default and
    its enabled rules in their order. Each rule has its domains as suffixes ([*.x] and [x] are [x]), its
    geosites, networks, geoips, ports and protocols, each in the field of its own name, the name of its
    action, and nothing else; and every egress written there leads to the exit the policy names: the chain
    or custom exit the service resolved for exactly that text, or this node's WARP. An egress through a
    WARP that does not answer is dropped only where the operator approved it. *)
Theorem router_runs_policies policy t o w c w'
  (Hrun : compile policy (Some t) o w = (Ok c, w')) (Hs : supports c) (Hb : backend policy = Backend.XrayRouter)
  (Hok : forall p, p ∈ compiled_policies policy o -> policy_ok p)
  (Hkeys : NoDup (map (fun p => lane_key (Protocol.as_str (protocol policy)) (lane p)) (compiled_policies policy o))) :
  exists rt d, router o = Some rt /\ document c = Some d /\
    forall p, p ∈ compiled_policies policy o ->
      approved rt p /\ lane_runs o d (lane_key (Protocol.as_str (protocol policy)) (lane p)) (runs_as rt p).
Proof.
  destruct (router_supported _ _ _ _ _ _ Hrun Hs Hb) as (rt & checked & collected & Hrt & -> & Hlanes & Hres & Hd).
  exists rt, (router_document policy o collected (map (runs_as rt) (compiled_policies policy o))). split; [done|]. split; [done|].
  intros p Hin. split; [apply (Hlanes p Hin)|]. unfold router_document. destruct (needs_v2 policy o collected) eqn:Hv.
  - by apply v2_lane_runs; auto.
  - destruct (one_lane _ _ _ Hv Hkeys) as (Hone & Hc & Hx). rewrite Hone in *. cbn [map]. apply list_elem_of_singleton in Hin as ->.
    by eapply v1_lane_runs; [apply Hok; left|apply Hlanes; left|..].
Qed.

(** C27: No policy the compiler accepts opens a private network by its networks: no enabled rule but a
    block has a network with an address of the loopback, link-local, shared or private ranges, or names
    [localhost], whichever backend runs the policy and on every lane compiled with it. (A domain that is
    the text of an address is not looked at: [private_domain_gap].) *)
Theorem private_never_opened policy t o w c w' p rule
  (Hrun : compile policy (Some t) o w = (Ok c, w')) (Hs : supports c)
  (Hp : p = policy \/ (backend policy = Backend.XrayRouter /\ p ∈ compiled_policies policy o))
  (Hr : rule ∈ enabled_rules p) (Hblock : is_block (action rule) = false) :
  (forall domain, domain ∈ domains (matcher rule) -> domain ∉ PRIVATE_DOMAINS)
  /\ (forall cidr n range a, cidr ∈ cidrs (matcher rule) -> net_parse cidr = Some n -> range ∈ private_networks ->
        net_contains range a = true -> net_contains n a = false).
Proof.
  assert (Hpub : public_rule rule) by by eapply supported_public.
  destruct Hpub as [?|Hpub]; [congruence|]. apply orb_false_iff in Hpub as [H1 H2]. split.
  - intros domain Hd Hx%mem_str_true. rewrite existsb_false in H1. rewrite (H1 domain Hd) in Hx. done.
  - intros cidr n range a Hcidr Hn Hrange Ha. rewrite existsb_false in H2. by eapply not_private; [apply H2| | |].
Qed.
End props.

(** ** Witnesses *)

#[local] Existing Instance no_floats.
#[local] Existing Instance toy_hash.

Definition egress_textb (value : option string) : bool :=
  match value with Some v => (v =?s "warp") || is_custom_exit v || is_node_exit v | None => true end.
Lemma egress_textb_ok value v : egress_textb value = true -> value = Some v -> egress_text v.
Proof.
  intros H ->. unfold egress_textb in H. unfold egress_text. apply orb_true_iff in H as [H|H]; [|by auto].
  apply orb_true_iff in H as [H|H]; [left; by apply eqb_s_true|by auto].
Qed.

Definition policy_okb (p : RoutingPolicy) : bool :=
  match intent_check (intent p) with Ok _ => true | Err _ => false end && egress_textb (default_egress (intent p))
  && forallb (fun rule => egress_textb (egress rule)) (enabled_rules p).
Lemma policy_okb_ok p : policy_okb p = true -> policy_ok p.
Proof.
  unfold policy_okb. intros H. apply andb_prop in H as [H H3]. apply andb_prop in H as [H1 H2]. split.
  - destruct (intent_check _) as [[]|]; done.
  - intros v. by apply egress_textb_ok.
  - intros rule v Hin. rewrite forallb_forall in H3. apply egress_textb_ok, H3. by apply list_elem_of_In.
Qed.

Definition sample_naive : EgressTarget := sample_target "naive" Backend.NaiveNative true.
Definition sample_answer : Compiled :=
  match compile sample_service (Some sample_naive) sample_options tt with (Ok c, _) => c | (Err _, _) => compiled_new CompileStatus.Unsupported end.

Lemma sample_policies_ok p : p ∈ compiled_policies sample_service sample_options -> policy_ok p.
Proof.
  assert (H : forallb policy_okb (compiled_policies sample_service sample_options) = true) by reflexivity.
  rewrite forallb_forall in H. intros Hp. apply policy_okb_ok, H. by apply list_elem_of_In.
Qed.
Lemma sample_keys : NoDup (map (fun p => lane_key "naive" (lane p)) (compiled_policies sample_service sample_options)).
Proof. apply (bool_decide_unpack _). vm_compute. exact I. Qed.

Lemma sample_run : compile sample_service (Some sample_naive) sample_options tt = (Ok sample_answer, tt).
Proof. vm_compute. reflexivity. Qed.
Lemma sample_supports : supports sample_answer.
Proof. vm_compute. reflexivity. Qed.

Lemma router_runs_policies_witness : exists rt d, router sample_options = Some rt /\ document sample_answer = Some d /\
  forall p, p ∈ compiled_policies sample_service sample_options ->
    approved rt p /\ lane_runs sample_options d (lane_key "naive" (lane p)) (runs_as rt p).
Proof.
  exact (router_runs_policies sample_service sample_naive sample_options tt sample_answer tt sample_run sample_supports eq_refl
    sample_policies_ok sample_keys).
Defined.

Definition sample_public : RoutingRule :=
  sample_rule "r2" (sample_match ["example.com"] ["203.0.113.0/24"]) Action.Egress (Some "node:n2,n3:warp").

Definition sample_loopback : Network := {| v6 := false; address := 0x7f000000; prefix := 8 |}.
Definition sample_network : Network := {| v6 := false; address := 0xcb007100; prefix := 24 |}.
Lemma sample_network_reads : net_parse "203.0.113.0/24" = Some sample_network.
Proof. vm_compute. reflexivity. Qed.

Lemma private_never_opened_witness : net_contains sample_loopback (V4 0x7f000001) = true /\ net_contains sample_network (V4 0x7f000001) = false.
Proof.
  assert (Hin : sample_public ∈ enabled_rules sample_service) by (right; left).
  assert (Hr : sample_loopback ∈ private_networks) by (apply (list_elem_of_lookup_2 _ 3); vm_compute; reflexivity).
  split; [vm_compute; reflexivity|].
  apply (proj2 (private_never_opened sample_service sample_naive sample_options tt sample_answer tt sample_service
    sample_public sample_run sample_supports (or_introl eq_refl) Hin eq_refl) "203.0.113.0/24" sample_network sample_loopback);
    [by left|exact sample_network_reads|exact Hr|vm_compute; reflexivity].
Defined.

(** * The compiler always answers

    No policy makes the compiler panic: it ends with a document, with reasons, or with the failure of
    the service it asked; and what it answers hangs together. *)

(** The failures a stateful computation may end with. *)
Definition fails_within {E S A} (P : E -> Prop) (m : Eff E S A) : Prop := forall s e, (m s).1 = Err e -> P e.

Section within.
Context {E S : Type} (P : E -> Prop).

Lemma within_ret {A} (a : A) : fails_within P (mret a : Eff E S A).
Proof. done. Qed.
Lemma within_bind {A B} (m : Eff E S A) (f : A -> Eff E S B) : fails_within P m -> (forall a, fails_within P (f a)) -> fails_within P (m ≫= f).
Proof.
  intros Hm Hf s e. specialize (Hm s). unfold mbind, Eff_bind. destruct (m s) as [[a|x] t]; [apply Hf|]. intros [= <-]. by apply Hm.
Qed.
Lemma within_each {A} (f : A -> Eff E S unit) l : (forall a, fails_within P (f a)) -> fails_within P (each f l).
Proof. intros Hf. induction l as [|a l IH]; [done|]. by apply within_bind. Qed.
Lemma within_collect {A B} (f : A -> Eff E S B) l : (forall a, fails_within P (f a)) -> fails_within P (collect f l).
Proof.
  intros Hf. induction l as [|a l IH]; [done|]. apply within_bind; [done|intros b]. apply within_bind; [done|]. intros bs. apply within_ret.
Qed.
End within.

Section answers.
Context {FT : FloatText} {SHA : Sha256} {E R : Type}.
Implicit Types (policy p : RoutingPolicy) (c : Compiled) (o : Options (E := E) (R := R)) (w : R).

(** The service fails in its own way only, never in the compiler's. *)
Definition escapes {A} (lookup : option (string -> R -> result (RoutingFailure E) (result Reason A) * R)) : Prop :=
  forall resolve, lookup = Some resolve -> forall value w e, (resolve value w).1 = Err e -> exists x, e = Escaped x.

(** A failure the compiler may end with: the service's, or its own where it was given no chain resolver. *)
Definition allowed o (e : RoutingFailure E) : Prop :=
  (exists x, e = Escaped x) \/ (chains o = None /\ e = Internal "no chain resolver for a node exit").

Section compile.
Context (o : Options (E := E) (R := R)) (Hchains : escapes (chains o)) (Hexits : escapes (exits o)).
Abbreviation within := (fails_within (allowed o)).

Lemma ask_within {A} (lookup : R -> result (RoutingFailure E) (result Reason A) * R) :
  (forall w e, (lookup w).1 = Err e -> allowed o e) -> within (ask lookup).
Proof. intros H c e. unfold ask. specialize (H (world c)). destruct (lookup (world c)) as [r w]. apply H. Qed.

Lemma resolve_hops_within resolve via guids : chains o = Some resolve -> within (resolve_hops resolve via guids).
Proof.
  intros Hr. induction guids as [|g l IH]; simpl; [done|]. apply within_bind.
  - apply ask_within. intros w e He. left. by apply (Hchains resolve Hr g w).
  - intros [found|r]; [|done]. destruct (if (_ && _)%bool then _ else _); [|done]. by apply within_bind.
Qed.

Lemma check_egress_within rt own e : within (check_egress rt (chains o) own (exits o) e).
Proof.
  pose proof resolve_hops_within as Hh. destruct e as [rule [value|]]; cbn [check_egress]; [|done]. apply within_bind; [done|]. intros es. apply within_bind; [done|]. intros cs.
  destruct (is_custom_exit value).
  - destruct (existsb _ es); [done|]. destruct (if mem_str _ _ then _ else _) as [resolve|] eqn:Hx; [|done].
    apply within_bind; [|by intros []]. apply ask_within. intros w x Hw. left.
    apply (Hexits resolve) with (drop_s 5 value) w; [by destruct (mem_str _ _)|done].
  - destruct (_ || _); [done|]. destruct (chains o) as [resolve|] eqn:Hx.
    + apply within_bind; [|by intros []]. unfold resolve_chain. destruct (exit_hops _) as [guids via]. destruct (existsb _ guids); [done|].
      apply within_bind; [by apply Hh|done].
    + intros c x [= <-]. right. by rewrite Hx.
Qed.

Lemma check_lane_within rt own p : within (check_lane rt (chains o) own (exits o) p).
Proof.
  unfold check_lane. cbv zeta. apply within_bind; [by destruct (mem_str _ _)|]. intros _. apply within_bind.
  { apply within_each. intros rule. unfold check_rule. destruct (missing_cells _ _); [by destruct (_ && _)|done]. }
  intros _. apply within_bind; [apply within_each, check_egress_within|]. intros _. unfold check_warp. cbv zeta.
  destruct (negb _); [done|]. destruct (bget _ _) as [v|]; [|done]. destruct (negb _); [done|].
  destruct (fallback _); [done|]. apply within_bind; [done|]. intros _. by destruct (is_warp _).
Qed.

(** A compilation whose parts agree: supported with its document, digest and bounds, or refused with reasons. *)
Definition coherent c : Prop :=
  match status c with
  | CompileStatus.Supported => reasons c = [] /\ exists d, document c = Some d /\ digest c = Some (document_digest d)
      /\ (N.of_nat (String.length (doc_canonical d)) <= MAX_DOCUMENT_BYTES_V2)%N
  | CompileStatus.Unsupported => reasons c <> [] /\ document c = None /\ digest c = None
  end.
(** What a computation of the compiler may do. *)
Definition answers (r : result (RoutingFailure E) Compiled) : Prop :=
  match r with Ok c => coherent c | Err e => allowed o e end.

Lemma refused c rs ws : status c = CompileStatus.Unsupported -> document c = None -> digest c = None -> rs <> [] -> coherent (refuse c rs ws).
Proof. unfold coherent, refuse. simpl. by intros ->. Qed.

Lemma compile_intent_answers policy rt warnings own w : answers (compile_intent policy rt o warnings own w).1.
Proof.
  pose proof (policy_compiled policy o) as Hin. unfold compile_intent, compiled_policies in *. cbv beta zeta. destruct (lanes_of policy (lanes o)) as [service grants]. cbn [fst snd] in *.
  pose proof (within_collect (allowed o) (check_lane rt (chains o) own (exits o)) (service ++ grants) (check_lane_within rt own) (collect_from warnings w)) as He.
  unfold collect_from in He.
  destruct (collect (check_lane rt (chains o) own (exits o)) (service ++ grants) _) as [[checked|e] d] eqn:Hc; [|by apply He].
  destruct (c_reasons d) as [|r rs] eqn:Hd; [|by apply refused].
  assert (Hne : exists first rest, checked = first :: rest).
  { assert (Hcl : clean (collect (check_lane rt (chains o) own (exits o)) (service ++ grants)) (collect_from warnings w) checked d) by done.
    destruct (collect_clean _ _ _ _ _ _ _ _ Hcl) as (-> & _). destruct (service ++ grants) as [|x l]; [by apply not_elem_of_nil in Hin|]. by do 2 eexists. }
  destruct Hne as (first & rest & ->).
  set (v2 := negb _). destruct v2.
  - change (((mret None : Eff (RoutingFailure E) R (option CheckedLane)) ≫= ?f) (world d)) with (f None (world d)). cbv beta.
    destruct (_ <? _)%N eqn:Hl; [by apply refused|]. simpl. unfold coherent. simpl. split; [done|]. eexists. split; [done|]. split; [done|]. by apply N.ltb_ge in Hl.
  - change ((first_lane (first :: rest) ≫= ?f) (world d)) with (f (Some first) (world d)). cbv beta.
    destruct (_ <? _)%N eqn:Hl; [by apply refused|]. simpl. unfold coherent. simpl. split; [done|]. eexists. split; [done|]. split; [done|].
    apply N.ltb_ge in Hl. unfold MAX_DOCUMENT_BYTES, MAX_DOCUMENT_BYTES_V2 in *. lia.
Qed.

Lemma because_refused policy t r w : answers ((mret (because (unsupported_for policy t) r) : Eff (RoutingFailure E) R Compiled) w).1.
Proof. by apply refused. Qed.

Lemma direct_only_coherent policy t : tg_backend t = Backend.MtproxyNative \/ tg_backend t = Backend.TrusttunnelNative ->
  coherent (compile_direct_only policy t (unsupported_for policy (Some t))).
Proof.
  intros Hb. unfold compile_direct_only. destruct (negb _ || _); [by apply refused|]. unfold coherent, supported. cbn [status reasons document digest].
  split; [done|]. eexists. split; [done|]. split; [done|]. by destruct Hb as [-> | ->]; vm_compute.
Qed.

Lemma native_coherent policy t : coherent (compile_native policy t (unsupported_for policy (Some t))).
Proof.
  unfold compile_native. cbv zeta. destruct (match bool_decide _ with true => _ | false => _ end) as [amnezia rules].
  destruct (native_warp _ _ _) as [[[rs ws] a] run]. destruct (_ ++ amnezia ++ _) as [|r l]; [|by apply refused].
  destruct (_ <? _)%N eqn:Hl; [by apply refused|]. split; [done|]. eexists. split; [done|]. split; [done|].
  apply N.ltb_ge in Hl. unfold MAX_DOCUMENT_BYTES, MAX_DOCUMENT_BYTES_V2 in *. lia.
Qed.

Lemma compile_router_answers policy t is_lane w : answers (compile_router policy t o is_lane (unsupported_for policy (Some t)) w).1.
Proof.
  unfold compile_router. destruct (router o) as [rt|]; [|apply because_refused]. destruct (negb (available rt)); [apply because_refused|].
  destruct (negb (router_attached t)); [apply because_refused|].
  destruct (if bool_decide _ then _ else _); [apply compile_intent_answers|by apply refused].
Qed.

(** C28: Whatever the policy and the node's capabilities, compiling answers: it never panics, it fails
    only with what the service's own lookups fail with (or for want of a chain resolver, where it was
    given none), and its answer hangs together. A supported policy has no reasons, a document of at most
    64 KiB and that document's digest; a refused one has a reason and neither. *)
Theorem compile_answers policy target w : answers (compile policy target o w).1.
Proof.
  unfold compile. cbv zeta. destruct (backend_for _) as [native|]; [|apply because_refused]. destruct (old_node o); [apply because_refused|].
  destruct target as [t|]; [|apply because_refused]. set (is_lane := negb (is_service policy) || _).
  destruct (is_lane && bool_decide (protocol policy = Protocol.Amneziawg)); [apply because_refused|].
  destruct (is_lane && bool_decide (protocol policy = Protocol.Trusttunnel)); [apply because_refused|].
  destruct (is_lane && negb _); [apply because_refused|]. case_bool_decide; [apply compile_router_answers|].
  destruct is_lane; [apply because_refused|]. destruct (negb _); [apply because_refused|]. destruct (router_attached t); [apply because_refused|].
  destruct (tg_backend t) eqn:Hb; first [apply direct_only_coherent; by auto|apply native_coherent].
Qed.
End compile.
End answers.

#[local] Existing Instance no_floats.
#[local] Existing Instance toy_hash.

Lemma sample_chains_escape : escapes (Some sample_hop).
Proof. by intros resolve [= <-] value [] e. Qed.
Lemma sample_exits_escape : escapes (Some sample_exit).
Proof. by intros resolve [= <-] value [] e. Qed.

Lemma compile_answers_witness : answers sample_options
  (compile sample_service (Some (sample_target "naive" Backend.NaiveNative true)) sample_options tt).1.
Proof.
  exact (compile_answers sample_options sample_chains_escape sample_exits_escape sample_service
    (Some (sample_target "naive" Backend.NaiveNative true)) tt).
Defined.
