(* ===== verification/RoutingMieru.v ===== *)
(** * The compiler's promises: Mieru

    The document of a Mieru service, read rule by rule, decides every destination as the panel explains
    the policy. *)

From S2P Require Import Prelude BTree Utf8 Numeric Json PyText IndexMap Plan IpAddr PyIp Difflib Effect.
From S2P Require Import RoutingNet RoutingModel RoutingDocument RoutingCompiler RoutingLaneFacts RoutingCompileFacts RoutingSample.

(** ** The document's reader: the first rule that matches decides; [*] matches everything *)

Section reader.
Context {UT : UnicodeText}.

Definition domain_item_hits (lowered : string) (v : Value) : bool :=
  match v with Str d => (d =?s "*") || (lowered =?s d) || ends_with ("." +:+ d) lowered | _ => false end.
Definition cidr_item_hits (address : option IpAddress) (v : Value) : bool :=
  match v with Str c => (c =?s "*") || match address with Some a => cidr_hits a c | None => false end | _ => false end.

Definition item_hits (host : string) (rule : Value) : bool :=
  existsb (domain_item_hits (trim_end_byte "."%char (to_lowercase host))) (elements (field "domains" rule))
  || existsb (cidr_item_hits (py_ip_address host)) (elements (field "cidrs" rule)).

Definition mieru_decides (d : Value) (host : string) : Value :=
  match List.find (item_hits host) (elements (field "rules" d)) with
  | Some rule => field "action" rule
  | None => Str "DIRECT"
  end.

(** Mieru's word for an action of the policy, where [down] says that WARP does not answer. *)
Definition mieru_word (down : bool) (action : string) : string :=
  if action =?s "block" then "REJECT" else if (action =?s "egress") && negb down then "PROXY" else "DIRECT".

Definition native_warp_down (t : EgressTarget) : bool :=
  match bget "warp" (tg_providers t) with Some provider => unreachable provider | None => false end.

(** A rule its reader accepted: it selects something, and neither a domain nor a network is [*]. *)
Record rule_ok (rule : RoutingRule) : Prop := {
  ru_selects : match_is_empty (matcher rule) = false;
  ru_domains : forall d, d ∈ domains (matcher rule) -> suffix_of d <> "*";
  ru_cidrs : forall c, c ∈ cidrs (matcher rule) -> c <> "*";
}.

(** ** Selectors *)

Lemma existsb_push f l d : existsb f (push_new l d) = existsb f l || f d.
Proof.
  unfold push_new. destruct (mem_str d l) eqn:Hm; [|by rewrite existsb_app; simpl; rewrite orb_false_r].
  destruct (f d) eqn:Hf; [|by rewrite orb_false_r]. rewrite orb_true_r. apply existsb_exists. exists d. split; [|done].
  apply list_elem_of_In. by apply mem_str_true.
Qed.
Lemma existsb_suffixes f ds : existsb f (suffixes ds) = existsb (fun d => f (suffix_of d)) ds.
Proof.
  unfold suffixes. enough (H : forall l, existsb f (fold_left (fun out d => push_new out (suffix_of d)) ds l) = existsb f l || existsb (fun d => f (suffix_of d)) ds).
  { by rewrite H. }
  induction ds as [|d ds IH]; intros l; simpl; [by rewrite orb_false_r|]. by rewrite IH, existsb_push, orb_assoc.
Qed.
Lemma existsb_same {A} (f g : A -> bool) l : (forall a, a ∈ l -> f a = g a) -> existsb f l = existsb g l.
Proof. induction l as [|a l IH]; intros H; [done|]. simpl. rewrite (H a) by by left. rewrite IH; [done|]. intros b Hb. apply H. by right. Qed.
Lemma existsb_strs f l : existsb f (map Str l) = existsb (fun s => f (Str s)) l.
Proof. induction l as [|a l IH]; [done|]. simpl. by rewrite IH. Qed.

(** The selectors a native backend is given, as the policy reads them. *)
Definition selects (rule : RoutingRule) (host : string) : bool :=
  existsb (domain_hits (trim_end_byte "."%char (to_lowercase host))) (domains (matcher rule))
  || match py_ip_address host with Some a => existsb (cidr_hits a) (cidrs (matcher rule)) | None => false end.

Lemma item_selects rule host : rule_ok rule -> item_hits host (mieru_rule rule) = selects rule host.
Proof.
  intros [_ Hd Hc]. unfold item_hits, selects. change (field "domains" _) with (strs (suffixes (domains (matcher rule)))).
  change (field "cidrs" _) with (strs (cidrs (matcher rule))). unfold strs. cbn [elements]. rewrite !existsb_strs, existsb_suffixes. f_equal.
  - apply existsb_same. intros d Hin. cbn [domain_item_hits]. unfold domain_hits. by rewrite (proj2 (eqb_s_false _ _) (Hd d Hin)).
  - destruct (py_ip_address host) as [a|].
    + apply existsb_same. intros c Hin. cbn [cidr_item_hits]. by rewrite (proj2 (eqb_s_false _ _) (Hc c Hin)).
    + transitivity (existsb (fun _ : string => false) (cidrs (matcher rule))); [|by clear; induction (cidrs (matcher rule))].
      apply existsb_same. intros c Hin. cbn [cidr_item_hits]. by rewrite (proj2 (eqb_s_false _ _) (Hc c Hin)).
Qed.

(** Only the selectors of a native backend. *)
Definition plain_match (m : RuleMatch) : bool := none_of (ports m) && none_of (geosites m) && none_of (geoips m) && none_of (protocols m).

Lemma plain_destination rule host port : rule_ok rule -> plain_match (matcher rule) = true -> destination_matches rule host port = Some (selects rule host).
Proof.
  intros [He _ _] Hp. unfold plain_match in Hp. apply andb_prop in Hp as [Hp H4]. apply andb_prop in Hp as [Hp H3]. apply andb_prop in Hp as [H1 H2].
  unfold destination_matches. cbv zeta. rewrite H1, H2, H3, H4. cbn [negb andb].
  change (existsb (domain_hits _) _ || _) with (selects rule host). destruct (selects rule host); [done|].
  unfold match_is_empty, selectors in He. rewrite H1, H2, H3, H4, !andb_true_r, negb_involutive in He. by rewrite He.
Qed.

Lemma first_decider_plain rules host port : Forall (fun rule => rule_ok rule /\ plain_match (matcher rule) = true) rules ->
  first_decider rules host port = ([], List.find (fun rule => selects rule host) rules).
Proof.
  induction 1 as [|rule rest [Hok Hp] _ IH]; [done|]. cbn [first_decider List.find]. rewrite plain_destination by done.
  destruct (selects rule host); [done|]. by rewrite IH.
Qed.

(** ** WARP *)

Definition native_as_run (t : EgressTarget) (rule : RoutingRule) : RoutingRule :=
  if native_warp_down t && is_egress rule then rule_direct rule else rule.

Lemma native_warp_run t i rules ws a run : native_warp t i rules = ([], ws, a, run) ->
  a = (if native_warp_down t then DefaultAction.Direct else default_action i) /\ run = map (native_as_run t) rules
  /\ (negb (is_direct (default_action i)) || existsb is_egress rules = true -> native_warp_down t = true -> fallback i = Fallback.ApprovedDirect).
Proof.
  unfold native_warp. cbv zeta. assert (Hup : native_warp_down t = false -> map (native_as_run t) rules = rules).
  { intros H. induction rules as [|r l IH]; [done|]. cbn [map]. rewrite IH. unfold native_as_run. by rewrite H. }
  destruct (negb (negb (is_direct _) || _)) eqn:Hu.
  - apply negb_true_iff in Hu. rewrite Hu. apply orb_false_iff in Hu as [H1 H2]. apply negb_false_iff in H1. intros [= <- <- <-].
    split; [by destruct (default_action i), (native_warp_down t)|]. split; [|done]. clear Hup. induction rules as [|r l IH]; [done|].
    cbn [existsb map] in *. apply orb_false_iff in H2 as [H2 H3]. rewrite <-IH by done. unfold native_as_run. by rewrite H2, andb_false_r.
  - unfold native_warp_down, native_as_run in *. unfold native_warp_down in *. destruct (bget "warp" (tg_providers t)) as [v|]; [|done].
    destruct (unreachable v) eqn:Hv; cbn [negb]; [|intros [= <- <- <-]; by rewrite Hup].
    destruct (fallback i) eqn:Hf; [done|]. intros [= <- <- <-]. done.
Qed.

Lemma find_map {A B} (f : B -> bool) (g : A -> B) l : List.find f (map g l) = g <$> List.find (fun a => f (g a)) l.
Proof. induction l as [|a l IH]; [done|]. cbn [map List.find]. by destruct (f (g a)). Qed.
Lemma find_app {A} (f : A -> bool) l k : List.find f (l ++ k) = match List.find f l with Some a => Some a | None => List.find f k end.
Proof. induction l as [|a l IH]; [done|]. cbn [app List.find]. by destruct (f a). Qed.
Lemma find_pointwise {A} (f g : A -> bool) l : (forall a, a ∈ l -> f a = g a) -> List.find f l = List.find g l.
Proof. induction l as [|a l IH]; intros H; [done|]. cbn [List.find]. rewrite (H a) by by left. destruct (g a); [done|]. apply IH. intros b Hb. apply H. by right. Qed.
Lemma find_Some_in {A} (f : A -> bool) l a : List.find f l = Some a -> a ∈ l.
Proof. intros [H _]%find_some. by apply list_elem_of_In. Qed.

Lemma native_as_run_ok t rule : rule_ok rule -> rule_ok (native_as_run t rule).
Proof. unfold native_as_run. destruct (_ && _); [|done]. intros []. by split. Qed.
Lemma native_as_run_selects t rule host : selects (native_as_run t rule) host = selects rule host.
Proof. unfold native_as_run. by destruct (_ && _). Qed.
Lemma native_as_run_word t rule : mieru_action (action (native_as_run t rule)) = mieru_word (native_warp_down t) (Action.as_str (action rule)).
Proof. unfold native_as_run, is_egress. destruct (native_warp_down t), (action rule) eqn:Ha; cbn [andb]; by rewrite ?Ha. Qed.

(** The document decides by the first rule that selects the host. *)
Lemma mieru_document_decides t a rules host : (forall rule, rule ∈ rules -> rule_ok rule) ->
  mieru_decides (mieru_document (if native_warp_down t then DefaultAction.Direct else a) (map (native_as_run t) rules)) host =
  Str (mieru_word (native_warp_down t) (match List.find (fun rule => selects rule host) rules with
    | Some rule => Action.as_str (action rule) | None => DefaultAction.as_str a end)).
Proof.
  intros Hok. unfold mieru_decides, mieru_document. cbv zeta. change (field "rules" (Object [_; _; ("rules", ?l)])) with l. cbn [elements].
  rewrite find_app, map_map, find_map.
  rewrite (find_pointwise _ (fun rule => selects rule host)).
  2:{ intros rule Hr. rewrite item_selects by by apply native_as_run_ok, Hok. apply native_as_run_selects. }
  destruct (List.find (fun rule => selects rule host) rules) as [rule|].
  - change (Str (mieru_action (action (native_as_run t rule))) = Str (mieru_word (native_warp_down t) (Action.as_str (action rule)))).
    by rewrite native_as_run_word.
  - by destruct (native_warp_down t), a.
Qed.

Lemma native_rule_plain t a rule : native_rule t a rule = [] -> plain_match (matcher rule) = true.
Proof.
  unfold native_rule, plain_match. cbv zeta. destruct (foreign_exit _); [done|].
  destruct (none_of (ports _)), (none_of (geosites _)), (none_of (geoips _)), (none_of (protocols _)); done.
Qed.

Section compiled.
Context {FT : FloatText} {SHA : Sha256} {E R : Type}.

(** C26: A Mieru service does what the panel explains. For every host, the document compiled for it,
    read rule by rule with the first match deciding, answers what [explain] says of the policy: block,
    through WARP, or direct; the explanation leaves no rule uncertain. Where WARP does not answer, what
    would go through it goes direct, and only under a policy that approves it. *)
Theorem mieru_runs_policy (policy : RoutingPolicy) (t : EgressTarget) (o : Options (E := E) (R := R)) (w w' : R) c host port
  (Hrun : compile policy (Some t) o w = (Ok c, w')) (Hs : supports c) (Hb : backend policy = Backend.MieruNative)
  (Hok : forall rule, rule ∈ enabled_rules policy -> rule_ok rule) :
  exists d action, document c = Some d
    /\ bget "action" (explain policy host port) = Some (Str action) /\ bget "uncertain" (explain policy host port) = Some (Array [])
    /\ mieru_decides d host = Str (mieru_word (native_warp_down t) action)
    /\ (action = "egress" -> native_warp_down t = true -> fallback (intent policy) = Fallback.ApprovedDirect).
Proof.
  destruct (compile_supported _ _ _ _ _ _ Hrun Hs) as (? & [= <-] & [rt B Hrt Av At Hi|B Hx Hd|B Hx Hsv Hn]); [congruence|destruct Hx; congruence|].
  destruct (compile_native_supports _ _ _ Hn Hs) as (Hrules & ws & a & run & Hw & Hd & _).
  apply native_warp_run in Hw as (-> & -> & Hf). rewrite <-B, Hb in Hd. cbn [native_document] in Hd.
  eexists. exists (match List.find (fun rule => selects rule host) (enabled_rules policy) with
    | Some rule => Action.as_str (action rule) | None => DefaultAction.as_str (default_action (intent policy)) end).
  split; [exact Hd|]. unfold explain. rewrite first_decider_plain.
  2:{ apply list.Forall_forall. intros rule Hr. split; [by apply Hok|]. destruct (Hrules rule Hr) as [_ Hp]. by eapply native_rule_plain. }
  rewrite mieru_document_decides by exact Hok.
  destruct (List.find _ (enabled_rules policy)) as [rule|] eqn:Hfind;
    (destruct (exit_hops _) as [hops via]; split; [done|]; split; [done|]; split; [done|]; intros He Hdown; apply Hf; [|done]).
  - apply orb_true_iff. right. apply existsb_exists. exists rule. split; [by apply list_elem_of_In, find_Some_in with (1 := Hfind)|].
    unfold is_egress. by destruct (action rule).
  - by destruct (default_action (intent policy)).
Qed.
End compiled.
End reader.

#[local] Existing Instance no_floats.
#[local] Existing Instance toy_hash.
#[local] Existing Instance ascii_text.

Definition sample_mieru_answer : Compiled :=
  match compile sample_mieru (Some (sample_target "mieru" Backend.MieruNative false)) sample_alone tt with
  | (Ok c, _) => c | (Err _, _) => compiled_new CompileStatus.Unsupported end.

Definition rule_okb (rule : RoutingRule) : bool :=
  negb (match_is_empty (matcher rule)) && forallb (fun d => negb (suffix_of d =?s "*")) (domains (matcher rule))
  && forallb (fun c => negb (c =?s "*")) (cidrs (matcher rule)).
Lemma rule_okb_ok rule : rule_okb rule = true -> rule_ok rule.
Proof.
  unfold rule_okb. intros H. apply andb_prop in H as [H H3]. apply andb_prop in H as [H1 H2]. rewrite forallb_forall in H2, H3.
  split; [by apply negb_true_iff|..]; intros x Hx; apply eqb_s_false, negb_true_iff; [apply H2|apply H3]; by apply list_elem_of_In.
Qed.

Lemma mieru_runs_policy_witness : exists d action, document sample_mieru_answer = Some d
  /\ bget "action" (explain sample_mieru "x.ads.example." 443) = Some (Str action)
  /\ bget "uncertain" (explain sample_mieru "x.ads.example." 443) = Some (Array [])
  /\ mieru_decides d "x.ads.example." = Str (mieru_word false action)
  /\ (action = "egress" -> false = true -> fallback (intent sample_mieru) = Fallback.ApprovedDirect).
Proof.
  apply (mieru_runs_policy sample_mieru (sample_target "mieru" Backend.MieruNative false) sample_alone tt tt sample_mieru_answer "x.ads.example." 443);
    [vm_compute; reflexivity|vm_compute; reflexivity|reflexivity|].
  intros rule Hr. apply rule_okb_ok. assert (H : forallb rule_okb (enabled_rules sample_mieru) = true) by reflexivity.
  rewrite forallb_forall in H. apply H. by apply list_elem_of_In.
Defined.

(** ** What the check for private destinations does not see *)

(** A domain may be the text of a loopback address: a rule that opens it is accepted, and followed. *)
Definition sample_loopback : RoutingPolicy :=
  sample_policy "p4" Protocol.Mieru Backend.MieruNative "svc"
    {| default_action := DefaultAction.Egress; default_egress := Some "warp"; fallback := Fallback.FailClosed;
       rules := [sample_rule "r1" (sample_match ["127.0.0.1"] []) Action.Direct None] |}.

Lemma private_domain_gap :
  match compile sample_loopback (Some (sample_target "mieru" Backend.MieruNative false)) sample_alone tt with
  | (Ok c, _) => status c = CompileStatus.Supported /\ option_map (fun d => mieru_decides d "127.0.0.1") (document c) = Some (Str "DIRECT")
  | (Err _, _) => False
  end.
Proof. vm_compute. split; reflexivity. Qed.
