(* ===== verification/RoutingDocumentProps.v ===== *)
(** * What is shown and kept of a document

    The masking of an egress diff, and the document a node runs once a lane is withdrawn. *)

From S2P Require Import Prelude BTree Utf8 Numeric Json PyText IndexMap Plan IpAddr PyIp TextFacts Difflib Effect.
From S2P Require Import RoutingNet RoutingModel RoutingDocument RoutingCompiler RoutingCompileFacts.

(** ** Masking a line *)

Definition no_quote (l : list char) : Prop := QUOTE ∉ l.

Lemma no_quote_check l : forallb (fun c => negb (c =? QUOTE)%N) l = true -> no_quote l.
Proof. intros H Hin. rewrite forallb_forall in H. specialize (H QUOTE). rewrite <-list_elem_of_In in H. by apply H in Hin. Qed.

Lemma after_quote_shorter l k : after_quote l = Some k -> (length k < length l)%nat.
Proof. revert k. induction l as [|c l IH]; intros k; [done|]. cbn [after_quote]. destruct (_ =? _)%N; [intros [= <-]; simpl; lia|]. intros Hk%IH. simpl. lia. Qed.
Lemma strip_chars_app key rest k : strip_chars key rest = Some k -> rest = key ++ k.
Proof.
  revert rest. induction key as [|c key IH]; intros [|d rest]; cbn [strip_chars]; try (by intros [= <-]). 
  destruct (c =? d)%N eqn:E; [|done]. apply N.eqb_eq in E as ->. by intros ->%IH.
Qed.
Lemma span_chars_app p l x y : span_chars p l = (x, y) -> l = x ++ y.
Proof.
  revert x y. induction l as [|c l IH]; intros x y; cbn [span_chars]; [by intros [= <- <-]|]. destruct (p c); [|by intros [= <- <-]].
  destruct (span_chars p l) as [a b]. intros [= <- <-]. by rewrite (IH a b eq_refl).
Qed.

Lemma mask_value_shorter key rest out tail : mask_value key rest = Some (out, tail) -> (length tail < length rest)%nat.
Proof.
  unfold mask_value. destruct (strip_chars key rest) as [a|] eqn:H1; [|done]. cbn [mbind option_bind]. destruct (span_chars is_space a) as [s b] eqn:H2.
  destruct (strip_chars [QUOTE] b) as [v|] eqn:H3; [|done]. cbn [mbind option_bind]. destruct (after_quote v) as [t|] eqn:H4; [|done].
  intros [= <- <-]. apply strip_chars_app in H1 as ->. apply span_chars_app in H2 as ->. apply strip_chars_app in H3 as ->.
  apply after_quote_shorter in H4. rewrite !length_app. simpl. lia.
Qed.
Lemma mask_here_shorter keys rest out tail : mask_here keys rest = Some (out, tail) -> (length tail < length rest)%nat.
Proof.
  induction keys as [|key keys IH]; cbn [mask_here]; [done|]. destruct (mask_value key rest) as [[o t]|] eqn:Hm; [|done].
  intros [= <- <-]. by eapply mask_value_shorter.
Qed.

(** More fuel than the line's length changes nothing. *)
Lemma redact_chars_fuel n : forall rest, (length rest <= n)%nat -> redact_chars n rest = redact_chars (length rest) rest.
Proof.
  induction n as [n IH] using lt_wf_ind. intros [|c rest] Hn; [by destruct n|]. destruct n as [|n]; [simpl in Hn; lia|].
  cbn [length redact_chars]. simpl in Hn. destruct (mask_here secret_keys (c :: rest)) as [[out tail]|] eqn:Hm.
  - apply mask_here_shorter in Hm. simpl in Hm. rewrite (IH n) by lia. destruct (decide (length rest = n)) as [->|Hne].
    + destruct (decide (length tail = n)) as [->|?]; [done|]. by rewrite (IH n) by lia.
    + by rewrite (IH (length rest)) by lia.
  - destruct (decide (length rest = n)) as [->|Hne]; [done|]. by rewrite (IH n) by lia.
Qed.

Definition redact_list (l : list char) : list char := redact_chars (length l) l.

Lemma redact_list_cons c l : redact_list (c :: l) = match mask_here secret_keys (c :: l) with
  | Some (out, tail) => out ++ redact_list tail | None => c :: redact_list l end.
Proof.
  unfold redact_list at 1. cbn [length redact_chars]. destruct (mask_here secret_keys (c :: l)) as [[out tail]|] eqn:Hm; [|done].
  apply mask_here_shorter in Hm. simpl in Hm. unfold redact_list. by rewrite redact_chars_fuel by lia.
Qed.

(** The two keys, with their quotes and colon. *)
Definition uuid_key : list char := chars (dq +:+ "uuid" +:+ dq +:+ ":").
Definition password_key : list char := chars (dq +:+ "password" +:+ dq +:+ ":").
Definition stars : list char := chars (dq +:+ "***" +:+ dq).

Lemma secret_keys_eq : secret_keys = [uuid_key; password_key].
Proof. done. Qed.

Lemma redact_no_quote pre rest : no_quote pre -> redact_list (pre ++ rest) = pre ++ redact_list rest.
Proof.
  induction pre as [|c pre IH]; intros Hn; [done|]. cbn [app]. rewrite redact_list_cons.
  assert (Hc : c <> QUOTE) by (intros ->; apply Hn; by left).
  assert (Hm : mask_here secret_keys (c :: pre ++ rest) = None).
  { rewrite secret_keys_eq. cbn [mask_here]. assert (Hs : forall key, strip_chars (QUOTE :: key) (c :: pre ++ rest) = None).
    { intros key. cbn [strip_chars]. by rewrite (proj2 (N.eqb_neq _ _) (not_eq_sym Hc)). }
    unfold mask_value. change uuid_key with (QUOTE :: tail uuid_key). change password_key with (QUOTE :: tail password_key). by rewrite !Hs. }
  rewrite Hm, IH; [done|]. intros Hx. apply Hn. by right.
Qed.

Lemma strip_chars_here key rest : strip_chars key (key ++ rest) = Some rest.
Proof. induction key as [|c key IH]; [done|]. cbn [app strip_chars]. by rewrite N.eqb_refl. Qed.
Lemma span_chars_here p x c rest : forallb p x = true -> p c = false -> span_chars p (x ++ c :: rest) = (x, c :: rest).
Proof.
  intros Hx Hc. induction x as [|d x IH]; cbn [app span_chars]; [by rewrite Hc|]. simpl in Hx. apply andb_prop in Hx as [H1 H2].
  by rewrite H1, IH.
Qed.
Lemma after_quote_here x rest : no_quote x -> after_quote (x ++ QUOTE :: rest) = Some rest.
Proof.
  induction x as [|c x IH]; intros Hn; [done|]. cbn [app after_quote]. assert (Hc : c <> QUOTE) by (intros ->; apply Hn; by left).
  rewrite (proj2 (N.eqb_neq _ _) Hc). apply IH. intros Hx. apply Hn. by right.
Qed.
Lemma mask_value_here key spaces secret rest : forallb is_space spaces = true -> no_quote secret ->
  mask_value key (key ++ spaces ++ QUOTE :: secret ++ QUOTE :: rest) = Some (key ++ spaces ++ stars, rest).
Proof.
  intros Hs Hn. unfold mask_value. rewrite strip_chars_here. cbn [mbind option_bind].
  rewrite (span_chars_here is_space spaces QUOTE) by done. change (strip_chars [QUOTE] (QUOTE :: ?l)) with (Some l). cbn [mbind option_bind].
  by rewrite after_quote_here.
Qed.

Lemma redact_list_step l out tail : mask_here secret_keys l = Some (out, tail) -> redact_list l = out ++ redact_list tail.
Proof. intros Hm. destruct l as [|c l]; [done|]. by rewrite redact_list_cons, Hm. Qed.

Lemma redact_key key spaces secret rest : key = uuid_key \/ key = password_key -> forallb is_space spaces = true -> no_quote secret ->
  redact_list (key ++ spaces ++ QUOTE :: secret ++ QUOTE :: rest) = key ++ spaces ++ stars ++ redact_list rest.
Proof.
  intros Hk Hs Hn. rewrite (redact_list_step _ (key ++ spaces ++ stars) rest); [by rewrite <-!app_assoc|].
  rewrite secret_keys_eq. pose proof (mask_value_here key spaces secret rest Hs Hn) as Hm. cbn [mask_here].
  destruct Hk as [-> | ->]; [by rewrite Hm|].
  change (mask_value uuid_key (password_key ++ ?l)) with (@None (list char * list char)). by rewrite Hm.
Qed.

Lemma redact_line_chars l : forallb scalar l = true -> redact_line (of_chars l) = of_chars (redact_list l).
Proof. intros H. unfold redact_line. by rewrite chars_of_chars. Qed.

(** The diff an operator is shown does not depend on the secrets of a line: after text without a
    quotation mark, the value of a [uuid] or [password] is replaced by three stars whatever it was, and
    the rest of the line is masked in its turn. The value ends at the first quotation mark. *)
Theorem redact_line_masks (pre key spaces secret rest : list char)
  (Hkey : key = uuid_key \/ key = password_key) (Hspaces : forallb is_space spaces = true)
  (Hpre : no_quote pre) (Hsecret : no_quote secret)
  (Hscalar : forallb scalar (pre ++ key ++ spaces ++ QUOTE :: secret ++ QUOTE :: rest) = true) :
  redact_line (of_chars (pre ++ key ++ spaces ++ QUOTE :: secret ++ QUOTE :: rest)) =
  of_chars (pre ++ key ++ spaces ++ stars) +:+ redact_line (of_chars rest).
Proof.
  rewrite redact_line_chars by done. rewrite redact_no_quote, redact_key by done. rewrite redact_line_chars.
  - by rewrite <-of_chars_app, <-!app_assoc.
  - rewrite !forallb_app in Hscalar. do 3 apply andb_prop in Hscalar as [_ Hscalar]. simpl in Hscalar. rewrite forallb_app in Hscalar.
    apply andb_prop in Hscalar as [_ Hscalar]. by simpl in Hscalar.
Qed.

Lemma redact_line_masks_witness :
  redact_line ("+     " +:+ dq +:+ "uuid" +:+ dq +:+ ": " +:+ dq +:+ "5e0c" +:+ dq +:+ ",") =
  "+     " +:+ dq +:+ "uuid" +:+ dq +:+ ": " +:+ dq +:+ "***" +:+ dq +:+ redact_line ",".
Proof.
  exact (redact_line_masks (chars "+     ") uuid_key (chars " ") (chars "5e0c") (chars ",") (or_introl eq_refl) eq_refl (no_quote_check (chars "+     ") eq_refl) (no_quote_check (chars "5e0c") eq_refl) eq_refl).
Defined.

(** A value with a quotation mark, which JSON writes after a backslash, is masked up to it only: what
    follows of the secret is shown. *)
Lemma redact_line_shows_tail : redact_line (dq +:+ "password" +:+ dq +:+ ": " +:+ dq +:+ "ab\" +:+ dq +:+ "cd" +:+ dq) =
  dq +:+ "password" +:+ dq +:+ ": " +:+ dq +:+ "***" +:+ dq +:+ "cd" +:+ dq.
Proof. vm_compute. reflexivity. Qed.

(** ** Withdrawing a lane *)

Lemma names_used_true used prefix id : names_used used prefix id = true <-> Str (prefix +:+ ":" +:+ id) ∈ used.
Proof.
  unfold names_used. rewrite existsb_exists. setoid_rewrite bool_decide_eq_true. split.
  - intros (v & Hv & Hs). apply list_elem_of_In in Hv. destruct v; simplify_eq/=. done.
  - intros H. exists (Str (prefix +:+ ":" +:+ id)). split; [by apply list_elem_of_In|done].
Qed.

(** The entries that are left are the used ones, with what they said. *)
Lemma kept_field used section prefix m id : names_used used prefix id = true ->
  field id (Object (kept_entries used section prefix m)) = field id (default Null (bget section m)).
Proof.
  intros H. unfold kept_entries, field. destruct (bget section m) as [[| | | | |entries]|]; try done. cbn [default].
  by rewrite bget_filter_key, H.
Qed.
Lemma kept_used used section prefix m id : bget id (kept_entries used section prefix m) <> None -> names_used used prefix id = true.
Proof.
  unfold kept_entries. destruct (bget section m) as [[| | | | |entries]|]; try done. rewrite bget_filter_key. by destruct (names_used _ _ _).
Qed.

Section withdrawn.
Context (m : imap Value) (lanes : imap Value) (lane : string).
Context (Hm : iok m) (Hschema : bget "schema" m = Some (json_int 2)) (Hlanes : bget "lanes" m = Some (Object lanes)).

Definition others : imap Value := List.filter (fun e => negb (e.1 =?s lane)) lanes.
Definition withdrawn : Value := without_lane (Object m) lane.

Lemma withdrawn_cases : (bhas lane lanes = false /\ withdrawn = Object m) \/
  (exists r, withdrawn = Object r /\ bget "lanes" r = Some (Object others)
    /\ bget "chains" r = Some (Object (kept_entries (used_egresses others) "chains" "chain" m))
    /\ field "exits" withdrawn = match kept_entries (used_egresses others) "exits" "exit" m with [] => Null | e => Object e end).
Proof.
  unfold withdrawn. cbn [without_lane]. rewrite Hlanes, Hschema. change (negb (py_eq (default Null (Some (json_int 2))) (json_int 2))) with false.
  cbn [orb]. destruct (bhas lane lanes) eqn:Hl; cbn [negb]; [right|by left]. cbv zeta. fold others. set (used := used_egresses others).
  set (result := iset "chains" _ (iset "lanes" _ m)). set (exits := kept_entries used "exits" "exit" m).
  assert (Hok : iok result) by by apply iok_iset, iok_iset.
  assert (Hr : bget "lanes" result = Some (Object others) /\ bget "chains" result = Some (Object (kept_entries used "chains" "chain" m))).
  { unfold result. by rewrite !bget_iset. }
  destruct Hr as [H1 H2]. destruct (bhas "exits" m) eqn:Hx.
  - destruct exits as [|e l]; eexists; (split; [reflexivity|]).
    + unfold field. rewrite !bget_idel by done. by rewrite H1, H2.
    + unfold field. rewrite !bget_iset. by rewrite H1, H2.
  - eexists. split; [reflexivity|]. split; [done|]. split; [done|]. unfold bhas in Hx. destruct (bget "exits" m) eqn:Hb; [done|].
    unfold exits, kept_entries. rewrite Hb. unfold field, result. rewrite !bget_iset. cbn. by rewrite Hb.
Qed.

(** What a kept lane names is what it was. *)
Lemma withdrawn_deref e : e ∈ used_egresses others -> deref withdrawn e = deref (Object m) e.
Proof.
  intros He. destruct withdrawn_cases as [[_ ->]|(r & Hr & H1 & H2 & H3)]; [done|]. unfold deref. destruct e as [| | |t| |]; try done.
  destruct (strip_prefix "chain:" t) as [id|] eqn:Hc.
  - apply strip_prefix_iff in Hc as ->. rewrite Hr. change (field "chains" (Object r)) with (default Null (bget "chains" r)). rewrite H2.
    apply kept_field, names_used_true. exact He.
  - destruct (strip_prefix "exit:" t) as [id|] eqn:Hx; [|done]. apply strip_prefix_iff in Hx as ->. rewrite H3.
    change (field "exits" (Object m)) with (default Null (bget "exits" m)).
    rewrite <-(kept_field (used_egresses others) "exits" "exit" m id); [destruct (kept_entries (used_egresses others) "exits" "exit" m); reflexivity|]. apply names_used_true. exact He.
Qed.

Lemma deref_in_same v : field "egress" v ∈ used_egresses others -> deref_in withdrawn v = deref_in (Object m) v.
Proof.
  destruct v as [| | | | |b]; try done. unfold field, deref_in. intros He. f_equal.
  induction b as [|[k v] b IH]; [done|]. cbn [iupd bget default] in *. destruct ("egress" =?s k); [|by rewrite IH].
  cbn in He. by rewrite withdrawn_deref.
Qed.

Lemma bget_others key : bget key others = if key =?s lane then None else bget key lanes.
Proof. unfold others. rewrite (bget_filter_key (fun k => negb (k =?s lane))). by destruct (key =?s lane). Qed.

Lemma used_in_body key body : bget key others = Some body ->
  field "egress" (field "default" body) ∈ used_egresses others
  /\ forall v, v ∈ elements (field "rules" body) -> field "egress" v ∈ used_egresses others.
Proof.
  intros Hb. assert (Hin : body ∈ ivalues others).
  { unfold ivalues. apply list_elem_of_In. apply (in_map snd others (key, body)). by apply list_elem_of_In, bget_Some_In. }
  unfold used_egresses. split.
  - apply elem_of_app. right. apply list_elem_of_In. apply (in_map (fun body => field "egress" (field "default" body))). by apply list_elem_of_In.
  - intros v Hv. apply elem_of_app. left. apply list_elem_of_In, in_concat. eexists. split.
    + apply in_map. apply list_elem_of_In. exact Hin.
    + apply in_map. by apply list_elem_of_In.
Qed.
End withdrawn.

(** C29: Withdrawing a lane takes that lane and nothing from the others. In a document of the second
    schema every other lane still reads, default and rules, as it did, each egress leading to the same
    chain or exit; the lane itself is gone; and no chain is left that no lane uses. *)
Theorem without_lane_keeps_others (m lanes : imap Value) (lane : string)
  (Hm : iok m) (Hschema : bget "schema" m = Some (json_int 2)) (Hlanes : bget "lanes" m = Some (Object lanes)) (Hin : bhas lane lanes = true) :
  let d := without_lane (Object m) lane in
  field lane (field "lanes" d) = Null
  /\ (forall key body, key <> lane -> bget key lanes = Some body ->
        read_default d key = read_default (Object m) key /\ read_rules d key = read_rules (Object m) key)
  /\ (forall id, field id (field "chains" d) <> Null -> Str ("chain:" +:+ id) ∈ used_egresses (others lanes lane)).
Proof.
  intros d. destruct (withdrawn_cases m lanes lane Hm Hschema Hlanes) as [[Hx _]|(r & Hr & H1 & H2 & _)]; [congruence|].
  change (withdrawn m lane) with d in Hr. assert (Hl : field "lanes" d = Object (others lanes lane)) by (unfold field; by rewrite Hr, H1).
  split; [rewrite Hl; unfold field; by rewrite bget_others, eqb_s_refl|]. split.
  - intros key body Hne Hb. assert (Ho : bget key (others lanes lane) = Some body) by (rewrite bget_others; by rewrite (proj2 (eqb_s_false _ _) Hne)).
    destruct (used_in_body lanes lane key body Ho) as [Hd Hrs].
    assert (Hbody : body_of d key = body /\ body_of (Object m) key = body).
    { unfold body_of. rewrite Hl. unfold field. by rewrite Hlanes, Ho; cbn; rewrite Hb. }
    destruct Hbody as [B1 B2]. unfold read_default, read_rules. rewrite B1, B2. split; [by eapply deref_in_same|].
    apply map_ext_in. intros v Hv. eapply deref_in_same; try done. apply Hrs. by apply list_elem_of_In.
  - intros id Hid. apply (names_used_true _ "chain"). apply (kept_used _ "chains" _ m). intros Hn. apply Hid. rewrite Hr.
    change (field "chains" (Object r)) with (default Null (bget "chains" r)). rewrite H2. cbn. by rewrite Hn.
Qed.

(** A document with a lane of its own chain. *)
Definition sample_lanes : imap Value :=
  [("svc:naive", Object [("default", default_of DefaultAction.Egress (Str "chain:c1")); ("rules", Array [])]);
   ("grant:g1", Object [("default", default_of DefaultAction.Egress (Str "chain:c2")); ("rules", Array [])])].
Definition sample_document : imap Value :=
  [("schema", json_int 2); ("lanes", Object sample_lanes); ("chains", Object [("c1", Str "one"); ("c2", Str "two")])].

Lemma without_lane_keeps_others_witness :
  let d := without_lane (Object sample_document) "grant:g1" in
  field "chains" d = Object [("c1", Str "one")]
  /\ read_default d "svc:naive" = read_default (Object sample_document) "svc:naive".
Proof.
  assert (Hm : iok sample_document) by (apply (bool_decide_unpack _); vm_compute; exact I).
  split; [vm_compute; reflexivity|].
  refine (proj1 (proj1 (proj2 (without_lane_keeps_others sample_document sample_lanes "grant:g1" Hm eq_refl eq_refl eq_refl)) "svc:naive" _ _ eq_refl)).
  apply eqb_s_false. reflexivity.
Defined.
