(* ===== verification/RouterIp.v ===== *)
(** * The router's addresses and networks

    [xray_router_manager/src/ipaddr.rs]: the test of an address and the normal form of a network, as
    the router's manager reads them. It is a second port of the same Python module as [PyIp]; what the
    two ports write alike is shared with it. *)

From S2P Require Import Prelude Utf8 Numeric PyText IpAddr PyIp.
Local Open Scope N_scope.

(** [parse_v4]: a slash is refused with the octet it is in. *)
Definition parse_v4 (text : string) : option N :=
  if str_empty text then None else
  let octets := split_byte dot text in
  if negb (length octets =? 4)%nat then None else quad_value octets 0.

(** A dotted quad in the last place becomes two hextets. *)
Definition quad_part (parts : list string) : option (list string) :=
  match last parts with
  | Some tail =>
      if contains_s "." tail then
        v4 ← parse_v4 tail;
        Some (removelast parts ++ [fmt_hex (N.land (N.shiftr v4 16) 0xffff); fmt_hex (N.land v4 0xffff)])
      else Some parts
  | None => Some parts
  end.

Definition v6_int (text : string) : option N :=
  if str_empty text || (45 <? char_len text)%nat then None else
  let parts := split_byte colon text in
  if (length parts <? 3)%nat then None else
  parts ← quad_part parts;
  read_hextets parts.

Definition parse_v6 (text : string) : option (N * option string) :=
  '(address, scope) ←
    match split_once "%"%char text with
    | None => Some (text, None)
    | Some (address, scope) => if str_empty scope || contains_s "%" scope then None else Some (address, Some scope)
    end;
  if contains_s "/" address then None else
  value ← v6_int address;
  Some (value, scope).

(** The hextets with the first longest run of two zeros or more left out. *)
Definition hextets_text (value : N) : string :=
  let hextets := hextets value in
  match zero_run 0 hextets None 0 None 0 with
  | (Some best_start, best_len) =>
      if (1 <? best_len)%nat then join ":" (take best_start hextets) +:+ "::" +:+ join ":" (drop (best_start + best_len) hextets)
      else join ":" hextets
  | (None, _) => join ":" hextets
  end.

Definition format_v6 (value : N) (scope : option string) : string :=
  (if N.shiftr value 32 =? 0xffff then "::ffff:" +:+ ipv4_str (value mod 2 ^ 32) else hextets_text value)
  +:+ match scope with Some scope => "%" +:+ scope | None => EmptyString end.

Definition is_ip_address (text : string) : bool :=
  (negb (contains_s "/" text) && bool_decide (is_Some (parse_v4 text))) || bool_decide (is_Some (parse_v6 text)).

(** A number of more than nineteen digits that does not fit is too large, whatever it is. *)
Definition prefix_from_string (text : string) (max : N) : option N :=
  if str_empty text || negb (forallb_s is_digit text) then None else
  value ← match parse_u64 text with
          | Some v => Some (Z.to_N v)
          | None => if (19 <? String.length text)%nat then Some (Z.to_N u64_max) else None
          end;
  if value <=? max then Some value else None.

(** [value.trailing_zeros()] of a number that is not zero. *)
Fixpoint trailing_zeros (bits : nat) (value : N) : N :=
  match bits with O => 0 | S b => if N.testbit value 0 then 0 else 1 + trailing_zeros b (N.shiftr value 1) end.

Definition prefix_from_v4_int (value : N) : option N :=
  let trailing := if value =? 0 then 32 else trailing_zeros 32 value in
  let prefix := 32 - trailing in
  let leading := if trailing =? 32 then 0 else N.shiftr value trailing in
  if leading =? N.ones prefix then Some prefix else None.

Definition v4_netmask (text : string) : option N :=
  match prefix_from_string text 32 with
  | Some prefix => Some prefix
  | None =>
      value ← parse_v4 text;
      match prefix_from_v4_int value with
      | Some prefix => Some prefix
      | None => prefix_from_v4_int (N.lxor value (N.ones 32))
      end
  end.

(** [network]: an IPv4 text whose mask does not read is tried as IPv6, which it is not. *)
Definition network (text : string) : option string :=
  match split_byte "/"%char text with
  | [] => None
  | address :: rest =>
      if (1 <? length rest)%nat then None else
      match (ip ← parse_v4 address; prefix ← match head rest with Some mask => v4_netmask mask | None => Some 32 end; Some (ip, prefix)) with
      | Some (ip, prefix) => Some (ipv4_str (N.land ip (prefix_mask 32 prefix)) +:+ "/" +:+ fmt_N prefix)
      | None =>
          '(ip, scope) ← parse_v6 address;
          prefix ← match head rest with Some mask => prefix_from_string mask 128 | None => Some 128 end;
          let masked := N.land ip (prefix_mask 128 prefix) in
          Some (format_v6 masked (if masked =? ip then scope else None) +:+ "/" +:+ fmt_N prefix)
      end
  end.

Example network_tests :
  map network ["10.1.2.3/8"; "10.9.0.0/0.255.255.255"; "1.2.3.4/024"; "01.2.3.4"; "::ffff:0:0/96"; "::1.2.3.4"; "1:2:3:4:5:6:7::";
               "fe80::%eth0/64"; "fe80::1%eth0/64"; "1.2.3.4/255.255.0.255"; "2001:db8::1/ffff::"] =
  [Some "10.0.0.0/8"; Some "10.0.0.0/8"; Some "1.2.3.0/24"; None; Some "::ffff:0.0.0.0/96"; Some "::102:304/128"; Some "1:2:3:4:5:6:7:0/128";
   Some "fe80::%eth0/64"; Some "fe80::/64"; None; None].
Proof. vm_compute. reflexivity. Qed.
