(* ===== verification/RouterIntent.v ===== *)
(** * The router's intent

    [xray_router_manager/src/intent.rs] with the errors of [errors.rs] and the numbers of [util.rs]: the
    document the panel compiles, as the router's manager validates and normalises it, its lanes, what it
    uses, and the provider's endpoint. The probe of the provider ([check_reachable]) is network code. *)

From Stdlib Require Import SpecFloat.
From S2P Require Import Prelude BTree Utf8 Numeric Json PyText IndexMap Plan IpAddr PyIp RouterIp.

(** ** [errors.rs] *)

Inductive RouterError :=
| EgressInvalid (message code : string)
| EgressUnreachable (message : string)
| Xray (message : string)
| ArtifactMismatch (message : string)
| Conflict (message code : string)
| Manual (message : string)
| Validation (message : string)
| Geodata (message code : string)
| Internal (message : string).

Definition invalid (message : string) : RouterError := EgressInvalid message "egress_invalid".
Definition conflict (message code : string) : RouterError := Conflict message code.
Definition geodata (message code : string) : RouterError := Geodata message code.
Definition error_code (e : RouterError) : option string :=
  match e with EgressInvalid _ code | Conflict _ code | Geodata _ code => Some code | _ => None end.
Definition error_text (e : RouterError) : string :=
  match e with
  | EgressInvalid m _ | Conflict m _ | Geodata m _ | EgressUnreachable m | Xray m | ArtifactMismatch m | Manual m | Validation m | Internal m => m
  end.

Abbreviation Checked := (result RouterError).
Definition refused {A} (message : string) : Checked A := Err (invalid message).
(** [if !b { return Err(..) }]. *)
Definition require (b : bool) (message : string) : Checked unit := if b then Ok tt else refused message.

(** ** Constants *)

Definition SCHEMA : Z := 1.
Definition SERVICES : list string := ["naive"; "mieru"; "mtproxy"; "trusttunnel"; "amneziawg"].
Definition NOAUTH_SERVICES : list string := ["trusttunnel"].
Definition NO_LANE_SERVICES : list string := ["mtproxy"; "trusttunnel"; "amneziawg"].
Definition TUN_SERVICES : list string := ["amneziawg"].
Definition WARP_WG_TAG : string := "warp-wg".
Definition PORTS : list (string * Z) := [("naive", 45101%Z); ("mieru", 45102%Z)].
Definition PROVIDERS : list string := ["warp"].
Definition ACTIONS : list string := ["direct"; "block"; "egress"].
Definition DEFAULT_ACTIONS : list string := ["direct"; "egress"].
Definition CAPABILITIES : list string :=
  ["whole_direct"; "whole_warp"; "block_domain"; "block_cidr"; "block_port"; "block_geosite"; "block_geoip"; "selective_domain";
   "selective_cidr"; "selective_port"; "selective_geosite"; "selective_geoip"; "geodata"; "block_protocol"; "selective_protocol"; "custom_exits"].
Definition EXIT_PROTOCOLS : list string := ["socks"; "http"; "vless"; "trojan"; "shadowsocks"].
Definition EXIT_NETWORKS : list string := ["tcp"; "ws"; "grpc"; "xhttp"].
Definition EXIT_SECURITY : list string := ["none"; "tls"; "reality"].
Definition EXIT_FLOWS : list string := [EmptyString; "xtls-rprx-vision"].
Definition SS_METHODS : list string :=
  ["aes-128-gcm"; "aes-256-gcm"; "chacha20-ietf-poly1305"; "2022-blake3-aes-128-gcm"; "2022-blake3-aes-256-gcm";
   "2022-blake3-chacha20-poly1305"; "none"].
Definition FINGERPRINTS : list string := ["chrome"; "firefox"; "safari"; "ios"; "android"; "edge"; "360"; "qq"; "random"; "randomized"].
Definition SNIFFED_PROTOCOLS : list string := ["http"; "tls"; "quic"; "bittorrent"].
Definition MAX_EXITS : nat := 16.
Definition MAX_PROTOCOLS : nat := 4.
Definition MAX_RULES : nat := 128.
Definition MAX_SELECTORS : nat := 64.
Definition MAX_PORTS : nat := 32.
Definition MAX_DOCUMENT_BYTES : N := 16384.
Definition SCHEMA_V2 : Z := 2.
Definition MAX_LANES : nat := 32.
Definition MAX_CHAINS : nat := 16.
Definition MAX_HOPS : nat := 3.
Definition MAX_DOCUMENT_BYTES_V2 : N := 65536.
Definition CHAIN_EXITS : list string := ["direct"; "warp"].

(** ** Words *)

Definition is_in (value : option Value) (set : list string) : bool :=
  match value ≫= as_str with Some text => mem_str text set | None => false end.

Definition is_lower_or_digit (a : Ascii.ascii) : bool := let n := Ascii.N_of_ascii a in (((97 <=? n) && (n <=? 122)) || is_digit a)%N.
Definition is_alphanum (a : Ascii.ascii) : bool := let n := Ascii.N_of_ascii a in (((65 <=? n) && (n <=? 90)) || is_lower_or_digit a)%N.
Definition is_word_byte (a : Ascii.ascii) : bool := is_alphanum a || Ascii.eqb a "_"%char || Ascii.eqb a "-"%char.

Definition word (text : string) (min max : nat) : bool :=
  ((min <=? String.length text) && (String.length text <=? max))%nat && forallb_s is_word_byte text.
Definition is_short_word (text : string) : bool := word text 1 32.

Definition is_lane (text : string) : bool :=
  match strip_prefix "svc:" text with
  | Some service => mem_str service SERVICES
  | None => match strip_prefix "grant:" text with Some id => word id 1 64 | None => false end
  end.

(** [0-9a-f]. *)
Definition is_lower_hex (a : Ascii.ascii) : bool := let n := Ascii.N_of_ascii a in (is_digit a || ((97 <=? n) && (n <=? 102)))%N.

Definition is_uuid (text : string) : bool :=
  let groups := split_byte "-"%char text in
  (length groups =? 5)%nat
  && forallb (fun e => (String.length e.1 =? e.2)%nat && forallb_s is_lower_hex e.1) (combine groups [8%nat; 4%nat; 4%nat; 4%nat; 12%nat]).
Definition is_public_key (text : string) : bool := word text 43 43.
Definition is_short_id (text : string) : bool :=
  (String.length text <=? 16)%nat && (String.length text mod 2 =? 0)%nat && forallb_s is_lower_hex text.

Definition is_label (label : string) : bool :=
  ((1 <=? String.length label) && (String.length label <=? 63))%nat
  && forallb_s (fun b => is_lower_or_digit b || Ascii.eqb b "-"%char) label
  && negb (is_byte "-"%char (first_byte label)) && negb (is_byte "-"%char (last_byte label)).
Definition is_dns_name (host : string) : bool :=
  ((1 <=? char_len host) && (char_len host <=? 253))%nat && negb (contains_s (String (Ascii.ascii_of_nat 10) EmptyString) host)
  && forallb is_label (split_byte dot host).

Definition is_geo_code (text : string) : bool :=
  ((1 <=? String.length text) && (String.length text <=? 64))%nat
  && match first_byte text with Some b => is_lower_or_digit b | None => false end
  && forallb_s (fun b => is_lower_or_digit b || Ascii.eqb b "@"%char || Ascii.eqb b "!"%char || Ascii.eqb b "_"%char || Ascii.eqb b "-"%char) text.

(** ** JSON values as Python sees them ([pc_common/src/pyvalue.rs], [util.rs]) *)

Definition strict_int (v : Value) : option Z := match v with Num (NInt z) => Some z | _ => None end.

(** [bool(value)]. *)
Definition truthy (v : Value) : bool :=
  match v with
  | Null => false
  | Bool flag => flag
  | Num (NInt z) => negb (z =? 0)%Z
  | Num (NFloat f) => negb (SFeqb f (S754_zero false))
  | Str text => negb (str_empty text)
  | Array items => match items with [] => false | _ => true end
  | Object map => match map with [] => false | _ => true end
  end.

(** [value == n] with [True == 1] and [2.0 == 2], where [f] is the double of [n]. *)
Definition py_eq_int (value : option Value) (n : Z) (f : f64) : bool :=
  match value with
  | Some (Bool flag) => ((if flag then 1 else 0) =? n)%Z
  | Some (Num (NInt z)) => (z =? n)%Z
  | Some (Num (NFloat x)) => SFeqb x f
  | _ => false
  end.
Definition one : f64 := S754_finite false 4503599627370496 (-52).
Definition two : f64 := S754_finite false 4503599627370496 (-51).
Definition is_schema_1 (value : option Value) : bool := py_eq_int value SCHEMA one.
Definition is_schema_2 (value : option Value) : bool := py_eq_int value SCHEMA_V2 two.

(** The zeros of the runs of decimal digits of Unicode 15.1. *)
Definition DECIMAL_ZEROS : list N :=
  [0x30; 0x660; 0x6f0; 0x7c0; 0x966; 0x9e6; 0xa66; 0xae6; 0xb66; 0xbe6; 0xc66; 0xce6; 0xd66; 0xde6; 0xe50; 0xed0; 0xf20; 0x1040; 0x1090;
   0x17e0; 0x1810; 0x1946; 0x19d0; 0x1a80; 0x1a90; 0x1b50; 0x1bb0; 0x1c40; 0x1c50; 0xa620; 0xa8d0; 0xa900; 0xa9d0; 0xa9f0; 0xaa50; 0xabf0;
   0xff10; 0x104a0; 0x10d30; 0x11066; 0x110f0; 0x11136; 0x111d0; 0x112f0; 0x11450; 0x114d0; 0x11650; 0x116c0; 0x11730; 0x118e0; 0x11950;
   0x11c50; 0x11d50; 0x11da0; 0x11f50; 0x16a60; 0x16ac0; 0x16b50; 0x1d7ce; 0x1d7d8; 0x1d7e2; 0x1d7ec; 0x1d7f6; 0x1e140; 0x1e2f0; 0x1e4f0;
   0x1e950; 0x1fbf0]%N.
Definition py_decimal (c : char) : option N :=
  (fun zero => c - zero)%N <$> List.find (fun zero => (zero <=? c) && (c <? zero + 10))%N DECIMAL_ZEROS.

(** The digits of [int(text, base)], underscores skipped; [None] past 127 bits. *)
Fixpoint int_digits (base : N) (l : list char) (value : N) : option N :=
  match l with
  | [] => Some value
  | c :: rest =>
      if (c =? 95)%N then int_digits base rest value else
      digit ← py_decimal c;
      let next := (value * base + digit)%N in
      if (digit <? base)%N && (next <? 2 ^ 127)%N then int_digits base rest next else None
  end.

(** Two underscores in a row. *)
Fixpoint double_underscore (l : list char) : bool :=
  match l with
  | a :: ((b :: _) as rest) => ((a =? 95) && (b =? 95))%N || double_underscore rest
  | _ => false
  end.

Definition octal_digits (digits : list char) : list char :=
  match digits with
  | 48%N :: o :: rest => if ((o =? 111) || (o =? 79))%N then match rest with 95%N :: rest' => rest' | _ => rest end else digits
  | _ => digits
  end.

Definition py_int (text : string) (base : N) : option Z :=
  let l := chars (strip text) in
  let '(negative, digits) := match l with 45%N :: rest => (true, rest) | 43%N :: rest => (false, rest) | _ => (false, l) end in
  let digits := if (base =? 8)%N then octal_digits digits else digits in
  if match digits with [] => true | c :: _ => (c =? 95)%N end || match last digits with Some c => (c =? 95)%N | None => false end
     || double_underscore digits then None else
  value ← int_digits base digits 0;
  Some (if (negative : bool) then (- Z.of_N value)%Z else Z.of_N value).
Definition i128_max : Z := 2 ^ 127 - 1.

(** ** Selectors *)

Section selectors.
Context {UT : UnicodeText}.

Definition domain (value : option Value) : Checked string :=
  match value ≫= as_str with
  | None => refused "invalid domain"
  | Some text =>
      if str_empty text || (255 <? char_len text)%nat || existsb is_space (chars text) then refused "invalid domain" else
      let candidate := trim_end_byte "."%char (to_lowercase text) in
      let host := default candidate (strip_prefix "*." candidate) in
      if str_empty host || contains_s "*" host || contains_s "/" host || negb (is_dns_name host) then refused "invalid domain"
      else Ok candidate
  end.

Definition cidr (value : Value) : Checked Value :=
  match strip <$> as_str value with
  | Some text =>
      if str_empty text then refused "invalid cidr"
      else match network text with Some net => Ok (Str net) | None => refused "invalid cidr" end
  | None => refused "invalid cidr"
  end.

Definition geo_code (kind : string) (value : Value) : Checked Value :=
  match as_str value with
  | Some text =>
      if is_geo_code text then
        if (kind =?s "geoip") && (text =?s "private") then refused "geoip:private is the router's bypass, not a rule" else Ok value
      else refused ("invalid " +:+ kind +:+ " code")
  | None => refused ("invalid " +:+ kind +:+ " code")
  end.

Definition protocol_name (value : Value) : Checked Value :=
  if is_in (Some value) SNIFFED_PROTOCOLS then Ok value else refused "invalid protocol selector".

Definition port_number (value : Z) : Checked Value :=
  if ((1 <=? value) && (value <=? 65535))%Z then Ok (json_int value) else refused "invalid port".

Definition port_part (part : string) : bool := ((1 <=? String.length part) && (String.length part <=? 5))%nat && forallb_s is_digit part.
Definition port_range (text : string) : option (N * N) :=
  '(low, high) ← split_once "-"%char text;
  if port_part low && port_part high then
    Some (Z.to_N (default 0%Z (parse_u32 low)), Z.to_N (default 0%Z (parse_u32 high)))
  else None.

Definition port (value : Value) : Checked Value :=
  match value with
  | Num _ => match strict_int value with Some number => port_number number | None => refused "invalid port" end
  | Str text =>
      let text := strip text in
      if negb (str_empty text) && forallb (fun c => bool_decide (is_Some (py_decimal c))) (chars text)
      then port_number (default i128_max (py_int text 10))
      else
        match port_range text with
        | Some (low, high) =>
            if ((1 <=? low) && (low <=? high) && (high <=? 65535))%N then Ok (Str (fmt_N low +:+ "-" +:+ fmt_N high)) else refused "invalid port"
        | None => refused "invalid port"
        end
  | _ => refused "invalid port"
  end.

Definition unique (items : list Value) : list Value :=
  fold_left (fun seen item => if existsb (value_eqb item) seen then seen else seen ++ [item]) items [].

Definition selectors (rule : imap Value) (key : string) (convert : Value -> Checked Value) (limit : nat) : Checked (list Value) :=
  match bget key rule with
  | None => Ok []
  | Some (Array values) =>
      if (length values <=? limit)%nat then unique <$> mapM convert values else refused ("invalid " +:+ key +:+ " list")
  | Some _ => refused ("invalid " +:+ key +:+ " list")
  end.

Definition known_egress (chains exits : list string) (text : string) : bool :=
  mem_str text PROVIDERS
  || match strip_prefix "chain:" text with Some id => mem_str id chains | None => false end
  || match strip_prefix "exit:" text with Some id => mem_str id exits | None => false end.

Definition not_null (value : option Value) : option Value := match value with Some Null => None | v => v end.

Definition egress (action : string) (value : option Value) (label : string) (chains exits : list string) : Checked Value :=
  let value := not_null value in
  if action =?s "egress" then
    match value ≫= as_str with
    | Some text => if known_egress chains exits text then Ok (Str text) else refused (label +:+ " must name its egress provider")
    | None => refused (label +:+ " must name its egress provider")
    end
  else match value with Some _ => refused ("only an egress " +:+ label +:+ " names an egress provider") | None => Ok Null end.

Definition only_keys (map : imap Value) (allowed : list string) : bool := forallb (fun e => mem_str e.1 allowed) map.

(** [map[key]]. *)
Definition at_key (key : string) (map : imap Value) : Value := default Null (bget key map).
Definition text_at (key : string) (map : imap Value) : string := default EmptyString (as_str (at_key key map)).

(** ** A lane *)

Definition RULE_KEYS : list string := ["domains"; "geosites"; "cidrs"; "geoips"; "ports"; "protocols"; "action"; "egress"].

Definition validate_rule (chains exits : list string) (value : Value) : Checked Value :=
  match value with
  | Object rule =>
      _ ← require (only_keys rule RULE_KEYS) "invalid rule";
      _ ← require (is_in (bget "action" rule) ACTIONS) "invalid rule action";
      let action := text_at "action" rule in
      domains ← selectors rule "domains" (fun v => Str <$> domain (Some v)) MAX_SELECTORS;
      geosites ← selectors rule "geosites" (geo_code "geosite") MAX_SELECTORS;
      cidrs ← selectors rule "cidrs" cidr MAX_SELECTORS;
      geoips ← selectors rule "geoips" (geo_code "geoip") MAX_SELECTORS;
      ports ← selectors rule "ports" port MAX_PORTS;
      egress ← egress action (bget "egress" rule) "rule" chains exits;
      protocols ← selectors rule "protocols" protocol_name MAX_PROTOCOLS;
      let entry := [("domains", Array domains); ("geosites", Array geosites); ("cidrs", Array cidrs); ("geoips", Array geoips);
                    ("ports", Array ports); ("action", Str action); ("egress", egress)]
                   ++ match protocols with [] => [] | _ => [("protocols", Array protocols)] end in
      _ ← require (existsb (fun key => truthy (at_key key entry)) ["domains"; "geosites"; "cidrs"; "geoips"; "ports"; "protocols"])
            "a rule must name at least one selector";
      Ok (Object entry)
  | _ => refused "invalid rule"
  end.

(** The entries of a lane: its default and its rules. *)
Definition validate_lane (document : Value) (chains exits : list string) : Checked (imap Value) :=
  match document with
  | Object map =>
      _ ← require (only_keys map ["schema"; "default"; "rules"]) "unknown field in routing intent";
      match bget "default" map with
      | Some (Object d) =>
          _ ← require (only_keys d ["action"; "egress"] && is_in (bget "action" d) DEFAULT_ACTIONS) "invalid default";
          let default_action := text_at "action" d in
          default_egress ← egress default_action (bget "egress" d) "default" chains exits;
          rules ← match bget "rules" map with
                  | None => Ok []
                  | Some (Array rules) => if (length rules <=? MAX_RULES)%nat then Ok rules else refused "invalid rules list"
                  | Some _ => refused "invalid rules list"
                  end;
          normalised ← mapM (validate_rule chains exits) rules;
          Ok [("default", Object [("action", Str default_action); ("egress", default_egress)]); ("rules", Array normalised)]
      | _ => refused "invalid default"
      end
  | _ => refused "unknown field in routing intent"
  end.

(** ** Hops *)

Definition HOP_KEYS : list string := ["guid"; "address"; "port"; "server_name"; "public_key"; "short_id"; "uuid"].

(** [text(key).is_some_and(p)]. *)
Definition text_is (map : imap Value) (key : string) (p : string -> bool) : bool :=
  match as_str (at_key key map) with Some text => p text | None => false end.
Definition port_ok (value : Value) : bool := match strict_int value with Some p => ((1 <=? p) && (p <=? 65535))%Z | None => false end.

Definition hop (value : Value) : Checked Value :=
  match value with
  | Object map =>
      _ ← require ((length map =? length HOP_KEYS)%nat && only_keys map HOP_KEYS) "invalid chain hop";
      _ ← require (text_is map "guid" (fun guid => word guid 1 64)) "invalid hop guid";
      _ ← require (text_is map "address" (fun address => negb (str_empty address))) "invalid hop address";
      address ←
        (if text_is map "address" is_ip_address then Ok (text_at "address" map) else
         host ← domain (Some (at_key "address" map));
         _ ← require (negb (String.prefix "*." host)) "invalid hop address";
         Ok host);
      _ ← require (port_ok (at_key "port" map)) "invalid hop port";
      server_name ← domain (Some (at_key "server_name" map));
      _ ← require (negb (String.prefix "*." server_name)) "invalid hop server name";
      _ ← require (text_is map "public_key" is_public_key) "invalid hop public key";
      _ ← require (text_is map "short_id" is_short_id) "invalid hop short id";
      _ ← require (text_is map "uuid" is_uuid) "invalid hop credential";
      Ok (Object [("guid", at_key "guid" map); ("address", Str address); ("port", at_key "port" map); ("server_name", Str server_name);
                  ("public_key", at_key "public_key" map); ("short_id", at_key "short_id" map); ("uuid", at_key "uuid" map)])
  | _ => refused "invalid chain hop"
  end.

(** ** Custom exits *)

Definition host (value : option Value) (label : string) : Checked string :=
  match value ≫= as_str with
  | None => refused ("invalid " +:+ label)
  | Some text =>
      if str_empty text then refused ("invalid " +:+ label)
      else if is_ip_address text then Ok text
      else host ← domain value; _ ← require (negb (String.prefix "*." host)) ("invalid " +:+ label); Ok host
  end.

(** A carriage return, a line feed or a zero byte. *)
Definition has_control (text : string) : bool := existsb (fun c => (c =? 13) || (c =? 10) || (c =? 0))%N (chars text).
Definition text (value : option Value) (label : string) (limit : nat) (allow_empty : bool) : Checked Value :=
  match value ≫= as_str with
  | Some text =>
      if (char_len text <=? limit)%nat && (allow_empty || negb (str_empty text)) && negb (has_control text) then Ok (Str text)
      else refused ("invalid " +:+ label)
  | None => refused ("invalid " +:+ label)
  end.

Definition or_default (value : option Value) (default : Value) : Value :=
  match value with Some value => if truthy value then value else default | None => default end.
Definition present (value : option Value) : bool :=
  match value with None | Some Null => false | Some v => negb (bool_decide (as_str v = Some EmptyString)) end.

Definition exit_credential (protocol : string) (credential : imap Value) : Checked (imap Value) :=
  let given key := not_null (bget key credential) in
  let some (v : option Value) := match v with Some _ => true | None => false end in
  if mem_str protocol ["socks"; "http"] then
    _ ← require (Bool.eqb (some (given "username")) (some (given "password"))) "exit credential needs both username and password";
    if some (given "username") then
      username ← text (given "username") "exit username" 128 false;
      password ← text (given "password") "exit password" 256 false;
      Ok [("username", username); ("password", password)]
    else Ok []
  else if protocol =?s "vless" then
    match given "uuid" ≫= as_str with
    | Some uuid => if is_uuid uuid then Ok [("uuid", Str uuid)] else refused "invalid exit uuid"
    | None => refused "invalid exit uuid"
    end
  else password ← text (bget "password" credential) "exit password" 256 false; Ok [("password", password)].

(** [path], [host] and [service_name], where they are given. *)
Fixpoint transport_texts (transport : imap Value) (keys : list string) : Checked (imap Value) :=
  match keys with
  | [] => Ok []
  | key :: rest =>
      if present (bget key transport) then
        value ← text (bget key transport) ("exit transport " +:+ key) 512 false;
        others ← transport_texts transport rest;
        Ok ((key, value) :: others)
      else transport_texts transport rest
  end.

Definition exit_transport (tcp_only : bool) (value : option Value) : Checked (string * imap Value) :=
  match or_default value (Object [("network", Str "tcp")]) with
  | Object transport =>
      _ ← require (only_keys transport ["network"; "path"; "host"; "service_name"]) "invalid exit transport";
      let network := default (Str "tcp") (bget "network" transport) in
      _ ← require (is_in (Some network) EXIT_NETWORKS) "invalid exit transport network";
      let network := default EmptyString (as_str network) in
      _ ← require (negb (tcp_only && negb (network =?s "tcp"))) "this exit protocol runs over tcp only";
      texts ← transport_texts transport ["path"; "host"; "service_name"];
      Ok (network, ("network", Str network) :: texts)
  | _ => refused "invalid exit transport"
  end.

Definition alpn_item (item : Value) : bool :=
  match as_str item with Some t => ((1 <=? char_len t) && (char_len t <=? 16))%nat | None => false end.

(** What TLS and REALITY share: the server name, the fingerprint, the protocols, and whether to check. *)
Definition exit_tls (kind : string) (security : imap Value) : Checked (imap Value) :=
  server ← (if present (bget "server_name" security)
            then name ← host (bget "server_name" security) "exit server name"; Ok [("server_name", Str name)] else Ok []);
  let fingerprint := or_default (bget "fingerprint" security) (Str "chrome") in
  _ ← require (is_in (Some fingerprint) FINGERPRINTS) "invalid exit fingerprint";
  alpn ← (if present (bget "alpn" security) then
            match bget "alpn" security with
            | Some (Array items) => if (length items <=? 4)%nat && forallb alpn_item items then Ok [("alpn", Array items)] else refused "invalid exit alpn"
            | _ => refused "invalid exit alpn"
            end
          else Ok []);
  let insecure := if (kind =?s "tls") && match bget "insecure" security with Some (Bool true) => true | _ => false end
                  then [("insecure", Bool true)] else [] in
  Ok (server ++ [("fingerprint", fingerprint)] ++ alpn ++ insecure).

Definition exit_reality (security out : imap Value) : Checked (imap Value) :=
  let short_id := or_default (bget "short_id" security) (Str EmptyString) in
  _ ← require (match bget "public_key" security ≫= as_str with Some key => is_public_key key | None => false end) "invalid exit public key";
  _ ← require (match as_str short_id with Some id => str_empty id || is_short_id id | None => false end) "invalid exit short id";
  _ ← require (bhas "server_name" out) "reality needs a server name";
  Ok [("public_key", at_key "public_key" security); ("short_id", short_id)].

Definition SECURITY_KEYS : list string := ["kind"; "server_name"; "fingerprint"; "alpn"; "public_key"; "short_id"; "insecure"].

Definition exit_security (tcp_only : bool) (value : option Value) : Checked (string * imap Value) :=
  match or_default value (Object [("kind", Str "none")]) with
  | Object security =>
      _ ← require (only_keys security SECURITY_KEYS) "invalid exit security";
      let kind := default (Str "none") (bget "kind" security) in
      _ ← require (is_in (Some kind) EXIT_SECURITY) "invalid exit security kind";
      let kind := default EmptyString (as_str kind) in
      _ ← require (negb (tcp_only && (kind =?s "reality"))) "reality needs vless or trojan";
      shared ← (if kind =?s "none" then Ok [] else exit_tls kind security);
      let out := ("kind", Str kind) :: shared in
      reality ← (if kind =?s "reality" then exit_reality security out else Ok []);
      Ok (kind, out ++ reality)
  | _ => refused "invalid exit security"
  end.

Definition EXIT_KEYS : list string := ["protocol"; "address"; "port"; "credential"; "transport"; "security"; "method"; "flow"].

Definition validate_exit (value : Value) : Checked Value :=
  match value with
  | Object map =>
      _ ← require (only_keys map EXIT_KEYS) "invalid exit";
      _ ← require (is_in (bget "protocol" map) EXIT_PROTOCOLS) "invalid exit protocol";
      let protocol := text_at "protocol" map in
      let tcp_only := mem_str protocol ["socks"; "http"; "shadowsocks"] in
      address ← host (bget "address" map) "exit address";
      _ ← require (port_ok (at_key "port" map)) "invalid exit port";
      credential ← match or_default (bget "credential" map) (Object []) with
                   | Object credential => if only_keys credential ["username"; "password"; "uuid"] then Ok credential else refused "invalid exit credential"
                   | _ => refused "invalid exit credential"
                   end;
      out_credential ← exit_credential protocol credential;
      method ← (if protocol =?s "shadowsocks" then
                  _ ← require (is_in (bget "method" map) SS_METHODS) "invalid shadowsocks method"; Ok [("method", at_key "method" map)]
                else Ok []);
      let flow := or_default (bget "flow" map) (Str EmptyString) in
      flows ← (if protocol =?s "vless" then _ ← require (is_in (Some flow) EXIT_FLOWS) "invalid exit flow"; Ok [("flow", flow)] else Ok []);
      '(network, transport) ← exit_transport tcp_only (bget "transport" map);
      '(kind, security) ← exit_security tcp_only (bget "security" map);
      _ ← require (negb ((protocol =?s "vless") && truthy flow && (negb (network =?s "tcp") || (kind =?s "none"))))
            "xtls-rprx-vision needs tcp with tls or reality";
      Ok (Object ([("protocol", Str protocol); ("address", Str address); ("port", at_key "port" map); ("credential", Object out_credential)]
                  ++ method ++ flows ++ [("transport", Object transport); ("security", Object security)]))
  | _ => refused "invalid exit"
  end.

(** ** The document *)

Section document.
Context {FT : FloatText}.

(** [pyjson::SORTED]. *)
Definition SORTED : Options :=
  {| indent := None; separators := Some (",", ":"); sort_keys := true; ensure_ascii := true; numbers := NumPython FloatRustShortest |}.
Definition canonical (document : Value) : string := dumps document SORTED.
Definition size (document : Value) : N := N.of_nat (String.length (canonical document)).

(** Each entry of a map checked, under its own key: [check] of the key, then of the value. *)
Fixpoint checked_entries (check : string -> Value -> Checked Value) (entries : imap Value) : Checked (imap Value) :=
  match entries with
  | [] => Ok []
  | (key, value) :: rest => v ← check key value; others ← checked_entries check rest; Ok ((key, v) :: others)
  end.

Definition validate_chain (id : string) (value : Value) : Checked Value :=
  _ ← require (is_short_word id) "invalid chain id";
  match value with
  | Object chain =>
      _ ← require ((length chain =? 2)%nat && only_keys chain ["hops"; "exit"]) "invalid chain";
      hops ← match at_key "hops" chain with
             | Array hops => if ((1 <=? length hops) && (length hops <=? MAX_HOPS))%nat then Ok hops else refused "a chain has one to three hops"
             | _ => refused "a chain has one to three hops"
             end;
      _ ← require (is_in (bget "exit" chain) CHAIN_EXITS) "a chain exits direct or through its last hop's warp";
      hops ← mapM hop hops;
      Ok (Object [("hops", Array hops); ("exit", at_key "exit" chain)])
  | _ => refused "invalid chain"
  end.

Definition bounded_map (value : option Value) (limit : nat) (message : string) : Checked (imap Value) :=
  match value with
  | None => Ok []
  | Some (Object entries) => if (length entries <=? limit)%nat then Ok entries else refused message
  | Some _ => refused message
  end.

Definition validate_v2 (document : imap Value) : Checked Value :=
  _ ← require (only_keys document ["schema"; "lanes"; "chains"; "exits"]) "unknown field in routing intent";
  exits ← bounded_map (bget "exits" document) MAX_EXITS "invalid exits list";
  normalised_exits ← checked_entries (fun id exit => _ ← require (is_short_word id) "invalid exit id"; validate_exit exit) exits;
  chains ← bounded_map (bget "chains" document) MAX_CHAINS "invalid chains list";
  normalised_chains ← checked_entries validate_chain chains;
  lanes ← match bget "lanes" document with
          | Some (Object lanes) => if ((1 <=? length lanes) && (length lanes <=? MAX_LANES))%nat then Ok lanes else refused "invalid lanes list"
          | _ => refused "invalid lanes list"
          end;
  normalised_lanes ← checked_entries (fun id lane =>
    _ ← require (is_lane id) "invalid lane id";
    Object <$> validate_lane lane (bkeys normalised_chains) (bkeys normalised_exits)) lanes;
  _ ← require (length (List.filter (String.prefix "svc:") (bkeys normalised_lanes)) =? 1)%nat "exactly one service lane is required";
  let normalised := Object ([("schema", json_int SCHEMA_V2); ("lanes", Object normalised_lanes); ("chains", Object normalised_chains)]
                            ++ match normalised_exits with [] => [] | _ => [("exits", Object normalised_exits)] end) in
  _ ← require (size normalised <=? MAX_DOCUMENT_BYTES_V2)%N "routing intent too large";
  Ok normalised.

Definition validate_document (document : Value) : Checked Value :=
  match document with
  | Object map =>
      if is_schema_2 (bget "schema" map) then validate_v2 map else
      _ ← require (only_keys map ["schema"; "default"; "rules"]) "unknown field in routing intent";
      _ ← require (is_schema_1 (bget "schema" map)) "unsupported routing intent schema";
      lane ← validate_lane document [] [];
      _ ← require (size (Object lane) <=? MAX_DOCUMENT_BYTES)%N "routing intent too large";
      Ok (Object (("schema", json_int SCHEMA) :: lane))
  | _ => refused "unknown field in routing intent"
  end.
End document.
End selectors.

(** ** Reading a document *)

(** [document.get(key)] and [document[key]] of any value. *)
Definition get (key : string) (v : Value) : option Value := match v with Object m => bget key m | _ => None end.
Definition index (v : Value) (key : string) : Value := default Null (get key v).
Definition as_items (v : Value) : list Value := match v with Array l => l | _ => [] end.
Definition as_entries (v : option Value) : imap Value := match v with Some (Object m) => m | _ => [] end.

Definition is_v2 (document : Value) : bool := is_schema_2 (get "schema" document).

Definition lanes_of (document : Value) (service : string) : imap Value :=
  if is_v2 document then as_entries (get "lanes" document)
  else [("svc:" +:+ service, Object [("default", index document "default"); ("rules", index document "rules")])].

Definition lane_egresses (lane : Value) : list Value :=
  option_list (get "default" lane ≫= get "egress") ++ omap (get "egress") (as_items (index lane "rules")).
Definition uses_egress (document : Value) (target : string) : bool :=
  existsb (fun lane => existsb (fun e => bool_decide (as_str e = Some target)) (lane_egresses lane)) (ivalues (lanes_of document EmptyString)).
Definition uses_provider (document : Value) : bool := uses_egress document "warp".

Definition masked : Value := Str "***".
(** [map[key] = f(map[key])] where the key is there. *)
Definition on_field (key : string) (f : Value -> Value) (v : Value) : Value := match v with Object m => Object (iupd f key m) | _ => v end.
Definition on_values (f : Value -> Value) (v : Value) : Value := match v with Object m => Object (map (fun e => (e.1, f e.2)) m) | _ => v end.
Definition on_items (f : Value -> Value) (v : Value) : Value := match v with Array l => Array (map f l) | _ => v end.
Definition set_field (key : string) (f : Value -> Value) (v : Value) : Value := match v with Object m => Object (iset key (f v) m) | _ => v end.

Definition redact_intent (document : Value) : Value :=
  if negb (is_v2 document) then document else
  on_field "exits" (on_values (set_field "credential" (fun exit =>
      Object (map (fun e => (e.1, masked)) (as_entries (get "credential" exit))))))
    (on_field "chains" (on_values (on_field "hops" (on_items (set_field "uuid" (fun _ => masked))))) document).

(** ** The provider's endpoint *)

Record UrlParts := { scheme : string; hostname : option string; url_port : option N }.

Section url.
Context {UT : UnicodeText}.

Definition is_alpha (a : Ascii.ascii) : bool := let n := Ascii.N_of_ascii a in (((65 <=? n) && (n <=? 90)) || ((97 <=? n) && (n <=? 122)))%N.
Definition is_scheme_byte (b : Ascii.ascii) : bool :=
  is_alphanum b || Ascii.eqb b "+"%char || Ascii.eqb b "-"%char || Ascii.eqb b "."%char.

(** The text up to the first of the bytes. *)
Fixpoint until (stop : Ascii.ascii -> bool) (s : string) : string :=
  match s with String b s' => if stop b then EmptyString else String b (until stop s') | EmptyString => EmptyString end.

Definition split_scheme (url : string) : string * string :=
  match split_once colon url with
  | Some (scheme, rest) =>
      if match first_byte scheme with Some b => is_alpha b | None => false end && forallb_s is_scheme_byte scheme
      then (ascii_lower scheme, rest) else (EmptyString, url)
  | None => (EmptyString, url)
  end.

Definition url_host (hostinfo : string) : result string (string * string) :=
  let colon_split text := default (text, EmptyString) (split_once colon text) in
  match split_once "["%char hostinfo with
  | Some (_, bracketed) =>
      let '(hostname, after) := default (bracketed, EmptyString) (split_once "]"%char bracketed) in
      if negb (is_byte "v"%char (first_byte hostname)) && negb (bool_decide (is_Some (parse_v6 hostname)))
      then Err ("'" +:+ hostname +:+ "' does not appear to be an IPv4 or IPv6 address")
      else Ok (hostname, match split_once colon after with Some (_, port) => port | None => EmptyString end)
  | None => Ok (colon_split hostinfo)
  end.

Definition url_port_of (port : string) : result string (option N) :=
  if str_empty port then Ok None
  else if negb (forallb_s is_digit port) then Err ("Port could not be cast to integer value as '" +:+ port +:+ "'")
  else match parse_u32 port with
       | Some p => if (p <=? 65535)%Z then Ok (Some (Z.to_N p)) else Err "Port out of range 0-65535"
       | None => Err "Port out of range 0-65535"
       end.

Definition urlsplit (url : string) : result string UrlParts :=
  let url := of_chars (List.filter (fun c => negb ((c =? 9) || (c =? 13) || (c =? 10))%N) (drop_while (fun c => c <=? 32)%N (chars url))) in
  let '(scheme, rest) := split_scheme url in
  let netloc := match strip_prefix "//" rest with
                | Some after => until (fun b => Ascii.eqb b "/"%char || Ascii.eqb b "?"%char || Ascii.eqb b "#"%char) after
                | None => EmptyString
                end in
  if negb (Bool.eqb (contains_s "[" netloc) (contains_s "]" netloc)) then Err "Invalid IPv6 URL" else
  let hostinfo := match rsplit_byte "@"%char netloc with Some (_, host) => host | None => netloc end in
  '(hostname, port) ← url_host hostinfo;
  let hostname := if str_empty hostname then None
    else Some (match split_once "%"%char hostname with
               | Some (host, zone) => to_lowercase host +:+ "%" +:+ zone
               | None => to_lowercase hostname
               end) in
  port ← url_port_of port;
  Ok {| scheme := scheme; hostname := hostname; url_port := port |}.

Definition provider_endpoint (url : option string) : Checked (string * N) :=
  match url with
  | None => refused "egress provider warp is not configured on this node"
  | Some url =>
      if str_empty url then refused "egress provider warp is not configured on this node" else
      parts ← map_err Internal (urlsplit url);
      match hostname parts, url_port parts with
      | Some host, Some port =>
          if mem_str (scheme parts) ["socks5"; "socks5h"] && negb (port =? 0)%N then Ok (host, port)
          else refused "egress provider warp must be a socks5:// endpoint"
      | _, _ => refused "egress provider warp must be a socks5:// endpoint"
      end
  end.
End url.
