(* ===== verification/RouterFacts.v ===== *)
(** * What a validated intent is

    The shape of what [validate_document] accepts, read off the validator: the lanes name what the
    document defines, the chains have their hops, the counts are within their limits. *)

From S2P Require Import Prelude BTree Utf8 Numeric Json PyText IndexMap PyIp RouterIp RouterIntent.

Lemma require_Ok b message u : require b message = Ok u -> b = true.
Proof. by destruct b. Qed.
Lemma refused_Ok {A} message (a : A) : refused message = Ok a -> False.
Proof. done. Qed.
Lemma require_refl b message : b = true -> require b message = Ok tt.
Proof. by intros ->. Qed.

(** The validator's steps of a success, one by one. *)
Ltac inv_checks :=
  inv_binds;
  repeat match goal with
  | H : require ?b ?m = Ok _ |- _ => apply require_Ok in H
  | H : refused ?m = Ok _ |- _ => by destruct (refused_Ok m _ H)
  | u : unit |- _ => destruct u
  end.

(** An egress as the validator leaves it. *)
Definition egress_nf (chains exits : list string) (action : string) (e : Value) : Prop :=
  if action =?s "egress" then exists t, e = Str t /\ known_egress chains exits t = true else e = Null.

Lemma egress_inv action value label chains exits e : egress action value label chains exits = Ok e -> egress_nf chains exits action e.
Proof.
  unfold egress, egress_nf. destruct (action =?s "egress").
  - destruct (not_null value ≫= as_str) as [t|]; [|done]. destruct (known_egress chains exits t) eqn:Hk; [|done].
    intros [= <-]. by exists t.
  - destruct (not_null value); [done|]. by intros [= <-].
Qed.

Lemma egress_stable label chains exits action e : egress_nf chains exits action e -> egress action (Some e) label chains exits = Ok e.
Proof.
  unfold egress, egress_nf. destruct (action =?s "egress"); [|by intros ->].
  intros (t & -> & Hk). simpl. by rewrite Hk.
Qed.

(** A rule as the validator writes it. *)
Definition rule_entry (ds gs cs js ps protocols : list Value) (action : string) (e : Value) : imap Value :=
  [("domains", Array ds); ("geosites", Array gs); ("cidrs", Array cs); ("geoips", Array js); ("ports", Array ps); ("action", Str action); ("egress", e)]
  ++ match protocols with [] => [] | _ => [("protocols", Array protocols)] end.
Definition names_selector (entry : imap Value) : bool :=
  existsb (fun key => truthy (at_key key entry)) ["domains"; "geosites"; "cidrs"; "geoips"; "ports"; "protocols"].

(** A normalised lane: where its default and its rules go. *)
Definition lane_nf (chains exits : list string) (action : string) (e : Value) (rules : list Value) : imap Value :=
  [("default", Object [("action", Str action); ("egress", e)]); ("rules", Array rules)].

Section facts.
Context {UT : UnicodeText} {FT : FloatText}.

(** A selector list of a normalised rule: at most [limit] values, no value twice, each what [convert] gives. *)
Definition converted (convert : Value -> Checked Value) (limit : nat) (l : list Value) : Prop :=
  exists source, (length source <= limit)%nat /\ unique <$> mapM convert source = Ok l.

Lemma selectors_inv rule key convert limit l : selectors rule key convert limit = Ok l -> converted convert limit l.
Proof.
  unfold selectors, converted. destruct (bget key rule) as [[| | | |values|]|]; try done.
  - destruct (length values <=? limit)%nat eqn:Hl; [|done]. apply Nat.leb_le in Hl. by exists values.
  - intros [= <-]. exists []. split; [simpl; lia|done].
Qed.

Definition domain_value (v : Value) : Checked Value := Str <$> domain (Some v).

Record rule_wf (chains exits : list string) (v : Value) : Prop := RuleWf {
  rw_entry : exists ds gs cs js ps protocols action e,
    v = Object (rule_entry ds gs cs js ps protocols action e) /\ mem_str action ACTIONS = true /\ egress_nf chains exits action e
    /\ converted domain_value MAX_SELECTORS ds /\ converted (geo_code "geosite") MAX_SELECTORS gs /\ converted cidr MAX_SELECTORS cs
    /\ converted (geo_code "geoip") MAX_SELECTORS js /\ converted port MAX_PORTS ps /\ converted protocol_name MAX_PROTOCOLS protocols
    /\ names_selector (rule_entry ds gs cs js ps protocols action e) = true
}.

Lemma is_in_text value set : is_in value set = true -> exists t, value ≫= as_str = Some t /\ mem_str t set = true.
Proof. unfold is_in. destruct (value ≫= as_str) as [t|]; [|done]. by exists t. Qed.
Lemma is_in_at key map set : is_in (bget key map) set = true -> mem_str (text_at key map) set = true.
Proof.
  intros (t & Ht & Hm)%is_in_text. unfold text_at, at_key. destruct (bget key map) as [v|]; [|done].
  simpl in *. by rewrite Ht.
Qed.

Lemma validate_rule_wf chains exits v r : validate_rule chains exits v = Ok r -> rule_wf chains exits r.
Proof.
  unfold validate_rule. destruct v as [| | | | |rule]; try done. intros H. inv_checks.
  apply Ok_inj in H as <-.
  match goal with H : is_in (bget "action" rule) _ = true |- _ => apply is_in_at in H end.
  constructor. do 8 eexists. split; [reflexivity|]. split; [eassumption|].
  split; [eapply egress_inv; eassumption|]. do 6 (split; [by eapply selectors_inv|]). done.
Qed.

Record lane_wf (chains exits : list string) (lane : imap Value) : Prop := LaneWf {
  lw_entry : exists action e rules,
    lane = lane_nf chains exits action e rules /\ mem_str action DEFAULT_ACTIONS = true /\ egress_nf chains exits action e
    /\ (length rules <= MAX_RULES)%nat /\ Forall (rule_wf chains exits) rules
}.

Lemma validate_lane_wf chains exits document lane : validate_lane document chains exits = Ok lane -> lane_wf chains exits lane.
Proof.
  unfold validate_lane. destruct document as [| | | | |map]; try done. intros H. inv_checks.
  destruct (bget "default" map) as [[| | | | |d]|]; try done. inv_checks. apply Ok_inj in H as <-.
  match goal with H : (_ && _) = true |- _ => apply andb_prop in H as [_ H]; apply is_in_at in H end.
  match goal with H : mapM _ ?rules = Ok _ |- _ => rename rules into items; rename H into Hm end.
  apply mapM_Ok_iff in Hm. constructor. do 3 eexists. split; [reflexivity|]. split; [eassumption|].
  split; [by eapply egress_inv|]. split.
  - rewrite <-(Forall2_length _ _ _ Hm).
    match goal with H : match bget "rules" map with _ => _ end = Ok items |- _ => destruct (bget "rules" map) as [[| | | |rules|]|]; try done end.
    + destruct (length rules <=? MAX_RULES)%nat eqn:Hl; [|done]. simplify_eq. by apply Nat.leb_le.
    + simplify_eq. simpl. unfold MAX_RULES. lia.
  - clear -Hm. induction Hm; constructor; eauto using validate_rule_wf.
Qed.

(** ** Documents of the second schema *)

Definition chain_wf (v : Value) : Prop :=
  exists hops exit, v = Object [("hops", Array hops); ("exit", Str exit)] /\ mem_str exit CHAIN_EXITS = true
    /\ (1 <= length hops <= MAX_HOPS)%nat /\ Forall (fun h => exists source, hop source = Ok h) hops.

Lemma validate_chain_wf id v c : validate_chain id v = Ok c -> is_short_word id = true /\ chain_wf c.
Proof.
  unfold validate_chain. intros H. inv_checks. split; [done|]. destruct v as [| | | | |chain]; try done. inv_checks.
  match goal with H : is_in _ CHAIN_EXITS = true |- _ => rename H into He end.
  apply is_in_text in He as (exit & He & Hx). apply Ok_inj in H as <-.
  match goal with H : mapM hop ?l = Ok _ |- _ => rename l into items; apply mapM_Ok_iff in H as Hm end.
  unfold at_key at 1. destruct (bget "exit" chain) as [[| | |text| |]|]; try done. simpl in He. simplify_eq.
  eexists _, exit. split; [reflexivity|]. split; [done|]. rewrite <-(Forall2_length _ _ _ Hm). split.
  - match goal with H : match at_key "hops" chain with _ => _ end = Ok items |- _ => destruct (at_key "hops" chain) as [| | | |hops|]; try done; rename H into Hl end.
    destruct ((1 <=? length hops) && (length hops <=? MAX_HOPS))%nat eqn:Hb; [|done]. simplify_eq.
    apply andb_prop in Hb as [H1%Nat.leb_le H2%Nat.leb_le]. done.
  - clear -Hm. induction Hm; constructor; eauto.
Qed.

Lemma checked_entries_inv check entries out : checked_entries check entries = Ok out ->
  Forall2 (fun e o => e.1 = o.1 /\ check e.1 e.2 = Ok o.2) entries out.
Proof.
  revert out. induction entries as [|[k v] rest IH]; intros out H; [by apply Ok_inj in H as <-|].
  cbn [checked_entries] in H. inv_binds. apply Ok_inj in H as <-. constructor; [done|auto].
Qed.
Lemma checked_keys check entries out : checked_entries check entries = Ok out -> bkeys out = bkeys entries.
Proof. intros H%checked_entries_inv. unfold bkeys. induction H as [|e o es os [He _] _ IH]; simpl; [done|]. by rewrite IH, He. Qed.
Lemma checked_all check entries out (P : string * Value -> Prop) : checked_entries check entries = Ok out ->
  (forall k v o, check k v = Ok o -> P (k, o)) -> Forall P out.
Proof.
  intros H%checked_entries_inv Hp. induction H as [|[k v] [k' o] es os [He Ho] _ IH]; constructor; [|done].
  simpl in *. subst. by eapply Hp.
Qed.
Lemma checked_length check entries out : checked_entries check entries = Ok out -> length out = length entries.
Proof. intros H%checked_entries_inv. by rewrite (Forall2_length _ _ _ H). Qed.

Lemma bounded_map_inv value limit message entries : bounded_map value limit message = Ok entries ->
  (length entries <= limit)%nat /\ entries = as_entries value.
Proof.
  unfold bounded_map. destruct value as [[| | | | |m]|]; try done.
  - destruct (length m <=? limit)%nat eqn:Hl; [|done]. intros [= <-]. apply Nat.leb_le in Hl. done.
  - intros [= <-]. simpl. split; [lia|done].
Qed.

Definition document_v2 (lanes chains exits : imap Value) : Value :=
  Object ([("schema", json_int SCHEMA_V2); ("lanes", Object lanes); ("chains", Object chains)]
          ++ match exits with [] => [] | _ => [("exits", Object exits)] end).

Definition is_service_lane (e : string * Value) : bool := String.prefix "svc:" e.1.

Record v2_wf (lanes chains exits : imap Value) : Prop := {
  vw_lanes : Forall (fun e => is_lane e.1 = true /\ exists lane, e.2 = Object lane /\ lane_wf (bkeys chains) (bkeys exits) lane) lanes;
  vw_chains : Forall (fun e => is_short_word e.1 = true /\ chain_wf e.2) chains;
  vw_exits : Forall (fun e => is_short_word e.1 = true /\ exists source, validate_exit source = Ok e.2) exits;
  vw_counts : (1 <= length lanes <= MAX_LANES)%nat /\ (length chains <= MAX_CHAINS)%nat /\ (length exits <= MAX_EXITS)%nat;
  vw_service : length (List.filter is_service_lane lanes) = 1%nat;
  vw_size : (size (document_v2 lanes chains exits) <= MAX_DOCUMENT_BYTES_V2)%N;
}.

Lemma filter_keys {A} (f : string -> bool) (m : imap A) : List.filter f (bkeys m) = map fst (List.filter (fun e => f e.1) m).
Proof. induction m as [|[k v] m IH]; [done|]. cbn [bkeys List.filter map fst]. destruct (f k); simpl; by rewrite <-IH. Qed.

Lemma validate_v2_wf map d : validate_v2 map = Ok d -> exists lanes chains exits,
  d = document_v2 lanes chains exits /\ v2_wf lanes chains exits
  /\ bkeys chains = bkeys (as_entries (bget "chains" map)) /\ bkeys exits = bkeys (as_entries (bget "exits" map))
  /\ bkeys lanes = bkeys (as_entries (bget "lanes" map)).
Proof.
  unfold validate_v2. intros H. inv_checks. apply Ok_inj in H as <-.
  repeat match goal with H : bounded_map _ _ _ = Ok _ |- _ => apply bounded_map_inv in H as [? ?] end.
  repeat match goal with H : checked_entries _ _ = Ok ?out |- _ => pose proof (checked_keys _ _ _ H); pose proof (checked_length _ _ _ H); revert H end.
  intros Hex Hch Hla.
  match type of Hla with checked_entries _ ?ls = Ok ?l => rename ls into source; rename l into lanes end.
  match type of Hch with checked_entries _ _ = Ok ?l => rename l into chains end.
  match type of Hex with checked_entries _ _ = Ok ?l => rename l into exits end.
  assert (source = as_entries (bget "lanes" map) /\ (1 <= length source <= MAX_LANES)%nat) as [Hs Hl].
  { destruct (bget "lanes" map) as [[| | | | |ls]|]; try done.
    destruct ((1 <=? length ls) && (length ls <=? MAX_LANES))%nat eqn:Hb; [|done]. simplify_eq.
    apply andb_prop in Hb as [?%Nat.leb_le ?%Nat.leb_le]. done. }
  exists lanes, chains, exits. split; [done|]. split; [|by repeat split; congruence]. constructor.
  - eapply checked_all; [exact Hla|]. intros k v o Ho. cbv beta in Ho. inv_checks.
    destruct (validate_lane v (bkeys chains) (bkeys exits)) as [lane|] eqn:Hv; [|done]. simpl in *. simplify_eq. split; [done|]. exists lane. split; [done|].
    by eapply validate_lane_wf.
  - eapply checked_all; [exact Hch|]. intros k v o Ho. by eapply validate_chain_wf.
  - eapply checked_all; [exact Hex|]. intros k v o Ho. cbv beta in Ho. inv_checks. by eauto.
  - by repeat split; try lia; congruence.
  - match goal with H : (length _ =? 1)%nat = true |- _ => apply Nat.eqb_eq in H; rewrite filter_keys, length_map in H; exact H end.
  - by apply N.leb_le.
Qed.

(** ** Documents of either schema *)

Definition document_v1 (action : string) (e : Value) (rules : list Value) : Value :=
  Object (("schema", json_int SCHEMA) :: lane_nf [] [] action e rules).

Lemma validate_document_wf source d : validate_document source = Ok d ->
  (exists action e rules, d = document_v1 action e rules /\ lane_wf [] [] (lane_nf [] [] action e rules)
     /\ (size (Object (lane_nf [] [] action e rules)) <= MAX_DOCUMENT_BYTES)%N)
  \/ (exists lanes chains exits, d = document_v2 lanes chains exits /\ v2_wf lanes chains exits
        /\ bkeys chains = bkeys (as_entries (get "chains" source)) /\ bkeys exits = bkeys (as_entries (get "exits" source))
        /\ bkeys lanes = bkeys (as_entries (get "lanes" source))).
Proof.
  unfold validate_document. destruct source as [| | | | |map]; try done. destruct (is_schema_2 _).
  - intros H%validate_v2_wf. by right.
  - intros H. left. inv_checks. apply Ok_inj in H as <-.
    match goal with H : validate_lane _ _ _ = Ok _ |- _ => apply validate_lane_wf in H; pose proof H as Hw; destruct H as [(action & e & rules & -> & _)] end.
    exists action, e, rules. split; [done|]. split; [done|]. by apply N.leb_le.
Qed.

Lemma is_v2_v1 action e rules : is_v2 (document_v1 action e rules) = false.
Proof. reflexivity. Qed.
Lemma is_v2_v2 lanes chains exits : is_v2 (document_v2 lanes chains exits) = true.
Proof. reflexivity. Qed.
Lemma get_lanes lanes chains exits : get "lanes" (document_v2 lanes chains exits) = Some (Object lanes).
Proof. reflexivity. Qed.
Lemma get_chains lanes chains exits : get "chains" (document_v2 lanes chains exits) = Some (Object chains).
Proof. reflexivity. Qed.
Lemma get_exits lanes chains exits : as_entries (get "exits" (document_v2 lanes chains exits)) = exits.
Proof. by destruct exits. Qed.
End facts.
