(* ===== verification/RouterRender.v ===== *)
(** * The Xray configuration a generation runs

    [xray_router_manager/src/render.rs]: a pure function of the services' validated documents, the
    ingresses and the provider's endpoint. The hash tables of the code are association lists, read
    through [bget] only. *)

From S2P Require Import Prelude BTree Utf8 Numeric Json PyText IndexMap Plan PyIp RouterIp RouterIntent.

Definition MTPROXY_PRIVATE_EXCEPTION : list string := ["10.0.0.0/8"; "172.16.0.0/12"; "192.168.0.0/16"].
Definition RELAY_TAG : string := "relay".
Definition RELAY_COVER : string := "127.0.0.1:8443".
Definition TUN_MTU : Z := 1280.

(** [json!([text, ..])]. *)
Definition strs (l : list string) : Value := Array (map Str l).

Definition outbound_for (action : string) : string :=
  if action =?s "block" then "block" else if action =?s "egress" then "warp" else "direct".

Record Ingress := {
  tag : string;
  ingress_port : Z;
  user : string;
  password : string;
  socket : option string;
  uuid : option string;
  tun : option string;
}.
Definition ingress_new (tag : string) (port : Z) (user password : string) : Ingress :=
  {| tag := tag; ingress_port := port; user := user; password := password; socket := None; uuid := None; tun := None |}.

Record LaneAccount := { lane : string; account_user : Value; account_password : Value }.

Record Relay := {
  relay_port : Value;
  server_name : Value;
  private_key : Value;
  short_ids : list Value;
  accounts : list (string * Value);  (** (email, uuid) *)
}.

Abbreviation Ports := (imap Z).
Definition default_ports : Ports := PORTS.

Definition sniffing : Value :=
  Object [("enabled", Bool true); ("destOverride", strs ["http"; "tls"; "quic"]); ("routeOnly", Bool true)].

(** [example.com] and [*.example.com] both mean the suffix. *)
Definition domain_selector (value : string) : string := "domain:" +:+ default value (strip_prefix "*." value).

(** The tag of the outbound a rule lands on: [chain_tags] names the chains by id and the exits by [exit:<id>]. *)
Definition outbound_tag (action : string) (egress : Value) (chain_tags : imap string) : string :=
  match (if action =?s "egress" then as_str egress else None) with
  | Some egress =>
      match strip_prefix "chain:" egress with
      | Some chain => default EmptyString (bget chain chain_tags)
      | None => if String.prefix "exit:" egress then default EmptyString (bget egress chain_tags) else outbound_for action
      end
  | None => outbound_for action
  end.

(** A field of an object where it is there and true. *)
Definition truthy_field (key : string) (v : Value) : option Value :=
  match get key v with Some x => if truthy x then Some x else None | None => None end.
Definition opt_field (key : string) (v : option Value) : imap Value := match v with Some x => [(key, x)] | None => [] end.

Section render.
Context {UT : UnicodeText} {FT : FloatText} {SD : SerdeDisplay} {SHA : Sha256}.

Definition str_of (value : Value) : string := match value with Str text => text | other => value_display other end.
Definition strings (value : Value) : list Value := as_items value.

Definition warp_wg_outbound (account : Value) : Value :=
  let address := str_of (index account "address") in
  Object [("tag", Str WARP_WG_TAG); ("protocol", Str "wireguard");
          ("settings", Object [("secretKey", index account "private_key"); ("address", strs [address +:+ "/32"]);
             ("peers", Array [Object [("publicKey", index account "peer_public_key"); ("endpoint", index account "endpoint");
                                      ("allowedIPs", strs ["0.0.0.0/0"]); ("keepAlive", json_int 25)]]);
             ("mtu", json_int TUN_MTU); ("noKernelTun", Bool true)])].

(** ** Custom exits *)

Definition exit_settings (protocol : string) (spec : Value) : Value :=
  let address := index spec "address" in
  let port := index spec "port" in
  let credential := default (Object []) (truthy_field "credential" spec) in
  if mem_str protocol ["socks"; "http"] then
    let users := match get "username" credential with
                 | Some Null | None => []
                 | Some _ => [("users", Array [Object [("user", index credential "username"); ("pass", index credential "password")]])]
                 end in
    Object [("servers", Array [Object ([("address", address); ("port", port)] ++ users)])]
  else if protocol =?s "vless" then
    Object [("vnext", Array [Object [("address", address); ("port", port);
      ("users", Array [Object [("id", index credential "uuid"); ("encryption", Str "none"); ("flow", default (Str EmptyString) (get "flow" spec))]])]])]
  else if protocol =?s "trojan" then
    Object [("servers", Array [Object [("address", address); ("port", port); ("password", index credential "password")]])]
  else
    Object [("servers", Array [Object [("address", address); ("port", port); ("method", index spec "method"); ("password", index credential "password")]])].

Definition exit_network (spec : Value) : imap Value :=
  let transport := default (Object [("network", Str "tcp")]) (truthy_field "transport" spec) in
  let network := default "tcp" (get "network" transport ≫= as_str) in
  ("network", Str network) ::
  (if mem_str network ["ws"; "xhttp"] then
     [(if network =?s "ws" then "wsSettings" else "xhttpSettings",
       Object (("path", default (Str "/") (truthy_field "path" transport)) :: opt_field "host" (truthy_field "host" transport)))]
   else if network =?s "grpc" then
     [("grpcSettings", Object [("serviceName", default (Str EmptyString) (truthy_field "service_name" transport))])]
   else []).

Definition exit_layer (spec : Value) : imap Value :=
  let security := default (Object [("kind", Str "none")]) (truthy_field "security" spec) in
  let fingerprint := default (Str "chrome") (get "fingerprint" security) in
  let kind := default "none" (get "kind" security ≫= as_str) in
  if kind =?s "tls" then
    [("security", Str "tls");
     ("tlsSettings", Object (("fingerprint", fingerprint) :: opt_field "serverName" (truthy_field "server_name" security)
        ++ opt_field "alpn" (truthy_field "alpn" security)
        ++ opt_field "allowInsecure" ((fun _ => Bool true) <$> truthy_field "insecure" security)))]
  else if kind =?s "reality" then
    [("security", Str "reality");
     ("realitySettings", Object [("serverName", index security "server_name"); ("fingerprint", fingerprint);
        ("publicKey", index security "public_key"); ("shortId", default (Str EmptyString) (get "short_id" security))])]
  else [].

Definition exit_outbound (tag : string) (spec : Value) : Value :=
  let protocol := default EmptyString (as_str (index spec "protocol")) in
  Object [("tag", Str tag); ("protocol", Str protocol); ("settings", exit_settings protocol spec);
          ("streamSettings", Object (exit_network spec ++ exit_layer spec))].

(** ** Rules *)

(** [entry.insert(key, Array(values))] where there are any. *)
Definition nonempty_list (key : string) (values : list Value) : imap Value :=
  match values with [] => [] | _ => [(key, Array values)] end.

Definition rule_domains (rule : Value) : list Value :=
  map (fun d => Str (domain_selector (str_of d))) (strings (index rule "domains"))
  ++ map (fun code => Str ("geosite:" +:+ str_of code)) (strings (index rule "geosites")).
Definition rule_addresses (rule : Value) : list Value :=
  strings (index rule "cidrs") ++ map (fun code => Str ("geoip:" +:+ str_of code)) (strings (index rule "geoips")).
Definition rule_action (body : Value) : string := default EmptyString (as_str (index body "action")).

(** What the rule asks of a connection, as fields of the Xray rule. *)
Definition rule_selectors (rule : Value) : imap Value :=
  let ports := map str_of (strings (index rule "ports")) in
  nonempty_list "domain" (rule_domains rule)
  ++ nonempty_list "ip" (rule_addresses rule)
  ++ match ports with [] => [] | _ => [("port", Str (join "," ports))] end
  ++ opt_field "protocol" (truthy_field "protocols" rule).

Definition rule (tag : string) (rule : Value) (user : option Value) (chain_tags : imap string) : Value :=
  Object ([("inboundTag", strs [tag])]
    ++ opt_field "user" ((fun user => Array [user]) <$> user)
    ++ rule_selectors rule
    ++ [("outboundTag", Str (outbound_tag (rule_action rule) (default Null (get "egress" rule)) chain_tags))]).

Definition bypass (tag : string) : list Value :=
  [Object [("inboundTag", strs [tag]); ("ip", strs ["geoip:private"]); ("outboundTag", Str "block")];
   Object [("inboundTag", strs [tag]); ("domain", strs ["domain:localhost"; "full:localhost"]); ("outboundTag", Str "block")]].

(** ** Chains *)

Definition hop_outbound (tag : string) (hop : Value) (previous : option string) : Value :=
  Object ([("tag", Str tag); ("protocol", Str "vless");
    ("settings", Object [("vnext", Array [Object [("address", index hop "address"); ("port", index hop "port");
       ("users", Array [Object [("id", index hop "uuid"); ("encryption", Str "none"); ("flow", Str EmptyString)]])]])]);
    ("streamSettings", Object [("network", Str "tcp"); ("security", Str "reality");
       ("realitySettings", Object [("serverName", index hop "server_name"); ("fingerprint", Str "chrome"); ("publicKey", index hop "public_key");
          ("shortId", index hop "short_id")])])]
    ++ match previous with Some previous => [("proxySettings", Object [("tag", Str previous)])] | None => [] end).

Definition hop_tag (tag chain_id : string) (number : nat) : string := "chain:" +:+ tag +:+ ":" +:+ chain_id +:+ ":" +:+ fmt_N (N.of_nat number).

(** The outbounds of the hops from [index] on, each dialled through the one before it, and the tag of the last. *)
Fixpoint hop_outbounds (tag chain_id : string) (index : nat) (hops : list Value) (previous : option string) : list Value * option string :=
  match hops with
  | [] => ([], previous)
  | hop :: rest =>
      let name := hop_tag tag chain_id (S index) in
      let '(outbounds, last) := hop_outbounds tag chain_id (S index) rest (Some name) in
      (hop_outbound name hop previous :: outbounds, last)
  end.

Fixpoint chain_outbounds_of (tag : string) (chains : imap Value) (s : list Value * imap string) : list Value * imap string :=
  match chains with
  | [] => s
  | (chain_id, chain) :: rest =>
      let '(outbounds, last) := hop_outbounds tag chain_id 0 (strings (index chain "hops")) None in
      chain_outbounds_of tag rest (s.1 ++ outbounds, iset chain_id (default EmptyString last) s.2)
  end.

Definition exit_tag (tag exit_id : string) : string := "exit:" +:+ tag +:+ ":" +:+ exit_id.
Fixpoint exit_outbounds_of (tag : string) (exits : imap Value) (s : list Value * imap string) : list Value * imap string :=
  match exits with
  | [] => s
  | (exit_id, spec) :: rest =>
      exit_outbounds_of tag rest (s.1 ++ [exit_outbound (exit_tag tag exit_id) spec], iset ("exit:" +:+ exit_id) (exit_tag tag exit_id) s.2)
  end.

Definition chain_outbounds (tag : string) (intent : Value) : list Value * imap string :=
  exit_outbounds_of tag (as_entries (get "exits" intent)) (chain_outbounds_of tag (as_entries (get "chains" intent)) ([], [])).

(** ** Lanes *)

(** The last account of the lane wins. *)
Definition account_of (lane_id : string) (accounts : list LaneAccount) : option LaneAccount :=
  List.find (fun account => lane account =?s lane_id) (rev accounts).

Definition catch_all (tag : string) (user : option Value) (target : string) : Value :=
  Object ([("inboundTag", strs [tag])] ++ opt_field "user" ((fun user => Array [user]) <$> user) ++ [("outboundTag", Str target)]).

Definition lane_body_rules (tag : string) (body : Value) (user : option Value) (chain_tags : imap string) : list Value :=
  let default_of := index body "default" in
  map (fun r => rule tag r user chain_tags) (strings (index body "rules"))
  ++ [catch_all tag user (outbound_tag (rule_action default_of) (index default_of "egress") chain_tags)].

(** Grant lanes first, the service lane last. *)
Definition ordered_lanes (lanes : imap Value) : list string :=
  List.filter (String.prefix "grant:") (bkeys lanes) ++ List.filter (String.prefix "svc:") (bkeys lanes).

Definition lane_user (tag lane_id : string) (accounts : list LaneAccount) : Checked (option Value) :=
  if String.prefix "svc:" lane_id then Ok None
  else match account_of lane_id accounts with
       | Some account => Ok (Some (account_user account))
       | None => refused ("lane " +:+ lane_id +:+ " has no account on ingress " +:+ tag)
       end.

Definition lane_rules (tag : string) (intent : Value) (accounts : list LaneAccount) (chain_tags : imap string) : Checked (list Value) :=
  let lanes := as_entries (get "lanes" intent) in
  (fun parts => concat parts) <$> mapM (fun lane_id =>
    user ← lane_user tag lane_id accounts;
    Ok (lane_body_rules tag (at_key lane_id lanes) user chain_tags)) (ordered_lanes lanes).

Definition relay_inbound (relay : Relay) : Value :=
  let clients := map (fun a => Object [("id", a.2); ("email", Str a.1); ("flow", Str EmptyString)]) (accounts relay) in
  Object [("tag", Str RELAY_TAG); ("listen", Str "0.0.0.0"); ("port", relay_port relay); ("protocol", Str "vless");
    ("settings", Object [("clients", Array clients); ("decryption", Str "none")]);
    ("streamSettings", Object [("network", Str "tcp"); ("security", Str "reality");
       ("realitySettings", Object [("dest", Str RELAY_COVER); ("serverNames", Array [server_name relay]); ("privateKey", private_key relay);
          ("shortIds", Array (short_ids relay))])]);
    ("sniffing", sniffing)].

(** ** The configuration *)

Record RenderInput := {
  intents : imap Value;
  ingresses : list Ingress;
  warp_url : option string;
  ports : option Ports;
  lanes : imap (list LaneAccount);
  relay : option Relay;
  warp_wg : option Value;
}.
Implicit Types (input : RenderInput).

Definition ports_of input : Ports := match ports input with Some ((_ :: _) as ports) => ports | _ => default_ports end.
Definition port_of input (tag : string) : Checked Value :=
  match bget tag (ports_of input) with Some port => Ok (json_int port) | None => Err (Internal ("'" +:+ tag +:+ "'")) end.

(** The last ingress of a tag wins. *)
Definition by_tag input (service : string) : option Ingress := List.find (fun i => tag i =?s service) (rev (ingresses input)).
Definition services input : list (string * Ingress) :=
  omap (fun service => (fun ingress => (service, ingress)) <$> by_tag input service) SERVICES.

Definition opt_str (s : option string) : Value := match s with Some s => Str s | None => Null end.
Definition lanes_for input (service : string) : list LaneAccount := default [] (bget service (lanes input)).

Definition inbound input (service : string) (ingress : Ingress) : Checked Value :=
  match tun ingress, socket ingress with
  | Some tun, _ =>
      Ok (Object [("tag", Str service); ("port", json_int 0); ("protocol", Str "tun");
                  ("settings", Object [("name", Str tun); ("mtu", json_int TUN_MTU)]); ("sniffing", sniffing)])
  | None, Some socket =>
      Ok (Object [("tag", Str service); ("listen", Str socket); ("port", json_int 0); ("protocol", Str "vless");
                  ("settings", Object [("clients", Array [Object [("id", opt_str (uuid ingress)); ("email", Str service); ("flow", Str EmptyString)]]);
                                       ("decryption", Str "none")]);
                  ("streamSettings", Object [("network", Str "raw")]); ("sniffing", sniffing)])
  | None, None =>
      port ← port_of input service;
      let settings :=
        if mem_str service NOAUTH_SERVICES then [("auth", Str "noauth"); ("udp", Bool false)]
        else let accounts := Object [("user", Str (user ingress)); ("pass", Str (password ingress))]
               :: map (fun a => Object [("user", account_user a); ("pass", account_password a)]) (lanes_for input service) in
             [("auth", Str "password"); ("accounts", Array accounts); ("udp", Bool false)] in
      Ok (Object [("tag", Str service); ("listen", Str "127.0.0.1"); ("port", port); ("protocol", Str "socks");
                  ("settings", Object settings); ("sniffing", sniffing)])
  end.

Definition passthrough : Value := Object [("default", Object [("action", Str "direct"); ("egress", Null)]); ("rules", Array [])].
Definition intent_of input (service : string) : Value :=
  match bget service (intents input) with Some intent => if truthy intent then intent else passthrough | None => passthrough end.
Definition uses input (service : string) : bool := match bget service (intents input) with Some intent => uses_provider intent | None => false end.

Definition relay_warp input : list string :=
  match relay input with Some relay => List.filter (fun email => ends_with ":warp" email) (map fst (accounts relay)) | None => [] end.

Definition block_outbound : Value := Object [("tag", Str "block"); ("protocol", Str "blackhole")].
Definition direct_outbound : Value :=
  Object [("tag", Str "direct"); ("protocol", Str "freedom"); ("settings", Object [("domainStrategy", Str "UseIP")])].

Definition needs_warp input : bool :=
  existsb (fun s => negb (mem_str s.1 TUN_SERVICES) && uses input s.1) (services input)
  || match relay_warp input with [] => false | _ => true end.
Definition warp_outbound input : Checked (list Value) :=
  if needs_warp input then
    '(host, port) ← provider_endpoint (warp_url input);
    Ok [Object [("tag", Str "warp"); ("protocol", Str "socks");
                ("settings", Object [("servers", Array [Object [("address", Str host); ("port", json_int (Z.of_N port))]])])]]
  else Ok [].
Definition needs_wg input : bool := existsb (fun s => mem_str s.1 TUN_SERVICES && uses input s.1) (services input).
Definition wg_outbound input : Checked (list Value) :=
  if needs_wg input then
    match warp_wg input with
    | Some account => Ok [warp_wg_outbound account]
    | None => Err (EgressInvalid "this node has no WARP WireGuard account for AmneziaWG yet" "egress_unreachable")
    end
  else Ok [].

(** The tunnels' [warp] is the WireGuard outbound. *)
Definition tun_rule (rule : Value) : Value :=
  if bool_decide ((get "outboundTag" rule ≫= as_str) = Some "warp") then set_field "outboundTag" (fun _ => Str WARP_WG_TAG) rule else rule.

Definition private_exception (service : string) : Value :=
  Object [("inboundTag", strs [service]); ("ip", strs MTPROXY_PRIVATE_EXCEPTION); ("port", Str "443"); ("outboundTag", Str "direct")].

(** The rules of the service's own intent. *)
Definition intent_rules input (service : string) (intent : Value) (chain_tags : imap string) : Checked (list Value) :=
  rules ← (if is_v2 intent then lane_rules service intent (lanes_for input service) chain_tags
           else Ok (map (fun r => rule service r None []) (strings (index intent "rules"))
                    ++ [catch_all service None (outbound_for (rule_action (index intent "default")))]));
  Ok (if mem_str service TUN_SERVICES then map tun_rule rules else rules).

(** What one service adds to the outbounds and to the rules. *)
Definition service_rules input (s : string * Ingress) : Checked (list Value * list Value) :=
  let '(service, ingress) := s in
  let intent := intent_of input service in
  let '(extra, chain_tags) := chain_outbounds service intent in
  rules ← intent_rules input service intent chain_tags;
  Ok (extra, match socket ingress with Some _ => [private_exception service] | None => [] end ++ bypass service ++ rules).

Definition relay_rules input : list Value :=
  match relay input with
  | None => []
  | Some _ =>
      bypass RELAY_TAG
      ++ match relay_warp input with
         | [] => []
         | users => [Object [("inboundTag", strs [RELAY_TAG]); ("user", strs users); ("outboundTag", Str "warp")]]
         end
      ++ [catch_all RELAY_TAG None "direct"]
  end.

Definition xray_config (inbounds outbounds rules : list Value) : Value :=
  Object [("log", Object [("access", Str "none"); ("loglevel", Str "warning")]); ("dns", Object [("servers", strs ["localhost"])]);
          ("inbounds", Array inbounds); ("outbounds", Array outbounds);
          ("routing", Object [("domainStrategy", Str "IPOnDemand"); ("rules", Array rules)])].

Definition render_config input : Checked Value :=
  inbounds ← mapM (fun s => inbound input s.1 s.2) (services input);
  let inbounds := inbounds ++ match relay input with Some relay => [relay_inbound relay] | None => [] end in
  warp ← warp_outbound input;
  wg ← wg_outbound input;
  parts ← mapM (service_rules input) (services input);
  Ok (xray_config inbounds ([block_outbound; direct_outbound] ++ warp ++ wg ++ concat (map fst parts))
        (concat (map snd parts) ++ relay_rules input)).

Definition config_bytes (config : Value) : string := dumps config SORTED +:+ nl.
Definition generation_digest (config : Value) : string := sha256_hex (config_bytes config).
End render.
