(* ===== verification/RouterRoute.v ===== *)
(** * The parts of a rendered configuration

    The outbounds and tags of a service's chains and exits, the outbound an egress stands for, and the
    two schemas as lanes. *)

From S2P Require Import Prelude BTree Utf8 Numeric Json PyText TextFacts Plan IndexMap PyIp RouterIp RouterIntent.
From S2P Require Import RouterFacts RouterRender.

(** ** Collected entries *)

Lemma bget_iextend_in {V} (l : list (string * V)) : forall (m : imap V) k, k ∈ map fst l ->
  exists v, bget k (iextend m l) = Some v /\ (k, v) ∈ l.
Proof.
  unfold iextend. induction l as [|[k' v'] l IH] using rev_ind; intros m k Hk; [by apply not_elem_of_nil in Hk|].
  rewrite fold_left_app. cbn [fold_left fst snd]. rewrite bget_iset. destruct (k =?s k') eqn:E.
  - apply eqb_s_true in E as ->. exists v'. split; [done|]. apply elem_of_app. right. by left.
  - apply eqb_s_false in E. rewrite map_app in Hk. apply elem_of_app in Hk as [Hk|Hk]; [|by apply list_elem_of_singleton in Hk].
    destruct (IH m k Hk) as (v & H1 & H2). exists v. split; [done|]. apply elem_of_app. by left.
Qed.
Lemma bget_iextend_out {V} (l : list (string * V)) : forall (m : imap V) k, k ∉ map fst l -> bget k (iextend m l) = bget k m.
Proof.
  unfold iextend. induction l as [|[k' v'] l IH]; intros m k Hk; [done|]. cbn [fold_left fst snd map] in *.
  apply not_elem_of_cons in Hk as [Hn Hk]. by rewrite IH, bget_iset_ne.
Qed.

(** ** Tags *)

Definition tag_of (outbound : Value) : option string := get "tag" outbound ≫= as_str.
Definition proxy_of (outbound : Value) : option string := settings ← get "proxySettings" outbound; tag ← get "tag" settings; as_str tag.

Section facts.
Context {UT : UnicodeText} {FT : FloatText} {SD : SerdeDisplay}.

(** The hops of a chain of the intent. *)
Definition chain_hops (chain : Value) : list Value := strings (index chain "hops").
Definition hops_of (intent : Value) (id : string) : list Value := chain_hops (at_key id (as_entries (get "chains" intent))).

Definition chain_part (service : string) (e : string * Value) : list Value := (hop_outbounds service e.1 0 (chain_hops e.2) None).1.
Definition chain_entry (service : string) (e : string * Value) : string * string :=
  (e.1, default EmptyString (hop_outbounds service e.1 0 (chain_hops e.2) None).2).
Definition exit_part (service : string) (e : string * Value) : Value := exit_outbound (exit_tag service e.1) e.2.
Definition exit_entry (service : string) (e : string * Value) : string * string := ("exit:" +:+ e.1, exit_tag service e.1).

Lemma chain_outbounds_of_eq service chains : forall s,
  chain_outbounds_of service chains s = (s.1 ++ concat (map (chain_part service) chains), iextend s.2 (map (chain_entry service) chains)).
Proof.
  induction chains as [|[id chain] rest IH]; intros s; cbn [chain_outbounds_of map concat]; [by rewrite app_nil_r; destruct s|].
  unfold chain_part at 1, chain_entry at 1. cbn [fst snd]. unfold chain_hops.
  destruct (hop_outbounds service id 0 (strings (index chain "hops")) None) as [outs last] eqn:Ho.
  rewrite IH. cbn [fst snd]. by rewrite <-app_assoc.
Qed.
Lemma exit_outbounds_of_eq service exits : forall s,
  exit_outbounds_of service exits s = (s.1 ++ map (exit_part service) exits, iextend s.2 (map (exit_entry service) exits)).
Proof.
  induction exits as [|[id spec] rest IH]; intros s; cbn [exit_outbounds_of map]; [by rewrite app_nil_r; destruct s|].
  rewrite IH. cbn [fst snd]. by rewrite <-app_assoc.
Qed.

Definition service_outbounds (service : string) (intent : Value) : list Value :=
  concat (map (chain_part service) (as_entries (get "chains" intent))) ++ map (exit_part service) (as_entries (get "exits" intent)).
Definition service_tags (service : string) (intent : Value) : imap string :=
  iextend (icollect (map (chain_entry service) (as_entries (get "chains" intent)))) (map (exit_entry service) (as_entries (get "exits" intent))).

Lemma chain_outbounds_eq service intent : chain_outbounds service intent = (service_outbounds service intent, service_tags service intent).
Proof. unfold chain_outbounds. by rewrite chain_outbounds_of_eq, exit_outbounds_of_eq. Qed.

(** ** The hops of a chain *)

Lemma hop_outbounds_last service id hops : forall i previous,
  (hop_outbounds service id i hops previous).2 = match hops with [] => previous | _ => Some (hop_tag service id (i + length hops)) end.
Proof.
  induction hops as [|h rest IH]; intros i previous; cbn [hop_outbounds]; [done|].
  specialize (IH (S i) (Some (hop_tag service id (S i)))). destruct (hop_outbounds service id (S i) rest _) as [outs last]. cbn [snd] in *.
  rewrite IH. destruct rest; cbn [length]; do 2 f_equal; lia.
Qed.

Lemma hop_outbound_tag name hop previous : tag_of (hop_outbound name hop previous) = Some name.
Proof. reflexivity. Qed.
Lemma hop_outbound_proxy name hop previous : proxy_of (hop_outbound name hop previous) = previous.
Proof. by destruct previous. Qed.

Lemma hop_outbounds_tags service id hops : forall i previous,
  map tag_of (hop_outbounds service id i hops previous).1 = map (fun n => Some (hop_tag service id n)) (seq (S i) (length hops)).
Proof.
  induction hops as [|h rest IH]; intros i previous; cbn [hop_outbounds]; [done|].
  specialize (IH (S i) (Some (hop_tag service id (S i)))). destruct (hop_outbounds service id (S i) rest _) as [outs last]. cbn [fst map length seq] in *.
  by rewrite IH.
Qed.

(** Every hop but the first is dialled through the one before it. *)
Lemma hop_outbounds_proxies service id hops : forall i previous,
  map proxy_of (hop_outbounds service id i hops previous).1
  = match hops with [] => [] | _ => previous :: map (fun n => Some (hop_tag service id n)) (seq (S i) (length hops - 1)) end.
Proof.
  induction hops as [|h rest IH]; intros i previous; cbn [hop_outbounds]; [done|].
  specialize (IH (S i) (Some (hop_tag service id (S i)))). destruct (hop_outbounds service id (S i) rest _) as [outs last]. cbn [fst map length] in *.
  rewrite hop_outbound_proxy, IH. destruct rest as [|h' rest]; [done|]. cbn [length Nat.sub seq map]. by rewrite Nat.sub_0_r.
Qed.

(** ** What an egress stands for *)

(** The outbound of an action and an egress of a service, by name. *)
Definition egress_target (service : string) (intent : Value) (action : string) (e : Value) : string :=
  if negb (action =?s "egress") then outbound_for action else
  match as_str e with
  | Some text =>
      match strip_prefix "chain:" text with
      | Some id => hop_tag service id (length (hops_of intent id))
      | None => match strip_prefix "exit:" text with Some id => exit_tag service id | None => "warp" end
      end
  | None => "warp"
  end.

(** An intent as the manager keeps it: a document of either schema, or no document at all. *)
Inductive intent_shape (intent : Value) : Prop :=
| shape_lane action e rules : is_v2 intent = false -> get "chains" intent = None -> get "exits" intent = None ->
    index intent "default" = Object [("action", Str action); ("egress", e)] -> index intent "rules" = Array rules ->
    lane_wf [] [] (lane_nf [] [] action e rules) -> intent_shape intent
| shape_lanes lanes chains exits : intent = document_v2 lanes chains exits -> v2_wf lanes chains exits -> iok chains -> iok exits ->
    intent_shape intent.

Definition ids_of (key : string) (intent : Value) : list string := bkeys (as_entries (get key intent)).

(** A chain's id has no colon, so it is never the key of an exit. *)
Lemma word_no_colon id x : is_short_word id = true -> id <> ("exit:" +:+ x).
Proof. intros H ->. unfold is_short_word, word in H. apply andb_prop in H as [_ H]. cbn in H. done. Qed.

Lemma service_tags_chain service lanes chains exits id : v2_wf lanes chains exits -> iok chains -> id ∈ bkeys chains ->
  bget id (service_tags service (document_v2 lanes chains exits)) = Some (hop_tag service id (length (hops_of (document_v2 lanes chains exits) id))).
Proof.
  intros Hwf Hok Hin. unfold service_tags, hops_of. rewrite get_chains, get_exits. cbn [as_entries].
  assert (Hw : exists c, (id, c) ∈ chains) by by apply list_elem_of_fmap in Hin as ([k c] & -> & Hin); exists c.
  destruct Hw as (c & Hc). pose proof (proj1 (list.Forall_forall _ _) (vw_chains _ _ _ Hwf) _ Hc) as [Hword (hops & exit & Hv & _ & Hl & _)]. cbn [fst snd] in *.
  rewrite bget_iextend_out.
  - assert (Hm : id ∈ map fst (map (chain_entry service) chains)) by (rewrite map_map; apply (list_elem_of_fmap_2 fst _ _ Hc)).
    destruct (bget_iextend_in _ [] _ Hm) as (t & Ht & Hin'). unfold icollect. rewrite Ht. f_equal.
    apply list_elem_of_fmap in Hin' as ([k c'] & He & Hc'). unfold chain_entry in He. cbn [fst snd] in He. injection He as -> ->.
    pose proof (bget_ok_In _ _ _ Hok Hc) as G. pose proof (bget_ok_In _ _ _ Hok Hc') as G'. rewrite G in G'. injection G' as <-.
    unfold at_key. rewrite G. cbn [default]. rewrite hop_outbounds_last. rewrite Hv. unfold chain_hops. cbn [index get bget String.eqb Ascii.eqb Bool.eqb default strings as_items].
    destruct hops as [|h rest]; [simpl in Hl; lia|done].
  - rewrite map_map. intros Hx. apply list_elem_of_fmap in Hx as (e & He & _). unfold exit_entry in He. cbn [fst] in He.
    by destruct (word_no_colon _ e.1 Hword).
Qed.

Lemma service_tags_exit service intent id : id ∈ ids_of "exits" intent -> bget ("exit:" +:+ id) (service_tags service intent) = Some (exit_tag service id).
Proof.
  intros Hin. unfold service_tags.
  assert (Hm : ("exit:" +:+ id) ∈ map fst (map (exit_entry service) (as_entries (get "exits" intent)))).
  { rewrite map_map. apply list_elem_of_fmap in Hin as (e & -> & He). apply (list_elem_of_fmap_2 (fun x => (exit_entry service x).1) _ _ He). }
  destruct (bget_iextend_in _ (icollect (map (chain_entry service) (as_entries (get "chains" intent)))) _ Hm) as (t & -> & Ht).
  apply list_elem_of_fmap in Ht as (e & He & _). unfold exit_entry in He. injection He as He ->. apply app_inj_l_s in He as ->. done.
Qed.

(** The tag the code computes is the outbound of that name. *)
Lemma outbound_tag_target service intent chains exits action e : intent_shape intent ->
  chains = ids_of "chains" intent -> exits = ids_of "exits" intent -> egress_nf chains exits action e ->
  outbound_tag action e (service_tags service intent) = egress_target service intent action e.
Proof.
  intros Hs -> -> He. unfold egress_nf, outbound_tag, egress_target in *. destruct (action =?s "egress") eqn:Ha; [|done].
  destruct He as (t & -> & Hk). apply eqb_s_true in Ha as ->. cbn [negb as_str].
  unfold known_egress in Hk. destruct (strip_prefix "chain:" t) as [id|] eqn:Hc.
  - assert (Hin : id ∈ ids_of "chains" intent).
    { apply strip_prefix_iff in Hc as ->. by rewrite orb_false_r in Hk; apply mem_str_true. }
    destruct Hs as [? ? ? _ Hn|lanes chains exits -> Hw Hok _]; [unfold ids_of in Hin; by rewrite Hn in Hin; apply not_elem_of_nil in Hin|].
    by rewrite (service_tags_chain service lanes chains exits id Hw Hok Hin).
  - rewrite prefix_strip. destruct (strip_prefix "exit:" t) as [id|] eqn:Hx; [|done].
    apply strip_prefix_iff in Hx as ->. rewrite service_tags_exit; [done|].
    by apply mem_str_true.
Qed.
End facts.

(** * What a rendered configuration does with a connection

    The reading of an Xray configuration that the renderer relies on: the rules are tried in order, a rule
    applies when every field it has does, and its outbound takes the connection. How one field tells
    whether it applies is Xray's own ([hit]); of it the renderer needs only that [inboundTag] and [user]
    list the inbounds and the users they apply to. *)

Definition outbounds_of (config : Value) : list Value := as_items (index config "outbounds").
Definition rules_of (config : Value) : list Value := as_items (index (index config "routing") "rules").
Definition target_of (rule : Value) : option string := get "outboundTag" rule ≫= as_str.

Section route.
Context {UT : UnicodeText} {FT : FloatText} {SD : SerdeDisplay}.

(** ** First match *)

Section xray.
Context {C : Type} (hit : string -> Value -> C -> bool).

Definition applies (c : C) (rule : Value) : bool :=
  match rule with Object fields => forallb (fun e => (e.1 =?s "outboundTag") || hit e.1 e.2 c) fields | _ => false end.
Definition first_target (rules : list Value) (c : C) : option string := List.find (applies c) rules ≫= target_of.
Definition xray_route (config : Value) (c : C) : option string := first_target (rules_of config) c.

(** The two fields that say whose connection it is. *)
Record xray_reads (inbound_of : C -> string) (user_of : C -> Value) : Prop := {
  reads_inbound : forall l c, hit "inboundTag" (Array l) c = existsb (value_eqb (Str (inbound_of c))) l;
  reads_user : forall l c, hit "user" (Array l) c = existsb (fun user => value_eqb user (user_of c)) l;
}.

(** ** What the documents ask for *)

(** A rule of an intent as the router's Xray reads it. *)
Definition selected (c : C) (rule : Value) : bool := forallb (fun e => hit e.1 e.2 c) (rule_selectors rule).

(** A lane: its first rule that selects the connection decides, or its default. *)
Definition lane_target (service : string) (intent body : Value) (c : C) : string :=
  match List.find (selected c) (as_items (index body "rules")) with
  | Some rule => egress_target service intent (rule_action rule) (default Null (get "egress" rule))
  | None => egress_target service intent (rule_action (index body "default")) (index (index body "default") "egress")
  end.

(** The lane a user is on: the grant lane whose account it is, or the service's. *)
Definition is_users (user : Value) (accounts : list LaneAccount) (id : string) : bool :=
  match account_of id accounts with Some account => value_eqb (account_user account) user | None => false end.
Definition lane_among (lanes : imap Value) (accounts : list LaneAccount) (user : Value) : Value :=
  match List.find (is_users user accounts) (List.filter (String.prefix "grant:") (bkeys lanes)) with
  | Some id => at_key id lanes
  | None => at_key (default EmptyString (head (List.filter (String.prefix "svc:") (bkeys lanes)))) lanes
  end.
Definition lane_of (intent : Value) (service : string) (accounts : list LaneAccount) (user : Value) : Value :=
  lane_among (lanes_of intent service) accounts user.

(** The tunnels' [warp] is the WireGuard outbound. *)
Definition tunnelled (service target : string) : string :=
  if mem_str service TUN_SERVICES && (target =?s "warp") then WARP_WG_TAG else target.

(** The bypass comes first; MTProxy's own exception before it. *)
Definition service_target (service : string) (ingress : Ingress) (intent : Value) (accounts : list LaneAccount) (user : Value) (c : C) : string :=
  if match socket ingress with Some _ => hit "ip" (strs MTPROXY_PRIVATE_EXCEPTION) c && hit "port" (Str "443") c | None => false end then "direct"
  else if hit "ip" (strs ["geoip:private"]) c || hit "domain" (strs ["domain:localhost"; "full:localhost"]) c then "block"
  else tunnelled service (lane_target service intent (lane_of intent service accounts user) c).

(** ** First match, list by list *)

Lemma first_target_app l k c : Forall (fun r => is_Some (target_of r)) l ->
  first_target (l ++ k) c = match first_target l c with Some t => Some t | None => first_target k c end.
Proof.
  unfold first_target. induction l as [|r l IH]; intros H; [done|]. apply Forall_cons_1 in H as [[t Ht] H]. cbn [app List.find].
  destruct (applies c r); [by simpl; rewrite Ht|]. by apply IH.
Qed.
Lemma first_target_none l c : Forall (fun r => applies c r = false) l -> first_target l c = None.
Proof. unfold first_target. induction 1 as [|r l Hr _ IH]; [done|]. cbn [List.find]. by rewrite Hr. Qed.
Lemma first_target_cons r l c : is_Some (target_of r) -> first_target (r :: l) c = if applies c r then target_of r else first_target l c.
Proof. intros [t Ht]. unfold first_target. cbn [List.find]. by destruct (applies c r). Qed.

Context {inbound_of : C -> string} {user_of : C -> Value} (Hreads : xray_reads inbound_of user_of).

Lemma hit_inbound tag c : hit "inboundTag" (strs [tag]) c = (inbound_of c =?s tag).
Proof. unfold strs. rewrite (reads_inbound _ _ Hreads). simpl. by rewrite orb_false_r. Qed.
Lemma hit_user u c : hit "user" (Array [u]) c = value_eqb u (user_of c).
Proof. rewrite (reads_user _ _ Hreads). simpl. by rewrite orb_false_r. Qed.

(** Whether the connection is on the tag's inbound, as the user if one is named. *)
Definition admits (tag : string) (user : option Value) (c : C) : bool :=
  (inbound_of c =?s tag) && match user with Some u => value_eqb u (user_of c) | None => true end.

Lemma applies_fields tag user fields target c :
  forallb (fun e => negb (e.1 =?s "outboundTag")) fields = true ->
  applies c (Object ([("inboundTag", strs [tag])] ++ opt_field "user" ((fun user => Array [user]) <$> user) ++ fields ++ [("outboundTag", target)]))
  = admits tag user c && forallb (fun e => hit e.1 e.2 c) fields.
Proof.
  intros Hf. unfold applies. rewrite !forallb_app.
  assert (forallb (fun e => (e.1 =?s "outboundTag") || hit e.1 e.2 c) fields = forallb (fun e => hit e.1 e.2 c) fields) as ->.
  { clear -Hf. induction fields as [|e l IH]; [done|]. cbn [forallb] in *. apply andb_prop in Hf as [H1 H2]. apply negb_true_iff in H1.
    by rewrite H1, IH. }
  cbn [forallb fst snd]. change ("inboundTag" =?s "outboundTag") with false. change ("outboundTag" =?s "outboundTag") with true.
  cbn [orb]. rewrite hit_inbound, !andb_true_r. unfold admits. destruct user as [u|]; simpl; rewrite ?hit_user, ?andb_true_r; by rewrite ?andb_assoc.
Qed.

Lemma selectors_fields rule : forallb (fun e => negb (e.1 =?s "outboundTag")) (rule_selectors rule) = true.
Proof.
  unfold rule_selectors. rewrite !forallb_app.
  destruct (rule_domains rule), (rule_addresses rule), (map str_of (strings (index rule "ports"))), (truthy_field "protocols" rule); reflexivity.
Qed.

Lemma applies_rule tag r user tags c : applies c (rule tag r user tags) = admits tag user c && selected c r.
Proof. unfold rule. by rewrite applies_fields; [|apply selectors_fields]. Qed.
Lemma applies_catch_all tag user target c : applies c (catch_all tag user target) = admits tag user c.
Proof. etransitivity; [exact (applies_fields tag user [] (Str target) c eq_refl)|]. by rewrite andb_true_r. Qed.

Lemma get_app key (a b : imap Value) : forallb (fun e => negb (e.1 =?s key)) a = true -> bget key (a ++ b) = bget key b.
Proof.
  induction a as [|[k v] a IH]; [done|]. cbn [forallb app bget fst]. intros [H1 H2]%andb_prop. apply negb_true_iff in H1.
  rewrite String.eqb_sym, H1. by apply IH.
Qed.
Lemma target_fields tag user fields target : forallb (fun e => negb (e.1 =?s "outboundTag")) fields = true ->
  target_of (Object ([("inboundTag", strs [tag])] ++ opt_field "user" ((fun user => Array [user]) <$> user) ++ fields ++ [("outboundTag", Str target)]))
  = Some target.
Proof.
  intros Hf. unfold target_of, get. rewrite !app_assoc, get_app; [done|]. rewrite !forallb_app, Hf. by destruct user.
Qed.
Lemma target_rule tag r user tags : target_of (rule tag r user tags)
  = Some (outbound_tag (rule_action r) (default Null (get "egress" r)) tags).
Proof. unfold rule. apply target_fields, selectors_fields. Qed.
Lemma target_catch_all tag user target : target_of (catch_all tag user target) = Some target.
Proof. exact (target_fields tag user [] target eq_refl). Qed.

(** ** A lane's rules *)

Definition body_target (tags : imap string) (body : Value) (c : C) : string :=
  match List.find (selected c) (as_items (index body "rules")) with
  | Some rule => outbound_tag (rule_action rule) (default Null (get "egress" rule)) tags
  | None => outbound_tag (rule_action (index body "default")) (index (index body "default") "egress") tags
  end.

Lemma lane_body_targets tag body user tags : Forall (fun r => is_Some (target_of r)) (lane_body_rules tag body user tags).
Proof.
  unfold lane_body_rules. apply Forall_app. split; [|by apply list.Forall_singleton; rewrite target_catch_all].
  apply Forall_map, list.Forall_forall. intros r _. by rewrite target_rule.
Qed.

Lemma lane_body_first tag body user tags c :
  first_target (lane_body_rules tag body user tags) c = if admits tag user c then Some (body_target tags body c) else None.
Proof.
  unfold lane_body_rules, body_target, strings. induction (as_items (index body "rules")) as [|r l IH].
  - cbn [map app]. rewrite first_target_cons, applies_catch_all, target_catch_all; [done|]. by rewrite target_catch_all.
  - cbn [map app]. rewrite first_target_cons, applies_rule, target_rule, IH by by rewrite target_rule.
    cbn [List.find]. by destruct (admits tag user c), (selected c r).
Qed.

(** ** The lanes of a document *)

Lemma lane_targets tag lanes accounts tags id block :
  (user ← lane_user tag id accounts; Ok (lane_body_rules tag (at_key id lanes) user tags)) = Ok block ->
  Forall (fun r => is_Some (target_of r)) block.
Proof. intros H. inv_binds. apply Ok_inj in H as <-. apply lane_body_targets. Qed.

(** A grant lane's rules take the connections of its account, and no others. *)
Lemma grant_lane_first tag lanes accounts tags id block c : String.prefix "svc:" id = false -> inbound_of c = tag ->
  (user ← lane_user tag id accounts; Ok (lane_body_rules tag (at_key id lanes) user tags)) = Ok block ->
  first_target block c = if is_users (user_of c) accounts id then Some (body_target tags (at_key id lanes) c) else None.
Proof.
  intros Hid Hc H. inv_binds. apply Ok_inj in H as <-. unfold lane_user in Hr. rewrite Hid in Hr. unfold is_users.
  destruct (account_of id accounts) as [account|]; [|done]. apply Ok_inj in Hr as <-.
  rewrite lane_body_first. unfold admits. by rewrite Hc, eqb_s_refl.
Qed.

Lemma grant_lanes_first tag lanes accounts tags c ids blocks : inbound_of c = tag -> Forall (fun id => String.prefix "svc:" id = false) ids ->
  Forall2 (fun id block => (user ← lane_user tag id accounts; Ok (lane_body_rules tag (at_key id lanes) user tags)) = Ok block) ids blocks ->
  first_target (concat blocks) c
  = (fun id => body_target tags (at_key id lanes) c) <$> List.find (is_users (user_of c) accounts) ids.
Proof.
  intros Hc Hids H. induction H as [|id block ids blocks Hb _ IH]; [done|]. apply Forall_cons_1 in Hids as [Hid Hids].
  cbn [concat List.find]. rewrite first_target_app by by eapply lane_targets. rewrite (grant_lane_first tag lanes accounts tags id block c Hid Hc Hb), IH by done.
  by destruct (is_users (user_of c) accounts id).
Qed.

Lemma grants_not_services lanes : Forall (fun id => String.prefix "svc:" id = false) (List.filter (String.prefix "grant:") (bkeys (V := Value) lanes)).
Proof.
  apply list.Forall_forall. intros id [_ H]%list_elem_of_In%filter_In. rewrite prefix_strip in *.
  destruct (strip_prefix "grant:" id) as [x|] eqn:E; [|done]. by apply strip_prefix_iff in E as ->.
Qed.

Lemma lane_rules_first tag intent accounts tags rules c id : inbound_of c = tag ->
  List.filter (String.prefix "svc:") (bkeys (as_entries (get "lanes" intent))) = [id] ->
  lane_rules tag intent accounts tags = Ok rules ->
  first_target rules c = Some (body_target tags (lane_among (as_entries (get "lanes" intent)) accounts (user_of c)) c).
Proof.
  intros Hc Hs H. unfold lane_rules, ordered_lanes in H. rewrite Hs in H. set (lanes := as_entries (get "lanes" intent)) in *.
  destruct (mapM _ _) as [blocks|] eqn:Hm; [|done]. apply Ok_inj in H as <-. apply mapM_Ok_iff in Hm.
  apply Forall2_app_inv_l in Hm as (grants & last & Hg & Hl & ->). inversion Hl as [|? block ? ? Hb Hn]; subst. inversion Hn; subst.
  rewrite concat_app, first_target_app by (eapply Forall_concat, Forall2_Forall_r; [exact Hg|]; apply list.Forall_forall; intros; by eapply lane_targets).
  rewrite (grant_lanes_first (inbound_of c) lanes accounts tags c _ grants eq_refl (grants_not_services lanes) Hg).
  unfold lane_among. rewrite Hs. cbn [head default]. destruct (List.find _ _); [done|]. cbn [concat fmap option_fmap option_map].
  rewrite app_nil_r. inv_binds. apply Ok_inj in Hb as <-. rewrite lane_body_first.
  assert (Hid : String.prefix "svc:" id = true) by (assert (Hi : id ∈ [id]) by (by left); rewrite <-Hs in Hi; by apply list_elem_of_In, filter_In in Hi as [_ Hi]).
  unfold lane_user in Hr. rewrite Hid in Hr. apply Ok_inj in Hr as <-. unfold admits. by rewrite eqb_s_refl.
Qed.

(** ** The tunnels *)

Lemma forallb_iset (f : string * Value -> bool) k v m : (forall x, f (k, x) = true) -> forallb f (iset k v m) = forallb f m.
Proof.
  intros Hk. induction m as [|[q w] m IH]; cbn [iset forallb]; [by rewrite Hk|].
  destruct (k =?s q) eqn:E; cbn [forallb]; [apply eqb_s_true in E as <-; by rewrite !Hk|]. by rewrite IH.
Qed.
Lemma applies_tun c r : applies c (tun_rule r) = applies c r.
Proof.
  unfold tun_rule. case_bool_decide; [|done]. destruct r as [| | | | |m]; try done. apply forallb_iset. intros x. done.
Qed.
Lemma target_tun r : target_of (tun_rule r) = (fun t => if t =?s "warp" then WARP_WG_TAG else t) <$> target_of r.
Proof.
  unfold tun_rule, target_of. case_bool_decide as H.
  - rewrite H. destruct r as [| | | | |m]; try done. cbn [set_field get]. by rewrite bget_iset_eq.
  - destruct (get "outboundTag" r ≫= as_str) as [t|]; [|done]. cbn. destruct (t =?s "warp") eqn:E; [|done]. by apply eqb_s_true in E as ->.
Qed.
Lemma first_target_tun rules c : first_target (map tun_rule rules) c = (fun t => if t =?s "warp" then WARP_WG_TAG else t) <$> first_target rules c.
Proof.
  unfold first_target. induction rules as [|r l IH]; [done|]. cbn [map List.find]. rewrite applies_tun.
  destruct (applies c r); [|exact IH]. apply target_tun.
Qed.
(** ** One service *)

(** A lane whose egresses are the document's own. *)
Definition lane_closed (intent body : Value) : Prop :=
  egress_nf (ids_of "chains" intent) (ids_of "exits" intent) (rule_action (index body "default")) (index (index body "default") "egress")
  /\ Forall (fun r => egress_nf (ids_of "chains" intent) (ids_of "exits" intent) (rule_action r) (default Null (get "egress" r))) (as_items (index body "rules")).

Lemma rule_wf_nf chains exits r : rule_wf chains exits r -> egress_nf chains exits (rule_action r) (default Null (get "egress" r)).
Proof. by intros [(ds & gs & cs & js & ps & protocols & action & e & -> & _ & He & _)]. Qed.
Lemma lane_wf_closed intent lane : lane_wf (ids_of "chains" intent) (ids_of "exits" intent) lane -> lane_closed intent (Object lane).
Proof.
  intros [(action & e & rules & -> & _ & He & _ & Hr)]. split; [exact He|]. eapply Forall_impl; [exact Hr|]. apply rule_wf_nf.
Qed.

Lemma body_target_spec service intent body c : intent_shape intent -> lane_closed intent body ->
  body_target (service_tags service intent) body c = lane_target service intent body c.
Proof.
  intros Hs [Hd Hr]. unfold body_target, lane_target. destruct (List.find _ _) as [r|] eqn:Hf.
  - apply List.find_some in Hf as [Hin _]. apply list_elem_of_In in Hin. rewrite list.Forall_forall in Hr.
    by apply (outbound_tag_target service intent _ _ _ _ Hs eq_refl eq_refl), Hr.
  - by apply (outbound_tag_target service intent _ _ _ _ Hs eq_refl eq_refl).
Qed.

Lemma no_ids_target action e : egress_nf [] [] action e -> outbound_tag action e [] = outbound_for action.
Proof.
  unfold egress_nf, outbound_tag. destruct (action =?s "egress"); [|done]. intros (t & -> & Hk). cbn [as_str]. unfold known_egress in Hk.
  destruct (strip_prefix "chain:" t) as [|] eqn:E1; [apply strip_prefix_iff in E1 as ->; by rewrite orb_false_r in Hk|].
  rewrite prefix_strip. destruct (strip_prefix "exit:" t) eqn:E2; [|done]. by apply strip_prefix_iff in E2 as ->.
Qed.

(** Every lane of a document of the second schema is closed; so is the one it runs for a user. *)
Lemma v2_one_service lanes chains exits : v2_wf lanes chains exits -> exists id, List.filter (String.prefix "svc:") (bkeys lanes) = [id] /\ id ∈ bkeys lanes.
Proof.
  intros Hw. pose proof (vw_service _ _ _ Hw) as Hs. destruct (List.filter is_service_lane lanes) as [|[id v] [|]] eqn:Hf; try done.
  exists id. rewrite filter_keys. split; [by unfold is_service_lane in Hf; rewrite Hf|].
  assert (Hin : (id, v) ∈ List.filter is_service_lane lanes) by (rewrite Hf; by left).
  apply list_elem_of_In, filter_In in Hin as [Hin _]. apply list_elem_of_In in Hin. apply (list_elem_of_fmap_2 fst _ _ Hin).
Qed.
Lemma at_key_elem id (m : imap Value) : id ∈ bkeys m -> (id, at_key id m) ∈ m.
Proof.
  intros H. unfold at_key. apply bhas_true in H. unfold bhas in H. destruct (bget id m) as [v|] eqn:E; [|done]. by apply bget_Some_In.
Qed.
Lemma lane_among_closed lanes chains exits accounts user : v2_wf lanes chains exits ->
  lane_closed (document_v2 lanes chains exits) (lane_among lanes accounts user).
Proof.
  intros Hw. assert (Hall : forall id, id ∈ bkeys lanes -> lane_closed (document_v2 lanes chains exits) (at_key id lanes)).
  { intros id Hid%at_key_elem. pose proof (vw_lanes _ _ _ Hw) as Hl. rewrite list.Forall_forall in Hl.
    destruct (Hl _ Hid) as (_ & lane & Hv & Hlw). cbn [snd] in Hv. rewrite Hv. apply lane_wf_closed.
    unfold ids_of. by rewrite get_chains, get_exits. }
  unfold lane_among. destruct (List.find _ _) as [id|] eqn:Hf.
  - apply List.find_some in Hf as [Hin _]. apply filter_In in Hin as [Hin _]. by apply Hall, list_elem_of_In.
  - destruct (v2_one_service _ _ _ Hw) as (id & -> & Hid). by apply Hall.
Qed.

Definition maybe_tun (service : string) (rules : list Value) : list Value := if mem_str service TUN_SERVICES then map tun_rule rules else rules.
Lemma first_target_maybe service rules c : first_target (maybe_tun service rules) c = tunnelled service <$> first_target rules c.
Proof.
  unfold maybe_tun, tunnelled. destruct (mem_str service TUN_SERVICES); [apply first_target_tun|]. by destruct (first_target rules c).
Qed.

Lemma v1_lane service intent action e rules accounts user : is_v2 intent = false ->
  index intent "default" = Object [("action", Str action); ("egress", e)] -> index intent "rules" = Array rules ->
  lane_of intent service accounts user = Object (lane_nf [] [] action e rules).
Proof.
  intros Hv Hd Hr. unfold lane_of, lanes_of. rewrite Hv, Hd, Hr. unfold lane_among. cbn [bkeys map fst List.filter].
  rewrite prefix_strip. change (strip_prefix "grant:" ("svc:" +:+ service)) with (@None string). rewrite prefix_app_s.
  cbn [List.find head default]. unfold at_key. cbn [bget]. by rewrite eqb_s_refl.
Qed.

Lemma intent_rules_first input service intent rules c : intent_shape intent -> inbound_of c = service ->
  intent_rules input service intent (service_tags service intent) = Ok rules ->
  first_target rules c
  = Some (tunnelled service (lane_target service intent (lane_of intent service (lanes_for input service) (user_of c)) c)).
Proof.
  intros Hs Hc H. unfold intent_rules in H. inv_binds. apply Ok_inj in H as <-. fold (maybe_tun service a). rewrite first_target_maybe.
  assert (first_target a c = Some (lane_target service intent (lane_of intent service (lanes_for input service) (user_of c)) c)) as ->; [|done].
  pose proof Hs as Hshape. destruct Hs as [action e items Hv Hch Hx Hd Hi Hw|lanes chains exits -> Hw Hok _].
  - rewrite Hv in Hr. apply Ok_inj in Hr as <-. rewrite (v1_lane service intent action e items) by done.
    assert (Hcl : lane_closed intent (Object (lane_nf [] [] action e items))).
    { apply lane_wf_closed. unfold ids_of. by rewrite Hch, Hx. }
    rewrite <-body_target_spec by done. assert (service_tags service intent = []) as -> by (unfold service_tags; by rewrite Hch, Hx).
    transitivity (first_target (lane_body_rules service (Object (lane_nf [] [] action e items)) None []) c);
      [|by rewrite lane_body_first; unfold admits; rewrite Hc, eqb_s_refl].
    unfold lane_body_rules. rewrite Hi, Hd. destruct Hcl as [Hd' _]. cbn [index get bget] in Hd'. do 4 f_equal. symmetry. unfold ids_of in Hd'. rewrite Hch, Hx in Hd'. by apply no_ids_target.
  - rewrite is_v2_v2 in Hr. destruct (v2_one_service _ _ _ Hw) as (id & Hid & _).
    rewrite (lane_rules_first service (document_v2 lanes chains exits) (lanes_for input service) _ a c id Hc Hid Hr). rewrite <-body_target_spec; [done|done|].
    by apply lane_among_closed.
Qed.
(** ** The configuration *)

Lemma first_target_hit l k c t : first_target l c = Some t -> first_target (l ++ k) c = Some t.
Proof.
  unfold first_target. induction l as [|r l IH]; [done|]. cbn [app List.find]. by destruct (applies c r).
Qed.
Lemma first_target_skip l k c : Forall (fun r => applies c r = false) l -> first_target (l ++ k) c = first_target k c.
Proof. unfold first_target. induction 1 as [|r l Hr _ IH]; [done|]. cbn [app List.find]. by rewrite Hr. Qed.

(** A list of rules of one inbound. *)
Definition rules_on (tag : string) (c : C) (rules : list Value) : Prop := inbound_of c <> tag -> Forall (fun r => applies c r = false) rules.

Lemma admits_other tag user c : inbound_of c <> tag -> admits tag user c = false.
Proof. intros Hn%eqb_s_false. unfold admits. by rewrite Hn. Qed.
Lemma lane_body_on tag body user tags c : rules_on tag c (lane_body_rules tag body user tags).
Proof.
  intros Hn. unfold lane_body_rules. apply Forall_app. split; [|apply list.Forall_singleton; rewrite applies_catch_all; by apply admits_other].
  apply Forall_map, list.Forall_forall. intros r _. rewrite applies_rule. by rewrite admits_other.
Qed.
Lemma lane_rules_on tag intent accounts tags rules c : lane_rules tag intent accounts tags = Ok rules -> rules_on tag c rules.
Proof.
  unfold lane_rules. destruct (mapM _ _) as [blocks|] eqn:Hm; [|done]. intros [= <-] Hn. apply mapM_Ok_iff in Hm. apply Forall_concat.
  eapply Forall2_Forall_r; [exact Hm|]. apply list.Forall_forall. intros id _ block H. inv_binds. apply Ok_inj in H as <-. by apply lane_body_on.
Qed.
Lemma maybe_tun_on tag rules c : rules_on tag c rules -> rules_on tag c (maybe_tun tag rules).
Proof.
  intros H Hn. unfold maybe_tun. destruct (mem_str tag TUN_SERVICES); [|by apply H]. apply Forall_map.
  eapply Forall_impl; [by apply H|]. intros r Hr. by rewrite applies_tun.
Qed.
Lemma intent_rules_on input tag intent tags rules c : intent_rules input tag intent tags = Ok rules -> rules_on tag c rules.
Proof.
  unfold intent_rules. intros H. inv_binds. apply Ok_inj in H as <-. apply (maybe_tun_on tag a). destruct (is_v2 intent); [by eapply lane_rules_on|].
  apply Ok_inj in Hr as <-. intros Hn. apply Forall_app. split; [|apply list.Forall_singleton; rewrite applies_catch_all; by apply admits_other].
  apply Forall_map, list.Forall_forall. intros r _. rewrite applies_rule. by rewrite admits_other.
Qed.

(** The fixed rules of an inbound. *)
Lemma applies_two tag key value target c : applies c (Object [("inboundTag", strs [tag]); (key, value); ("outboundTag", target)])
  = (inbound_of c =?s tag) && ((key =?s "outboundTag") || hit key value c).
Proof. unfold applies. cbn [forallb fst snd]. rewrite hit_inbound. change ("inboundTag" =?s "outboundTag") with false. change ("outboundTag" =?s "outboundTag") with true. cbn [orb]. by rewrite andb_true_r. Qed.
Lemma applies_exception tag c : applies c (private_exception tag) = (inbound_of c =?s tag) && (hit "ip" (strs MTPROXY_PRIVATE_EXCEPTION) c && hit "port" (Str "443") c).
Proof.
  unfold applies, private_exception. cbn [forallb fst snd]. rewrite hit_inbound. change ("inboundTag" =?s "outboundTag") with false.
  change ("outboundTag" =?s "outboundTag") with true. change ("ip" =?s "outboundTag") with false. change ("port" =?s "outboundTag") with false.
  cbn [orb]. by rewrite andb_true_r.
Qed.
Lemma bypass_on tag c : rules_on tag c (bypass tag).
Proof.
  intros Hn%eqb_s_false. unfold bypass. repeat constructor; by rewrite applies_two, Hn.
Qed.
Lemma bypass_first tag k c : inbound_of c = tag ->
  first_target (bypass tag ++ k) c
  = if hit "ip" (strs ["geoip:private"]) c || hit "domain" (strs ["domain:localhost"; "full:localhost"]) c then Some "block" else first_target k c.
Proof.
  intros Hc. unfold bypass. cbn [app]. unfold first_target. cbn [List.find]. rewrite !applies_two, Hc, eqb_s_refl.
  change ("ip" =?s "outboundTag") with false. change ("domain" =?s "outboundTag") with false. cbn [orb andb].
  destruct (hit "ip" _ c); [done|]. cbn [orb]. by destruct (hit "domain" _ c).
Qed.

Definition private_part (service : string) (ingress : Ingress) : list Value := match socket ingress with Some _ => [private_exception service] | None => [] end.
Lemma service_rules_inv input service ingress part : service_rules input (service, ingress) = Ok part ->
  exists rules, intent_rules input service (intent_of input service) (service_tags service (intent_of input service)) = Ok rules
    /\ part = (service_outbounds service (intent_of input service), private_part service ingress ++ bypass service ++ rules).
Proof.
  unfold service_rules. rewrite chain_outbounds_eq. intros H. inv_binds. apply Ok_inj in H as <-. by exists a.
Qed.

Lemma service_on input service ingress part c : service_rules input (service, ingress) = Ok part -> rules_on service c part.2.
Proof.
  intros (rules & Hr & ->)%service_rules_inv Hn. cbn [snd]. apply Forall_app. split.
  - unfold private_part. destruct (socket ingress); [|done]. apply list.Forall_singleton. rewrite applies_exception. by apply eqb_s_false in Hn as ->.
  - apply Forall_app. split; [by apply bypass_on|]. by eapply intent_rules_on.
Qed.

Lemma service_first input service ingress part c : intent_shape (intent_of input service) -> inbound_of c = service ->
  service_rules input (service, ingress) = Ok part ->
  first_target part.2 c = Some (service_target service ingress (intent_of input service) (lanes_for input service) (user_of c) c).
Proof.
  intros Hs Hc (rules & Hr & ->)%service_rules_inv. cbn [snd]. unfold service_target.
  assert (Hrest : first_target (bypass service ++ rules) c
    = Some (if hit "ip" (strs ["geoip:private"]) c || hit "domain" (strs ["domain:localhost"; "full:localhost"]) c then "block"
            else tunnelled service (lane_target service (intent_of input service) (lane_of (intent_of input service) service (lanes_for input service) (user_of c)) c))).
  { rewrite bypass_first by done. destruct (_ || _); [done|]. by apply intent_rules_first. }
  unfold private_part. destruct (socket ingress); cbn [app]; [|exact Hrest]. unfold first_target in *. cbn [List.find].
  rewrite applies_exception, Hc, eqb_s_refl. cbn [andb]. destruct (hit "ip" (strs MTPROXY_PRIVATE_EXCEPTION) c && hit "port" (Str "443") c); [done|exact Hrest].
Qed.

Lemma services_from (f : string -> option Ingress) l : NoDup l -> NoDup (map fst (omap (fun service => (fun ingress => (service, ingress)) <$> f service) l)).
Proof.
  induction 1 as [|x l Hx _ IH]; [constructor|]. cbn. destruct (f x) as [i|]; [|done]. cbn [fmap option_fmap option_map map fst].
  apply NoDup_cons. split; [|done]. intros Hin. apply Hx. apply list_elem_of_fmap in Hin as ([y j] & -> & Hj).
  apply list_elem_of_omap in Hj as (z & Hz & Hf). destruct (f z); [|done]. by simplify_eq/=.
Qed.
Lemma services_nodup input : NoDup (map fst (services input)).
Proof. apply services_from. by apply (bool_decide_unpack _). Qed.

Lemma render_inv input config : render_config input = Ok config -> exists inbounds warp wg parts,
  warp_outbound input = Ok warp /\ wg_outbound input = Ok wg /\ Forall2 (fun s part => service_rules input s = Ok part) (services input) parts
  /\ config = xray_config inbounds ([block_outbound; direct_outbound] ++ warp ++ wg ++ concat (map fst parts)) (concat (map snd parts) ++ relay_rules input).
Proof.
  unfold render_config. intros H. inv_binds. apply Ok_inj in H as <-.
  match goal with H : mapM (service_rules input) _ = Ok _ |- _ => apply mapM_Ok_iff in H end. eauto 10.
Qed.

(** The rules of the services before a connection's own let it pass. *)
Lemma parts_first input ss parts service ingress c : Forall2 (fun s part => service_rules input s = Ok part) ss parts ->
  NoDup (map fst ss) -> (service, ingress) ∈ ss -> inbound_of c = service -> intent_shape (intent_of input service) ->
  first_target (concat (map snd parts)) c = Some (service_target service ingress (intent_of input service) (lanes_for input service) (user_of c) c).
Proof.
  intros H Hn Hin Hc Hs. induction H as [|[s i] part ss parts Hp _ IH]; [by apply not_elem_of_nil in Hin|].
  cbn [map fst] in Hn. apply NoDup_cons in Hn as [Hout Hn]. cbn [map concat].
  apply elem_of_cons in Hin as [Heq|Hin].
  - injection Heq as <- <-. by apply first_target_hit, service_first.
  - assert (inbound_of c <> s) by (intros Hx; apply Hout; rewrite <-Hx, Hc; apply (list_elem_of_fmap_2 fst _ _ Hin)).
    rewrite first_target_skip by (by eapply service_on). by apply IH.
Qed.
End xray.
End route.
