(* ===== verification/RouterIpFacts.v ===== *)
(** * The readers of addresses agree

    The installer, the panel and the router's manager each port CPython's reader of addresses. What the
    router's accepts and reads is what the installer's does; and the text it writes for a network is read
    back as that network. *)

From S2P Require Import Prelude Utf8 Numeric PyText TextFacts IpAddr IpAddrFacts PyIp RouterIp.
Local Open Scope N_scope.

Lemma ok_bind {E A B} (r : result E A) (f : A -> result E B) : ok (r ≫= f) = ok r ≫= (fun a => ok (f a)).
Proof. by destruct r. Qed.
Lemma ok_map_err {E F A} (f : E -> F) (r : result E A) : ok (map_err f r) = ok r.
Proof. by destruct r. Qed.

(** ** IPv4 *)

Definition octets_agree (s : string) : bool := bool_decide (octet_value s = ok (parse_octet s)).
Lemma octets_agree_all : short_digits octets_agree = true.
Proof. vm_compute. reflexivity. Qed.

Lemma octet_value_ok s : octet_value s = ok (parse_octet s).
Proof.
  destruct (str_empty s) eqn:He; [by destruct s|].
  destruct (forallb_s is_digit s) eqn:Hd; [|unfold octet_value, parse_octet; rewrite He, Hd; cbn [negb]; by rewrite orb_true_r].
  destruct (3 <? String.length s)%nat eqn:Hl; [unfold octet_value, parse_octet; by rewrite He, Hd, Hl|].
  apply (bool_decide_unpack _). apply Is_true_true. apply (short_digits_spec _ _ octets_agree_all); [done|by intros ->|by apply Nat.ltb_ge].
Qed.

Lemma quad_value_ok text octets : forall value, quad_value octets value = ok (ipv4_octets text octets value).
Proof.
  induction octets as [|o rest IH]; intros value; [done|]. cbn [quad_value ipv4_octets]. rewrite ok_bind, ok_map_err, <-octet_value_ok.
  destruct (octet_value o); [|done]. apply IH.
Qed.
Lemma parse_v4_ok text : parse_v4 text = ok (ipv4_int text).
Proof. unfold parse_v4, ipv4_int. destruct (str_empty text); [done|]. destruct (negb _); [done|]. apply quad_value_ok. Qed.

Lemma parse_v4_str v : v < 2 ^ 32 -> parse_v4 (ipv4_str v) = Some v.
Proof. intros Hv. by rewrite parse_v4_ok, ipv4_int_str. Qed.
Lemma router_v4_inv text v : parse_v4 text = Some v -> v < 2 ^ 32 /\ text = ipv4_str v.
Proof. rewrite parse_v4_ok. destruct (ipv4_int text) eqn:H; [|done]. intros [= ->]. by apply ipv4_int_inv. Qed.

(** ** IPv6 *)

Lemma hextet_value_ok s : hextet_value s = ok (parse_hextet s).
Proof.
  unfold hextet_value, parse_hextet. destruct (forallb_s is_hexdigit s) eqn:Hh; cbn [negb]; [|by rewrite orb_true_r].
  rewrite char_len_ascii by (eapply forallb_s_impl; [apply hexdigit_ascii|exact Hh]). rewrite orb_false_r.
  destruct (str_empty s), (4 <? String.length s)%nat; try done. cbn [orb]. by destruct (digits_val 16 s).
Qed.
Lemma push_parts_ok text parts : forall value, push_parts parts value = ok (push_hextets text parts value).
Proof.
  induction parts as [|p rest IH]; intros value; [done|]. cbn [push_parts push_hextets]. rewrite ok_bind, ok_map_err, <-hextet_value_ok.
  destruct (hextet_value p); [|done]. apply IH.
Qed.
Lemma skipped_part_ok text parts : forall index skip, skipped_part index parts skip = ok (find_skip text index parts skip).
Proof.
  induction parts as [|p rest IH]; intros index skip; [done|]. cbn [skipped_part find_skip]. destruct (str_empty p); [|apply IH].
  destruct skip; [done|]. apply IH.
Qed.
Lemma part_layout_ok text parts skip : part_layout parts skip = ok (layout text parts skip).
Proof.
  unfold part_layout, layout, HEXTETS. cbv zeta. destruct skip as [skip|].
  - set (first := str_empty (default EmptyString (parts !! 0%nat))). set (final := str_empty (default EmptyString (parts !! (length parts - 1)%nat))).
    set (hi := if first then _ else _).
    assert ((negb (hi =? 0)%nat) = (0 <? hi)%nat) as -> by (by destruct hi). destruct (first && (0 <? hi)%nat); [done|].
    set (lo := if final then _ else _).
    assert ((negb (lo =? 0)%nat) = (0 <? lo)%nat) as -> by (by destruct lo). destruct (final && (0 <? lo)%nat); [done|].
    assert ((8 - (hi + lo) <? 1)%nat = (8 <=? hi + lo)%nat) as ->; [|by destruct (8 <=? hi + lo)%nat].
    destruct (Nat.ltb_spec (8 - (hi + lo)) 1), (Nat.leb_spec 8 (hi + lo)); try done; lia.
  - destruct (Nat.eqb_spec (length parts) 8) as [->|]; [|done]. cbn [negb orb Nat.sub].
    by destruct (str_empty (default EmptyString (parts !! 0%nat))), (str_empty (default EmptyString (parts !! 7%nat))).
Qed.
Lemma quad_part_ok text parts : quad_part parts = ok (expand_v4 text parts).
Proof.
  unfold quad_part, expand_v4. destruct (last parts) as [tail|]; [|done]. destruct (contains_s "." tail); [|done].
  rewrite parse_v4_ok. by destruct (ipv4_int tail).
Qed.

(** The router's reader of an IPv6 address is the installer's, but for the length it allows. *)
Lemma v6_int_ok text : v6_int text = if (45 <? char_len text)%nat then None else ok (ipv6_int text).
Proof.
  unfold v6_int, ipv6_int. destruct (str_empty text) eqn:He; [by destruct (45 <? _)%nat|]. cbn [orb].
  destruct (45 <? char_len text)%nat; [done|]. destruct (_ <? 3)%nat; [done|]. rewrite (quad_part_ok text), ok_bind.
  destruct (expand_v4 text (split_byte colon text)) as [parts|]; [|done]. cbn [ok mbind option_bind]. unfold read_hextets.
  change (HEXTETS + 1)%nat with 9%nat. destruct (9 <? length parts)%nat; [done|]. rewrite (skipped_part_ok text), ok_bind.
  destruct (find_skip _ _ _ _) as [skip|]; [|done]. cbn [ok mbind option_bind]. rewrite (part_layout_ok text), ok_bind.
  destruct (layout text parts skip) as [[[hi lo] skipped]|]; [|done]. cbn [ok mbind option_bind]. rewrite (push_parts_ok text), ok_bind.
  destruct (push_hextets text (take hi parts) 0) as [value|]; [|done]. cbn [ok mbind option_bind]. apply push_parts_ok.
Qed.

(** ** Writing *)

Lemma join_app sep l k : l <> [] -> k <> [] -> join sep (l ++ k) = join sep l +:+ sep +:+ join sep k.
Proof.
  induction l as [|s l IH]; intros Hl Hk; [done|]. destruct l as [|s' l].
  - destruct k; [done|]. cbn [app]. by rewrite join_cons2.
  - cbn [app] in *. rewrite !join_cons2, IH by done. by rewrite !app_assoc_s.
Qed.

Lemma compress_text (l : list string) begin n : length l = 8%nat -> (2 <= n)%nat -> (begin + n <= 8)%nat ->
  join ":" (compress l begin n) = join ":" (take begin l) +:+ "::" +:+ join ":" (drop (begin + n) l).
Proof.
  intros Hl Hn Hle. unfold compress. rewrite Hl.
  assert (Ht : join ":" ([EmptyString] ++ drop (begin + n) l ++ (if (begin + n =? 8)%nat then [EmptyString] else [])) = ":" +:+ join ":" (drop (begin + n) l)).
  { destruct (Nat.eqb_spec (begin + n) 8) as [Heq|Hne].
    - rewrite drop_ge by lia. done.
    - rewrite app_nil_r. destruct (drop (begin + n) l) as [|x k] eqn:E; [|done]. apply (f_equal length) in E. rewrite length_drop in E. simpl in E. lia. }
  destruct (Nat.eqb_spec begin 0) as [->|Hb].
  - cbn [app Nat.add] in *. change (take 0 l) with (@nil string). cbn [app]. rewrite join_cons2. by rewrite Ht.
  - cbn [app]. rewrite join_app.
    + change (EmptyString :: ?k) with ([EmptyString] ++ k). by rewrite Ht.
    + destruct l, begin; done.
    + done.
Qed.

Lemma hextets_text_eq v : hextets_text v = ipv6_str v.
Proof.
  unfold hextets_text, ipv6_str, ipv6_parts. cbv zeta.
  destruct (zero_run 0 (hextets v) None 0 None 0) as [[b|] n] eqn:Hrun; [|done]. destruct (Nat.ltb_spec 1 n) as [Hn|]; [|done].
  pose proof (zero_run_spec (hextets v) [] None 0 None 0 (Some b) n eq_refl eq_refl Hrun) as [Hz _]. cbn [app] in Hz.
  symmetry. apply compress_text; [done|lia|]. by change 8%nat with (length (hextets v)).
Qed.

(** ** The text of an address *)

Definition is_address_byte (a : Ascii.ascii) : bool := is_hexdigit a || Ascii.eqb a ":"%char || Ascii.eqb a "."%char.

Lemma forallb_s_join f sep l : forallb_s f sep = true -> Forall (fun s => forallb_s f s = true) l -> forallb_s f (join sep l) = true.
Proof.
  intros Hs. induction 1 as [|s l Hx Hl IH]; [done|]. destruct l as [|s' l]; [done|]. rewrite join_cons2, !forallb_s_app, Hx, Hs. exact IH.
Qed.

Lemma digit_address a : is_digit a = true -> is_address_byte a = true.
Proof. intros H. unfold is_address_byte, is_hexdigit. by rewrite H. Qed.
Lemma hex_address a : is_hexdigit a = true -> is_address_byte a = true.
Proof. intros H. unfold is_address_byte. by rewrite H. Qed.

Lemma quad_bytes v : forallb_s is_address_byte (ipv4_str v) = true.
Proof.
  apply forallb_s_join; [done|]. apply Forall_map, list.Forall_forall. intros b _. apply (forallb_s_impl is_digit); [apply digit_address|apply fmt_N_digits].
Qed.
Lemma hextets_hex v : Forall (fun s => forallb_s is_hexdigit s = true) (hextets v).
Proof. apply Forall_map, list.Forall_forall. intros i _. apply fmt_hex_digits. Qed.
Lemma ipv6_bytes v : forallb_s is_address_byte (ipv6_str v) = true.
Proof.
  apply forallb_s_join; [done|]. pose proof (hextets_hex v) as Hh.
  assert (Hp : Forall (fun s => forallb_s is_hexdigit s = true) (ipv6_parts (hextets v))).
  { unfold ipv6_parts. destruct (zero_run 0 (hextets v) None 0 None 0) as [[b|] n]; [|done]. destruct (1 <? n)%nat; [by apply parts_hex|done]. }
  eapply Forall_impl; [exact Hp|]. intros s. apply forallb_s_impl, hex_address.
Qed.

Definition v6_text (v : N) : string := if N.shiftr v 32 =? 0xffff then "::ffff:" +:+ ipv4_str (v mod 2 ^ 32) else hextets_text v.
Lemma v6_text_bytes v : forallb_s is_address_byte (v6_text v) = true.
Proof.
  unfold v6_text. destruct (_ =? _); [|rewrite hextets_text_eq; apply ipv6_bytes]. rewrite forallb_s_app, quad_bytes. done.
Qed.
Lemma address_byte_ascii a : is_address_byte a = true -> (Ascii.N_of_ascii a <? 192) = true.
Proof. unfold is_address_byte. intros [[H|H%Ascii.eqb_eq]%orb_prop|H%Ascii.eqb_eq]%orb_prop; [by apply hexdigit_ascii|by subst|by subst]. Qed.
Lemma v6_text_len v : char_len (v6_text v) = String.length (v6_text v).
Proof. apply char_len_ascii. eapply forallb_s_impl; [apply address_byte_ascii|apply v6_text_bytes]. Qed.

Lemma join_length sep l k : Forall (fun s => (String.length s <= k)%nat) l ->
  (String.length (join sep l) <= length l * (k + String.length sep))%nat.
Proof.
  induction 1 as [|s l Hs Hl IH]; [simpl; lia|]. destruct l as [|s' l]; [simpl in *; lia|]. rewrite join_cons2, !length_app_s. cbn [length] in *. lia.
Qed.
Lemma hextet_bound v i : hextet v i < 65536.
Proof. unfold hextet. change 0xffff with (N.ones 16). rewrite N.land_ones. by apply N.mod_lt. Qed.
Lemma fmt_hex_length h : h < 65536 -> (String.length (fmt_hex h) <= 4)%nat.
Proof.
  intros Hh. pose proof (radix_digits_length 16 (S (N.to_nat (N.log2 h))) ltac:(lia) 3 h EmptyString) as Hl.
  change (radix_digits _ 16 h EmptyString) with (fmt_hex h) in Hl. simpl in Hl.
  specialize (Hl ltac:(change (16 ^ 4) with 65536; exact Hh)). lia.
Qed.
Lemma hextets_length v : Forall (fun s => (String.length s <= 4)%nat) (hextets v).
Proof. apply Forall_map, list.Forall_forall. intros i _. apply fmt_hex_length, hextet_bound. Qed.

Lemma v6_text_short v : (String.length (v6_text v) <= 45)%nat.
Proof.
  unfold v6_text. destruct (_ =? _).
  - rewrite length_app_s. unfold ipv4_str. set (q := v mod 2 ^ 32).
    pose proof (join_length "." (map fmt_N (be_bytes q)) 3) as Hj. cbn [length map be_bytes] in Hj. simpl (String.length "::ffff:").
    assert (Hb : Forall (fun s => (String.length s <= 3)%nat) (map fmt_N (be_bytes q))); [|specialize (Hj Hb); simpl in Hj |- *; lia].
    apply Forall_map. assert (Hd : forall b, b < 256 -> (String.length (fmt_N b) <= 3)%nat).
    { intros b Hlt. apply Nat.leb_le. by apply (all_below_spec 256 (fun b => (String.length (fmt_N b) <=? 3)%nat) ltac:(vm_compute; reflexivity) b). }
    unfold be_bytes. repeat (apply list.Forall_cons_2; [apply Hd, N.mod_lt; lia|]). apply list.Forall_nil_2.
  - unfold hextets_text. cbv zeta. pose proof (hextets_length v) as Hl.
    assert (Hall : forall l, Forall (fun s => (String.length s <= 4)%nat) l -> (String.length (join ":" l) <= length l * 5)%nat) by (intros l H; by apply (join_length ":" l 4)).
    destruct (zero_run 0 (hextets v) None 0 None 0) as [[b|] n]; [|apply Hall in Hl; change (length (hextets v)) with 8%nat in Hl; lia].
    destruct (1 <? n)%nat; [|apply Hall in Hl; change (length (hextets v)) with 8%nat in Hl; lia]. rewrite !length_app_s.
    pose proof (Hall _ (Forall_take _ b _ Hl)) as H1. pose proof (Hall _ (Forall_drop _ (b + n) _ Hl)) as H2.
    rewrite length_take in H1. rewrite length_drop in H2. change (length (hextets v)) with 8%nat in *. change (String.length "::") with 2%nat. lia.
Qed.

Lemma v6_text_ne v : str_empty (v6_text v) = false.
Proof.
  unfold v6_text. destruct (_ =? _); [done|]. rewrite hextets_text_eq.
  destruct (ipv6_str v) as [|a s] eqn:E; [|done]. exfalso.
  assert (Hp : join ":" (ipv6_parts (hextets v)) = EmptyString) by exact E.
  assert (G : forall l, (2 <= length l)%nat -> join ":" l <> EmptyString).
  { intros [|x [|y l]] Hl; simpl in Hl; try lia. rewrite join_cons2. by destruct x. }
  apply (G (ipv6_parts (hextets v))); [|exact Hp]. unfold ipv6_parts. destruct (zero_run 0 (hextets v) None 0 None 0) as [[b|] n] eqn:Hr; [|change (length (hextets v)) with 8%nat; lia].
  destruct (Nat.ltb_spec 1 n) as [Hn|]; [|change (length (hextets v)) with 8%nat; lia].
  pose proof (zero_run_spec (hextets v) [] None 0 None 0 (Some b) n eq_refl eq_refl Hr) as [Hz _]. cbn [app] in Hz.
  assert (Hne : Forall (fun s => str_empty s = false) (hextets v)).
  { apply Forall_map, list.Forall_forall. intros i _. destruct (fmt_hex_cons (hextet v i)) as (c & t & Heq). by rewrite Heq. }
  pose proof (compress_layout EmptyString (hextets v) b n eq_refl Hne ltac:(lia) Hz) as (Hl & _). lia.
Qed.

(** The hextets of an IPv4-mapped address, once its dotted quad is read. *)
Lemma mapped_hextets h1 h2 : h1 < 65536 -> h2 < 65536 ->
  read_hextets [EmptyString; EmptyString; "ffff"; fmt_hex h1; fmt_hex h2] = Some ((0xffff * 65536 + h1) * 65536 + h2).
Proof.
  intros H1 H2. unfold read_hextets. cbn [length drop take Nat.sub Nat.ltb Nat.leb HEXTETS Nat.add].
  destruct (fmt_hex_cons h1) as (a & s & E1). destruct (fmt_hex_cons h2) as (b & t & E2).
  assert (Hs : skipped_part 1 [EmptyString; "ffff"; fmt_hex h1] None = Some (Some 1%nat)) by (by rewrite E1). rewrite Hs.
  cbn [mbind option_bind]. assert (Hl : part_layout [EmptyString; EmptyString; "ffff"; fmt_hex h1; fmt_hex h2] (Some 1%nat) = Some (0, 3, 5)%nat) by (by rewrite E2).
  rewrite Hl. cbn [mbind option_bind drop take push_parts Nat.ltb Nat.leb].
  assert (Hv : forall h, h < 65536 -> hextet_value (fmt_hex h) = Some h) by (intros h Hh; by rewrite hextet_value_ok, parse_fmt_hex).
  change (drop (5 - 3) ?l) with (drop 2 l). cbn [drop push_parts]. change (hextet_value "ffff") with (Some 0xffff). cbn [mbind option_bind].
  rewrite (Hv h1 H1). cbn [mbind option_bind]. rewrite (Hv h2 H2). cbn [mbind option_bind].
  change (N.lor (shl128 (shl128 0 (16 * N.of_nat 5)) 16) 0xffff) with 0xffff.
  rewrite (push_step 0xffff h1 2), (push_step _ h2 1); [done| |done| |done].
  - unfold room. change (65536 ^ N.of_nat 1) with 65536. change (2 ^ 128) with (2 ^ 80 * 65536 * 65536 * 65536). lia.
  - unfold room. vm_compute. discriminate.
Qed.

Lemma mapped_value v : N.shiftr v 32 = 0xffff ->
  (0xffff * 65536 + N.land (N.shiftr (v mod 2 ^ 32) 16) 0xffff) * 65536 + N.land (v mod 2 ^ 32) 0xffff = v.
Proof.
  intros Hm. change 0xffff with (N.ones 16) at 2 3. rewrite !N.land_ones, N.shiftr_div_pow2. rewrite N.shiftr_div_pow2 in Hm.
  change (2 ^ 32) with 4294967296 in *. change (2 ^ 16) with 65536 in *.
  pose proof (N.div_mod v 4294967296 ltac:(lia)) as H1. rewrite Hm in H1. set (q := v mod 4294967296) in *.
  assert (Hq : q < 4294967296) by (by apply N.mod_lt).
  pose proof (N.div_mod q 65536 ltac:(lia)) as H2. rewrite (N.mod_small (q / 65536)) by (apply N.Div0.div_lt_upper_bound; lia). lia.
Qed.

Lemma quad_no_colon v : split_byte colon (ipv4_str v) = [ipv4_str v].
Proof.
  apply (split_whole (fun a => is_digit a || Ascii.eqb a "."%char)); [|done]. apply forallb_s_join; [done|]. apply Forall_map, list.Forall_forall. intros b _.
  apply (forallb_s_impl is_digit); [|apply fmt_N_digits]. intros a H. by rewrite H.
Qed.
Lemma quad_has_dot v : contains_s "." (ipv4_str v) = true.
Proof.
  unfold ipv4_str, be_bytes. cbn [map]. rewrite join_cons2. change ("." +:+ ?x) with (String dot x).
  change (contains_s ".") with (contains_s (String dot EmptyString)). rewrite contains_byte_app. simpl.
  assert (Hp : forall x, String.prefix EmptyString x = true) by (by intros []). rewrite Hp. apply orb_true_r.
Qed.

Lemma v6_int_text v : v < 2 ^ 128 -> v6_int (v6_text v) = Some v.
Proof.
  intros Hv. pose proof (v6_text_short v) as Hshort. unfold v6_text in *. destruct (N.eqb_spec (N.shiftr v 32) 0xffff) as [Hm|_].
  - unfold v6_int. rewrite length_app_s in Hshort. change ("::ffff:" +:+ ?x) with (String colon (String colon ("ffff" +:+ String colon x))).
    assert (Hn : (45 <? char_len (String colon (String colon ("ffff" +:+ String colon (ipv4_str (v mod 2 ^ 32))))))%nat = false).
    { apply Nat.ltb_ge. rewrite char_len_ascii; [exact Hshort|]. eapply forallb_s_impl; [apply address_byte_ascii|]. exact (quad_bytes _). }
    rewrite Hn. cbn [str_empty orb]. change (split_byte colon (String colon (String colon ?x))) with (EmptyString :: EmptyString :: split_byte colon x).
    rewrite split_app, quad_no_colon. change (split_byte colon "ffff") with ["ffff"]. cbn [app length Nat.ltb Nat.leb]. unfold quad_part. cbn [last].
    rewrite quad_has_dot, parse_v4_str by (by apply N.mod_lt). cbn [mbind option_bind removelast app].
    rewrite mapped_hextets; [by rewrite mapped_value| |]; change 0xffff with (N.ones 16); rewrite N.land_ones; by apply N.mod_lt.
  - rewrite v6_int_ok. rewrite hextets_text_eq in *. rewrite (proj2 (Nat.ltb_ge _ _)); [by rewrite ipv6_int_str|].
    rewrite char_len_ascii; [done|]. eapply forallb_s_impl; [apply address_byte_ascii|apply ipv6_bytes].
Qed.

(** ** Networks *)

Lemma mask_bound bits p : p <= bits -> prefix_mask bits p < 2 ^ bits.
Proof.
  intros Hp. unfold prefix_mask. destruct (N.eqb_spec p 0) as [->|Hn]; [apply N.neq_0_lt_0, N.pow_nonzero; lia|].
  rewrite N.shiftl_mul_pow2, N.ones_equiv. replace (2 ^ bits) with (2 ^ p * 2 ^ (bits - p)) by (rewrite <-N.pow_add_r; f_equal; lia).
  apply N.mul_lt_mono_pos_r; [apply N.neq_0_lt_0, N.pow_nonzero; lia|]. apply N.lt_pred_l, N.pow_nonzero. lia.
Qed.
Lemma land_bound a m bits : m < 2 ^ bits -> N.land a m < 2 ^ bits.
Proof.
  intros Hm. rewrite <-(N.mod_small m (2 ^ bits)) by done. rewrite <-N.land_ones, N.land_assoc, N.land_ones. apply N.mod_lt, N.pow_nonzero. lia.
Qed.
Lemma land_again a m : N.land (N.land a m) m = N.land a m.
Proof. by rewrite <-N.land_assoc, N.land_diag. Qed.

Lemma prefix_text p max : p <= max -> max <= 128 -> prefix_from_string (fmt_N p) max = Some p.
Proof.
  intros Hp Hm. assert (Hz : (0 <= Z.of_N p <= 128)%Z) by lia. unfold prefix_from_string. rewrite fmt_N_digits. destruct (fmt_N_cons p) as (a & s & Heq & _). rewrite Heq at 1. cbn [str_empty negb orb].
  assert (parse_u64 (fmt_N p) = Some (Z.of_N p)) as ->.
  { pose proof (parse_int_fmt 0 u64_max (Z.of_N p)) as H. replace (fmt_Z (Z.of_N p)) with (fmt_N p) in H by (unfold fmt_Z; by destruct p).
    apply H. destruct Hz as [Hz1 Hz2]. split; [exact Hz1|]. etransitivity; [exact Hz2|]. vm_compute. discriminate. }
  cbn [mbind option_bind]. rewrite N2Z.id. by rewrite (proj2 (N.leb_le _ _)).
Qed.
Lemma prefix_bound text max p : prefix_from_string text max = Some p -> p <= max.
Proof.
  unfold prefix_from_string. destruct (_ || _); [done|]. destruct (match parse_u64 text with Some _ => _ | None => _ end) as [v|]; [|done].
  cbn [mbind option_bind]. destruct (N.leb_spec v max); [|done]. by intros [= <-].
Qed.
Lemma v4_int_bound v p : prefix_from_v4_int v = Some p -> p <= 32.
Proof.
  unfold prefix_from_v4_int. generalize (if v =? 0 then 32 else trailing_zeros 32 v) as t. intros t. cbv zeta.
  destruct (_ =? N.ones _); [|done]. intros H. apply (inj Some) in H as <-. apply N.le_sub_l.
Qed.
Lemma v4_netmask_bound text p : v4_netmask text = Some p -> p <= 32.
Proof.
  unfold v4_netmask. destruct (prefix_from_string text 32) as [q|] eqn:H; [intros [= <-]; by apply prefix_bound in H|].
  destruct (parse_v4 text) as [v|]; [|done]. cbn [mbind option_bind].
  destruct (prefix_from_v4_int v) eqn:E; [intros [= <-]; by apply v4_int_bound in E|apply v4_int_bound].
Qed.

(** A scope: no percent sign, no slash, not empty. *)
Definition scope_ok (scope : option string) : Prop :=
  match scope with Some s => str_empty s = false /\ contains_s "%" s = false /\ contains_s "/" s = false | None => True end.

(** The text of a network is one of these. *)
Inductive network_text : string -> Prop :=
| text_v4 v p : p <= 32 -> N.land v (prefix_mask 32 p) = v -> network_text (ipv4_str v +:+ "/" +:+ fmt_N p)
| text_v6 v scope p : p <= 128 -> N.land v (prefix_mask 128 p) = v -> scope_ok scope -> network_text (format_v6 v scope +:+ "/" +:+ fmt_N p).

Lemma contains_single b s : split_byte b s = [s] -> contains_s (String b EmptyString) s = false.
Proof.
  intros H. destruct (contains_s (String b EmptyString) s) eqn:E; [|done]. exfalso.
  assert (G : forall s, contains_s (String b EmptyString) s = true -> (2 <= length (split_byte b s))%nat).
  { clear. induction s as [|a s IH]; [done|]. intros H. cbn [split_byte]. destruct (Ascii.eqb a b) eqn:Ea.
    - pose proof (split_ne b s). destruct (split_byte b s); [done|]. simpl. lia.
    - assert (Hs : contains_s (String b EmptyString) s = true).
      { cbn [contains_s] in H. apply orb_prop in H as [H|H]; [|done]. cbn [String.prefix] in H.
        destruct (Ascii.ascii_dec b a) as [->|]; [by rewrite Ascii.eqb_refl in Ea|done]. }
      specialize (IH Hs). destruct (split_byte b s); simpl in *; lia. }
  apply G in E. rewrite H in E. simpl in E. lia.
Qed.
Lemma split_parts_plain b s part : part ∈ split_byte b s -> contains_s (String b EmptyString) part = false.
Proof. intros Hin. pose proof (split_parts b s) as H. rewrite list.Forall_forall in H. by apply contains_single, H. Qed.

Lemma split_once_parts b s x y : split_once b s = Some (x, y) -> s = x +:+ String b y.
Proof.
  revert x y. induction s as [|a s IH]; intros x y; [done|]. cbn [split_once]. destruct (Ascii.eqb a b) eqn:Ha.
  - intros [= <- <-]. by apply Ascii.eqb_eq in Ha as ->.
  - destruct (split_once b s) as [[x' y']|]; [|done]. intros [= <- <-]. by rewrite (IH x' y').
Qed.

Lemma contains_substring b x y : contains_s (String b EmptyString) (x +:+ String b y) = true.
Proof.
  rewrite contains_byte_app. assert (contains_s (String b EmptyString) (String b y) = true) as ->; [|apply orb_true_r].
  cbn [contains_s String.prefix]. destruct (Ascii.ascii_dec b b); [|done]. by assert (String.prefix EmptyString y = true) as -> by (by destruct y).
Qed.
Lemma split_once_scope text x y : split_once "%"%char text = Some (x, y) -> contains_s "/" text = false -> contains_s "/" y = false.
Proof.
  intros ->%split_once_parts H. change (contains_s "/") with (contains_s (String "/"%char EmptyString)) in *.
  change (x +:+ String "%" y) with (x +:+ ("%" +:+ y)) in H. rewrite !contains_byte_app in H.
  by apply orb_false_iff in H as [_ H]; apply orb_false_iff in H as [_ H].
Qed.

Lemma network_is_text text net : network text = Some net -> network_text net.
Proof.
  unfold network. destruct (split_byte "/"%char text) as [|address rest] eqn:Hs; [done|]. destruct (1 <? length rest)%nat; [done|].
  assert (Hplain : contains_s "/" address = false).
  { apply (split_parts_plain "/"%char text). rewrite Hs. by left. }
  destruct (parse_v4 address) as [ip|]; cbn [mbind option_bind].
  1: destruct (match head rest with Some mask => v4_netmask mask | None => Some 32 end) as [p|] eqn:Hp; cbn [mbind option_bind].
  1: { intros [= <-]. apply text_v4; [|apply land_again]. destruct (head rest) as [mask|]; [by apply v4_netmask_bound in Hp|]. injection Hp as <-. done. }
  all: destruct (parse_v6 address) as [[ip' scope]|] eqn:H6; [|done]; cbn [mbind option_bind].
  all: destruct (match head rest with Some mask => prefix_from_string mask 128 | None => Some 128 end) as [p'|] eqn:Hp'; [|done]; cbn [mbind option_bind].
  all: intros H; apply (inj Some) in H as <-; apply text_v6; [|apply land_again|].
  1, 3: destruct (head rest) as [mask|]; [by apply prefix_bound in Hp'|]; injection Hp' as <-; done.
  all: destruct (_ =? ip'); [|done]; unfold parse_v6 in H6; destruct (split_once "%"%char address) as [[a s]|] eqn:Ho; cbn [mbind option_bind] in H6.
  2, 4: destruct (contains_s "/" address); [done|]; destruct (v6_int address); [|done]; by simplify_eq/=.
  all: destruct (str_empty s || contains_s "%" s) eqn:Hsc; [done|]; cbn [mbind option_bind] in H6; destruct (contains_s "/" a); [done|];
    destruct (v6_int a); [|done]; simplify_eq/=; apply orb_false_iff in Hsc as [H1 H2]; by eauto using split_once_scope.
Qed.

Lemma bytes_no f b s : forallb_s f s = true -> f b = false -> forallb_s (fun a => negb (Ascii.eqb a b)) s = true.
Proof.
  intros H Hb. eapply forallb_s_impl; [|exact H]. intros a Ha. destruct (Ascii.eqb a b) eqn:E; [|done]. apply Ascii.eqb_eq in E as ->. congruence.
Qed.

Lemma parse_v6_text v scope : v < 2 ^ 128 -> scope_ok scope -> parse_v6 (format_v6 v scope) = Some (v, scope).
Proof.
  intros Hv Hs. change (format_v6 v scope) with (v6_text v +:+ match scope with Some scope => "%" +:+ scope | None => EmptyString end).
  pose proof (v6_text_bytes v) as Hb. assert (Hslash : contains_s "/" (v6_text v) = false) by by apply (contains_none is_address_byte).
  unfold parse_v6. destruct scope as [s|].
  - destruct Hs as (H1 & H2 & _). change ("%" +:+ s) with (String "%"%char s). rewrite split_once_at by by apply (bytes_no is_address_byte).
    rewrite H1, H2. cbn [orb mbind option_bind]. by rewrite Hslash, v6_int_text.
  - rewrite app_nil_r_s, split_once_none by by apply (contains_none is_address_byte). cbn [mbind option_bind]. by rewrite Hslash, v6_int_text.
Qed.

Lemma v6_text_colon v : contains_s ":" (v6_text v) = true.
Proof.
  unfold v6_text. destruct (_ =? _); [reflexivity|]. rewrite hextets_text_eq. unfold ipv6_str.
  assert (G : forall l, (2 <= length l)%nat -> contains_s ":" (join ":" l) = true).
  { intros [|x [|y l]] Hl; simpl in Hl; try lia. rewrite join_cons2. apply (contains_substring ":"%char x). }
  apply G. unfold ipv6_parts. destruct (zero_run 0 (hextets v) None 0 None 0) as [[b|] n] eqn:Hr; [|change (length (hextets v)) with 8%nat; lia].
  destruct (Nat.ltb_spec 1 n) as [Hn|]; [|change (length (hextets v)) with 8%nat; lia].
  pose proof (zero_run_spec (hextets v) [] None 0 None 0 (Some b) n eq_refl eq_refl Hr) as [Hz _]. cbn [app] in Hz.
  assert (Hne : Forall (fun s => str_empty s = false) (hextets v)).
  { apply Forall_map, list.Forall_forall. intros i _. destruct (fmt_hex_cons (hextet v i)) as (c & t & Heq). by rewrite Heq. }
  pose proof (compress_layout EmptyString (hextets v) b n eq_refl Hne ltac:(lia) Hz) as (Hl & _). lia.
Qed.

Lemma v4_not_v6 v scope : parse_v4 (format_v6 v scope) = None.
Proof.
  destruct (parse_v4 (format_v6 v scope)) as [q|] eqn:H; [|done]. apply router_v4_inv in H as [_ H].
  assert (Hc : contains_s ":" (format_v6 v scope) = true).
  { change (format_v6 v scope) with (v6_text v +:+ match scope with Some scope => "%" +:+ scope | None => EmptyString end).
    change (contains_s ":") with (contains_s (String colon EmptyString)). rewrite contains_byte_app. pose proof (v6_text_colon v) as G. change (contains_s (String colon EmptyString) (v6_text v) = true) in G. by rewrite G. }
  rewrite H in Hc. pose proof (quad_no_colon q) as Hq. apply contains_single in Hq. unfold colon in Hq. congruence.
Qed.

Lemma split_net a p : contains_s "/" a = false -> split_byte "/"%char (a +:+ "/" +:+ fmt_N p) = [a; fmt_N p].
Proof.
  intros Ha. change ("/" +:+ fmt_N p) with (String "/"%char (fmt_N p)). rewrite split_app, split_fmt_N by done.
  assert (split_byte "/"%char a = [a]) as ->; [|done].
  apply (split_whole (fun x => negb (Ascii.eqb x "/"%char))); [|done].
  clear -Ha. induction a as [|x a IH]; [done|]. cbn [contains_s forallb_s] in *. apply orb_false_iff in Ha as [H1 H2]. rewrite IH by done.
  cbn [String.prefix] in H1. rewrite andb_true_r. destruct (Ascii.eqb x "/"%char) eqn:E; [|done]. apply Ascii.eqb_eq in E as ->.
  simpl in H1. by destruct a.
Qed.

Lemma network_reads net : network_text net -> network net = Some net.
Proof.
  intros [v p Hp Hv|v scope p Hp Hv Hs]; unfold network.
  - assert (Hb : v < 2 ^ 32) by (rewrite <-Hv; by apply land_bound, mask_bound).
    rewrite split_net by (apply (contains_none is_address_byte); [apply quad_bytes|done]). cbn [length Nat.ltb Nat.leb head].
    rewrite parse_v4_str by done. cbn [mbind option_bind]. unfold v4_netmask. rewrite prefix_text by done. cbn [mbind option_bind]. by rewrite Hv.
  - assert (Hb : v < 2 ^ 128) by (rewrite <-Hv; by apply land_bound, mask_bound).
    assert (Hslash : contains_s "/" (format_v6 v scope) = false).
    { change (format_v6 v scope) with (v6_text v +:+ match scope with Some scope => "%" +:+ scope | None => EmptyString end).
      change (contains_s "/") with (contains_s (String "/"%char EmptyString)). rewrite contains_byte_app.
      rewrite (contains_none is_address_byte) by (apply v6_text_bytes || done). destruct scope as [s|]; [|done].
      destruct Hs as (_ & _ & H3). change ("%" +:+ s) with (String "%" EmptyString +:+ s). by rewrite contains_byte_app, H3. }
    rewrite split_net by done. cbn [length Nat.ltb Nat.leb head]. rewrite v4_not_v6. cbn [mbind option_bind].
    rewrite parse_v6_text by done. cbn [mbind option_bind]. rewrite prefix_text by done. cbn [mbind option_bind]. by rewrite Hv, N.eqb_refl.
Qed.

(** The text of a network is its normal form. *)
Lemma network_stable text net : network text = Some net -> network net = Some net.
Proof. intros H. by eapply network_reads, network_is_text. Qed.

(** ** The installer's reader and the router's *)

Lemma chars_short s : (char_len s <= String.length s)%nat.
Proof.
  unfold char_len. assert (G : forall n s, (String.length s <= n)%nat -> (length (chars s) <= String.length s)%nat); [|by apply (G (String.length s))].
  clear. induction n as [|n IH]; intros s Hs; [by destruct s; simpl in *; [|lia]|]. destruct s as [|a s]; [done|]. cbn [chars]. cbv zeta. simpl in Hs.
  destruct (_ <? 192); [cbn [length String.length]; specialize (IH s); lia|]. destruct s as [|a1 s]; [simpl; lia|]. simpl in Hs.
  destruct (_ <? 224); [cbn [length String.length]; specialize (IH s); lia|]. destruct s as [|a2 s]; [simpl; lia|]. simpl in Hs.
  destruct (_ <? 240); [cbn [length String.length]; specialize (IH s); lia|]. destruct s as [|a3 s]; [simpl; lia|]. simpl in Hs.
  cbn [length String.length]. specialize (IH s). lia.
Qed.

Lemma slash_prefix x y : contains_s "/" (x +:+ String "%"%char y) = false -> contains_s "/" x = false.
Proof. change (contains_s "/") with (contains_s (String "/"%char EmptyString)). rewrite contains_byte_app. by intros [H _]%orb_false_iff. Qed.

Lemma is_some_ok {E A} (r : result E A) : bool_decide (is_Some (ok r)) = is_ok r.
Proof. destruct r; [by rewrite bool_decide_eq_true_2|]. apply bool_decide_eq_false_2. by intros [x Hx]. Qed.

Lemma parse_v6_agrees text : contains_s "/" text = false -> (String.length text <= 45)%nat ->
  bool_decide (is_Some (parse_v6 text)) = is_ok (ipv6_address text).
Proof.
  intros Hs Hl. unfold parse_v6, ipv6_address. rewrite Hs. destruct (split_once "%"%char text) as [[a s]|] eqn:Ho.
  - apply split_once_parts in Ho as ->. rewrite length_app_s in Hl. destruct (str_empty s || contains_s "%" s); [done|]. cbn [mbind option_bind result_bind].
    rewrite (slash_prefix a s Hs), v6_int_ok, (proj2 (Nat.ltb_ge _ _)) by (pose proof (chars_short a); lia).
    destruct (ipv6_int a); [|done]. cbn [ok mbind option_bind result_bind]. by rewrite bool_decide_eq_true_2.
  - cbn [mbind option_bind result_bind]. rewrite Hs, v6_int_ok, (proj2 (Nat.ltb_ge _ _)) by (pose proof (chars_short text); lia).
    destruct (ipv6_int text); [|done]. cbn [ok mbind option_bind result_bind]. by rewrite bool_decide_eq_true_2.
Qed.

(** The router's manager and the installer take the same texts for addresses, although each ports
    the reader on its own: of the texts without a slash, of up to 45 bytes. *)
Theorem addresses_agree text (Hslash : contains_s "/" text = false) (Hlength : (String.length text <= 45)%nat) :
  is_ip_address text = is_ok (ip_address text).
Proof.
  unfold is_ip_address. rewrite Hslash, parse_v4_ok, is_some_ok, parse_v6_agrees by done. cbn [negb andb]. unfold ip_address, ipv4_address. rewrite Hslash.
  destruct (ipv4_int text); [done|]. cbn [is_ok orb fmap result_fmap]. by destruct (ipv6_address text).
Qed.

Lemma addresses_agree_witness : is_ip_address "fe80::1%eth0" = true /\ is_ip_address "1.2.3" = is_ok (ip_address "1.2.3").
Proof.
  split; [rewrite (addresses_agree "fe80::1%eth0"); [vm_compute; reflexivity|vm_compute; reflexivity|simpl; lia]|].
  apply (addresses_agree "1.2.3"); [vm_compute; reflexivity|simpl; lia].
Defined.

(** A slash in a scope is taken by the router's reader, which looks for it before the percent sign only; by
    the panel's and the installer's, which look at the whole text as CPython does, it is not. *)
Lemma slash_in_scope : is_ip_address "fe80::1%a/b" = true /\ py_ip_address "fe80::1%a/b" = None /\ is_ok (ip_address "fe80::1%a/b") = false.
Proof. vm_compute. done. Qed.
