(* ===== verification/RouterNormal.v ===== *)
(** * The normal form of an intent

    What the validator gives it takes again, unchanged: its selectors, rules, lanes, hops and exits are
    fixed points of their readers. *)

From S2P Require Import Prelude BTree Utf8 Numeric Json PyText TextFacts Plan IpAddr IpAddrFacts IndexMap PyIp.
From S2P Require Import RouterIp RouterIntent RouterFacts RouterIpFacts.

(** ** Distinct values *)

Fixpoint fresh_from (seen l : list Value) : Prop :=
  match l with [] => True | x :: rest => existsb (value_eqb x) seen = false /\ fresh_from (seen ++ [x]) rest end.

Lemma unique_from items : forall seen, exists k,
  fold_left (fun seen item => if existsb (value_eqb item) seen then seen else seen ++ [item]) items seen = seen ++ k
  /\ fresh_from seen k /\ Forall (fun x => x ∈ items) k /\ (length k <= length items)%nat.
Proof.
  induction items as [|x items IH]; intros seen; cbn [fold_left].
  - exists []. rewrite app_nil_r. by repeat split; constructor.
  - destruct (existsb (value_eqb x) seen) eqn:Hx.
    + destruct (IH seen) as (k & H1 & H2 & H3 & H4). exists k. split; [done|]. split; [done|]. split; [|simpl; lia].
      eapply Forall_impl; [exact H3|]. intros y Hy. by right.
    + destruct (IH (seen ++ [x])) as (k & H1 & H2 & H3 & H4). exists (x :: k). rewrite H1, <-app_assoc. split; [done|]. split; [done|].
      split; [|simpl; lia]. apply list.Forall_cons_2; [by left|]. eapply Forall_impl; [exact H3|]. intros y Hy. by right.
Qed.
Lemma fresh_kept l : forall seen, fresh_from seen l ->
  fold_left (fun seen item => if existsb (value_eqb item) seen then seen else seen ++ [item]) l seen = seen ++ l.
Proof.
  induction l as [|x l IH]; intros seen; cbn [fold_left fresh_from]; [by rewrite app_nil_r|]. intros [-> Hl]. by rewrite IH, <-app_assoc.
Qed.

Lemma unique_spec items : unique (unique items) = unique items /\ Forall (fun x => x ∈ items) (unique items)
  /\ (length (unique items) <= length items)%nat.
Proof.
  destruct (unique_from items []) as (k & H1 & H2 & H3 & H4). unfold unique. rewrite !H1. cbn [app]. by rewrite fresh_kept.
Qed.

(** ** Selectors *)

(** A reader whose results it reads as themselves. *)
Definition stable (convert : Value -> Checked Value) (w : Value) : Prop := convert w = Ok w.

Lemma converted_stable convert limit l : converted convert limit l ->
  (forall v w, convert v = Ok w -> w ∈ l -> stable convert w) -> (length l <= limit)%nat /\ unique <$> mapM convert l = Ok l.
Proof.
  intros (source & Hl & H) Hs. destruct (mapM convert source) as [out|] eqn:Hm; [|done]. injection H as <-.
  pose proof (proj1 (mapM_Ok_iff _ _ _) Hm) as Hlen%Forall2_length. destruct (unique_spec out) as (Hu & Hin & Hle). split; [lia|].
  assert (mapM convert (unique out) = Ok (unique out)) as ->; [|by f_equal/=].
  apply mapM_Ok_iff, Forall_Forall2_diag, list.Forall_forall. intros w Hw. rewrite list.Forall_forall in Hin. apply mapM_Ok_iff in Hm.
  destruct (proj1 (list_elem_of_lookup _ _) (Hin w Hw)) as (i & Hi). destruct (Forall2_lookup_r _ _ _ _ _ Hm Hi) as (v & _ & Hv). by eapply Hs.
Qed.

Lemma selectors_stable rule key convert limit l : bget key rule = Some (Array l) -> converted convert limit l ->
  (forall v w, convert v = Ok w -> w ∈ l -> stable convert w) -> selectors rule key convert limit = Ok l.
Proof.
  intros Hk Hc Hs. destruct (converted_stable _ _ _ Hc Hs) as [Hl Hu]. unfold selectors. rewrite Hk. apply Nat.leb_le in Hl. by rewrite Hl.
Qed.

Lemma geo_code_stable kind v w : geo_code kind v = Ok w -> stable (geo_code kind) w.
Proof.
  unfold geo_code, stable. destruct (as_str v) as [t|] eqn:Hv; [|done]. destruct (is_geo_code t) eqn:Hg; [|done].
  destruct ((kind =?s "geoip") && (t =?s "private")) eqn:Hp; [done|]. intros [= <-]. by rewrite Hv, Hg, Hp.
Qed.
Lemma protocol_stable v w : protocol_name v = Ok w -> stable protocol_name w.
Proof. unfold protocol_name, stable. destruct (is_in (Some v) SNIFFED_PROTOCOLS) eqn:H; [|done]. intros [= <-]. by rewrite H. Qed.

(** *** Ports *)

Lemma port_number_stable z w : port_number z = Ok w -> w = json_int z /\ (1 <= z <= 65535)%Z.
Proof. unfold port_number. destruct (_ && _) eqn:H; [|done]. intros [= <-]. apply andb_prop in H as [?%Z.leb_le ?%Z.leb_le]. done. Qed.

Lemma digits_value p : (p <= 65535)%N -> parse_u32 (fmt_N p) = Some (Z.of_N p) /\ (String.length (fmt_N p) <= 5)%nat.
Proof.
  intros Hp. assert (Hz : (0 <= Z.of_N p <= 65535)%Z) by lia. split.
  - pose proof (parse_int_fmt 0 (2 ^ 32 - 1) (Z.of_N p)) as H. replace (fmt_Z (Z.of_N p)) with (fmt_N p) in H by (unfold fmt_Z; by destruct p).
    apply H. destruct Hz as [Hz1 Hz2]. split; [exact Hz1|]. etransitivity; [exact Hz2|]. vm_compute. discriminate.
  - pose proof (radix_digits_length 10 (S (N.to_nat (N.log2 p))) ltac:(lia) 4 p EmptyString) as Hl.
    change (radix_digits _ 10 p EmptyString) with (fmt_N p) in Hl. change (String.length EmptyString) with 0%nat in Hl.
    specialize (Hl ltac:(change (10 ^ N.of_nat 5)%N with 100000%N; lia)). lia.
Qed.

(** *** Characters of texts *)

Definition is_ascii (a : Ascii.ascii) : bool := (Ascii.N_of_ascii a <? 128)%N.

Lemma chars_ascii_cons a s : is_ascii a = true -> chars (String a s) = Ascii.N_of_ascii a :: chars s.
Proof. unfold is_ascii. intros H%N.ltb_lt. cbn [chars]. by rewrite (proj2 (N.ltb_lt _ 192)) by lia. Qed.
Lemma chars_ascii_forallb p s : forallb_s is_ascii s = true -> forallb p (chars s) = forallb_s (fun a => p (Ascii.N_of_ascii a)) s.
Proof.
  induction s as [|a s IH]; [done|]. cbn [forallb_s]. intros [Ha Hs]%andb_prop. rewrite chars_ascii_cons by done. cbn [forallb]. by rewrite IH.
Qed.
Lemma chars_ascii_length s : forallb_s is_ascii s = true -> char_len s = String.length s.
Proof. intros H. apply char_len_ascii. eapply forallb_s_impl; [|exact H]. intros a Ha%N.ltb_lt. apply N.ltb_lt. lia. Qed.
Lemma utf8_ascii s : forallb_s is_ascii s = true -> utf8 s = true.
Proof.
  intros H. unfold utf8. apply andb_true_intro. split.
  - rewrite chars_ascii_forallb by done. eapply forallb_s_impl; [|exact H]. intros a Ha%N.ltb_lt. unfold scalar. apply orb_true_iff. left. apply N.ltb_lt. lia.
  - apply eqb_s_true. induction s as [|a s IH]; [done|]. cbn [forallb_s] in H. apply andb_prop in H as [Ha Hs]. rewrite chars_ascii_cons by done.
    cbn [of_chars]. unfold is_ascii in Ha. apply N.ltb_lt in Ha. by rewrite encode_ascii, IH.
Qed.

(** A text whose first and last characters are no spaces is its own [strip]. *)
Lemma drop_while_head p (l : list char) : match head l with Some c => p c = false | None => True end -> drop_while p l = l.
Proof. destruct l as [|c l]; [done|]. cbn. by intros ->. Qed.
Lemma strip_edges s : utf8 s = true -> match head (chars s) with Some c => is_space c = false | None => True end ->
  match last (chars s) with Some c => is_space c = false | None => True end -> strip s = s.
Proof.
  intros Hu Hh Hl. unfold strip, trim_matches. rewrite (drop_while_head _ _ Hh), drop_while_head, rev_involutive; [by apply utf8_chars|].
  destruct (chars s) as [|c l _] using rev_ind; [done|]. rewrite rev_app_distr. rewrite last_snoc in Hl. exact Hl.
Qed.

Lemma last_byte_app a s : last_byte (a +:+ s) = match last_byte s with Some b => Some b | None => last_byte a end.
Proof.
  induction a as [|x a IH]; [rewrite app_nil_s; by destruct (last_byte s)|]. rewrite app_cons_s. cbn [last_byte].
  destruct (a +:+ s) as [|y t] eqn:E.
  - destruct a; [|done]. rewrite app_nil_s in E. by subst.
  - rewrite IH. destruct (last_byte s) as [b|] eqn:Es; [done|]. destruct a; [|done]. rewrite app_nil_s in E. subst s.
    exfalso. clear -Es. revert y Es. induction t as [|z t IH]; intros y; [done|]. cbn [last_byte]. apply IH.
Qed.
Lemma last_byte_encode c : scalar c = true -> exists b, last_byte (encode_char c) = Some b
  /\ if (c <? 128)%N then Ascii.N_of_ascii b = c else (128 <= Ascii.N_of_ascii b)%N.
Proof.
  intros Hc. unfold encode_char. destruct (c <? 128)%N eqn:E.
  - exists (byte c). split; [done|]. apply N_byte. apply N.ltb_lt in E. lia.
  - exists (byte (128 + c mod 64)). assert (Hm : (c mod 64 < 64)%N) by (apply N.mod_lt; lia). rewrite N_byte by lia. split; [|lia].
    destruct (c <? 2048)%N; [done|]. by destruct (c <? 65536)%N.
Qed.
Lemma last_char s b : utf8 s = true -> last_byte s = Some b -> is_ascii b = true -> last (chars s) = Some (Ascii.N_of_ascii b).
Proof.
  unfold utf8. intros [Hs Hu]%andb_prop Hb Ha. apply eqb_s_true in Hu. rewrite <-Hu in Hb.
  destruct (chars s) as [|c l _] using rev_ind; [done|]. rewrite last_snoc. rewrite forallb_app in Hs. apply andb_prop in Hs as [_ Hs].
  cbn [forallb] in Hs. rewrite andb_true_r in Hs. rewrite of_chars_app in Hb. cbn [of_chars] in Hb. rewrite app_nil_r_s, last_byte_app in Hb.
  destruct (last_byte_encode c Hs) as (b' & H1 & H2). rewrite H1 in Hb. injection Hb as ->. unfold is_ascii in Ha. apply N.ltb_lt in Ha.
  destruct (c <? 128)%N; [by rewrite H2|lia].
Qed.
Lemma first_char s a : first_byte s = Some a -> is_ascii a = true -> head (chars s) = Some (Ascii.N_of_ascii a).
Proof. destruct s as [|x s]; [done|]. cbn [first_byte]. intros [= ->] H. by rewrite chars_ascii_cons. Qed.

Lemma strip_bytes s a b : utf8 s = true -> first_byte s = Some a -> is_ascii a = true -> is_space (Ascii.N_of_ascii a) = false ->
  last_byte s = Some b -> is_ascii b = true -> is_space (Ascii.N_of_ascii b) = false -> strip s = s.
Proof.
  intros Hu Ha H1 H2 Hb H3 H4. apply strip_edges; [done| |]; [by rewrite (first_char s a Ha H1)|by rewrite (last_char s b Hu Hb H3)].
Qed.

Lemma first_byte_app a s : a <> EmptyString -> first_byte (a +:+ s) = first_byte a.
Proof. by destruct a. Qed.
Lemma fmt_N_first n : exists a, first_byte (fmt_N n) = Some a /\ is_digit a = true.
Proof. destruct (fmt_N_cons n) as (a & s & -> & Ha). by exists a. Qed.
Lemma last_byte_all f s : forallb_s f s = true -> s <> EmptyString -> exists b, last_byte s = Some b /\ f b = true.
Proof.
  induction s as [|a s IH]; [done|]. cbn [forallb_s last_byte]. intros [Ha Hs]%andb_prop _. destruct s as [|b s]; [by exists a|]. by apply IH.
Qed.
Lemma fmt_N_last n : exists b, last_byte (fmt_N n) = Some b /\ is_digit b = true.
Proof. apply last_byte_all; [apply fmt_N_digits|]. destruct (fmt_N_cons n) as (a & s & -> & _). done. Qed.

Lemma digit_ascii a : is_digit a = true -> is_ascii a = true /\ is_space (Ascii.N_of_ascii a) = false.
Proof.
  intros (d & Hd & ->)%is_digit_inv.
  by apply (all_below_spec 10 (fun d => is_ascii (digit d) && negb (is_space (Ascii.N_of_ascii (digit d)))) ltac:(vm_compute; reflexivity)) in Hd
    as [H1 H2%negb_true_iff]%andb_prop.
Qed.
Lemma digits_ascii s : forallb_s is_digit s = true -> forallb_s is_ascii s = true.
Proof. apply forallb_s_impl. intros a Ha. by apply digit_ascii. Qed.

(** *** Ports, read again *)

Definition port_byte (a : Ascii.ascii) : bool := is_digit a || Ascii.eqb a "-"%char.

Lemma range_text low high : forallb_s port_byte (fmt_N low +:+ "-" +:+ fmt_N high) = true.
Proof.
  rewrite !forallb_s_app. assert (G : forall n, forallb_s port_byte (fmt_N n) = true).
  { intros n. eapply forallb_s_impl; [|apply fmt_N_digits]. intros a Ha. unfold port_byte. by rewrite Ha. }
  by rewrite !G.
Qed.
Lemma port_byte_ascii a : port_byte a = true -> is_ascii a = true.
Proof. unfold port_byte. intros [H|H%Ascii.eqb_eq]%orb_prop; [by apply digit_ascii|by subst]. Qed.

Lemma range_strip low high : strip (fmt_N low +:+ "-" +:+ fmt_N high) = fmt_N low +:+ "-" +:+ fmt_N high.
Proof.
  destruct (fmt_N_first low) as (a & Ha & Da). destruct (fmt_N_last high) as (b & Hb & Db).
  destruct (digit_ascii a Da) as [A1 A2]. destruct (digit_ascii b Db) as [B1 B2]. eapply strip_bytes; [|rewrite first_byte_app; [exact Ha|]|done|done| |done|done].
  - apply utf8_ascii. eapply forallb_s_impl; [apply port_byte_ascii|apply range_text].
  - by destruct (fmt_N_cons low) as (x & s & -> & _).
  - rewrite !last_byte_app. by rewrite Hb.
Qed.

Lemma range_not_decimal low high : forallb (fun c => bool_decide (is_Some (py_decimal c))) (chars (fmt_N low +:+ "-" +:+ fmt_N high)) = false.
Proof.
  rewrite chars_ascii_forallb by (eapply forallb_s_impl; [apply port_byte_ascii|apply range_text]). rewrite !forallb_s_app.
  assert (forallb_s (fun a => bool_decide (is_Some (py_decimal (Ascii.N_of_ascii a)))) "-" = false) as ->; [done|]. cbn [andb]. apply andb_false_r.
Qed.

Lemma range_reads low high : (low <= 65535)%N -> (high <= 65535)%N -> port_range (fmt_N low +:+ "-" +:+ fmt_N high) = Some (low, high).
Proof.
  intros Hl Hh. destruct (digits_value low Hl) as [L1 L2]. destruct (digits_value high Hh) as [H1 H2]. unfold port_range.
  change ("-" +:+ fmt_N high) with (String "-"%char (fmt_N high)). rewrite split_once_at by (by apply (bytes_no is_digit); [apply fmt_N_digits|]).
  cbn [mbind option_bind]. unfold port_part. rewrite !fmt_N_digits, L1, H1. destruct (fmt_N_cons low) as (x & s & Es & _). destruct (fmt_N_cons high) as (y & t & Et & _).
  assert (P1 : (1 <=? String.length (fmt_N low))%nat = true) by by rewrite Es. assert (P2 : (1 <=? String.length (fmt_N high))%nat = true) by by rewrite Et.
  rewrite P1, P2, !(proj2 (Nat.leb_le _ 5)) by done. cbn [andb]. change (default 0%Z (Some ?x)) with x. by rewrite !N2Z.id.
Qed.

Lemma port_stable v w : port v = Ok w -> stable port w.
Proof.
  unfold port, stable. assert (Hnum : forall z u, port_number z = Ok u -> match u with
    | Num _ => match strict_int u with Some number => port_number number | None => refused "invalid port" end | _ => Ok u end = Ok u).
  { intros z u Hz. destruct (port_number_stable _ _ Hz) as [-> _]. exact Hz. }
  destruct v as [| |n|t| |]; try done.
  - destruct (strict_int _) as [z|]; [|done]. intros H. destruct (port_number_stable _ _ H) as [-> _]. exact H.
  - destruct (negb _ && _).
    + intros H. destruct (port_number_stable _ _ H) as [-> _]. by apply (Hnum _ _ H).
    + destruct (port_range (strip t)) as [[low high]|]; [|done]. destruct ((1 <=? low) && (low <=? high) && (high <=? 65535))%N eqn:Hr; [|done].
      intros [= <-]. rewrite range_strip, range_not_decimal, andb_false_r.
      apply andb_prop in Hr as [Hr H3%N.leb_le]. apply andb_prop in Hr as [H1%N.leb_le H2%N.leb_le].
      rewrite range_reads by lia. by rewrite !(proj2 (N.leb_le _ _)).
Qed.

(** *** Domains *)

(** ASCII text without capitals: what [to_lowercase] leaves alone. *)
Definition is_plain (a : Ascii.ascii) : bool := is_ascii a && negb ((65 <=? Ascii.N_of_ascii a) && (Ascii.N_of_ascii a <=? 90))%N.
Definition lowercase_law (UT : UnicodeText) : Prop := forall s, forallb_s is_plain s = true -> to_lowercase s = s.

Lemma ascii_lowercase : lowercase_law ascii_text.
Proof.
  intros s. cbn [to_lowercase ascii_text]. induction s as [|a s IH]; [done|]. cbn [forallb_s ascii_lower]. intros [Ha Hs]%andb_prop.
  unfold is_plain in Ha. apply andb_prop in Ha as [_ Ha]. apply negb_true_iff in Ha. cbv zeta. by rewrite Ha, IH.
Qed.

Definition domain_byte (a : Ascii.ascii) : bool := is_lower_or_digit a || Ascii.eqb a "-"%char || Ascii.eqb a "."%char || Ascii.eqb a "*"%char.

Lemma trim_end_again b s : trim_end_byte b (trim_end_byte b s) = trim_end_byte b s.
Proof.
  induction s as [|a s IH]; [done|]. cbn [trim_end_byte]. cbv zeta. destruct (str_empty (trim_end_byte b s) && Ascii.eqb a b) eqn:E; [done|].
  cbn [trim_end_byte]. cbv zeta. by rewrite IH, E.
Qed.

Lemma dns_bytes host : is_dns_name host = true -> forallb_s domain_byte host = true.
Proof.
  unfold is_dns_name. intros [_ H]%andb_prop. rewrite <-(join_split dot host). apply forallb_s_join; [done|].
  apply list.Forall_forall. intros label Hin%list_elem_of_In. rewrite forallb_forall in H. specialize (H label Hin). unfold is_label in H.
  apply andb_prop in H as [H _]. apply andb_prop in H as [H _]. apply andb_prop in H as [_ H]. eapply forallb_s_impl; [|exact H].
  intros a Ha. unfold domain_byte. by rewrite Ha.
Qed.
Lemma domain_byte_all (P : Ascii.ascii -> bool) : forallb (fun n => implb (domain_byte (Ascii.ascii_of_nat n)) (P (Ascii.ascii_of_nat n))) (seq 0 256) = true ->
  forall a, domain_byte a = true -> P a = true.
Proof.
  intros H a Ha. rewrite forallb_forall in H. specialize (H (Ascii.nat_of_ascii a)). rewrite Ascii.ascii_nat_embedding in H.
  rewrite Ha in H. apply H. apply in_seq. pose proof (Ascii.nat_ascii_bounded a). lia.
Qed.
Lemma domain_byte_plain a : domain_byte a = true -> is_plain a = true.
Proof. apply domain_byte_all. vm_compute. reflexivity. Qed.
Lemma domain_byte_ascii a : domain_byte a = true -> is_ascii a = true.
Proof. apply domain_byte_all. vm_compute. reflexivity. Qed.
Lemma domain_byte_space a : domain_byte a = true -> negb (is_space (Ascii.N_of_ascii a)) = true.
Proof. apply (domain_byte_all (fun a => negb (is_space (Ascii.N_of_ascii a)))). vm_compute. reflexivity. Qed.

Section stable.
Context {UT : UnicodeText} {FT : FloatText} (Hlower : lowercase_law UT).

Record domain_text (c : string) : Prop := {
  dt_bytes : forallb_s domain_byte c = true;
  dt_trim : trim_end_byte "."%char c = c;
  dt_length : (char_len c <= 255)%nat;
  dt_host : let host := default c (strip_prefix "*." c) in
    (str_empty host || contains_s "*" host || contains_s "/" host || negb (is_dns_name host)) = false;
}.

Lemma domain_is_text value c : domain value = Ok c -> domain_text c.
Proof.
  unfold domain. destruct (value ≫= as_str) as [t|]; [|done]. destruct (_ || _ || existsb _ _); [done|]. cbv zeta.
  set (cand := trim_end_byte "."%char (to_lowercase t)). destruct (_ || negb _) eqn:Hh; [done|]. intros [= <-].
  assert (Hdns : is_dns_name (default cand (strip_prefix "*." cand)) = true) by (apply orb_false_iff in Hh as [_ Hh]; by apply negb_false_iff in Hh).
  assert (Hb : forallb_s domain_byte cand = true).
  { destruct (strip_prefix "*." cand) as [host|] eqn:Hs; [|by apply dns_bytes]. apply strip_prefix_iff in Hs as ->. rewrite forallb_s_app.
    by rewrite (dns_bytes host Hdns). }
  constructor; [done|apply trim_end_again| |exact Hh].
  assert (Hlen : (char_len (default cand (strip_prefix "*." cand)) <= 253)%nat).
  { unfold is_dns_name in Hdns. apply andb_prop in Hdns as [Hdns _]. apply andb_prop in Hdns as [Hdns _]. apply andb_prop in Hdns as [_ Hdns]. by apply Nat.leb_le. }
  destruct (strip_prefix "*." cand) as [host|] eqn:Hs; [|cbn [default] in Hlen; change (char_len cand <= 253)%nat in Hlen; lia].
  apply strip_prefix_iff in Hs. rewrite Hs in *. change (char_len host <= 253)%nat in Hlen.
  change ("*." +:+ host) with (String "*"%char (String "."%char host)). unfold char_len. rewrite !chars_ascii_cons by done. cbn [length]. unfold char_len in Hlen. lia.
Qed.

Lemma domain_reads c : domain_text c -> domain (Some (Str c)) = Ok c.
Proof.
  intros [Hb Ht Hl Hh]. unfold domain. cbn [mbind option_bind as_str]. cbv zeta in Hh |- *.
  rewrite Hlower by (eapply forallb_s_impl; [apply domain_byte_plain|exact Hb]). rewrite Ht, Hh.
  assert (str_empty c = false) as -> by (by destruct c). rewrite (proj2 (Nat.ltb_ge _ _)) by done. cbn [orb].
  assert (existsb is_space (chars c) = false) as ->; [|done].
  assert (Hn : forallb (fun c => negb (is_space c)) (chars c) = true).
  { rewrite chars_ascii_forallb by (eapply forallb_s_impl; [apply domain_byte_ascii|exact Hb]). eapply forallb_s_impl; [apply domain_byte_space|exact Hb]. }
  clear -Hn. induction (chars c) as [|x l IH]; [done|]. cbn [forallb existsb] in *. apply andb_prop in Hn as [H1%negb_true_iff H2]. by rewrite H1, IH.
Qed.

Lemma domain_value_stable v w : domain_value v = Ok w -> stable domain_value w.
Proof.
  unfold domain_value, stable. destruct (domain (Some v)) as [c|] eqn:Hd; [|done]. intros [= <-]. by rewrite (domain_reads c) by by eapply domain_is_text.
Qed.

(** *** Networks *)

Lemma address_byte_plain a : is_address_byte a = true -> is_ascii a = true /\ is_space (Ascii.N_of_ascii a) = false.
Proof.
  intros Ha. assert (G : forallb (fun n => implb (is_address_byte (Ascii.ascii_of_nat n)) (is_ascii (Ascii.ascii_of_nat n) && negb (is_space (Ascii.N_of_ascii (Ascii.ascii_of_nat n))))) (seq 0 256) = true) by (vm_compute; reflexivity).
  rewrite forallb_forall in G. specialize (G (Ascii.nat_of_ascii a)). rewrite Ascii.ascii_nat_embedding, Ha in G.
  assert (Hin : In (Ascii.nat_of_ascii a) (seq 0 256)) by (apply in_seq; pose proof (Ascii.nat_ascii_bounded a); lia).
  apply G in Hin. by apply andb_prop in Hin as [H1 H2%negb_true_iff].
Qed.

Lemma network_first net : network_text net -> exists a, first_byte net = Some a /\ is_address_byte a = true.
Proof.
  assert (G : forall s, forallb_s is_address_byte s = true -> s <> EmptyString -> exists a, first_byte s = Some a /\ is_address_byte a = true).
  { intros [|a s]; [done|]. cbn [forallb_s]. intros [Ha _]%andb_prop _. by exists a. }
  intros [v p _ _|v scope p _ _ _].
  - assert (Hq : ipv4_str v <> EmptyString) by (intros H; pose proof (quad_has_dot v) as Hd; by rewrite H in Hd).
    rewrite first_byte_app by done. apply G; [apply quad_bytes|done].
  - assert (Hq : v6_text v <> EmptyString) by (intros H; pose proof (v6_text_ne v) as He; by rewrite H in He).
    change (format_v6 v scope) with (v6_text v +:+ match scope with Some scope => "%" +:+ scope | None => EmptyString end).
    rewrite app_assoc_s, first_byte_app by done. apply G; [apply v6_text_bytes|done].
Qed.
Lemma network_last net : network_text net -> exists b, last_byte net = Some b /\ is_digit b = true.
Proof.
  intros [v p _ _|v scope p _ _ _]; destruct (fmt_N_last p) as (b & Hb & Hd); exists b; by rewrite !last_byte_app, Hb.
Qed.

(** The text of a network has no space at its ends: it is read as it is. *)
Lemma cidr_stable v w : cidr v = Ok w -> (forall t, w = Str t -> utf8 t = true) -> stable cidr w.
Proof.
  unfold cidr, stable. destruct (strip <$> as_str v) as [t|]; [|done]. destruct (str_empty t); [done|]. destruct (network t) as [net|] eqn:Hn; [|done].
  intros [= <-] Hu. pose proof (network_is_text _ _ Hn) as Ht. cbn [as_str fmap option_fmap option_map].
  destruct (network_first _ Ht) as (a & Ha & Pa). destruct (network_last _ Ht) as (b & Hb & Pb).
  destruct (address_byte_plain a Pa). destruct (digit_ascii b Pb).
  rewrite (strip_bytes net a b) by auto. assert (str_empty net = false) as -> by (by destruct net). by rewrite (network_stable _ _ Hn).
Qed.
End stable.

(** ** A validated intent is its own normal form

    Whatever [validate_document] gives it gives again: the digest of a stored intent does not depend on how
    often it was validated. *)

(** The texts of a rule's networks are UTF-8, as every text of the program is. *)
Definition texts_of (v : Value) : Prop := forall t, v = Str t -> utf8 t = true.
Definition rule_texts (r : Value) : Prop := Forall texts_of (as_items (index r "cidrs")).
Definition lane_texts (body : Value) : Prop := Forall rule_texts (as_items (index body "rules")).
Definition document_texts (d : Value) : Prop :=
  lane_texts d /\ Forall (fun e => lane_texts e.2) (as_entries (get "lanes" d)).

Section normal.
Context {UT : UnicodeText} {FT : FloatText} (Hlower : lowercase_law UT).

(** ** Rules and lanes *)

Lemma entry_keys ds gs cs js ps protocols action e : only_keys (rule_entry ds gs cs js ps protocols action e) RULE_KEYS = true.
Proof. by destruct protocols. Qed.
Lemma entry_protocols ds gs cs js ps protocols action e :
  bget "protocols" (rule_entry ds gs cs js ps protocols action e) = match protocols with [] => None | _ => Some (Array protocols) end.
Proof. by destruct protocols. Qed.

Lemma rule_stable chains exits r : rule_wf chains exits r -> rule_texts r -> validate_rule chains exits r = Ok r.
Proof.
  intros [(ds & gs & cs & js & ps & protocols & action & e & -> & Ha & He & Hd & Hg & Hc & Hj & Hp & Hpr & Hn)] Ht.
  set (entry := rule_entry ds gs cs js ps protocols action e) in *.
  assert (Hcs : Forall texts_of cs) by exact Ht. rewrite list.Forall_forall in Hcs.
  unfold validate_rule. assert (Hk : only_keys entry RULE_KEYS = true) by apply entry_keys. rewrite Hk. cbn [require mbind result_bind].
  change (is_in (bget "action" entry) ACTIONS) with (mem_str action ACTIONS). rewrite Ha. cbn [require mbind result_bind].
  change (text_at "action" entry) with action.
  rewrite (selectors_stable entry "domains" (fun v => Str <$> domain (Some v)) _ ds eq_refl Hd) by (intros v w Hv _; by apply (domain_value_stable Hlower v)).
  cbn [mbind result_bind]. rewrite (selectors_stable entry "geosites" _ _ gs eq_refl Hg) by (intros; by eapply geo_code_stable).
  cbn [mbind result_bind]. rewrite (selectors_stable entry "cidrs" _ _ cs eq_refl Hc) by (intros v w Hv Hin; eapply cidr_stable; [exact Hv|by apply Hcs]).
  cbn [mbind result_bind]. rewrite (selectors_stable entry "geoips" _ _ js eq_refl Hj) by (intros; by eapply geo_code_stable).
  cbn [mbind result_bind]. rewrite (selectors_stable entry "ports" _ _ ps eq_refl Hp) by (intros; by eapply port_stable).
  cbn [mbind result_bind]. change (bget "egress" entry) with (Some e). rewrite (egress_stable "rule" _ _ _ _ He). cbn [mbind result_bind].
  assert (Hprotocols : selectors entry "protocols" protocol_name MAX_PROTOCOLS = Ok protocols).
  { destruct protocols as [|x l] eqn:Hx; [done|]. apply (selectors_stable entry "protocols"); [done|done|]. intros; by eapply protocol_stable. }
  rewrite Hprotocols. cbn [mbind result_bind]. fold (rule_entry ds gs cs js ps protocols action e). fold entry.
  fold (names_selector entry). rewrite Hn. done.
Qed.

Lemma rules_stable chains exits rules : Forall (rule_wf chains exits) rules -> Forall rule_texts rules -> mapM (validate_rule chains exits) rules = Ok rules.
Proof.
  intros Hw Ht. rewrite list.Forall_forall in *. apply mapM_Ok_iff, Forall_Forall2_diag, list.Forall_forall. intros r Hr. by apply rule_stable; auto.
Qed.

Lemma lane_stable chains exits action e rules fields : mem_str action DEFAULT_ACTIONS = true -> egress_nf chains exits action e ->
  (length rules <= MAX_RULES)%nat -> Forall (rule_wf chains exits) rules -> Forall rule_texts rules ->
  only_keys fields ["schema"] = true ->
  validate_lane (Object (fields ++ lane_nf chains exits action e rules)) chains exits = Ok (lane_nf chains exits action e rules).
Proof.
  intros Ha He Hl Hw Ht Hf. unfold validate_lane.
  assert (Hk : only_keys (fields ++ lane_nf chains exits action e rules) ["schema"; "default"; "rules"] = true).
  { unfold only_keys in *. rewrite forallb_app. apply andb_true_intro. split; [|done]. rewrite forallb_forall in *. intros x Hx. apply Hf in Hx.
    apply mem_str_true in Hx. apply list_elem_of_singleton in Hx. by rewrite Hx. }
  rewrite Hk. cbn [require mbind result_bind].
  assert (Hg : forall key, key = "default" \/ key = "rules" -> bget key (fields ++ lane_nf chains exits action e rules) = bget key (lane_nf chains exits action e rules)).
  { intros key Hkey. induction fields as [|[k v] fields IH]; [done|]. cbn [only_keys forallb fst] in Hf. apply andb_prop in Hf as [H1 H2].
    apply mem_str_true, list_elem_of_singleton in H1 as ->. cbn [app bget]. assert (key =?s "schema" = false) as -> by (by destruct Hkey as [-> | ->]).
    apply IH; [done|]. clear -Hk. by apply andb_prop in Hk as [_ Hk]. }
  rewrite !Hg by auto. cbn [bget lane_nf String.eqb Ascii.eqb Bool.eqb]. cbn [is_in mbind option_bind as_str bget String.eqb Ascii.eqb Bool.eqb].
  rewrite Ha. cbn [only_keys forallb fst andb]. change (mem_str "action" _) with true. change (mem_str "egress" _) with true. cbn [andb require mbind result_bind].
  change (text_at "action" [("action", Str action); ("egress", e)]) with action. rewrite (egress_stable "default" _ _ _ _ He). cbn [mbind result_bind].
  apply Nat.leb_le in Hl. rewrite Hl. cbn [mbind result_bind]. by rewrite rules_stable.
Qed.
(** ** Hops *)

Lemma text_is_inv map key p : text_is map key p = true -> exists t, at_key key map = Str t /\ p t = true.
Proof. unfold text_is. destruct (at_key key map) as [| | |t| |]; try done. intros H. by exists t. Qed.

Lemma domain_text_ne c : domain_text c -> str_empty c = false.
Proof. intros [_ _ _ Hh]. by destruct c. Qed.

(** A host as it was normalised is read as itself: as an address, or as a name. *)
Definition host_text (label h : string) : Prop :=
  str_empty h = false /\ (is_ip_address h = true \/ (domain_text h /\ String.prefix "*." h = false)).

Lemma host_is_text value label h : host value label = Ok h -> host_text label h.
Proof.
  unfold host. destruct (value ≫= as_str) as [t|]; [|done]. destruct (str_empty t) eqn:He; [done|]. destruct (is_ip_address t) eqn:Hi.
  - intros H. apply Ok_inj in H as <-. split; [done|by left].
  - intros H. inv_checks. apply Ok_inj in H as <-. apply domain_is_text in Hr. apply negb_true_iff in Hr0. split; [by apply domain_text_ne|by right].
Qed.
Lemma host_reads label h : host_text label h -> host (Some (Str h)) label = Ok h.
Proof.
  intros [He Hh]. unfold host. cbn [mbind option_bind as_str]. rewrite He. destruct (is_ip_address h) eqn:Hi; [done|].
  destruct Hh as [Hh|[Hd Hp]]; [congruence|]. rewrite (domain_reads Hlower) by done. cbn [mbind result_bind]. by rewrite Hp.
Qed.

Record hop_wf (h : Value) : Prop := HopWf {
  hw_fields : exists guid address p server key short uuid,
    h = Object [("guid", Str guid); ("address", Str address); ("port", p); ("server_name", Str server); ("public_key", Str key);
                ("short_id", Str short); ("uuid", Str uuid)]
    /\ word guid 1 64 = true /\ host_text "address" address /\ port_ok p = true
    /\ domain_text server /\ String.prefix "*." server = false /\ is_public_key key = true /\ is_short_id short = true /\ is_uuid uuid = true
}.

Lemma hop_is_wf source h : hop source = Ok h -> hop_wf h.
Proof.
  unfold hop. destruct source as [| | | | |map]; try done. intros H. inv_checks. apply Ok_inj in H as <-.
  repeat match goal with H : text_is map _ _ = true |- _ => apply text_is_inv in H as (? & ? & ?) end.
  match goal with H : (if text_is map "address" is_ip_address then _ else _) = Ok ?a |- _ => rename H into Haddr; rename a into address end.
  match goal with H : domain (Some (at_key "server_name" map)) = Ok ?a |- _ => rename H into Hserver; rename a into server end.
  apply domain_is_text in Hserver. repeat match goal with H : at_key _ map = Str _ |- _ => rewrite H in * end.
  assert (Hhost : host_text "address" address).
  { unfold text_is, text_at in Haddr. repeat match goal with H : at_key "address" map = Str _ |- _ => rewrite H in Haddr end. cbn [as_str default] in Haddr.
    destruct (is_ip_address _) eqn:Hi.
    - apply Ok_inj in Haddr as <-. split; [by apply negb_true_iff|by left].
    - inv_checks. apply Ok_inj in Haddr as ->. match goal with H : domain _ = Ok address |- _ => apply domain_is_text in H end.
      match goal with H : negb (String.prefix "*." address) = true |- _ => apply negb_true_iff in H end. split; [by apply domain_text_ne|by right]. }
  match goal with H : negb (String.prefix "*." server) = true |- _ => apply negb_true_iff in H end.
  constructor. do 7 eexists. split; [reflexivity|]. done.
Qed.

Lemma hop_reads h : hop_wf h -> hop h = Ok h.
Proof.
  intros [(guid & address & p & server & key & short & uuid & -> & Hg & [He Ha] & Hp & Hs & Hw & Hk & Hi & Hu)]. unfold hop.
  change (_ && only_keys _ HOP_KEYS) with true. cbn [require mbind result_bind]. set (map := [("guid", _); _; _; _; _; _; _]).
  change (text_is map "guid" ?p) with (p guid). cbv beta. rewrite Hg. change (text_is map "address" ?p) with (p address). cbv beta. rewrite He. cbn [negb require mbind result_bind].
  change (text_at "address" map) with address. change (at_key "address" map) with (Str address). change (at_key "port" map) with p.
  change (at_key "server_name" map) with (Str server).
  assert (Haddr : (if is_ip_address address then Ok address else
      host ← domain (Some (Str address)); _ ← require (negb (String.prefix "*." host)) "invalid hop address"; Ok host) = Ok address).
  { destruct (is_ip_address address) eqn:Hip; [done|]. destruct Ha as [?|[Hd Hx]]; [congruence|]. rewrite (domain_reads Hlower) by done.
    cbn [mbind result_bind]. by rewrite Hx. }
  rewrite Haddr, Hp. cbn [require mbind result_bind]. rewrite (domain_reads Hlower) by done. cbn [mbind result_bind]. rewrite Hw. cbn [negb require mbind result_bind].
  change (text_is map "public_key" ?p) with (p key). change (text_is map "short_id" ?p) with (p short). change (text_is map "uuid" ?p) with (p uuid). cbv beta.
  by rewrite Hk, Hi, Hu.
Qed.

Lemma chain_stable id c : is_short_word id = true -> chain_wf c -> validate_chain id c = Ok c.
Proof.
  intros Hid (hops & exit & -> & Hx & Hl & Hh). unfold validate_chain. rewrite Hid. cbn [require mbind result_bind].
  change (_ && only_keys _ ["hops"; "exit"]) with true. cbn [require mbind result_bind].
  change (at_key "hops" _) with (Array hops). cbn [at_key]. change (bget "exit" _) with (Some (Str exit)).
  destruct Hl as [H1%Nat.leb_le H2%Nat.leb_le]. rewrite H1, H2. cbn [andb mbind result_bind]. cbn [is_in mbind option_bind as_str]. rewrite Hx.
  cbn [require mbind result_bind].
  assert (mapM hop hops = Ok hops) as ->; [|done]. apply mapM_Ok_iff, Forall_Forall2_diag. eapply Forall_impl; [exact Hh|].
  intros h (source & Hs). by eapply hop_reads, hop_is_wf.
Qed.
End normal.

(** ** A validated custom exit is its own normal form *)

Section exit.
Context {UT : UnicodeText} {FT : FloatText} (Hlower : lowercase_law UT).

Lemma text_inv value label limit e w : text value label limit e = Ok w ->
  exists t, value = Some (Str t) /\ w = Str t /\ text (Some w) label limit e = Ok w /\ (e = false -> str_empty t = false).
Proof.
  unfold text. destruct value as [[| | |t| |]|]; try done. cbn [mbind option_bind as_str].
  destruct ((char_len t <=? limit)%nat && (e || negb (str_empty t)) && negb (has_control t)) eqn:H; [|done]. intros [= <-]. exists t. cbn [as_str]. rewrite H.
  split; [done|]. split; [done|]. split; [done|]. intros ->. cbn [orb] in H. apply andb_prop in H as [H _]. apply andb_prop in H as [_ H]. by apply negb_true_iff.
Qed.

Lemma credential_stable protocol credential out : exit_credential protocol credential = Ok out ->
  only_keys out ["username"; "password"; "uuid"] = true /\ exit_credential protocol out = Ok out.
Proof.
  unfold exit_credential. destruct (mem_str protocol ["socks"; "http"]).
  - intros H. inv_checks. destruct (not_null (bget "username" credential)) as [u|] eqn:Hu; [|apply Ok_inj in H as <-; done].
    inv_checks. apply Ok_inj in H as <-. apply text_inv in Hr0 as (tu & _ & -> & Ha & _), Hr1 as (tp & _ & -> & Hb & _).
    split; [done|]. cbn [bget String.eqb Ascii.eqb Bool.eqb not_null mbind result_bind require]. rewrite Ha. cbn [mbind result_bind]. by rewrite Hb.
  - destruct (protocol =?s "vless").
    + destruct (_ ≫= as_str) as [t|]; [|done]. destruct (is_uuid t) eqn:Ht; [|done]. intros [= <-]. split; [done|]. cbn. by rewrite Ht.
    + intros H. inv_checks. apply Ok_inj in H as <-. apply text_inv in Hr as (t & _ & -> & Ht & _). split; [done|].
      cbn [bget String.eqb Ascii.eqb Bool.eqb]. by rewrite Ht.
Qed.

(** *** The transport *)

Lemma present_text t : str_empty t = false -> present (Some (Str t)) = true.
Proof. intros H. unfold present. cbn [as_str]. case_bool_decide as E; [|done]. injection E as ->. done. Qed.

(** One text of a transport: there and read as itself, or not there. *)
Definition given_text (key : string) (l : imap Value) : Prop :=
  l = [] \/ exists t, l = [(key, Str t)] /\ str_empty t = false /\ text (Some (Str t)) ("exit transport " +:+ key) 512 false = Ok (Str t).

Lemma transport_texts_parts transport keys out : transport_texts transport keys = Ok out ->
  exists parts, out = concat parts /\ Forall2 given_text keys parts.
Proof.
  revert out. induction keys as [|key keys IH]; intros out; cbn [transport_texts]; [intros H; apply Ok_inj in H as <-; by exists []|].
  destruct (present (bget key transport)).
  - intros H. inv_checks. apply Ok_inj in H as <-. destruct (IH _ Hr0) as (parts & -> & Hp). destruct (text_inv _ _ _ _ _ Hr) as (t & _ & -> & Ht & He).
    exists ([(key, Str t)] :: parts). split; [done|]. constructor; [|done]. right. exists t. by split; [|split; [apply He|]].
  - intros H. destruct (IH _ H) as (parts & -> & Hp). exists ([] :: parts). split; [done|]. constructor; [by left|done].
Qed.

Lemma transport_stable tcp_only value network transport : exit_transport tcp_only value = Ok (network, transport) ->
  exit_transport tcp_only (Some (Object transport)) = Ok (network, transport).
Proof.
  unfold exit_transport at 1. destruct (or_default value _) as [| | | | |t]; try done. intros H. inv_checks. injection H as <- <-.
  set (net := default (Str "tcp") (bget "network" t)) in *. set (network := default EmptyString (as_str net)) in *.
  assert (Hnet : mem_str network EXIT_NETWORKS = true).
  { match goal with H : is_in (Some net) _ = true |- _ => apply is_in_text in H as (n & Hn & Hm) end. cbn [mbind option_bind] in Hn. unfold network. by rewrite Hn. }
  match goal with H : transport_texts _ _ = Ok _ |- _ => apply transport_texts_parts in H as (parts & -> & Hparts) end.
  inversion Hparts as [|? p1 ? ? H1 Hp1]; subst. inversion Hp1 as [|? p2 ? ? H2 Hp2]; subst. inversion Hp2 as [|? p3 ? ? H3 Hp3]; subst. inversion Hp3; subst.
  unfold exit_transport. change (or_default (Some (Object (("network", Str network) :: ?l))) _) with (Object (("network", Str network) :: l)). cbv iota beta.
  assert (Hk : only_keys (("network", Str network) :: concat [p1; p2; p3]) ["network"; "path"; "host"; "service_name"] = true).
  { by destruct H1 as [->|(t1 & -> & _)], H2 as [->|(t2 & -> & _)], H3 as [->|(t3 & -> & _)]. }
  rewrite Hk. cbn [require mbind result_bind]. change (default _ (bget "network" _)) with (Str network). cbn [is_in mbind option_bind as_str].
  rewrite Hnet. cbn [require mbind result_bind]. change (default EmptyString (Some network)) with network.
  match goal with H : negb (tcp_only && _) = true |- _ => rewrite H end. cbn [require mbind result_bind].
  assert (transport_texts (("network", Str network) :: concat [p1; p2; p3]) ["path"; "host"; "service_name"] = Ok (concat [p1; p2; p3])) as ->; [|done].
  destruct H1 as [->|(t1 & -> & E1 & T1)], H2 as [->|(t2 & -> & E2 & T2)], H3 as [->|(t3 & -> & E3 & T3)];
    cbn [concat app transport_texts bget String.eqb Ascii.eqb Bool.eqb]; change (present None) with false; cbv iota;
    rewrite ?(present_text _ E1), ?(present_text _ E2), ?(present_text _ E3), ?T1; cbn [mbind result_bind];
    rewrite ?T2; cbn [mbind result_bind]; rewrite ?T3; reflexivity.
Qed.

(** *** The security layer *)

Definition given_server (l : imap Value) : Prop := l = [] \/ exists h, l = [("server_name", Str h)] /\ host_text "exit server name" h.
Definition given_alpn (l : imap Value) : Prop :=
  l = [] \/ exists items, l = [("alpn", Array items)] /\ ((length items <=? 4)%nat && forallb alpn_item items = true).
Definition given_insecure (kind : string) (l : imap Value) : Prop := l = [] \/ (l = [("insecure", Bool true)] /\ kind = "tls").

Lemma exit_tls_inv kind security out : exit_tls kind security = Ok out ->
  exists s f a i, out = s ++ [("fingerprint", Str f)] ++ a ++ i /\ given_server s /\ mem_str f FINGERPRINTS = true /\ given_alpn a /\ given_insecure kind i.
Proof.
  unfold exit_tls. intros H. inv_checks. apply Ok_inj in H as <-.
  match goal with H : is_in (Some ?v) _ = true |- _ => destruct (is_in_text _ _ H) as (f & Hf & Hm); cbn [mbind option_bind] in Hf; set (fp := v) in * end.
  assert (fp = Str f) as -> by (destruct fp; try done; by injection Hf as ->).
  do 4 eexists. split; [reflexivity|]. split; [|split; [exact Hm|split]].
  - destruct (present (bget "server_name" security)); [|apply Ok_inj in Hr as <-; by left]. inv_checks. apply Ok_inj in Hr as <-.
    right. eexists. split; [done|]. by eapply host_is_text.
  - destruct (present (bget "alpn" security)); [|apply Ok_inj in Hr1 as <-; by left]. destruct (bget "alpn" security) as [[| | | |items|]|]; try done.
    destruct (_ && _) eqn:Ha; [|done]. apply Ok_inj in Hr1 as <-. right. by exists items.
  - destruct (_ && _) eqn:Hi; [|by left]. right. split; [done|]. apply andb_prop in Hi as [Hi _]. by apply eqb_s_true.
Qed.

Lemma fingerprint_ne f : mem_str f FINGERPRINTS = true -> str_empty f = false.
Proof. destruct f; [|done]. vm_compute. done. Qed.

Lemma exit_tls_reads kind s f a i rest out : given_server s -> mem_str f FINGERPRINTS = true -> given_alpn a -> given_insecure kind i ->
  rest = [] \/ (exists key short, rest = [("public_key", key); ("short_id", short)]) ->
  out = s ++ [("fingerprint", Str f)] ++ a ++ i -> exit_tls kind (("kind", Str kind) :: out ++ rest) = Ok out.
Proof.
  intros Hs Hf Ha Hi Hrest ->. set (sec := ("kind", Str kind) :: _).
  assert (Bs : bget "server_name" sec = bget "server_name" s) by (destruct Hs as [->|(h & -> & _)], Ha as [->|(items & -> & _)], Hi as [->|[-> _]], Hrest as [->|(k & sh & ->)]; done).
  assert (Bf : bget "fingerprint" sec = Some (Str f)) by (by destruct Hs as [->|(h & -> & _)]).
  assert (Ba : bget "alpn" sec = bget "alpn" a) by (destruct Hs as [->|(h & -> & _)], Ha as [->|(items & -> & _)], Hi as [->|[-> _]], Hrest as [->|(k & sh & ->)]; done).
  assert (Bi : bget "insecure" sec = bget "insecure" i) by (destruct Hs as [->|(h & -> & _)], Ha as [->|(items & -> & _)], Hi as [->|[-> _]], Hrest as [->|(k & sh & ->)]; done).
  unfold exit_tls. rewrite Bs, Bf, Ba, Bi.
  assert (Es : (if present (bget "server_name" s) then name ← host (bget "server_name" s) "exit server name"; Ok [("server_name", Str name)] else Ok []) = Ok s).
  { destruct Hs as [->|(h & -> & Hh)]; [done|]. cbn [bget String.eqb Ascii.eqb Bool.eqb]. rewrite present_text by apply Hh.
    by rewrite (host_reads Hlower) by done. }
  rewrite Es. cbn [mbind result_bind]. assert (or_default (Some (Str f)) (Str "chrome") = Str f) as ->.
  { unfold or_default. cbn [truthy]. by rewrite (fingerprint_ne f Hf). }
  cbn [is_in mbind option_bind as_str]. rewrite Hf. cbn [require mbind result_bind].
  assert (Ea : (if present (bget "alpn" a) then match bget "alpn" a with
      | Some (Array items) => if (length items <=? 4)%nat && forallb alpn_item items then Ok [("alpn", Array items)] else refused "invalid exit alpn"
      | _ => refused "invalid exit alpn" end else Ok []) = Ok a).
  { destruct Ha as [->|(items & -> & Hal)]; [done|]. cbn [bget String.eqb Ascii.eqb Bool.eqb]. change (present (Some (Array items))) with true. cbv iota. by rewrite Hal. }
  rewrite Ea. cbn [mbind result_bind].
  assert (Ei : (if (kind =?s "tls") && match bget "insecure" i with Some (Bool true) => true | _ => false end then [("insecure", Bool true)] else []) = i).
  { destruct Hi as [->|[-> ->]]; [by rewrite andb_false_r|done]. }
  by rewrite Ei.
Qed.

Lemma security_stable tcp_only value kind security : exit_security tcp_only value = Ok (kind, security) ->
  exit_security tcp_only (Some (Object security)) = Ok (kind, security).
Proof.
  unfold exit_security at 1. destruct (or_default value _) as [| | | | |t]; try done. intros H. inv_checks. injection H as <- <-.
  set (kv := default (Str "none") (bget "kind" t)) in *. set (kind := default EmptyString (as_str kv)) in *.
  assert (Hkind : mem_str kind EXIT_SECURITY = true).
  { match goal with H : is_in (Some kv) _ = true |- _ => apply is_in_text in H as (n & Hn & Hm) end. cbn [mbind option_bind] in Hn. unfold kind. by rewrite Hn. }
  clearbody kind. match goal with H : (if kind =?s "none" then _ else _) = Ok ?a |- _ => rename H into Hshared; rename a into shared end.
  match goal with H : (if kind =?s "reality" then _ else _) = Ok ?a |- _ => rename H into Hreality; rename a into reality end.
  assert (Hrest : kind = "none" /\ shared = [] /\ reality = [] \/
    kind <> "none" /\ exists s f a i, shared = s ++ [("fingerprint", Str f)] ++ a ++ i /\ given_server s /\ mem_str f FINGERPRINTS = true /\ given_alpn a /\ given_insecure kind i).
  { destruct (kind =?s "none") eqn:Hn; [left|right; split; [by apply eqb_s_false|by eapply exit_tls_inv]]. apply eqb_s_true in Hn as ->.
    apply Ok_inj in Hshared as <-. cbn in Hreality. by apply Ok_inj in Hreality as <-. }
  change (exit_security tcp_only (Some (Object (("kind", Str kind) :: shared ++ reality))) = Ok (kind, ("kind", Str kind) :: shared ++ reality)).
  unfold exit_security.
  assert (Hod : or_default (Some (Object (("kind", Str kind) :: shared ++ reality))) (Object [("kind", Str "none")]) = Object (("kind", Str kind) :: shared ++ reality)) by done.
  rewrite Hod. clear Hod.
  destruct Hrest as [(-> & -> & ->)|(Hne & s & f & a & i & -> & Hs & Hf & Ha & Hi)]; [by destruct tcp_only|].
  assert (Hre : (kind =?s "reality" = false /\ reality = []) \/ (kind = "reality" /\ exists key short, reality = [("public_key", Str key); ("short_id", Str short)]
     /\ is_public_key key = true /\ (str_empty short || is_short_id short) = true /\ s <> [])).
  { destruct (kind =?s "reality") eqn:Hk; [|apply Ok_inj in Hreality as <-; by left]. apply eqb_s_true in Hk as ->. right. split; [done|].
    unfold exit_reality in Hreality. inv_checks. apply Ok_inj in Hreality as <-. unfold at_key.
    destruct (bget "public_key" t) as [[| | |key| |]|]; try done.
    match goal with H : match as_str (or_default ?v ?d) with _ => _ end = true |- _ => destruct (or_default v d) as [| | |short| |] eqn:Hsh; try done; rename H into Hshort end.
    exists key, short. split; [done|]. split; [done|]. split; [done|]. intros ->. destruct Ha as [->|(items & -> & _)], Hi as [->|[-> _]]; done. }
  assert (Hk : only_keys (("kind", Str kind) :: (s ++ [("fingerprint", Str f)] ++ a ++ i) ++ reality) SECURITY_KEYS = true).
  { destruct Hs as [->|(h & -> & _)], Ha as [->|(items & -> & _)], Hi as [->|[-> _]], Hre as [[_ ->]|(_ & key & short & -> & _)]; done. }
  rewrite Hk. cbn [require mbind result_bind]. change (default _ (bget "kind" _)) with (Str kind). cbn [is_in mbind option_bind as_str].
  rewrite Hkind. cbn [require mbind result_bind]. change (default EmptyString (Some kind)) with kind.
  match goal with H : negb (tcp_only && _) = true |- _ => rewrite H end. cbn [require mbind result_bind].
  apply eqb_s_false in Hne. rewrite Hne.
  rewrite (exit_tls_reads kind s f a i reality (s ++ [("fingerprint", Str f)] ++ a ++ i) Hs Hf Ha Hi); [|destruct Hre as [[_ ->]|(_ & key & short & -> & _)]; eauto|done].
  cbn [mbind result_bind]. destruct Hre as [[-> ->]|(-> & key & short & -> & Hkey & Hshort & Hsn)]; [done|].
  change ("reality" =?s "reality") with true. cbv iota. unfold exit_reality.
  set (sec := ("kind", Str "reality") :: _ ++ [("public_key", Str key); ("short_id", Str short)]).
  assert (Bk : bget "public_key" sec = Some (Str key)) by (destruct Hs as [->|(h & -> & _)], Ha as [->|(items & -> & _)], Hi as [->|[-> _]]; done).
  assert (Bs : bget "short_id" sec = Some (Str short)) by (destruct Hs as [->|(h & -> & _)], Ha as [->|(items & -> & _)], Hi as [->|[-> _]]; done).
  unfold at_key. rewrite Bk, Bs. cbn [mbind option_bind as_str]. rewrite Hkey. cbn [require mbind result_bind].
  assert (or_default (Some (Str short)) (Str EmptyString) = Str short) as -> by (unfold or_default; cbn [truthy]; by destruct short).
  cbn [as_str]. rewrite Hshort. cbn [require mbind result_bind].
  destruct Hs as [->|(h & -> & _)]; [done|]. reflexivity.
Qed.
(** *** The exit *)

Definition given_method (protocol : string) (l : imap Value) : Prop :=
  if protocol =?s "shadowsocks" then exists m, l = [("method", Str m)] /\ mem_str m SS_METHODS = true else l = [].
Definition given_flow (protocol : string) (l : imap Value) : Prop :=
  if protocol =?s "vless" then exists f, l = [("flow", Str f)] /\ mem_str f EXIT_FLOWS = true else l = [].

Lemma or_default_text v f : is_in (Some (or_default v (Str EmptyString))) f = true -> exists t, or_default v (Str EmptyString) = Str t /\ mem_str t f = true.
Proof. intros (t & Ht & Hm)%is_in_text. destruct (or_default v _); try done. injection Ht as ->. by exists t. Qed.

Definition tcp_only (protocol : string) : bool := mem_str protocol ["socks"; "http"; "shadowsocks"].
Definition exit_object (protocol address : string) (p : Value) (credential method flows transport security : imap Value) : imap Value :=
  [("protocol", Str protocol); ("address", Str address); ("port", p); ("credential", Object credential)]
  ++ method ++ flows ++ [("transport", Object transport); ("security", Object security)].

Record exit_wf (v : Value) : Prop := ExitWf {
  ew_fields : exists protocol address p credential method flows network transport kind security,
    v = Object (exit_object protocol address p credential method flows transport security)
    /\ mem_str protocol EXIT_PROTOCOLS = true /\ host_text "exit address" address /\ port_ok p = true
    /\ only_keys credential ["username"; "password"; "uuid"] = true /\ exit_credential protocol credential = Ok credential
    /\ given_method protocol method /\ given_flow protocol flows
    /\ exit_transport (tcp_only protocol) (Some (Object transport)) = Ok (network, transport)
    /\ exit_security (tcp_only protocol) (Some (Object security)) = Ok (kind, security)
    /\ negb ((protocol =?s "vless") && truthy (default (Str EmptyString) (bget "flow" flows)) && (negb (network =?s "tcp") || (kind =?s "none"))) = true
}.

Lemma validate_exit_wf source v : validate_exit source = Ok v -> exit_wf v.
Proof.
  unfold validate_exit. destruct source as [| | | | |map]; try done. intros H. inv_checks.
  do 2 (match goal with x : (string * imap Value)%type |- _ => destruct x end; inv_checks). apply Ok_inj in H as <-.
  match goal with H : is_in (bget "protocol" map) _ = true |- _ => apply is_in_at in H end. set (protocol := text_at "protocol" map) in *.
  match goal with H : host _ _ = Ok ?a |- _ => apply host_is_text in H; rename a into address end.
  match goal with H : exit_credential _ _ = Ok ?c |- _ => apply credential_stable in H as [Hck Hc]; rename c into credential end.
  match goal with H : exit_transport _ _ = Ok (?n, ?t) |- _ => apply transport_stable in H as Ht; rename n into network; rename t into transport end.
  match goal with H : exit_security _ _ = Ok (?k, ?s) |- _ => apply security_stable in H as Hs; rename k into kind; rename s into security end.
  match goal with H : (if protocol =?s "shadowsocks" then _ else _) = Ok ?m |- _ => rename H into Hm; rename m into method end.
  match goal with H : (if protocol =?s "vless" then _ else _) = Ok ?f |- _ => rename H into Hf; rename f into flows end.
  constructor. exists protocol, address, (at_key "port" map), credential, method, flows, network, transport, kind, security.
  split; [done|]. split; [done|]. split; [done|]. split; [done|]. split; [done|]. split; [done|]. split; [|split; [|split; [exact Ht|split; [exact Hs|]]]].
  - unfold given_method. destruct (protocol =?s "shadowsocks"); [|by apply Ok_inj in Hm as <-]. inv_checks. apply Ok_inj in Hm as <-.
    match goal with H : is_in _ SS_METHODS = true |- _ => apply is_in_text in H as (m & Em & Hmem) end. exists m. split; [|done]. unfold at_key.
    destruct (bget "method" map) as [[| | |x| |]|]; try done. by injection Em as ->.
  - unfold given_flow. destruct (protocol =?s "vless"); [|by apply Ok_inj in Hf as <-]. inv_checks. apply Ok_inj in Hf as <-.
    match goal with H : is_in _ EXIT_FLOWS = true |- _ => apply or_default_text in H as (f & -> & Hmem) end. by exists f.
  - match goal with H : negb (_ && _ && _) = true |- _ => rename H into Hl end.
    destruct (protocol =?s "vless"); [|done]. inv_checks. by apply Ok_inj in Hf as <-.
Qed.

Lemma exit_reads v : exit_wf v -> validate_exit v = Ok v.
Proof.
  intros [(protocol & address & p & credential & method & flows & network & transport & kind & security & -> & Hp & Ha & Hport & Hk & Hc & Hm & Hf & Ht & Hs & Hl)].
  unfold given_method, given_flow in *. unfold validate_exit. set (map := exit_object protocol address p credential method flows transport security).
  assert (Hshape : (method = [] \/ exists m, method = [("method", Str m)]) /\ (flows = [] \/ exists f, flows = [("flow", Str f)])).
  { split; [destruct (protocol =?s "shadowsocks"); [|by left]; destruct Hm as (m & -> & _); right; by exists m
           |destruct (protocol =?s "vless"); [|by left]; destruct Hf as (f & -> & _); right; by exists f]. }
  assert (Hkeys : only_keys map EXIT_KEYS = true) by by destruct Hshape as [[->|(m & ->)] [->|(f & ->)]].
  rewrite Hkeys. cbn [require mbind result_bind]. change (is_in (bget "protocol" map) EXIT_PROTOCOLS) with (mem_str protocol EXIT_PROTOCOLS). rewrite Hp.
  cbn [require mbind result_bind]. change (text_at "protocol" map) with protocol. change (bget "address" map) with (Some (Str address)).
  rewrite (host_reads Hlower) by done. cbn [mbind result_bind]. change (at_key "port" map) with p. rewrite Hport. cbn [require mbind result_bind].
  assert (Hcred : or_default (bget "credential" map) (Object []) = Object credential) by (change (bget "credential" map) with (Some (Object credential)); by destruct credential).
  rewrite Hcred, Hk. cbn [mbind result_bind]. rewrite Hc. cbn [mbind result_bind].
  assert (Hmethod : (if protocol =?s "shadowsocks" then _ ← require (is_in (bget "method" map) SS_METHODS) "invalid shadowsocks method"; Ok [("method", at_key "method" map)]
                     else Ok []) = Ok method).
  { destruct (protocol =?s "shadowsocks"); [|by rewrite Hm]. destruct Hm as (m & -> & Hmem).
    change (is_in (bget "method" map) SS_METHODS) with (mem_str m SS_METHODS). by rewrite Hmem. }
  assert (Hflow : or_default (bget "flow" map) (Str EmptyString) = default (Str EmptyString) (bget "flow" flows)).
  { destruct Hshape as [[->|(m & ->)] [->|(f & ->)]]; try done; by destruct f. }
  rewrite Hmethod, Hflow. cbn [mbind result_bind].
  assert (Hflows : (if protocol =?s "vless" then _ ← require (is_in (Some (default (Str EmptyString) (bget "flow" flows))) EXIT_FLOWS) "invalid exit flow";
                     Ok [("flow", default (Str EmptyString) (bget "flow" flows))] else Ok []) = Ok flows).
  { destruct (protocol =?s "vless"); [|by rewrite Hf]. destruct Hf as (f & -> & Hmem). cbn [bget String.eqb Ascii.eqb Bool.eqb].
    change (is_in (Some (default (Str EmptyString) (Some (Str f)))) EXIT_FLOWS) with (mem_str f EXIT_FLOWS). by rewrite Hmem. }
  rewrite Hflows. cbn [mbind result_bind].
  assert (Bt : bget "transport" map = Some (Object transport)) by by destruct Hshape as [[->|(m & ->)] [->|(f & ->)]].
  assert (Bs : bget "security" map = Some (Object security)) by by destruct Hshape as [[->|(m & ->)] [->|(f & ->)]].
  unfold tcp_only in Ht, Hs. rewrite Bt, Bs, Ht. cbn [mbind result_bind]. rewrite Hs. cbn [mbind result_bind]. by rewrite Hl.
Qed.

Lemma exit_stable source v : validate_exit source = Ok v -> validate_exit v = Ok v.
Proof. intros H. by eapply exit_reads, validate_exit_wf. Qed.

(** ** The document *)

Lemma checked_stable check (m : imap Value) : Forall (fun e => check e.1 e.2 = Ok e.2) m -> checked_entries check m = Ok m.
Proof.
  induction 1 as [|[k v] m Hv _ IH]; [done|]. cbn [checked_entries fst snd] in *. rewrite Hv. cbn [mbind result_bind]. by rewrite IH.
Qed.
Lemma lane_entry_stable chains exits id lane : is_lane id = true -> lane_wf chains exits lane -> RouterNormal.lane_texts (Object lane) ->
  (_ ← require (is_lane id) "invalid lane id"; Object <$> validate_lane (Object lane) chains exits) = Ok (Object lane).
Proof.
  intros -> [(action & e & rules & -> & Ha & He & Hl & Hr)] Ht. cbn [require mbind result_bind].
  pose proof (lane_stable Hlower chains exits action e rules [] Ha He Hl Hr Ht eq_refl) as H. cbn [app] in H. by rewrite H.
Qed.

Lemma document_v2_stable lanes chains exits : v2_wf lanes chains exits -> Forall (fun e => RouterNormal.lane_texts e.2) lanes ->
  validate_document (document_v2 lanes chains exits) = Ok (document_v2 lanes chains exits).
Proof.
  intros Hw Ht. destruct (vw_counts _ _ _ Hw) as ([L1 L2] & C & X).
  assert (Hunfold : validate_document (document_v2 lanes chains exits) = validate_v2 (as_entries (Some (document_v2 lanes chains exits)))) by done.
  rewrite Hunfold. unfold document_v2 at 1. cbn [as_entries]. set (map := _ ++ _). unfold validate_v2.
  assert (Hk : only_keys map ["schema"; "lanes"; "chains"; "exits"] = true) by (unfold map; by destruct exits).
  assert (Hb : forall l limit m, (length l <= limit)%nat -> bounded_map (Some (Object l)) limit m = Ok l).
  { intros l limit m Hl. unfold bounded_map. apply Nat.leb_le in Hl. by rewrite Hl. }
  assert (Be : bounded_map (bget "exits" map) MAX_EXITS "invalid exits list" = Ok exits) by (unfold map; destruct exits; [done|by apply Hb]).
  rewrite Hk, Be. cbn [require mbind result_bind]. rewrite (checked_stable _ exits).
  2: { pose proof (vw_exits _ _ _ Hw) as G. eapply Forall_impl; [exact G|]. intros [id x] (Hid & source & Hsource). cbn [fst snd] in *. rewrite Hid.
       cbn [require mbind result_bind]. by eapply exit_stable. }
  cbn [mbind result_bind]. change (bget "chains" map) with (Some (Object chains)). rewrite Hb by done. cbn [mbind result_bind].
  rewrite (checked_stable _ chains). 2: { eapply Forall_impl; [exact (vw_chains _ _ _ Hw)|]. intros [id c] [Hid Hc]. by apply chain_stable. }
  cbn [mbind result_bind]. change (bget "lanes" map) with (Some (Object lanes)). cbv beta iota. rewrite (proj2 (Nat.leb_le _ _) L1), (proj2 (Nat.leb_le _ _) L2). cbn [andb mbind result_bind].
  rewrite (checked_stable _ lanes).
  2: { pose proof (vw_lanes _ _ _ Hw) as G. rewrite list.Forall_forall in *. intros [id body] Hin. destruct (G _ Hin) as (Hid & lane & Hlane & Hwf). specialize (Ht _ Hin).
       cbn [fst snd] in *. subst body. by apply lane_entry_stable. }
  cbn [mbind result_bind]. rewrite filter_keys, length_map. fold is_service_lane. pose proof (vw_service _ _ _ Hw) as Hone.
  change (fun e : string * Value => String.prefix "svc:" e.1) with is_service_lane. rewrite Hone. cbn [Nat.eqb require mbind result_bind].
  fold (document_v2 lanes chains exits). pose proof (vw_size _ _ _ Hw) as Hsize. apply N.leb_le in Hsize. by rewrite Hsize.
Qed.

(** C25: The validator's answer is a normal form: a document it gave it accepts and gives again, unchanged:
    its domains in lower case, its networks by their first address, its ports as numbers or ranges, its
    lists without repetitions, every field in its place. So the digest of a stored intent is the digest of
    its validation, and a stored intent never becomes invalid. *)
Theorem validate_is_stable source d (Hvalid : validate_document source = Ok d) (Htexts : document_texts d) : validate_document d = Ok d.
Proof.
  destruct Htexts as [H1 H2]. apply validate_document_wf in Hvalid as [(action & e & rules & -> & [(action' & e' & rules' & Heq & Ha & He & Hl & Hr)] & Hs)|
    (lanes & chains & exits & -> & Hw & _)].
  - injection Heq as <- <- <-. unfold validate_document. change (document_v1 action e rules) with (Object ([("schema", json_int SCHEMA)] ++ lane_nf [] [] action e rules)) at 1.
    cbv beta iota. change (is_schema_2 _) with false. cbv iota. change (only_keys _ _) with true. change (is_schema_1 _) with true. cbn [require mbind result_bind].
    pose proof (lane_stable Hlower [] [] action e rules [("schema", json_int SCHEMA)] Ha He Hl Hr H1 eq_refl) as H.
    change (validate_lane (document_v1 action e rules) [] [] = Ok (lane_nf [] [] action e rules)) in H. rewrite H.
    cbn [mbind result_bind]. apply N.leb_le in Hs. by rewrite Hs.
  - by apply document_v2_stable.
Qed.
End exit.
