(* ===== verification/RouterRenderProps.v ===== *)
(** * What the renderer promises

    A rendered configuration runs the services' documents: a connection goes where its lane sends it, what
    is private is refused first, and every rule names an outbound the configuration has. The documents and
    the fields of Xray's rules are read on their own here, apart from the renderer. *)

From S2P Require Import Prelude BTree Utf8 Numeric Json PyText TextFacts Plan IpAddr IpAddrFacts IndexMap PyIp.
From S2P Require Import RouterIp RouterIntent RouterFacts RouterRender RouterRoute RouterIpFacts RouterNormal.

(** ** What a document asks for

    A document, read as the panel describes it ([RuleMatch] in [panel/crates/model]): a rule takes what
    goes to any of its domains, geosite codes, networks or geoip codes, on any of its ports, for any of its
    sniffed protocols; nothing of the renderer is used. *)

(** What the router's Xray knows of a connection. *)
Record Reading (C : Type) := {
  at_inbound : C -> string;
  by_user : C -> Value;
  under : string -> C -> bool;        (** its destination is this name, or a name under it *)
  exactly : string -> C -> bool;      (** its destination is this name *)
  in_geosite : string -> C -> bool;
  in_network : string -> C -> bool;   (** its destination is an address of this network *)
  in_geoip : string -> C -> bool;
  to_port : C -> N;
  sniffed : string -> C -> bool;
}.
Arguments at_inbound {C}. Arguments by_user {C}. Arguments under {C}. Arguments exactly {C}. Arguments in_geosite {C}.
Arguments in_network {C}. Arguments in_geoip {C}. Arguments to_port {C}. Arguments sniffed {C}.

Definition texts (key : string) (rule : Value) : list string := omap as_str (as_items (index rule key)).

Section asks.
Context {C : Type} (K : Reading C).
Implicit Types (c : C) (rule doc lane : Value).

(** [example.com] and [*.example.com] both mean the suffix. *)
Definition to_domain (domain : string) c : bool :=
  match strip_prefix "*." domain with Some suffix => under K suffix c | None => under K domain c end.
(** A port, or a range of them as [low-high]. *)
Definition on_port (v : Value) c : bool :=
  match v with
  | Num (NInt z) => Z.of_N (to_port K c) =? z
  | Str range => match port_range range with Some (low, high) => (low <=? to_port K c)%N && (to_port K c <=? high)%N | None => false end
  | _ => false
  end%Z.

(** Whether the connection goes to each of the destinations the rule names. *)
Definition destinations rule c : list bool :=
  map (fun domain => to_domain domain c) (texts "domains" rule) ++ map (fun code => in_geosite K code c) (texts "geosites" rule)
  ++ map (fun net => in_network K net c) (texts "cidrs" rule) ++ map (fun code => in_geoip K code c) (texts "geoips" rule).
(** Any of what is named, and anything where nothing is. *)
Definition any_of (l : list bool) : bool := match l with [] => true | _ => existsb (fun b => b) l end.
Definition takes rule c : bool :=
  any_of (destinations rule c)
  && any_of (map (fun port => on_port port c) (as_items (index rule "ports")))
  && any_of (map (fun name => sniffed K name c) (texts "protocols" rule)).

(** A rule that names its destinations by name only, or by address only. *)
Definition unmixed rule : Prop :=
  (texts "domains" rule = [] /\ texts "geosites" rule = []) \/ (texts "cidrs" rule = [] /\ texts "geoips" rule = []).

(** The outbound of a rule or a default: a chain's is that of its last hop, the tunnels' WARP is WireGuard. *)
Definition leads_to (service : string) doc (body : Value) : string :=
  let action := match index body "action" with Str action => action | _ => EmptyString end in
  if action =?s "block" then "block" else
  if negb (action =?s "egress") then "direct" else
  let warp := if service =?s "amneziawg" then "warp-wg" else "warp" in
  match index body "egress" with
  | Str egress =>
      match strip_prefix "chain:" egress, strip_prefix "exit:" egress with
      | Some id, _ => "chain:" +:+ service +:+ ":" +:+ id +:+ ":" +:+ fmt_nat (length (hops_of doc id))
      | _, Some id => "exit:" +:+ service +:+ ":" +:+ id
      | None, None => warp
      end
  | _ => warp
  end.

(** The first rule of the lane that takes the connection decides, or the lane's default. *)
Definition lane_sends (service : string) doc lane c : string :=
  match List.find (fun rule => takes rule c) (as_items (index lane "rules")) with
  | Some rule => leads_to service doc rule
  | None => leads_to service doc (index lane "default")
  end.

(** What is private or this node is refused (but for a service with a socket, MTProxy, its way to the TLS
    front at port 443 of a private network); a service without a document is direct; otherwise the user's
    lane decides. *)
Definition service_sends (service : string) (ingress : Ingress) (doc : option Value) (accounts : list LaneAccount) c : string :=
  if bool_decide (is_Some (socket ingress))
     && existsb (fun net => in_network K net c) ["10.0.0.0/8"; "172.16.0.0/12"; "192.168.0.0/16"] && (to_port K c =? 443)%N then "direct"
  else if in_geoip K "private" c || under K "localhost" c || exactly K "localhost" c then "block"
  else match doc with
       | Some doc => lane_sends service doc (lane_of doc service accounts (by_user K c)) c
       | None => "direct"
       end.
Definition lane_unmixed (service : string) doc (accounts : list LaneAccount) c : Prop :=
  Forall unmixed (as_items (index (lane_of doc service accounts (by_user K c)) "rules")).

(** ** How the router's Xray tells that a field applies

    What its documentation says of the fields the renderer writes: a list applies when one of its elements
    does; [domain:] is a name and what is under it, [full:] a name, [geosite:] and [geoip:] a list's code; a
    port field is a list of ports and ranges. *)
Record xray_documented {UT : UnicodeText} (hit : string -> Value -> C -> bool) : Prop := {
  xd_reads : xray_reads hit (at_inbound K) (by_user K);
  xd_domains : forall l c, hit "domain" (strs l) c = existsb (fun text => hit "domain" (strs [text]) c) l;
  xd_under : forall name c, hit "domain" (strs ["domain:" +:+ name]) c = under K name c;
  xd_exactly : forall name c, hit "domain" (strs ["full:" +:+ name]) c = exactly K name c;
  xd_geosite : forall code c, hit "domain" (strs ["geosite:" +:+ code]) c = in_geosite K code c;
  xd_addresses : forall l c, hit "ip" (strs l) c = existsb (fun text => hit "ip" (strs [text]) c) l;
  xd_geoip : forall code c, hit "ip" (strs ["geoip:" +:+ code]) c = in_geoip K code c;
  xd_network : forall text net c, network text = Some net -> hit "ip" (strs [net]) c = in_network K net c;
  xd_ports : forall l c, l <> [] -> Forall (fun text => split_byte ","%char text = [text]) l ->
    hit "port" (Str (join "," l)) c = existsb (fun text => hit "port" (Str text) c) l;
  xd_port : forall n c, (n <= 65535)%N -> hit "port" (Str (fmt_N n)) c = (to_port K c =? n)%N;
  xd_range : forall low high c, (low <= 65535)%N -> (high <= 65535)%N ->
    hit "port" (Str (fmt_N low +:+ "-" +:+ fmt_N high)) c = (low <=? to_port K c)%N && (to_port K c <=? high)%N;
  xd_protocols : forall l c, hit "protocol" (strs l) c = existsb (fun name => sniffed K name c) l;
}.

(** ** The renderer's rules select what the documents' take *)

Context {UT : UnicodeText} {FT : FloatText} {SD : SerdeDisplay} (hit : string -> Value -> C -> bool) (Hd : xray_documented hit).
(** [serde_json] displays an integer in decimal. *)
Context (Hshow : forall n, value_display (json_int (Z.of_N n)) = fmt_N n).

Lemma converted_in convert limit l : converted convert limit l -> Forall (fun w => exists v, convert v = Ok w) l.
Proof.
  intros (source & _ & H). destruct (mapM convert source) as [out|] eqn:Hm; [|done]. injection H as <-.
  destruct (unique_spec out) as (_ & Hin & _). eapply Forall_impl; [exact Hin|]. intros w Hw. apply mapM_Ok_iff in Hm.
  destruct (proj1 (list_elem_of_lookup _ _) Hw) as (i & Hi). destruct (Forall2_lookup_r _ _ _ _ _ Hm Hi) as (v & _ & Hv). by exists v.
Qed.

Lemma all_texts (P : string -> Prop) l : Forall (fun w => exists t, w = Str t /\ P t) l -> l = map Str (omap as_str l) /\ Forall P (omap as_str l).
Proof. induction 1 as [|w l (t & -> & Ht) _ [IH1 IH2]]; [done|]. cbn. split; [by f_equal|by constructor]. Qed.

Lemma domains_texts ds : converted domain_value MAX_SELECTORS ds -> ds = map Str (omap as_str ds).
Proof.
  intros H%converted_in. apply (all_texts (fun _ => True)). eapply Forall_impl; [exact H|]. intros w (v & Hw).
  unfold domain_value in Hw. destruct (domain (Some v)) as [t|]; [|done]. apply Ok_inj in Hw as <-. by exists t.
Qed.
Lemma codes_texts kind l : converted (geo_code kind) MAX_SELECTORS l -> l = map Str (omap as_str l).
Proof.
  intros H%converted_in. apply (all_texts (fun _ => True)). eapply Forall_impl; [exact H|]. intros w (v & Hw).
  unfold geo_code in Hw. destruct v as [| | |t| |]; try done. cbn [as_str] in Hw. destruct (is_geo_code t); [|done].
  destruct (_ && _); [done|]. apply Ok_inj in Hw as <-. by exists t.
Qed.
Lemma cidrs_texts l : converted cidr MAX_SELECTORS l -> l = map Str (omap as_str l)
  /\ Forall (fun net => exists text, network text = Some net) (omap as_str l).
Proof.
  intros H%converted_in. apply all_texts. eapply Forall_impl; [exact H|]. intros w (v & Hw). unfold cidr in Hw.
  destruct (strip <$> as_str v) as [t|]; [|done]. destruct (str_empty t); [done|]. destruct (network t) as [net|] eqn:Hn; [|done].
  apply Ok_inj in Hw as <-. by eauto.
Qed.
Lemma protocols_texts l : converted protocol_name MAX_PROTOCOLS l -> l = map Str (omap as_str l).
Proof.
  intros H%converted_in. apply (all_texts (fun _ => True)). eapply Forall_impl; [exact H|]. intros w (v & Hw).
  unfold protocol_name in Hw. destruct (is_in (Some v) _) eqn:Hin; [|done]. apply Ok_inj in Hw as <-.
  apply is_in_text in Hin as (t & Ht & _). destruct v; try done. by eexists.
Qed.

(** A port of a validated rule: its text in the Xray rule says what it says. *)
Definition port_says (v : Value) : Prop := split_byte ","%char (str_of v) = [str_of v] /\ forall c, hit "port" (Str (str_of v)) c = on_port v c.

Lemma ports_say l : converted port MAX_PORTS l -> Forall port_says l.
Proof.
  intros H%converted_in. eapply Forall_impl; [exact H|]. intros w (v & Hw).
  assert (Hnum : forall z, port_number z = Ok w -> port_says w).
  { intros z Hz. destruct (port_number_stable _ _ Hz) as [-> Hr]. rewrite <-(Z2N.id z) by lia. unfold port_says. cbn [str_of json_int]. fold (json_int (Z.of_N (Z.to_N z))).
    rewrite Hshow. split; [by apply split_fmt_N|]. intros c. rewrite (xd_port _ Hd) by lia. cbn [on_port json_int].
    apply eq_true_iff_eq. rewrite N.eqb_eq, Z.eqb_eq. lia. }
  unfold port in Hw. destruct v as [| |n|t| |]; try done.
  - destruct (strict_int _) as [z|]; [|done]. by eapply Hnum.
  - destruct (negb _ && _); [by eapply Hnum|]. destruct (port_range (strip t)) as [[low high]|]; [|done].
    destruct ((1 <=? low) && (low <=? high) && (high <=? 65535))%N eqn:Hr; [|done]. apply Ok_inj in Hw as <-.
    apply andb_prop in Hr as [Hr H3%N.leb_le]. apply andb_prop in Hr as [H1%N.leb_le H2%N.leb_le]. split.
    + cbn [str_of]. by apply (split_whole port_byte); [apply range_text|].
    + intros c. cbn [str_of on_port]. rewrite (xd_range _ Hd) by lia. by rewrite range_reads by lia.
Qed.

(** Fields that list nothing are not there, and apply. *)
Lemma listed_applies key (l : list string) c : hit key (strs l) c = existsb (fun t => hit key (strs [t]) c) l ->
  forallb (fun e => hit e.1 e.2 c) (nonempty_list key (map Str l)) = any_of (map (fun t => hit key (strs [t]) c) l).
Proof.
  destruct l as [|t l]; [done|]. cbn [nonempty_list map forallb fst snd]. rewrite andb_true_r. intros H.
  etrans; [exact H|]. unfold any_of. cbn [existsb]. f_equal. clear. induction l as [|x l IH]; [done|]. cbn [map existsb]. by rewrite IH.
Qed.

Lemma any_of_app l k : l = [] \/ k = [] -> any_of (l ++ k) = any_of l && any_of k.
Proof. intros [-> | ->]; [done|]. by rewrite app_nil_r, andb_true_r. Qed.

Lemma domain_applies ds gs c : forallb (fun e => hit e.1 e.2 c)
    (nonempty_list "domain" (map (fun d => Str (domain_selector (str_of d))) (map Str ds) ++ map (fun g => Str ("geosite:" +:+ str_of g)) (map Str gs)))
  = any_of (map (fun d => to_domain d c) ds ++ map (fun g => in_geosite K g c) gs).
Proof.
  rewrite !map_map. cbn [str_of]. rewrite <-(map_map domain_selector Str), <-(map_map (fun g => "geosite:" +:+ g) Str), <-map_app.
  rewrite listed_applies by apply (xd_domains _ Hd). rewrite map_app, !map_map. do 2 f_equal; apply map_ext; [intros d|intros g; apply (xd_geosite _ Hd)].
  unfold domain_selector, to_domain. rewrite (xd_under _ Hd). by destruct (strip_prefix "*." d).
Qed.

Lemma ip_applies cs js c : Forall (fun net => exists text, network text = Some net) cs -> forallb (fun e => hit e.1 e.2 c)
    (nonempty_list "ip" (map Str cs ++ map (fun g => Str ("geoip:" +:+ str_of g)) (map Str js)))
  = any_of (map (fun n => in_network K n c) cs ++ map (fun g => in_geoip K g c) js).
Proof.
  intros Hc. rewrite !map_map. cbn [str_of]. rewrite <-(map_map (fun g => "geoip:" +:+ g) Str), <-map_app.
  rewrite listed_applies by apply (xd_addresses _ Hd). rewrite map_app, !map_map. do 2 f_equal; [|apply map_ext; intros g; apply (xd_geoip _ Hd)].
  induction Hc as [|n cs (t & Ht) _ IH]; [done|]. cbn [map]. by rewrite IH, (xd_network _ Hd t n).
Qed.

Lemma port_applies ps c : Forall port_says ps -> forallb (fun e => hit e.1 e.2 c)
    (match map str_of ps with [] => [] | _ => [("port", Str (join "," (map str_of ps)))] end)
  = any_of (map (fun p => on_port p c) ps).
Proof.
  intros H. assert (Hany : existsb (fun text => hit "port" (Str text) c) (map str_of ps) = existsb (fun b => b) (map (fun p => on_port p c) ps)).
  { induction H as [|q l [_ Hq] _ IH]; [done|]. cbn [map existsb]. by rewrite IH, Hq. }
  destruct ps as [|p ps]; [done|]. change (any_of _) with (existsb (fun b => b) (map (fun p => on_port p c) (p :: ps))). rewrite <-Hany.
  cbn [map forallb fst snd]. rewrite andb_true_r, <-map_cons, (xd_ports _ Hd); [done|done|].
  apply Forall_map. eapply Forall_impl; [exact H|]. by intros q [? _].
Qed.

Lemma protocol_applies l c : forallb (fun e => hit e.1 e.2 c) (opt_field "protocol" (match map Str l with [] => None | items => Some (Array items) end))
  = any_of (map (fun name => sniffed K name c) l).
Proof.
  destruct l as [|t l]; [done|]. cbn [map opt_field forallb fst snd]. rewrite andb_true_r. etrans; [exact (xd_protocols _ Hd (t :: l) c)|].
  unfold any_of. cbn [existsb]. f_equal. clear. induction l as [|x l IH]; [done|]. cbn [map existsb]. by rewrite IH.
Qed.

Lemma selected_takes chains exits r c : rule_wf chains exits r -> unmixed r -> selected hit c r = takes r c.
Proof.
  intros [(ds & gs & cs & js & ps & protocols & action & e & -> & _ & _ & Hds & Hgs & Hcs & Hjs & Hps & Hpr & _)] Hu.
  apply domains_texts in Hds. apply codes_texts in Hgs, Hjs. apply cidrs_texts in Hcs as [Hcs Hnet]. apply protocols_texts in Hpr. apply ports_say in Hps.
  set (ds' := omap as_str ds) in *. set (gs' := omap as_str gs) in *. set (cs' := omap as_str cs) in *. set (js' := omap as_str js) in *.
  set (protocols' := omap as_str protocols) in *.
  set (r := Object _) in *. assert (Hp : texts "protocols" r = protocols') by (unfold r, protocols'; by destruct protocols).
  unfold selected, takes, destinations. rewrite Hp. unfold unmixed in Hu.
  change (texts "domains" r) with ds' in *. change (texts "geosites" r) with gs' in *. change (texts "cidrs" r) with cs' in *.
  change (texts "geoips" r) with js' in *. change (index r "ports") with (Array ps). cbn [as_items].
  rewrite (app_assoc (map _ ds')), any_of_app by (destruct Hu as [[-> ->]|[-> ->]]; auto).
  unfold rule_selectors. rewrite !forallb_app. unfold rule_domains, rule_addresses, strings.
  change (index r "domains") with (Array ds). change (index r "geosites") with (Array gs). change (index r "cidrs") with (Array cs).
  change (index r "geoips") with (Array js). change (index r "ports") with (Array ps). cbn [as_items]. rewrite Hds, Hgs, Hcs, Hjs.
  rewrite domain_applies, ip_applies, port_applies by done. rewrite <-!andb_assoc. do 3 f_equal.
  rewrite <-protocol_applies. unfold truthy_field, r. rewrite <-Hpr. by destruct protocols.
Qed.

(** ** Lanes and services *)

Lemma leads_target service doc body : tunnelled service (egress_target service doc (rule_action body) (index body "egress")) = leads_to service doc body.
Proof.
  unfold egress_target, leads_to, rule_action, outbound_for, tunnelled. set (action := match index body "action" with Str a => a | _ => EmptyString end).
  assert (default EmptyString (as_str (index body "action")) = action) as -> by (unfold action; by destruct (index body "action")).
  destruct (action =?s "block") eqn:Hb; [apply eqb_s_true in Hb as ->; by rewrite andb_false_r|].
  destruct (action =?s "egress") eqn:He; cbn [negb]; [|by rewrite andb_false_r].
  change (mem_str service TUN_SERVICES) with ((service =?s "amneziawg") || false). rewrite orb_false_r.
  assert (Hwarp : (if (service =?s "amneziawg") && ("warp" =?s "warp") then WARP_WG_TAG else "warp") = if service =?s "amneziawg" then "warp-wg" else "warp").
  { change ("warp" =?s "warp") with true. by rewrite andb_true_r. }
  destruct (index body "egress") as [| | |t| |]; try exact Hwarp. cbn [as_str].
  destruct (strip_prefix "chain:" t) as [id|]; [by rewrite andb_false_r|]. destruct (strip_prefix "exit:" t) as [id|]; [by rewrite andb_false_r|exact Hwarp].
Qed.

Lemma lane_among_wf lanes chains exits accounts user : v2_wf lanes chains exits ->
  exists body, lane_among lanes accounts user = Object body /\ lane_wf (bkeys chains) (bkeys exits) body.
Proof.
  intros Hw. assert (Hall : forall id, id ∈ bkeys lanes -> exists body, at_key id lanes = Object body /\ lane_wf (bkeys chains) (bkeys exits) body).
  { intros id Hid%at_key_elem. pose proof (vw_lanes _ _ _ Hw) as Hl. rewrite list.Forall_forall in Hl. by destruct (Hl _ Hid) as (_ & body & ? & ?); exists body. }
  unfold lane_among. destruct (List.find _ _) as [id|] eqn:Hf.
  - apply List.find_some in Hf as [Hin _]. apply filter_In in Hin as [Hin _]. by apply Hall, list_elem_of_In.
  - destruct (v2_one_service _ _ _ Hw) as (id & -> & Hid). by apply Hall.
Qed.

Lemma lane_of_wf service intent accounts user : intent_shape intent ->
  exists chains exits, Forall (rule_wf chains exits) (as_items (index (lane_of intent service accounts user) "rules")).
Proof.
  intros [action e rules Hv _ _ Hdef Hr [(a & e' & rules' & Heq & _ & _ & _ & Hrules)]|lanes chains exits -> Hw _ _].
  - rewrite (v1_lane service intent action e rules) by done. exists [], []. injection Heq as _ _ ->. exact Hrules.
  - destruct (lane_among_wf lanes chains exits accounts user Hw) as (lane & Hl & [(a & e & rules & -> & _ & _ & _ & Hrules)]).
    exists (bkeys chains), (bkeys exits). change (lane_of _ service accounts user) with (lane_among lanes accounts user). by rewrite Hl.
Qed.

Lemma find_ext_in {A} (f g : A -> bool) l : Forall (fun a => f a = g a) l -> List.find f l = List.find g l.
Proof. induction 1 as [|a l Ha _ IH]; [done|]. cbn [List.find]. by rewrite Ha, IH. Qed.

Lemma lane_target_sends service intent accounts c : intent_shape intent -> lane_unmixed service intent accounts c ->
  tunnelled service (lane_target hit service intent (lane_of intent service accounts (by_user K c)) c)
  = lane_sends service intent (lane_of intent service accounts (by_user K c)) c.
Proof.
  intros Hs Hu. destruct (lane_of_wf service intent accounts (by_user K c) Hs) as (chains & exits & Hw). unfold lane_target, lane_sends.
  rewrite (find_ext_in (selected hit c) (fun rule => takes rule c)).
  - destruct (List.find _ _) as [r|]; apply leads_target.
  - apply list.Forall_forall. intros r Hr. unfold lane_unmixed in Hu. rewrite list.Forall_forall in Hw, Hu. eapply selected_takes; [by apply Hw|by apply Hu].
Qed.

Lemma fixed_networks c : hit "ip" (strs MTPROXY_PRIVATE_EXCEPTION) c
  = existsb (fun net => in_network K net c) ["10.0.0.0/8"; "172.16.0.0/12"; "192.168.0.0/16"].
Proof.
  rewrite (xd_addresses _ Hd). unfold MTPROXY_PRIVATE_EXCEPTION. cbn [existsb].
  rewrite (xd_network _ Hd "10.0.0.0/8"), (xd_network _ Hd "172.16.0.0/12"), (xd_network _ Hd "192.168.0.0/16"); [done|vm_compute; reflexivity..].
Qed.

Lemma target_sends service ingress intent accounts c : intent_shape intent -> lane_unmixed service intent accounts c ->
  service_target hit service ingress intent accounts (by_user K c) c = service_sends service ingress (Some intent) accounts c.
Proof.
  intros Hs Hu. unfold service_target, service_sends. rewrite lane_target_sends by done. rewrite fixed_networks.
  rewrite (xd_geoip _ Hd "private"), (xd_domains _ Hd). cbn [existsb]. rewrite (xd_under _ Hd "localhost"), (xd_exactly _ Hd "localhost"), !orb_false_r, !orb_assoc.
  rewrite (xd_port _ Hd 443) by lia. by destruct (socket ingress); [rewrite bool_decide_true by by eexists|rewrite bool_decide_false by by intros [? ?]].
Qed.
End asks.

Section props.
Context {UT : UnicodeText} {FT : FloatText} {SD : SerdeDisplay}.
Implicit Types (input : RenderInput).

(** Every document is one the validator gave, of a JSON text (whose objects have each key once). *)
Definition documents_ok input : Prop := forall service intent, bget service (intents input) = Some intent ->
  exists source, validate_document source = Ok intent /\ iok (as_entries (get "chains" source)) /\ iok (as_entries (get "exits" source)).

Lemma validated_shape source intent : validate_document source = Ok intent -> iok (as_entries (get "chains" source)) ->
  iok (as_entries (get "exits" source)) -> intent_shape intent.
Proof.
  intros [(action & e & rules & -> & Hw & _)|(lanes & chains & exits & -> & Hw & Hc & Hx & _)]%validate_document_wf Kc Kx.
  - by eapply shape_lane.
  - eapply shape_lanes; [done|done| |]; unfold iok; [by rewrite Hc|by rewrite Hx].
Qed.

Lemma passthrough_shape : intent_shape passthrough.
Proof.
  apply (shape_lane passthrough "direct" Null []); try done. constructor. do 3 eexists. split; [done|].
  split; [done|]. split; [done|]. split; [cbn; unfold MAX_RULES; lia|constructor].
Qed.

Lemma documents_shape input service : documents_ok input -> intent_shape (intent_of input service).
Proof.
  intros Hd. unfold intent_of. destruct (bget service (intents input)) as [intent|] eqn:Hi; [|apply passthrough_shape].
  destruct (truthy intent); [|apply passthrough_shape]. destruct (Hd _ _ Hi) as (source & Hv & Kc & Kx). by eapply validated_shape.
Qed.

(** ** Routing *)

Lemma shape_truthy intent : intent_shape intent -> truthy intent = true.
Proof.
  intros [action e rules _ _ _ Hd _ _|lanes chains exits -> _ _ _]; [|done]. destruct intent as [| | | | |[|x m]]; done.
Qed.
Lemma documents_given input service intent : documents_ok input -> bget service (intents input) = Some intent -> intent_of input service = intent.
Proof.
  intros Hd Hi. unfold intent_of. rewrite Hi. destruct (Hd _ _ Hi) as (source & Hv & Kc & Kx). by rewrite (shape_truthy intent) by (by eapply validated_shape).
Qed.

Section routing.
Context {C : Type} (K : Reading C) (hit : string -> Value -> C -> bool) (Hxray : xray_documented K hit).
Context (Hshow : forall n, value_display (json_int (Z.of_N n)) = fmt_N n).

Lemma no_document service accounts c :
  lane_sends K service passthrough (lane_of passthrough service accounts (by_user K c)) c = "direct".
Proof. by rewrite (v1_lane service passthrough "direct" Null []). Qed.

(** C22: A rendered configuration runs the documents. A connection on a service's inbound is blocked if it
    goes to a private network or to localhost (the exception for private networks' port 443 of a service
    with a socket comes first), is direct where the service has no document, and otherwise goes where the
    lane of its user in the document sends it: to the outbound of the first rule that takes it (it goes to
    any of the rule's destinations, on any of its ports, as any of its protocols), or of the lane's
    default. It is so whichever other services, lanes and chains the configuration carries. Rules that name
    both names and addresses are not covered: the router takes only what is under both there
    ([mixed_rule_differs]). *)
Theorem config_runs_lanes input config service ingress c
  (Hrender : render_config input = Ok config) (Hdocs : documents_ok input)
  (Hservice : (service, ingress) ∈ services input) (Hc : at_inbound K c = service)
  (Hunmixed : forall doc, bget service (intents input) = Some doc -> lane_unmixed K service doc (lanes_for input service) c) :
  xray_route hit config c
  = Some (service_sends K service ingress (bget service (intents input)) (lanes_for input service) c).
Proof.
  apply render_inv in Hrender as (inbounds & warp & wg & parts & _ & _ & Hparts & ->). unfold xray_route.
  change (rules_of _) with (concat (map snd parts) ++ relay_rules input). apply first_target_hit.
  etrans; [eapply (parts_first hit (xd_reads _ _ Hxray)); [exact Hparts|apply services_nodup|exact Hservice|exact Hc|by apply documents_shape]|]. f_equal.
  destruct (bget service (intents input)) as [doc|] eqn:Hdoc.
  - rewrite (documents_given _ _ _ Hdocs Hdoc). apply (target_sends K hit Hxray Hshow); [|by apply Hunmixed].
    rewrite <-(documents_given _ _ _ Hdocs Hdoc). by apply documents_shape.
  - assert (Hp : intent_of input service = passthrough) by (unfold intent_of; by rewrite Hdoc). rewrite Hp.
    rewrite (target_sends K hit Hxray Hshow) by (by apply passthrough_shape || (unfold lane_unmixed; by rewrite (v1_lane service passthrough "direct" Null [] _ _ eq_refl eq_refl eq_refl))).
    unfold service_sends. by rewrite no_document.
Qed.
End routing.

(** ** Closedness *)

Definition names_outbound (outbounds : list Value) (t : string) : Prop := Some t ∈ map tag_of outbounds.

(** A rule of an intent: its target is the tag of an egress of the document. *)
Definition rule_within (intent : Value) (tags : imap string) (r : Value) : Prop :=
  exists action e, target_of r = Some (outbound_tag action e tags)
    /\ egress_nf (ids_of "chains" intent) (ids_of "exits" intent) action e /\ (e = Str "warp" -> uses_provider intent = true).

Lemma uses_warp intent lane e : lane ∈ ivalues (lanes_of intent EmptyString) -> e ∈ lane_egresses lane -> e = Str "warp" -> uses_provider intent = true.
Proof.
  intros Hl He ->. unfold uses_provider, uses_egress. apply existsb_exists. exists lane. split; [by apply list_elem_of_In|].
  apply existsb_exists. exists (Str "warp"). split; [by apply list_elem_of_In|]. done.
Qed.

Lemma lane_body_within service intent tags body user : lane_closed intent body ->
  (forall e, e ∈ lane_egresses body -> e = Str "warp" -> uses_provider intent = true) ->
  Forall (rule_within intent tags) (lane_body_rules service body user tags).
Proof.
  intros [Hd Hr] Hu. unfold lane_body_rules. apply Forall_app. split.
  - apply Forall_map, list.Forall_forall. intros r Hin. rewrite list.Forall_forall in Hr.
    exists (rule_action r), (default Null (get "egress" r)). split; [apply target_rule|]. split; [by apply Hr|].
    destruct (get "egress" r) as [e|] eqn:He; [|done]. cbn [default]. apply Hu. apply elem_of_app. right. apply list_elem_of_omap. by exists r.
  - apply list.Forall_singleton. eexists _, _. split; [apply target_catch_all|]. split; [exact Hd|]. unfold index at 1.
    unfold index in Hu |- *. destruct (get "egress" (default Null (get "default" body))) as [e|] eqn:He; [|done]. cbn [default]. apply Hu.
    unfold lane_egresses. apply elem_of_app. left. destruct (get "default" body) as [d|]; [|done]. change (get "egress" d = Some e) in He. cbn [mbind option_bind].
    rewrite He. by left.
Qed.

Lemma tun_within intent tags r : rule_within intent tags r -> exists action e,
  target_of (tun_rule r) = Some (if outbound_tag action e tags =?s "warp" then WARP_WG_TAG else outbound_tag action e tags)
    /\ egress_nf (ids_of "chains" intent) (ids_of "exits" intent) action e /\ (e = Str "warp" -> uses_provider intent = true).
Proof. intros (action & e & Ht & H1 & H2). exists action, e. rewrite target_tun, Ht. done. Qed.

Lemma intent_rules_within input service intent rules : intent_shape intent ->
  intent_rules input service intent (service_tags service intent) = Ok rules ->
  exists raw, rules = maybe_tun service raw /\ Forall (rule_within intent (service_tags service intent)) raw.
Proof.
  intros Hs H. unfold intent_rules in H. inv_binds. apply Ok_inj in H as <-. exists a. split; [done|].
  destruct Hs as [action e items Hv Hch Hx Hd Hi Hw|lanes chains exits -> Hw Hok _].
  - rewrite Hv in Hr. apply Ok_inj in Hr as <-.
    assert (Hcl : lane_closed intent (Object (lane_nf [] [] action e items))) by (apply lane_wf_closed; unfold ids_of; by rewrite Hch, Hx).
    assert (Ht : service_tags service intent = []) by (unfold service_tags; by rewrite Hch, Hx). rewrite Ht.
    pose proof (lane_body_within service intent [] _ None Hcl) as G. unfold lane_body_rules in G. rewrite Hi, Hd.
    pose proof Hcl as [Hd' _]. unfold ids_of in Hd'. rewrite Hch, Hx in Hd'. cbn [index get] in Hd'.
    change (rule_action (Object [("action", Str action); ("egress", e)])) with action. rewrite <-(no_ids_target action e Hd'). apply G.
    intros e' He'. eapply (uses_warp intent (Object (lane_nf [] [] action e items))); [|exact He'].
    unfold lanes_of. rewrite Hv, Hd, Hi. by left.
  - rewrite is_v2_v2 in Hr. unfold lane_rules in Hr. destruct (mapM _ _) as [blocks|] eqn:Hm; [|done]. apply Ok_inj in Hr as <-.
    apply mapM_Ok_iff in Hm. apply Forall_concat. eapply Forall2_Forall_r; [exact Hm|]. apply list.Forall_forall. intros id Hid block Hb.
    inv_binds. apply Ok_inj in Hb as <-. cbn [as_entries get_lanes] in *.
    assert (Hkey : id ∈ bkeys lanes) by (apply elem_of_app in Hid as [Hid|Hid]; apply list_elem_of_In, filter_In in Hid as [Hid _]; by apply list_elem_of_In).
    apply at_key_elem in Hkey. pose proof (vw_lanes _ _ _ Hw) as Hl. rewrite list.Forall_forall in Hl.
    destruct (Hl _ Hkey) as (_ & lane & Hv & Hlw). cbn [snd] in Hv. rewrite get_lanes. cbn [as_entries]. rewrite Hv in *.
    apply lane_body_within; [by apply lane_wf_closed; unfold ids_of; rewrite get_chains, get_exits|].
    intros e He. eapply uses_warp; [|exact He]. change (lanes_of (document_v2 lanes chains exits) EmptyString) with lanes.
    apply (list_elem_of_fmap_2 snd _ _ Hkey).
Qed.
End props.

(** * Every name of a rendered configuration is defined, once

    The tags that the rules and the chained hops name are tags of outbounds, and no two outbounds share one. *)

Section closed.
Context {UT : UnicodeText} {FT : FloatText} {SD : SerdeDisplay}.
Implicit Types (input : RenderInput).

(** ** A service's outbounds *)

Lemma chain_part_tags service e : map tag_of (chain_part service e) = map (fun n => Some (hop_tag service e.1 n)) (seq 1 (length (chain_hops e.2))).
Proof. apply hop_outbounds_tags. Qed.
Lemma exit_part_tag service e : tag_of (exit_part service e) = Some (exit_tag service e.1).
Proof. reflexivity. Qed.

Lemma service_tags_of service intent : map tag_of (service_outbounds service intent)
  = concat (map (fun e => map (fun n => Some (hop_tag service e.1 n)) (seq 1 (length (chain_hops e.2)))) (as_entries (get "chains" intent)))
    ++ map (fun e => Some (exit_tag service e.1)) (as_entries (get "exits" intent)).
Proof.
  unfold service_outbounds. rewrite map_app, concat_map, !map_map. do 2 f_equal. apply map_ext. apply chain_part_tags.
Qed.

Lemma chain_target_in service lanes chains exits id : v2_wf lanes chains exits -> iok chains -> id ∈ bkeys chains ->
  names_outbound (service_outbounds service (document_v2 lanes chains exits)) (hop_tag service id (length (hops_of (document_v2 lanes chains exits) id))).
Proof.
  intros Hw Hok Hin. unfold names_outbound. rewrite service_tags_of, get_chains. cbn [as_entries]. apply elem_of_app. left.
  apply at_key_elem in Hin. set (c := at_key id chains) in *. pose proof (vw_chains _ _ _ Hw) as Hc. rewrite list.Forall_forall in Hc.
  destruct (Hc _ Hin) as [_ (hops & exit & Hv & _ & Hl & _)]. cbn [snd] in Hv.
  apply list_elem_of_In, in_concat. eexists. split; [apply in_map_iff; exists (id, c); split; [reflexivity|by apply list_elem_of_In]|].
  cbn [fst snd]. apply in_map_iff. exists (length (hops_of (document_v2 lanes chains exits) id)). split; [done|]. apply in_seq.
  unfold hops_of. rewrite get_chains. cbn [as_entries]. fold c. rewrite Hv. change (length (chain_hops _)) with (length hops). lia.
Qed.
Lemma exit_target_in service intent id : id ∈ ids_of "exits" intent -> names_outbound (service_outbounds service intent) (exit_tag service id).
Proof.
  intros Hin. unfold names_outbound. rewrite service_tags_of. apply elem_of_app. right.
  apply list_elem_of_fmap in Hin as (e & -> & He). apply (list_elem_of_fmap_2 (fun e => Some (exit_tag service e.1)) _ _ He).
Qed.

(** The outbound of an egress: one every configuration has, the service's own, or the WARP one. *)
Lemma egress_target_in service intent action e : intent_shape intent -> egress_nf (ids_of "chains" intent) (ids_of "exits" intent) action e ->
  let t := egress_target service intent action e in
  t ∈ ["block"; "direct"] \/ (t = "warp" /\ e = Str "warp") \/ (t =?s "warp" = false /\ names_outbound (service_outbounds service intent) t).
Proof.
  intros Hs He. unfold egress_nf, egress_target in *. destruct (action =?s "egress") eqn:Ha; cbn [negb].
  - destruct He as (t & -> & Hk). cbn [as_str]. unfold known_egress in Hk. destruct (strip_prefix "chain:" t) as [id|] eqn:Hc.
    + right; right. split; [done|]. apply strip_prefix_iff in Hc as ->. rewrite orb_false_r in Hk. apply mem_str_true in Hk. fold (ids_of "chains" intent) in Hk.
      destruct Hs as [? ? ? _ Hn|lanes chains exits -> Hw Hok _]; [unfold ids_of in Hk; by rewrite Hn in Hk; apply not_elem_of_nil in Hk|].
      by apply chain_target_in.
    + destruct (strip_prefix "exit:" t) as [id|] eqn:Hx.
      * right; right. split; [done|]. apply strip_prefix_iff in Hx as ->. apply exit_target_in. by apply mem_str_true.
      * right; left. split; [done|]. rewrite !orb_false_r in Hk. by apply mem_str_true, list_elem_of_singleton in Hk as ->.
  - left. unfold outbound_for. rewrite Ha. destruct (action =?s "block"); [by left|by right; left].
Qed.

(** ** The configuration's outbounds *)

Lemma names_app a b t : names_outbound (a ++ b) t <-> names_outbound a t \/ names_outbound b t.
Proof. unfold names_outbound. by rewrite map_app, elem_of_app. Qed.

Lemma warp_outbound_named input warp : warp_outbound input = Ok warp -> needs_warp input = true -> names_outbound warp "warp".
Proof. unfold warp_outbound. intros H Hn. rewrite Hn in H. inv_binds. destruct a as [host port]. apply Ok_inj in H as <-. by left. Qed.
Lemma wg_outbound_named input wg : wg_outbound input = Ok wg -> needs_wg input = true -> names_outbound wg WARP_WG_TAG.
Proof. unfold wg_outbound. intros H Hn. rewrite Hn in H. destruct (warp_wg input); [|done]. apply Ok_inj in H as <-. by left. Qed.

(** The provider a service's document uses is there. *)
Lemma provider_named input warp wg service ingress : (service, ingress) ∈ services input -> warp_outbound input = Ok warp -> wg_outbound input = Ok wg ->
  uses input service = true -> names_outbound (warp ++ wg) (tunnelled service "warp").
Proof.
  intros Hin Hw Hg Hu. apply names_app. unfold tunnelled. change ("warp" =?s "warp") with true. rewrite andb_true_r.
  destruct (mem_str service TUN_SERVICES) eqn:Ht.
  - right. apply (wg_outbound_named input); [done|]. apply existsb_exists. exists (service, ingress). split; [by apply list_elem_of_In|]. cbn [fst]. by rewrite Ht, Hu.
  - left. apply (warp_outbound_named input); [done|]. apply orb_true_iff. left. apply existsb_exists. exists (service, ingress).
    split; [by apply list_elem_of_In|]. cbn [fst]. by rewrite Ht, Hu.
Qed.

Lemma uses_of input service : uses_provider (intent_of input service) = true -> uses input service = true.
Proof.
  unfold intent_of, uses. destruct (bget service (intents input)) as [intent|]; [|done]. by destruct (truthy intent).
Qed.

Lemma tunnelled_named service t : (t =?s "warp") = false -> tunnelled service t = t.
Proof. intros H. unfold tunnelled. by rewrite H, andb_false_r. Qed.

Definition targets_named (outbounds : list Value) (rules : list Value) : Prop :=
  Forall (fun r => exists t, target_of r = Some t /\ names_outbound outbounds t) rules.

Lemma rule_named input service ingress warp wg r outbounds : documents_ok input -> (service, ingress) ∈ services input ->
  warp_outbound input = Ok warp -> wg_outbound input = Ok wg ->
  (forall t, t ∈ ["block"; "direct"] -> names_outbound outbounds t) -> (forall t, names_outbound (warp ++ wg) t -> names_outbound outbounds t) ->
  (forall t, names_outbound (service_outbounds service (intent_of input service)) t -> names_outbound outbounds t) ->
  rule_within (intent_of input service) (service_tags service (intent_of input service)) r ->
  forall t, target_of r = Some t -> names_outbound outbounds (tunnelled service t).
Proof.
  intros Hd Hin Hw Hg H0 H1 H2 (action & e & Ht & He & Hu) t Hr. rewrite Ht in Hr. injection Hr as <-.
  pose proof (documents_shape input service Hd) as Hs. rewrite (outbound_tag_target service _ _ _ action e Hs eq_refl eq_refl He).
  destruct (egress_target_in service _ action e Hs He) as [Hb|[[Hb ->]|[Hb Hn]]].
  - rewrite tunnelled_named; [by apply H0|]. apply elem_of_cons in Hb as [->|Hb]; [done|]. by apply list_elem_of_singleton in Hb as ->.
  - rewrite Hb. by eapply H1, provider_named, uses_of, Hu.
  - rewrite tunnelled_named by done. by apply H2.
Qed.

Lemma service_rules_named input service ingress warp wg part outbounds : documents_ok input -> (service, ingress) ∈ services input ->
  warp_outbound input = Ok warp -> wg_outbound input = Ok wg -> service_rules input (service, ingress) = Ok part ->
  (forall t, t ∈ ["block"; "direct"] -> names_outbound outbounds t) -> (forall t, names_outbound (warp ++ wg) t -> names_outbound outbounds t) ->
  (forall t, names_outbound part.1 t -> names_outbound outbounds t) ->
  targets_named outbounds part.2.
Proof.
  intros Hd Hin Hw Hg (rules & Hr & ->)%service_rules_inv H0 H1 H2. cbn [fst snd] in *. unfold targets_named. apply Forall_app. split.
  - unfold private_part. destruct (socket ingress); [|done]. apply list.Forall_singleton. exists "direct". split; [done|]. apply H0. by right; left.
  - apply Forall_app. split; [repeat constructor; exists "block"; (split; [done|]; apply H0; by left)|].
    destruct (intent_rules_within _ _ _ _ (documents_shape input service Hd) Hr) as (raw & -> & Hraw).
    assert (G : Forall (fun r => exists t, target_of r = Some t /\ names_outbound outbounds (tunnelled service t)) raw).
    { eapply Forall_impl; [exact Hraw|]. intros r Hwithin. pose proof Hwithin as (action & e & Ht & _). eexists. split; [exact Ht|].
      by eapply (rule_named input service ingress warp wg r outbounds). }
    unfold maybe_tun. unfold tunnelled in G. destruct (mem_str service TUN_SERVICES); [|exact G]. apply Forall_map.
    eapply Forall_impl; [exact G|]. intros r (t & Ht & Hn). rewrite target_tun, Ht. by eexists.
Qed.

(** ** Chained hops *)

Definition proxies_named (outbounds : list Value) : Prop := Forall (fun o => forall t, proxy_of o = Some t -> names_outbound outbounds t) outbounds.

Lemma chain_part_proxies service e : Forall (fun o => forall t, proxy_of o = Some t -> names_outbound (chain_part service e) t) (chain_part service e).
Proof.
  apply list.Forall_forall. intros o Hin t Ht. unfold names_outbound. rewrite chain_part_tags.
  assert (Hp : Some t ∈ map proxy_of (chain_part service e)) by (rewrite <-Ht; by apply (list_elem_of_fmap_2 proxy_of _ _ Hin)).
  unfold chain_part in Hp. rewrite hop_outbounds_proxies in Hp. destruct (chain_hops e.2) as [|h rest]; [by apply not_elem_of_nil in Hp|].
  apply elem_of_cons in Hp as [?|Hp]; [done|]. apply list_elem_of_In, in_map_iff in Hp as (n & [= <-] & Hn). apply in_seq in Hn.
  apply list_elem_of_In, in_map_iff. exists n. split; [done|]. apply in_seq. cbn [length] in *. lia.
Qed.
Lemma service_proxies service intent : proxies_named (service_outbounds service intent).
Proof.
  unfold proxies_named. unfold service_outbounds at 2. apply Forall_app. split.
  - apply Forall_concat, Forall_map, list.Forall_forall. intros e He. eapply Forall_impl; [apply chain_part_proxies|]. intros o Ho t Ht.
    apply names_app. left. specialize (Ho t Ht). unfold names_outbound in *. rewrite concat_map, map_map. apply list_elem_of_In, in_concat.
    eexists. split; [apply in_map_iff; exists e; split; [reflexivity|by apply list_elem_of_In]|by apply list_elem_of_In].
  - apply Forall_map, list.Forall_forall. intros e _ t Ht. done.
Qed.
(** ** Distinct tags *)

Definition tag_part (i : nat) (t : option string) : option string := t ← t; split_byte colon t !! i.

Lemma service_parts service rest : service ∈ SERVICES -> split_byte colon (service +:+ ":" +:+ rest) = service :: split_byte colon rest.
Proof.
  intros Hs. change (":" +:+ rest) with (String colon rest). rewrite split_app.
  assert (split_byte colon service = [service]) as ->; [|done].
  apply list_elem_of_In in Hs. cbn in Hs. by repeat destruct Hs as [<-|Hs].
Qed.
Lemma word_parts id : is_short_word id = true -> split_byte colon id = [id].
Proof. intros H. unfold is_short_word, word in H. apply andb_prop in H as [_ H]. by eapply split_whole. Qed.

Lemma hop_parts service id n : service ∈ SERVICES -> is_short_word id = true ->
  split_byte colon (hop_tag service id n) = ["chain"; service; id; fmt_N (N.of_nat n)].
Proof.
  intros Hs Hi. unfold hop_tag. change ("chain:" +:+ ?x) with ("chain" +:+ String colon x). rewrite split_app.
  rewrite service_parts by done. change (id +:+ ":" +:+ ?x) with (id +:+ String colon x). rewrite split_app, (word_parts id) by done.
  by rewrite split_fmt_N.
Qed.
Lemma exit_parts service id : service ∈ SERVICES -> is_short_word id = true -> split_byte colon (exit_tag service id) = ["exit"; service; id].
Proof.
  intros Hs Hi. unfold exit_tag. change ("exit:" +:+ ?x) with ("exit" +:+ String colon x). rewrite split_app.
  by rewrite service_parts, (word_parts id).
Qed.

(** Blocks whose elements carry distinct keys share none. *)
Lemma keyed_concat {A B K} (key : B -> K) (f : A -> list B) (k : A -> K) (l : list A) : NoDup (map k l) ->
  (forall a, a ∈ l -> NoDup (f a) /\ forall b, b ∈ f a -> key b = k a) -> NoDup (concat (map f l)).
Proof.
  induction l as [|a l IH]; intros Hk Hf; [constructor|]. cbn [map concat] in *. apply NoDup_cons in Hk as [Ha Hk].
  apply NoDup_app. split; [by apply Hf; left|]. split; [|apply IH; [done|]; intros; apply Hf; by right].
  intros b Hb Hin. apply list_elem_of_In, in_concat in Hin as (block & Hblock & Hin). apply in_map_iff in Hblock as (a' & <- & Ha').
  apply list_elem_of_In in Hin, Ha'. apply Ha. assert (a ∈ a :: l) as Hl by by left. rewrite <-(proj2 (Hf a Hl) b Hb).
  assert (a' ∈ a :: l) as Hl' by by right. rewrite (proj2 (Hf a' Hl') b Hin). by apply (list_elem_of_fmap_2 k).
Qed.

Lemma service_tags_distinct service intent : service ∈ SERVICES -> intent_shape intent ->
  NoDup (map tag_of (service_outbounds service intent))
  /\ forall t, t ∈ map tag_of (service_outbounds service intent) -> tag_part 1 t = Some service.
Proof.
  intros Hin Hs. rewrite service_tags_of. destruct Hs as [action e items _ Hch Hx _ _ _|lanes chains exits -> Hw Kc Kx].
  { rewrite Hch, Hx. split; [constructor|by intros t ?%not_elem_of_nil]. }
  rewrite get_chains, get_exits. cbn [as_entries].
  assert (Hc : forall e, e ∈ chains -> is_short_word e.1 = true).
  { intros e He. pose proof (vw_chains _ _ _ Hw) as G. rewrite list.Forall_forall in G. by apply G in He as [? _]. }
  assert (Hx : forall e, e ∈ exits -> is_short_word e.1 = true).
  { intros e He. pose proof (vw_exits _ _ _ Hw) as G. rewrite list.Forall_forall in G. by apply G in He as [? _]. }
  set (hops := concat _).
  assert (Hhops : forall t, t ∈ hops -> exists id n, is_short_word id = true /\ t = Some (hop_tag service id n)).
  { intros t (block & Hb & Ht)%list_elem_of_In%in_concat. apply in_map_iff in Hb as (e & <- & He). apply in_map_iff in Ht as (n & <- & _).
    exists e.1, n. split; [|done]. by apply Hc, list_elem_of_In. }
  assert (Hexits : forall t, t ∈ map (fun e => Some (exit_tag service e.1)) exits -> exists id, is_short_word id = true /\ t = Some (exit_tag service id)).
  { intros t (e & -> & He)%list_elem_of_fmap. exists e.1. split; [by apply Hx|done]. }
  split.
  - apply NoDup_app. split; [|split].
    + apply (keyed_concat (tag_part 2) _ (fun e => Some e.1)).
      * unfold iok, bkeys in Kc. rewrite <-(map_map fst Some). apply NoDup_fmap_2; [|done]. by intros ? ? [= ?].
      * intros e He. split.
        -- apply NoDup_fmap_2_strong; [|apply NoDup_seq]. intros x y _ _ Heq%(inj Some).
           assert (Hp : split_byte colon (hop_tag service e.1 x) = split_byte colon (hop_tag service e.1 y)) by by rewrite Heq.
           rewrite !hop_parts in Hp by auto. injection Hp as Hp%fmt_N_inj. lia.
        -- intros t (n & -> & _)%list_elem_of_fmap. cbn [tag_part mbind option_bind]. by rewrite hop_parts by auto.
    + intros t (id & n & Hi & ->)%Hhops (id' & Hi' & Heq)%Hexits. done.
    + rewrite <-(map_map fst (fun id => Some (exit_tag service id))). apply NoDup_fmap_2_strong; [|exact Kx].
      intros x y (e & -> & He)%list_elem_of_fmap (e' & -> & He')%list_elem_of_fmap Heq%(inj Some).
      assert (Hp : split_byte colon (exit_tag service e.1) = split_byte colon (exit_tag service e'.1)) by by rewrite Heq.
      rewrite !exit_parts in Hp by auto. by injection Hp.
  - intros t [(id & n & Hi & ->)%Hhops|(id & Hi & ->)%Hexits]%elem_of_app; cbn [tag_part mbind option_bind];
      by rewrite ?hop_parts, ?exit_parts by done.
Qed.

Lemma services_known input service ingress : (service, ingress) ∈ services input -> service ∈ SERVICES.
Proof.
  intros (s & Hs & He)%list_elem_of_omap. destruct (by_tag input s); [|done]. by simplify_eq/=.
Qed.

Lemma warp_tags input warp : warp_outbound input = Ok warp -> map tag_of warp ∈ [[]; [Some "warp"]].
Proof.
  unfold warp_outbound. destruct (needs_warp input); intros H; [|apply Ok_inj in H as <-; by left].
  inv_binds. destruct a as [host port]. apply Ok_inj in H as <-. by right; left.
Qed.
Lemma wg_tags input wg : wg_outbound input = Ok wg -> map tag_of wg ∈ [[]; [Some WARP_WG_TAG]].
Proof.
  unfold wg_outbound. destruct (needs_wg input); [|intros H; apply Ok_inj in H as <-; by left].
  destruct (warp_wg input); [|done]. intros H. apply Ok_inj in H as <-. by right; left.
Qed.

Lemma parts_tags input parts : Forall2 (fun s part => service_rules input s = Ok part) (services input) parts ->
  map fst parts = map (fun s => service_outbounds s.1 (intent_of input s.1)) (services input).
Proof.
  induction 1 as [|[service ingress] part ss parts Hp _ IH]; [done|]. cbn [map fst]. rewrite IH.
  by apply service_rules_inv in Hp as (rules & _ & ->).
Qed.

(** ** The rest of the configuration *)

Lemma warp_proxies input warp (P : Value -> string -> Prop) : warp_outbound input = Ok warp -> Forall (fun o => forall t, proxy_of o = Some t -> P o t) warp.
Proof.
  unfold warp_outbound. destruct (needs_warp input); intros H; [|by apply Ok_inj in H as <-].
  inv_binds. destruct a as [host port]. apply Ok_inj in H as <-. by repeat constructor.
Qed.
Lemma wg_proxies input wg (P : Value -> string -> Prop) : wg_outbound input = Ok wg -> Forall (fun o => forall t, proxy_of o = Some t -> P o t) wg.
Proof.
  unfold wg_outbound. destruct (needs_wg input); [|intros H; by apply Ok_inj in H as <-].
  destruct (warp_wg input); [|done]. intros H. apply Ok_inj in H as <-. by repeat constructor.
Qed.
Lemma relay_rules_named input warp outbounds : warp_outbound input = Ok warp ->
  (forall t, t ∈ ["block"; "direct"] -> names_outbound outbounds t) -> (forall t, names_outbound warp t -> names_outbound outbounds t) ->
  targets_named outbounds (relay_rules input).
Proof.
  intros Hw H0 H1. unfold relay_rules. destruct (relay input) as [r|] eqn:Hr; [|constructor]. unfold targets_named.
  apply Forall_app. split; [repeat constructor; exists "block"; (split; [done|]; apply H0; by left)|]. apply Forall_app. split.
  - destruct (relay_warp input) as [|u us] eqn:Hu; [constructor|]. apply list.Forall_singleton. exists "warp". split; [done|].
    apply H1, (warp_outbound_named input); [done|]. unfold needs_warp. rewrite Hu. apply orb_true_r.
  - apply list.Forall_singleton. exists "direct". split; [done|]. apply H0. by right; left.
Qed.

(** ** The theorems *)

Lemma names_concat (l : list (list Value)) a t : a ∈ l -> names_outbound a t -> names_outbound (concat l) t.
Proof.
  intros Ha Hn. unfold names_outbound in *. rewrite concat_map. apply list_elem_of_In, in_concat. exists (map tag_of a).
  split; [|by apply list_elem_of_In]. apply in_map. by apply list_elem_of_In.
Qed.

(** C23: A rendered configuration is closed: every rule names an outbound of the configuration and every
    chained hop is dialled through one, so no connection meets an outbound that is not there; the WARP
    outbounds are there exactly because a document or a relay account uses them. *)
Theorem render_closed input config (Hdocs : documents_ok input) (Hrender : render_config input = Ok config) :
  targets_named (outbounds_of config) (rules_of config) /\ proxies_named (outbounds_of config).
Proof.
  apply render_inv in Hrender as (inbounds & warp & wg & parts & Hw & Hg & Hparts & ->).
  change (outbounds_of _) with ([block_outbound; direct_outbound] ++ warp ++ wg ++ concat (map fst parts)).
  change (rules_of _) with (concat (map snd parts) ++ relay_rules input). set (all := _ ++ warp ++ _).
  assert (H0 : forall t, t ∈ ["block"; "direct"] -> names_outbound all t).
  { intros t Ht. apply names_app. left. apply elem_of_cons in Ht as [->|Ht]; [by left|]. apply list_elem_of_singleton in Ht as ->. by right; left. }
  assert (H1 : forall t, names_outbound (warp ++ wg) t -> names_outbound all t).
  { intros t Ht. apply names_app. right. rewrite app_assoc. apply names_app. by left. }
  assert (H2 : forall part t, part ∈ parts -> names_outbound part.1 t -> names_outbound all t).
  { intros part t Hin Ht. apply names_app. right. rewrite app_assoc. apply names_app. right. eapply names_concat; [|exact Ht].
    by apply list_elem_of_In, in_map, list_elem_of_In. }
  split.
  - apply Forall_app. split; [|apply (relay_rules_named input warp); [done|done|]; intros t Ht; apply H1, names_app; by left].
    apply Forall_concat, Forall_map, list.Forall_forall. intros part Hin.
    destruct (proj1 (list_elem_of_lookup _ _) Hin) as (i & Hi). destruct (Forall2_lookup_r _ _ _ _ _ Hparts Hi) as ([service ingress] & Hs & Hp).
    eapply (service_rules_named input service ingress warp wg); [done|by eapply list_elem_of_lookup_2|done|done|done|done|done|by intros t Ht; apply (H2 part t Hin)].
  - unfold proxies_named. unfold all at 2. repeat (apply Forall_app; split).
    + by repeat constructor.
    + by eapply warp_proxies.
    + by eapply wg_proxies.
    + apply Forall_concat. rewrite (parts_tags input parts Hparts). apply Forall_map, list.Forall_forall. intros [service ingress] Hin. cbn [fst].
      eapply Forall_impl; [apply service_proxies|]. intros o Ho t Ht. specialize (Ho t Ht). apply names_app. right. rewrite app_assoc. apply names_app. right.
      eapply names_concat; [|exact Ho]. rewrite (parts_tags input parts Hparts). apply (list_elem_of_fmap_2 (fun s => service_outbounds s.1 (intent_of input s.1)) _ _ Hin).
Qed.
(** C24: No two outbounds of a rendered configuration share a tag: not the hops of two chains, not a chain
    and an exit of one name, not those of two services. *)
Theorem outbounds_distinct input config (Hdocs : documents_ok input) (Hrender : render_config input = Ok config) :
  NoDup (map tag_of (outbounds_of config)).
Proof.
  apply render_inv in Hrender as (inbounds & warp & wg & parts & Hw & Hg & Hparts & ->).
  change (outbounds_of _) with ([block_outbound; direct_outbound] ++ warp ++ wg ++ concat (map fst parts)).
  rewrite (parts_tags input parts Hparts), !map_app, concat_map, map_map. apply warp_tags in Hw. apply wg_tags in Hg.
  rewrite (app_assoc (map tag_of warp)), app_assoc. apply NoDup_app. split; [|split].
  - apply elem_of_cons in Hw as [->| ->%list_elem_of_singleton]; apply elem_of_cons in Hg as [->| ->%list_elem_of_singleton]; by apply (bool_decide_unpack _).
  - intros t Ht (block & Hb & Hin)%list_elem_of_In%in_concat. apply in_map_iff in Hb as ([service ingress] & <- & Hs).
    apply list_elem_of_In in Hs, Hin. cbn [fst] in Hin. apply (service_tags_distinct service) in Hin; [|by eapply services_known|by apply documents_shape].
    assert (G : tag_part 1 t = None); [|congruence].
    apply elem_of_cons in Hw as [Hw|Hw%list_elem_of_singleton]; apply elem_of_cons in Hg as [Hg|Hg%list_elem_of_singleton]; rewrite Hw, Hg in Ht;
      apply list_elem_of_In in Ht; cbn in Ht; by repeat destruct Ht as [<-|Ht].
  - apply (keyed_concat (tag_part 1) _ (fun s => Some s.1)).
    + rewrite <-(map_map fst Some). apply NoDup_fmap_2; [by intros ? ? [= ?]|apply services_nodup].
    + intros [service ingress] Hin. cbn [fst]. apply service_tags_distinct; [by eapply services_known|by apply documents_shape].
Qed.
End closed.
