(* ===== verification/RouterWarp.v ===== *)
(** * The router's WARP account

    [xray_router_manager/src/warp.rs]: Python's base64 decoder in both modes, the registration of a
    WireGuard key pair at Cloudflare's interface and the test of the account that is kept. The request
    itself is the argument [opener]: a body answered by a status and perhaps a JSON value. *)

From S2P Require Import Prelude BTree Utf8 Numeric Json PyText IndexMap Plan IpAddr AwgKeys RouterIp RouterIntent.

(** ** Base64 *)

Local Open Scope N_scope.

Definition sextet (c : Ascii.ascii) : option N :=
  let n := Ascii.N_of_ascii c in
  if (65 <=? n) && (n <=? 90) then Some (n - 65)
  else if (97 <=? n) && (n <=? 122) then Some (n - 97 + 26)
  else if (48 <=? n) && (n <=? 57) then Some (n - 48 + 52)
  else if n =? 43 then Some 62
  else if n =? 47 then Some 63
  else None.

(** What [a2b_base64] keeps between two characters: the bytes so far, the place in the group of four,
    the bits left over, the padding counted in the group, and whether there was any. *)
Record B64State := { b64_out : string; quad : N; left : N; pads : N; padding : bool }.
Definition b64_start : B64State := {| b64_out := EmptyString; quad := 0; left := 0; pads := 0; padding := false |}.

(** The [match quad]: a sextet taken in. *)
Definition take_sextet (value : N) (s : B64State) : B64State :=
  let next bytes quad left := {| b64_out := b64_out s +:+ bytes; quad := quad; left := left; pads := 0; padding := padding s |} in
  let emit n := String (byte n) EmptyString in
  if quad s =? 0 then next EmptyString 1 value
  else if quad s =? 1 then next (emit (N.lor (N.shiftl (left s) 2) (N.shiftr value 4))) 2 (N.land value 0x0f)
  else if quad s =? 2 then next (emit (N.lor (N.shiftl (left s) 4) (N.shiftr value 2))) 3 (N.land value 0x03)
  else next (emit (N.lor (N.shiftl (left s) 6) value)) 0 0.

Fixpoint a2b_from (strict : bool) (data : string) (s : B64State) : option string :=
  match data with
  | EmptyString => if quad s =? 0 then Some (b64_out s) else None
  | String c rest =>
      if Ascii.eqb c "="%char then
        if strict && (quad s =? 0) then None else
        let pads := if 2 <=? quad s then pads s + 1 else pads s in
        if (2 <=? quad s) && (4 <=? quad s + pads)
        then if strict && negb (str_empty rest) then None else Some (b64_out s)
        else a2b_from strict rest {| b64_out := b64_out s; quad := quad s; left := left s; pads := pads; padding := true |}
      else match sextet c with
           | None => if strict then None else a2b_from strict rest s
           | Some value => if strict && padding s then None else a2b_from strict rest (take_sextet value s)
           end
  end.

Definition a2b_base64 (data : string) (strict : bool) : option string :=
  if strict && is_byte "="%char (first_byte data) then None else a2b_from strict data b64_start.

Definition is_ascii_text (text : string) : bool := forallb_s (fun a => Ascii.N_of_ascii a <? 128) text.

Definition b64decode_strict (value : Value) : option string :=
  text ← as_str value;
  if is_ascii_text text then a2b_base64 text true else None.

(** [-] and [_] of the URL alphabet. *)
Fixpoint translate (text : string) : string :=
  match text with
  | EmptyString => EmptyString
  | String b rest =>
      String (if Ascii.eqb b "-"%char then "+"%char else if Ascii.eqb b "_"%char then "/"%char else b) (translate rest)
  end.

(** ** Texts and values *)

(** [IPv4Address(value)]. *)
Definition ipv4 (value : Value) : option N :=
  match value with
  | Str text => parse_v4 text
  | Bool flag => Some (if flag then 1 else 0)
  | v => n ← strict_int v; if ((0 <=? n) && (n <? 2 ^ 32))%Z then Some (Z.to_N n) else None
  end.

(** [value.get(0)] of a JSON value. *)
Definition first_item (value : Value) : option Value := match value with Array (v :: _) => Some v | _ => None end.

Definition API : string := "https://api.cloudflareclient.com/v0a5641".
Definition WARP_PORT : N := 2408.

Abbreviation Warp := (result string).

Section warp.
Context {FT : FloatText} {B64 : Base64}.

Definition standard_b64 (urlsafe : string) : Warp string :=
  if negb (is_ascii_text urlsafe) then Err "the key pair is not base64url" else
  let padded := urlsafe +:+ str_repeat ((4 - String.length urlsafe mod 4) mod 4) "=" in
  raw ← a2b_base64 (translate padded) false or_err "the key pair is not base64url";
  if negb (String.length raw =? 32)%nat then Err "the key pair is not 32 bytes" else Ok (encode raw).

(** [pyjson::DEFAULT]. *)
Definition DEFAULT : Options :=
  {| indent := None; separators := None; sort_keys := false; ensure_ascii := true; numbers := NumPython FloatRustShortest |}.

(** [str(value)] of a scalar. *)
Definition py_str_of (value : Value) : string :=
  match value with
  | Str text => text
  | Null => "None"
  | Bool true => "True"
  | Bool false => "False"
  | other => dumps other DEFAULT
  end.

Definition registration (public tos : string) : string :=
  dumps (Object [("key", Str public); ("install_id", Str EmptyString); ("fcm_token", Str EmptyString); ("tos", Str tos);
                 ("model", Str "PC"); ("serial_number", Str EmptyString); ("locale", Str "en_US")]) DEFAULT.

Definition key_length (key : Value) : option nat := String.length <$> b64decode_strict key.

Definition shape : string := "WARP registration answered an unexpected shape".

(** What the interface answered, as the stored account. *)
Definition account_of_answer (private tos : string) (data : imap Value) : Warp Value :=
  config ← bget "config" data or_err shape;
  peer ← (get "peers" config ≫= first_item) or_err shape;
  address ← (((get "interface" config ≫= get "addresses") ≫= get "v4") ≫= ipv4) or_err shape;
  endpoint ← ((get "endpoint" peer ≫= get "v4") ≫= as_str) or_err shape;
  let host := match rsplit_byte ":"%char endpoint with Some (host, _) => host | None => endpoint end in
  endpoint ← parse_v4 host or_err shape;
  peer_key ← get "public_key" peer or_err shape;
  if negb (bool_decide (key_length peer_key = Some 32%nat)) then Err shape else
  device_id ← bget "id" data or_err shape;
  token ← bget "token" data or_err shape;
  if str_empty (py_str_of device_id) || str_empty (py_str_of token) then Err shape else
  Ok (Object [("id", Str (py_str_of device_id)); ("token", Str (py_str_of token)); ("private_key", Str private);
              ("address", Str (ipv4_str address)); ("peer_public_key", peer_key);
              ("endpoint", Str (ipv4_str endpoint +:+ ":" +:+ fmt_N WARP_PORT)); ("registered_at", Str tos)]).

Definition register {H} (opener : string -> H -> Warp (N * option Value) * H) (keypair : string * string) (tos : string) (h : H) : Warp Value * H :=
  match standard_b64 keypair.1, standard_b64 keypair.2 with
  | Err e, _ => (Err e, h)
  | Ok _, Err e => (Err e, h)
  | Ok private, Ok public =>
      let '(answer, h) := opener (registration public tos) h in
      (match answer with
       | Err e => Err e
       | Ok (status, Some (Object data)) =>
           if status =? 200 then account_of_answer private tos data else Err ("WARP registration refused (HTTP " +:+ fmt_N status +:+ ")")
       | Ok (status, _) => Err ("WARP registration refused (HTTP " +:+ fmt_N status +:+ ")")
       end, h)
  end.
End warp.

Section account.
Context {UT : UnicodeText}.

Definition valid_account (account : Value) : bool :=
  match account with
  | Object account =>
      forallb (fun key => bool_decide ((bget key account ≫= key_length) = Some 32%nat)) ["private_key"; "peer_public_key"]
      && bool_decide (is_Some (bget "address" account ≫= ipv4))
      && match bget "endpoint" account ≫= as_str with
         | None => false
         | Some endpoint =>
             let '(host, port) := default (EmptyString, endpoint) (rsplit_byte ":"%char endpoint) in
             bool_decide (is_Some (parse_v4 host))
             && match py_int port 10 with Some port => (0 <? port)%Z && (port <? 65536)%Z | None => false end
         end
      && match bget "id" account with Some id => truthy id | None => false end
      && match bget "token" account with Some token => truthy token | None => false end
  | _ => false
  end.
End account.
