(* ===== verification/RouterNode.v ===== *)
(** * The node under the Xray-router manager

    What [xray_router_manager/src/service.rs] keeps and touches: the files of its state directory (byte
    texts, as the code writes and reads them), the manager's own memory, and the machine, whose disk,
    Xray processes, network, clock and random source are the class [Machine]. Every change of the state
    directory and every call of Xray leaves an event. *)

From S2P Require Import Prelude BTree Utf8 Numeric Json PyText IndexMap Plan IpAddr AwgKeys Effect.
From S2P Require Import RouterIp RouterIntent RouterRender RouterWarp.

(** ** The state directory *)

Inductive RFile :=
| Generation (number : Z) | StateFile | CurrentFile | JournalFile | LanesFile | RelayFile | WarpFile | MtproxyFile
| CandidateFile | ExitTestFile.
#[export] Instance RFile_eq_dec : EqDecision RFile.
Proof. solve_decision. Defined.

Definition file_name (f : RFile) : string :=
  match f with
  | Generation n => "generations/" +:+ fmt_Z n +:+ ".json"
  | StateFile => "state.json"
  | CurrentFile => "current.json"
  | JournalFile => "journal.json"
  | LanesFile => "lanes.json"
  | RelayFile => "relay.json"
  | WarpFile => "warp-wg.json"
  | MtproxyFile => "ingress-mtproxy.json"
  | CandidateFile => ".plan.json"
  | ExitTestFile => "exit-test.json"
  end.

(** [PathBuf::join] of a relative name. *)
Definition join_path (base name : string) : string :=
  if str_empty base || is_byte "/"%char (last_byte base) then base +:+ name else base +:+ "/" +:+ name.

Abbreviation Files := (RFile -> option string).
Definition set_text (f : RFile) (text : option string) (files : Files) : Files := fun g => if decide (g = f) then text else files g.

(** ** The machine *)

(** How [atomic_write] ends: the file is replaced; it is not; it is, but the directory was not synced. *)
Inductive Written := Replaced | NotReplaced (error : string) | NotSynced (error : string).

Class Machine (H : Type) := {
  disk_put : string -> string -> H -> Written * H;
  disk_unlink : string -> H -> option string * H;                          (** [unlink_missing_ok]: its error *)
  disk_read_error : string -> H -> option string;                          (** [fs::read] of a file that is there *)
  read_text : string -> H -> option string;                                (** [fs::read_to_string] of a credential *)
  read_artifact : string -> H -> option string;
  device_exists : string -> H -> bool;
  device_index : string -> H -> option string;
  xray_version : H -> Checked string * H;
  xray_x25519 : H -> Checked (string * string) * H;
  xray_test : string -> option string -> H -> Checked unit * H;            (** with the text of the file *)
  xray_start : string -> option string -> option string -> H -> Checked N * H;
  xray_stop : N -> H -> H;
  xray_alive : N -> H -> bool * H;
  xray_ready : list Z -> list string -> H -> Checked unit * H;
  reachability : option string -> H -> bool * H;
  hop_reachability : string -> Value -> string -> H -> bool * H;
  exit_prober : N -> H -> result string Value * H;
  free_port : H -> Checked N * H;
  warp_opener : string -> H -> result string (N * option Value) * H;
  now_iso : H -> string * H;
  tos_now : H -> string * H;
  latency : H -> N;
  entropy : nat -> H -> string * H;
  geodata_meta : H -> Value;
  geodata_seed : H -> Checked unit * H;                                    (** [ensure_seed], [follow_seed] *)
}.

(** [base64::URL_SAFE_NO_PAD]. *)
Class UrlBase64 := { encode_url : string -> string }.
(** [serde_json::from_slice]. *)
Class SerdeJson := { from_slice : string -> option Value }.

(** ** The node *)

Record Inner := {
  handle : option N;
  artifact_error : option string;
  artifact_report : imap Value;
  inner_xray_version : option string;
  started_at : option string;
  tun_rendered : option bool;
  tun_ifindex : option string;
}.
Definition no_inner : Inner :=
  {| handle := None; artifact_error := None; artifact_report := []; inner_xray_version := None; started_at := None;
     tun_rendered := None; tun_ifindex := None |}.

(** [Stored]: the state directory after a change of it; [Restarted]: the manager's container, with every process
    of it, went away and came back; the others are answers of Xray. *)
Inductive Event :=
| Stored (files : Files)
| Tested (text : option string) (passed : bool)
| Started (f : RFile) (process : N) (text : option string)
| Ready (process : N)
| Stopped (process : N)
| FoundDead (process : N)
| Restarted.

Record Node (H : Type) := { n_files : Files; n_inner : Inner; n_host : H; n_trace : list Event }.
Arguments n_files {H} n. Arguments n_inner {H} n. Arguments n_host {H} n. Arguments n_trace {H} n.

(** What the manager is built with, after [XrayRouterManager::new]. *)
Record Router := {
  state_dir : string;
  r_services : list string;
  r_ports : imap Z;
  ingress_files : imap string;
  r_warp_url : option string;
  artifacts : list (string * string * string);
  mtproxy_socket : option string;
  amneziawg_tun : option string;
  net_root : string;
  seeded : bool;          (** the geodata store has the seed of both lists *)
}.

Record Options := {
  o_state_dir : string;
  o_ingress_files : imap string;
  o_warp_url : option string;
  o_artifacts : list (string * string * string);
  o_ports : option Ports;
  o_mtproxy_socket : option string;
  o_trusttunnel_port : option Z;
  o_amneziawg_tun : option string;
  o_net_root : string;
}.

Definition nonempty (text : option string) : option string := match text with Some t => if str_empty t then None else Some t | None => None end.

(** [XrayRouterManager::new]. *)
Definition router_new (o : Options) : Router :=
  let served tag :=
    (negb (tag =?s "mtproxy") || bool_decide (is_Some (o_mtproxy_socket o)))
    && (negb (tag =?s "trusttunnel") || bool_decide (is_Some (o_trusttunnel_port o)))
    && (negb (tag =?s "amneziawg") || bool_decide (is_Some (o_amneziawg_tun o))) in
  let ports := match o_ports o with Some ((_ :: _) as ports) => ports | _ => default_ports end in
  {| state_dir := o_state_dir o;
     r_services := List.filter served SERVICES;
     r_ports := match o_trusttunnel_port o with Some port => bset "trusttunnel" port ports | None => ports end;
     ingress_files := o_ingress_files o;
     r_warp_url := nonempty (o_warp_url o);
     artifacts := o_artifacts o;
     mtproxy_socket := o_mtproxy_socket o;
     amneziawg_tun := nonempty (o_amneziawg_tun o);
     net_root := o_net_root o;
     seeded := forallb (fun name => existsb (fun a => a.1.1 =?s name) (o_artifacts o)) ["geosite"; "geoip"] |}.

(** ** The primitives *)

Section node.
Context {H : Type} {MH : Machine H} {FT : FloatText} {SJ : SerdeJson}.
Context (r : Router).

Abbreviation RM := (Eff RouterError (Node H)).

Definition set_files (files : Files) (n : Node H) : Node H := {| n_files := files; n_inner := n_inner n; n_host := n_host n; n_trace := n_trace n ++ [Stored files] |}.
Definition set_inner (inner : Inner) (n : Node H) : Node H := {| n_files := n_files n; n_inner := inner; n_host := n_host n; n_trace := n_trace n |}.
Definition set_host (h : H) (n : Node H) : Node H := {| n_files := n_files n; n_inner := n_inner n; n_host := h; n_trace := n_trace n |}.
Definition happened (e : Event) (n : Node H) : Node H := {| n_files := n_files n; n_inner := n_inner n; n_host := n_host n; n_trace := n_trace n ++ [e] |}.

Definition path_of (f : RFile) : string := join_path (state_dir r) (file_name f).

Definition asks {A} (f : H -> A) : RM A := fun n => (Ok (f (n_host n)), n).
Definition act {A} (f : H -> A * H) : RM A := fun n => let '(a, h) := f (n_host n) in (Ok a, set_host h n).
(** A fallible call of the machine. *)
Definition attempt {A} (f : H -> Checked A * H) : RM A := fun n => let '(a, h) := f (n_host n) in (a, set_host h n).
(** [match m { Err(..) => .. }]: the outcome as a value. *)
Definition outcome {A} (m : RM A) : RM (Checked A) := fun n => let '(a, n') := m n in (Ok a, n').

(** [atomic_write] into the state directory. *)
Definition put_text (f : RFile) (text : string) : RM unit := fun n =>
  let '(w, h) := disk_put (path_of f) text (n_host n) in
  match w with
  | Replaced => (Ok tt, set_files (set_text f (Some text) (n_files n)) (set_host h n))
  | NotReplaced e => (Err (Internal e), set_host h n)
  | NotSynced e => (Err (Internal e), set_files (set_text f (Some text) (n_files n)) (set_host h n))
  end.

(** [unlink_missing_ok]. *)
Definition unlink (f : RFile) : RM unit := fun n =>
  let '(e, h) := disk_unlink (path_of f) (n_host n) in
  match e with
  | None => (Ok tt, set_files (set_text f None (n_files n)) (set_host h n))
  | Some e => (Err (Internal e), set_host h n)
  end.

(** A file that is not of the state directory. *)
Definition put_elsewhere (path text : string) : RM unit := fun n =>
  let '(w, h) := disk_put path text (n_host n) in
  (match w with Replaced => Ok tt | NotReplaced e | NotSynced e => Err (Internal e) end, set_host h n).
Definition unlink_elsewhere (path : string) : RM unit := fun n =>
  let '(e, h) := disk_unlink path (n_host n) in
  (match e with None => Ok tt | Some e => Err (Internal e) end, set_host h n).

Definition file_exists (f : RFile) : RM bool := inspect (fun n => bool_decide (is_Some (n_files n f))).

Definition read_json (f : RFile) (default : Value) : RM Value := fun n =>
  match n_files n f with
  | None => (Ok default, n)
  | Some text =>
      match disk_read_error (path_of f) (n_host n) with
      | Some e => (Err (Internal e), n)
      | None =>
          (match from_slice text with Some v => Ok v | None => Err (Manual (path_of f +:+ " is not valid JSON")) end, n)
      end
  end.

Definition file_text (value : Value) : string := dumps value SORTED +:+ nl.
Definition write_json (f : RFile) (value : Value) : RM unit := put_text f (file_text value).

(** ** Xray *)

(** [xray run -test] of a file. *)
Definition run_test (f : RFile) : RM unit := fun n =>
  let text := n_files n f in
  let '(a, h) := xray_test (path_of f) text (n_host n) in
  (a, happened (Tested text (match a with Ok _ => true | Err _ => false end)) (set_host h n)).

Definition run_start (f : RFile) (tun : option string) : RM N := fun n =>
  let text := n_files n f in
  let '(a, h) := xray_start (path_of f) text tun (n_host n) in
  (a, match a with Ok p => happened (Started f p text) (set_host h n) | Err _ => set_host h n end).

Definition run_stop (process : N) : RM unit := fun n =>
  (Ok tt, happened (Stopped process) (set_host (xray_stop process (n_host n)) n)).

Definition run_alive (process : N) : RM bool := fun n =>
  let '(alive, h) := xray_alive process (n_host n) in
  (Ok alive, if (alive : bool) then set_host h n else happened (FoundDead process) (set_host h n)).

Definition run_ready (process : N) (ports : list Z) (sockets : list string) : RM unit := fun n =>
  let '(a, h) := xray_ready ports sockets (n_host n) in
  (a, match a with Ok _ => happened (Ready process) (set_host h n) | Err _ => set_host h n end).

Definition change_inner (f : Inner -> Inner) : RM unit := update (fun n => set_inner (f (n_inner n)) n).
End node.
