(* ===== verification/RouterService.v ===== *)
(** * The Xray-router manager's service

    [xray_router_manager/src/service.rs]: generations of the Xray configuration and their swap, the journal
    of each service's document, the lanes' accounts and the relay, the start and the watchdog. The geodata
    requests are not here ([geodata.rs] is file and network code); a request that takes the manager's lock
    is a transition of the [Node]. *)

From S2P Require Import Prelude BTree Utf8 Numeric Json PyText IndexMap Plan IpAddr Difflib AwgKeys Effect.
From S2P Require Import RouterIp RouterIntent RouterRender RouterWarp RouterNode.

Definition CAPABILITIES_V2 : list string := ["lanes"; "chains"; "relay"].
Definition HISTORY_LIMIT : nat := 10.
Definition MAX_START_FAILURES : Z := 3.
Definition TRACE_HOST : string := "www.cloudflare.com".
Definition MTPROXY_BRIDGE_ADDRESS : string := "xray-router-ingress:45103".
Definition RENDER_VERSION : string := "2".

(** ** Texts *)

Definition len_within (low high : nat) (text : string) : bool := ((low <=? String.length text) && (String.length text <=? high))%nat.
Definition byte_in (set : list Ascii.ascii) (b : Ascii.ascii) : bool := existsb (Ascii.eqb b) set.

Definition is_operation_id (text : string) : bool :=
  len_within 1 128 text && forallb_s (fun b => is_alphanum b || byte_in ["."%char; "_"%char; ":"%char; "-"%char] b) text.

Definition credential (text : string) : option (string * string) :=
  '(user, password) ← split_once colon text;
  let user_ok := len_within 1 64 user && forallb_s (fun b => is_alphanum b || byte_in ["."%char; "_"%char; "-"%char] b) user in
  let password_ok := len_within 16 128 password
    && forallb_s (fun b => is_alphanum b || byte_in ["."%char; "_"%char; "~"%char; "-"%char] b) password in
  if user_ok && password_ok then Some (user, password) else None.

Definition is_relay_email (text : string) : bool :=
  match strip_prefix "relay:" text with
  | None => false
  | Some rest =>
      match rsplit_byte ":"%char rest with
      | None => false
      | Some (source, exit) => word source 1 64 && mem_str exit ["direct"; "warp"]
      end
  end.

(** [text.find(pattern)]. *)
Fixpoint find_s (pattern s : string) : option nat :=
  if String.prefix pattern s then Some O
  else match s with EmptyString => None | String _ s' => S <$> find_s pattern s' end.

(** [xray run -test] refused a generation: the list whose unknown code is named first. *)
Definition test_failure (message : string) : RouterError :=
  let lower := ascii_lower message in
  let code := match find_s "code not found in geosite.dat" lower, find_s "code not found in geoip.dat" lower with
              | Some site, Some ip => if (site <? ip)%nat then "geosite_unknown" else "geoip_unknown"
              | Some _, None => "geosite_unknown"
              | None, Some _ => "geoip_unknown"
              | None, None => "egress_invalid"
              end in
  EgressInvalid ("xray refused the generation: " +:+ tail_chars message 300) code.

Definition generation_number (current : Value) : Checked Z := (get "generation" current ≫= as_i64) or_err Internal "'generation'".
(** [n + 1] of an [i64]. *)
Definition succ_i64 (n : Z) : Z := ((n + 1 + 2 ^ 63) mod 2 ^ 64 - 2 ^ 63)%Z.

Definition object (value : Value) (what : string) : Checked (imap Value) := as_object value or_err Internal (what +:+ " is not an object").

(** Equality of JSON values: objects whatever the order of their entries. *)
Fixpoint json_eq (a b : Value) : bool :=
  match a, b with
  | Null, Null => true
  | Bool a, Bool b => Bool.eqb a b
  | Num a, Num b => number_eqb a b
  | Str a, Str b => a =?s b
  | Array a, Array b =>
      (fix go a b := match a, b with
        | [], [] => true
        | x :: a', y :: b' => json_eq x y && go a' b'
        | _, _ => false
        end) a b
  | Object a, Object b =>
      (length a =? length b)%nat
      && forallb (fun e => match bget e.1 b with Some other => json_eq e.2 other | None => false end) a
  | _, _ => false
  end.

(** [map.entry(key).or_insert(value)]. *)
Definition or_insert (key : string) (value : Value) (map : imap Value) : imap Value :=
  match bget key map with Some _ => map | None => map ++ [(key, value)] end.

(** [values.sort()] of strings. *)
Definition text_le (a b : string) : Prop := str_ltb b a = false.
#[export] Instance text_le_dec a b : Decision (text_le a b).
Proof. unfold text_le. apply _. Defined.
Definition sort_texts (l : list string) : list string := merge_sort text_le l.

Definition opt_text (t : option string) : Value := match t with Some t => Str t | None => Null end.
Definition opt_value (v : option Value) : Value := default Null v.

(** ** Documents and lanes *)

Section pure.
Context {FT : FloatText} {SHA : Sha256}.

Definition direct_document : Value :=
  Object [("schema", json_int SCHEMA); ("default", Object [("action", Str "direct"); ("egress", Null)]); ("rules", Array [])].
Definition document_digest (document : Value) : string := sha256_hex (canonical document).
Definition revision_of (generation document : Value) : string :=
  sha256_hex (canonical (Object [("generation", generation); ("document", document)])).

(** The phase in a message. *)
Definition py_str (value : option Value) : string := match value with None => "None" | Some v => py_str_of v end.

Definition state_document (phase : string) (candidate : option Z) (failures : Z) : Value :=
  Object [("phase", Str phase); ("candidate", match candidate with Some n => json_int n | None => Null end); ("failures", json_int failures)].

(** What [current.json] says of a service. *)
Definition service_entry (generation : Value) (document : Value) : Value :=
  Object [("document", document); ("digest", Str (document_digest document)); ("revision", Str (revision_of generation document))].

Definition empty_book : Value := Object [("current", Null); ("previous", Null); ("history", Array [])].

(** The egresses a lane names. *)
Definition named_egresses (body : Value) : list string :=
  omap (fun rule => get "egress" rule ≫= as_str) (as_items (index body "rules"))
  ++ option_list ((get "default" body ≫= get "egress") ≫= as_str).

(** The entries kept are all of the entries exactly when none was left out. *)
Definition without_lanes (intent : Value) (known : list string) : Value :=
  if negb (is_v2 intent) then intent else
  let all := as_entries (get "lanes" intent) in
  let lanes := List.filter (fun e => String.prefix "svc:" e.1 || mem_str e.1 known) all in
  if (length lanes =? length all)%nat then intent else
  let used := concat (map (fun e => named_egresses e.2) lanes) in
  let chains := List.filter (fun e => mem_str ("chain:" +:+ e.1) used) (as_entries (get "chains" intent)) in
  set_field "chains" (fun _ => Object chains) (set_field "lanes" (fun _ => Object lanes) intent).

Definition known_lanes (lanes : imap Value) : imap (list string) := map (fun e => (e.1, bkeys (as_entries (Some e.2)))) lanes.

(** The documents that run, each without the lanes whose account is gone. *)
Definition stripped_intents (known : imap (list string)) (services : imap Value) : imap Value :=
  map (fun e => (e.1, without_lanes (index e.2 "document") (default [] (bget e.1 known)))) services.

(** *** The journal *)

(** A document that runs as of a generation. *)
Record Applied := { a_document : Value; a_generation : Z; a_digest : string; a_operation : option string; a_at : string }.

Definition journal_entry (a : Applied) : Value :=
  Object [("document", a_document a); ("digest", Str (document_digest (a_document a)));
          ("revision", Str (revision_of (json_int (a_generation a)) (a_document a))); ("generation", json_int (a_generation a));
          ("generation_digest", Str (a_digest a)); ("operation_id", opt_text (a_operation a)); ("applied_at", Str (a_at a))].

(** [*last = value] where there is one. *)
Fixpoint set_last {A} (l : list A) (v : A) : list A := match l with [] => [] | [_] => [v] | x :: l' => x :: set_last l' v end.
(** [history[history.len() - 2]]. *)
Definition second_last (history : list Value) : Value := nth (length history - 2) history Null.
Definition previous_of (history : list Value) : Value := if (1 <? length history)%nat then second_last history else Null.

Definition book_changed (book : imap Value) (a : Applied) (rolled_back : bool) : bool :=
  let current := opt_value (bget "current" book) in
  match current with Null => true | _ => false end
  || negb (match get "document" current with Some d => json_eq d (a_document a) | None => false end)
  || rolled_back || bool_decide (is_Some (a_operation a)).

(** The same document in a new generation: the current entry moves on. *)
Definition moved_entry (current : Value) (a : Applied) : Value :=
  Object (iset "generation_digest" (Str (a_digest a)) (iset "generation" (json_int (a_generation a))
    (iset "revision" (Str (revision_of (json_int (a_generation a)) (a_document a))) (as_entries (Some current))))).

(** What a commit makes of a service's book. *)
Definition book_next (book : imap Value) (a : Applied) (rolled_back : bool) : imap Value :=
  let history := as_items (opt_value (bget "history" book)) in
  if negb (book_changed book a rolled_back) then
    let moved := moved_entry (opt_value (bget "current" book)) a in
    let book := iset "current" moved book in
    match history with [] => book | _ => iset "history" (Array (set_last history moved)) book end
  else if rolled_back then
    let popped := removelast history in
    let history := match popped with [] => [journal_entry a] | _ => set_last popped (journal_entry a) end in
    iset "history" (Array history) (iset "previous" (previous_of history) (iset "current" (List.last history Null) book))
  else
    let history := history ++ [journal_entry a] in
    let history := drop (length history - HISTORY_LIMIT) history in
    iset "previous" (previous_of history) (iset "current" (journal_entry a) (iset "history" (Array history) book)).
End pure.

(** ** The manager *)

Section service.
Context {H : Type} {MH : Machine H} {UT : UnicodeText} {FT : FloatText} {SD : SerdeDisplay} {SHA : Sha256} {B64 : Base64} {UB : UrlBase64} {SJ : SerdeJson}.
Context (r : Router).

Abbreviation RM := (Eff RouterError (Node H)).

Definition done : RM unit := mret tt.
Definition manual {A} (message : string) : RM A := raise (Manual message).
(** [if b { m }]. *)
Definition when (b : bool) (m : RM unit) : RM unit := if b then m else done.

(** *** Files *)

Definition state : RM Value := read_json r StateFile (state_document "idle" None 0).
Definition set_state (phase : string) (candidate : option Z) (failures : Z) : RM unit :=
  write_json r StateFile (state_document phase candidate failures).

Definition phase : RM (option Value) := s ← state; mret (get "phase" s).
Definition require_idle : RM unit :=
  p ← phase;
  if bool_decide ((p ≫= as_str) = Some "idle") then done else manual ("the router is " +:+ py_str p).

(** Every service this router serves is there: one it did not serve before runs pass-through. *)
Definition with_services (m : imap Value) : Checked (imap Value) :=
  let generation := opt_value (bget "generation" m) in
  services ← as_object (default (Object []) (bget "services" m)) or_err Internal "'services'";
  let services := fold_left (fun s tag => or_insert tag (service_entry generation direct_document) s) (r_services r) services in
  Ok (iset "services" (Object services) m).

Definition current : RM (option Value) :=
  v ← read_json r CurrentFile Null;
  match v with
  | Object m => m ← lift (with_services m); mret (Some (Object m))
  | Null => mret None
  | _ => raise (Internal "current.json is not an object")
  end.

Definition the_current : RM Value :=
  c ← current;
  match c with Some c => mret c | None => manual "the router has no current generation" end.

Definition journal : RM (imap Value) :=
  v ← read_json r JournalFile (Object []);
  m ← lift (object v "journal.json");
  mret (fold_left (fun m tag => or_insert tag empty_book m) (r_services r) m).

(** *** Credentials *)

Definition device_path (name : string) : string := join_path (net_root r) name.
Definition tun_present : RM bool :=
  match amneziawg_tun r with None => mret false | Some tun => asks (device_exists (device_path tun)) end.
Definition tun_index : RM (option string) :=
  match amneziawg_tun r with
  | None => mret None
  | Some tun => index ← asks (device_index (join_path (device_path tun) "ifindex")); mret (strip <$> index)
  end.

Definition warp_wg : RM (option Value) :=
  account ← read_json r WarpFile Null;
  match account with
  | Null => mret None
  | _ => if valid_account account then mret (Some account) else manual "warp-wg.json is malformed"
  end.

Definition ensure_warp_wg : RM Value :=
  known ← warp_wg;
  match known with
  | Some account => mret account
  | None =>
      keys ← outcome (attempt xray_x25519);
      registered ← match keys with
                   | Ok keys => tos ← act tos_now; act (register warp_opener keys tos)
                   | Err (Xray message) => mret (Err message)
                   | Err other => raise other
                   end;
      match registered with
      | Ok account => write_json r WarpFile account ≫= fun _ => mret account
      | Err err => raise (EgressUnreachable ("WARP registration for AmneziaWG failed: " +:+ err))
      end
  end.

Definition needs_warp (service : string) (document : Value) : RM unit :=
  if negb (uses_provider document) then done
  else if mem_str service TUN_SERVICES then ensure_warp_wg ≫= fun _ => done
  else reachable ← act (reachability (r_warp_url r));
       if (reachable : bool) then done else raise (EgressUnreachable "egress provider warp is unreachable").

Definition port (tag : string) : Checked Z := bget tag (r_ports r) or_err Internal ("'" +:+ tag +:+ "'").

(** [str(uuid.uuid4())] of 16 random bytes. *)
Definition uuid_of (bytes : string) : string :=
  let bytes := set_byte 6 (fun b => N.lor (N.land b 0x0f) 0x40) bytes in
  let h := hex (set_byte 8 (fun b => N.lor (N.land b 0x3f) 0x80) bytes) in
  String.substring 0 8 h +:+ "-" +:+ String.substring 8 4 h +:+ "-" +:+ String.substring 12 4 h +:+ "-" +:+ String.substring 16 4 h
  +:+ "-" +:+ String.substring 20 12 h.
Definition token_urlsafe (n : nat) : RM string := bytes ← act (entropy n); mret (encode_url bytes).
Definition token_hex (n : nat) : RM string := bytes ← act (entropy n); mret (hex bytes).

Definition mtproxy_valid (record : Value) : bool :=
  match get "uuid" record ≫= as_str, get "username" record ≫= as_str, get "password" record ≫= as_str with
  | Some uuid, Some username, Some password => is_uuid uuid && bool_decide (is_Some (credential (username +:+ ":" +:+ password)))
  | _, _, _ => false
  end.

Definition mtproxy_credential : RM Value :=
  record ← read_json r MtproxyFile Null;
  match record with
  | Null =>
      bytes ← act (entropy 16);
      password ← token_urlsafe 32;
      let record := Object [("uuid", Str (uuid_of bytes)); ("username", Str "telemt"); ("password", Str password)] in
      write_json r MtproxyFile record ≫= fun _ => mret record
  | _ => if mtproxy_valid record then mret record else manual "ingress credential for mtproxy is malformed"
  end.

(** [socket.parent()]: the directory of the socket. *)
Definition parent_of (path : string) : string :=
  match rsplit_byte "/"%char path with Some (EmptyString, _) => "/" | Some (dir, _) => dir | None => EmptyString end.

Definition publish_mtproxy_credential : RM unit :=
  match mtproxy_socket r with
  | None => done
  | Some socket => record ← mtproxy_credential; put_elsewhere (join_path (parent_of socket) "ingress-mtproxy.json") (file_text record)
  end.

Definition no_ingress : Ingress := ingress_new EmptyString 0 EmptyString EmptyString.
Definition tun_ingress (tag : string) : Ingress :=
  {| tag := tag; ingress_port := 0; user := EmptyString; password := EmptyString; socket := None; uuid := None; tun := amneziawg_tun r |}.
Definition mtproxy_ingress (tag : string) (record : Value) : Ingress :=
  {| tag := tag; ingress_port := 0; user := default EmptyString (as_str (index record "username"));
     password := default EmptyString (as_str (index record "password")); socket := mtproxy_socket r;
     uuid := as_str (index record "uuid"); tun := None |}.

(** The turn of the loop for one service: the device's inbound only while the device exists. *)
Definition ingress_of (tag : string) : RM (list Ingress) :=
  if mem_str tag TUN_SERVICES then present ← tun_present; mret (if (present : bool) then [tun_ingress tag] else [])
  else if tag =?s "mtproxy" then record ← mtproxy_credential; mret [mtproxy_ingress tag record]
  else if mem_str tag NOAUTH_SERVICES then port ← lift (port tag); mret [ingress_new tag port EmptyString EmptyString]
  else
    path ← lift (bget tag (ingress_files r) or_err Internal ("'" +:+ tag +:+ "'"));
    text ← asks (read_text path);
    text ← lift (text or_err Manual ("ingress credential for " +:+ tag +:+ " is unreadable"));
    c ← lift (credential (strip text) or_err Manual ("ingress credential for " +:+ tag +:+ " is malformed"));
    port ← lift (port tag);
    mret [ingress_new tag port c.1 c.2].
Definition ingresses : RM (list Ingress) := parts ← collect ingress_of (r_services r); mret (concat parts).

Definition ingress (service : string) : RM Value :=
  if negb (service =?s "mtproxy") || bool_decide (mtproxy_socket r = None) then raise (Validation "unknown service")
  else
    record ← mtproxy_credential;
    mret (Object [("address", Str MTPROXY_BRIDGE_ADDRESS); ("username", index record "username"); ("password", index record "password")]).

(** *** Lanes and the relay *)

Definition lane_set (lanes : imap Value) (tag : string) : Checked (string * Value) :=
  set ← object (default (Object []) (bget tag lanes)) "a lane set"; Ok (tag, Object set).
Definition lanes_file : RM (imap Value) :=
  v ← read_json r LanesFile (Object []);
  lanes ← lift (object v "lanes.json");
  lift (mapM (lane_set lanes) (r_services r)).

Definition accounts_of (set : Value) : list LaneAccount :=
  map (fun e => {| lane := e.1; account_user := index e.2 "user"; account_password := index e.2 "password" |}) (as_entries (Some set)).
Definition lane_accounts : RM (imap (list LaneAccount)) := lanes ← lanes_file; mret (map (fun e => (e.1, accounts_of e.2)) lanes).

Definition services_of (current : Value) : Checked (imap Value) := (get "services" current ≫= as_object) or_err Internal "'services'".

Definition current_intents (current : Value) : RM (imap Value) :=
  lanes ← lanes_file;
  services ← lift (services_of current);
  mret (stripped_intents (known_lanes lanes) services).

Definition relay_record : RM Value := read_json r RelayFile Null.
Definition relay_enabled (record : Value) : bool := truthy record && match get "enabled" record with Some v => truthy v | None => false end.

Definition relay_account (account : Value) : Checked (string * Value) :=
  email ← as_str (index account "email") or_err Internal "'email'"; Ok (email, index account "uuid").
Definition relay_settings : RM (option Relay) :=
  record ← relay_record;
  if negb (relay_enabled record) then mret None else
  accounts ← lift (match index record "accounts" with
                   | Array l => mapM relay_account l
                   | _ => Err (Internal "'accounts'")
                   end);
  mret (Some {| relay_port := index record "port"; server_name := index record "server_name"; private_key := index record "private_key";
                short_ids := as_items (index record "short_ids"); RouterRender.accounts := accounts |}).

Definition relay_view : RM Value :=
  record ← relay_record;
  if negb (truthy record) then
    mret (Object [("enabled", Bool false); ("port", Null); ("server_name", Null); ("public_key", Null); ("short_ids", Array []); ("accounts", json_int 0)])
  else
    let accounts := as_items (index record "accounts") in
    let emails := sort_texts (omap (fun a => as_str (index a "email")) accounts) in
    mret (Object [("enabled", Bool (truthy (index record "enabled"))); ("port", index record "port"); ("server_name", index record "server_name");
                  ("public_key", index record "public_key"); ("short_ids", index record "short_ids");
                  ("accounts", json_int (Z.of_nat (length accounts))); ("emails", strs emails)]).

(** *** The configuration *)

Definition render (intents : imap Value) (account : option Value) : RM Value :=
  ingresses ← ingresses;
  lanes ← lane_accounts;
  relay ← relay_settings;
  account ← match account with Some _ => mret account | None => warp_wg end;
  lift (render_config {| intents := intents; RouterRender.ingresses := ingresses; warp_url := r_warp_url r; ports := Some (r_ports r);
                         RouterRender.lanes := lanes; relay := relay; RouterRender.warp_wg := account |}).

(** *** Generations *)

(** The device the [tun] inbound of a configuration names. *)
Definition tun_of (text : option string) : option string :=
  config ← text ≫= from_slice;
  inbound ← List.find (fun inbound => bool_decide (get "protocol" inbound ≫= as_str = Some "tun")) (as_items (index config "inbounds"));
  as_str (index (index inbound "settings") "name").

(** Once the process is there: it is the manager's when it is ready, and stopped when it does not get so. *)
Definition settle_start (tun : option string) (sockets : list string) (process : N) : RM unit :=
  index ← match tun with Some _ => tun_index | None => mret None end;
  _ ← change_inner (fun i => {| handle := handle i; artifact_error := artifact_error i; artifact_report := artifact_report i;
                               inner_xray_version := inner_xray_version i; started_at := started_at i;
                               tun_rendered := (fun _ => bool_decide (is_Some tun)) <$> amneziawg_tun r; tun_ifindex := index |});
  up ← outcome (run_ready process (omap (fun tag => bget tag (r_ports r)) (r_services r)) sockets);
  match up with
  | Err err => run_stop process ≫= fun _ => raise err
  | Ok _ =>
      now ← act now_iso;
      change_inner (fun i => {| handle := Some process; artifact_error := artifact_error i; artifact_report := artifact_report i;
                                inner_xray_version := inner_xray_version i; started_at := Some now;
                                tun_rendered := tun_rendered i; tun_ifindex := tun_ifindex i |})
  end.

(** A socket left behind keeps Xray from binding. *)
Definition clear_socket : RM (list string) :=
  match mtproxy_socket r with
  | Some socket => unlink_elsewhere socket ≫= fun _ => mret [socket]
  | None => mret []
  end.

Definition start_generation (generation : Z) : RM unit :=
  exists_ ← file_exists (Generation generation);
  if negb exists_ then manual ("generation file is missing: " +:+ path_of r (Generation generation)) else
  sockets ← clear_socket;
  text ← inspect (fun n => n_files n (Generation generation));
  unreadable ← asks (disk_read_error (path_of r (Generation generation)));
  let tun := match unreadable with Some _ => None | None => tun_of text end in
  process ← run_start r (Generation generation) tun;
  settle_start tun sockets process.

(** [inner.handle.take()]. *)
Definition take_handle : RM (option N) := fun n =>
  let i := n_inner n in
  (Ok (handle i),
   set_inner {| handle := None; artifact_error := artifact_error i; artifact_report := artifact_report i; inner_xray_version := inner_xray_version i;
                started_at := started_at i; tun_rendered := tun_rendered i; tun_ifindex := tun_ifindex i |} n).
Definition stop_running : RM unit :=
  running ← take_handle;
  match running with Some process => run_stop process | None => done end.

(** Back to the last known good generation, or [broken]. *)
Definition fall_back (generation : Z) (previous_current : option Value) : RM unit :=
  _ ← unlink r (Generation generation);
  match previous_current with
  | None =>
      _ ← set_state "broken" None MAX_START_FAILURES;
      manual ("generation " +:+ fmt_Z generation +:+ " did not come up and there is no previous one")
  | Some previous =>
      previous_generation ← lift (generation_number previous);
      restored ← outcome (start_generation previous_generation);
      match restored with
      | Err (Xray _) =>
          _ ← set_state "broken" None MAX_START_FAILURES;
          manual ("generation " +:+ fmt_Z generation +:+ " did not come up and generation " +:+ fmt_Z previous_generation +:+ " ("
                  +:+ path_of r (Generation previous_generation) +:+ ") could not be restored")
      | Err other => raise other
      | Ok _ =>
          _ ← set_state "idle" None 0;
          raise (Xray ("generation " +:+ fmt_Z generation +:+ " did not come up; generation " +:+ fmt_Z previous_generation +:+ " restored"))
      end
  end.

Definition swap (generation : Z) (previous_current : option Value) : RM unit :=
  _ ← set_state "swapping" (Some generation) 0;
  _ ← stop_running;
  started ← outcome (start_generation generation);
  match started with
  | Ok _ => done
  | Err (Xray _) => fall_back generation previous_current
  | Err other => raise other
  end.

(** The service's part of [current.json]. *)
Definition committed_service (generation : Z) (intents : imap Value) (tag : string) : Checked (string * Value) :=
  document ← bget tag intents or_err Internal ("'" +:+ tag +:+ "'");
  Ok (tag, service_entry (json_int generation) document).
Definition current_document (generation : Z) (digest since : string) (services : imap Value) : Value :=
  Object [("generation", json_int generation); ("digest", Str digest); ("since", Str since); ("services", Object services)].

(** The turn of the loop over the services that brings the journal up to date. *)
Definition commit_book (generation : Z) (digest : string) (operation_ids : imap string) (rollback_of : option string)
    (books : imap Value) (s : string * Value) : RM (imap Value * Value) :=
  let '(tag, entry) := s in
  now ← act now_iso;
  book ← lift ((bget tag books ≫= as_object) or_err Internal ("'" +:+ tag +:+ "'"));
  let applied := {| a_document := index entry "document"; a_generation := generation; a_digest := digest;
                    a_operation := bget tag operation_ids; a_at := now |} in
  let book := book_next book applied (bool_decide (rollback_of = Some tag)) in
  mret (iset tag (Object book) books, opt_value (bget "current" book)).
Fixpoint commit_books (generation : Z) (digest : string) (operation_ids : imap string) (rollback_of : option string)
    (services : imap Value) (books entries : imap Value) : RM (imap Value * imap Value) :=
  match services with
  | [] => mret (books, entries)
  | s :: rest =>
      next ← commit_book generation digest operation_ids rollback_of books s;
      commit_books generation digest operation_ids rollback_of rest next.1 (iset s.1 next.2 entries)
  end.

Definition empty_books : imap Value := map (fun tag => (tag, empty_book)) (r_services r).

(** Render, test, swap, [current.json], journal. *)
Definition commit_generation (generation : Z) (intents : imap Value) (operation_ids : imap string) (rollback_of : option string)
    (keep_journal : bool) : RM (imap Value) :=
  config ← render intents None;
  _ ← put_text r (Generation generation) (config_bytes config);
  tested ← outcome (run_test r (Generation generation));
  _ ← match tested with
      | Ok _ => done
      | Err (Xray message) => unlink r (Generation generation) ≫= fun _ => raise (test_failure message)
      | Err other => raise other
      end;
  let digest := generation_digest config in
  previous_current ← current;
  _ ← swap generation previous_current;
  services ← lift (mapM (committed_service generation intents) (r_services r));
  since ← act now_iso;
  _ ← write_json r CurrentFile (current_document generation digest since services);
  books ← (if (keep_journal : bool) then journal else mret empty_books);
  committed ← commit_books generation digest operation_ids rollback_of services books [];
  _ ← write_json r JournalFile (Object committed.1);
  _ ← set_state "idle" None 0;
  mret committed.2.

(** The same documents in a new generation. *)
Definition rerender_current : RM unit :=
  current ← the_current;
  _ ← require_idle;
  intents ← current_intents current;
  generation ← lift (generation_number current);
  commit_generation (succ_i64 generation) intents [] None true ≫= fun _ => done.

(** *** Lane requests *)

Definition the_service (service : string) : RM unit :=
  if mem_str service (r_services r) then done else raise (Validation "unknown service").

Definition grant_id (lane : Value) : option string :=
  id ← as_str lane ≫= strip_prefix "grant:"; if word id 1 64 then Some id else None.

Definition lane_issue (service : string) (lane : Value) : RM Value :=
  _ ← the_service service;
  if mem_str service NO_LANE_SERVICES then raise (Validation (service +:+ " has no lanes")) else
  match grant_id lane with
  | None => raise (Validation "invalid lane")
  | Some id =>
      let name := "grant:" +:+ id in
      lanes ← lanes_file;
      password ← token_urlsafe 32;
      now ← act now_iso;
      let account := Object [("user", Str ("grant-" +:+ id)); ("password", Str password); ("issued_at", Str now)] in
      let lanes := iupd (set_field name (fun _ => account)) service lanes in
      _ ← write_json r LanesFile (Object lanes);
      _ ← rerender_current;
      mret (Object [("lane", Str name); ("user", index account "user"); ("password", index account "password")])
  end.

Definition lane_forget (service lane : string) : RM Value :=
  _ ← the_service service;
  lanes ← lanes_file;
  let set := as_entries (bget service lanes) in
  if bool_decide (bget lane set = None) then raise (conflict "unknown lane" "lane_unknown") else
  let lanes := iset service (Object (idel lane set)) lanes in
  current ← the_current;
  _ ← require_idle;
  let intents := stripped_intents (known_lanes lanes) (as_entries (get "services" current)) in
  previous ← read_json r LanesFile (Object []);
  _ ← write_json r LanesFile (Object lanes);
  generation ← lift (generation_number current);
  committed ← outcome (commit_generation (succ_i64 generation) intents [] None true);
  match committed with
  | Err err => write_json r LanesFile previous ≫= fun _ => raise err
  | Ok _ => mret (Object [("lane", Str lane); ("forgotten", Bool true)])
  end.

Definition lane_names (set : Value) : Value := strs (sort_texts (bkeys (as_entries (Some set)))).
Definition lanes (service : string) : RM Value :=
  _ ← the_service service;
  lanes ← lanes_file;
  mret (Object [("lanes", lane_names (opt_value (bget service lanes)))]).

(** *** Relay requests *)

Definition relay_name_ok (server_name : Value) : bool :=
  match as_str server_name with
  | Some name => negb (str_empty name) && (char_len name <=? 253)%nat && negb (existsb is_space (chars name))
  | None => false
  end.
Definition relay_port_ok (port : Value) : bool := match strict_int port with Some p => ((1 <=? p) && (p <=? 65535))%Z | None => false end.

Definition relay_enable (server_name port : Value) : RM Value :=
  if negb (relay_name_ok server_name) then raise (Validation "invalid relay server name")
  else if negb (relay_port_ok port) then raise (Validation "invalid relay port") else
  record ← relay_record;
  record ← (if truthy record then lift (object record "relay.json") else mret []);
  record ← (if match bget "private_key" record with Some key => truthy key | None => false end then mret record
            else
              keys ← attempt xray_x25519;
              short_id ← token_hex 4;
              mret (iset "accounts" (Array []) (iset "short_ids" (strs [short_id]) (iset "public_key" (Str keys.2)
                      (iset "private_key" (Str keys.1) record)))));
  let record := iset "server_name" server_name (iset "port" port (iset "enabled" (Bool true) record)) in
  _ ← write_json r RelayFile (Object record);
  _ ← rerender_current;
  relay_view.

Definition relay_disable : RM Value :=
  record ← relay_record;
  _ ← (if truthy record then
         record ← lift (object record "relay.json");
         _ ← write_json r RelayFile (Object (iset "enabled" (Bool false) record));
         rerender_current
       else done);
  relay_view.

Definition clean_account (account : Value) : Checked (string * Value) :=
  let invalid := Validation "invalid relay account" in
  match account with
  | Object m =>
      if (length m =? 2)%nat && bool_decide (is_Some (bget "email" m)) && bool_decide (is_Some (bget "uuid" m)) then
        email ← as_str (index account "email") or_err invalid;
        if negb (is_relay_email email) then Err invalid else
        uuid ← as_str (index account "uuid") or_err invalid;
        if negb (is_uuid uuid) then Err invalid else
        Ok (email, Object [("email", Str email); ("uuid", Str uuid)])
      else Err invalid
  | _ => Err invalid
  end.

Definition clean_accounts (accounts : Value) : Checked (list Value) :=
  match accounts with
  | Array l =>
      if (length l <=? 256)%nat then
        cleaned ← mapM clean_account l;
        Ok (map snd (List.filter (fun a => bool_decide (is_Some (r_warp_url r)) || negb (ends_with ":warp" a.1)) cleaned))
      else Err (Validation "invalid relay accounts")
  | _ => Err (Validation "invalid relay accounts")
  end.

Definition relay_set_accounts (accounts : Value) : RM Value :=
  cleaned ← lift (clean_accounts accounts);
  record ← relay_record;
  if negb (relay_enabled record) then raise (conflict "the relay is not enabled" "relay_disabled") else
  record ← lift (object record "relay.json");
  let previous := default (Array []) (bget "accounts" record) in
  let record := iset "accounts" (Array cleaned) record in
  _ ← write_json r RelayFile (Object record);
  rerendered ← outcome rerender_current;
  match rerendered with
  | Ok _ => relay_view
  | Err (EgressInvalid m code) =>
      write_json r RelayFile (Object (iset "accounts" previous record)) ≫= fun _ => raise (EgressInvalid m code)
  | Err err => raise err
  end.

(** *** Lifecycle *)

(** Every artifact with its digest; a file that is not there has none. *)
Definition verify_artifacts : RM (imap Value) :=
  collect (fun artifact => let '(name, path, expected) := artifact in
    data ← asks (read_artifact path);
    let actual := sha256_hex <$> data in
    mret (name, Object [("sha256", opt_text actual); ("verified", Bool (bool_decide (actual = Some expected)))])) (artifacts r).

Definition set_report (report : imap Value) (error : option string) (i : Inner) : Inner :=
  {| handle := handle i; artifact_error := error; artifact_report := report; inner_xray_version := inner_xray_version i;
     started_at := started_at i; tun_rendered := tun_rendered i; tun_ifindex := tun_ifindex i |}.
Definition set_version (version : string) (i : Inner) : Inner :=
  {| handle := handle i; artifact_error := artifact_error i; artifact_report := artifact_report i; inner_xray_version := Some version;
     started_at := started_at i; tun_rendered := tun_rendered i; tun_ifindex := tun_ifindex i |}.

(** The candidate of an unfinished swap goes, unless it was committed. *)
Definition drop_candidate (s : Value) : RM unit :=
  match get "candidate" s ≫= as_i64 with
  | Some candidate =>
      c ← current;
      let committed := match c with Some c => bool_decide (get "generation" c ≫= as_i64 = Some candidate) | None => false end in
      when (negb committed) (unlink r (Generation candidate))
  | None => done
  end.

Definition recover : RM unit :=
  s ← state;
  let phase := get "phase" s ≫= as_str in
  if bool_decide (phase = Some "swapping") then drop_candidate s ≫= fun _ => set_state "idle" None 0
  else if bool_decide (phase = Some "broken") then set_state "idle" None 0
  else done.

Definition bootstrap : RM unit :=
  report ← verify_artifacts;
  let report := icollect report in
  let failed := sort_texts (map fst (List.filter (fun e => match index e.2 "verified" with Bool true => false | _ => true end) report)) in
  match failed with
  | _ :: _ =>
      let message := "artifact digest mismatch: " +:+ join ", " failed in
      change_inner (set_report report (Some message)) ≫= fun _ => raise (ArtifactMismatch message)
  | [] =>
      _ ← change_inner (set_report report None);
      version ← attempt xray_version;
      _ ← change_inner (set_version version);
      _ ← when (seeded r) (attempt geodata_seed);
      _ ← recover;
      _ ← publish_mtproxy_credential;
      c ← current;
      match c with
      | None =>
          commit_generation 1 (map (fun tag => (tag, direct_document)) (r_services r)) [] None false ≫= fun _ => done
      | Some c =>
          intents ← current_intents c;
          config ← render intents None;
          generation ← lift (generation_number c);
          there ← file_exists (Generation generation);
          if negb (bool_decide (as_str (index c "digest") = Some (generation_digest config))) || negb there
          then commit_generation (succ_i64 generation) intents [] None true ≫= fun _ => done
          else start_generation generation
      end
  end.

Definition tun_changed : RM bool :=
  inner ← inspect n_inner;
  match tun_rendered inner, amneziawg_tun r with
  | Some rendered, Some _ =>
      present ← tun_present;
      if negb (Bool.eqb present rendered) then mret true
      else index ← tun_index; mret ((present : bool) && negb (bool_decide (index = tun_ifindex inner)))
  | _, _ => mret false
  end.

Definition close : RM unit := stop_running.

(** After the geodata's own tick. *)
Definition watchdog_tick : RM unit :=
  s ← state;
  inner ← inspect n_inner;
  if negb (bool_decide (get "phase" s ≫= as_str = Some "idle")) || bool_decide (is_Some (artifact_error inner)) then done else
  alive ← match handle inner with Some process => run_alive process | None => mret false end;
  changed ← (if (alive : bool) then tun_changed else mret true);
  if negb changed then done else
  c ← current;
  match c with
  | None => done
  | Some c =>
      if (alive : bool) then
        rerendered ← outcome rerender_current;
        match rerendered with
        | Err (Xray _) | Err (Manual _) | Err (EgressInvalid _ _) | Ok _ => done
        | Err other => raise other
        end
      else
        generation ← lift (generation_number c);
        started ← outcome (start_generation generation);
        match started with
        | Ok _ => set_state "idle" None 0
        | Err (Xray _) | Err (Manual _) =>
            let failures := succ_i64 (default 0%Z (get "failures" s ≫= as_i64)) in
            set_state (if (MAX_START_FAILURES <=? failures)%Z then "broken" else "idle") None failures
        | Err other => raise other
        end
  end.

(** *** Views *)

Definition service_view (c : option Value) (tag : string) : Value :=
  match c with
  | None => Object [("revision", Null); ("digest", Null); ("document", Null)]
  | Some c =>
      let entry := index (index c "services") tag in
      Object [("revision", index entry "revision"); ("digest", index entry "digest"); ("document", redact_intent (index entry "document"))]
  end.

Definition providers : RM Value :=
  match r_warp_url r with
  | None => mret (Object [])
  | Some url => reachable ← act (reachability (Some url)); mret (Object [("warp", Object [("reachable", Bool reachable)])])
  end.
Definition capabilities : Value := strs (CAPABILITIES ++ CAPABILITIES_V2).

(** *** Requests on a service's egress *)

Definition revision_matches (c : Value) (service : string) (expected_revision : Value) : bool :=
  match as_str expected_revision with
  | Some expected => default EmptyString (as_str (index (index (index c "services") service) "revision")) =?s expected
  | None => false
  end.

Definition documents_of (c : Value) : imap Value := map (fun e => (e.1, index e.2 "document")) (as_entries (get "services" c)).

Definition target (service : string) (expected_revision document : Value) : RM (Value * Value * imap Value) :=
  normalised ← lift (validate_document document);
  c ← the_current;
  _ ← require_idle;
  if negb (revision_matches c service expected_revision) then raise (conflict "egress revision does not match" "egress_conflict") else
  mret (c, normalised, iset service normalised (documents_of c)).

(** [difflib::changed_lines]. *)
Definition changed_lines (old new : list string) : option (list string) :=
  codes ← Matcher.opcodes (Matcher.new old new);
  if forallb (fun code => match code.1.1.1.1 with Matcher.Equal => true | _ => false end) codes then Some [] else
  Some (List.filter (fun line => negb (header_line line)) (concat (map (opcode_lines old new) codes))).
Definition INDENT1_SORTED : Json.Options :=
  {| indent := Some 1%nat; separators := None; sort_keys := true; ensure_ascii := true; numbers := NumPython FloatRustShortest |}.
(** The matcher always answers ([diff_is_edit_script]). *)
Definition diff (before after : Value) : list string :=
  default [] (changed_lines (split_byte (Ascii.ascii_of_nat 10) (dumps before INDENT1_SORTED)) (split_byte (Ascii.ascii_of_nat 10) (dumps after INDENT1_SORTED))).

(** Whether each hop of the document's chains answers, under [chain:<id>:<n>]. *)
Definition check_hop (chain_id : string) (numbered : nat * Value) : RM (string * nat * bool) :=
  let hop := numbered.2 in
  reachable ← act (hop_reachability (default EmptyString (as_str (index hop "address"))) (index hop "port")
                     (default EmptyString (as_str (index hop "server_name"))));
  mret (chain_id, numbered.1, reachable).
Definition numbered_hops (chain : Value) : list (nat * Value) := let hops := as_items (index chain "hops") in combine (seq 1 (length hops)) hops.
Definition check_hops (normalised : Value) : RM (list (string * nat * bool)) :=
  if negb (is_v2 normalised) then mret [] else
  parts ← collect (fun e => collect (check_hop e.1) (numbered_hops e.2)) (as_entries (get "chains" normalised));
  mret (concat parts).
Definition hop_key (e : string * nat * bool) : string := "chain:" +:+ e.1.1 +:+ ":" +:+ fmt_nat e.1.2.

Definition PLAN_KEY : string := str_repeat 43 "A" +:+ "=".
Definition stand_in_account : Value :=
  Object [("id", Str "plan"); ("token", Str "plan"); ("private_key", Str PLAN_KEY); ("address", Str "172.16.0.2");
          ("peer_public_key", Str PLAN_KEY); ("endpoint", Str "162.159.192.1:2408")].

Definition egress_plan (service : string) (expected_revision document : Value) : RM Value :=
  _ ← the_service service;
  t ← target service expected_revision document;
  let '(c, normalised, intents) := t in
  let tunnel := mem_str service TUN_SERVICES in
  stand_in ← (if tunnel && uses_provider normalised then
                account ← warp_wg; mret (match account with None => Some stand_in_account | Some _ => None end)
              else mret None);
  config ← render intents stand_in;
  _ ← put_text r CandidateFile (config_bytes config);
  tested ← outcome (run_test r CandidateFile);
  _ ← unlink r CandidateFile;
  _ ← match tested with
      | Err (Xray message) => raise (test_failure message)
      | Err other => raise other
      | Ok _ => done
      end;
  warp ← (if uses_provider normalised then
            v ← (if tunnel then account ← warp_wg; mret (match account with Some _ => Bool true | None => Null end)
                 else reachable ← act (reachability (r_warp_url r)); mret (Bool reachable));
            mret [("warp", v)]
          else mret []);
  hops ← check_hops normalised;
  let reachability := iextend warp (map (fun e => (hop_key e, Bool e.2)) hops) in
  generation ← lift (generation_number c);
  let digest := generation_digest config in
  let entry := index (index c "services") service in
  mret (Object [("revision", index entry "revision"); ("target_revision", Str (revision_of (json_int (succ_i64 generation)) normalised));
                ("generation_digest", Str digest); ("rendered_sha256", Str digest);
                ("diff", strs (diff (redact_intent (index entry "document")) (redact_intent normalised)));
                ("warnings", Array []); ("reachability", Object reachability); ("restart_required", Bool true)]).

(** The answer of an apply whose operation is the one that was applied last. *)
Definition replayed (entry : Value) : Value :=
  Object [("revision", index entry "revision"); ("applied", index entry "document"); ("readback_sha256", index entry "generation_digest");
          ("generation", index entry "generation"); ("replayed", Bool true)].

(** The first hop that does not answer refuses the apply. *)
Definition unreachable_hop (hops : list (string * nat * bool)) : option RouterError :=
  (fun e => EgressUnreachable ("chain " +:+ e.1.1 +:+ " hop " +:+ fmt_nat e.1.2 +:+ " is unreachable"))
    <$> List.find (fun e => negb e.2) hops.

Definition egress_apply (service : string) (expected_revision document operation_id : Value) : RM Value :=
  _ ← the_service service;
  match as_str operation_id with
  | None => raise (Validation "invalid operation id")
  | Some operation =>
      if negb (is_operation_id operation) then raise (Validation "invalid operation id") else
      normalised ← lift (validate_document document);
      books ← journal;
      let entry := index (opt_value (bget service books)) "current" in
      if bool_decide (get "operation_id" entry ≫= as_str = Some operation) then
        if json_eq (index entry "document") normalised then mret (replayed entry)
        else raise (conflict "operation id already used for another request" "operation_conflict")
      else
        t ← target service expected_revision document;
        let '(c, normalised, intents) := t in
        _ ← needs_warp service normalised;
        hops ← check_hops normalised;
        _ ← match unreachable_hop hops with Some err => raise err | None => done end;
        generation ← lift (generation_number c);
        entries ← commit_generation (succ_i64 generation) intents [(service, operation)] None true;
        let entry := opt_value (bget service entries) in
        mret (Object [("revision", index entry "revision"); ("applied", index entry "document");
                      ("readback_sha256", index entry "generation_digest"); ("generation", index entry "generation"); ("replayed", Bool false)])
  end.

Definition egress_rollback (service : string) (expected_revision : Value) : RM Value :=
  _ ← the_service service;
  c ← the_current;
  if negb (revision_matches c service expected_revision) then raise (conflict "egress revision does not match" "egress_conflict") else
  books ← journal;
  let previous := index (opt_value (bget service books)) "previous" in
  match previous with
  | Null => raise (conflict "no previous egress to roll back to" "egress_no_previous")
  | _ =>
      intents ← current_intents c;
      lanes ← lanes_file;
      let known := bkeys (as_entries (bget service lanes)) in
      let document := without_lanes (index previous "document") known in
      _ ← needs_warp service document;
      generation ← lift (generation_number c);
      entries ← commit_generation (succ_i64 generation) (iset service document intents) [] (Some service) true;
      let entry := opt_value (bget service entries) in
      mret (Object [("revision", index entry "revision"); ("applied", index entry "document");
                    ("readback_sha256", index entry "generation_digest"); ("generation", index entry "generation")])
  end.

(** *** A service's view, and the status *)

Definition book_summary (entry : Value) : Value :=
  match entry with
  | Null => Null
  | _ => Object (map (fun key => (key, opt_value (get key entry))) ["revision"; "digest"; "generation"; "operation_id"; "applied_at"])
  end.

Definition running_process : RM bool :=
  inner ← inspect n_inner;
  match handle inner with Some process => run_alive process | None => mret false end.

Definition egress (service : string) : RM Value :=
  _ ← the_service service;
  inner ← inspect n_inner;
  c ← current;
  books ← journal;
  let book := opt_value (bget service books) in
  let view := service_view c service in
  let document := index view "document" in
  tun ← (if mem_str service TUN_SERVICES then
           attached ← (if default false (tun_rendered inner) then running_process else mret false);
           present ← tun_present;
           account ← warp_wg;
           mret [("tun", Object [("device", opt_text (amneziawg_tun r)); ("present", Bool present); ("attached", Bool attached);
                                 ("warp_registered", Bool (bool_decide (is_Some account)))])]
         else mret []);
  let previous := match index book "previous" with Null => Null | p => Object [("revision", index p "revision")] end in
  let mode := match document with Null => "direct" | d => if uses_provider d then "proxy" else "direct" end in
  providers ← providers;
  mret (Object (iextend tun
    [("revision", index view "revision"); ("document", document); ("mode", Str mode);
     ("generation", match c with Some c => index c "generation" | None => Null end); ("providers", providers);
     ("capabilities", capabilities); ("restart_required", Bool true); ("warnings", Array []);
     ("runtime_version", opt_text (inner_xray_version inner)); ("previous", previous); ("current", book_summary (index book "current"))])).

Definition geodata_summary (meta : Value) : Value :=
  let field key := opt_value (get key meta) in
  let files := match get "files" meta with Some files => if truthy files then as_entries (Some files) else [] | None => [] end in
  let entry e := Object [("sha256", opt_value (get "sha256" e)); ("codes", opt_value (get "codes" e))] in
  Object [("source", field "source"); ("origin", field "origin"); ("version", field "version"); ("updated_at", field "updated_at");
          ("auto_update", Bool (match get "auto_update" meta with Some v => truthy v | None => false end));
          ("interval_hours", field "interval_hours"); ("last_error", field "last_error"); ("update_hour", field "update_hour");
          ("last_check_at", field "last_check_at"); ("files", Object (map (fun e => (e.1, entry e.2)) files))].

Definition status : RM Value :=
  inner ← inspect n_inner;
  s ← state;
  c ← current;
  running ← match c, handle inner with
            | Some c, Some process =>
                alive ← run_alive process;
                mret (if (alive : bool) then Object [("generation", index c "generation"); ("digest", index c "digest"); ("since", opt_text (started_at inner))]
                      else Null)
            | _, _ => mret Null
            end;
  lanes ← lanes_file;
  providers ← providers;
  relay ← relay_view;
  meta ← asks geodata_meta;
  mret (Object [("version", Str RENDER_VERSION); ("xray_version", opt_text (inner_xray_version inner)); ("artifacts", Object (artifact_report inner));
                ("artifact_error", opt_text (artifact_error inner)); ("phase", default (Str "idle") (get "phase" s)); ("running", running);
                ("services", Object (map (fun tag => (tag, service_view c tag)) (r_services r))); ("providers", providers);
                ("capabilities", capabilities); ("restart_required", Bool true); ("lanes", Object (map (fun e => (e.1, lane_names e.2)) lanes));
                ("relay", relay); ("geodata", geodata_summary meta)]).

(** *** Exit tests *)

Definition probe_config (port : N) (normalised : Value) : Value :=
  Object [("log", Object [("access", Str "none"); ("loglevel", Str "warning")]); ("dns", Object [("servers", strs ["localhost"])]);
          ("inbounds", Array [Object [("tag", Str "probe"); ("listen", Str "127.0.0.1"); ("port", json_int (Z.of_N port));
                                      ("protocol", Str "dokodemo-door");
                                      ("settings", Object [("address", Str TRACE_HOST); ("port", json_int 443); ("network", Str "tcp")])]]);
          ("outbounds", Array [exit_outbound "probe-exit" normalised; Object [("tag", Str "block"); ("protocol", Str "blackhole")]]);
          ("routing", Object [("rules", Array [Object [("inboundTag", strs ["probe"]); ("outboundTag", Str "probe-exit")]])])].

Definition test_answer (error code : string) (rest : imap Value) : Value :=
  Object ([("ok", Bool false); ("error", Str (head_chars error 300)); ("code", Str code)] ++ rest).

(** The answer, with the process to stop. *)
Definition run_exit_test (normalised : Value) : RM (Checked Value * option N) :=
  port ← outcome (attempt free_port);
  match port with
  | Err err => mret (Err err, None)
  | Ok port =>
      written ← outcome (put_text r ExitTestFile (config_bytes (probe_config port normalised)));
      match written with
      | Err err => mret (Err err, None)
      | Ok _ =>
          tested ← outcome (run_test r ExitTestFile);
          match tested with
          | Err (Xray message) => mret (Ok (test_answer ("xray refused the outbound: " +:+ message) "exit_invalid" []), None)
          | Err err => mret (Err err, None)
          | Ok _ =>
              started ← outcome (run_start r ExitTestFile None);
              match started with
              | Err (Xray message) => mret (Ok (test_answer ("probe did not start: " +:+ message) "exit_test_failed" []), None)
              | Err err => mret (Err err, None)
              | Ok process =>
                  up ← outcome (run_ready process [Z.of_N port] []);
                  match up with
                  | Err (Xray message) => mret (Ok (test_answer ("probe did not start: " +:+ message) "exit_test_failed" []), Some process)
                  | Err err => mret (Err err, Some process)
                  | Ok _ =>
                      probed ← act (exit_prober port);
                      elapsed ← asks latency;
                      let latency_ms := ("latency_ms", json_int (Z.of_N elapsed)) in
                      mret (Ok match probed with
                               | Err text => test_answer ("no answer through the exit: " +:+ text) "exit_unreachable" [latency_ms]
                               | Ok result => Object (iset latency_ms.1 latency_ms.2 (iextend [("ok", Bool true)] (as_entries (Some result))))
                               end, Some process)
                  end
              end
          end
      end
  end.

(** [busy]: another exit test is running. *)
Definition exit_test (busy : bool) (spec : Value) : RM Value :=
  normalised ← lift (validate_exit spec);
  if busy then raise (conflict "an exit test is already running" "exit_test_busy") else
  result ← run_exit_test normalised;
  _ ← match result.2 with Some process => run_stop process | None => done end;
  _ ← unlink r ExitTestFile;
  lift result.1.
End service.
