(* ===== verification/RouterFrame.v ===== *)
(** * What most of the router's code leaves alone

    Most of the manager reads, or writes on the side: no generation, no [current.json] and no journal changes, and no
    generation's process starts. A relation between nodes that such steps respect is a [Frame]; every part of the
    manager but the swap and the commit then respects it. *)

From S2P Require Import Prelude BTree Utf8 Numeric Json PyText IndexMap Plan IpAddr AwgKeys Effect.
From S2P Require Import RouterIp RouterIntent RouterRender RouterWarp RouterNode RouterService.

(** The files written on the side. *)
Definition plain_file (f : RFile) : bool :=
  match f with LanesFile | RelayFile | WarpFile | MtproxyFile | CandidateFile | ExitTestFile => true | _ => false end.
Definition side_text {FT : FloatText} (f : RFile) (text : option string) : Prop :=
  plain_file f = true \/ (f = StateFile /\ exists p c k, text = Some (file_text (state_document p c k))).
Definition harmless (e : Event) : bool :=
  match e with Tested _ _ | Stopped _ | Ready _ | FoundDead _ => true | Started f _ _ => plain_file f | Stored _ | Restarted => false end.

Class Frame {H} {FT : FloatText} (R : Node H -> Node H -> Prop) : Prop := {
  frame_preorder : PreOrder R;
  frame_event n n' new : n_files n' = n_files n -> handle (n_inner n') = handle (n_inner n) -> n_trace n' = n_trace n ++ new ->
    Forall (fun e => harmless e = true) new -> R n n';
  frame_set n n' f text : f <> LanesFile -> side_text f text -> handle (n_inner n') = handle (n_inner n) -> n_files n' = set_text f text (n_files n) ->
    n_trace n' = n_trace n ++ [Stored (set_text f text (n_files n))] -> R n n';
}.
#[export] Existing Instance frame_preorder.
(** And one that a write of [lanes.json] respects. *)
Class LaneFrame {H} (R : Node H -> Node H -> Prop) : Prop :=
  frame_lanes n n' text : handle (n_inner n') = handle (n_inner n) -> n_files n' = set_text LanesFile text (n_files n) ->
    n_trace n' = n_trace n ++ [Stored (set_text LanesFile text (n_files n))] -> R n n'.

Create HintDb quiet.
#[export] Hint Extern 0 (Frame _) => typeclasses eauto : quiet.
#[export] Hint Extern 0 (LaneFrame _) => typeclasses eauto : quiet.

Section calm.
Context {H : Type} {MH : Machine H} {UT : UnicodeText} {FT : FloatText} {SD : SerdeDisplay} {SHA : Sha256} {B64 : Base64} {UB : UrlBase64} {SJ : SerdeJson}.
Context {R : Node H -> Node H -> Prop} {FR : Frame R}.
Context (r : Router).

Abbreviation RM := (Eff RouterError (Node H)).
Abbreviation quiet m := (keeps R m).

Lemma still_bind {A B} (m : RM A) (f : A -> RM B) : quiet m -> (forall a, quiet (f a)) -> quiet (m ≫= f).
Proof. apply keeps_bind_eff. intros s t u. by transitivity t. Qed.

(** A step that answers without touching the files, the processes or the handle. *)
Lemma still_step_free {A} (m : RM A) : (forall n, n_files (m n).2 = n_files n /\ handle (n_inner (m n).2) = handle (n_inner n) /\ n_trace (m n).2 = n_trace n) -> quiet m.
Proof.
  intros Hm n. destruct (Hm n) as (H1 & H2 & H3). eapply (frame_event _ _ []); [done|done|by rewrite app_nil_r|by constructor].
Qed.

Lemma still_ret {A} (a : A) : quiet (mret a : RM A).
Proof. by apply still_step_free. Qed.
Lemma still_raise {A} e : quiet (raise e : RM A).
Proof. by apply still_step_free. Qed.
Lemma still_manual {A} message : quiet (manual message : RM A).
Proof. by apply still_step_free. Qed.
Lemma still_done : quiet (done : RM unit).
Proof. by apply still_step_free. Qed.
Lemma still_lift {A} (x : Checked A) : quiet (lift x : RM A).
Proof. by apply still_step_free. Qed.
Lemma still_inspect {A} (f : Node H -> A) : quiet (inspect f : RM A).
Proof. by apply still_step_free. Qed.
Lemma still_asks {A} (f : H -> A) : quiet (asks f : RM A).
Proof. by apply still_step_free. Qed.
Lemma still_act {A} (f : H -> A * H) : quiet (act f : RM A).
Proof. apply still_step_free. intros n. unfold act. by destruct (f _). Qed.
Lemma still_attempt {A} (f : H -> Checked A * H) : quiet (attempt f : RM A).
Proof. apply still_step_free. intros n. unfold attempt. by destruct (f _). Qed.
Lemma still_read f d : quiet (read_json r f d : RM Value).
Proof. apply still_step_free. intros n. unfold read_json. by repeat case_match. Qed.
Lemma still_inner f : (forall i, handle (f i) = handle i) -> quiet (change_inner f : RM unit).
Proof. intros Hf. apply still_step_free. intros n. by split; [|split; [apply Hf|]]. Qed.
Lemma still_elsewhere path text : quiet (put_elsewhere path text : RM unit).
Proof. apply still_step_free. intros n. unfold put_elsewhere. destruct (disk_put _ _ _). by case_match. Qed.
Lemma still_unlink_elsewhere path : quiet (unlink_elsewhere path : RM unit).
Proof. apply still_step_free. intros n. unfold unlink_elsewhere. destruct (disk_unlink _ _). by case_match. Qed.

Lemma still_outcome {A} (m : RM A) : quiet m -> quiet (outcome m).
Proof. intros Hm n. specialize (Hm n). unfold outcome. by destruct (m n). Qed.

(** A step that appends one event. *)
Lemma still_event {A} (m : RM A) :
  (forall n, n_files (m n).2 = n_files n /\ handle (n_inner (m n).2) = handle (n_inner n)
    /\ exists new, n_trace (m n).2 = n_trace n ++ new /\ Forall (fun e => harmless e = true) new) -> quiet m.
Proof. intros Hm n. destruct (Hm n) as (H1 & H2 & new & H3 & H4). by eapply frame_event. Qed.

Lemma still_test f : quiet (run_test r f : RM unit).
Proof.
  apply still_event. intros n. unfold run_test. destruct (xray_test _ _ _) as [a h]. split; [done|]. split; [done|].
  eexists [_]. by split; [|repeat constructor].
Qed.
Lemma still_stop p : quiet (run_stop p : RM unit).
Proof. apply still_event. intros n. split; [done|]. split; [done|]. eexists [_]. by split; [|repeat constructor]. Qed.
Lemma still_alive p : quiet (run_alive p : RM bool).
Proof.
  apply still_event. intros n. unfold run_alive. destruct (xray_alive _ _) as [alive h]. destruct alive.
  - split; [done|]. split; [done|]. exists []. by rewrite app_nil_r.
  - split; [done|]. split; [done|]. eexists [_]. by split; [|repeat constructor].
Qed.
Lemma still_ready p ports sockets : quiet (run_ready p ports sockets : RM unit).
Proof.
  apply still_event. intros n. unfold run_ready. destruct (xray_ready _ _ _) as [a h]. split; [by destruct a|]. split; [by destruct a|].
  destruct a; [eexists [_]; by split; [|repeat constructor]|exists []; by rewrite app_nil_r].
Qed.
Lemma still_start f tun : plain_file f = true -> quiet (run_start r f tun : RM N).
Proof.
  intros Hf. apply still_event. intros n. unfold run_start. destruct (xray_start _ _ _ _) as [a h]. split; [by destruct a|]. split; [by destruct a|].
  destruct a; [eexists [_]; by split; [|repeat constructor]|exists []; by rewrite app_nil_r].
Qed.

Lemma set_text_other f g text (files : Files) : g <> f -> set_text f text files g = files g.
Proof. intros Hg. unfold set_text. by rewrite decide_False. Qed.
Lemma set_text_this f text (files : Files) : set_text f text files f = text.
Proof. unfold set_text. by rewrite decide_True. Qed.

(** A step that changes one file on the side, or none. *)
Lemma still_set {A} (m : RM A) f text : f <> LanesFile -> side_text f text ->
  (forall n, handle (n_inner (m n).2) = handle (n_inner n)
    /\ ((n_files (m n).2 = n_files n /\ n_trace (m n).2 = n_trace n)
        \/ (n_files (m n).2 = set_text f text (n_files n) /\ n_trace (m n).2 = n_trace n ++ [Stored (set_text f text (n_files n))]))) -> quiet m.
Proof.
  intros Hl Ha Hm n. destruct (Hm n) as [H1 [[H2 H3]|[H2 H3]]]; [|by eapply frame_set].
  eapply (frame_event _ _ []); [done|done|by rewrite app_nil_r|by constructor].
Qed.

Lemma put_shape f text (n : Node H) : handle (n_inner (put_text r f text n).2) = handle (n_inner n)
  /\ ((n_files (put_text r f text n).2 = n_files n /\ n_trace (put_text r f text n).2 = n_trace n)
      \/ (n_files (put_text r f text n).2 = set_text f (Some text) (n_files n)
          /\ n_trace (put_text r f text n).2 = n_trace n ++ [Stored (set_text f (Some text) (n_files n))])).
Proof. unfold put_text. destruct (disk_put _ _ _) as [[|e|e] h]; cbn; (split; [done|]); [by right|by left|by right]. Qed.
Lemma unlink_shape f (n : Node H) : handle (n_inner (unlink r f n).2) = handle (n_inner n)
  /\ ((n_files (unlink r f n).2 = n_files n /\ n_trace (unlink r f n).2 = n_trace n)
      \/ (n_files (unlink r f n).2 = set_text f None (n_files n) /\ n_trace (unlink r f n).2 = n_trace n ++ [Stored (set_text f None (n_files n))])).
Proof. unfold unlink. destruct (disk_unlink _ _) as [[e|] h]; cbn; (split; [done|]); [by left|by right]. Qed.

Lemma still_put f text : plain_file f = true -> f <> LanesFile -> quiet (put_text r f text : RM unit).
Proof. intros Hf Hl. eapply (still_set _ f); [done|by left|apply put_shape]. Qed.
Lemma still_write f v : plain_file f = true -> f <> LanesFile -> quiet (write_json r f v : RM unit).
Proof. apply still_put. Qed.
Lemma still_write_lanes {LF : LaneFrame R} v : quiet (write_json r LanesFile v : RM unit).
Proof.
  intros n. destruct (put_shape LanesFile (file_text v) n) as [H1 [[H2 H3]|[H2 H3]]]; [|by eapply frame_lanes].
  eapply (frame_event _ _ []); [done|done|by rewrite app_nil_r|by constructor].
Qed.
Lemma still_state p c k : quiet (set_state r p c k : RM unit).
Proof. eapply (still_set _ StateFile); [done| |apply put_shape]. right. split; [done|]. by exists p, c, k. Qed.
Lemma still_unlink f : plain_file f = true -> f <> LanesFile -> quiet (unlink r f : RM unit).
Proof. intros Hf Hl. eapply (still_set _ f); [done|by left|apply unlink_shape]. Qed.
Lemma still_collect {A B} (f : A -> RM B) l : (forall a, quiet (f a)) -> quiet (collect f l).
Proof. apply keeps_collect; [reflexivity|]. intros s t u. by transitivity t. Qed.
End calm.

#[export] Hint Resolve still_ret still_raise still_manual still_done still_lift still_inspect still_asks still_act still_attempt still_read still_elsewhere
  still_unlink_elsewhere still_test still_stop still_alive still_ready still_state : quiet.
#[export] Hint Extern 0 (keeps _ (write_json _ LanesFile _)) => apply still_write_lanes : quiet.
#[export] Hint Extern 1 (keeps _ (put_text _ _ _)) => apply still_put; done : quiet.
#[export] Hint Extern 1 (keeps _ (write_json _ _ _)) => apply still_write; done : quiet.
#[export] Hint Extern 1 (keeps _ (unlink _ _)) => apply still_unlink; done : quiet.
#[export] Hint Extern 1 (keeps _ (run_start _ _ _)) => apply still_start; done : quiet.
#[export] Hint Extern 1 (keeps _ (change_inner _)) => apply still_inner; done : quiet.

(** Step by step through a definition. *)
Ltac still_step :=
  match goal with
  | |- keeps _ (mbind _ _) => apply still_bind; [|intros ?]
  | |- keeps _ (outcome _) => apply still_outcome
  | |- keeps _ (collect _ _) => apply still_collect; intros ?
  | |- keeps _ (match ?x with _ => _ end) => destruct x
  | |- keeps _ _ => solve [eauto 2 with quiet]
  end.
Ltac quietly := repeat still_step.

Section quiet.
Context {H : Type} {MH : Machine H} {UT : UnicodeText} {FT : FloatText} {SD : SerdeDisplay} {SHA : Sha256} {B64 : Base64} {UB : UrlBase64} {SJ : SerdeJson}.
Context {R : Node H -> Node H -> Prop} {FR : Frame R}.
Context (r : Router).

Abbreviation RM := (Eff RouterError (Node H)).
Abbreviation quiet m := (keeps R m).

Lemma still_state_read : quiet (state r : RM _).
Proof. unfold state. quietly. Qed.
Lemma still_current : quiet (current r : RM _).
Proof. unfold current. quietly. Qed.
#[local] Hint Resolve still_state_read still_current : quiet.
Lemma still_the_current : quiet (the_current r : RM _).
Proof. unfold the_current. quietly. Qed.
Lemma still_journal : quiet (journal r : RM _).
Proof. unfold journal. quietly. Qed.
Lemma still_require_idle : quiet (require_idle r : RM _).
Proof. unfold require_idle, phase. quietly. Qed.
Lemma still_when b m : quiet m -> quiet (when b m : RM unit).
Proof. unfold when. intros. quietly. Qed.
Lemma still_tun_present : quiet (tun_present r : RM _).
Proof. unfold tun_present. quietly. Qed.
Lemma still_tun_index : quiet (tun_index r : RM _).
Proof. unfold tun_index. quietly. Qed.
Lemma still_warp_wg : quiet (warp_wg r : RM _).
Proof. unfold warp_wg. quietly. Qed.
#[local] Hint Resolve still_the_current still_journal still_require_idle still_tun_present still_tun_index still_warp_wg : quiet.
Lemma still_ensure_warp_wg : quiet (ensure_warp_wg r : RM _).
Proof. unfold ensure_warp_wg. quietly. Qed.
#[local] Hint Resolve still_ensure_warp_wg : quiet.
Lemma still_needs_warp service document : quiet (needs_warp r service document : RM _).
Proof. unfold needs_warp. quietly. Qed.
Lemma still_token n : quiet (token_urlsafe n : RM _).
Proof. unfold token_urlsafe. quietly. Qed.
Lemma still_token_hex n : quiet (token_hex n : RM _).
Proof. unfold token_hex. quietly. Qed.
#[local] Hint Resolve still_token : quiet.
Lemma still_mtproxy_credential : quiet (mtproxy_credential r : RM _).
Proof. unfold mtproxy_credential. quietly. Qed.
#[local] Hint Resolve still_mtproxy_credential : quiet.
Lemma still_publish : quiet (publish_mtproxy_credential r : RM _).
Proof. unfold publish_mtproxy_credential. quietly. Qed.
Lemma still_ingress_of tag : quiet (ingress_of r tag : RM _).
Proof. unfold ingress_of. quietly. Qed.
#[local] Hint Resolve still_ingress_of : quiet.
Lemma still_ingresses : quiet (ingresses r : RM _).
Proof. unfold ingresses. quietly. Qed.
Lemma still_ingress service : quiet (ingress r service : RM _).
Proof. unfold ingress. quietly. Qed.
Lemma still_lanes_file : quiet (lanes_file r : RM _).
Proof. unfold lanes_file. quietly. Qed.
#[local] Hint Resolve still_ingresses still_lanes_file : quiet.
Lemma still_lane_accounts : quiet (lane_accounts r : RM _).
Proof. unfold lane_accounts. quietly. Qed.
Lemma still_current_intents c : quiet (current_intents r c : RM _).
Proof. unfold current_intents. quietly. Qed.
Lemma still_relay_record : quiet (relay_record r : RM _).
Proof. unfold relay_record. quietly. Qed.
#[local] Hint Resolve still_relay_record still_lane_accounts : quiet.
Lemma still_relay_settings : quiet (relay_settings r : RM _).
Proof. unfold relay_settings. quietly. Qed.
Lemma still_relay_view : quiet (relay_view r : RM _).
Proof. unfold relay_view. quietly. Qed.
#[local] Hint Resolve still_relay_settings : quiet.
Lemma still_render intents account : quiet (render r intents account : RM _).
Proof. unfold render. quietly. Qed.
Lemma still_the_service service : quiet (the_service r service : RM _).
Proof. unfold the_service. quietly. Qed.
Lemma still_tun_changed : quiet (tun_changed r : RM _).
Proof. unfold tun_changed. quietly. Qed.
Lemma still_providers : quiet (providers r : RM _).
Proof. unfold providers. quietly. Qed.
Lemma still_running : quiet (running_process : RM _).
Proof. unfold running_process. quietly. Qed.
#[local] Hint Resolve still_render still_the_service still_providers still_running still_relay_view : quiet.
Lemma still_status : quiet (status r : RM _).
Proof. unfold status. quietly. Qed.
Lemma still_egress service : quiet (egress r service : RM _).
Proof. unfold egress. quietly. Qed.
Lemma still_target service revision document : quiet (target r service revision document : RM _).
Proof. unfold target. quietly. Qed.
Lemma still_check_hops document : quiet (check_hops document : RM _).
Proof. unfold check_hops, check_hop. quietly. Qed.
#[local] Hint Resolve still_target still_check_hops : quiet.
Lemma still_plan service revision document : quiet (egress_plan r service revision document : RM _).
Proof. unfold egress_plan. quietly. Qed.
Lemma still_lanes service : quiet (lanes r service : RM _).
Proof. unfold lanes. quietly. Qed.
Lemma still_run_exit_test document : quiet (run_exit_test r document : RM _).
Proof. unfold run_exit_test. quietly. Qed.
#[local] Hint Resolve still_run_exit_test : quiet.
Lemma still_exit_test busy spec : quiet (exit_test r busy spec : RM _).
Proof. unfold exit_test. quietly. Qed.
Lemma still_verify : quiet (verify_artifacts r : RM _).
Proof. unfold verify_artifacts. quietly. Qed.
Lemma still_commit_book g d ops rb books s : quiet (commit_book g d ops rb books s : RM _).
Proof. unfold commit_book. quietly. Qed.
#[local] Hint Resolve still_commit_book : quiet.
Lemma still_commit_books g d ops rb services : forall books entries, quiet (commit_books g d ops rb services books entries : RM _).
Proof. induction services; intros; cbn [commit_books]; quietly. Qed.
End quiet.

#[export] Hint Resolve still_state_read still_current still_the_current still_journal still_require_idle still_when still_tun_present still_tun_index
  still_warp_wg still_ensure_warp_wg still_needs_warp still_token still_token_hex still_mtproxy_credential still_publish still_ingresses
  still_lanes_file still_lane_accounts still_current_intents still_relay_record still_relay_settings still_relay_view still_render
  still_the_service still_tun_changed still_target still_check_hops still_verify still_commit_books : quiet.
