(* ===== verification/RouterHistory.v ===== *)
(** * The history of a node

    What holds of a router's manager at every moment, whatever Xray, the disk and the requests do: at most one
    Xray process runs at a time, and [current.json] always names a generation that is on the disk and whose
    configuration Xray accepted and came up with. A crash may leave any state of the disk there ever was. *)

From stdpp Require Import sets.
From S2P Require Import Prelude BTree Utf8 Numeric Json PyText IndexMap Plan IpAddr AwgKeys Effect.
From S2P Require Import RouterIp RouterIntent RouterRender RouterWarp RouterNode RouterService RouterFrame.

(** ** Requests and histories *)

Inductive Request :=
| GetStatus | GetEgress (service : string) | GetIngress (service : string) | GetLanes (service : string) | GetRelay
| Plan (service : string) (revision document : Value)
| Apply (service : string) (revision document operation : Value)
| Rollback (service : string) (revision : Value)
| IssueLane (service : string) (lane : Value)
| ForgetLane (service lane : string)
| EnableRelay (server_name port : Value)
| DisableRelay
| SetRelayAccounts (accounts : Value)
| TestExit (busy : bool) (spec : Value)
| Watch | Close.

Section history.
Context {H : Type} {MH : Machine H} {UT : UnicodeText} {FT : FloatText} {SD : SerdeDisplay} {SHA : Sha256} {B64 : Base64} {UB : UrlBase64} {SJ : SerdeJson}.
Context (r : Router).

Abbreviation RM := (Eff RouterError (Node H)).

Definition answered (m : RM unit) : RM Value := m ≫= fun _ => mret Null.

Definition serve (q : Request) : RM Value :=
  match q with
  | GetStatus => status r
  | GetEgress service => egress r service
  | GetIngress service => ingress r service
  | GetLanes service => lanes r service
  | GetRelay => relay_view r
  | Plan service revision document => egress_plan r service revision document
  | Apply service revision document operation => egress_apply r service revision document operation
  | Rollback service revision => egress_rollback r service revision
  | IssueLane service lane => lane_issue r service lane
  | ForgetLane service lane => lane_forget r service lane
  | EnableRelay server_name port => relay_enable r server_name port
  | DisableRelay => relay_disable r
  | SetRelayAccounts accounts => relay_set_accounts r accounts
  | TestExit busy spec => exit_test r busy spec
  | Watch => answered (watchdog_tick r)
  | Close => answered close
  end.

(** A disk of the node: the one it has, or one it had. *)
Definition a_disk_of (n : Node H) (files : Files) : Prop := files = n_files n \/ Stored files ∈ n_trace n.

(** The manager, started over on a disk. *)
Definition restarted (n : Node H) (files : Files) (h : H) : Node H :=
  {| n_files := files; n_inner := no_inner; n_host := h; n_trace := n_trace n ++ [Restarted] |}.

Definition no_files : Files := fun _ => None.

(** A node from an empty state directory on. *)
Inductive reachable : Node H -> Prop :=
| reachable_new h : reachable {| n_files := no_files; n_inner := no_inner; n_host := h; n_trace := [] |}
| reachable_boot n files h : reachable n -> a_disk_of n files -> reachable (bootstrap r (restarted n files h)).2
| reachable_serve n q : reachable n -> reachable (serve q n).2.
End history.

(** ** What most of the code leaves alone *)

Definition touchy (f : RFile) : bool := match f with CurrentFile | Generation _ => true | _ => false end.
Definition stated {FT : FloatText} (files : Files) : Prop := exists phase candidate failures, files StateFile = Some (file_text (state_document phase candidate failures)).

(** Generations and [current.json] are as they were, and the state is as it was or one the code writes. *)
Definition aside {FT : FloatText} (F F' : Files) : Prop := (forall f, touchy f = true -> F' f = F f) /\ (F' StateFile = F StateFile \/ stated F').

#[export] Instance aside_preorder {FT : FloatText} : PreOrder aside.
Proof.
  split; [by intros F; split; [|left]|]. intros F G K [H1 H2] [H3 H4]. split.
  - intros f Hf. by rewrite H3, H1.
  - destruct H4 as [H4|H4]; [|by right]. destruct H2 as [H2|(p & c & n & H2)]; [left; by rewrite H4|].
    right. exists p, c, n. by rewrite H4.
Qed.

(** No process of a generation is started; the disk changes on the side. *)
Definition calm_event {FT : FloatText} (F : Files) (e : Event) : Prop :=
  match e with
  | Stored files => aside F files
  | Started f _ _ => touchy f = false
  | Restarted => False
  | _ => True
  end.

Record calm {H} {FT : FloatText} (n n' : Node H) : Prop := {
  calm_files : aside (n_files n) (n_files n');
  calm_handle : handle (n_inner n') = handle (n_inner n);
  calm_trace : exists new, n_trace n' = n_trace n ++ new /\ Forall (calm_event (n_files n)) new;
}.

#[export] Instance calm_preorder {H} {FT : FloatText} : PreOrder (@calm H FT).
Proof.
  split.
  - intros n. split; [reflexivity|reflexivity|]. exists []. by rewrite app_nil_r.
  - intros a b c [F1 H1 (x & T1 & E1)] [F2 H2 (y & T2 & E2)]. split; [by transitivity (n_files b)|congruence|].
    exists (x ++ y). split; [rewrite T2, T1; by rewrite app_assoc|]. apply Forall_app. split; [done|].
    eapply Forall_impl; [exact E2|]. intros [fs| | | | | |]; cbn; try done. intros Ha. by transitivity (n_files b).
Qed.

Lemma aside_set {FT : FloatText} f text (files : Files) : touchy f = false -> f <> StateFile \/ (exists p c k, text = Some (file_text (state_document p c k))) ->
  aside files (set_text f text files).
Proof.
  intros Hf Hs. split.
  - intros g Hg. apply set_text_other. intros ->. by rewrite Hf in Hg.
  - destruct (decide (f = StateFile)) as [->|Hne].
    + destruct Hs as [Hs|(p & c & k & ->)]; [done|]. right. exists p, c, k. apply set_text_this.
    + left. by apply set_text_other, not_eq_sym.
Qed.

Lemma plain_untouchy f : plain_file f = true -> touchy f = false /\ f <> StateFile.
Proof. by destruct f. Qed.

#[export] Instance calm_frame {H} {FT : FloatText} : Frame (@calm H FT).
Proof.
  split; [apply _| |].
  - intros n n' new H1 H2 H3 H4. split; [by rewrite H1|done|]. exists new. split; [done|]. eapply Forall_impl; [exact H4|].
    intros [ | |f p x| | | |]; cbn; try done. apply plain_untouchy.
  - intros n n' f text _ Ha H1 H2 H3. assert (Hs : aside (n_files n) (set_text f text (n_files n))).
    { destruct Ha as [Hf%plain_untouchy|[-> Hs]]; apply aside_set; [apply Hf|left; apply Hf|done|by right]. }
    split; [by rewrite H2|done|]. eexists. split; [exact H3|]. by apply list.Forall_singleton.
Qed.

#[export] Instance calm_lanes {H} {FT : FloatText} : LaneFrame (@calm H FT).
Proof.
  intros n n' text H1 H2 H3. assert (Hs : aside (n_files n) (set_text LanesFile text (n_files n))) by (by apply aside_set; [|left]).
  split; [by rewrite H2|done|]. eexists. split; [exact H3|]. by apply list.Forall_singleton.
Qed.

(** The journal is on the side too. *)
Lemma calm_journal {H} {MH : Machine H} {FT : FloatText} (r : Router) v : keeps calm (write_json r JournalFile v : Eff RouterError (Node H) unit).
Proof.
  intros n. unfold write_json. pose proof (put_shape r JournalFile (file_text v) n) as [H1 [[H2 H3]|[H2 H3]]].
  - split; [by rewrite H2|done|]. exists []. by rewrite app_nil_r.
  - assert (Hs : aside (n_files n) (set_text JournalFile (Some (file_text v)) (n_files n))) by (apply aside_set; [done|by left]).
    split; [by rewrite H2|done|]. eexists. split; [exact H3|]. by apply list.Forall_singleton.
Qed.
#[export] Hint Resolve calm_journal : quiet.

(** ** The invariant *)

(** The processes of generations that were started and neither stopped nor found dead. *)
Definition live_step (l : list N) (e : Event) : list N :=
  match e with
  | Started (Generation _) p _ => p :: l
  | Stopped p | FoundDead p => base.filter (fun q => q <> p) l
  | Restarted => []
  | _ => l
  end.
Definition live (t : list Event) : list N := fold_left live_step t [].

(** Whenever a generation's process is started, none runs. *)
Definition solo (t : list Event) : Prop := forall a b g p x, t = a ++ Started (Generation g) p x :: b -> live a = [].

(** Xray accepted the text, and came up with it as generation [g]. *)
Definition proven (t : list Event) (g : Z) (text : string) : Prop :=
  exists p a b c d, t = a ++ Tested (Some text) true :: b ++ Started (Generation g) p (Some text) :: c ++ Ready p :: d.

Definition in_i64 (z : Z) : Prop := (i64_min <= z <= i64_max)%Z.

Section named.
Context {FT : FloatText} {SHA : Sha256}.

(** [current.json] names a generation that is there, is what it says, and ran. *)
Definition named (t : list Event) (F : Files) : Prop :=
  match F CurrentFile with
  | None => True
  | Some c => exists g since services text, c = file_text (current_document g (sha256_hex text) since services)
      /\ in_i64 g /\ F (Generation g) = Some text /\ proven t g text
  end.
Definition sound (t : list Event) (F : Files) : Prop := named t F /\ (F StateFile = None \/ stated F).

(** [free]: no process runs; otherwise the manager holds the one that does. *)
Record inv {H} (free : bool) (n : Node H) : Prop := {
  inv_files : sound (n_trace n) (n_files n);
  inv_stored : forall a F b, n_trace n = a ++ Stored F :: b -> sound a F;
  inv_solo : solo (n_trace n);
  inv_live : if free then live (n_trace n) = [] else forall p, p ∈ live (n_trace n) -> handle (n_inner n) = Some p;
}.

(** What [current.json] names is not generation [g]. *)
Definition fresh {H} (g : Z) (n : Node H) : Prop := forall g0 text since services,
  n_files n CurrentFile = Some (file_text (current_document g0 (sha256_hex text) since services)) -> in_i64 g0 -> g0 <> g.
End named.

Lemma live_app t u : live (t ++ u) = fold_left live_step u (live t).
Proof. apply fold_left_app. Qed.

(** Only a start of a generation's process adds to the running ones. *)
Definition starts (e : Event) : bool := match e with Started (Generation _) _ _ => true | _ => false end.

Lemma live_shrinks u : forall l, Forall (fun e => starts e = false) u -> fold_left live_step u l ⊆ l.
Proof.
  induction u as [|e u IH]; intros l Hu; [done|]. inversion_clear Hu as [|? ? He Hu']. cbn [fold_left].
  transitivity (live_step l e); [by apply IH|]. destruct e as [| |f p x| | | |]; cbn [live_step]; try done.
  - by destruct f.
  - intros q Hq. by apply list_elem_of_filter in Hq as [_ Hq].
  - intros q Hq. by apply list_elem_of_filter in Hq as [_ Hq].
  - intros q Hq. by apply not_elem_of_nil in Hq.
Qed.

Lemma solo_app t u : solo t -> Forall (fun e => starts e = false) u -> solo (t ++ u).
Proof.
  intros Ht Hu a b g p x Heq. apply app_eq_inv in Heq as [(k & Hk & Hb)|(k & Hk & Hb)].
  - destruct k as [|e k]; cbn in Hb.
    + subst u. by inversion Hu.
    + simplify_eq. by eapply Ht.
  - subst u. rewrite Forall_app in Hu. destruct Hu as [_ Hu]. by inversion Hu.
Qed.

Lemma proven_mono t u g text : proven t g text -> proven (t ++ u) g text.
Proof.
  intros (p & a & b & c & d & ->). exists p, a, b, c, (d ++ u). rewrite <-!app_assoc. cbn. do 2 f_equal. rewrite <-app_assoc. cbn.
  by rewrite <-app_assoc.
Qed.

Section invariant.
Context {H : Type} {FT : FloatText} {SHA : Sha256}.
Implicit Types (n : Node H).

Lemma sound_mono t u F : sound t F -> sound (t ++ u) F.
Proof.
  intros [Hn Hs]. split; [|done]. unfold named in *. destruct (F CurrentFile) as [cur|]; [|done].
  destruct Hn as (g & s & sv & text & H1 & H2 & H3 & H4). exists g, s, sv, text. split_and!; try done. by apply proven_mono.
Qed.

Lemma sound_aside t F F' : aside F F' -> sound t F -> sound t F'.
Proof.
  intros [Ha Hst] [Hn Hs]. split.
  - unfold named in *. rewrite Ha by done. destruct (F CurrentFile) as [cur|]; [|done].
    destruct Hn as (g & s & sv & text & H1 & H2 & H3 & H4). exists g, s, sv, text. split_and!; try done. by rewrite Ha.
  - destruct Hst as [Hst|]; [|by right]. destruct Hs as [Hs|(p & c & k & Hs)]; [left; congruence|right]. exists p, c, k. congruence.
Qed.

(** Appended events that store only sound disks and start nothing. *)
Lemma stored_app (t u : list Event) : (forall a F b, t = a ++ Stored F :: b -> sound a F) ->
  (forall a F b, u = a ++ Stored F :: b -> sound (t ++ a) F) -> forall a F b, t ++ u = a ++ Stored F :: b -> sound a F.
Proof.
  intros Ht Hu a F b Heq. apply app_eq_inv in Heq as [(k & Hk & Hb)|(k & Hk & Hb)].
  - destruct k as [|e k]; cbn in Hb.
    + rewrite app_nil_r in Hk. subst a. specialize (Hu [] F b). rewrite app_nil_r in Hu. by apply Hu.
    + simplify_eq. by eapply Ht.
  - subst a. by eapply Hu.
Qed.

Lemma inv_weaken b n : inv true n -> inv b n.
Proof.
  intros [H1 H2 H3 H4]. destruct b; [by split|]. split; [done..|]. intros p Hp. rewrite H4 in Hp. by apply not_elem_of_nil in Hp.
Qed.

(** A step that appends events without a start, from a disk to a sound one. *)
Lemma inv_step b n n' new : inv b n -> n_trace n' = n_trace n ++ new -> Forall (fun e => starts e = false) new ->
  handle (n_inner n') = handle (n_inner n) -> sound (n_trace n) (n_files n') ->
  (forall F, Stored F ∈ new -> sound (n_trace n) F) -> inv b n'.
Proof.
  intros [H1 H2 H3 H4] Ht Hs Hh Hf Hst. split.
  - rewrite Ht. by apply sound_mono.
  - rewrite Ht. apply stored_app; [done|]. intros a F c ->. apply sound_mono, Hst. set_solver.
  - rewrite Ht. by apply solo_app.
  - rewrite Ht, live_app. pose proof (live_shrinks new (live (n_trace n)) Hs) as Hl. destruct b.
    + rewrite H4 in *. destruct (fold_left _ _ _) as [|q l]; [done|]. exfalso. apply (not_elem_of_nil q), Hl. by left.
    + intros p Hp. rewrite Hh. by apply H4, Hl.
Qed.

Lemma calm_starts F e : calm_event F e -> starts e = false.
Proof. destruct e as [| |f p x| | | |]; try done. by destruct f. Qed.

Lemma inv_calm b n n' : calm n n' -> inv b n -> inv b n'.
Proof.
  intros [Ha Hh (new & Ht & He)] Hi. pose proof (inv_files _ _ Hi) as Hs. eapply inv_step; [exact Hi|exact Ht| |done| |].
  - eapply Forall_impl; [exact He|]. apply calm_starts.
  - by eapply sound_aside.
  - intros F HF. rewrite list.Forall_forall in He. specialize (He _ HF). by eapply sound_aside.
Qed.

Lemma fresh_calm g n n' : calm n n' -> fresh g n -> fresh g n'.
Proof. intros [[Ha _] _ _] Hf g0 text s sv. rewrite Ha by done. apply Hf. Qed.

(** A generation [current.json] does not name may be written and removed. *)
Lemma sound_generation g text t F : (forall g0 x s sv, F CurrentFile = Some (file_text (current_document g0 (sha256_hex x) s sv)) -> in_i64 g0 -> g0 <> g) ->
  sound t F -> sound t (set_text (Generation g) text F).
Proof.
  intros Hf [Hn Hs]. split.
  - unfold named in *. rewrite set_text_other by done. destruct (F CurrentFile) as [c|] eqn:Hc; [|done].
    destruct Hn as (g0 & s & sv & x & -> & H2 & H3 & H4). exists g0, s, sv, x. split_and!; try done.
    rewrite set_text_other; [done|]. intros [= ->]. by eapply Hf.
  - unfold stated in *. by rewrite !set_text_other.
Qed.
End invariant.

(** What the model asks of [serde_json]: the generation the code wrote is the one it reads. *)
Class ReadsGeneration `{SerdeJson} {FT : FloatText} {SHA : Sha256} : Prop :=
  reads_generation g text since services v : in_i64 g ->
    from_slice (file_text (current_document g (sha256_hex text) since services)) = Some v -> get "generation" v ≫= as_i64 = Some g.

Section steps.
Context {H : Type} {MH : Machine H} {UT : UnicodeText} {FT : FloatText} {SD : SerdeDisplay} {SHA : Sha256} {B64 : Base64} {UB : UrlBase64} {SJ : SerdeJson}.
Context (r : Router).
Implicit Types (n : Node H).

Abbreviation RM := (Eff RouterError (Node H)).
Abbreviation quiet m := (keeps (@calm H FT) m).

Lemma post_quiet {A} (m : RM A) n (Q : A -> Node H -> Prop) (X : RouterError -> Node H -> Prop) : quiet m ->
  (forall a n', m n = (Ok a, n') -> calm n n' -> Q a n') -> (forall e n', calm n n' -> X e n') -> post m n Q X.
Proof. intros Hm HQ HX. specialize (Hm n). unfold post. destruct (m n) as [[a|e] n']; [by apply HQ|by apply HX]. Qed.

Lemma post_asks {A} (f : H -> A) n (Q : A -> Node H -> Prop) X : Q (f (n_host n)) n -> post (asks f) n Q X.
Proof. done. Qed.
Lemma post_outcome {A} (m : RM A) n (Q : Checked A -> Node H -> Prop) X :
  post m n (fun a => Q (Ok a)) (fun e => Q (Err e)) -> post (outcome m) n Q X.
Proof. unfold post, outcome. by destruct (m n) as [[a|e] n']. Qed.

(** A calm prefix keeps what the rest needs. *)
Lemma post_calm {A B} (m : RM A) (f : A -> RM B) n b (Q : B -> Node H -> Prop) (X : RouterError -> Node H -> Prop) : quiet m -> inv b n ->
  (forall a n', m n = (Ok a, n') -> calm n n' -> inv b n' -> post (f a) n' Q X) -> (forall e n', inv b n' -> X e n') -> post (m ≫= f) n Q X.
Proof.
  intros Hm Hi HQ HX. apply post_bind_eff, post_quiet; [done| |].
  - intros a n' Ha Hc. apply HQ; [done|done|]. by eapply inv_calm.
  - intros e n' Hc. apply HX. by eapply inv_calm.
Qed.
Lemma post_calm_last {A} (m : RM A) n b (Q : A -> Node H -> Prop) (X : RouterError -> Node H -> Prop) : quiet m -> inv b n ->
  (forall a n', inv b n' -> Q a n') -> (forall e n', inv b n' -> X e n') -> post m n Q X.
Proof.
  intros Hm Hi HQ HX. apply post_quiet; [done|intros a n' _ Hc; apply HQ; by eapply inv_calm|intros e n' Hc; apply HX; by eapply inv_calm].
Qed.

(** *** Generations on the disk *)

Lemma inv_generation b n n' g text : inv b n -> fresh g n -> handle (n_inner n') = handle (n_inner n) ->
  ((n_files n' = n_files n /\ n_trace n' = n_trace n)
   \/ (n_files n' = set_text (Generation g) text (n_files n) /\ n_trace n' = n_trace n ++ [Stored (set_text (Generation g) text (n_files n))])) ->
  inv b n' /\ fresh g n'.
Proof.
  intros Hi Hf Hh [[E1 E2]|[E1 E2]].
  - split; [|by unfold fresh; rewrite E1]. eapply inv_step; [exact Hi|by rewrite E2, app_nil_r|by constructor|done| |].
    + rewrite E1. apply (inv_files _ _ Hi).
    + intros F HF. by apply not_elem_of_nil in HF.
  - pose proof (sound_generation g text _ _ Hf (inv_files _ _ Hi)) as Hs. split.
    + eapply inv_step; [exact Hi|exact E2|by repeat constructor|done|by rewrite E1|]. intros F HF%list_elem_of_singleton. by simplify_eq.
    + unfold fresh. rewrite E1, set_text_other by done. exact Hf.
Qed.

Lemma put_generation_spec b n g text : inv b n -> fresh g n ->
  post (put_text r (Generation g) text) n (fun _ n' => inv b n' /\ fresh g n' /\ n_files n' (Generation g) = Some text) (fun _ => inv b).
Proof.
  intros Hi Hf. pose proof (put_shape r (Generation g) text n) as [Hh Hs]. pose proof (inv_generation b n _ g _ Hi Hf Hh Hs) as [H1 H2].
  unfold post. unfold put_text in *. destruct (disk_put _ _ _) as [[|e|e] h]; cbn in *; try done.
  split_and!; [done|done|apply set_text_this].
Qed.
Lemma unlink_generation_spec b n g : inv b n -> fresh g n -> post (unlink r (Generation g)) n (fun _ n' => inv b n' /\ fresh g n') (fun _ => inv b).
Proof.
  intros Hi Hf. pose proof (unlink_shape r (Generation g) n) as [Hh Hs]. pose proof (inv_generation b n _ g _ Hi Hf Hh Hs) as [H1 H2].
  unfold post. by destruct (unlink r (Generation g) n) as [[[]|e] n'].
Qed.

(** *** Processes *)

(** The same files and handle after events that store nothing and start nothing. *)
Lemma inv_extend b n n' new : inv b n -> n_files n' = n_files n -> handle (n_inner n') = handle (n_inner n) -> n_trace n' = n_trace n ++ new ->
  Forall (fun e => starts e = false) new -> (forall F, Stored F ∉ new) -> inv b n'.
Proof.
  intros Hi Hf Hh Ht Hs Hn. eapply inv_step; [exact Hi|exact Ht|done|done|rewrite Hf; apply (inv_files _ _ Hi)|].
  intros F HF. by apply Hn in HF.
Qed.

(** The manager lets its process go: none runs. *)
Lemma stop_running_spec n : inv false n ->
  post stop_running n (fun _ n' => inv true n' /\ n_files n' = n_files n /\ exists x, n_trace n' = n_trace n ++ x) (fun _ _ => False).
Proof.
  intros [H1 H2 H3 H4]. unfold post, stop_running, take_handle, run_stop, done, mbind, Eff_bind, mret, Eff_ret. destruct (handle (n_inner n)) as [p|] eqn:Hh; cbn [n_files n_trace n_inner n_host set_inner set_host happened].
  - split; [|by split; [|eexists]]. split; cbn [n_files n_trace n_inner n_host set_inner set_host happened].
    + by apply sound_mono.
    + apply stored_app; [done|]. intros a F b Heq. by destruct a as [|? [|]].
    + apply solo_app; [done|by repeat constructor].
    + rewrite live_app. cbn [fold_left live_step]. destruct (base.filter _ _) as [|q l] eqn:Hl; [done|]. exfalso.
      assert (Hq : q ∈ base.filter (fun q => q <> p) (live (n_trace n))) by (rewrite Hl; by left).
      apply list_elem_of_filter in Hq as [Hq1 Hq2]. apply Hq1. specialize (H4 _ Hq2). congruence.
  - split; [|split; [done|]; exists []; by rewrite app_nil_r]. split; try done. cbn [n_trace set_inner]. destruct (live _) as [|q l] eqn:Hl; [done|].
    assert (Hq : Some q = None) by (symmetry; apply H4; by left). done.
Qed.

(** A process of generation [g], ready. *)
Definition came_up (g : Z) (text : option string) (new : list Event) : Prop :=
  exists p a b c, new = a ++ Started (Generation g) p text :: b ++ Ready p :: c.

(** The node as if the manager held process [p]. *)
Definition hold (p : option N) (i : Inner) : Inner :=
  {| handle := p; artifact_error := artifact_error i; artifact_report := artifact_report i; inner_xray_version := inner_xray_version i;
     started_at := started_at i; tun_rendered := tun_rendered i; tun_ifindex := tun_ifindex i |}.
Definition holding (p : N) n : Node H := set_inner (hold (Some p) (n_inner n)) n.

Lemma calm_holding p n n' : calm n n' -> calm (holding p n) (holding p n').
Proof. intros [H1 _ H3]. by split. Qed.
Lemma inv_ext b n n' : inv b n -> n_files n' = n_files n -> n_trace n' = n_trace n -> handle (n_inner n') = handle (n_inner n) -> inv b n'.
Proof. intros [H1 H2 H3 H4] E1 E2 E3. split; [by rewrite E1, E2|by rewrite E2|by rewrite E2|by rewrite E2, E3]. Qed.

Lemma run_start_spec g tun n : inv true n ->
  post (run_start r (Generation g) tun) n
    (fun p n' => inv false (holding p n') /\ n_files n' = n_files n /\ n_trace n' = n_trace n ++ [Started (Generation g) p (n_files n (Generation g))])
    (fun _ n' => inv true n' /\ n_files n' = n_files n /\ n_trace n' = n_trace n).
Proof.
  intros [H1 H2 H3 H4]. unfold post, run_start. destruct (xray_start _ _ _ _) as [[p|e] h]; [|by split].
  split; [|done]. split; unfold holding; cbn [n_files n_trace n_inner set_inner set_host happened].
  - by apply sound_mono.
  - apply stored_app; [done|]. intros a F b Heq. by destruct a as [|? [|]].
  - intros a b g' q x Heq. apply app_eq_inv in Heq as [(k & Hk & Hb)|(k & Hk & Hb)].
    + destruct k as [|e k]; cbn in Hb; simplify_eq; [|by eapply H3]. rewrite app_nil_r in Hk. congruence.
    + subst a. destruct k as [|e [|]]; cbn in Hb; simplify_eq. by rewrite app_nil_r.
  - rewrite live_app, H4. cbn [fold_left live_step]. intros q Hq%list_elem_of_singleton. by subst.
Qed.

(** A process that is stopped before the manager holds it. *)
Lemma run_stop_held p n : inv false (holding p n) -> inv true (run_stop p n).2.
Proof.
  intros [H1 H2 H3 H4]. unfold run_stop. split; cbn [n_files n_trace n_inner set_host happened snd].
  - by apply sound_mono.
  - apply stored_app; [done|]. intros a F b Heq. by destruct a as [|? [|]].
  - apply solo_app; [done|by repeat constructor].
  - rewrite live_app. cbn [fold_left live_step]. destruct (base.filter _ _) as [|q l] eqn:Hl; [done|]. exfalso.
    assert (Hq : q ∈ base.filter (fun q => q <> p) (live (n_trace n))) by (rewrite Hl; by left).
    apply list_elem_of_filter in Hq as [Hq1 Hq2]. apply Hq1. specialize (H4 _ Hq2). by cbn in H4; simplify_eq.
Qed.

Lemma tun_index_pure n : exists index, tun_index r n = (Ok index, n).
Proof. unfold tun_index. destruct (amneziawg_tun r); by eexists. Qed.

(** The process comes to be the manager's, or is stopped again. *)
Lemma settle_start_spec tun sockets p n : inv false (holding p n) ->
  post (settle_start r tun sockets p) n
    (fun _ n' => inv false n' /\ n_files n' = n_files n /\ exists x y, n_trace n' = n_trace n ++ x ++ Ready p :: y)
    (fun _ n' => inv true n' /\ n_files n' = n_files n).
Proof.
  intros Hi. unfold settle_start.
  set (m := match tun with Some _ => tun_index r | None => mret None end).
  assert (Hm : exists index, m n = (Ok index, n)) by (unfold m; destruct tun; [apply tun_index_pure|by eexists]).
  destruct Hm as [index Hm]. unfold mbind, Eff_bind, post. rewrite Hm. cbn [change_inner update].
  unfold outcome, run_ready. destruct (xray_ready _ _ _) as [[[]|e] h]; cbn [n_files n_trace n_inner n_host set_inner set_host happened].
  - unfold act. destruct (now_iso _) as [now h']. cbn [change_inner update n_files n_trace n_inner n_host set_inner set_host happened].
    split; [|by split; [|exists [], []]]. eapply inv_extend with (new := [Ready p]); [exact Hi|done|done|done|by repeat constructor|].
    intros F HF%list_elem_of_singleton. done.
  - split; [|done]. apply run_stop_held. by eapply inv_ext; [exact Hi| | |].
Qed.

Lemma still_clear_socket : quiet (clear_socket r : RM _).
Proof. unfold clear_socket. quietly. Qed.
Lemma still_exists f : quiet (file_exists f : RM _).
Proof. apply still_inspect. Qed.

Lemma start_generation_spec g n : inv true n ->
  post (start_generation r g) n
    (fun _ n' => inv false n' /\ aside (n_files n) (n_files n') /\ exists new, n_trace n' = n_trace n ++ new /\ came_up g (n_files n (Generation g)) new)
    (fun _ n' => inv true n' /\ aside (n_files n) (n_files n')).
Proof.
  intros Hi. unfold start_generation. apply post_bind_eff, post_quiet; [apply still_exists| |by intros e n' Hc; split; [eapply inv_calm|apply Hc]].
  intros there n1 _ H1. destruct there; cbn [negb].
  2: { split; [by eapply inv_calm|apply H1]. }
  apply post_bind_eff, post_quiet; [apply still_clear_socket| |].
  2: { intros e n' Hc. assert (H2 : calm n n') by (by transitivity n1). split; [by eapply inv_calm|apply H2]. }
  intros sockets n2 _ H12. assert (H2 : calm n n2) by (by transitivity n1). clear n1 H1 H12.
  apply post_bind_eff, post_inspect, post_bind_eff, post_asks, post_bind_eff. eapply post_mono; [apply run_start_spec; by eapply inv_calm| |].
  - intros p n3 (I3 & F3 & T3). eapply post_mono; [by apply settle_start_spec| |].
    + intros _ n4 (I4 & F4 & x & y & T4). split; [done|]. destruct H2 as [A2 _ (t & T2 & _)]. split; [by rewrite F4, F3|].
      exists (t ++ Started (Generation g) p (n_files n2 (Generation g)) :: x ++ Ready p :: y). split.
      * rewrite T4, T3, T2, <-!app_assoc. done.
      * exists p, t, x, y. destruct A2 as [A2 _]. by rewrite A2.
    + intros e n4 (I4 & F4). split; [done|]. rewrite F4, F3. apply H2.
  - intros e n3 (I3 & F3 & T3). split; [done|]. rewrite F3. apply H2.
Qed.

Lemma fall_back_spec g previous n : inv true n -> fresh g n -> post (fall_back r g previous) n (fun _ _ => False) (fun _ => inv false).
Proof.
  intros Hi Hf. unfold fall_back. apply post_bind_eff. eapply post_mono; [by apply unlink_generation_spec| |by intros e n'; apply inv_weaken].
  intros _ n1 [I1 F1]. destruct previous as [c|].
  - apply post_bind_eff, post_lift; [intros g' _|by intros e _; apply inv_weaken]. apply post_bind_eff, post_outcome.
    eapply post_mono; [by apply start_generation_spec| |].
    + intros _ n2 (I2 & _). eapply post_calm; [apply still_state|exact I2| |done]. intros ? n3 _ _ I3. done.
    + intros e n2 [I2 _]. pose proof (inv_weaken false _ I2) as I2'. destruct e; try exact I2'.
      eapply post_calm; [apply still_state|exact I2'| |done]. intros ? n3 _ _ I3. done.
  - eapply post_calm; [apply still_state|exact (inv_weaken false _ I1)| |done]. intros ? n2 _ _ I2. done.
Qed.

Lemma swap_spec g previous n : inv false n -> fresh g n ->
  post (swap r g previous) n
    (fun _ n' => inv false n' /\ aside (n_files n) (n_files n') /\ exists new, n_trace n' = n_trace n ++ new /\ came_up g (n_files n (Generation g)) new)
    (fun _ => inv false).
Proof.
  intros Hi Hf. unfold swap. eapply post_calm; [apply still_state|exact Hi| |done]. intros _ n1 _ H1 I1.
  apply post_bind_eff. eapply post_mono; [by apply stop_running_spec| |done]. intros _ n2 (I2 & F2 & x & T2).
  assert (Hf2 : fresh g n2) by (intros g0 t s sv; rewrite F2; by apply (fresh_calm g n n1 H1 Hf)).
  apply post_bind_eff, post_outcome. eapply post_mono; [by apply start_generation_spec| |].
  - intros _ n3 (I3 & A3 & new & T3 & p & a & b & c & ->). split; [done|]. destruct H1 as [A1 _ (y & T1 & _)]. split.
    + transitivity (n_files n1); [done|]. by rewrite <-F2.
    + exists (y ++ x ++ a ++ Started (Generation g) p (n_files n2 (Generation g)) :: b ++ Ready p :: c). split.
      * by rewrite T3, T2, T1, <-!app_assoc.
      * exists p, (y ++ x ++ a), b, c. rewrite F2, <-!app_assoc. destruct A1 as [A1 _]. by rewrite A1.
  - intros e n3 [I3 A3]. assert (Hf3 : fresh g n3) by (intros g0 t s sv; destruct A3 as [A3 _]; rewrite A3 by done; apply Hf2).
    destruct e; try (apply post_raise; exact (inv_weaken false _ I3)). eapply post_mono; [exact (fall_back_spec g previous n3 I3 Hf3)|done|done].
Qed.

Lemma run_test_spec f b n : inv b n ->
  post (run_test r f) n (fun _ n' => inv b n' /\ n_files n' = n_files n /\ n_trace n' = n_trace n ++ [Tested (n_files n f) true])
    (fun _ n' => inv b n' /\ n_files n' = n_files n).
Proof.
  intros Hi. pose proof (still_test r f n) as Hc. unfold post, run_test in *. destruct (xray_test _ _ _) as [[[]|e] h]; (split; [by eapply inv_calm|done]).
Qed.

Lemma put_current_spec g text since services n : inv false n -> in_i64 g -> n_files n (Generation g) = Some text -> proven (n_trace n) g text ->
  post (write_json r CurrentFile (current_document g (sha256_hex text) since services)) n (fun _ => inv false) (fun _ => inv false).
Proof.
  intros Hi Hg Hf Hp. unfold write_json. set (doc := file_text _).
  pose proof (put_shape r CurrentFile doc n) as [Hh Hs].
  assert (Hsound : sound (n_trace n) (set_text CurrentFile (Some doc) (n_files n))).
  { destruct (inv_files _ _ Hi) as [_ Hst]. split.
    - unfold named. rewrite set_text_this. exists g, since, services, text. by rewrite set_text_other.
    - unfold stated in *. by rewrite !set_text_other. }
  assert (I' : inv false (put_text r CurrentFile doc n).2).
  { destruct Hs as [[E1 E2]|[E1 E2]]; [by eapply inv_ext|]. eapply inv_step; [exact Hi|exact E2|by repeat constructor|done|by rewrite E1|].
    intros F HF%list_elem_of_singleton. by simplify_eq. }
  unfold post. by destruct (put_text _ _ _ _) as [[[]|e] n'].
Qed.

(** ** Commits *)

Lemma in_i64_succ g : in_i64 (succ_i64 g).
Proof. unfold in_i64, succ_i64, i64_min, i64_max. pose proof (Z.mod_pos_bound (g + 1 + 2 ^ 63) (2 ^ 64) ltac:(lia)). lia. Qed.
Lemma succ_i64_ne g : in_i64 g -> g <> succ_i64 g.
Proof.
  unfold in_i64, succ_i64, i64_min, i64_max. intros Hg Heq. destruct (Z.eq_dec g (2 ^ 63 - 1)%Z) as [->|Hne]; [discriminate Heq|].
  rewrite Z.mod_small in Heq; lia.
Qed.

Lemma commit_spec g intents operations rollback_of keep n : inv false n -> fresh g n -> in_i64 g ->
  post (commit_generation r g intents operations rollback_of keep) n (fun _ => inv false) (fun _ => inv false).
Proof.
  intros Hi Hf Hg. unfold commit_generation. eapply post_calm; [apply still_render|exact Hi| |done]. intros config n1 _ C1 I1.
  pose proof (fresh_calm _ _ _ C1 Hf) as Hf1. clear n Hi Hf C1.
  apply post_bind_eff. eapply post_mono; [by apply put_generation_spec| |done]. intros _ n2 (I2 & Hf2 & G2).
  apply post_bind_eff, post_outcome. eapply post_mono; [by apply run_test_spec| |].
  2: { intros e n3 [I3 F3]. assert (Hf3 : fresh g n3) by (intros g0 t s sv; rewrite F3; apply Hf2).
    destruct e; try exact I3. do 2 apply post_bind_eff. eapply post_mono; [by apply unlink_generation_spec| |done]. intros ? n4 [I4 _]. exact I4. }
  intros _ n3 (I3 & F3 & T3). apply post_bind_eff, post_ret_eff. rewrite G2 in T3.
  eapply post_calm; [apply still_current|exact I3| |done]. intros previous n4 _ C4 I4.
  assert (Hf4 : fresh g n4) by (apply (fresh_calm _ _ _ C4); intros g0 t s sv; rewrite F3; apply Hf2).
  assert (G4 : n_files n4 (Generation g) = Some (config_bytes config)) by (destruct C4 as [[A _] _ _]; by rewrite A, F3).
  apply post_bind_eff. eapply post_mono; [by apply swap_spec| |done]. intros _ n5 (I5 & A5 & new & T5 & p & a & b & c & ->).
  assert (G5 : n_files n5 (Generation g) = Some (config_bytes config)) by (destruct A5 as [A5 _]; by rewrite A5).
  assert (P5 : proven (n_trace n5) g (config_bytes config)).
  { destruct C4 as [_ _ (y & T4 & _)]. rewrite T5, T4, T3, G4. exists p, (n_trace n2), (y ++ a), b, c. by rewrite <-!app_assoc. }
  apply post_bind_eff, post_lift; [|done]. intros services _.
  eapply post_calm; [apply still_act|exact I5| |done]. intros since n6 _ C6 I6.
  apply post_bind_eff. unfold generation_digest. eapply post_mono; [apply put_current_spec; [exact I6|done| |]| |done].
  - destruct C6 as [[A _] _ _]. by rewrite A.
  - destruct C6 as [_ _ (y & -> & _)]. by apply proven_mono.
  - intros ? n7 I7. eapply post_calm_last; [|exact I7|done|done].
    apply still_bind; [destruct keep; [apply still_journal|apply still_ret]|intros books]. quietly.
Qed.

(** *** Which generation comes next *)

Context {RG : ReadsGeneration}.

Lemma with_services_generation m m' : with_services r m = Ok m' -> bget "generation" m' = bget "generation" m.
Proof.
  unfold with_services. intros Hm. destruct (as_object _) as [sv|]; [|done]. cbn in Hm. apply Ok_inj in Hm as <-. by apply bget_iset_ne.
Qed.

Lemma ret_inv {A} (a c : A) n n' : (mret a : RM A) n = (Ok c, n') -> c = a /\ n' = n.
Proof. intros Heq. unfold mret, Eff_ret in Heq. by simplify_eq. Qed.

Lemma current_reads n c n' : current r n = (Ok c, n') -> match c with
  | Some c => exists text v, n_files n CurrentFile = Some text /\ from_slice text = Some v /\ get "generation" c = get "generation" v
  | None => n_files n CurrentFile = None \/ exists text, n_files n CurrentFile = Some text /\ from_slice text = Some Null
  end.
Proof.
  unfold current, read_json, mbind, Eff_bind. destruct (n_files n CurrentFile) as [text|] eqn:Hf.
  - destruct (disk_read_error _ _); [done|]. destruct (from_slice text) as [v|] eqn:Hv; [|done].
    destruct v as [| | | | |m]; cbn; intros Heq; try done.
    + apply ret_inv in Heq as [-> _]. right. by exists text.
    + destruct (with_services r m) as [m'|] eqn:Hm; [|done]. apply ret_inv in Heq as [-> _]. exists text, (Object m). split_and!; [done|done|].
      by apply with_services_generation in Hm.
  - cbn. intros [-> _]%ret_inv. by left.
Qed.

Lemma fresh_succ n c n' g : current r n = (Ok (Some c), n') -> generation_number c = Ok g -> fresh (succ_i64 g) n.
Proof.
  intros Hc Hg g0 text since services Hf H0. apply current_reads in Hc as (t & v & E1 & E2 & E3). rewrite Hf in E1. injection E1 as <-.
  apply reads_generation in E2; [|done]. unfold generation_number in Hg. rewrite E3, E2 in Hg. apply Ok_inj in Hg as <-. by apply succ_i64_ne.
Qed.
Lemma fresh_none n n' g : current r n = (Ok None, n') -> fresh g n.
Proof.
  intros Hc g0 text since services Hf H0. apply current_reads in Hc as [Hc|(t & E1 & E2)]; [by rewrite Hf in Hc|]. rewrite Hf in E1.
  injection E1 as <-. by apply reads_generation in E2.
Qed.
Lemma fresh_other n c n' g : current r n = (Ok (Some c), n') -> get "generation" c ≫= as_i64 <> Some g -> fresh g n.
Proof.
  intros Hc Hg g0 text since services Hf H0. apply current_reads in Hc as (t & v & E1 & E2 & E3). rewrite Hf in E1. injection E1 as <-.
  apply reads_generation in E2; [|done]. rewrite E3 in Hg. congruence.
Qed.

Lemma the_current_some n c n' : the_current r n = (Ok c, n') -> current r n = (Ok (Some c), n').
Proof.
  unfold the_current, mbind, Eff_bind. destruct (current r n) as [[[c'|]|e] n1]; intros Heq; try done. by apply ret_inv in Heq as [-> ->].
Qed.

(** ** Every request *)

Abbreviation safe m := (forall n, inv false n -> post m n (fun _ => inv false) (fun _ => inv false)).

Lemma safe_quiet {A} (m : RM A) : quiet m -> safe m.
Proof. intros Hm n Hi. by eapply post_calm_last. Qed.
Lemma safely_bind {A B} (m : RM A) (f : A -> RM B) : safe m -> (forall a, safe (f a)) -> safe (m ≫= f).
Proof. intros Hm Hf n Hi. apply post_bind_eff. eapply post_mono; [by apply Hm| |done]. intros a n' I'. by apply Hf. Qed.
Lemma safe_then {A B} (m : RM A) (f : A -> RM B) : quiet m -> (forall a, safe (f a)) -> safe (m ≫= f).
Proof. intros Hm. apply safely_bind, safe_quiet, Hm. Qed.
Lemma safe_outcome {A} (m : RM A) : safe m -> safe (outcome m).
Proof. intros Hm n Hi. apply post_outcome, Hm, Hi. Qed.

Lemma current_still n c n' : current r n = (c, n') -> n' = n.
Proof.
  unfold current, read_json, mbind, Eff_bind. repeat case_match; cbn; intros; simplify_eq; try done.
  all: unfold lift, mret, Eff_ret, raise in *; repeat case_match; by simplify_eq.
Qed.

(** A commit of the generation after the one that was read. *)
Lemma commit_next c n0 n g intents operations rollback_of keep :
  current r n0 = (Ok (Some c), n0) -> generation_number c = Ok g -> calm n0 n -> inv false n ->
  post (commit_generation r (succ_i64 g) intents operations rollback_of keep) n (fun _ => inv false) (fun _ => inv false).
Proof.
  intros Hc Hg H0 Hi. apply commit_spec; [done| |apply in_i64_succ]. eapply fresh_calm; [exact H0|]. by eapply fresh_succ.
Qed.

Lemma the_current_read n c n' : the_current r n = (Ok c, n') -> current r n' = (Ok (Some c), n') /\ n' = n.
Proof. intros Hc%the_current_some. pose proof (current_still _ _ _ Hc) as ->. done. Qed.

Lemma safe_rerender : safe (rerender_current r).
Proof.
  intros n Hi. unfold rerender_current. eapply post_calm; [apply still_the_current|exact Hi| |done]. intros c n1 Hc _ I1.
  apply the_current_read in Hc as [Hc ->]. eapply post_calm; [apply still_require_idle|exact I1| |done]. intros _ n2 _ H2 I2.
  eapply post_calm; [apply still_current_intents|exact I2| |done]. intros intents n3 _ H3 I3.
  apply post_bind_eff, post_lift; [intros g Hg|done]. apply post_bind_eff. eapply post_mono; [eapply commit_next; [exact Hc|exact Hg| |exact I3]| |done].
  - by transitivity n2.
  - intros ? n4 I4. exact I4.
Qed.

(** Step by step through a request that commits by re-rendering. *)
Ltac safely_step :=
  match goal with
  | |- forall n, inv false n -> post (mbind _ _) _ _ _ => apply safely_bind; [|intros ?]
  | |- forall n, inv false n -> post (outcome _) _ _ _ => apply safe_outcome
  | |- forall n, inv false n -> post (rerender_current _) _ _ _ => apply safe_rerender
  | |- forall n, inv false n -> post (match ?x with _ => _ end) _ _ _ => destruct x
  | |- forall n, inv false n -> post _ _ _ _ => apply safe_quiet; solve [quietly]
  end.
Ltac safely := repeat safely_step.

Lemma safe_lane_issue service lane : safe (lane_issue r service lane).
Proof. unfold lane_issue. safely. Qed.
Lemma safe_relay_enable server_name port : safe (relay_enable r server_name port).
Proof. unfold relay_enable. safely. Qed.
Lemma safe_relay_disable : safe (relay_disable r).
Proof. unfold relay_disable. safely. Qed.
Lemma safe_relay_set_accounts accounts : safe (relay_set_accounts r accounts).
Proof. unfold relay_set_accounts. safely. Qed.
Lemma safe_close : safe close.
Proof. intros n Hi. eapply post_mono; [by apply stop_running_spec| |done]. intros ? n' (I' & _). exact (inv_weaken false _ I'). Qed.

(** Commits after a read of [current.json] at an earlier, calm node. *)
Lemma bind_inv {A B} (m : RM A) (f : A -> RM B) n b n' : (m ≫= f) n = (Ok b, n') -> exists a n1, m n = (Ok a, n1) /\ f a n1 = (Ok b, n').
Proof. unfold mbind, Eff_bind. destruct (m n) as [[a|e] n1]; [|done]. intros Hf. by exists a, n1. Qed.

Lemma target_read service revision document n c d intents n' : target r service revision document n = (Ok (c, d, intents), n') ->
  current r n = (Ok (Some c), n) /\ calm n n'.
Proof.
  intros Ht. pose proof (still_target r service revision document n) as Hc. rewrite Ht in Hc. split; [|exact Hc]. unfold target in Ht.
  apply bind_inv in Ht as (d' & n1 & Hd & Ht). unfold lift in Hd. simplify_eq. apply bind_inv in Ht as (c' & n2 & Hcur & Ht).
  apply the_current_read in Hcur as [Hcur ->]. apply bind_inv in Ht as (u & n3 & _ & Ht). destruct (negb _); [done|].
  apply ret_inv in Ht as [Ht _]. by simplify_eq.
Qed.

Lemma safe_apply service revision document operation : safe (egress_apply r service revision document operation).
Proof.
  intros n Hi. unfold egress_apply. eapply post_calm; [apply still_the_service|exact Hi| |done]. intros _ n1 _ _ I1. clear n Hi.
  destruct (as_str operation) as [op|]; [|exact I1]. destruct (negb _); [exact I1|]. apply post_bind_eff, post_lift; [intros ? _|done].
  eapply post_calm; [apply still_journal|exact I1| |done]. intros books n2 _ _ I2. clear n1 I1. destruct (bool_decide _); [by destruct (json_eq _ _)|].
  eapply post_calm; [apply still_target|exact I2| |done]. intros [[c d] intents] n3 Ht _ I3. apply target_read in Ht as [Hc H3].
  eapply post_calm; [apply still_needs_warp|exact I3| |done]. intros _ n4 _ H4 I4.
  eapply post_calm; [apply still_check_hops|exact I4| |done]. intros hops n5 _ H5 I5.
  eapply post_calm; [|exact I5| |done]; [quietly|]. intros _ n6 _ H6 I6.
  apply post_bind_eff, post_lift; [intros g Hg|done]. apply post_bind_eff. eapply post_mono; [eapply commit_next; [exact Hc|exact Hg| |exact I6]| |done].
  - transitivity n3; [done|]. transitivity n4; [done|]. by transitivity n5.
  - intros entries n7 I7. exact I7.
Qed.

Lemma safe_rollback service revision : safe (egress_rollback r service revision).
Proof.
  intros n Hi. unfold egress_rollback. eapply post_calm; [apply still_the_service|exact Hi| |done]. intros _ n1 _ _ I1. clear n Hi.
  eapply post_calm; [apply still_the_current|exact I1| |done]. intros c n2 Hc _ I2. apply the_current_read in Hc as [Hc ->].
  destruct (negb _); [exact I2|]. eapply post_calm; [apply still_journal|exact I2| |done]. intros books n3 _ H3 I3.
  set (previous := index _ "previous"). destruct previous; [exact I3|..].
  all: eapply post_calm; [apply still_current_intents|exact I3| |done]; intros intents n4 _ H4 I4.
  all: eapply post_calm; [apply still_lanes_file|exact I4| |done]; intros lanes n5 _ H5 I5.
  all: eapply post_calm; [apply still_needs_warp|exact I5| |done]; intros _ n6 _ H6 I6.
  all: apply post_bind_eff, post_lift; [intros g Hg|done]; apply post_bind_eff.
  all: eapply post_mono; [eapply commit_next; [exact Hc|exact Hg| |exact I6]| |done].
  all: try (intros entries n7 I7; exact I7).
  all: transitivity n3; [done|]; transitivity n4; [done|]; by transitivity n5.
Qed.

Lemma safe_lane_forget service lane : safe (lane_forget r service lane).
Proof.
  intros n Hi. unfold lane_forget. eapply post_calm; [apply still_the_service|exact Hi| |done]. intros _ n1 _ _ I1. clear n Hi.
  eapply post_calm; [apply still_lanes_file|exact I1| |done]. intros lanes n2 _ _ I2. clear n1 I1. destruct (bool_decide _); [exact I2|].
  eapply post_calm; [apply still_the_current|exact I2| |done]. intros c n3 Hc _ I3. apply the_current_read in Hc as [Hc ->].
  eapply post_calm; [apply still_require_idle|exact I3| |done]. intros _ n4 _ H4 I4.
  eapply post_calm; [apply still_read|exact I4| |done]. intros previous n5 _ H5 I5.
  eapply post_calm; [apply still_write_lanes; apply _|exact I5| |done]. intros _ n6 _ H6 I6.
  apply post_bind_eff, post_lift; [intros g Hg|done]. apply post_bind_eff, post_outcome.
  eapply post_mono; [eapply commit_next; [exact Hc|exact Hg| |exact I6]| |].
  - transitivity n4; [done|]. by transitivity n5.
  - intros entries n7 I7. exact I7.
  - intros e n7 I7. eapply post_calm; [apply still_write_lanes; apply _|exact I7| |done]. intros ? n8 _ _ I8. exact I8.
Qed.

(** *** The start and the watchdog *)

Lemma set_state_spec b p c k n : inv b n -> post (set_state r p c k) n (fun _ => inv b) (fun _ => inv b).
Proof. intros Hi. apply (post_calm_last _ _ b); [apply still_state|done|done|done]. Qed.

Lemma drop_candidate_spec b st n : inv b n -> post (drop_candidate r st) n (fun _ => inv b) (fun _ => inv b).
Proof.
  intros Hi. unfold drop_candidate. destruct (get "candidate" st ≫= as_i64) as [g|]; [|exact Hi].
  apply post_bind_eff, post_quiet; [apply still_current| |by intros e n' Hc; eapply inv_calm].
  intros c n' Hc _. pose proof (current_still _ _ _ Hc) as ->. unfold when. destruct c as [c|].
  - destruct (decide (get "generation" c ≫= as_i64 = Some g)) as [Hg|Hg].
    + rewrite bool_decide_true by done. exact Hi.
    + rewrite bool_decide_false by done. eapply post_mono; [apply unlink_generation_spec; [exact Hi|by eapply fresh_other]| |done].
      intros ? n1 [I1 _]. exact I1.
  - cbn [negb]. eapply post_mono; [apply unlink_generation_spec; [exact Hi|by eapply fresh_none]| |done]. intros ? n1 [I1 _]. exact I1.
Qed.

Lemma recover_spec b n : inv b n -> post (recover r) n (fun _ => inv b) (fun _ => inv b).
Proof.
  intros Hi. unfold recover. eapply post_calm; [apply still_state_read|exact Hi| |done]. intros st n1 _ _ I1. clear n Hi.
  destruct (bool_decide _); [|destruct (bool_decide _); [|exact I1]].
  - apply post_bind_eff. eapply post_mono; [by apply drop_candidate_spec| |done]. intros ? n2 I2. by apply set_state_spec.
  - by apply set_state_spec.
Qed.

(** The manager's process answers or is found dead. *)
Lemma running_spec n : inv false n ->
  post match handle (n_inner n) with Some p => run_alive p | None => mret false end n (fun alive n' => if alive then inv false n' else inv true n') (fun _ _ => False).
Proof.
  intros [H1 H2 H3 H4]. destruct (handle (n_inner n)) as [p|] eqn:Hh.
  - unfold post, run_alive. destruct (xray_alive _ _) as [[] h]; split; cbn [n_files n_trace n_inner set_host happened]; try done.
    + by rewrite Hh.
    + by apply sound_mono.
    + apply stored_app; [done|]. intros a F b Heq. by destruct a as [|? [|]].
    + apply solo_app; [done|by repeat constructor].
    + rewrite live_app. cbn [fold_left live_step]. destruct (base.filter _ _) as [|q l] eqn:Hl; [done|]. exfalso.
      assert (Hq : q ∈ base.filter (fun q => q <> p) (live (n_trace n))) by (rewrite Hl; by left).
      apply list_elem_of_filter in Hq as [Hq1 Hq2]. apply Hq1. specialize (H4 _ Hq2). by simplify_eq.
  - split; try done. destruct (live _) as [|q l] eqn:Hl; [done|]. assert (Hq : Some q = None) by (symmetry; apply H4; by left). done.
Qed.

Lemma safe_watchdog : safe (watchdog_tick r).
Proof.
  intros n Hi. unfold watchdog_tick. eapply post_calm; [apply still_state_read|exact Hi| |done]. intros st n1 _ _ I1. clear n Hi.
  apply post_bind_eff, post_inspect. destruct (_ || _); [exact I1|]. apply post_bind_eff. eapply post_mono; [by apply running_spec| |done].
  intros alive n2 I2. destruct alive.
  - eapply post_calm; [apply still_tun_changed|exact I2| |done]. intros changed n3 _ _ I3. destruct (negb changed); [exact I3|].
    eapply post_calm; [apply still_current|exact I3| |done]. intros c n4 _ _ I4. destruct c as [c|]; [|exact I4].
    revert n4 I4. apply safely_bind; [apply safe_outcome, safe_rerender|]. intros x. apply safe_quiet. quietly.
  - apply post_bind_eff, post_ret_eff. cbn [negb]. eapply post_calm; [apply still_current|exact I2|intros c n4 _ _ I4|by intros e n4; apply inv_weaken].
    destruct c as [c|]; [|exact (inv_weaken false _ I4)]. apply post_bind_eff, post_lift; [intros g _|by intros; apply inv_weaken].
    apply post_bind_eff, post_outcome. eapply post_mono; [by apply start_generation_spec| |].
    + intros ? n5 (I5 & _). by apply set_state_spec.
    + intros e n5 [I5%(inv_weaken false) _]. destruct e; try exact I5; by apply set_state_spec.
Qed.

Lemma bootstrap_spec n : inv true n -> post (bootstrap r) n (fun _ => inv false) (fun _ => inv false).
Proof.
  intros Hi. assert (Hw : forall (e : RouterError) n', inv true n' -> inv false n') by (intros; by apply inv_weaken). unfold bootstrap.
  eapply post_calm; [apply still_verify|exact Hi| |exact Hw]. intros report n1 _ _ I1. clear n Hi.
  destruct (sort_texts _) as [|failed rest].
  2: { eapply post_calm; [by apply still_inner|exact I1| |exact Hw]. intros ? n2 _ _ I2. exact (inv_weaken false _ I2). }
  eapply post_calm; [by apply still_inner|exact I1| |exact Hw]. intros _ n2 _ _ I2.
  eapply post_calm; [apply still_attempt|exact I2| |exact Hw]. intros version n3 _ _ I3.
  eapply post_calm; [by apply still_inner|exact I3| |exact Hw]. intros _ n4 _ _ I4.
  eapply post_calm; [apply still_when, still_attempt|exact I4| |exact Hw]. intros _ n5 _ _ I5.
  apply post_bind_eff. eapply post_mono; [by apply recover_spec| |exact Hw]. intros ? n6 I6.
  eapply post_calm; [apply still_publish|exact I6| |exact Hw]. intros _ n7 _ _ I7.
  apply post_bind_eff, post_quiet; [apply still_current| |by intros e n8 H8; apply inv_weaken; eapply inv_calm].
  intros c n8 Hc _. pose proof (current_still _ _ _ Hc) as ->. destruct c as [c|].
  - eapply post_calm; [apply still_current_intents|exact I7| |exact Hw]. intros intents n9 _ H9 I9.
    eapply post_calm; [apply still_render|exact I9| |exact Hw]. intros config n10 _ H10 I10.
    apply post_bind_eff, post_lift; [intros g Hg|by intros; apply inv_weaken].
    eapply post_calm; [apply still_exists|exact I10| |exact Hw]. intros there n11 _ H11 I11. destruct (_ || _).
    + apply post_bind_eff. eapply post_mono; [eapply commit_next; [exact Hc|exact Hg| |exact (inv_weaken false _ I11)]| |done].
      * transitivity n9; [done|]. by transitivity n10.
      * intros entries n12 I12. exact I12.
    + eapply post_mono; [by apply start_generation_spec| |]; [by intros ? n12 (I12 & _)|by intros e n12 [I12 _]; apply inv_weaken].
  - apply post_bind_eff. eapply post_mono; [apply commit_spec; [by apply inv_weaken|by eapply fresh_none|done]| |done].
    intros entries n9 I9. exact I9.
Qed.

(** ** Histories *)

Lemma safe_serve q : safe (serve r q).
Proof.
  destruct q; cbn [serve]; unfold answered;
    try first [apply safe_apply|apply safe_rollback|apply safe_lane_issue|apply safe_lane_forget|apply safe_relay_enable|apply safe_relay_disable
              |apply safe_relay_set_accounts].
  - apply safe_quiet, still_status.
  - apply safe_quiet, still_egress.
  - apply safe_quiet, still_ingress.
  - apply safe_quiet, still_lanes.
  - apply safe_quiet, still_relay_view.
  - apply safe_quiet, still_plan.
  - apply safe_quiet, still_exit_test.
  - apply safely_bind; [apply safe_watchdog|intros ?; apply safe_quiet, still_ret].
  - apply safely_bind; [apply safe_close|intros ?; apply safe_quiet, still_ret].
Qed.

Lemma post_state {A} (m : RM A) n (P : Node H -> Prop) : post m n (fun _ => P) (fun _ => P) -> P (m n).2.
Proof. unfold post. by destruct (m n) as [[a|e] n']. Qed.

Lemma disk_sound b n files : inv b n -> a_disk_of n files -> sound (n_trace n) files.
Proof.
  intros [H1 H2 _ _] [->|Hin]; [done|]. apply list_elem_of_split in Hin as (x & y & Hin). rewrite Hin. by eapply sound_mono, H2.
Qed.

Lemma restarted_inv n files h : inv false n -> a_disk_of n files -> inv true (restarted n files h).
Proof.
  intros Hi Hd. pose proof (disk_sound _ _ _ Hi Hd) as Hs. destruct Hi as [H1 H2 H3 H4]. split; cbn [n_files n_trace n_inner restarted].
  - by apply sound_mono.
  - apply stored_app; [done|]. intros a F b Heq. by destruct a as [|? [|]].
  - apply solo_app; [done|by repeat constructor].
  - by rewrite live_app.
Qed.

Lemma reachable_inv n : reachable r n -> inv false n.
Proof.
  induction 1 as [h|n files h _ IH Hd|n q _ IH].
  - split; cbn [n_files n_trace n_inner].
    + split; [done|by left].
    + intros a F b Heq. by destruct a.
    + intros a b g p x Heq. by destruct a.
    + intros p Hp. by apply not_elem_of_nil in Hp.
  - apply post_state, bootstrap_spec, restarted_inv; done.
  - by apply post_state, safe_serve.
Qed.

(** C17: One Xray at a time. In every history of a router's manager, whatever Xray, the disk and the requests do and
    wherever it is interrupted, a generation's process is started only when every process started for a generation
    before has been stopped, was found dead, or went away with the manager's container. *)
Theorem one_process n a b g p text (Hn : reachable r n) (Hstart : n_trace n = a ++ Started (Generation g) p text :: b) : live a = [].
Proof. exact (inv_solo _ _ (reachable_inv n Hn) a b g p text Hstart). Qed.

(** C18: [current.json] names what ran. On every disk a node ever had, through crashes at any write, [current.json],
    if it is there, names a generation whose file is there with the digest it says, and whose configuration Xray had
    accepted in its test and come up with before. *)
Theorem current_ran n files (Hn : reachable r n) (Hd : a_disk_of n files) : named (n_trace n) files.
Proof. exact (proj1 (disk_sound _ _ _ (reachable_inv n Hn) Hd)). Qed.
End steps.
