(* ===== verification/RouterCommit.v ===== *)
(** * What a request of the router commits, and how a refused one ends

    A request that is carried out replaces [current.json], the journal and the running process together; a request
    that is refused, short of an error of the disk itself, leaves [current.json] and the journal as they were. *)

From S2P Require Import Prelude BTree Utf8 Numeric Json PyText IndexMap Plan IpAddr AwgKeys Effect.
From S2P Require Import RouterIp RouterIntent RouterRender RouterWarp RouterNode RouterService RouterFrame RouterHistory.

(** ** What stays *)

(** Generations, [current.json] and the journal are as they were; the trace has grown. *)
Definition same {H} (n n' : Node H) : Prop :=
  (forall f, plain_file f = false -> f <> StateFile -> n_files n' f = n_files n f) /\ exists new, n_trace n' = n_trace n ++ new.
(** [current.json] and the journal are. *)
Definition kept {H} (n n' : Node H) : Prop :=
  n_files n' CurrentFile = n_files n CurrentFile /\ n_files n' JournalFile = n_files n JournalFile /\ exists new, n_trace n' = n_trace n ++ new.
(** And the manager holds the process it held. *)
Definition untouched {H} (n n' : Node H) : Prop := kept n n' /\ handle (n_inner n') = handle (n_inner n).

#[export] Instance same_preorder {H} : PreOrder (@same H).
Proof.
  split; [intros n; split; [done|exists []; by rewrite app_nil_r]|]. intros a b c [F1 (x & T1)] [F2 (y & T2)]. split.
  - intros f Hp Hs. by rewrite F2, F1.
  - exists (x ++ y). by rewrite T2, T1, app_assoc.
Qed.
#[export] Instance kept_preorder {H} : PreOrder (@kept H).
Proof.
  split; [intros n; split_and!; [done|done|exists []; by rewrite app_nil_r]|]. intros a b c (F1 & G1 & x & T1) (F2 & G2 & y & T2).
  split_and!; [congruence|congruence|exists (x ++ y); by rewrite T2, T1, app_assoc].
Qed.
#[export] Instance untouched_preorder {H} : PreOrder (@untouched H).
Proof. split; [by intros n; split|]. intros a b c [K1 E1] [K2 E2]. split; [by transitivity b|congruence]. Qed.

Lemma same_kept {H} (n n' : Node H) : same n n' -> kept n n'.
Proof. intros [Hf Ht]. split_and!; [by apply Hf|by apply Hf|done]. Qed.
Lemma side_text_ne {FT : FloatText} f text g : side_text f text -> plain_file g = false -> g <> StateFile -> g <> f.
Proof. intros [Hf|[-> _]] Hg Hs; [|done]. intros ->. congruence. Qed.

#[export] Instance same_frame {H} {FT : FloatText} : Frame (@same H).
Proof.
  split; [apply _| |].
  - intros n n' new H1 _ H3 _. split; [intros f _ _; by rewrite H1|by exists new].
  - intros n n' f text _ Ha _ H2 H3. split; [|by eexists]. intros g Hg Hs. rewrite H2. apply set_text_other. by eapply side_text_ne.
Qed.
#[export] Instance untouched_frame {H} {FT : FloatText} : Frame (@untouched H).
Proof.
  split; [apply _| |].
  - intros n n' new H1 H2 H3 _. split; [|done]. split_and!; [by rewrite H1|by rewrite H1|by exists new].
  - intros n n' f text _ Ha H1 H2 H3. split; [|done]. split_and!; [| |by eexists]; rewrite H2; apply set_text_other; by eapply side_text_ne.
Qed.

#[export] Instance same_lanes {H} : LaneFrame (@same H).
Proof.
  intros n n' text _ H2 H3. split; [|by eexists]. intros g Hg Hs. rewrite H2. apply set_text_other. by intros ->.
Qed.
#[export] Instance untouched_lanes {H} : LaneFrame (@untouched H).
Proof. intros n n' text H1 H2 H3. split; [|done]. split_and!; [| |by eexists]; rewrite H2; by apply set_text_other. Qed.

(** [lanes.json] is as it was. *)
Definition lanes_still {H} (n n' : Node H) : Prop := n_files n' LanesFile = n_files n LanesFile.
#[export] Instance lanes_still_frame {H} {FT : FloatText} : Frame (@lanes_still H).
Proof.
  split; [split; [done|]; intros a b c H1 H2; unfold lanes_still in *; congruence| |].
  - intros n n' new H1 _ _ _. unfold lanes_still. by rewrite H1.
  - intros n n' f text Hl _ _ H2 _. unfold lanes_still. rewrite H2. by apply set_text_other, not_eq_sym.
Qed.

Section commit.
Context {H : Type} {MH : Machine H} {UT : UnicodeText} {FT : FloatText} {SD : SerdeDisplay} {SHA : Sha256} {B64 : Base64} {UB : UrlBase64} {SJ : SerdeJson}.
Context (r : Router).
Implicit Types (n : Node H).

Abbreviation RM := (Eff RouterError (Node H)).

Lemma post_keeps {A} (R : Node H -> Node H -> Prop) (m : RM A) n (Q : A -> Node H -> Prop) (X : RouterError -> Node H -> Prop) : keeps R m ->
  (forall a n', m n = (Ok a, n') -> R n n' -> Q a n') -> (forall e n', R n n' -> X e n') -> post m n Q X.
Proof. intros Hm HQ HX. specialize (Hm n). unfold post. destruct (m n) as [[a|e] n']; [by apply HQ|by apply HX]. Qed.

(** ** Starting and stopping *)

Lemma same_inner f : keeps same (change_inner f : RM unit).
Proof. intros n. split; [done|]. exists []. by rewrite app_nil_r. Qed.
Lemma same_run_start f tun : keeps same (run_start r f tun : RM N).
Proof.
  intros n. unfold run_start. destruct (xray_start _ _ _ _) as [[p|e] h]; (split; [done|]); [by eexists [_]|]. exists []. by rewrite app_nil_r.
Qed.
Lemma same_stop : keeps same (stop_running : RM unit).
Proof.
  apply still_bind; [|intros [p|]; quietly]. intros n. split; [done|]. exists []. by rewrite app_nil_r.
Qed.
#[local] Hint Resolve same_inner same_run_start same_stop : quiet.
Lemma same_start_generation g : keeps same (start_generation r g : RM unit).
Proof. unfold start_generation, settle_start, clear_socket, file_exists. quietly. Qed.

(** Generation [g] was started and came up, and its process is the manager's. *)
Definition runs (g : Z) n n' : Prop := exists p x y z,
  handle (n_inner n') = Some p /\ n_trace n' = n_trace n ++ x ++ Started (Generation g) p (n_files n (Generation g)) :: y ++ Ready p :: z.

Lemma runs_after g n n1 n2 : same n n1 -> runs g n1 n2 -> runs g n n2.
Proof.
  intros [Hf (t & Ht)] (p & x & y & z & Hh & Heq). exists p, (t ++ x), y, z. split; [done|]. rewrite Heq, Ht, Hf by done. by rewrite <-!app_assoc.
Qed.
Lemma runs_then g n n1 n2 : runs g n n1 -> handle (n_inner n2) = handle (n_inner n1) -> (exists new, n_trace n2 = n_trace n1 ++ new) -> runs g n n2.
Proof.
  intros (p & x & y & z & Hh & Heq) Hh2 (new & Ht). exists p, x, y, (z ++ new). split; [congruence|]. rewrite Ht, Heq, <-!app_assoc. cbn.
  do 3 f_equal. by rewrite <-app_assoc.
Qed.

Lemma settle_start_up tun sockets p n : post (settle_start r tun sockets p) n
  (fun _ n' => handle (n_inner n') = Some p /\ exists x y, n_trace n' = n_trace n ++ x ++ Ready p :: y) (fun _ _ => True).
Proof.
  unfold settle_start. apply post_bind_eff. set (m := match tun with Some _ => tun_index r | None => mret None end).
  assert (Hm : exists index, m n = (Ok index, n)) by (unfold m; destruct tun; [apply tun_index_pure|by eexists]).
  destruct Hm as [index Hm]. unfold post at 1. rewrite Hm. apply post_bind_eff. cbn [change_inner update post].
  apply post_bind_eff, post_outcome. unfold run_ready. unfold post at 1. destruct (xray_ready _ _ _) as [[[]|e] h]; cbn [n_files n_trace n_inner n_host set_inner set_host happened].
  - apply post_bind_eff. unfold act, post. destruct (now_iso _) as [now h']. cbn. split; [done|]. by exists [], [].
  - done.
Qed.

Lemma start_up g n : post (start_generation r g) n (fun _ n' => same n n' /\ runs g n n') (fun _ => same n).
Proof.
  assert (Hsame := same_start_generation g n). assert (Hrun : post (start_generation r g) n (fun _ n' => runs g n n') (fun _ _ => True)).
  2: { unfold post in *. by destruct (start_generation r g n) as [[[]|e] n']. }
  unfold start_generation. apply post_bind_eff, (post_keeps same); [unfold file_exists; quietly|intros there n1 _ H1|done]. destruct (negb there); [done|].
  apply post_bind_eff, (post_keeps same); [unfold clear_socket; quietly|intros sockets n2 _ H2|done].
  apply post_bind_eff, post_inspect, post_bind_eff, post_asks, post_bind_eff. unfold post at 1, run_start.
  destruct (xray_start _ _ _ _) as [[p|e] h]; [|done]. eapply post_mono; [apply settle_start_up| |done].
  intros _ n3 (Hh & x & y & Ht). apply (runs_after _ _ n2); [by transitivity n1|]. exists p, [], x, y. split; [done|]. rewrite Ht. cbn. by rewrite <-app_assoc.
Qed.

(** ** How a refused request ends *)

(** The generation [current.json] names. *)
Definition names_generation (files : Files) (g : Z) : Prop :=
  exists text v, files CurrentFile = Some text /\ from_slice text = Some v /\ get "generation" v ≫= as_i64 = Some g.
Definition state_says n (phase : string) (candidate : option Z) (failures : Z) : Prop :=
  n_files n StateFile = Some (file_text (state_document phase candidate failures)).

(** Xray did not come up; an administrator is needed; the start of a generation failed in another way. *)
Definition is_xray (e : RouterError) : bool := match e with Xray _ => true | _ => false end.
Definition is_manual (e : RouterError) : bool := match e with Manual _ => true | _ => false end.
Definition start_error (e : RouterError) : Prop := is_xray e = false /\ exists g n1 n2, start_generation r g n1 = (Err e, n2).

Inductive ended n (e : RouterError) n' : Prop :=
| ended_untouched (Hu : untouched n n')
| ended_restored g (Hk : kept n n') (Hs : state_says n' "idle" None 0) (Hg : names_generation (n_files n) g)
    (Hr : exists n1, kept n n1 /\ runs g n1 n') (He : is_xray e = true)
| ended_broken (Hk : kept n n') (Hs : state_says n' "broken" None MAX_START_FAILURES) (He : is_manual e = true)
| ended_swapping g (Hk : kept n n') (Hs : state_says n' "swapping" (Some g) 0) (He : start_error e).

(** An error of the disk, or of a file that is not what the code writes, may come at any point. *)
Definition refused n (e : RouterError) n' : Prop := match e with Internal _ => True | _ => ended n e n' end.

(** *** The swap *)

(** The files are what they were. *)
Definition frozen n n' : Prop := n_files n' = n_files n.
Lemma frozen_bind {A B} (m : RM A) (f : A -> RM B) : keeps frozen m -> (forall a, keeps frozen (f a)) -> keeps frozen (m ≫= f).
Proof. apply keeps_bind_eff. unfold frozen. congruence. Qed.
Lemma frozen_outcome {A} (m : RM A) : keeps frozen m -> keeps frozen (outcome m).
Proof. intros Hm n. specialize (Hm n). unfold outcome. by destruct (m n). Qed.
Ltac frozen_step :=
  match goal with
  | |- keeps _ (mbind _ _) => apply frozen_bind; [|intros ?]
  | |- keeps _ (outcome _) => apply frozen_outcome
  | |- keeps _ (match ?x with _ => _ end) => destruct x
  | |- keeps _ _ => intros ?; cbv [frozen unlink_elsewhere run_start run_ready run_stop act take_handle]; repeat case_match; simplify_eq/=; done
  end.
Lemma frozen_stop : keeps frozen (stop_running : RM unit).
Proof. unfold stop_running. repeat frozen_step. Qed.
Lemma frozen_start g : keeps frozen (start_generation r g : RM unit).
Proof. unfold start_generation, settle_start, clear_socket, file_exists, tun_index. repeat frozen_step. Qed.

Lemma set_state_says p c k n : post (set_state r p c k) n (fun _ n' => same n n' /\ state_says n' p c k /\ handle (n_inner n') = handle (n_inner n))
  (fun e _ => exists m, e = Internal m).
Proof.
  pose proof (still_state (R:=same) r p c k n) as Hsame. unfold post. unfold set_state, write_json, put_text in *.
  destruct (disk_put _ _ _) as [[|e|e] h]; [|by eexists|by eexists]. split; [exact Hsame|]. split; [apply set_text_this|done].
Qed.

Lemma kept_unlink_generation g n : kept n (unlink r (Generation g) n).2.
Proof.
  destruct (unlink_shape r (Generation g) n) as [_ [[H2 H3]|[H2 H3]]]; split_and!; try (by rewrite H2).
  - exists []. by rewrite app_nil_r.
  - by eexists.
Qed.

(** How the swap to [g] fails from a node: the same three ways, the generation before named by what [current] answered. *)
Definition swap_ended (g : Z) (previous : option Value) n (e : RouterError) n' : Prop :=
  match e with
  | Internal _ => True
  | _ => kept n n' /\ ((is_xray e = true /\ exists c pg n1, previous = Some c /\ generation_number c = Ok pg /\ state_says n' "idle" None 0 /\ kept n n1 /\ runs pg n1 n')
                      \/ (is_manual e = true /\ state_says n' "broken" None MAX_START_FAILURES)
                      \/ (start_error e /\ state_says n' "swapping" (Some g) 0))
  end.

Lemma unlink_generation_state g n : post (unlink r (Generation g)) n
  (fun _ n' => kept n n' /\ n_files n' StateFile = n_files n StateFile) (fun e _ => exists m, e = Internal m).
Proof.
  assert (Hu := kept_unlink_generation g n). unfold post. unfold unlink in *. destruct (disk_unlink _ _) as [[e|] h]; [by eexists|].
  split; [exact Hu|]. by apply set_text_other.
Qed.

Lemma post_frozen {A} (m : RM A) n Q X : keeps frozen m -> post m n Q X ->
  post m n (fun a n' => Q a n' /\ n_files n' = n_files n) (fun e n' => X e n' /\ n_files n' = n_files n /\ m n = (Err e, n')).
Proof. intros Hm. specialize (Hm n). unfold post, frozen in *. by destruct (m n) as [[a|e] n']. Qed.

Lemma restore_ended g c n : state_says n "swapping" (Some g) 0 -> forall pg, generation_number c = Ok pg ->
  post (restored ← outcome (start_generation r pg);
    match restored with
    | Err (Xray _) =>
        _ ← set_state r "broken" None MAX_START_FAILURES;
        manual ("generation " +:+ fmt_Z g +:+ " did not come up and generation " +:+ fmt_Z pg +:+ " ("
                +:+ path_of r (Generation pg) +:+ ") could not be restored")
    | Err other => raise other
    | Ok _ =>
        _ ← set_state r "idle" None 0;
        raise (Xray ("generation " +:+ fmt_Z g +:+ " did not come up; generation " +:+ fmt_Z pg +:+ " restored"))
    end : RM unit) n (fun _ _ => False) (swap_ended g (Some c) n).
Proof.
  intros Hn pg Hpg. apply post_bind_eff, post_outcome. eapply post_mono; [apply post_frozen; [apply frozen_start|apply start_up]| |].
  - intros _ n1 [[H1 Hr] _]. apply post_bind_eff. eapply post_mono; [apply set_state_says| |by intros e n2 [m ->]].
    intros _ n2 (H2 & Hs & Hh). split; [apply same_kept; by transitivity n1|]. left. split; [done|]. exists c, pg, n. split_and!; try done.
    eapply runs_then; [exact Hr|done|apply H2].
  - intros e n1 (H1 & F1 & Q1). assert (Hs1 : state_says n1 "swapping" (Some g) 0) by (unfold state_says; by rewrite F1).
    destruct e; try (split; [by apply same_kept|right; right; split; [split; [done|by eexists _, _, _]|done]]); [|done].
    apply post_bind_eff. eapply post_mono; [apply set_state_says| |by intros e n2 [m ->]].
    intros _ n2 (H2 & Hs & _). split; [apply same_kept; by transitivity n1|]. by right; left.
Qed.

Lemma swap_ended_from g previous n n1 e n' : kept n n1 -> swap_ended g previous n1 e n' -> swap_ended g previous n e n'.
Proof.
  intros Hk He. destruct e; try done; destruct He as [Hk' He];
    (split; [by transitivity n1|]); (destruct He as [(H0 & c & pg & n2 & H1 & H2 & H3 & H4 & H5)|He]; [|by right]);
    left; (split; [done|]); exists c, pg, n2; split_and!; try done; by transitivity n1.
Qed.

Lemma fall_back_ended g previous n : state_says n "swapping" (Some g) 0 -> post (fall_back r g previous) n (fun _ _ => False) (swap_ended g previous n).
Proof.
  intros Hn. unfold fall_back. apply post_bind_eff. eapply post_mono; [apply unlink_generation_state| |by intros e n1 [m ->]].
  intros _ n1 [Hk Hs]. assert (Hn1 : state_says n1 "swapping" (Some g) 0) by (unfold state_says; by rewrite Hs). destruct previous as [c|].
  - apply post_bind_eff, post_lift; [intros pg Hpg|].
    + eapply post_mono; [by apply restore_ended|done|]. intros e n'. by apply swap_ended_from.
    + intros e He. unfold generation_number, ok_or in He. destruct (_ ≫= _); [done|]. by injection He as <-.
  - apply post_bind_eff. eapply post_mono; [apply set_state_says| |by intros e n2 [m ->]].
    intros _ n2 (H2 & Hs2 & _). split; [transitivity n1; [done|by apply same_kept]|]. by right; left.
Qed.

Lemma stop_files n : post stop_running n (fun _ n' => same n n' /\ n_files n' = n_files n) (fun _ _ => False).
Proof.
  pose proof (same_stop n) as Hsame. pose proof (frozen_stop n) as Hf. unfold post. unfold frozen, stop_running, mbind, Eff_bind, take_handle, run_stop, done in *.
  by destruct (handle (n_inner n)).
Qed.

Lemma swap_ends g previous n : post (swap r g previous) n (fun _ n' => same n n' /\ runs g n n') (swap_ended g previous n).
Proof.
  unfold swap. apply post_bind_eff. eapply post_mono; [apply set_state_says| |by intros e n1 [m ->]]. intros _ n1 (H1 & S1 & _).
  apply post_bind_eff. eapply post_mono; [apply stop_files| |done]. intros _ n2 (H2 & F2).
  assert (H02 : same n n2) by (by transitivity n1). assert (S2 : state_says n2 "swapping" (Some g) 0) by (unfold state_says; by rewrite F2).
  apply post_bind_eff, post_outcome. eapply post_mono; [apply post_frozen; [apply frozen_start|apply start_up]| |].
  - intros _ n3 [[H3 Hr] _]. split; [by transitivity n2|by eapply runs_after].
  - intros e n3 (H3 & F3 & Q3). assert (H03 : same n n3) by (by transitivity n2). assert (S3 : state_says n3 "swapping" (Some g) 0) by (unfold state_says; by rewrite F3).
    destruct e; try (split; [by apply same_kept|right; right; split; [split; [done|by eexists _, _, _]|done]]); [|done].
    eapply post_mono; [by apply fall_back_ended|done|]. intros e n4. apply swap_ended_from. by apply same_kept.
Qed.

(** *** The books *)

(** Where a commit's books start: the journal on the disk, with a book for every service. *)
Definition journal_of (files : Files) (books : imap Value) : Prop :=
  exists m, match files JournalFile with None => m = [] | Some text => from_slice text = Some (Object m) end
    /\ books = fold_left (fun m tag => or_insert tag empty_book m) (r_services r) m.

Definition applied (g : Z) (digest : string) (ops : imap string) (tag : string) (document : Value) (at_ : string) : Applied :=
  {| a_document := document; a_generation := g; a_digest := digest; a_operation := bget tag ops; a_at := at_ |}.
(** What a commit makes of a service's book, and what it answers of it. *)
Definition book_moved (g : Z) (digest : string) (ops : imap string) (rb : option string) (before books entries : imap Value) (tag : string) (document : Value) : Prop :=
  exists book at_, bget tag before = Some (Object book) /\
    let next := book_next book (applied g digest ops tag document at_) (bool_decide (rb = Some tag)) in
    bget tag books = Some (Object next) /\ bget tag entries = Some (opt_value (bget "current" next)).

Lemma commit_book_spec g digest ops rb books tag entry n :
  post (commit_book g digest ops rb books (tag, entry)) n
    (fun res n' => n_files n' = n_files n /\ handle (n_inner n') = handle (n_inner n) /\ n_trace n' = n_trace n /\
      exists book at_, bget tag books = Some (Object book) /\
        let next := book_next book (applied g digest ops tag (index entry "document") at_) (bool_decide (rb = Some tag)) in
        res = (iset tag (Object next) books, opt_value (bget "current" next)))
    (fun e _ => exists m, e = Internal m).
Proof.
  unfold commit_book. apply post_bind_eff. unfold post at 1, act. destruct (now_iso _) as [at_ h]. apply post_bind_eff, post_lift.
  - intros book Hb. unfold ok_or in Hb. destruct (bget tag books) as [[| | | | |m]|] eqn:Hm; try done. cbn in Hb. injection Hb as <-.
    cbn [post mret Eff_ret]. split_and!; try done. by exists m, at_.
  - intros e He. unfold ok_or in He. destruct (_ ≫= _); [done|]. injection He as <-. by eexists.
Qed.

Lemma commit_books_spec g digest ops rb services : NoDup (map fst services) -> forall books entries n,
  post (commit_books g digest ops rb services books entries) n
    (fun res n' => n_files n' = n_files n /\ handle (n_inner n') = handle (n_inner n) /\ n_trace n' = n_trace n
      /\ (forall tag entry, (tag, entry) ∈ services -> book_moved g digest ops rb books res.1 res.2 tag (index entry "document"))
      /\ (forall tag, tag ∉ map fst services -> bget tag res.1 = bget tag books /\ bget tag res.2 = bget tag entries))
    (fun e _ => exists m, e = Internal m).
Proof.
  induction services as [|[tag entry] services IH]; intros Hnd books entries n; cbn [commit_books].
  - cbn. split_and!; try done. intros tag entry Hin. by apply not_elem_of_nil in Hin.
  - cbn [map fst] in Hnd. apply NoDup_cons in Hnd as [Hn Hnd]. apply post_bind_eff. eapply post_mono; [apply commit_book_spec| |done].
    intros res n1 (F1 & E1 & T1 & book & at_ & Hb & ->). eapply post_mono; [apply (IH Hnd)| |done].
    intros res n2 (F2 & E2 & T2 & Hin & Hout). split_and!; try congruence.
    + intros t e [Heq|He]%elem_of_cons.
      * injection Heq as -> ->. destruct (Hout tag Hn) as [H1 H2]. exists book, at_. split; [done|]. cbn [fst snd] in *. by rewrite H1, H2, !bget_iset_eq.
      * destruct (Hin t e He) as (b & a & Hb' & Hn'). exists b, a. split; [|done]. cbn [fst] in Hb'. rewrite bget_iset_ne in Hb'; [done|].
        intros ->. apply Hn. apply list_elem_of_fmap. by exists (tag, e).
    + intros t Ht. cbn [map fst] in Ht. rewrite not_elem_of_cons in Ht. destruct Ht as [Hne Ht]. destruct (Hout t Ht) as [H1 H2].
      cbn [fst snd] in *. by rewrite H1, H2, !bget_iset_ne.
Qed.

(** ** The commit *)

(** What a commit of generation [g] leaves from a node to another, and the entries it answers. *)
Definition committed (g : Z) (intents : imap Value) (ops : imap string) (rb : option string) n (config : Value) (entries : imap Value) n' : Prop :=
  exists input services since before books,
    RouterRender.intents input = intents /\ render_config input = Ok config
    /\ mapM (committed_service g intents) (r_services r) = Ok services
    /\ n_files n' (Generation g) = Some (config_bytes config)
    /\ n_files n' CurrentFile = Some (file_text (current_document g (generation_digest config) since services))
    /\ n_files n' JournalFile = Some (file_text (Object books))
    /\ state_says n' "idle" None 0
    /\ (exists p x y z, handle (n_inner n') = Some p /\ n_trace n' = n_trace n ++ x ++ Started (Generation g) p (Some (config_bytes config)) :: y ++ Ready p :: z)
    /\ journal_of (n_files n) before
    /\ forall tag entry, (tag, entry) ∈ services -> book_moved g (generation_digest config) ops rb before books entries tag (index entry "document").

Lemma render_input intents account n config n' : render r intents account n = (Ok config, n') ->
  exists input, RouterRender.intents input = intents /\ render_config input = Ok config.
Proof.
  unfold render. intros Hr. do 4 (apply bind_inv in Hr as (? & ? & _ & Hr)). unfold lift in Hr. injection Hr as Hr _. eexists. by split; [|exact Hr].
Qed.

Lemma refused_untouched n e n' : untouched n n' -> refused n e n'.
Proof. intros Hu. destruct e; try done; by apply ended_untouched. Qed.
Lemma refused_from n n1 e n' : untouched n n1 -> refused n1 e n' -> refused n e n'.
Proof.
  intros [Hk Hh] Hr. assert (Hg : forall g, names_generation (n_files n1) g -> names_generation (n_files n) g).
  { intros g (t & v & H1 & H2). exists t, v. destruct Hk as (Hc & _). by rewrite Hc in H1. }
  destruct e; try done; (destruct Hr as [Hu|g K S G (n2 & K2 & R2) He|K S He|g K S He];
    [apply ended_untouched; by transitivity n1
    |eapply ended_restored; [by transitivity n1|done|by apply Hg|exists n2; split; [by transitivity n1|exact R2]|done]
    |apply ended_broken; [by transitivity n1|done|done]|eapply ended_swapping; [by transitivity n1|exact S|done]]).
Qed.

Lemma untouched_put_generation g text n : untouched n (put_text r (Generation g) text n).2.
Proof.
  destruct (put_shape r (Generation g) text n) as [Hh [[H2 H3]|[H2 H3]]]; split; try done; split_and!; try (by rewrite H2).
  - exists []. by rewrite app_nil_r.
  - by eexists.
Qed.
Lemma untouched_unlink_generation g n : untouched n (unlink r (Generation g) n).2.
Proof. split; [apply kept_unlink_generation|apply unlink_shape]. Qed.
Lemma put_file f text n : post (put_text r f text) n
  (fun _ n' => n_files n' = set_text f (Some text) (n_files n) /\ handle (n_inner n') = handle (n_inner n) /\ exists new, n_trace n' = n_trace n ++ new)
  (fun e _ => exists m, e = Internal m).
Proof.
  unfold post, put_text. destruct (disk_put _ _ _) as [[|e|e] h]; [|by eexists|by eexists]. split_and!; [done|done|by eexists].
Qed.
Lemma test_frozen f n : untouched n (run_test r f n).2 /\ n_files (run_test r f n).2 = n_files n.
Proof. split; [apply (still_test (R:=untouched))|]. unfold run_test. by destruct (xray_test _ _ _). Qed.

Lemma swap_ended_refused g n n1 c e n' : untouched n n1 -> current r n1 = (Ok c, n1) -> swap_ended g c n1 e n' -> refused n e n'.
Proof.
  intros Hu Hc He. apply (refused_from _ n1); [done|]. destruct e; try done; destruct He as [Hk [(Hx & c' & pg & n2 & -> & Hpg & S & K & R)|[[Hx S]|[Hx S]]]];
    try (by apply ended_broken); try (by eapply ended_swapping);
    (apply (ended_restored _ _ _ pg); [done|done| |by exists n2|done]); apply current_reads in Hc as (t & v & H1 & H2 & H3); exists t, v; split_and!; try done;
    unfold generation_number, ok_or in Hpg; rewrite <-H3; destruct (_ ≫= as_i64); by simplify_eq.
Qed.

(** The journal can be read back. *)
Definition journal_readable (files : Files) : Prop := forall text, files JournalFile = Some text -> is_Some (from_slice text).

Lemma journal_read n0 n : n_files n JournalFile = n_files n0 JournalFile -> journal_readable (n_files n0) ->
  post (journal r) n (fun books n' => n' = n /\ journal_of (n_files n0) books) (fun e _ => exists m, e = Internal m).
Proof.
  intros Hj Hr. unfold journal. apply post_bind_eff. unfold post at 1, read_json. rewrite Hj. specialize (Hr).
  destruct (n_files n0 JournalFile) as [text|] eqn:Ht.
  - destruct (disk_read_error _ _); [by eexists|]. destruct (Hr text Ht) as [v Hv]. rewrite Hv. apply post_bind_eff, post_lift.
    + intros m Hm. split; [done|]. exists m. rewrite Ht. unfold object, ok_or in Hm. destruct v; try done. injection Hm as ->. done.
    + intros e He. unfold object, ok_or in He. destruct (as_object v); [done|]. injection He as <-. by eexists.
  - apply post_bind_eff, post_lift; [|done]. intros m [= <-]. split; [done|]. exists []. by rewrite Ht.
Qed.

Lemma committed_services g intents l services : mapM (committed_service g intents) l = Ok services ->
  map fst services = l /\ forall tag entry, (tag, entry) ∈ services -> exists document, bget tag intents = Some document /\ entry = service_entry (json_int g) document.
Proof.
  intros Hm%mapM_Ok_iff. assert (Hone : forall tag s, committed_service g intents tag = Ok s -> s.1 = tag /\ exists document, bget tag intents = Some document /\ s.2 = service_entry (json_int g) document).
  { unfold committed_service, ok_or. intros tag s Hs. destruct (bget tag intents) as [d|]; [|done]. injection Hs as <-. split; [done|by exists d]. }
  induction Hm as [|tag s l services Hs _ [IH1 IH2]]; [split; [done|]; intros tag entry Hin; by apply not_elem_of_nil in Hin|].
  apply Hone in Hs as [<- Hs]. split; [cbn; by rewrite IH1|]. intros tag entry [<-|Hin]%elem_of_cons; [exact Hs|by apply IH2].
Qed.
Lemma committed_services_err g intents l e : mapM (committed_service g intents) l = Err e -> exists m, e = Internal m.
Proof.
  induction l as [|tag l IH]; [done|]. cbn [mapM]. destruct (committed_service g intents tag) as [s|e'] eqn:Hs; cbn.
  - destruct (mapM _ l) as [k|e']; cbn; [done|]. intros Heq. apply IH. congruence.
  - intros [= ->]. unfold committed_service, ok_or in Hs. destruct (bget tag intents); [done|]. injection Hs as <-. by eexists.
Qed.

(** From [current.json] on. *)
Definition record_commit (g : Z) (digest : string) (intents : imap Value) (ops : imap string) (rb : option string) (services : imap Value) : RM (imap Value) :=
  since ← act now_iso;
  _ ← write_json r CurrentFile (current_document g digest since services);
  books ← journal r;
  committed ← commit_books g digest ops rb services books [];
  _ ← write_json r JournalFile (Object committed.1);
  _ ← set_state r "idle" None 0;
  mret committed.2.

Lemma record_commit_spec g digest intents ops rb services n0 n : NoDup (map fst services) -> n_files n JournalFile = n_files n0 JournalFile -> journal_readable (n_files n0) ->
  post (record_commit g digest intents ops rb services) n
    (fun entries n' => exists since before books,
       n_files n' (Generation g) = n_files n (Generation g)
       /\ n_files n' CurrentFile = Some (file_text (current_document g digest since services))
       /\ n_files n' JournalFile = Some (file_text (Object books)) /\ state_says n' "idle" None 0
       /\ handle (n_inner n') = handle (n_inner n) /\ (exists new, n_trace n' = n_trace n ++ new)
       /\ journal_of (n_files n0) before
       /\ forall tag entry, (tag, entry) ∈ services -> book_moved g digest ops rb before books entries tag (index entry "document"))
    (fun e _ => exists m, e = Internal m).
Proof.
  intros Hnd Hj Hr. unfold record_commit. apply post_bind_eff. unfold post at 1, act. destruct (now_iso _) as [since h].
  set (n1 := set_host h n). apply post_bind_eff. eapply post_mono; [apply put_file| |done]. intros _ n2 (F2 & E2 & t2 & T2).
  apply post_bind_eff. eapply post_mono; [apply (journal_read n0); [|exact Hr]|..|done].
  { rewrite F2, set_text_other by done. exact Hj. }
  intros before n3 [-> Hbefore]. apply post_bind_eff. eapply post_mono; [by apply commit_books_spec| |done].
  intros res n4 (F4 & E4 & T4 & Hin & _). apply post_bind_eff. eapply post_mono; [apply put_file| |done]. intros _ n5 (F5 & E5 & t5 & T5).
  apply post_bind_eff. eapply post_mono; [apply set_state_says| |done]. intros _ n6 ((A6 & t6 & T6) & S6 & E6).
  exists since, before, res.1. rewrite !A6 by done. rewrite F5, F4, F2. split_and!; try done; try by rewrite E6, E5, E4, E2.
  exists (t2 ++ t5 ++ t6). by rewrite T6, T5, T4, T2, <-!app_assoc.
Qed.

Lemma commit_ends g intents ops rb n (Hd : NoDup (r_services r)) (Hj : journal_readable (n_files n)) :
  post (commit_generation r g intents ops rb true) n (fun entries n' => exists config, committed g intents ops rb n config entries n') (fun e n' => refused n e n').
Proof.
  unfold commit_generation. apply post_bind_eff, (post_keeps untouched); [apply still_render| |intros; by apply refused_untouched].
  intros config n1 Hrender H1. apply render_input in Hrender as (input & Hinput & Hconfig).
  apply post_bind_eff. pose proof (untouched_put_generation g (config_bytes config) n1) as U2. pose proof (put_file (Generation g) (config_bytes config) n1) as P2.
  unfold post at 1. unfold post in P2. destruct (put_text r (Generation g) _ n1) as [[[]|e] n2]; [|by destruct P2 as [m ->]]. destruct P2 as (F2 & _ & _).
  assert (H2 : untouched n n2) by (by transitivity n1). apply post_bind_eff, post_outcome.
  pose proof (test_frozen (Generation g) n2) as [U3 F3]. unfold post at 1. destruct (run_test r (Generation g) n2) as [[[]|e] n3]; cbn [snd] in U3, F3.
  2: { assert (H3 : untouched n n3) by (by transitivity n2). destruct e; try by apply refused_untouched.
    do 2 apply post_bind_eff. pose proof (untouched_unlink_generation g n3) as U4. unfold post at 1.
    destruct (unlink r (Generation g) n3) as [[[]|e] n4]; apply refused_untouched; by transitivity n3. }
  assert (H3 : untouched n n3) by (by transitivity n2). apply post_bind_eff, post_ret_eff.
  apply post_bind_eff, (post_keeps untouched); [apply still_current| |intros e n4 H4; apply refused_untouched; by transitivity n3].
  intros previous n4 Hprev _. pose proof (current_still _ _ _ _ Hprev) as ->. apply post_bind_eff.
  eapply post_mono; [apply swap_ends| |intros e n4; by apply swap_ended_refused]. intros _ n4 [H4 Hruns].
  apply post_bind_eff, post_lift; [intros services Hservices|intros e He; apply committed_services_err in He as [m ->]; done].
  change (post (record_commit g (generation_digest config) intents ops rb services) n4 (fun entries n' => exists config, committed g intents ops rb n config entries n') (fun e n' => refused n e n')).
  destruct (committed_services _ _ _ _ Hservices) as [Hkeys _]. pose proof (proj1 H3) as K3. pose proof (same_kept _ _ H4) as K4.
  eapply post_mono; [apply (record_commit_spec g _ _ _ _ _ n)| |by intros e n' [m ->]].
  - by rewrite Hkeys.
  - destruct K3 as (_ & J3 & _), K4 as (_ & J4 & _). congruence.
  - done.
  - intros entries n5 (since & before & books & G5 & C5 & J5 & S5 & E5 & T5 & B5 & M5). exists config, input, services, since, before, books.
    assert (G3 : n_files n3 (Generation g) = Some (config_bytes config)) by (rewrite F3, F2; apply set_text_this).
    split_and!; try done.
    + rewrite G5. destruct H4 as [A4 _]. by rewrite A4.
    + destruct (runs_then g n3 n4 n5 Hruns E5 T5) as (p & x & y & z & Hh & Ht). destruct K3 as (_ & _ & t & T3).
      exists p, (t ++ x), y, z. split; [done|]. rewrite Ht, T3, G3. by rewrite <-!app_assoc.
Qed.

(** ** Requests *)

Lemma readable_kept n n' : kept n n' -> journal_readable (n_files n) -> journal_readable (n_files n').
Proof. intros (_ & Hj & _) Hr text. rewrite Hj. apply Hr. Qed.

(** A commit after steps that touch nothing, and what comes after it. *)
Lemma commit_after g intents ops rb n n1 : NoDup (r_services r) -> journal_readable (n_files n) -> untouched n n1 ->
  post (commit_generation r g intents ops rb true) n1 (fun _ _ => True) (fun e n' => refused n e n').
Proof.
  intros Hd Hj Hu. eapply post_mono; [apply commit_ends; [done|eapply readable_kept; [apply Hu|done]]|done|]. intros e n'. by apply refused_from.
Qed.

(** What a step that touches nothing leaves to do. *)
Lemma refusing_bind {A B} (m : RM A) (f : A -> RM B) n n0 : keeps untouched m -> untouched n n0 ->
  (forall a n', m n0 = (Ok a, n') -> untouched n n' -> post (f a) n' (fun _ _ => True) (refused n)) -> post (m ≫= f) n0 (fun _ _ => True) (refused n).
Proof.
  intros Hm H0 Hf. apply post_bind_eff, (post_keeps untouched); [exact Hm| |].
  - intros a n' Heq Hu. apply Hf; [done|by transitivity n0].
  - intros e n' Hu. apply refused_untouched. by transitivity n0.
Qed.
Lemma refusing_quiet {A} (m : RM A) n n0 : keeps untouched m -> untouched n n0 -> post m n0 (fun _ _ => True) (refused n).
Proof. intros Hm H0. apply (post_keeps untouched); [exact Hm|done|]. intros e n' Hu. apply refused_untouched. by transitivity n0. Qed.

Lemma rerender_refused n n0 : NoDup (r_services r) -> journal_readable (n_files n) -> untouched n n0 ->
  post (rerender_current r) n0 (fun _ _ => True) (refused n).
Proof.
  intros Hd Hj H0. unfold rerender_current. apply refusing_bind; [apply still_the_current|done|intros c n1 _ H1].
  apply refusing_bind; [apply still_require_idle|done|intros _ n2 _ H2]. apply refusing_bind; [apply still_current_intents|done|intros intents n3 _ H3].
  apply refusing_bind; [quietly|done|intros g n4 _ H4]. apply post_bind_eff. eapply post_mono; [by apply commit_after|done|done].
Qed.

Lemma ended_then n e n1 n2 : ended n e n1 -> untouched n1 n2 -> n_files n2 StateFile = n_files n1 StateFile -> ended n e n2.
Proof.
  intros He [Hk Hh] Hs. assert (Hst : forall p c k, state_says n1 p c k -> state_says n2 p c k) by (intros p c k; unfold state_says; by rewrite Hs).
  destruct He as [Hu|g K S G (n3 & K3 & R3) He|K S He|g K S He].
  - apply ended_untouched. transitivity n1; [done|by split].
  - eapply ended_restored; [by transitivity n1|by apply Hst|done| |done]. exists n3. split; [done|]. eapply runs_then; [exact R3|done|apply Hk].
  - apply ended_broken; [by transitivity n1|by apply Hst|done].
  - eapply ended_swapping; [by transitivity n1|by apply Hst|done].
Qed.

Lemma put_back_refused v err n n1 : refused n err n1 -> post (write_json r LanesFile v ≫= fun _ => raise err : RM Value) n1 (fun _ _ => True) (refused n).
Proof.
  intros Hr. apply post_bind_eff. pose proof (still_write_lanes (R:=untouched) r v n1) as Hu. pose proof (put_file LanesFile (file_text v) n1) as Hp.
  unfold post. unfold post in Hp. unfold write_json in *. destruct (put_text r LanesFile _ n1) as [[[]|e] n2]; [|by destruct Hp as [m ->]].
  destruct Hp as (F & _ & _). cbn. destruct err; try done; eapply ended_then; try done; rewrite F; by apply set_text_other.
Qed.

Lemma apply_refused service revision document operation n : NoDup (r_services r) -> journal_readable (n_files n) ->
  post (egress_apply r service revision document operation) n (fun _ _ => True) (refused n).
Proof.
  intros Hd Hj. unfold egress_apply. apply refusing_bind; [apply still_the_service|reflexivity|intros _ n1 _ H1].
  destruct (as_str operation) as [op|]; [|by apply refusing_quiet; [quietly|]]. destruct (negb _); [by apply refusing_quiet; [quietly|]|].
  apply refusing_bind; [quietly|done|intros doc n2 _ H2]. apply refusing_bind; [apply still_journal|done|intros books n3 _ H3].
  destruct (bool_decide _); [by destruct (json_eq _ _); apply refusing_quiet; [quietly|..|quietly|]|].
  apply refusing_bind; [apply still_target|done|intros [[c d] intents] n4 _ H4]. apply refusing_bind; [apply still_needs_warp|done|intros _ n5 _ H5].
  apply refusing_bind; [apply still_check_hops|done|intros hops n6 _ H6]. apply refusing_bind; [quietly|done|intros _ n7 _ H7].
  apply refusing_bind; [quietly|done|intros g n8 _ H8]. apply post_bind_eff. eapply post_mono; [by apply commit_after|done|done].
Qed.

Lemma rollback_refused service revision n : NoDup (r_services r) -> journal_readable (n_files n) ->
  post (egress_rollback r service revision) n (fun _ _ => True) (refused n).
Proof.
  intros Hd Hj. unfold egress_rollback. apply refusing_bind; [apply still_the_service|reflexivity|intros _ n1 _ H1].
  apply refusing_bind; [apply still_the_current|done|intros c n2 _ H2]. destruct (negb _); [by apply refusing_quiet; [quietly|]|].
  apply refusing_bind; [apply still_journal|done|intros books n3 _ H3]. set (previous := index _ "previous").
  destruct previous; [by apply refusing_quiet; [quietly|]|..].
  all: apply refusing_bind; [apply still_current_intents|done|intros intents n4 _ H4].
  all: apply refusing_bind; [apply still_lanes_file|done|intros lanes n5 _ H5].
  all: apply refusing_bind; [apply still_needs_warp|done|intros _ n6 _ H6].
  all: apply refusing_bind; [quietly|done|intros g n7 _ H7]; apply post_bind_eff; eapply post_mono; [by apply commit_after|done|done].
Qed.

Lemma issue_refused service lane n : NoDup (r_services r) -> journal_readable (n_files n) -> post (lane_issue r service lane) n (fun _ _ => True) (refused n).
Proof.
  intros Hd Hj. unfold lane_issue. apply refusing_bind; [apply still_the_service|reflexivity|intros _ n1 _ H1].
  destruct (mem_str _ _); [by apply refusing_quiet; [quietly|]|]. destruct (grant_id lane); [|by apply refusing_quiet; [quietly|]].
  apply refusing_bind; [apply still_lanes_file|done|intros lanes n2 _ H2]. apply refusing_bind; [apply still_token|done|intros password n3 _ H3].
  apply refusing_bind; [quietly|done|intros now n4 _ H4]. apply refusing_bind; [quietly|done|intros _ n5 _ H5].
  apply post_bind_eff. eapply post_mono; [by apply rerender_refused|done|done].
Qed.

Lemma forget_refused service lane n : NoDup (r_services r) -> journal_readable (n_files n) -> post (lane_forget r service lane) n (fun _ _ => True) (refused n).
Proof.
  intros Hd Hj. unfold lane_forget. apply refusing_bind; [apply still_the_service|reflexivity|intros _ n1 _ H1].
  apply refusing_bind; [apply still_lanes_file|done|intros lanes n2 _ H2]. destruct (bool_decide _); [by apply refusing_quiet; [quietly|]|].
  apply refusing_bind; [apply still_the_current|done|intros c n3 _ H3]. apply refusing_bind; [apply still_require_idle|done|intros _ n4 _ H4].
  apply refusing_bind; [quietly|done|intros previous n5 _ H5]. apply refusing_bind; [quietly|done|intros _ n6 _ H6].
  apply refusing_bind; [quietly|done|intros g n7 _ H7]. apply post_bind_eff, post_outcome. eapply post_mono; [by apply commit_after|done|].
  intros e n8 He. by apply put_back_refused.
Qed.

(** The requests that change what a service routes or who may use it. *)
Definition transaction (q : Request) : bool :=
  match q with Apply _ _ _ _ | Rollback _ _ | IssueLane _ _ | ForgetLane _ _ => true | _ => false end.

(** ** An apply *)

(** The current entry of a book after an operation is the operation's. *)
Lemma book_operated book a op : a_operation a = Some op -> bget "current" (book_next book a false) = Some (journal_entry a).
Proof.
  intros Ha. unfold book_next, book_changed. rewrite Ha. rewrite bool_decide_true by (by eexists). rewrite !orb_true_r. cbn [negb].
  by rewrite bget_iset_ne, bget_iset_eq.
Qed.

(** What an apply answers. *)
Definition applied_answer (g : Z) (digest : string) (document : Value) : Value :=
  Object [("revision", Str (revision_of (json_int g) document)); ("applied", document); ("readback_sha256", Str digest);
          ("generation", json_int g); ("replayed", Bool false)].

Lemma apply_entry g digest ops before books entries service op document :
  bget service ops = Some op -> book_moved g digest ops None before books entries service document ->
  (let entry := opt_value (bget service entries) in
   Object [("revision", index entry "revision"); ("applied", index entry "document"); ("readback_sha256", index entry "generation_digest");
           ("generation", index entry "generation"); ("replayed", Bool false)]) = applied_answer g digest document.
Proof.
  intros Hop (book & at_ & _ & _ & He). rewrite bool_decide_false in He by done. rewrite He.
  erewrite book_operated by (cbn; exact Hop). done.
Qed.

Lemma committed_from g intents ops rb n n1 config entries n' : kept n n1 -> committed g intents ops rb n1 config entries n' -> committed g intents ops rb n config entries n'.
Proof.
  intros (_ & Hj & t & Ht) (input & services & since & before & books & H1 & H2 & H3 & H4 & H5 & H6 & H7 & (p & x & y & z & Hh & Hx) & H9 & H10).
  exists input, services, since, before, books. split_and!; try done.
  - exists p, (t ++ x), y, z. split; [done|]. rewrite Hx, Ht. by rewrite <-!app_assoc.
  - destruct H9 as (m & Hm & ->). exists m. split; [|done]. by rewrite <-Hj.
Qed.

Lemma target_inv service revision document n c d intents n' : target r service revision document n = (Ok (c, d, intents), n') ->
  validate_document document = Ok d /\ current r n = (Ok (Some c), n) /\ revision_matches c service revision = true /\ intents = iset service d (documents_of c).
Proof.
  intros Ht. pose proof (target_read _ _ _ _ _ _ _ _ _ Ht) as [Hc _]. unfold target in Ht.
  apply bind_inv in Ht as (d' & n1 & Hd & Ht). unfold lift in Hd. injection Hd as Hd <-. apply bind_inv in Ht as (c' & n2 & Hcur & Ht).
  apply the_current_read in Hcur as [Hcur ->]. rewrite Hcur in Hc. apply bind_inv in Ht as (u & n3 & _ & Ht).
  destruct (negb _) eqn:Hm; [done|]. apply negb_false_iff in Hm. apply ret_inv in Ht as [Ht _]. injection Ht as -> -> ->. by simplify_eq.
Qed.
Lemma service_served service n u n' : the_service r service n = (Ok u, n') -> service ∈ r_services r /\ n' = n.
Proof. unfold the_service. destruct (mem_str service (r_services r)) eqn:Hm; [|done]. intros [_ ->]%ret_inv. split; [by apply mem_str_true|done]. Qed.
Lemma journal_still n books n' : journal r n = (Ok books, n') -> n' = n.
Proof.
  unfold journal, read_json, mbind, Eff_bind. repeat case_match; cbn; intros; simplify_eq; try done.
  all: unfold lift, mret, Eff_ret, raise in *; repeat case_match; by simplify_eq.
Qed.

(** After the target is known. *)
Lemma apply_rest service op c doc n n1 : NoDup (r_services r) -> journal_readable (n_files n) -> service ∈ r_services r -> untouched n n1 ->
  post (_ ← needs_warp r service doc;
        hops ← check_hops doc;
        _ ← match unreachable_hop hops with Some err => raise err | None => done end;
        generation ← lift (generation_number c);
        entries ← commit_generation r (succ_i64 generation) (iset service doc (documents_of c)) [(service, op)] None true;
        let entry := opt_value (bget service entries) in
        mret (Object [("revision", index entry "revision"); ("applied", index entry "document");
                      ("readback_sha256", index entry "generation_digest"); ("generation", index entry "generation"); ("replayed", Bool false)]) : RM Value) n1
    (fun v n' => exists g config entries, generation_number c = Ok g
       /\ committed (succ_i64 g) (iset service doc (documents_of c)) [(service, op)] None n config entries n'
       /\ v = applied_answer (succ_i64 g) (generation_digest config) doc) (fun _ _ => True).
Proof.
  intros Hd Hj Hin H1. apply post_bind_eff, (post_keeps untouched); [apply still_needs_warp|intros _ n2 _ H2|done].
  apply post_bind_eff, (post_keeps untouched); [apply still_check_hops|intros hops n3 _ H3|done].
  apply post_bind_eff, (post_keeps untouched); [quietly|intros _ n4 _ H4|done]. apply post_bind_eff, post_lift; [intros g Hg|done].
  assert (Hk : kept n n4) by (transitivity n1; [apply H1|transitivity n2; [apply H2|transitivity n3; [apply H3|apply H4]]]).
  apply post_bind_eff. eapply post_mono; [apply commit_ends; [done|by eapply readable_kept]| |done]. intros entries n5 [config Hc].
  apply post_ret_eff. apply (committed_from _ _ _ _ n) in Hc; [|done]. exists g, config, entries. split; [done|]. split; [done|].
  destruct Hc as (input & services & since & before & books & _ & _ & Hs & _ & _ & _ & _ & _ & _ & Hbooks).
  destruct (committed_services _ _ _ _ Hs) as [Hkeys Hserv]. rewrite <-Hkeys in Hin. apply list_elem_of_fmap in Hin as ([tag entry] & -> & Hin).
  pose proof (Hbooks _ _ Hin) as Hb. destruct (Hserv _ _ Hin) as (doc' & Hdoc & ->). cbn [fst] in *. rewrite bget_iset_eq in Hdoc. injection Hdoc as <-.
  eapply apply_entry; [|exact Hb]. cbn. by rewrite eqb_s_refl.
Qed.

(** C19: An apply that is answered is applied. Either its operation was the one applied last, with the same document,
    and nothing changed; or the revision was the current one, and everything of the next generation is in place: its
    configuration renders the documents with this service's replaced, its Xray came up and is the manager's process,
    [current.json] and every service's book in the journal say so, and the answer is the new entry's. *)
Theorem apply_commits service revision document operation n v n' (Hd : NoDup (r_services r)) (Hj : journal_readable (n_files n))
  (Hs : serve r (Apply service revision document operation) n = (Ok v, n')) :
  exists op doc, operation = Str op /\ validate_document document = Ok doc /\
    ((exists books, let entry := index (opt_value (bget service books)) "current" in
       journal r n = (Ok books, n) /\ n' = n /\ get "operation_id" entry ≫= as_str = Some op /\ json_eq (index entry "document") doc = true /\ v = replayed entry)
     \/ (exists c g config entries, current r n = (Ok (Some c), n) /\ revision_matches c service revision = true /\ generation_number c = Ok g
          /\ committed (succ_i64 g) (iset service doc (documents_of c)) [(service, op)] None n config entries n'
          /\ v = applied_answer (succ_i64 g) (generation_digest config) doc)).
Proof.
  cbn [serve] in Hs. unfold egress_apply in Hs. apply bind_inv in Hs as (u & n1 & Hserved & Hs). apply service_served in Hserved as [Hserved ->].
  destruct (as_str operation) as [op|] eqn:Hop; [|done]. destruct operation; try done. injection Hop as ->. exists op.
  destruct (negb _); [done|]. apply bind_inv in Hs as (doc & n1 & Hdoc & Hs). unfold lift in Hdoc. injection Hdoc as Hdoc <-. exists doc. split; [done|]. split; [done|].
  apply bind_inv in Hs as (books & n1 & Hbooks & Hs). pose proof (journal_still _ _ _ Hbooks) as ->. set (entry := index _ "current") in Hs.
  destruct (decide (get "operation_id" entry ≫= as_str = Some op)) as [Hsame|Hne].
  - rewrite bool_decide_true in Hs by done. destruct (json_eq _ _) eqn:Heq; [|done]. apply ret_inv in Hs as [-> ->]. left. by exists books.
  - rewrite bool_decide_false in Hs by done. right. apply bind_inv in Hs as ([[c d] intents] & n1 & Ht & Hs).
    pose proof (still_target (R:=untouched) r service revision document n) as U1. rewrite Ht in U1. apply target_inv in Ht as (Hdoc' & Hc & Hm & ->).
    rewrite Hdoc in Hdoc'. injection Hdoc' as <-. pose proof (apply_rest service op c doc n n1 Hd Hj Hserved U1) as Hrest. unfold post in Hrest.
    rewrite Hs in Hrest. destruct Hrest as (g & config & entries & Hg & Hcom & Hv). by exists c, g, config, entries.
Qed.

(** ** [lanes.json] after a refusal *)

Lemma lanes_put f text : f <> LanesFile -> keeps lanes_still (put_text r f text : RM unit).
Proof.
  intros Hf n. destruct (put_shape r f text n) as [_ [[H2 _]|[H2 _]]]; unfold lanes_still; rewrite H2; [done|].
  by apply set_text_other, not_eq_sym.
Qed.
Lemma lanes_unlink f : f <> LanesFile -> keeps lanes_still (unlink r f : RM unit).
Proof.
  intros Hf n. destruct (unlink_shape r f n) as [_ [[H2 _]|[H2 _]]]; unfold lanes_still; rewrite H2; [done|].
  by apply set_text_other, not_eq_sym.
Qed.
Lemma lanes_frozen {A} (m : RM A) : keeps frozen m -> keeps lanes_still m.
Proof. intros Hm n. unfold lanes_still. by rewrite Hm. Qed.
Lemma lanes_start g : keeps lanes_still (start_generation r g : RM unit).
Proof. apply lanes_frozen, frozen_start. Qed.
Lemma lanes_stop : keeps lanes_still (stop_running : RM unit).
Proof. apply lanes_frozen, frozen_stop. Qed.
Lemma lanes_record f v : f <> LanesFile -> keeps lanes_still (write_json r f v : RM unit).
Proof. apply lanes_put. Qed.
#[local] Hint Extern 0 (keeps lanes_still (put_text _ _ _)) => apply lanes_put; done : quiet.
#[local] Hint Extern 0 (keeps lanes_still (write_json _ _ _)) => apply lanes_record; done : quiet.
#[local] Hint Extern 0 (keeps lanes_still (unlink _ _)) => apply lanes_unlink; done : quiet.
#[local] Hint Resolve lanes_start lanes_stop : quiet.
Lemma lanes_fall_back g c : keeps lanes_still (fall_back r g c : RM unit).
Proof. unfold fall_back. quietly. Qed.
#[local] Hint Resolve lanes_fall_back : quiet.
Lemma lanes_swap g c : keeps lanes_still (swap r g c : RM unit).
Proof. unfold swap. quietly. Qed.
#[local] Hint Resolve lanes_swap : quiet.
Lemma lanes_commit g intents ops rb keep : keeps lanes_still (commit_generation r g intents ops rb keep : RM (imap Value)).
Proof. unfold commit_generation. quietly. Qed.
#[local] Hint Resolve lanes_commit : quiet.
Lemma lanes_rerender : keeps lanes_still (rerender_current r : RM unit).
Proof. unfold rerender_current. quietly. Qed.
Lemma lanes_apply service revision document operation : keeps lanes_still (egress_apply r service revision document operation : RM Value).
Proof. unfold egress_apply. quietly. Qed.
Lemma lanes_rollback service revision : keeps lanes_still (egress_rollback r service revision : RM Value).
Proof. unfold egress_rollback. quietly. Qed.

(** The account of a lane among the lanes of the services. *)
Definition lane_account (lanes : imap Value) (service lane : string) : option Value := (bget service lanes ≫= as_object) ≫= bget lane.
(** The file has the lanes it had and a new account for the lane [grant:id], which the refused request does not take back. *)
Definition account_stayed n n' (service id : string) : Prop := exists lanes lanes' password now,
  lanes_file r n = (Ok lanes, n) /\ n_files n' LanesFile = Some (file_text (Object lanes')) /\
  forall s l, lane_account lanes' s l =
    if (s =?s service) && (l =?s "grant:" +:+ id)
    then Some (Object [("user", Str ("grant-" +:+ id)); ("password", Str password); ("issued_at", Str now)]) else lane_account lanes s l.
(** The document the file held was put back. *)
Definition put_back n n' : Prop := exists text previous,
  n_files n LanesFile = Some text /\ from_slice text = Some previous /\ n_files n' LanesFile = Some (file_text previous).

Definition lanes_ended (q : Request) n n' : Prop :=
  lanes_still n n' \/
  match q with
  | IssueLane service lane => exists id, grant_id lane = Some id /\ account_stayed n n' service id
  | ForgetLane _ _ => put_back n n'
  | _ => False
  end.

Lemma lanes_file_read n lanes n' : lanes_file r n = (Ok lanes, n') -> n' = n
  /\ (forall service, service ∈ r_services r -> exists set, bget service lanes = Some (Object set))
  /\ exists v m, read_json r LanesFile (Object []) n = (Ok v, n) /\ v = Object m /\ forall service l, lane_account lanes service l =
       if mem_str service (r_services r) then lane_account m service l else None.
Proof.
  unfold lanes_file. intros Hl. apply bind_inv in Hl as (v & n1 & Hr & Hl).
  assert (n1 = n) as -> by (revert Hr; unfold read_json; repeat case_match; by intros [= _ <-]).
  apply bind_inv in Hl as (m & n2 & Hm & Hl). unfold lift in Hm, Hl. injection Hm as Hm <-. injection Hl as Hl <-. split; [done|].
  assert (v = Object m) as -> by (unfold object, ok_or in Hm; destruct v; try done; by injection Hm as ->).
  assert (Hset : forall tag s, lane_set m tag = Ok s -> s.1 = tag /\ exists set, s.2 = Object set /\ default (Object []) (bget tag m) = Object set).
  { intros tag s. unfold lane_set, object, ok_or. destruct (default _ _) as [| | | | |set]; try done. cbn. intros [= <-]. split; [done|by exists set]. }
  assert (Hget : forall service, match bget service lanes with
    | Some v => mem_str service (r_services r) = true /\ v = default (Object []) (bget service m) /\ exists set, v = Object set
    | None => mem_str service (r_services r) = false end).
  { apply mapM_Ok_iff in Hl. intros service. induction Hl as [|tag s l k Hs _ IH]; [done|]. apply Hset in Hs as (<- & set & Hs & Hd).
    destruct s as [tag w]. cbn [fst snd] in *. subst w. change (mem_str service (tag :: l)) with ((service =?s tag) || mem_str service l). cbn [bget].
    destruct (service =?s tag) eqn:E; [|exact IH]. apply eqb_s_true in E as ->. split; [done|]. rewrite Hd. split; [done|by exists set]. }
  split.
  - intros service Hin%mem_str_true. specialize (Hget service). destruct (bget service lanes); [|congruence].
    destruct Hget as (_ & _ & set & ->). by exists set.
  - exists (Object m), m. split; [done|]. split; [done|]. intros service l. specialize (Hget service). unfold lane_account.
    destruct (bget service lanes) as [w|]; [destruct Hget as (-> & -> & _)|by rewrite Hget]. by destruct (bget service m).
Qed.

Lemma post_pair {A} (m : RM A) n Q X : (forall a n', m n = (Ok a, n') -> Q a n') -> (forall e n', m n = (Err e, n') -> X e n') -> post m n Q X.
Proof. unfold post. destruct (m n) as [[a|e] n']; auto. Qed.

(** A part of a handler that leaves [lanes.json] alone. *)
Lemma post_lanes {A} (P : Files -> Prop) (m : RM A) n : (forall F F', F' LanesFile = F LanesFile -> P F -> P F') -> keeps lanes_still m -> P (n_files n) ->
  post m n (fun _ _ => True) (fun _ n' => P (n_files n')).
Proof. intros HP Hm Hn. apply (post_keeps lanes_still); [done|done|]. intros e n' Hs. by apply (HP (n_files n)). Qed.

Definition disk_or (P : Prop) (e : RouterError) : Prop := match e with Internal _ => True | _ => P end.

Lemma issue_lanes service lane n : post (lane_issue r service lane) n (fun _ _ => True)
  (fun e n' => disk_or (lanes_ended (IssueLane service lane) n n') e).
Proof.
  assert (Hstill : forall e n', lanes_still n n' -> disk_or (lanes_ended (IssueLane service lane) n n') e) by (intros [] n' Hs; try done; by left).
  unfold lane_issue. apply post_bind_eff, post_pair; [intros [] n1 Hserved; apply service_served in Hserved as [Hin ->]|].
  2: { intros e n1 He. apply Hstill. pose proof (still_the_service (R:=lanes_still) r service n) as Hs. by rewrite He in Hs. }
  destruct (mem_str _ _); [by apply Hstill|]. destruct (grant_id lane) as [id|] eqn:Hid; [|by apply Hstill]. cbv zeta.
  apply post_bind_eff, post_pair; [intros lanes n1 Hl|intros e n1 Hl; apply Hstill; pose proof (still_lanes_file (R:=lanes_still) r n) as Hs; by rewrite Hl in Hs].
  pose proof Hl as Hl'. apply lanes_file_read in Hl' as (-> & Hsets & _). destruct (Hsets _ Hin) as [set Hset].
  apply post_bind_eff, (post_keeps lanes_still); [apply still_token|intros password n2 _ H2|intros e n2 H2; by apply Hstill].
  apply post_bind_eff, (post_keeps lanes_still); [quietly|intros now n3 _ H3|intros e n3 H3; apply Hstill; unfold lanes_still in *; congruence].
  apply post_bind_eff. eapply post_mono; [apply put_file| |by intros e n4 [m ->]]. intros _ n4 (F4 & _).
  apply post_bind_eff, (post_keeps lanes_still); [apply lanes_rerender|done|]. intros e n5 H5.
  assert (Hend : lanes_ended (IssueLane service lane) n n5); [|by destruct e].
  right. exists id. split; [done|]. exists lanes. eexists _, password, now. split; [done|]. split; [rewrite H5, F4; apply set_text_this|].
  intros s l. unfold lane_account. rewrite bget_iupd. destruct (s =?s service) eqn:E; [|done]. apply eqb_s_true in E as ->. rewrite Hset. cbn.
  rewrite bget_iset. by destruct (l =?s _).
Qed.

Lemma forget_lanes service lane n : post (lane_forget r service lane) n (fun _ _ => True)
  (fun e n' => disk_or (lanes_ended (ForgetLane service lane) n n') e).
Proof.
  assert (Hstill : forall e n', lanes_still n n' -> disk_or (lanes_ended (ForgetLane service lane) n n') e) by (intros [] n' Hs; try done; by left).
  unfold lane_forget. apply post_bind_eff, (post_keeps lanes_still); [apply still_the_service|intros _ n1 _ H1|by intros e n1 H1; apply Hstill].
  assert (Hnext : forall m : Node H, lanes_still n1 m -> lanes_still n m) by (unfold lanes_still in *; congruence).
  apply post_bind_eff, (post_keeps lanes_still); [apply still_lanes_file| |intros e n2 H2; by apply Hstill, Hnext]. intros lanes n2 Hl H2.
  apply lanes_file_read in Hl as (-> & _ & v & m & Hread & -> & Hlanes). cbv zeta. destruct (bool_decide (bget lane _ = None)) eqn:Hknown; [by apply Hstill, Hnext|].
  assert (Hthere : is_Some (n_files n LanesFile)).
  { destruct (n_files n LanesFile) as [text|] eqn:Hf; [done|]. exfalso. apply bool_decide_eq_false in Hknown. apply Hknown.
    unfold read_json in Hread. rewrite H1, Hf in Hread. injection Hread as Hm. specialize (Hlanes service lane).
    revert Hlanes. subst m. unfold lane_account. destruct (bget service lanes) as [[]|]; try done. cbn. destruct (mem_str _ _); intros ->; done. }
  destruct Hthere as [text Htext].
  apply post_bind_eff, (post_keeps lanes_still); [apply still_the_current|intros c n3 _ H3|intros e n3 H3; by apply Hstill, Hnext].
  apply post_bind_eff, (post_keeps lanes_still); [apply still_require_idle|intros _ n4 _ H4|intros e n4 H4; apply Hstill, Hnext; unfold lanes_still in *; congruence].
  assert (F4 : n_files n4 LanesFile = Some text) by (unfold lanes_still in *; congruence).
  apply post_bind_eff, post_pair; [intros previous n5 Hp|intros e n5 Hp; apply Hstill; pose proof (still_read (R:=lanes_still) r LanesFile (Object []) n4) as Hs;
    rewrite Hp in Hs; unfold lanes_still in *; cbn in Hs; congruence].
  unfold read_json in Hp. rewrite F4 in Hp. destruct (disk_read_error _ _); [done|]. destruct (from_slice text) as [v|] eqn:Hv; [|done].
  injection Hp as -> <-. apply post_bind_eff. eapply post_mono; [apply put_file| |by intros e n6 [w ->]]. intros _ n6 (F6 & _).
  apply post_bind_eff, post_lift; [intros g Hg|].
  2: { intros e He. unfold generation_number, ok_or in He. destruct (_ ≫= _); [done|]. by injection He as <-. }
  apply post_bind_eff, post_outcome. apply post_pair; [done|]. intros err n7 _. apply post_bind_eff.
  eapply post_mono; [apply put_file| |by intros e n8 [w ->]]. intros _ n8 (F8 & _).
  assert (Hend : lanes_ended (ForgetLane service lane) n n8); [|by destruct err].
  right. exists text, previous. split; [done|]. split; [done|]. rewrite F8. apply set_text_this.
Qed.

(** C20: How a refused request ends. Whatever Xray and the rest of the machine do, a request on a service's document or
    lanes that answers an error, other than an error of the disk or of a file that is not what the code writes
    ([Internal]), leaves [current.json] and the journal as they were and ends in one of four ways: the manager's process
    was not touched; the new generation did not come up, the generation [current.json] names runs again and the state is
    idle, and the error is Xray's; that one did not come up either (or there was none), the state is broken and the error
    asks for a person; or the start of a generation failed in another way, with that error, and the state still says
    swapping, for the next start to settle. [lanes.json] is as it was too, but for two requests: a lane that was to be
    forgotten is put back with the rest of the document, and the account a refused issue made for its lane, and only
    that one, stays. *)
Theorem refused_ends q n e n' (Hd : NoDup (r_services r)) (Hj : journal_readable (n_files n)) (Hq : transaction q = true)
  (Hs : serve r q n = (Err e, n')) (He : forall message, e <> Internal message) : ended n e n' /\ kept n n' /\ lanes_ended q n n'.
Proof.
  assert (Hr : refused n e n').
  { destruct q; try done; cbn [serve] in Hs.
    - pose proof (apply_refused service revision document operation n Hd Hj) as Hp. unfold post in Hp. by rewrite Hs in Hp.
    - pose proof (rollback_refused service revision n Hd Hj) as Hp. unfold post in Hp. by rewrite Hs in Hp.
    - pose proof (issue_refused service lane n Hd Hj) as Hp. unfold post in Hp. by rewrite Hs in Hp.
    - pose proof (forget_refused service lane n Hd Hj) as Hp. unfold post in Hp. by rewrite Hs in Hp. }
  assert (Hl : disk_or (lanes_ended q n n') e).
  { destruct q; try done; cbn [serve] in Hs.
    - pose proof (lanes_apply service revision document operation n) as Hp. rewrite Hs in Hp. destruct e; try done; by left.
    - pose proof (lanes_rollback service revision n) as Hp. rewrite Hs in Hp. destruct e; try done; by left.
    - pose proof (issue_lanes service lane n) as Hp. unfold post in Hp. by rewrite Hs in Hp.
    - pose proof (forget_lanes service lane n) as Hp. unfold post in Hp. by rewrite Hs in Hp. }
  assert (Hend : ended n e n') by (destruct e; try exact Hr; exfalso; by eapply He). split; [done|].
  split; [by destruct Hend as [[Hk _]| | |]|]. destruct e; try exact Hl. exfalso. by eapply He.
Qed.
End commit.
