(* ===== verification/RouterNodeSample.v ===== *)
(** * A router's node, for the witnesses

    A document of the second schema with a chain of two hops, a custom exit and two lanes, rendered with two
    services, and connections that an Xray could see; then a reader of the texts the manager writes, a machine on
    which everything works, and the node of a small router, to evaluate the manager with. *)

From S2P Require Import Prelude BTree Utf8 Numeric Json JsonFacts PyText TextFacts Plan IpAddr IpAddrFacts IndexMap AwgKeys.
From S2P Require Import Effect PyIp RouterIp RouterIntent RouterFacts RouterRender RouterRoute RouterRenderProps.
From S2P Require Import RouterIpFacts RouterNormal RouterWarp RouterNode RouterService RouterFrame RouterHistory RouterCommit.

(** Integers are displayed in decimal, and nothing else is. *)
Definition int_display : SerdeDisplay := {| value_display := fun v => match v with Num (NInt z) => fmt_Z z | _ => EmptyString end |}.

#[local] Existing Instances ascii_text no_floats int_display toy_hash.

Definition sample_hop (guid address uuid : string) : Value :=
  Object [("guid", Str guid); ("address", Str address); ("port", json_int 8443); ("server_name", Str "Cover.Example.");
          ("public_key", Str "abcdefghijklmnopqrstuvwxyzABCDEFGHIJKLMNOPQ"); ("short_id", Str "0a0b"); ("uuid", Str uuid)].
Definition sample_exit : Value :=
  Object [("protocol", Str "socks"); ("address", Str "198.51.100.7"); ("port", json_int 1080)].
Definition sample_rule (domains : list string) (action : string) (egress : Value) : Value :=
  Object [("domains", strs domains); ("action", Str action); ("egress", egress)].
Definition sample_lane (action : string) (egress : Value) (rules : list Value) : Value :=
  Object [("default", Object [("action", Str action); ("egress", egress)]); ("rules", Array rules)].

Definition sample_source : Value :=
  Object [("schema", json_int 2);
    ("lanes", Object [("svc:naive", sample_lane "egress" (Str "warp") []);
                      ("grant:g1", sample_lane "direct" Null [sample_rule ["Example.com."; "example.com"] "egress" (Str "chain:c1");
                                                              Object [("cidrs", strs ["203.0.113.9/24"]); ("ports", Array [Str "080-443"; json_int 22]);
                                                                      ("action", Str "egress"); ("egress", Str "exit:home")]])]);
    ("chains", Object [("c1", Object [("hops", Array [sample_hop "n2" "198.51.100.2" "00000000-0000-4000-8000-000000000002";
                                                      sample_hop "n3" "Hop.Example" "00000000-0000-4000-8000-000000000003"]);
                                      ("exit", Str "direct")])]);
    ("exits", Object [("home", sample_exit)])].
Definition sample_intent : Value := match validate_document sample_source with Ok d => d | Err _ => Null end.
Lemma sample_valid : validate_document sample_source = Ok sample_intent.
Proof. vm_compute. reflexivity. Qed.

Definition sample_input : RenderInput :=
  {| intents := [("naive", sample_intent)];
     RouterRender.ingresses := [ingress_new "naive" 45101 "naive-abc" "p"; ingress_new "mieru" 45102 "mieru-def" "q"];
     warp_url := Some "socks5://127.0.0.1:45000"; ports := None;
     RouterRender.lanes := [("naive", [{| lane := "grant:g1"; account_user := Str "g1"; account_password := Str "w" |}])];
     relay := None; RouterRender.warp_wg := None |}.
Definition sample_config : Value := match render_config sample_input with Ok c => c | Err _ => Null end.
Lemma sample_renders : render_config sample_input = Ok sample_config.
Proof. vm_compute. reflexivity. Qed.

Lemma sample_documents : documents_ok sample_input.
Proof.
  intros service intent H. cbn [intents sample_input bget] in H. destruct (service =?s "naive"); [|done]. injection H as <-.
  exists sample_source. split; [exact sample_valid|]. split; apply (bool_decide_unpack _); vm_compute; exact I.
Qed.

(** A connection, and an Xray that reads the fields of its rules. *)
Record Connection := {
  on_inbound : string; as_user : Value; to_host : string; networks : list string; sites : list string; countries : list string;
  dialled : N; sniffs : string }.

Definition host_hit (c : Connection) (text : string) : bool :=
  match strip_prefix "domain:" text with
  | Some name => (to_host c =?s name) || ends_with ("." +:+ name) (to_host c)
  | None => match strip_prefix "full:" text with
            | Some name => to_host c =?s name
            | None => match strip_prefix "geosite:" text with Some code => mem_str code (sites c) | None => false end
            end
  end.
Definition address_hit (c : Connection) (text : string) : bool :=
  match strip_prefix "geoip:" text with Some code => mem_str code (countries c) | None => mem_str text (networks c) end.
Definition port_hit (c : Connection) (text : string) : bool :=
  match port_range text with
  | Some (low, high) => (low <=? dialled c)%N && (dialled c <=? high)%N
  | None => match parse_u32 text with Some z => (Z.of_N (dialled c) =? z)%Z | None => false end
  end.
Definition any_text (f : string -> bool) (v : Value) : bool := existsb (fun v => match v with Str text => f text | _ => false end) (as_items v).

Definition sample_hit (field : string) (value : Value) (c : Connection) : bool :=
  if field =?s "inboundTag" then existsb (value_eqb (Str (on_inbound c))) (as_items value)
  else if field =?s "user" then existsb (fun user => value_eqb user (as_user c)) (as_items value)
  else if field =?s "domain" then any_text (host_hit c) value
  else if field =?s "ip" then any_text (address_hit c) value
  else if field =?s "port" then match value with Str text => existsb (port_hit c) (split_byte ","%char text) | _ => false end
  else if field =?s "protocol" then any_text (fun name => name =?s sniffs c) value
  else false.
Definition sample_reading : Reading Connection := {|
  at_inbound := on_inbound; by_user := as_user;
  under := fun name c => (to_host c =?s name) || ends_with ("." +:+ name) (to_host c);
  exactly := fun name c => to_host c =?s name;
  in_geosite := fun code c => mem_str code (sites c);
  in_network := fun net c => mem_str net (networks c);
  in_geoip := fun code c => mem_str code (countries c);
  to_port := dialled;
  sniffed := fun name c => name =?s sniffs c |}.

Lemma any_text_strs f l : any_text f (strs l) = existsb f l.
Proof. unfold any_text, strs. cbn [as_items]. induction l as [|t l IH]; [done|]. cbn [map existsb]. by rewrite IH. Qed.
Lemma any_text_each f l : any_text f (strs l) = existsb (fun t => any_text f (strs [t])) l.
Proof. rewrite any_text_strs. induction l as [|t l IH]; [done|]. cbn [existsb]. rewrite IH, any_text_strs. cbn [existsb]. by rewrite orb_false_r. Qed.

Lemma network_not_code text net : network text = Some net -> strip_prefix "geoip:" net = None.
Proof.
  intros (a & Ha & Hb)%network_is_text%network_first. destruct (strip_prefix "geoip:" net) as [rest|] eqn:Hs; [|done].
  apply strip_prefix_iff in Hs as ->. injection Ha as <-. done.
Qed.
Lemma fmt_N_not_range n : port_range (fmt_N n) = None.
Proof.
  unfold port_range. rewrite split_once_none; [done|]. apply (contains_none is_digit); [apply fmt_N_digits|done].
Qed.

Lemma sample_documented : xray_documented sample_reading sample_hit.
Proof.
  split; try by intros.
  - intros l c. apply any_text_each.
  - intros name c. change (any_text (host_hit c) (strs ["domain:" +:+ name]) = under sample_reading name c). rewrite any_text_strs. cbn [existsb].
    rewrite orb_false_r. unfold host_hit. by rewrite (proj2 (strip_prefix_iff "domain:" _ name) eq_refl).
  - intros name c. change (any_text (host_hit c) (strs ["full:" +:+ name]) = exactly sample_reading name c). rewrite any_text_strs. cbn [existsb].
    rewrite orb_false_r. unfold host_hit. by rewrite (proj2 (strip_prefix_iff "full:" _ name) eq_refl).
  - intros name c. change (any_text (host_hit c) (strs ["geosite:" +:+ name]) = in_geosite sample_reading name c). rewrite any_text_strs. cbn [existsb].
    rewrite orb_false_r. unfold host_hit. by rewrite (proj2 (strip_prefix_iff "geosite:" _ name) eq_refl).
  - intros l c. apply any_text_each.
  - intros name c. change (any_text (address_hit c) (strs ["geoip:" +:+ name]) = in_geoip sample_reading name c). rewrite any_text_strs. cbn [existsb].
    rewrite orb_false_r. unfold address_hit. by rewrite (proj2 (strip_prefix_iff "geoip:" _ name) eq_refl).
  - intros text net c Hn%network_not_code. change (any_text (address_hit c) (strs [net]) = in_network sample_reading net c). rewrite any_text_strs.
    cbn [existsb]. rewrite orb_false_r. unfold address_hit. by rewrite Hn.
  - intros l c Hl Hc. change (existsb (port_hit c) (split_byte ","%char (join "," l)) = existsb (fun t => existsb (port_hit c) (split_byte ","%char t)) l).
    rewrite split_join by done. clear Hl. induction Hc as [|t l Ht _ IH]; [done|]. cbn [existsb]. rewrite IH, Ht. cbn [existsb]. by rewrite orb_false_r.
  - intros n c Hn. change (existsb (port_hit c) (split_byte ","%char (fmt_N n)) = (dialled c =? n)%N). rewrite split_fmt_N by done. cbn [existsb].
    rewrite orb_false_r. unfold port_hit. rewrite fmt_N_not_range. rewrite (proj1 (digits_value n Hn)). apply eq_true_iff_eq. rewrite Z.eqb_eq, N.eqb_eq. lia.
  - intros low high c Hl Hh. change (existsb (port_hit c) (split_byte ","%char (fmt_N low +:+ "-" +:+ fmt_N high)) = ((low <=? dialled c)%N && (dialled c <=? high)%N)).
    rewrite (split_whole port_byte) by (apply range_text || done). cbn [existsb]. rewrite orb_false_r. unfold port_hit. by rewrite range_reads.
  - intros l c. apply any_text_strs.
Qed.
Lemma sample_display n : value_display (json_int (Z.of_N n)) = fmt_N n.
Proof. by destruct n. Qed.

Definition sample_connection : Connection :=
  {| on_inbound := "naive"; as_user := Str "g1"; to_host := "www.example.com"; networks := []; sites := []; countries := []; dialled := 443; sniffs := "tls" |}.
Lemma sample_service : ("naive", ingress_new "naive" 45101 "naive-abc" "p") ∈ services sample_input.
Proof. apply (list_elem_of_lookup_2 _ 0). reflexivity. Qed.

Definition none {A} (l : list A) : bool := match l with [] => true | _ => false end.
Definition unmixedb (rule : Value) : bool :=
  (none (texts "domains" rule) && none (texts "geosites" rule)) || (none (texts "cidrs" rule) && none (texts "geoips" rule)).
Lemma unmixedb_all rules : forallb unmixedb rules = true -> Forall unmixed rules.
Proof.
  rewrite forallb_forall. intros H. apply list.Forall_forall. intros r Hr%list_elem_of_In%H. unfold unmixedb in Hr. unfold unmixed.
  destruct (texts "domains" r), (texts "geosites" r), (texts "cidrs" r), (texts "geoips" r); by auto.
Qed.

(** The grant's connection leaves through the last hop of the chain of two. *)
Lemma config_runs_lanes_witness : xray_route sample_hit sample_config sample_connection = Some "chain:naive:c1:2".
Proof.
  etransitivity; [refine (config_runs_lanes sample_reading sample_hit sample_documented sample_display sample_input sample_config "naive" _ sample_connection
    sample_renders sample_documents sample_service eq_refl _)|vm_compute; reflexivity].
  intros doc [= <-]. apply unmixedb_all. vm_compute. reflexivity.
Defined.

(** A rule with a name and a network: the panel's rule takes either, the router's only both. *)
Definition mixed_source : Value :=
  Object [("schema", json_int 2);
    ("lanes", Object [("svc:naive", sample_lane "direct" Null
       [Object [("domains", strs ["example.com"]); ("cidrs", strs ["203.0.113.0/24"]); ("action", Str "block"); ("egress", Null)]])])].
Definition mixed_intent : Value := match validate_document mixed_source with Ok d => d | Err _ => Null end.
Definition mixed_input : RenderInput :=
  {| intents := [("naive", mixed_intent)]; RouterRender.ingresses := [ingress_new "naive" 45101 "naive-abc" "p"];
     warp_url := None; ports := None; RouterRender.lanes := []; relay := None; RouterRender.warp_wg := None |}.
Definition mixed_config : Value := match render_config mixed_input with Ok c => c | Err _ => Null end.

Example mixed_rule_differs :
  (exists d, validate_document mixed_source = Ok d) /\ render_config mixed_input = Ok mixed_config
  /\ xray_route sample_hit mixed_config sample_connection = Some "direct"
  /\ service_sends sample_reading "naive" (ingress_new "naive" 45101 "naive-abc" "p") (Some mixed_intent) [] sample_connection = "block".
Proof.
  split; [exists mixed_intent; vm_compute; reflexivity|]. split; [vm_compute; reflexivity|]. split; vm_compute; reflexivity.
Qed.

Lemma render_closed_witness : targets_named (outbounds_of sample_config) (rules_of sample_config) /\ length (outbounds_of sample_config) = 6%nat.
Proof. split; [exact (proj1 (render_closed sample_input sample_config sample_documents sample_renders))|vm_compute; reflexivity]. Defined.

Lemma outbounds_distinct_witness : NoDup (map tag_of (outbounds_of sample_config)).
Proof. exact (outbounds_distinct sample_input sample_config sample_documents sample_renders). Defined.

Example sample_tags : omap tag_of (outbounds_of sample_config) =
  ["block"; "direct"; "warp"; "chain:naive:c1:1"; "chain:naive:c1:2"; "exit:naive:home"].
Proof. vm_compute. reflexivity. Qed.

Definition texts_ok (v : Value) : bool := match v with Str t => utf8 t | _ => true end.
Definition lane_texts_ok (body : Value) : bool :=
  forallb (fun r => forallb texts_ok (as_items (index r "cidrs"))) (as_items (index body "rules")).
Lemma lane_texts_check body : lane_texts_ok body = true -> lane_texts body.
Proof.
  unfold lane_texts_ok, lane_texts, rule_texts. rewrite forallb_forall. intros H. apply list.Forall_forall. intros r Hr%list_elem_of_In.
  specialize (H r Hr). rewrite forallb_forall in H. apply list.Forall_forall. intros v Hv%list_elem_of_In t ->. by apply (H (Str t)).
Qed.
Lemma sample_texts : document_texts sample_intent.
Proof.
  split; [apply lane_texts_check; vm_compute; reflexivity|]. apply list.Forall_forall. intros e He. apply lane_texts_check.
  assert (G : forallb (fun e => lane_texts_ok e.2) (as_entries (get "lanes" sample_intent)) = true) by (vm_compute; reflexivity).
  rewrite forallb_forall in G. by apply G, list_elem_of_In.
Qed.

Lemma validate_is_stable_witness : validate_document sample_intent = Ok sample_intent /\ sample_intent <> sample_source.
Proof.
  split; [exact (validate_is_stable ascii_lowercase sample_source sample_intent sample_valid sample_texts)|]. vm_compute. discriminate.
Defined.

(** ** A node to run

    Objects keep the first of two equal keys, numbers are integers. *)

#[local] Existing Instances ascii_text no_floats int_display toy_hash.

(** ** Reading *)

Definition hex_units (s : string) : option (N * string) :=
  unit ← digits_val 16 (take_s 4 s);
  if (String.length s <? 4)%nat then None else Some (unit, drop_s 4 s).
(** After a backslash. *)
Definition read_escape (s : string) : option (string * string) :=
  match s with
  | String b rest =>
      if Ascii.eqb b "u"%char then
        '(unit, rest) ← hex_units rest;
        if (0xD800 <=? unit)%N && (unit <? 0xDC00)%N then
          '(low, rest) ← hex_units (drop_s 2 rest);
          Some (encode_char (0x10000 + (unit - 0xD800) * 1024 + (low - 0xDC00))%N, rest)
        else Some (encode_char unit, rest)
      else
        let code := (if Ascii.eqb b "n"%char then 10 else if Ascii.eqb b "r"%char then 13 else if Ascii.eqb b "t"%char then 9
                     else if Ascii.eqb b "b"%char then 8 else if Ascii.eqb b "f"%char then 12 else Ascii.N_of_ascii b)%N in
        Some (encode_char code, rest)
  | EmptyString => None
  end.
Definition quote : Ascii.ascii := Ascii.ascii_of_nat 34.
(** The text up to the closing quotation mark. *)
Fixpoint read_text_body (fuel : nat) (s : string) : option (string * string) :=
  match fuel, s with
  | S fuel, String b rest =>
      if Ascii.eqb b quote then Some (EmptyString, rest)
      else if Ascii.eqb b (Ascii.ascii_of_nat 92) then
        '(c, rest) ← read_escape rest; '(text, rest) ← read_text_body fuel rest; Some (c +:+ text, rest)
      else '(text, rest) ← read_text_body fuel rest; Some (String b text, rest)
  | _, _ => None
  end.
Definition after (b : Ascii.ascii) (s : string) : option string :=
  match s with String a rest => if Ascii.eqb a b then Some rest else None | EmptyString => None end.

Section read.
Context (read : string -> option (Value * string)).

Fixpoint read_items (fuel : nat) (s : string) : option (list Value * string) :=
  match fuel with
  | O => None
  | S fuel =>
      '(v, rest) ← read s;
      match after ","%char rest with
      | Some rest => '(l, rest) ← read_items fuel rest; Some (v :: l, rest)
      | None => rest ← after "]"%char rest; Some ([v], rest)
      end
  end.
Fixpoint read_entries (fuel : nat) (s : string) : option (imap Value * string) :=
  match fuel with
  | O => None
  | S fuel =>
      s ← after quote s;
      '(k, rest) ← read_text_body (String.length s) s;
      rest ← after ":"%char rest;
      '(v, rest) ← read rest;
      match after ","%char rest with
      | Some rest => '(m, rest) ← read_entries fuel rest; Some ((k, v) :: m, rest)
      | None => rest ← after "}"%char rest; Some ([(k, v)], rest)
      end
  end.
End read.

Definition starting (word : string) (v : Value) (s : string) : option (Value * string) := rest ← strip_prefix word s; Some (v, rest).
Fixpoint read_value (fuel : nat) (s : string) : option (Value * string) :=
  match fuel, s with
  | S fuel, String b rest =>
      if Ascii.eqb b quote then '(text, rest) ← read_text_body (String.length rest) rest; Some (Str text, rest)
      else if Ascii.eqb b "["%char then
        match after "]"%char rest with
        | Some rest => Some (Array [], rest)
        | None => '(l, rest) ← read_items (read_value fuel) fuel rest; Some (Array l, rest)
        end
      else if Ascii.eqb b "{"%char then
        match after "}"%char rest with
        | Some rest => Some (Object [], rest)
        | None => '(m, rest) ← read_entries (read_value fuel) fuel rest; Some (Object m, rest)
        end
      else if Ascii.eqb b "n"%char then starting "null" Null s
      else if Ascii.eqb b "t"%char then starting "true" (Bool true) s
      else if Ascii.eqb b "f"%char then starting "false" (Bool false) s
      else let '(digits, rest) := span_s token_byte s in z ← parse_int i64_min u64_max digits; Some (json_int z, rest)
  | _, _ => None
  end.

Definition toy_reader : SerdeJson :=
  {| from_slice := fun s => '(v, rest) ← read_value (String.length s) s; if rest =?s nl then Some v else None |}.
#[local] Existing Instance toy_reader.

(** *** The number of a generation *)

Lemma hex_char a X : is_hexdigit a = true -> chars (String a X) = Ascii.N_of_ascii a :: chars X /\ write_char true (Ascii.N_of_ascii a) = String a EmptyString.
Proof.
  intros Ha. assert (Hl : (Ascii.N_of_ascii a < 128)%N) by (destruct a as [[] [] [] [] [] [] [] []]; try discriminate Ha; reflexivity).
  split; [by apply chars_head|]. destruct a as [[] [] [] [] [] [] [] []]; try discriminate Ha; done.
Qed.
Lemma hex_written s : forallb_s is_hexdigit s = true -> write_string true s = dq +:+ s +:+ dq.
Proof.
  intros Hs. unfold write_string. do 2 f_equal. induction s as [|a s IH]; [done|]. cbn [forallb_s] in Hs. apply andb_true_iff in Hs as [Ha Hs].
  destruct (hex_char a s Ha) as [-> Hw]. cbn [map]. by rewrite join_nil_cons, Hw, IH.
Qed.
Lemma hex_plain s : forallb_s is_hexdigit s = true -> plain_bytes s = true.
Proof. apply forallb_s_impl. intros a Ha. destruct a as [[] [] [] [] [] [] [] []]; try discriminate Ha; done. Qed.
Lemma read_plain s X : plain_bytes s = true -> forall fuel, (String.length s < fuel)%nat -> read_text_body fuel (s +:+ String quote X) = Some (s, X).
Proof.
  unfold plain_bytes. induction s as [|a s IH]; intros Hs [|fuel] Hf; try (simpl in Hf; lia); [done|].
  cbn [forallb_s] in Hs. apply andb_true_iff in Hs as [[H92%negb_true_iff H34%negb_true_iff]%andb_true_iff Hs].
  rewrite app_cons_s. cbn [read_text_body]. unfold quote. rewrite H34, H92. cbn [String.length] in Hf. by rewrite IH by (done || lia).
Qed.

Lemma toy_hash_hex t : forallb_s is_hexdigit (sha256_hex t) = true.
Proof.
  unfold sha256_hex, toy_hash, pad0. rewrite forallb_s_app, fmt_hex_digits, andb_true_r.
  by induction (64 - _)%nat.
Qed.

Lemma span_token s X : forallb_s token_byte s = true -> tstop X = true -> span_s token_byte (s +:+ X) = (s, X).
Proof.
  intros Hs HX. induction s as [|a s IH].
  - rewrite app_nil_s. destruct X as [|a X]; [done|]. cbn [span_s tstop] in *. apply negb_true_iff in HX. by rewrite HX.
  - rewrite app_cons_s. cbn [span_s forallb_s] in *. apply andb_true_iff in Hs as [-> Hs]. by rewrite IH.
Qed.
Lemma fmt_Z_token z : exists a s, fmt_Z z = String a s /\ is_digit a || Ascii.eqb a "-"%char = true /\ forallb_s token_byte (fmt_Z z) = true.
Proof.
  assert (Ht : forall n, forallb_s token_byte (fmt_N n) = true).
  { intros n. eapply forallb_s_impl; [|apply fmt_N_digits]. intros a Ha. unfold token_byte. by rewrite Ha. }
  unfold fmt_Z. destruct (z <? 0)%Z.
  - eexists _, _. split; [reflexivity|]. cbn [forallb_s]. by rewrite Ht.
  - destruct (fmt_N_cons (Z.to_N z)) as (a & s & Hs & Ha). exists a, s. rewrite Ha. split_and!; [done|done|apply Ht].
Qed.
Lemma digit_value fuel a s : is_digit a || Ascii.eqb a "-"%char = true ->
  read_value (S fuel) (String a s) = ('(digits, rest) ← Some (span_s token_byte (String a s)); z ← parse_int i64_min u64_max digits; Some (json_int z, rest)).
Proof. intros Ha. destruct a as [[] [] [] [] [] [] [] []]; try discriminate Ha; reflexivity. Qed.
Lemma read_number fuel z X : in_i64 z -> tstop X = true -> read_value (S fuel) (fmt_Z z +:+ X) = Some (json_int z, X).
Proof.
  intros Hz HX. destruct (fmt_Z_token z) as (a & s & Hs & Ha & Ht). pose proof (span_token (fmt_Z z) X Ht HX) as Hspan.
  pose proof (parse_int_fmt i64_min u64_max z ltac:(unfold in_i64, i64_max, u64_max in *; lia)) as Hp.
  rewrite Hs in *. rewrite app_cons_s in *. rewrite digit_value by done. rewrite Hspan. unfold mbind, option_bind. cbv beta iota. by rewrite Hp.
Qed.

Lemma current_text g text since services : in_i64 g -> exists X, file_text (current_document g (sha256_hex text) since services) =
  "{" +:+ (write_string true "digest" +:+ ":" +:+ (dq +:+ sha256_hex text +:+ dq) +:+ "," +:+ (write_string true "generation" +:+ ":" +:+ fmt_Z g +:+ "," +:+ X)).
Proof.
  intros Hg. pose proof (hex_written _ (toy_hash_hex text)) as Hw. unfold file_text, dumps. cbn [effective_separators separators SORTED indent].
  unfold current_document. cbn [write_value map fst snd sort_keys ensure_ascii SORTED]. rewrite Hw.
  assert (Hn : write_value SORTED "," ":" (json_int g) 1 = fmt_Z g).
  { cbn [write_value json_int numbers SORTED write_number num_as_i64]. unfold in_i64 in Hg. assert (((i64_min <=? g) && (g <=? i64_max))%Z = true) as -> by lia. done. }
  rewrite Hn. match goal with |- context [("services", ?x)] => generalize x; intros x0 end. generalize (write_string true since); intros y.
  change (sort_entries _) with [("digest", dq +:+ sha256_hex text +:+ dq); ("generation", fmt_Z g); ("services", x0); ("since", y)].
  exists (write_string true "services" +:+ ":" +:+ x0 +:+ "," +:+ write_string true "since" +:+ ":" +:+ y +:+ "}" +:+ nl).
  cbn [map join]. unfold newline. cbn [indent SORTED fst snd]. by rewrite !app_nil_s, !app_assoc_s.
Qed.

(** An entry whose key has no escapes, before others. *)
Lemma read_entry read fuel k v body X : plain_bytes k = true -> read (body +:+ String ","%char X) = Some (v, String ","%char X) ->
  read_entries read (S fuel) (String quote (k +:+ String quote (String ":"%char (body +:+ String ","%char X)))) =
  ('(m, rest) ← read_entries read fuel X; Some ((k, v) :: m, rest)).
Proof.
  intros Hk Hr. cbn [read_entries after]. rewrite Ascii.eqb_refl. unfold mbind at 1, option_bind at 1.
  rewrite read_plain; [|done|rewrite length_app_s; simpl; lia]. cbn [mbind option_bind after]. rewrite Ascii.eqb_refl. cbn [mbind option_bind].
  rewrite Hr. cbn [mbind option_bind after]. by rewrite Ascii.eqb_refl.
Qed.

Lemma read_object fuel rest : after "}"%char rest = None ->
  read_value (S fuel) (String "{"%char rest) = ('(m, rest) ← read_entries (read_value fuel) fuel rest; Some (Object m, rest)).
Proof. intros Hr. cbn [read_value]. change (Ascii.eqb "{"%char quote) with false. rewrite Ascii.eqb_refl. change (Ascii.eqb "{"%char "["%char) with false. by rewrite Hr. Qed.

Lemma read_current fuel D g X : plain_bytes D = true -> in_i64 g ->
  read_value (S (S (S fuel))) ("{" +:+ (write_string true "digest" +:+ ":" +:+ (dq +:+ D +:+ dq) +:+ "," +:+ (write_string true "generation" +:+ ":" +:+ fmt_Z g +:+ "," +:+ X)))
  = ('(m, rest) ← read_entries (read_value (S (S fuel))) fuel X; Some (Object (("digest", Str D) :: ("generation", json_int g) :: m), rest)).
Proof.
  intros HD Hg.
  change (write_string true "digest") with (String quote ("digest" +:+ String quote EmptyString)).
  change (write_string true "generation") with (String quote ("generation" +:+ String quote EmptyString)).
  change dq with (String quote EmptyString). rewrite !app_cons_s, !app_nil_s, !app_assoc_s, !app_cons_s, !app_nil_s.
  rewrite read_object by done.
  pose proof (read_entry (read_value (S (S fuel))) (S fuel) "digest" (Str D) (String quote (D +:+ String quote EmptyString))
    (String quote ("generation" +:+ String quote (String ":"%char (fmt_Z g +:+ String ","%char X)))) eq_refl) as H1.
  rewrite !app_cons_s, !app_assoc_s, !app_cons_s, !app_nil_s in H1. rewrite H1.
  2: { cbn [read_value]. rewrite Ascii.eqb_refl. rewrite read_plain; [done|done|rewrite length_app_s; simpl; lia]. }
  pose proof (read_entry (read_value (S (S fuel))) fuel "generation" (json_int g) (fmt_Z g) X eq_refl) as H2.
  rewrite !app_cons_s, !app_nil_s in H2. rewrite H2 by (by apply read_number).
  unfold mbind, option_bind. destruct (read_entries (read_value (S (S fuel))) fuel X) as [[m rest]|]; reflexivity.
Qed.

#[local] Instance toy_reads : ReadsGeneration.
Proof.
  intros g text since services v Hg. destruct (current_text g text since services Hg) as (X & ->). unfold from_slice, toy_reader.
  set (D := sha256_hex text). pose proof (toy_hash_hex text : forallb_s is_hexdigit D = true) as HD. set (t := "{" +:+ _).
  assert (Hl : exists fuel, String.length t = S (S (S fuel))) by (eexists; reflexivity). destruct Hl as [fuel ->]. unfold t.
  rewrite read_current by (done || by apply hex_plain). destruct (read_entries _ _ _) as [[m rest]|]; [|done]. cbn. destruct (_ =?s _); [|done].
  intros [= <-]. unfold in_i64 in Hg. cbn. assert (((i64_min <=? g) && (g <=? i64_max))%Z = true) as -> by lia. done.
Qed.

(** ** A machine on which everything works *)

(** A counter of calls; no process comes up with a configuration that names refused.example. *)
#[local] Instance toy_machine : Machine N := {
  disk_put := fun _ _ h => (Replaced, (h + 1)%N);
  disk_unlink := fun _ h => (None, (h + 1)%N);
  disk_read_error := fun _ _ => None;
  read_text := fun path _ => Some ((if ends_with "naive" path then "naive" else "mieru") +:+ ":0123456789abcdef" +:+ nl);
  read_artifact := fun _ _ => Some "xray";
  device_exists := fun _ _ => false;
  device_index := fun _ _ => None;
  xray_version := fun h => (Ok "25.1.1", h);
  xray_x25519 := fun h => (Ok ("private", "public"), h);
  xray_test := fun _ _ h => (Ok tt, h);
  xray_start := fun _ text _ h =>
    match text ≫= find_s "refused.example" with Some _ => (Err (Xray "exit status 23"), h) | None => (Ok h, (h + 1)%N) end;
  xray_stop := fun _ h => h;
  xray_alive := fun _ h => (true, h);
  xray_ready := fun _ _ h => (Ok tt, h);
  reachability := fun _ h => (true, h);
  hop_reachability := fun _ _ _ h => (true, h);
  exit_prober := fun _ h => (Ok (Object [("ip", Str "203.0.113.5")]), h);
  free_port := fun h => (Ok 40000%N, h);
  warp_opener := fun _ h => (Err "closed", h);
  now_iso := fun h => ("2026-01-01T00:00:00Z", h);
  tos_now := fun h => ("2026-01-01T00:00:00.000Z", h);
  latency := fun _ => 12%N;
  entropy := fun n h => (str_repeat n "e", (h + 1)%N);
  geodata_meta := fun _ => Object [];
  geodata_seed := fun h => (Ok tt, h);
}.
#[local] Instance toy_url : UrlBase64 := {| encode_url := rfc_encode |}.

Definition sample_router : Router := router_new
  {| o_state_dir := "/var/lib/xray-router"; o_ingress_files := [("naive", "/run/naive"); ("mieru", "/run/mieru")]; o_warp_url := Some "socks5://127.0.0.1:45000";
     o_artifacts := [("xray", "/usr/bin/xray", sha256_hex "xray")]; o_ports := None; o_mtproxy_socket := None;
     o_trusttunnel_port := None; o_amneziawg_tun := None; o_net_root := "/sys/class/net" |}.

Definition sample_new : Node N := {| n_files := no_files; n_inner := no_inner; n_host := 1%N; n_trace := [] |}.
Definition sample_booted : Node N := (bootstrap sample_router (restarted sample_new no_files 1%N)).2.
(** The grant's account, then the document of [RouterSample] for naive. *)
Definition sample_issued : Node N := (serve sample_router (IssueLane "naive" (Str "grant:g1")) sample_booted).2.
Definition sample_revision (n : Node N) : Value := match egress sample_router "naive" n with (Ok v, _) => index v "revision" | _ => Null end.
Definition sample_apply (n : Node N) : Request := Apply "naive" (sample_revision n) sample_source (Str "operation-1").
Definition sample_applied : Node N := (serve sample_router (sample_apply sample_issued) sample_issued).2.
Lemma sample_reachable : reachable sample_router sample_applied.
Proof. apply reachable_serve, reachable_serve, reachable_boot; [apply reachable_new|by left]. Qed.

(** The start of a generation at a place of the trace. *)
Definition start_at (t : list Event) (k : nat) : option (Z * N) := match t !! k with Some (Started (Generation g) p _) => Some (g, p) | _ => None end.
Lemma start_split t k g p : start_at t k = Some (g, p) -> exists text, t = take k t ++ Started (Generation g) p text :: drop (S k) t.
Proof.
  unfold start_at. intros Hs. destruct (t !! k) as [e|] eqn:Hk; [|done]. destruct e as [| |[]| | | |]; try done. injection Hs as -> ->.
  eexists. symmetry. by apply take_drop_middle.
Qed.

Definition answer {A} (x : Checked Value * A) : Value := match x.1 with Ok v => v | Err _ => Null end.
Definition error {A} (x : Checked Value * A) : RouterError := match x.1 with Ok _ => Internal EmptyString | Err e => e end.
Definition ok (x : Checked Value * Node N) : bool := match x.1 with Ok _ => true | Err _ => false end.
Lemma served q n : ok (serve sample_router q n) = true -> serve sample_router q n = (Ok (answer (serve sample_router q n)), (serve sample_router q n).2).
Proof. unfold ok, answer. by destruct (serve sample_router q n) as [[v|e] n']. Qed.
Lemma not_served q n : ok (serve sample_router q n) = false -> serve sample_router q n = (Err (error (serve sample_router q n)), (serve sample_router q n).2).
Proof. unfold ok, error. by destruct (serve sample_router q n) as [[v|e] n']. Qed.

(** A document no Xray comes up with: the generation before runs again. *)
Definition refused_document : Value :=
  Object [("schema", json_int 2); ("lanes", Object [("svc:naive", sample_lane "direct" Null [sample_rule ["refused.example"] "block" Null])]);
          ("chains", Object []); ("exits", Object [])].
Definition refused_apply : Request := Apply "naive" (sample_revision sample_applied) refused_document (Str "operation-2").
Definition sample_refused : Node N := (serve sample_router refused_apply sample_applied).2.

(** The disk as the apply had written [current.json] and nothing after it. *)
Definition crashed_disk : Files := match n_trace sample_applied !! 25%nat with Some (Stored files) => files | _ => no_files end.
Definition sample_crashed : Node N := (bootstrap sample_router (restarted sample_applied crashed_disk 60%N)).2.

(** *** What the runs come to *)

Definition same_text (v w : Value) : bool := match as_str v, as_str w with Some a, Some b => a =?s b | _, _ => false end.
Lemma same_text_eq v w : same_text v w = true -> v = w.
Proof. unfold same_text. destruct v, w; try done. cbn. by intros ->%eqb_s_true. Qed.
Definition readable_journal (n : Node N) : bool := match n_files n JournalFile with Some text => bool_decide (is_Some (from_slice text)) | None => true end.
Lemma sample_readable n : readable_journal n = true -> journal_readable (n_files n).
Proof. unfold readable_journal. intros Hr text Ht. rewrite Ht in Hr. by apply bool_decide_eq_true in Hr. Qed.
Definition says_idle (n : Node N) : bool := bool_decide (n_files n StateFile = Some (file_text (state_document "idle" None 0))).
Lemma sample_says n : says_idle n = true -> state_says n "idle" None 0.
Proof. apply bool_decide_eq_true. Qed.
Definition third (v : Value) : bool := match index v "generation" with Num (NInt 3) => true | _ => false end.
Lemma third_eq v : third v = true -> index v "generation" = json_int 3.
Proof. unfold third. by destruct (index v "generation") as [| |[[|[[| |]|[| |]|]|]|]| | |]. Qed.
Definition of_disk (e : RouterError) : bool := match e with Internal _ => true | _ => false end.
Lemma not_of_disk e : of_disk e = false -> forall m, e <> Internal m.
Proof. by intros He m ->. Qed.
Definition says_conflict (e : RouterError) : bool :=
  match e with Conflict message code => (message =?s "egress revision does not match") && (code =?s "egress_conflict") | _ => false end.
Lemma says_conflict_eq e : says_conflict e = true -> e = Conflict "egress revision does not match" "egress_conflict".
Proof. destruct e; try done. cbn. by intros [->%eqb_s_true ->%eqb_s_true]%andb_true_iff. Qed.
Definition starts_third (n : Node N) : bool :=
  bool_decide (start_at (n_trace n) 23 = Some (3%Z, 17%N)) && negb (bool_decide (live (take 22 (n_trace n)) = [])) && bool_decide (is_Some (n_files n CurrentFile)).
Lemma starts_third_iff n : starts_third n = true -> start_at (n_trace n) 23 = Some (3%Z, 17%N) /\ live (take 22 (n_trace n)) <> [] /\ is_Some (n_files n CurrentFile).
Proof. unfold starts_third. by intros [[H1%bool_decide_eq_true H2%negb_true_iff%bool_decide_eq_false]%andb_true_iff H3%bool_decide_eq_true]%andb_true_iff. Qed.
Definition longer (n n' : Node N) : bool := (length (n_trace n) <? length (n_trace n'))%nat.
Lemma longer_ne n n' : longer n n' = true -> n' <> n.
Proof. unfold longer. intros H ->. by apply Nat.ltb_lt, Nat.lt_irrefl in H. Qed.
Lemma sample_services : NoDup (r_services sample_router).
Proof. apply (bool_decide_unpack _). by vm_compute. Qed.

(** The apply with its third start and its answer; the refusal; the crash. All in one, to be evaluated once. *)
Lemma sample_facts :
  (starts_third sample_applied && (readable_journal sample_issued && (ok (serve sample_router (sample_apply sample_issued) sample_issued)
   && (longer sample_issued sample_applied && third (answer (serve sample_router (sample_apply sample_issued) sample_issued))))))
  && (readable_journal sample_applied && (negb (ok (serve sample_router refused_apply sample_applied)) && (says_idle sample_refused
   && negb (of_disk (error (serve sample_router refused_apply sample_applied))))))
  && (same_text (sample_revision sample_crashed) (sample_revision sample_applied)
   && (same_text (index (index (answer (egress sample_router "naive" sample_crashed)) "current") "revision") (sample_revision sample_issued)
   && says_conflict (error (serve sample_router (sample_apply sample_issued) sample_crashed)))) = true.
Proof. vm_compute. reflexivity. Qed.
Lemma applied_facts : starts_third sample_applied = true /\ readable_journal sample_issued = true /\ ok (serve sample_router (sample_apply sample_issued) sample_issued) = true
  /\ longer sample_issued sample_applied = true /\ third (answer (serve sample_router (sample_apply sample_issued) sample_issued)) = true.
Proof.
  pose proof sample_facts as H. apply andb_true_iff in H as [H _]. apply andb_true_iff in H as [H _].
  apply andb_true_iff in H as [H1 H]. apply andb_true_iff in H as [H2 H]. apply andb_true_iff in H as [H3 H]. apply andb_true_iff in H as [H4 H5]. exact (conj H1 (conj H2 (conj H3 (conj H4 H5)))).
Qed.
Lemma refused_facts : readable_journal sample_applied = true /\ ok (serve sample_router refused_apply sample_applied) = false /\ says_idle sample_refused = true
  /\ of_disk (error (serve sample_router refused_apply sample_applied)) = false.
Proof.
  pose proof sample_facts as H. apply andb_true_iff in H as [H _]. apply andb_true_iff in H as [_ H].
  apply andb_true_iff in H as [H1 H]. apply andb_true_iff in H as [H2 H]. apply andb_true_iff in H as [H3 H4].
  apply negb_true_iff in H2. apply negb_true_iff in H4. exact (conj H1 (conj H2 (conj H3 H4))).
Qed.

(** The processes of the first two starts were stopped before the third. *)
Lemma one_process_witness : start_at (n_trace sample_applied) 23 = Some (3%Z, 17%N) /\ live (take 23 (n_trace sample_applied)) = [] /\ live (take 22 (n_trace sample_applied)) <> [].
Proof.
  destruct (starts_third_iff _ (proj1 applied_facts)) as (Hs & Hl & _). refine (conj Hs (conj _ Hl)).
  destruct (start_split _ _ _ _ Hs) as [text Heq]. exact (one_process sample_router _ _ _ _ _ _ sample_reachable Heq).
Defined.

(** What [current.json] names after the apply. *)
Lemma current_ran_witness : is_Some (n_files sample_applied CurrentFile) /\ named (n_trace sample_applied) (n_files sample_applied).
Proof.
  destruct (starts_third_iff _ (proj1 applied_facts)) as (_ & _ & Hc).
  exact (conj Hc (current_ran sample_router sample_applied _ sample_reachable (or_introl eq_refl))).
Defined.

(** The apply is answered with the third generation. *)
Lemma apply_commits_witness : state_says sample_applied "idle" None 0 /\ index (answer (serve sample_router (sample_apply sample_issued) sample_issued)) "generation" = json_int 3.
Proof.
  destruct applied_facts as (_ & Hr & Hok & Hlong & Hthird). refine (conj _ (third_eq _ Hthird)).
  destruct (apply_commits sample_router _ _ _ _ _ _ _ sample_services (sample_readable _ Hr) (served _ _ Hok)) as (op & doc & _ & _ & [(books & _ & Hn & _)|(c & g & config & entries & _ & _ & _ & Hc & _)]).
  - exact (False_ind _ (longer_ne _ _ Hlong Hn)).
  - destruct Hc as (input & services & since & before & books & _ & _ & _ & _ & _ & _ & Hst & _). exact Hst.
Defined.

(** The generation before runs again. *)
Lemma refused_ends_witness : ended sample_router sample_applied (error (serve sample_router refused_apply sample_applied)) sample_refused /\ state_says sample_refused "idle" None 0.
Proof.
  destruct refused_facts as (Hr & Hno & Hidle & Hi). refine (conj _ (sample_says _ Hidle)).
  exact (proj1 (refused_ends sample_router refused_apply _ _ _ sample_services (sample_readable _ Hr) eq_refl (not_served _ _ Hno) (not_of_disk _ Hi))).
Defined.

(** *** A crash between [current.json] and the journal *)

(** After the start the applied document is the one that runs, but the journal does not know: the entry it has is the
    one before, and the operation, tried again, is refused as if it were another one. *)
Lemma crash_loses_operation :
  sample_revision sample_crashed = sample_revision sample_applied
  /\ index (index (answer (egress sample_router "naive" sample_crashed)) "current") "revision" = sample_revision sample_issued
  /\ error (serve sample_router (sample_apply sample_issued) sample_crashed) = Conflict "egress revision does not match" "egress_conflict".
Proof.
  pose proof sample_facts as H. apply andb_true_iff in H as [_ H]. apply andb_true_iff in H as [H1 H]. apply andb_true_iff in H as [H2 H3].
  exact (conj (same_text_eq _ _ H1) (conj (same_text_eq _ _ H2) (says_conflict_eq _ H3))).
Qed.
