(* ===== verification/Geodata.v ===== *)
(** * The router's lists of domains and addresses

    [xray_router_manager/src/geodata.rs] without its store: the sources an operator can choose, the codes of a
    [geosite.dat] or [geoip.dat] (a protobuf message, read without decoding the lists themselves), the download
    with its redirects, the digest its publisher offers; and the URLs of [https.rs]. What sends a request is the
    argument [send]. A panic is the error [None]. *)

From S2P Require Import Prelude BTree Utf8 Numeric Json PyText IndexMap Plan IpAddr Effect RouterIntent.

Definition FILES : list string := ["geosite"; "geoip"].
Definition SOURCE_KINDS : list string := ["xray"; "loyalsoldier"; "runetfreedom"; "iran"; "v2fly"; "custom"].
Definition MAX_FILE_BYTES : N := 128 * 1024 * 1024.
Definition MIN_INTERVAL_HOURS : Z := 1.
Definition MAX_INTERVAL_HOURS : Z := 24 * 14.

(** ** Sources *)

Record Urls := { geosite : string; geoip : string }.
Definition urls_get (u : Urls) (name : string) : string := if name =?s "geosite" then geosite u else geoip u.
Definition release (repository : string) : Urls :=
  let base := "https://github.com/" +:+ repository +:+ "/releases/latest/download" in
  {| geosite := base +:+ "/geosite.dat"; geoip := base +:+ "/geoip.dat" |}.
Definition preset_urls (kind : string) : option Urls :=
  if kind =?s "loyalsoldier" then Some (release "Loyalsoldier/v2ray-rules-dat")
  else if kind =?s "runetfreedom" then Some (release "runetfreedom/russia-v2ray-rules-dat")
  else if kind =?s "iran" then Some (release "chocolate4u/Iran-v2ray-rules")
  else if kind =?s "v2fly" then
    Some {| geosite := "https://github.com/v2fly/domain-list-community/releases/latest/download/dlc.dat";
            geoip := "https://github.com/v2fly/geoip/releases/latest/download/geoip.dat" |}
  else None.

Record Source := { kind : string; geosite_url : option string; geoip_url : option string }.
Definition source_of (kind : string) : Source := {| kind := kind; geosite_url := None; geoip_url := None |}.
Definition source_urls (s : Source) : option Urls :=
  match preset_urls (kind s) with
  | Some urls => Some urls
  | None =>
      if kind s =?s "custom"
      then Some {| geosite := default EmptyString (geosite_url s); geoip := default EmptyString (geoip_url s) |} else None
  end.

(** [text] after its longest prefix of characters satisfying [f]. *)
Fixpoint skip_chars (f : char -> bool) (l : list char) : list char :=
  match l with c :: rest => if f c then skip_chars f rest else l | [] => [] end.
Fixpoint take_chars (f : char -> bool) (l : list char) : list char :=
  match l with c :: rest => if f c then c :: take_chars f rest else [] | [] => [] end.
Definition host_char (c : char) : bool := (c <? 128)%N && (is_alphanum (byte c) || (c =? 46)%N || (c =? 45)%N).

Definition is_https_url (url : string) : bool :=
  match strip_prefix "https://" url with
  | None => false
  | Some rest =>
      let rest := chars rest in
      match take_chars host_char rest with
      | [] => false
      | _ =>
          let rest := skip_chars host_char rest in
          let path rest := match rest with
            | c :: path => (c =? ch "/")%N && (1 <=? length path)%nat && (length path <=? 1024)%nat && negb (existsb is_space path)
            | [] => false
            end in
          match rest with
          | c :: after =>
              if (c =? ch ":")%N then
                let digit d := bool_decide (is_Some (py_decimal d)) in
                let digits := length (take_chars digit after) in
                if (1 <=? digits)%nat && (digits <=? 5)%nat then path (drop digits after) else false
              else path rest
          | [] => false
          end
      end
  end.

Definition parse_source (value : Value) : Checked Source :=
  let bad := Err (geodata ("source.kind must be one of " +:+ join ", " SOURCE_KINDS) "geodata_invalid") in
  match get "kind" value ≫= as_str with
  | None => bad
  | Some k =>
      if negb (mem_str k SOURCE_KINDS) || negb (is_object value) then bad
      else if negb (k =?s "custom") then Ok (source_of k) else
      let one name :=
        match strip <$> (get (name +:+ "_url") value ≫= as_str) with
        | Some url => if is_https_url url then Ok url else Err (geodata (name +:+ "_url must be an https URL") "geodata_invalid")
        | None => Err (geodata (name +:+ "_url must be an https URL") "geodata_invalid")
        end in
      site ← one "geosite"; ip ← one "geoip";
      Ok {| kind := "custom"; geosite_url := Some site; geoip_url := Some ip |}
  end.

Definition parse_hour (value : Value) : Checked Value :=
  if is_null value then Ok Null else
  match strict_int value with
  | Some hour => if ((0 <=? hour) && (hour <=? 23))%Z then Ok value else Err (geodata "update_hour must be 0..23 (UTC) or null" "geodata_invalid")
  | None => Err (geodata "update_hour must be 0..23 (UTC) or null" "geodata_invalid")
  end.
Definition parse_interval (value : Value) : Checked Value :=
  let bad := Err (geodata ("interval_hours must be " +:+ fmt_Z MIN_INTERVAL_HOURS +:+ ".." +:+ fmt_Z MAX_INTERVAL_HOURS) "geodata_invalid") in
  match strict_int value with
  | Some hours => if ((MIN_INTERVAL_HOURS <=? hours) && (hours <=? MAX_INTERVAL_HOURS))%Z then Ok value else bad
  | None => bad
  end.

(** ** The codes of a file *)

Local Open Scope N_scope.

Abbreviation GR := (result (option RouterError)).
Definition corrupt {A} (message : string) : GR A := Err (Some (geodata message "geodata_corrupt")).
Definition USIZE_MAX : N := 2 ^ 64 - 1.
Definition slen (data : string) : N := N.of_nat (String.length data).

(** [data.get(pos)]. *)
Definition byte_at (data : string) (pos : N) : option N :=
  if pos <? slen data then Ascii.N_of_ascii <$> String.get (N.to_nat pos) data else None.

(** The loop of [varint]: [turns] turns are left, after which [shift] is past 63. *)
Fixpoint varint_from (turns : nat) (data : string) (pos result shift : N) : GR (N * N) :=
  match turns with
  | O => corrupt "malformed geodata file"
  | S turns =>
      match byte_at data pos with
      | None => corrupt "truncated geodata file"
      | Some b =>
          let result := N.lor result (N.shiftl (N.land b 0x7f) shift) in
          if N.land b 0x80 =? 0 then Ok (result, pos + 1)
          else if 63 <? shift + 7 then corrupt "malformed geodata file"
          else varint_from turns data (pos + 1) result (shift + 7)
      end
  end.
Definition varint (data : string) (pos : N) : GR (N * N) := varint_from 10 data pos 0 0.

(** [usize] arithmetic that stops at the largest one. *)
Definition advance (pos by_ : N) : N := if (by_ <=? USIZE_MAX) && (pos + by_ <=? USIZE_MAX) then pos + by_ else USIZE_MAX.

Definition skip (data : string) (pos wire_type : N) : GR N :=
  if wire_type =? 0 then '(_, pos) ← varint data pos; Ok pos
  else if wire_type =? 1 then Ok (advance pos 8)
  else if wire_type =? 2 then '(length, pos) ← varint data pos; Ok (advance pos length)
  else if wire_type =? 5 then Ok (advance pos 4)
  else corrupt "malformed geodata file".

(** [&data[start.min(data.len())..end.min(data.len())]]. *)
Definition slice (data : string) (start end_ : N) : GR string :=
  let start := N.min start (slen data) in let end_ := N.min end_ (slen data) in
  if end_ <? start then Err None else Ok (String.substring (N.to_nat start) (N.to_nat (end_ - start)) data).

Definition is_cont (low high : N) (a : Ascii.ascii) : bool := (low <=? Ascii.N_of_ascii a) && (Ascii.N_of_ascii a <=? high).
Definition REPLACEMENT : string := encode_char 0xFFFD.
(** [String::from_utf8_lossy]: every maximal broken piece is the replacement character. *)
Fixpoint lossy (s : string) : string :=
  match s with
  | EmptyString => EmptyString
  | String a s1 =>
      let b := Ascii.N_of_ascii a in
      if b <? 0x80 then String a (lossy s1)
      else if (b <? 0xC2) || (0xF4 <? b) then REPLACEMENT +:+ lossy s1
      else match s1 with
      | EmptyString => REPLACEMENT
      | String a1 s2 =>
          let low := if b =? 0xE0 then 0xA0 else if b =? 0xF0 then 0x90 else 0x80 in
          let high := if b =? 0xED then 0x9F else if b =? 0xF4 then 0x8F else 0xBF in
          if negb (is_cont low high a1) then REPLACEMENT +:+ lossy s1
          else if b <? 0xE0 then String a (String a1 (lossy s2))
          else match s2 with
          | EmptyString => REPLACEMENT
          | String a2 s3 =>
              if negb (is_cont 0x80 0xBF a2) then REPLACEMENT +:+ lossy s2
              else if b <? 0xF0 then String a (String a1 (String a2 (lossy s3)))
              else match s3 with
              | EmptyString => REPLACEMENT
              | String a3 s4 =>
                  if negb (is_cont 0x80 0xBF a3) then REPLACEMENT +:+ lossy s3
                  else String a (String a1 (String a2 (String a3 (lossy s4))))
              end
          end
      end
  end.

Section codes.
Context {UT : UnicodeText}.

Definition is_entry (key : N) : bool := (N.shiftr key 3 =? 1) && (N.land key 7 =? 2).

(** The fields of an entry: its [country_code]s join the set. [None] out of fuel as well. *)
Fixpoint entry_codes (fuel : nat) (entry : string) (pos : N) (codes : bmap unit) : GR (bmap unit) :=
  match fuel with
  | O => Err None
  | S fuel =>
      if negb (pos <? slen entry) then Ok codes else
      '(key, pos) ← varint entry pos;
      if is_entry key then
        '(size, next) ← varint entry pos;
        let end_ := advance next size in
        code ← slice entry next end_;
        entry_codes fuel entry end_ (bset (to_lowercase (lossy code)) tt codes)
      else
        pos ← skip entry pos (N.land key 7);
        entry_codes fuel entry pos codes
  end.

Fixpoint list_codes (fuel : nat) (data : string) (pos : N) (codes : bmap unit) : GR (bmap unit) :=
  match fuel with
  | O => Err None
  | S fuel =>
      if negb (pos <? slen data) then Ok codes else
      '(key, pos) ← varint data pos;
      if negb (is_entry key) then
        pos ← skip data pos (N.land key 7);
        list_codes fuel data pos codes
      else
        '(length, next) ← varint data pos;
        let end_ := advance next length in
        entry ← slice data next end_;
        codes ← entry_codes (S (String.length entry)) entry 0 codes;
        list_codes fuel data end_ codes
  end.

Definition parse_codes (data : string) : GR (list string) :=
  codes ← list_codes (S (String.length data)) data 0 [];
  match codes with [] => corrupt "no entries in geodata file" | _ => Ok (bkeys codes) end.
End codes.

(** ** The download *)

(** [s.find(pattern)] with the text before and after it. *)
Fixpoint cut (pattern s : string) : option (string * string) :=
  if String.prefix pattern s then Some (EmptyString, drop_s (String.length pattern) s)
  else match s with
       | EmptyString => None
       | String a s' => '(x, y) ← cut pattern s'; Some (String a x, y)
       end.

(** [/releases/download/([^/]+)/]: from every place the mark is found at, the text up to the next slash. *)
Fixpoint release_tag (url : string) : option string :=
  match url with
  | EmptyString => None
  | String _ rest =>
      let here := if String.prefix "/releases/download/" url then cut "/" (drop_s 19 url) else None in
      match here with
      | Some (String a tag, _) => Some (String a tag)
      | _ => release_tag rest
      end
  end.

(** [https.rs]. *)
Record Url := { scheme : string; host : string; port : N; authority : string; target : string }.
Definition url_end (a : Ascii.ascii) : bool := Ascii.eqb a "/"%char || Ascii.eqb a "?"%char || Ascii.eqb a "#"%char.
Definition ascii_host (authority : string) : option (string * option string) :=
  match strip_prefix "[" authority with
  | Some bracketed => '(host, after) ← cut "]" bracketed; Some (host, strip_prefix ":" after)
  | None =>
      Some match rsplit_byte ":"%char authority with Some (host, port) => (host, Some port) | None => (authority, None) end
  end.
Definition parse_port (default_port : N) (port : option string) : option N :=
  match port with
  | None | Some EmptyString => Some default_port
  | Some port => Z.to_N <$> parse_int 0 65535 port
  end.
Definition parse_url (url : string) : option Url :=
  '(scheme, rest) ← cut "://" url;
  let scheme := ascii_lower scheme in
  default_port ← (if scheme =?s "https" then Some 443 else if scheme =?s "http" then Some 80 else None);
  let '(netloc, rest) := span_s (fun a => negb (url_end a)) rest in
  let target := (span_s (fun a => negb (Ascii.eqb a "#"%char)) rest).1 in
  let target := if String.prefix "/" target then target else "/" +:+ target in
  let authority := match rsplit_byte "@"%char netloc with Some (_, host) => host | None => netloc end in
  '(host, port) ← ascii_host authority;
  port ← parse_port default_port port;
  if str_empty host then None else Some {| scheme := scheme; host := host; port := port; authority := authority; target := target |}.

(** [urljoin(base, location)]. *)
Definition join_url (base : Url) (location : string) : string :=
  match cut "://" location with
  | Some _ => location
  | None =>
      match strip_prefix "//" location with
      | Some rest => scheme base +:+ "://" +:+ rest
      | None =>
          let origin := scheme base +:+ "://" +:+ authority base in
          if String.prefix "/" location then origin +:+ location else
          let path := (span_s (fun a => negb (Ascii.eqb a "?"%char)) (target base)).1 in
          let directory := match rsplit_byte "/"%char path with Some (directory, _) => directory +:+ "/" | None => EmptyString end in
          origin +:+ directory +:+ location
      end
  end.

Record Response := { status : N; reason : string; headers : list (string * string); body : string }.
Definition header (r : Response) (name : string) : option string :=
  snd <$> List.find (fun e => ascii_lower e.1 =?s ascii_lower name) (headers r).
Inductive FetchFailure := Open (reason : string) | Read (text : string).

Section fetch.
Context {S : Type} (send : Url -> S -> result FetchFailure Response * S).

Abbreviation FM := (Eff (option RouterError) S).

Definition fetch_failed (text : string) : option RouterError := Some (geodata (head_chars ("fetch failed: " +:+ text) 300) "geodata_fetch_failed").
Definition is_redirect (status : N) : bool := existsb (N.eqb status) [301; 302; 303; 307; 308].
Definition loop_text (status : N) (reason : string) : string :=
  "HTTP Error " +:+ fmt_N status +:+ ": The HTTP server returned a redirect error that would lead to an infinite loop." +:+ nl
  +:+ "The last 30x error message was:" +:+ nl +:+ reason.

(** What [send] answers, its failures in the words of the download. *)
Definition request (parsed : Url) : FM Response := fun s =>
  let '(answer, s) := send parsed s in
  (match answer with
   | Err (Open reason) => Err (fetch_failed ("<urlopen error " +:+ reason +:+ ">"))
   | Err (Read text) => Err (fetch_failed text)
   | Ok response => Ok response
   end, s).
Definition location_of (response : Response) : option string :=
  match header response "location" with Some l => Some l | None => header response "uri" end.

(** The loop, with the hops so far and how often each target was visited: the body, the URL it came from, the hops.
    The error [None] is out of fuel. *)
Fixpoint follow (fuel : nat) (current : string) (hops : list string) (visited : imap nat) : FM (string * string * list string) :=
  match fuel with
  | O => raise None
  | Datatypes.S fuel =>
      match parse_url current with
      | None => raise (fetch_failed ("<urlopen error unknown url type: " +:+ current +:+ ">"))
      | Some parsed =>
          response ← request parsed;
          if is_redirect (status response) then
            match location_of response with
            | None => raise (fetch_failed ("HTTP Error " +:+ fmt_N (status response) +:+ ": " +:+ reason response))
            | Some location =>
                let next := join_url parsed location in
                let hops := hops ++ [next] in
                if negb (String.prefix "https://" next) then raise (Some (geodata "redirected off https" "geodata_fetch_failed")) else
                let visits := default O (bget next visited) in
                if (10 <=? length visited)%nat || (4 <=? visits)%nat then raise (fetch_failed (loop_text (status response) (reason response)))
                else follow fuel next hops (iset next (Datatypes.S visits) visited)
            end
          else if (200 <=? status response) && (status response <? 300) then mret (body response, current, hops)
          else raise (fetch_failed ("HTTP Error " +:+ fmt_N (status response) +:+ ": " +:+ reason response))
      end
  end.

(** At most this many requests are sent for a URL. *)
Definition MAX_REQUESTS : nat := 38.

Definition fetch_via (url : string) (max_bytes : N) : FM (string * string) :=
  if negb (is_https_url url) then raise (Some (geodata "only https URLs are fetched" "geodata_invalid")) else
  got ← follow MAX_REQUESTS url [] [];
  let '(data, current, hops) := got in
  if max_bytes <? slen data then raise (Some (geodata "file larger than the limit" "geodata_too_large"))
  else if str_empty data then raise (Some (geodata "empty file" "geodata_fetch_failed"))
  else mret (data, default current (List.find (fun hop => bool_decide (is_Some (release_tag hop))) hops)).
End fetch.

(** ** A pair of files *)

Record Downloaded := { data : string; file_sha256 : string; verified : bool; file_codes : list string; version : option string; url : string }.

Section pair.
Context {UT : UnicodeText}.

Definition hexdigit_char (c : char) : bool := (c <? 128) && is_hexdigit (byte c).
(** The first run of 64 hexadecimal digits that stands as a word; [before] is the character before. *)
Fixpoint digest_in (before : option char) (l : list char) : option string :=
  match l with
  | [] => None
  | c :: rest =>
      let candidate := take 64 l in
      let after := drop 64 l in
      if match before with Some b => is_word_char b | None => false end then digest_in (Some c) rest
      else if negb ((length candidate =? 64)%nat && forallb hexdigit_char candidate) then digest_in (Some c) rest
      else if match after with d :: _ => is_word_char d | [] => false end then digest_in (Some c) rest
      else Some (to_lowercase (of_chars candidate))
  end.
Definition published_digest (text : string) : option string := digest_in None (chars text).

Context {SHA : Sha256} {S : Type} (fetcher : string -> N -> Eff (option RouterError) S (string * string)).
Abbreviation FM := (Eff (option RouterError) S).

(** The sidecar's digest; a sidecar that does not answer is no error. *)
Definition sidecar (url : string) : FM (option string) := fun s =>
  match fetcher (url +:+ ".sha256sum") 4096 s with
  | (Ok (text, _), s) => (Ok (published_digest (lossy text)), s)
  | (Err (Some (Geodata _ _)), s) => (Ok None, s)
  | (Err e, s) => (Err e, s)
  end.
Definition named_error (name : string) (e : option RouterError) : option RouterError :=
  match e with Some e => Some (geodata (name +:+ ".dat: " +:+ error_text e) (default EmptyString (error_code e))) | None => None end.
Definition download_one (urls : Urls) (name : string) : FM (string * Downloaded) :=
  let u := urls_get urls name in
  got ← fetcher u MAX_FILE_BYTES;
  let digest := sha256_hex got.1 in
  published ← sidecar u;
  if match published with Some p => negb (p =?s digest) | None => false end
  then raise (Some (geodata (name +:+ ".dat does not match its published sha256") "geodata_digest_mismatch")) else
  codes ← lift (map_err (named_error name) (parse_codes got.1));
  mret (name, {| data := got.1; file_sha256 := digest; verified := bool_decide (is_Some published); file_codes := codes;
                 version := release_tag got.2; url := got.2 |}).
Definition download_pair (urls : Urls) : FM (list (string * Downloaded)) := collect (download_one urls) FILES.
End pair.
