(* ===== verification/GeodataFacts.v ===== *)
(** * The lists are read as they are written, and fetched over HTTPS only

    Of [Geodata]: no reader leaves its text or loops; a protobuf list gives the codes it carries; a download sends a
    bounded number of requests, to https URLs only. *)

From S2P Require Import Prelude BTree Utf8 Numeric Json PyText IndexMap Plan Effect JsonFacts RouterIntent Geodata TextFacts.
Local Open Scope N_scope.

(** ** Texts by position *)

Lemma slen_app a b : slen (a +:+ b) = slen a + slen b.
Proof. unfold slen. rewrite length_app_s. lia. Qed.
Lemma slen_cons a s : slen (String a s) = slen s + 1.
Proof. unfold slen. simpl String.length. lia. Qed.

Lemma byte_at_app pre a post : byte_at (pre +:+ String a post) (slen pre) = Some (Ascii.N_of_ascii a).
Proof.
  unfold byte_at. rewrite slen_app, slen_cons. assert ((slen pre <? slen pre + (slen post + 1)) = true) as -> by lia.
  unfold slen. rewrite Nat2N.id. clear. induction pre as [|c pre IH]; [done|]. rewrite app_cons_s. exact IH.
Qed.
Lemma byte_at_bound data pos b : byte_at data pos = Some b -> pos < slen data.
Proof. unfold byte_at. destruct (pos <? slen data) eqn:Hp; [lia|done]. Qed.

Lemma substring_all s post : String.substring 0 (String.length s) (s +:+ post) = s.
Proof. induction s as [|c s IH]; [by destruct post|]. rewrite app_cons_s. cbn [String.length String.substring]. by rewrite IH. Qed.
Lemma substring_app pre s post : String.substring (String.length pre) (String.length s) (pre +:+ s +:+ post) = s.
Proof. induction pre as [|c pre IH]; [rewrite app_nil_s; apply substring_all|]. rewrite app_cons_s. exact IH. Qed.
Lemma slice_app pre s post : slice (pre +:+ s +:+ post) (slen pre) (slen pre + slen s) = Ok s.
Proof.
  unfold slice. rewrite !slen_app, !N.min_l by lia. assert ((slen pre + slen s <? slen pre) = false) as -> by lia.
  replace (slen pre + slen s - slen pre) with (slen s) by lia. unfold slen. by rewrite !Nat2N.id, substring_app.
Qed.

(** ** Readers stay inside their text *)

Lemma varint_from_bound turns data : forall pos result shift, match varint_from turns data pos result shift with
  | Ok (_, next) => pos < next /\ next <= slen data
  | Err e => e <> None
  end.
Proof.
  induction turns as [|turns IH]; intros pos result shift; cbn [varint_from]; [done|]. destruct (byte_at data pos) as [b|] eqn:Hb; [|done].
  apply byte_at_bound in Hb. destruct (_ =? 0); [lia|]. destruct (63 <? _); [done|].
  specialize (IH (pos + 1) (N.lor result (N.shiftl (N.land b 0x7f) shift)) (shift + 7)). destruct (varint_from _ _ _ _ _) as [[v next]|e]; [lia|done].
Qed.
Lemma varint_bound data pos : match varint data pos with Ok (_, next) => pos < next /\ next <= slen data | Err e => e <> None end.
Proof. apply varint_from_bound. Qed.
Lemma advance_ge pos by_ : pos <= USIZE_MAX -> pos <= advance pos by_ /\ advance pos by_ <= USIZE_MAX.
Proof. unfold advance. destruct (_ && _) eqn:Ha; lia. Qed.
Lemma skip_within data pos w : pos <= slen data -> slen data <= USIZE_MAX -> match skip data pos w with Ok next => pos <= next /\ next <= USIZE_MAX | Err e => e <> None end.
Proof.
  intros Hp Hd. unfold skip. pose proof (varint_bound data pos) as Hv. destruct (w =? 0).
  { destruct (varint data pos) as [[v next]|e]; [cbn; lia|done]. }
  destruct (w =? 1); [apply advance_ge; lia|]. destruct (w =? 2).
  - destruct (varint data pos) as [[v next]|e]; [|done]. cbn. pose proof (advance_ge next v ltac:(lia)). lia.
  - destruct (w =? 5); [apply advance_ge; lia|done].
Qed.
Lemma slice_bound data start end_ : start <= end_ -> exists s, slice data start end_ = Ok s.
Proof. intros Hs. unfold slice. assert ((N.min end_ (slen data) <? N.min start (slen data)) = false) as -> by lia. by eexists. Qed.
Lemma slice_length data start end_ s : slice data start end_ = Ok s -> slen s <= slen data.
Proof.
  unfold slice. destruct (_ <? _); [done|]. intros [= <-]. unfold slen.
  assert (Hl : forall n m t, (String.length (String.substring n m t) <= String.length t)%nat).
  { clear. intros n m t. revert n m. induction t as [|c t IH]; intros [|n] [|m]; simpl; try lia; [specialize (IH O m)|specialize (IH n O)|specialize (IH n (S m))]; lia. }
  specialize (Hl (N.to_nat (N.min start (N.of_nat (String.length data)))) (N.to_nat (N.min end_ (N.of_nat (String.length data)) - N.min start (N.of_nat (String.length data)))) data). lia.
Qed.

Section codes.
Context {UT : UnicodeText}.

(** A reader's error is never the panic, by the bound of the reader in the context. *)
Ltac refused :=
  solve [intros Heq; injection Heq as ->;
         match goal with H : match ?r with Ok _ => _ | Err _ => _ end |- _ => by apply H | H : None <> None |- _ => by apply H | H : ?e <> Err None |- _ => by apply H end].

Lemma entry_codes_total fuel entry : slen entry <= USIZE_MAX -> forall pos codes, (1 <= fuel)%nat -> slen entry < N.of_nat fuel + pos ->
  entry_codes fuel entry pos codes <> Err None.
Proof.
  intros He. induction fuel as [|fuel IH]; intros pos codes Hf Hp; [lia|]. cbn [entry_codes]. destruct (pos <? slen entry) eqn:Hlt; [|done]. cbn [negb].
  pose proof (varint_bound entry pos) as Hv. destruct (varint entry pos) as [[key next]|e]; cbn [mbind result_bind]; [|refused]. destruct (is_entry key).
  - pose proof (varint_bound entry next) as Hv2. destruct (varint entry next) as [[size next2]|e]; cbn [mbind result_bind]; [|refused].
    pose proof (advance_ge next2 size ltac:(lia)) as Ha. destruct (slice_bound entry next2 (advance next2 size) ltac:(lia)) as [code ->]. cbn.
    apply IH; lia.
  - pose proof (skip_within entry next (N.land key 7) ltac:(lia) He) as Hs. destruct (skip entry next (N.land key 7)) as [next2|e]; cbn [mbind result_bind]; [|refused].
    apply IH; lia.
Qed.
Lemma list_codes_total fuel data : slen data <= USIZE_MAX -> forall pos codes, (1 <= fuel)%nat -> slen data < N.of_nat fuel + pos ->
  list_codes fuel data pos codes <> Err None.
Proof.
  intros He. induction fuel as [|fuel IH]; intros pos codes Hf Hp; [lia|]. cbn [list_codes]. destruct (pos <? slen data) eqn:Hlt; [|done]. cbn [negb].
  pose proof (varint_bound data pos) as Hv. destruct (varint data pos) as [[key next]|e]; cbn [mbind result_bind]; [|refused]. destruct (is_entry key); cbn [negb].
  - pose proof (varint_bound data next) as Hv2. destruct (varint data next) as [[size next2]|e]; cbn [mbind result_bind]; [|refused].
    pose proof (advance_ge next2 size ltac:(lia)) as Ha. destruct (slice_bound data next2 (advance next2 size) ltac:(lia)) as [entry Hentry].
    pose proof (slice_length _ _ _ _ Hentry) as Hl. rewrite Hentry. cbn [mbind result_bind].
    pose proof (entry_codes_total (S (String.length entry)) entry ltac:(lia) 0 codes ltac:(lia) ltac:(unfold slen; lia)) as Hc.
    destruct (entry_codes (S (String.length entry)) entry 0 codes) as [codes'|e]; cbn [mbind result_bind]; [|refused]. apply IH; lia.
  - pose proof (skip_within data next (N.land key 7) ltac:(lia) He) as Hs. destruct (skip data next (N.land key 7)) as [next2|e]; cbn [mbind result_bind]; [|refused].
    apply IH; lia.
Qed.
End codes.

(** ** The protobuf encoding *)

(** A [uint64] in groups of seven bits, [k] of them at most. *)
Fixpoint uvarint (k : nat) (n : N) : string :=
  match k with
  | O => EmptyString
  | S k => if n <? 128 then String (byte n) EmptyString else String (byte (n mod 128 + 128)) (uvarint k (n / 128))
  end.
Definition encode_varint (n : N) : string := uvarint 10 n.

Inductive Payload := PVarint (n : N) | PFixed64 (bytes : string) | PBytes (bytes : string) | PFixed32 (bytes : string).
Record Field := { number : N; payload : Payload }.
Definition wire_type (p : Payload) : N := match p with PVarint _ => 0 | PFixed64 _ => 1 | PBytes _ => 2 | PFixed32 _ => 5 end.
Definition encode_payload (p : Payload) : string :=
  match p with
  | PVarint n => encode_varint n
  | PFixed64 b | PFixed32 b => b
  | PBytes b => encode_varint (slen b) +:+ b
  end.
Definition encode_field (f : Field) : string := encode_varint (number f * 8 + wire_type (payload f)) +:+ encode_payload (payload f).
Definition encode_fields (l : list Field) : string := join EmptyString (map encode_field l).

Definition payload_ok (p : Payload) : Prop :=
  match p with PVarint n => n < 2 ^ 64 | PFixed64 b => slen b = 8 | PBytes _ => True | PFixed32 b => slen b = 4 end.
Definition field_ok (f : Field) : Prop := number f < 2 ^ 29 /\ payload_ok (payload f).

(** *** Reading one number *)

Lemma varint_step r v shift : r < 2 ^ shift -> N.lor r (N.shiftl v shift) = r + v * 2 ^ shift.
Proof.
  intros Hr. rewrite N.lor_comm, N.shiftl_mul_pow2. rewrite (lor_low _ _ shift); [lia|done|]. apply N.Div0.mod_mul.
Qed.
Definition low_bits_ok (v : N) : bool := (N.land v 0x7f =? v) && (N.land v 0x80 =? 0) && (N.land (v + 128) 0x7f =? v) && (N.land (v + 128) 0x80 =? 128).
Lemma low_bits v : v < 128 -> N.land v 0x7f = v /\ N.land v 0x80 = 0 /\ N.land (v + 128) 0x7f = v /\ N.land (v + 128) 0x80 = 128.
Proof.
  intros Hv. pose proof (all_below_spec 128 low_bits_ok ltac:(vm_compute; reflexivity) v Hv) as Ho. unfold low_bits_ok in Ho.
  rewrite !andb_true_iff, !N.eqb_eq in Ho. tauto.
Qed.

Lemma varint_read k : forall turns pre n post r shift, n < 128 ^ N.of_nat k -> (1 <= k <= turns)%nat -> r < 2 ^ shift -> shift + 7 * (N.of_nat k - 1) <= 63 ->
  varint_from turns (pre +:+ uvarint k n +:+ post) (slen pre) r shift = Ok (r + n * 2 ^ shift, slen pre + slen (uvarint k n)).
Proof.
  induction k as [|k IH]; intros turns pre n post r shift Hn Hk Hr Hs; [lia|]. destruct turns as [|turns]; [lia|]. cbn [uvarint].
  destruct (n <? 128) eqn:Hlt.
  - rewrite app_cons_s, app_nil_s. cbn [varint_from]. rewrite byte_at_app, N_byte by lia. cbv zeta.
    destruct (low_bits n ltac:(lia)) as (-> & -> & _). rewrite varint_step by done. cbn. do 2 f_equal.
  - rewrite app_cons_s. cbn [varint_from]. pose proof (N.mod_lt n 128 ltac:(lia)) as Hm. pose proof (N.div_mod n 128 ltac:(lia)) as Hdm.
    rewrite byte_at_app, N_byte by lia. cbv zeta. destruct (low_bits (n mod 128) Hm) as (_ & _ & -> & ->). rewrite varint_step by done.
    change (128 =? 0) with false. cbv iota. destruct k as [|k].
    { change (128 ^ N.of_nat 1) with 128 in Hn. lia. }
    assert ((63 <? shift + 7) = false) as -> by lia. rewrite slen_cons.
    replace (slen pre + 1) with (slen (pre +:+ String (byte (n mod 128 + 128)) EmptyString)) by (rewrite slen_app; reflexivity).
    replace (pre +:+ String (byte (n mod 128 + 128)) (uvarint (S k) (n / 128) +:+ post))
      with ((pre +:+ String (byte (n mod 128 + 128)) EmptyString) +:+ uvarint (S k) (n / 128) +:+ post) by (by rewrite app_assoc_s, app_cons_s, app_nil_s).
    rewrite IH; [|..].
    + rewrite N.pow_add_r. change (2 ^ 7) with 128. rewrite slen_app. f_equal. f_equal; [nia|]. change (slen (String _ EmptyString)) with 1. lia.
    + apply N.Div0.div_lt_upper_bound. rewrite <-N.pow_succ_r'. replace (N.succ (N.of_nat (S k))) with (N.of_nat (S (S k))) by lia. done.
    + lia.
    + rewrite N.pow_add_r. change (2 ^ 7) with 128. nia.
    + lia.
Qed.

Lemma encode_varint_read pre n post : n < 2 ^ 64 ->
  varint (pre +:+ encode_varint n +:+ post) (slen pre) = Ok (n, slen pre + slen (encode_varint n)).
Proof.
  intros Hn. unfold varint, encode_varint. rewrite (varint_read 10); [by rewrite N.mul_1_r| |lia|lia|lia]. change (128 ^ N.of_nat 10) with (2 ^ 70). lia.
Qed.

(** *** Reading one field *)

Lemma key_parts n w : w < 8 -> N.shiftr (n * 8 + w) 3 = n /\ N.land (n * 8 + w) 7 = w.
Proof.
  intros Hw. rewrite N.shiftr_div_pow2. change 7 with (N.ones 3). rewrite N.land_ones. change (2 ^ 3) with 8. split.
  - rewrite N.div_add_l by lia. rewrite N.div_small by done. lia.
  - rewrite N.add_comm, N.Div0.mod_add. by apply N.mod_small.
Qed.
Lemma wire_small p : wire_type p < 8.
Proof. by destruct p. Qed.
Lemma key_small f : field_ok f -> number f * 8 + wire_type (payload f) < 2 ^ 64.
Proof. intros [Hn _]. pose proof (wire_small (payload f)). lia. Qed.

Lemma advance_exact pos by_ : pos + by_ <= USIZE_MAX -> advance pos by_ = pos + by_.
Proof. intros Hp. unfold advance. by assert ((by_ <=? USIZE_MAX) && (pos + by_ <=? USIZE_MAX) = true) as -> by lia. Qed.

Lemma skip_payload pre p post : payload_ok p -> slen (pre +:+ encode_payload p +:+ post) <= USIZE_MAX ->
  skip (pre +:+ encode_payload p +:+ post) (slen pre) (wire_type p) = Ok (slen pre + slen (encode_payload p)).
Proof.
  rewrite !slen_app. destruct p as [n|b|b|b]; cbn [payload_ok wire_type encode_payload]; intros Hp Hl; unfold skip.
  - change (0 =? 0) with true. cbv iota. by rewrite encode_varint_read.
  - change (1 =? 0) with false. change (1 =? 1) with true. cbv iota. rewrite Hp in *. by rewrite advance_exact by lia.
  - change (2 =? 0) with false. change (2 =? 1) with false. change (2 =? 2) with true. cbv iota. rewrite ?slen_app in Hl. rewrite slen_app.
    assert (Hb : slen b < 2 ^ 64) by (apply (N.le_lt_trans _ USIZE_MAX); [lia|reflexivity]). rewrite app_assoc_s, encode_varint_read by done. cbn [mbind result_bind]. rewrite advance_exact by lia. f_equal. lia.
  - change (5 =? 0) with false. change (5 =? 1) with false. change (5 =? 2) with false. change (5 =? 5) with true. cbv iota. rewrite Hp in *. by rewrite advance_exact by lia.
Qed.

Lemma encode_varint_cons n : exists a s, encode_varint n = String a s.
Proof. unfold encode_varint. cbn [uvarint]. destruct (n <? 128); by eexists _, _. Qed.
Lemma encode_field_pos f : 1 <= slen (encode_field f).
Proof. unfold encode_field. destruct (encode_varint_cons (number f * 8 + wire_type (payload f))) as (a & s & ->). rewrite slen_app, slen_cons. lia. Qed.

(** What a reader does at a field: the key, then the payload at its place. *)
Lemma read_key pre f post : field_ok f -> let key := encode_varint (number f * 8 + wire_type (payload f)) in
  pre +:+ encode_field f +:+ post = (pre +:+ key) +:+ encode_payload (payload f) +:+ post
  /\ varint (pre +:+ encode_field f +:+ post) (slen pre) = Ok (number f * 8 + wire_type (payload f), slen (pre +:+ key)).
Proof.
  intros Hf key. split; [unfold encode_field; by rewrite !app_assoc_s|]. unfold encode_field. rewrite app_assoc_s, encode_varint_read by (by apply key_small).
  by rewrite slen_app.
Qed.
Lemma is_entry_key f : is_entry (number f * 8 + wire_type (payload f)) = true <-> number f = 1 /\ exists b, payload f = PBytes b.
Proof.
  unfold is_entry. destruct (key_parts (number f) (wire_type (payload f)) (wire_small _)) as [-> ->]. rewrite andb_true_iff, !N.eqb_eq.
  destruct (payload f) as [n|b|b|b]; cbn; split; intros [H1 H2]; try done; try (by destruct H2). split; [done|by exists b].
Qed.

(** A reader past the key of a field of bytes: its length, its bytes, and where it ends. *)
Lemma read_bytes pre f b post : field_ok f -> payload f = PBytes b -> slen (pre +:+ encode_field f +:+ post) <= USIZE_MAX ->
  let next := slen (pre +:+ encode_varint (number f * 8 + wire_type (payload f))) in
  exists body, varint (pre +:+ encode_field f +:+ post) next = Ok (slen b, body)
    /\ advance body (slen b) = slen (pre +:+ encode_field f)
    /\ slice (pre +:+ encode_field f +:+ post) body (slen (pre +:+ encode_field f)) = Ok b.
Proof.
  intros Hf Hb Hl. destruct (read_key pre f post Hf) as [Hsplit _]. cbv zeta in *. set (key := encode_varint _) in *.
  assert (Hlen : slen (pre +:+ encode_field f) = slen (pre +:+ key) + slen (encode_varint (slen b)) + slen b).
  { unfold encode_field. fold key. rewrite Hb. cbn [encode_payload]. rewrite !slen_app. lia. }
  assert (Hmax : slen (pre +:+ encode_field f) + slen post <= USIZE_MAX) by (rewrite <-slen_app, app_assoc_s; exact Hl).
  assert (Hb64 : slen b < 2 ^ 64) by (apply (N.le_lt_trans _ USIZE_MAX); [lia|reflexivity]).
  exists (slen (pre +:+ key) + slen (encode_varint (slen b))). rewrite Hsplit, Hb. cbn [encode_payload]. split_and!.
  - rewrite (app_assoc_s (encode_varint (slen b)) b post). by apply encode_varint_read.
  - rewrite advance_exact by lia. lia.
  - rewrite Hlen, <-slen_app. rewrite (app_assoc_s (encode_varint (slen b)) b post), <-(app_assoc_s (pre +:+ key)). apply slice_app.
Qed.

Section reads.
Context {UT : UnicodeText}.

(** The code a field of an entry carries. *)
Definition field_code (f : Field) : option string :=
  match payload f with PBytes b => if number f =? 1 then Some (to_lowercase (lossy b)) else None | _ => None end.
Definition add_code (codes : bmap unit) (c : string) : bmap unit := bset c tt codes.
Definition add_codes (codes : bmap unit) (l : list string) : bmap unit := fold_left add_code l codes.

Lemma skip_field pre f post : field_ok f -> slen (pre +:+ encode_field f +:+ post) <= USIZE_MAX ->
  skip (pre +:+ encode_field f +:+ post) (slen (pre +:+ encode_varint (number f * 8 + wire_type (payload f)))) (N.land (number f * 8 + wire_type (payload f)) 7)
  = Ok (slen (pre +:+ encode_field f)).
Proof.
  intros Hf Hl. destruct (read_key pre f post Hf) as [Hsplit _]. destruct (key_parts (number f) (wire_type (payload f)) (wire_small _)) as [_ ->].
  rewrite Hsplit in *. rewrite skip_payload; [|apply Hf|done]. f_equal. unfold encode_field. rewrite !slen_app. lia.
Qed.

Lemma entry_step fuel pre f post codes : field_ok f -> slen (pre +:+ encode_field f +:+ post) <= USIZE_MAX ->
  entry_codes (S fuel) (pre +:+ encode_field f +:+ post) (slen pre) codes
  = entry_codes fuel (pre +:+ encode_field f +:+ post) (slen (pre +:+ encode_field f)) (add_codes codes (option_list (field_code f))).
Proof.
  intros Hf Hl. destruct (read_key pre f post Hf) as [_ Hkey]. cbn [entry_codes].
  assert ((slen pre <? slen (pre +:+ encode_field f +:+ post)) = true) as -> by (pose proof (encode_field_pos f); rewrite !slen_app; lia).
  cbn [negb]. rewrite Hkey. cbn [mbind result_bind]. destruct (is_entry _) eqn:He.
  - apply is_entry_key in He as [H1 [b Hb]]. destruct (read_bytes pre f b post Hf Hb Hl) as (body & -> & Ha & Hs). cbn [mbind result_bind]. rewrite Ha, Hs.
    cbn [mbind result_bind]. unfold field_code. by rewrite Hb, H1.
  - rewrite skip_field by done. cbn [mbind result_bind]. assert (field_code f = None) as ->; [|done]. unfold field_code.
    destruct (payload f) as [n|b|b|b] eqn:Hp; try done. destruct (number f =? 1) eqn:H1; [|done]. apply N.eqb_eq in H1.
    assert (Ht : is_entry (number f * 8 + wire_type (payload f)) = true) by (apply is_entry_key; rewrite Hp; split; [done|by exists b]).
    rewrite Hp in Ht. congruence.
Qed.

Lemma add_codes_app codes l k : add_codes codes (l ++ k) = add_codes (add_codes codes l) k.
Proof. apply fold_left_app. Qed.

Lemma entry_reads l : Forall field_ok l -> forall fuel pre codes, (length l < fuel)%nat -> slen (pre +:+ encode_fields l) <= USIZE_MAX ->
  entry_codes fuel (pre +:+ encode_fields l) (slen pre) codes = Ok (add_codes codes (omap field_code l)).
Proof.
  induction 1 as [|f l Hf _ IH]; intros [|fuel] pre codes Hfuel Hl; try (simpl in Hfuel; lia).
  - cbn [entry_codes encode_fields map join]. rewrite app_nil_r_s. by assert ((slen pre <? slen pre) = false) as -> by lia.
  - unfold encode_fields in *. cbn [map] in *. rewrite join_nil_cons in *. rewrite entry_step by done.
    rewrite <-app_assoc_s. rewrite IH; [|simpl in Hfuel; lia|by rewrite app_assoc_s]. cbn [omap list_omap]. destruct (field_code f); done.
Qed.

(** *** A list *)

(** An element of a list: an entry, which is field 1, or another field. *)
Inductive Item := Entry (fields : list Field) | Other (f : Field).
Definition item_field (i : Item) : Field :=
  match i with Entry fields => {| number := 1; payload := PBytes (encode_fields fields) |} | Other f => f end.
Definition encode_list (l : list Item) : string := encode_fields (map item_field l).
Definition item_ok (i : Item) : Prop :=
  match i with Entry fields => Forall field_ok fields | Other f => field_ok f /\ is_entry (number f * 8 + wire_type (payload f)) = false end.
Definition item_codes (i : Item) : list string := match i with Entry fields => omap field_code fields | Other _ => [] end.

Lemma item_field_ok i : item_ok i -> field_ok (item_field i).
Proof. destruct i as [l|f]; [done|]. by intros [Hf _]. Qed.
Lemma fields_length l : (length l <= String.length (encode_fields l))%nat.
Proof.
  induction l as [|f l IH]; [done|]. unfold encode_fields in *. cbn [map]. rewrite join_nil_cons, length_app_s.
  pose proof (encode_field_pos f) as Hp. unfold slen in Hp. simpl length. lia.
Qed.
Lemma encoded_within pre l : slen (encode_fields l) <= slen (pre +:+ encode_fields l).
Proof. rewrite slen_app. lia. Qed.

Lemma item_step fuel pre i post codes : item_ok i -> slen (pre +:+ encode_field (item_field i) +:+ post) <= USIZE_MAX ->
  list_codes (S fuel) (pre +:+ encode_field (item_field i) +:+ post) (slen pre) codes
  = list_codes fuel (pre +:+ encode_field (item_field i) +:+ post) (slen (pre +:+ encode_field (item_field i))) (add_codes codes (item_codes i)).
Proof.
  intros Hi Hl. pose proof (item_field_ok i Hi) as Hf. destruct (read_key pre (item_field i) post Hf) as [_ Hkey]. cbn [list_codes].
  assert ((slen pre <? slen (pre +:+ encode_field (item_field i) +:+ post)) = true) as -> by (pose proof (encode_field_pos (item_field i)); rewrite !slen_app; lia).
  cbn [negb]. rewrite Hkey. cbn [mbind result_bind]. destruct i as [fields|f]; cbn [item_field item_codes] in *.
  - set (f := {| number := 1; payload := PBytes (encode_fields fields) |}) in *.
    assert (is_entry (number f * 8 + wire_type (payload f)) = true) as -> by (apply is_entry_key; split; [done|by eexists]). cbn [negb].
    destruct (read_bytes pre f (encode_fields fields) post Hf eq_refl Hl) as (body & -> & Ha & Hs). cbn [mbind result_bind]. rewrite Ha, Hs. cbn [mbind result_bind].
    pose proof (slice_length _ _ _ _ Hs) as Hlen. pose proof (fields_length fields) as Hn.
    pose proof (entry_reads fields Hi (S (String.length (encode_fields fields))) EmptyString codes ltac:(lia)) as Hr. rewrite app_nil_s in Hr.
    change (slen EmptyString) with 0 in Hr. rewrite Hr by lia. done.
  - destruct Hi as [_ Hi]. rewrite Hi. cbn [negb]. rewrite skip_field by done. done.
Qed.

Lemma list_reads l : Forall item_ok l -> forall fuel pre codes, (length l < fuel)%nat -> slen (pre +:+ encode_list l) <= USIZE_MAX ->
  list_codes fuel (pre +:+ encode_list l) (slen pre) codes = Ok (add_codes codes (concat (map item_codes l))).
Proof.
  induction 1 as [|i l Hi _ IH]; intros [|fuel] pre codes Hfuel Hl; try (simpl in Hfuel; lia).
  - cbn [list_codes encode_list encode_fields map join]. rewrite app_nil_r_s. by assert ((slen pre <? slen pre) = false) as -> by lia.
  - unfold encode_list, encode_fields in *. cbn [map] in *. rewrite join_nil_cons in *. rewrite item_step by done.
    rewrite <-app_assoc_s. rewrite IH; [|simpl in Hfuel; lia|by rewrite app_assoc_s]. cbn [concat]. by rewrite add_codes_app.
Qed.

Lemma add_codes_get c l m : bget c m = Some tt \/ c ∈ l -> bget c (add_codes m l) = Some tt.
Proof.
  revert m. induction l as [|d l IH]; intros m Hc; [destruct Hc as [Hc|Hc]; [done|by apply not_elem_of_nil in Hc]|].
  apply IH. unfold add_code. rewrite bget_bset. destruct (c =?s d) eqn:Hd; [by left|]. destruct Hc as [Hc|Hc]; [by left|].
  apply elem_of_cons in Hc as [->|Hc]; [by rewrite eqb_s_refl in Hd|by right].
Qed.
Lemma add_codes_collect l : add_codes [] l = bcollect (map (fun c => (c, tt)) l).
Proof.
  unfold add_codes, bcollect. generalize (@nil (string * unit)). induction l as [|c l IH]; intros m; [done|]. cbn [fold_left map]. apply IH.
Qed.

(** C36: The codes of a list are the ones it carries. Of every protobuf list, whatever other fields it and its entries
    have, the code field of every entry is read, lower-cased, and the answer is the sorted set of them; a list without
    a code is refused. *)
Theorem parse_codes_reads l (Hl : Forall item_ok l) (Hs : slen (encode_list l) <= USIZE_MAX) :
  parse_codes (encode_list l) =
    match concat (map item_codes l) with
    | [] => corrupt "no entries in geodata file"
    | codes => Ok (bkeys (bcollect (map (fun c => (c, tt)) codes)))
    end.
Proof.
  unfold parse_codes. pose proof (fields_length (map item_field l)) as Hn. rewrite length_map in Hn.
  pose proof (list_reads l Hl (S (String.length (encode_list l))) EmptyString [] ltac:(unfold encode_list; lia)) as Hr.
  rewrite app_nil_s in Hr. change (slen EmptyString) with 0 in Hr. rewrite Hr by done. cbn [mbind result_bind]. rewrite add_codes_collect.
  pose proof (fun c => add_codes_get c (concat (map item_codes l)) []) as Hg. rewrite add_codes_collect in Hg.
  destruct (concat (map item_codes l)) as [|c codes]; [done|]. destruct (bcollect _) as [|e m']; [|done].
  specialize (Hg c ltac:(right; by left)). done.
Qed.

(** No file is read past its end. Whatever the bytes, [parse_codes] answers, with codes or a refusal: every slice
    it takes lies inside the file, no position runs past the largest [usize], and every turn of its loops moves
    forward. *)
Theorem parse_codes_total data (Hd : slen data <= USIZE_MAX) : parse_codes data <> Err None.
Proof.
  unfold parse_codes. pose proof (list_codes_total (S (String.length data)) data Hd 0 [] ltac:(lia) ltac:(unfold slen; lia)) as Hc.
  destruct (list_codes _ _ _ _) as [[|e m]|e]; cbn; try done. congruence.
Qed.
End reads.

(** ** The download *)

(** A URL with the scheme written out is read with that scheme. *)
Lemma https_scheme url parsed : String.prefix "https://" url = true -> parse_url url = Some parsed -> scheme parsed = "https".
Proof.
  rewrite prefix_strip. destruct (strip_prefix "https://" url) as [rest|] eqn:Hs; [intros _|done]. apply strip_prefix_iff in Hs as ->.
  unfold parse_url. assert (Hc : cut "://" ("https://" +:+ rest) = Some ("https", rest)) by (by destruct rest).
  rewrite Hc. clear Hc.
  cbn [mbind option_bind]. change (ascii_lower "https") with "https". change ("https" =?s "https") with true. cbv beta iota zeta.
  destruct (span_s _ _) as [netloc tail]. intros Hu. apply bind_Some in Hu as (default_port & _ & Hu). apply bind_Some in Hu as ([h p] & _ & Hu). apply bind_Some in Hu as (q & _ & Hu).
  destruct (str_empty h); [done|]. by injection Hu as <-.
Qed.
Lemma https_url url : is_https_url url = true -> String.prefix "https://" url = true.
Proof. rewrite prefix_strip. unfold is_https_url. by destruct (strip_prefix "https://" url). Qed.

(** How often the targets were visited, all together; the loop's counters are within its limits. *)
Definition visits (v : imap nat) : nat := sum_list (map snd v).
Record visited_ok (v : imap nat) : Prop := {
  visited_distinct : iok v;
  visited_often : Forall (fun e => (e.2 <= 4)%nat) v;
  visited_few : (length v <= 10)%nat;
  visited_sum : (visits v <= 37)%nat;
}.

Lemma visits_iset k v : visits (iset k (S (default O (bget k v))) v) = S (visits v).
Proof.
  unfold visits. induction v as [|[q n] v IH]; [done|]. cbn [iset bget]. destruct (k =?s q) eqn:Hk; [done|].
  cbn [map snd sum_list sum_list_with foldr]. unfold sum_list in *. cbn. cbn in IH. lia.
Qed.
Lemma length_iset k n (v : imap nat) : (length (iset k n v) <= S (length v))%nat.
Proof. induction v as [|[q m] v IH]; cbn [iset length]; [lia|]. destruct (k =?s q); cbn [length]; lia. Qed.
Lemma visits_bound v : Forall (fun e => (e.2 <= 4)%nat) v -> (visits v <= 4 * length v)%nat.
Proof. unfold visits. induction 1 as [|e v He Hv IH]; [done|]. unfold sum_list in *. cbn in *. lia. Qed.

(** The turn of the loop that follows a redirect keeps the counters within the limits. *)
Lemma visited_next k v : visited_ok v -> (10 <=? length v)%nat || (4 <=? default O (bget k v))%nat = false -> visited_ok (iset k (S (default O (bget k v))) v).
Proof.
  intros [Hd Ho Hf Hs] [Hl%Nat.leb_gt Hk%Nat.leb_gt]%orb_false_iff. pose proof (visits_bound v Ho) as Hb.
  split; [by apply iok_iset| |pose proof (length_iset k (S (default O (bget k v))) v); lia|rewrite visits_iset; lia].
  rewrite list.Forall_forall in *. intros e [->|[He _]]%In_iset; [cbn; lia|by apply Ho|done].
Qed.
Lemma visited_none : visited_ok [].
Proof. split; [apply NoDup_nil_2|done|cbn; lia|unfold visits; cbn; lia]. Qed.

Section fetch.
Context {W : Type} (send : Url -> W -> result FetchFailure Response * W).

(** The sender, with a list of the URLs it was asked for. *)
Definition recording (u : Url) (s : list Url * W) : result FetchFailure Response * (list Url * W) :=
  let '(a, w) := send u s.2 in (a, (s.1 ++ [u], w)).

(** From a list of URLs asked for to another: at most so many more, each over HTTPS. *)
Definition asked (turns : nat) (s s' : list Url * W) : Prop :=
  exists new, s'.1 = s.1 ++ new /\ (length new <= turns)%nat /\ Forall (fun u => scheme u = "https") new.

Lemma asked_one turns u s s' : scheme u = "https" -> asked turns (recording u s).2 s' -> asked (S turns) s s'.
Proof.
  unfold recording. destruct (send u s.2) as [a w]. intros Hu (new & H1 & H2 & H3). cbn [snd fst] in H1.
  exists (u :: new). split; [by rewrite H1, <-app_assoc|]. split; [cbn; lia|by constructor].
Qed.
Lemma asked_none turns s : asked turns s s.
Proof. exists []. rewrite app_nil_r. split_and!; [done|cbn; lia|constructor]. Qed.

Lemma follow_bounded fuel : forall current hops visited s, String.prefix "https://" current = true -> visited_ok visited ->
  (fuel + visits visited = MAX_REQUESTS)%nat ->
  let '(answer, s') := follow recording fuel current hops visited s in asked fuel s s' /\ match answer with Err e => e <> None | Ok _ => True end.
Proof.
  induction fuel as [|fuel IH]; intros current hops visited s Hc Hv Hf; cbn [follow].
  - destruct Hv as [_ _ _ Hs]. unfold MAX_REQUESTS in Hf. lia.
  - destruct (parse_url current) as [parsed|] eqn:Hp; [|split; [apply asked_none|done]].
    pose proof (https_scheme _ _ Hc Hp) as Hscheme. unfold mbind, Eff_bind, request. pose proof (asked_one fuel parsed s) as Hone.
    destruct (recording parsed s) as [answer s1]. cbn [snd] in Hone. assert (Hstop : asked (S fuel) s s1) by (apply Hone; [done|apply asked_none]).
    destruct answer as [response|[reason|text]]; [|by split|by split].
    destruct (is_redirect _); [|by destruct (_ && _)]. destruct (location_of response) as [location|]; [|by split].
    cbv zeta. destruct (String.prefix "https://" (join_url parsed location)) eqn:Hnext; cbn [negb]; [|by split].
    destruct (_ || _)%bool eqn:Hlimit; [by split|].
    specialize (IH (join_url parsed location) (hops ++ [join_url parsed location]) _ s1 Hnext (visited_next _ _ Hv Hlimit)).
    rewrite visits_iset in IH. specialize (IH ltac:(lia)). destruct (follow _ _ _ _ _ _) as [a s2]. destruct IH as [Ha Hn].
    split; [by apply Hone|done].
Qed.

(** C37: A download is bounded and stays on HTTPS. Whatever the servers answer, a URL is fetched with at most 38 requests,
    each over HTTPS; the loop always ends by itself; and what is answered is not empty and not larger than was asked. *)
Theorem fetch_bounded url max_bytes w :
  let '(answer, (sent, _)) := fetch_via recording url max_bytes ([], w) in
  (length sent <= 38)%nat /\ Forall (fun u => scheme u = "https") sent
  /\ match answer with Ok (data, _) => data <> EmptyString /\ slen data <= max_bytes | Err e => e <> None end.
Proof.
  unfold fetch_via. destruct (is_https_url url) eqn:Hu; cbn [negb]; [|by split_and!; [cbn; lia|constructor|]].
  pose proof (follow_bounded MAX_REQUESTS url [] [] ([], w) (https_url _ Hu) visited_none eq_refl) as Hf.
  unfold mbind, Eff_bind. destruct (follow _ _ _ _ _ _) as [answer [sent w']]. destruct Hf as [(new & Hn & Hl & Hs) He]. cbn [fst app] in Hn. subst new.
  assert (Hl' : (length sent <= 38)%nat) by exact Hl. destruct answer as [[[data current] hops]|e]; [|by split_and!].
  destruct (max_bytes <? slen data) eqn:Hm; [by split_and!|]. destruct (str_empty data) eqn:Hd; [by split_and!|].
  split_and!; try done; [by destruct data|lia].
Qed.
End fetch.

(** ** A list with an entry of two fields, another field, and an entry whose code is there already *)

Definition text_field (number : N) (text : string) : Field := {| number := number; payload := PBytes text |}.
Definition sample_list : list Item :=
  [Entry [text_field 1 "GOOGLE"; text_field 2 "google.com"]; Other {| number := 3; payload := PVarint 300 |}; Entry [text_field 1 "CN"]; Entry [text_field 1 "cn"]].
Lemma sample_list_ok : Forall item_ok sample_list.
Proof. repeat constructor. Qed.
Lemma parse_codes_reads_witness : parse_codes (UT := ascii_text) (encode_list sample_list) = Ok ["cn"; "google"].
Proof. rewrite (parse_codes_reads (UT := ascii_text) sample_list); [by vm_compute|exact sample_list_ok|by vm_compute]. Defined.
