(* ===== verification/Qr.v ===== *)
(** * QR codes

    [panel/crates/protocols/src/qr.rs]: how a link is cut into segments, the version it gets, the score of a mask, and
    the picture. The [qrcode] crate, which sets the bits and modules, is the class [QrCrate]. Indexing and subtraction
    are in range for the sizes a version has ([21 + 4 * (v - 1)] modules a side). *)

From S2P Require Import Prelude Utf8 Numeric PyText AwgKeys.
From Stdlib Require SpecFloat.
#[local] Open Scope nat_scope.

Definition ALPHANUMERIC : list Ascii.ascii := String.list_ascii_of_string "0123456789ABCDEFGHIJKLMNOPQRSTUVWXYZ $%*+-./:".
Definition MINIMUM : nat := 20.
Definition is_alphanumeric (b : Ascii.ascii) : bool := existsb (Ascii.eqb b) ALPHANUMERIC.

Inductive DataOverflow := Overflow.
Inductive Mode := Numeric | Alphanumeric | Byte.
#[export] Instance mode_eq_dec : EqDecision Mode.
Proof. solve_decision. Defined.

(** ** Segments *)

(** [Iterator::position]. *)
Fixpoint position {A} (f : A -> bool) (l : list A) : option nat :=
  match l with [] => None | a :: rest => if f a then Some O else S <$> position f rest end.

Section split.
Context (class : Ascii.ascii -> bool).

Definition newline : Ascii.ascii := Ascii.ascii_of_nat 10.
(** [data.strip_suffix(..)] for the newline. *)
Definition strip_newline (data : list Ascii.ascii) : option (list Ascii.ascii) :=
  match reverse data with b :: rest => if Ascii.eqb b newline then Some (reverse rest) else None | [] => None end.

(** The [while] loop of [find]: every turn moves [start] forward. *)
Fixpoint find_run (fuel : nat) (data : list Ascii.ascii) (start : nat) : option (nat * nat) :=
  match fuel with
  | O => None
  | S fuel =>
      match data !! start with
      | None => None
      | Some b =>
          if negb (class b) then find_run fuel data (start + 1) else
          let end_ := match position (fun b => negb (class b)) (drop start data) with Some offset => start + offset | None => length data end in
          if MINIMUM <=? end_ - start then Some (start, end_) else find_run fuel data end_
      end
  end.

Definition find (data : list Ascii.ascii) (short : bool) : option (nat * nat) :=
  if (short : bool) then
    let body := match strip_newline data with
                | Some body => if negb (forallb class data) then body else data
                | None => data end in
    if negb (length body =? 0) && forallb class body then Some (O, length body) else None
  else find_run (S (length data)) data O.

(** The loop of [split]: every turn takes something off the rest. *)
Fixpoint split_loop (fuel : nat) (rest : list Ascii.ascii) (short : bool) : list (bool * list Ascii.ascii) :=
  match fuel, rest with
  | S fuel, _ :: _ =>
      match find rest short with
      | Some (start, end_) =>
          (if 0 <? start then [(false, take start rest)] else [])
          ++ (true, drop start (take end_ rest)) :: split_loop fuel (drop end_ rest) short
      | None => [(false, rest)]
      end
  | _, _ => []
  end.
Definition split (data : list Ascii.ascii) (short : bool) : list (bool * list Ascii.ascii) := split_loop (length data) data short.
End split.

Definition Segment : Type := Mode * list Ascii.ascii.

Definition segments (data : list Ascii.ascii) : list Segment :=
  let short := (length data <=? MINIMUM) in
  flat_map (fun piece : bool * list Ascii.ascii =>
    let '(numeric, chunk) := piece in
    if (numeric : bool) then [(Numeric, chunk)] else
    map (fun piece : bool * list Ascii.ascii => ((if piece.1 then Alphanumeric else Byte), piece.2)) (split is_alphanumeric chunk short))
    (split is_digit data short).

(** ** Versions *)

Definition size_class (version : Z) : nat := if (version <? 10)%Z then 0 else if (version <? 27)%Z then 1 else 2.
Definition length_bits (mode : Mode) (version : Z) : N :=
  let class := size_class version in
  match mode with
  | Numeric => nth class [10; 12; 14]%N 0%N
  | Alphanumeric => nth class [9; 11; 13]%N 0%N
  | Byte => nth class [8; 16; 16]%N 0%N
  end.
Definition data_bits (mode : Mode) (length : N) : N :=
  (match mode with
   | Numeric => length / 3 * 10 + nth (N.to_nat (length mod 3)) [0; 4; 7] 0
   | Alphanumeric => length / 2 * 11 + (length mod 2) * 6
   | Byte => length * 8
   end)%N.

Definition needed_bits (segments : list Segment) (version : Z) : N :=
  foldr (fun s total => 4 + length_bits s.1 version + data_bits s.1 (N.of_nat (length s.2)) + total)%N 0%N segments.

Definition versions_from (start : Z) : list Z := map (fun i => start + Z.of_nat i)%Z (seq 0 (Z.to_nat (41 - start))).

Inductive MaskPattern :=
| Checkerboard | HorizontalLines | VerticalLines | DiagonalLines | LargeCheckerboard | Fields | Diamonds | Meadow.
Definition MASKS : list MaskPattern :=
  [Checkerboard; HorizontalLines; VerticalLines; DiagonalLines; LargeCheckerboard; Fields; Diamonds; Meadow].

(** The [qrcode] crate, at error correction M. *)
Class QrCrate := {
  Bits : Type;
  Canvas : Type;
  bits_new : Z -> Bits;                                  (** [Bits::new] *)
  max_len : Z -> N;                                      (** [Bits::new(v).max_len(M)], for 1 to 40 *)
  push_data : Mode -> list Ascii.ascii -> Bits -> option Bits;
  push_terminator : Bits -> option Bits;
  construct_codewords : Bits -> Z -> option (string * string);
  blank_canvas : Z -> Canvas;                            (** [Canvas::new], [draw_all_functional_patterns] *)
  draw_data : string -> string -> Canvas -> Canvas;
  apply_mask : MaskPattern -> Canvas -> Canvas;
  into_colors : Canvas -> list bool;                     (** dark is [true] *)
}.

Section version.
Context {QC : QrCrate}.

Definition capacity (version : Z) : N := max_len version.

(** The call of itself is at a larger size class, of which there are three. *)
Fixpoint best_fit_from (fuel : nat) (segments : list Segment) (start : Z) : result DataOverflow Z :=
  match fuel with
  | O => Err Overflow
  | S fuel =>
      let needed := needed_bits segments start in
      version ← ok_or (List.find (fun version => needed <=? capacity version)%N (versions_from start)) Overflow;
      if negb (size_class version =? size_class start) then best_fit_from fuel segments version else Ok version
  end.
Definition best_fit (segments : list Segment) (start : Z) : result DataOverflow Z := best_fit_from 3 segments start.
End version.

(** ** The score of a mask *)

Abbreviation Modules := (list (list bool)).
Definition module_at (m : Modules) (row col : nat) : bool := default false (m !! row ≫= fun line => line !! col).
Definition set_light (row col : nat) (m : Modules) : Modules := alter (fun line => <[col := false]> line) row m.

(** [rows]: [chunks(width)]. *)
Fixpoint rows_of (n width : nat) (colors : list bool) : Modules :=
  match n with
  | O => []
  | S n => match colors with [] => [] | _ => take width colors :: rows_of n width (drop width colors) end
  end.
Definition rows (colors : list bool) (width : nat) : Modules := rows_of (length colors) width colors.

Definition clear_format (n : nat) (i : nat) (m : Modules) : Modules :=
  let row := if i <? 6 then i else if i <? 8 then i + 1 else n - 15 + i in
  let m := set_light row 8 m in
  let col := if i <? 8 then n - i - 1 else if i <? 9 then 7 else 14 - i in
  set_light 8 col m.
Definition clear_version (n : nat) (i : nat) (m : Modules) : Modules :=
  set_light (i mod 3 + n - 11) (i / 3) (set_light (i / 3) (i mod 3 + n - 11) m).
Definition clear_information (m : Modules) (version : Z) : Modules :=
  let n := length m in
  let m := fold_left (fun m i => clear_format n i m) (seq 0 15) m in
  let m := set_light (n - 8) 8 m in
  if (7 <=? version)%Z then fold_left (fun m i => clear_version n i m) (seq 0 18) m else m.

(** *** Level 1 *)

Definition tally (length : nat) (container : list N) : list N := if 5 <=? length then alter N.succ length container else container.
(** The closure [runs] over one line: the colour before, the length of its run, the container. *)
Fixpoint runs (line : list bool) (previous : option bool) (length : nat) (container : list N) : list N :=
  match line with
  | [] => tally length container
  | color :: rest =>
      if bool_decide (Some color = previous) then runs rest previous (S length) container
      else runs rest (Some color) 1 (tally length container)
  end.
Definition column (m : Modules) (col : nat) : list bool := map (fun row => module_at m row col) (seq 0 (length m)).
Definition sum_N (l : list N) : N := foldr N.add 0%N l.
Definition lost_runs (m : Modules) : N :=
  let n := length m in
  let container := fold_left (fun container line => runs line None 0 container) m (replicate (n + 1) 0%N) in
  let container := fold_left (fun container col => runs (column m col) None 0 container) (seq 0 n) container in
  sum_N (map (fun length => default 0%N (container !! length) * (N.of_nat length - 2))%N (seq 5 (n + 1 - 5))).

(** *** Level 2 *)

(** The loop over the columns of two rows. *)
Fixpoint blocks (fuel n : nat) (this next : list bool) (col : nat) (lost : N) : N :=
  match fuel with
  | O => lost
  | S fuel =>
      if n - 1 <=? col then lost else
      let at_ (line : list bool) col := default false (line !! col) in
      let top_right := at_ this (col + 1) in
      if negb (eqb top_right (at_ next (col + 1))) then blocks fuel n this next (col + 2) lost
      else blocks fuel n this next (col + 1)
             (if eqb top_right (at_ this col) && eqb top_right (at_ next col) then lost + 3 else lost)%N
  end.
Definition lost_blocks (m : Modules) : N :=
  let n := length m in
  sum_N (map (fun row => blocks n n (default [] (m !! row)) (default [] (m !! (row + 1))) 0 0%N) (seq 0 (n - 1))).

(** *** Level 3 *)

Definition finder (get : nat -> bool) (at_ : nat) : bool :=
  negb (get (at_ + 1)) && get (at_ + 4) && negb (get (at_ + 5)) && get (at_ + 6) && negb (get (at_ + 9))
  && ((get at_ && get (at_ + 2) && get (at_ + 3) && negb (get (at_ + 7)) && negb (get (at_ + 8)) && negb (get (at_ + 10)))
      || (negb (get at_) && negb (get (at_ + 2)) && negb (get (at_ + 3)) && get (at_ + 7) && get (at_ + 8) && get (at_ + 10))).
Fixpoint scan (fuel n : nat) (get : nat -> bool) (at_ : nat) (lost : N) : N :=
  match fuel with
  | O => lost
  | S fuel =>
      if n - 10 <=? at_ then lost
      else scan fuel n get (at_ + (if get (at_ + 10) then 2 else 1)) (if finder get at_ then lost + 40 else lost)%N
  end.
Definition lost_finders (m : Modules) : N :=
  let n := length m in
  if 10 <? n then
    (sum_N (map (fun line : list bool => scan n n (fun col => default false (line !! col)) 0 0%N) m)
     + sum_N (map (fun col => scan n n (fun row => module_at m row col) 0 0%N) (seq 0 n)))%N
  else 0%N.

(** *** Level 4 *)

(** [f64] as IEEE 754 has it. *)
Definition f64_of (n : N) : SpecFloat.spec_float := SpecFloat.binary_normalize 53 1024 (Z.of_N n) 0 false.
(** [x as u64]. *)
Definition f64_as_u64 (x : SpecFloat.spec_float) : N :=
  match x with
  | SpecFloat.S754_finite false m e => N.min (Z.to_N (Z.shiftl (Zpos m) e)) (2 ^ 64 - 1)
  | SpecFloat.S754_infinity false => 2 ^ 64 - 1
  | _ => 0
  end%N.
Definition lost_balance (m : Modules) : N :=
  let n := N.of_nat (length m) in
  let dark := N.of_nat (length (List.filter id (concat m))) in
  let percent := SpecFloat.SFdiv 53 1024 (f64_of dark) (f64_of (n * n)) in
  let away := SpecFloat.SFabs (SpecFloat.SFsub 53 1024 (SpecFloat.SFmul 53 1024 percent (f64_of 100)) (f64_of 50)) in
  (f64_as_u64 (SpecFloat.SFdiv 53 1024 away (f64_of 5)) * 10)%N.

Definition lost_point (m : Modules) : N := (lost_runs m + lost_blocks m + lost_finders m + lost_balance m)%N.

(** ** The matrix *)

Section matrix.
Context {QC : QrCrate}.

Definition width (version : Z) : nat := Z.to_nat (version * 4 + 17).

Definition push_all (bits : Bits) (segments : list Segment) : option Bits :=
  fold_left (fun bits s => bits ≫= push_data s.1 s.2) segments (Some bits).

(** The first mask of the lowest score, the best so far in front. *)
Fixpoint best_mask (score : MaskPattern -> N) (best : option (N * MaskPattern)) (masks : list MaskPattern) : option (N * MaskPattern) :=
  match masks with
  | [] => best
  | mask :: rest =>
      let lost := score mask in
      best_mask score (if match best with None => true | Some (lowest, _) => (lost <? lowest)%N end then Some (lost, mask) else best) rest
  end.
Definition mask_score (canvas : Canvas) (version : Z) (mask : MaskPattern) : N :=
  lost_point (clear_information (rows (into_colors (apply_mask mask canvas)) (width version)) version).

Definition codewords (segments : list Segment) (version : Z) : option (string * string) :=
  bits ← push_all (bits_new version) segments;
  bits ← push_terminator bits;
  construct_codewords bits version.

Definition matrix (data : list Ascii.ascii) : result DataOverflow Modules :=
  let segments := segments data in
  version ← best_fit segments 1;
  words ← ok_or (codewords segments version) Overflow;
  let canvas := draw_data words.1 words.2 (blank_canvas version) in
  best ← ok_or (best_mask (mask_score canvas version) None MASKS) Overflow;
  Ok (rows (into_colors (apply_mask best.2 canvas)) (width version)).
End matrix.

(** ** The picture *)

Definition square (row col : nat) : string :=
  let x := col + 4 in let y := row + 4 in
  "M" +:+ fmt_nat x +:+ "," +:+ fmt_nat y +:+ "H" +:+ fmt_nat (x + 1) +:+ "V" +:+ fmt_nat (y + 1) +:+ "H" +:+ fmt_nat x +:+ "z".
Definition path_line (row : nat) (line : list bool) : string :=
  join EmptyString (imap (fun col (dark : bool) => if dark then square row col else EmptyString) line).
Definition path_of (m : Modules) : string := join EmptyString (imap path_line m).
Definition quoted (s : string) : string := dq +:+ s +:+ dq.
Definition svg (m : Modules) : string :=
  let size := fmt_nat (length m + 8) in
  "<?xml version='1.0' encoding='UTF-8'?>" +:+ nl +:+ "<svg width=" +:+ quoted (size +:+ "mm") +:+ " height=" +:+ quoted (size +:+ "mm")
  +:+ " version=" +:+ quoted "1.1" +:+ " viewBox=" +:+ quoted ("0 0 " +:+ size +:+ " " +:+ size)
  +:+ " xmlns=" +:+ quoted "http://www.w3.org/2000/svg" +:+ "><path d=" +:+ quoted (path_of m) +:+ " id=" +:+ quoted "qr-path"
  +:+ " fill=" +:+ quoted "#000000" +:+ " fill-opacity=" +:+ quoted "1" +:+ " fill-rule=" +:+ quoted "nonzero" +:+ " stroke=" +:+ quoted "none"
  +:+ " /></svg>".

Definition data_uri {QC : QrCrate} {B64 : Base64} (text : string) : result DataOverflow string :=
  m ← matrix (String.list_ascii_of_string text);
  Ok ("data:image/svg+xml;base64," +:+ encode (svg m)).
