(* ===== verification/QrFacts.v ===== *)
(** * QR codes: nothing is lost, the smallest version, the standard's score, one picture per matrix

    Of [Qr]: the segments are the data, each in a mode that can carry it; the version is the smallest the data fits;
    the score of a mask is the standard's, its shortcuts skip nothing; the picture determines the matrix. *)

From stdpp Require Import sets.
From S2P Require Import Prelude Utf8 Numeric Json JsonFacts PyText TextFacts AwgKeys Qr.
#[local] Open Scope nat_scope.

(** ** Runs of a class *)

Section class.
Context (class : Ascii.ascii -> bool).

(** No twenty characters of the class in a row. *)
Definition no_run (p : list Ascii.ascii) : Prop := forall x w y, p = x ++ w ++ y -> forallb class w = true -> length w < MINIMUM.
Definition starts (p : list Ascii.ascii) : bool := match head p with Some b => class b | None => false end.
Definition ends (p : list Ascii.ascii) : bool := match last p with Some b => class b | None => false end.

Lemma starts_with_class w y : forallb class w = true -> w <> [] -> starts (w ++ y) = true.
Proof. destruct w as [|b w]; [done|]. cbn. by intros [Hb _]%andb_true_iff _. Qed.
Lemma ends_with_class x w : forallb class w = true -> w <> [] -> ends (x ++ w) = true.
Proof.
  intros Hw Hn. destruct w as [|b w] using rev_ind; [done|]. rewrite forallb_app in Hw. apply andb_true_iff in Hw as [_ Hb].
  unfold ends. rewrite app_assoc, last_snoc. cbn in Hb. by rewrite andb_true_r in Hb.
Qed.

Lemma no_run_app p q : no_run p -> no_run q -> ends p && starts q = false -> no_run (p ++ q).
Proof.
  intros Hp Hq He x w y Heq Hw. apply app_eq_app in Heq as (l & [[-> Hqe]|[-> Hpe]]).
  - (* the window starts in [p] *)
    symmetry in Hqe. apply app_eq_app in Hqe as (k & [[-> Hk]|[-> Hk]]); [by apply (Hp x w k)|].
    rewrite forallb_app in Hw. apply andb_true_iff in Hw as [Hl Hk']. destruct l as [|b l]; [cbn; by apply (Hq [] k y)|].
    destruct k as [|d k]; [rewrite app_nil_r; apply (Hp x (b :: l) []); [by rewrite app_nil_r|done]|].
    rewrite Hk in He. rewrite ends_with_class in He by done. by rewrite starts_with_class in He.
  - by apply (Hq l w y).
Qed.
Lemma no_run_part p x q y : no_run p -> p = x ++ q ++ y -> no_run q.
Proof. intros Hp -> u w v -> Hw. apply (Hp (x ++ u) w (v ++ y)); [by rewrite <-!app_assoc|done]. Qed.
Lemma no_run_short p : length p < MINIMUM -> no_run p.
Proof. intros Hl x w y -> _. rewrite !length_app in Hl. lia. Qed.

(** ** The search for a run *)

Lemma position_cut (l : list Ascii.ascii) :
  let k := match position (fun b => negb (class b)) l with Some k => k | None => length l end in
  k <= length l /\ forallb class (take k l) = true /\ starts (drop k l) = false.
Proof.
  induction l as [|b l IH]; [done|]. cbn [position]. destruct (class b) eqn:Hb; cbn [negb].
  - destruct (position _ l) as [k|]; cbn [fmap option_fmap option_map] in *; cbn in *; rewrite Hb; destruct IH as (H1 & H2 & H3); split_and!; (done || lia).
  - cbn. rewrite Hb. split_and!; (done || lia).
Qed.

Lemma find_run_spec fuel : forall pre post, length post < fuel -> no_run pre -> ends pre && starts post = false ->
  match find_run class fuel (pre ++ post) (length pre) with
  | Some (start, end_) => exists p w q, pre ++ post = p ++ w ++ q /\ start = length p /\ end_ = length p + length w
                            /\ forallb class w = true /\ MINIMUM <= length w /\ no_run p
  | None => no_run (pre ++ post)
  end.
Proof.
  induction fuel as [|fuel IH]; intros pre post Hf Hp Hb; [lia|]. cbn [find_run].
  rewrite lookup_app_r, Nat.sub_diag by lia. destruct post as [|b post]; [by rewrite app_nil_r|]. cbn [lookup list_lookup].
  destruct (class b) eqn:Hc; cbn [negb].
  - rewrite drop_app_length. pose proof (position_cut (b :: post)) as Hk. cbv zeta in Hk.
    set (k := match position _ _ with Some k => k | None => _ end) in Hk.
    assert (Hend : match position (fun b => negb (class b)) (b :: post) with Some o => length pre + o | None => length (pre ++ b :: post) end = length pre + k).
    { subst k. rewrite length_app. by destruct (position _ _). }
    rewrite Hend. replace (length pre + k - length pre) with k by lia. destruct Hk as (Hk & Hw & Hs). clearbody k. clear Hend.
    assert (Hpos : k <> 0) by (intros ->; cbn in Hs; congruence).
    pose proof (take_drop k (b :: post)) as Htd. set (w := take k (b :: post)) in *. set (q := drop k (b :: post)) in *.
    assert (Hlw : length w = k) by (unfold w; rewrite length_take; lia). rewrite <-Htd. destruct (MINIMUM <=? k) eqn:Hm.
    + exists pre, w, q. split_and!; try done; lia.
    + rewrite app_assoc. specialize (IH (pre ++ w) q). rewrite length_app, Hlw in IH. apply IH.
      * assert (length (w ++ q) = length (b :: post)) by (by rewrite Htd). rewrite length_app in *. lia.
      * apply no_run_app; [done|apply no_run_short; lia|]. unfold starts in *. cbn in Hb. rewrite Hc, andb_true_r in Hb. by rewrite Hb.
      * by rewrite Hs, andb_false_r.
  - specialize (IH (pre ++ [b]) post). rewrite length_app, <-app_assoc in IH. cbn in IH. apply IH; [cbn in Hf; lia| |].
    + apply no_run_app; [done|by apply no_run_short; cbn; unfold MINIMUM; lia|]. cbn. by rewrite Hc, andb_false_r.
    + unfold ends. by rewrite last_snoc, Hc.
Qed.

(** What is found is a run; where none is found the text is not one, and a long one has none. *)
Lemma strip_newline_app data body : strip_newline data = Some body -> data = body ++ [newline].
Proof.
  unfold strip_newline. intros H. rewrite <-(reverse_involutive data). destruct (reverse data) as [|b rest]; [done|].
  destruct (Ascii.eqb b newline) eqn:Hb; [|done]. apply Ascii.eqb_eq in Hb as ->. injection H as <-. by rewrite reverse_cons.
Qed.

(** Text without a run: not all of the class; and, in a text that is not short, no twenty in a row. *)
Definition unmatched (short : bool) (p : list Ascii.ascii) : Prop := if short then forallb class p = false else no_run p.
Definition matched (short : bool) (w : list Ascii.ascii) : Prop := forallb class w = true /\ (short = false -> MINIMUM <= length w).

Lemma find_spec short data : data <> [] ->
  match find class data short with
  | Some (start, end_) => exists p w q, data = p ++ w ++ q /\ start = length p /\ end_ = length p + length w /\ w <> []
                            /\ matched short w /\ (p <> [] -> unmatched short p)
  | None => unmatched short data
  end.
Proof.
  intros Hd. unfold find. destruct short.
  - destruct (strip_newline data) as [body|] eqn:Hs; [apply strip_newline_app in Hs as ->|].
    + destruct (forallb class (body ++ [newline])) eqn:Ha; cbn [negb].
      * destruct (length (body ++ [newline]) =? 0) eqn:Hl; [by rewrite length_app in Hl; cbn in Hl; lia|]. rewrite Ha. cbn [negb andb].
        exists [], (body ++ [newline]), []. rewrite app_nil_r. by split_and!; try done; destruct body.
      * destruct (forallb class body) eqn:Hb; [|by rewrite andb_false_r].
        destruct body as [|b body]; [done|]. exists [], (b :: body), [newline]. by split_and!.
    + destruct (length data =? 0) eqn:Hl; [by destruct data|]. destruct (forallb class data) eqn:Ha; [|done].
      exists [], data, []. rewrite app_nil_r. by split_and!.
  - pose proof (find_run_spec (S (length data)) [] data ltac:(lia) (no_run_short [] ltac:(cbn; unfold MINIMUM; lia)) eq_refl) as Hf.
    cbn [app length] in Hf. destruct (find_run _ _ _ _) as [[s e]|]; [|done]. destruct Hf as (p & w & q & H1 & H2 & H3 & H4 & H5 & H6).
    exists p, w, q. split_and!; try done. intros ->. unfold MINIMUM in H5. cbn in H5. lia.
Qed.

Lemma split_spec short fuel : forall rest, length rest <= fuel ->
  concat (map snd (split_loop class fuel rest short)) = rest
  /\ Forall (fun piece => piece.2 <> [] /\ if (piece.1 : bool) then matched short piece.2 else unmatched short piece.2) (split_loop class fuel rest short).
Proof.
  induction fuel as [|fuel IH]; intros rest Hf; [by destruct rest; [|cbn in Hf; lia]|]. cbn [split_loop].
  destruct rest as [|b rest]; [done|]. set (data := b :: rest) in *. assert (Hd : data <> []) by done. clearbody data.
  pose proof (find_spec short data Hd) as Hfind. destruct (find class data short) as [[s e]|].
  - destruct Hfind as (p & w & q & -> & -> & -> & Hw & Hm & Hu).
    assert (H1 : take (length p) (p ++ w ++ q) = p) by apply take_app_length.
    assert (H2 : drop (length p) (take (length p + length w) (p ++ w ++ q)) = w).
    { rewrite take_app_add, drop_app_length. by rewrite take_app_length. }
    assert (H3 : drop (length p + length w) (p ++ w ++ q) = q) by (by rewrite drop_app_add, drop_app_length).
    rewrite H1, H2, H3. destruct (IH q) as [Hc Hall].
    { rewrite !length_app in Hf. destruct w; [done|]. cbn in Hf. lia. }
    destruct p as [|c p]; cbn [length]; [split; [cbn; by rewrite Hc|by constructor]|].
    split; [cbn [map concat app snd Nat.ltb Nat.leb]; by rewrite Hc|]. cbn [Nat.ltb Nat.leb app]. constructor; [by split; [|apply Hu]|by constructor].
  - cbn. rewrite app_nil_r. split; [done|]. by repeat constructor.
Qed.
End class.

(** ** The segments *)

(** The segments are the data. In order they make up the whole of it and none is empty; what is in a numeric or
    an alphanumeric segment can be written in that mode; and of more than twenty characters, a segment in such a mode
    has at least twenty, and no run of twenty digits, or of twenty alphanumeric characters, is left to a poorer mode. *)
Theorem segments_cut data : concat (map snd (segments data)) = data
  /\ Forall (fun s => s.2 <> [] /\ match s.1 with
       | Numeric => forallb is_digit s.2 = true
       | Alphanumeric => forallb is_alphanumeric s.2 = true
       | Byte => True end) (segments data)
  /\ if length data <=? MINIMUM then True else Forall (fun s => match s.1 with
       | Numeric => MINIMUM <= length s.2
       | Alphanumeric => MINIMUM <= length s.2 /\ no_run is_digit s.2
       | Byte => no_run is_digit s.2 /\ no_run is_alphanumeric s.2 end) (segments data).
Proof.
  unfold segments, split. set (short := length data <=? MINIMUM). clearbody short.
  destruct (split_spec is_digit short (length data) data ltac:(lia)) as [Hc Hall].
  set (pieces := split_loop is_digit (length data) data short) in *. clearbody pieces. subst data.
  induction pieces as [|[numeric chunk] pieces IH]; [by destruct short|].
  apply Forall_cons in Hall as [[Hn Hp] Hall]. specialize (IH Hall) as (I1 & I2 & I3). cbn [fst snd] in Hn, Hp. cbn [flat_map map concat snd fst].
  rewrite map_app, concat_app, I1. destruct numeric.
  - destruct Hp as [Hp Hl]. cbn. rewrite app_nil_r. split; [done|]. split; [by constructor|].
    destruct short; [done|]. constructor; [by apply Hl|done].
  - destruct (split_spec is_alphanumeric short (length chunk) chunk ltac:(lia)) as [Kc Kall]. rewrite map_map. cbn [snd].
    split; [by f_equal|]. split.
    + apply Forall_app. split; [|done]. apply Forall_map. eapply Forall_impl; [exact Kall|]. intros [alnum piece] [K1 K2]. cbn in *.
      split; [done|]. destruct alnum; [apply K2|done].
    + destruct short; [done|]. apply Forall_app. split; [|done]. apply Forall_map. rewrite list.Forall_forall in *. intros [alnum piece] Hin. cbn.
      destruct (Kall _ Hin) as [K1 K2]. cbn in K1, K2.
      assert (Hd : no_run is_digit piece).
      { apply list_elem_of_split in Hin as (l1 & l2 & Heq). rewrite Heq in Kc. rewrite map_app, concat_app in Kc. cbn in Kc. symmetry in Kc. by eapply no_run_part. }
      destruct alnum; [by split; [apply K2|]|done].
Qed.

(** ** The version *)

Lemma size_class_mono u v : (u <= v)%Z -> size_class u <= size_class v.
Proof. unfold size_class. intros H. destruct (u <? 10)%Z eqn:?, (u <? 27)%Z eqn:?, (v <? 10)%Z eqn:?, (v <? 27)%Z eqn:?; lia. Qed.
Lemma size_class_bound v : size_class v <= 2.
Proof. unfold size_class. destruct (v <? 10)%Z, (v <? 27)%Z; lia. Qed.
Lemma length_bits_mono mode u v : size_class u <= size_class v -> (length_bits mode u <= length_bits mode v)%N.
Proof.
  unfold length_bits. pose proof (size_class_bound v). generalize dependent (size_class v). intros [|[|[|?]]] ? ?; try lia;
    destruct (size_class u) as [|[|[|?]]], mode; cbn; lia.
Qed.
Lemma needed_bits_mono segments u v : size_class u <= size_class v -> (needed_bits segments u <= needed_bits segments v)%N.
Proof. intros H. unfold needed_bits. induction segments as [|s l IH]; [done|]. cbn [foldr]. pose proof (length_bits_mono s.1 _ _ H). lia. Qed.

(** The first version from a start on that passes a test. *)
Lemma first_passing {A} (f : A -> bool) l : match List.find f l with
  | Some x => exists l1 l2, l = l1 ++ x :: l2 /\ f x = true /\ forall y, y ∈ l1 -> f y = false
  | None => forall y, y ∈ l -> f y = false
  end.
Proof.
  induction l as [|a l IH]; cbn [List.find]; [by intros y Hy%not_elem_of_nil|]. destruct (f a) eqn:Ha.
  - exists [], l. split_and!; try done. by intros y Hy%not_elem_of_nil.
  - destruct (List.find f l) as [x|].
    + destruct IH as (l1 & l2 & -> & Hx & Hl). exists (a :: l1), l2. split_and!; try done. by intros y [->|Hy]%elem_of_cons; [|apply Hl].
    + by intros y [->|Hy]%elem_of_cons; [|apply IH].
Qed.
Lemma in_versions u start : u ∈ versions_from start <-> (start <= u <= 40)%Z.
Proof.
  unfold versions_from. rewrite list_elem_of_fmap. split.
  - intros (i & -> & Hi%list_elem_of_In%in_seq). lia.
  - intros Hu. exists (Z.to_nat (u - start)). split; [lia|]. apply list_elem_of_In, in_seq. lia.
Qed.
Lemma find_version f start : match List.find f (versions_from start) with
  | Some v => (start <= v <= 40)%Z /\ f v = true /\ forall u, (start <= u < v)%Z -> f u = false
  | None => forall u, (start <= u <= 40)%Z -> f u = false
  end.
Proof.
  pose proof (first_passing f (versions_from start)) as Hf. destruct (List.find f _) as [v|].
  - destruct Hf as (l1 & l2 & Heq & Hv & Hl). assert (Hin : v ∈ versions_from start) by (rewrite Heq; set_solver).
    apply in_versions in Hin as Hr. split_and!; [lia|lia|done|]. intros u Hu. apply Hl.
    assert (Hi : versions_from start !! length l1 = Some v) by (rewrite Heq; by apply list_lookup_middle).
    unfold versions_from in Hi. apply list_lookup_fmap_Some in Hi as (i & -> & Hi). apply lookup_seq in Hi as [-> Hi].
    assert (Hj : versions_from start !! Z.to_nat (u - start) = Some u).
    { unfold versions_from. apply list_lookup_fmap_Some. exists (Z.to_nat (u - start)). split; [lia|]. apply lookup_seq. lia. }
    rewrite Heq, lookup_app_l in Hj by lia. by eapply list_elem_of_lookup_2.
  - intros u Hu. by apply Hf, in_versions.
Qed.

Section fit.
Context {QC : QrCrate}.

(** At a version: too small for the data. *)
Definition too_small (segments : list Segment) (u : Z) : Prop := (capacity u < needed_bits segments u)%N.

Lemma best_fit_from_spec segments fuel : forall start, 3 - size_class start <= fuel -> (1 <= start)%Z ->
  (forall u, (1 <= u < start)%Z -> too_small segments u) ->
  match best_fit_from fuel segments start with
  | Ok v => (1 <= v <= 40)%Z /\ ~ too_small segments v /\ forall u, (1 <= u < v)%Z -> too_small segments u
  | Err _ => forall u, (1 <= u <= 40)%Z -> too_small segments u
  end.
Proof.
  induction fuel as [|fuel IH]; intros start Hf Hs Hb; [pose proof (size_class_bound start); lia|]. cbn [best_fit_from].
  pose proof (find_version (fun version => needed_bits segments start <=? capacity version)%N start) as Hv. cbv beta in Hv.
  assert (Hfrom : forall u, (start <= u)%Z -> (needed_bits segments start <=? capacity u)%N = false -> too_small segments u).
  { intros u Hu Hc. pose proof (needed_bits_mono segments _ _ (size_class_mono _ _ Hu)). unfold too_small. lia. }
  destruct (List.find _ _) as [v|]; cbn [ok_or mbind result_bind].
  - destruct Hv as (Hr & Hfit & Hless). assert (Hb' : forall u, (1 <= u < v)%Z -> too_small segments u).
    { intros u Hu. destruct (decide (u < start)%Z); [apply Hb; lia|]. apply Hfrom; [lia|]. apply Hless. lia. }
    destruct (size_class v =? size_class start) eqn:Hc; cbn [negb].
    + split_and!; [lia|lia| |done]. apply Nat.eqb_eq in Hc. pose proof (needed_bits_mono segments v start ltac:(lia)). unfold too_small. lia.
    + apply IH; [|lia|done]. pose proof (size_class_mono start v ltac:(lia)). lia.
  - intros u Hu. destruct (decide (u < start)%Z); [apply Hb; lia|]. apply Hfrom; [lia|]. apply Hv. lia.
Qed.

(** C39: The version is the smallest the data fits. Although the search counts with the length fields of the version it
    starts from and begins again when their size changes, what it answers is the smallest version that holds the data
    with that version's own length fields; and it says that there is none only when there is none. *)
Theorem best_fit_smallest segments : match best_fit segments 1 with
  | Ok v => (1 <= v <= 40)%Z /\ (needed_bits segments v <= capacity v)%N /\ forall u, (1 <= u < v)%Z -> (capacity u < needed_bits segments u)%N
  | Err _ => forall u, (1 <= u <= 40)%Z -> (capacity u < needed_bits segments u)%N
  end.
Proof.
  pose proof (best_fit_from_spec segments 3 1 ltac:(cbn; lia) ltac:(lia) ltac:(lia)) as Hb. unfold best_fit. unfold too_small in Hb.
  destruct (best_fit_from 3 segments 1); [|exact Hb]. destruct Hb as (H1 & H2 & H3). split_and!; [lia|lia|lia|done].
Qed.
End fit.

(** ** The score *)

(** *** The standard's score *)

(** The lengths of the runs of one colour in a line. *)
Fixpoint run_lengths (line : list bool) : list nat :=
  match line with
  | [] => []
  | color :: rest =>
      match run_lengths rest with
      | length :: others => if bool_decide (head rest = Some color) then S length :: others else 1 :: length :: others
      | [] => [1]
      end
  end.
(** Three for five of a colour, one more for each after. *)
Definition run_penalty (length : nat) : N := if 5 <=? length then (N.of_nat length - 2)%N else 0%N.
Definition total {A} (f : A -> N) (l : list A) : N := sum_N (map f l).
Definition line_penalty (line : list bool) : N := total run_penalty (run_lengths line).

Definition light_dark_ratio : list bool := [true; false; true; true; true; false; true; false; false; false; false].
Definition window (get : nat -> bool) (at_ : nat) : list bool := map (fun i => get (at_ + i)) (seq 0 11).
(** At every place, with four light modules after or before. *)
Definition finder_penalty (n : nat) (get : nat -> bool) : N :=
  total (fun at_ => if bool_decide (window get at_ = light_dark_ratio) || bool_decide (window get at_ = reverse light_dark_ratio) then 40 else 0)%N (seq 0 (n - 10)).
(** Two by two of one colour. *)
Definition block_penalty (m : Modules) (row col : nat) : N :=
  if forallb (eqb (module_at m row col)) [module_at m row (col + 1); module_at m (row + 1) col; module_at m (row + 1) (col + 1)] then 3%N else 0%N.

Definition standard_score (m : Modules) : N :=
  let n := length m in
  let columns := map (column m) (seq 0 n) in
  (total line_penalty (m ++ columns)
   + total (fun row => total (block_penalty m row) (seq 0 (n - 1))) (seq 0 (n - 1))
   + total (fun line : list bool => finder_penalty n (fun i => default false (line !! i))) (m ++ columns)
   + lost_balance m)%N.

Definition is_square (n : nat) (m : Modules) : Prop := length m = n /\ Forall (fun line => length line = n) m.

(** *** Sums *)

Lemma sum_app l k : sum_N (l ++ k) = (sum_N l + sum_N k)%N.
Proof. induction l as [|x l IH]; [done|]. cbn in *. unfold sum_N in *. rewrite IH. lia. Qed.
Lemma total_app {A} (f : A -> N) l k : total f (l ++ k) = (total f l + total f k)%N.
Proof. unfold total. by rewrite map_app, sum_app. Qed.
Lemma total_cons {A} (f : A -> N) a l : total f (a :: l) = (f a + total f l)%N.
Proof. done. Qed.
Lemma total_ext {A} (f g : A -> N) l : (forall a, a ∈ l -> f a = g a) -> total f l = total g l.
Proof. unfold total. intros H. induction l as [|a l IH]; [done|]. cbn. rewrite H by set_solver. unfold sum_N in IH. rewrite IH; [done|]. set_solver. Qed.
Lemma total_step {A} (f g : A -> N) (l : list A) a d : NoDup l -> a ∈ l -> g a = (f a + d)%N -> (forall b, b <> a -> g b = f b) -> total g l = (total f l + d)%N.
Proof.
  intros Hd Ha Hga Hgb. apply list_elem_of_split in Ha as (l1 & l2 & ->). apply NoDup_app in Hd as (_ & Hout & Hd).
  apply NoDup_cons in Hd as [Hn _]. rewrite !total_app. rewrite !total_cons.
  rewrite Hga, (total_ext g f l1), (total_ext g f l2); [lia|..]; intros b Hb; apply Hgb; intros ->; [done|]. apply (Hout a Hb). set_solver.
Qed.

(** *** Level 1 *)

Definition weight (n : nat) (container : list N) : N := total (fun length => default 0 (container !! length) * (N.of_nat length - 2))%N (seq 5 (n + 1 - 5)).

Lemma weight_tally n length container : List.length container = n + 1 -> length <= n ->
  weight n (tally length container) = (weight n container + run_penalty length)%N /\ List.length (tally length container) = n + 1.
Proof.
  intros Hl Hn. unfold tally, run_penalty. destruct (5 <=? length) eqn:H5; [|split; [lia|done]]. split; [|by rewrite length_alter].
  unfold weight. apply (total_step _ _ _ length).
  - apply NoDup_ListNoDup, seq_NoDup.
  - apply list_elem_of_In, in_seq. lia.
  - rewrite list_lookup_alter_eq. destruct (lookup_lt_is_Some_2 container length ltac:(lia)) as [x ->]. cbn. lia.
  - intros b Hb. by rewrite list_lookup_alter_ne.
Qed.

Lemma run_lengths_replicate k c : run_lengths (replicate (S k) c) = [S k].
Proof. induction k as [|k IH]; [done|]. change (replicate (S (S k)) c) with (c :: replicate (S k) c). cbn [run_lengths]. rewrite IH. cbn. by rewrite bool_decide_eq_true_2. Qed.
Lemma run_lengths_cons c line : exists k others, run_lengths (c :: line) = k :: others.
Proof. cbn. destruct (run_lengths line) as [|k others]; [by eexists _, _|]. destruct (bool_decide _); by eexists _, _. Qed.
Lemma run_lengths_break k c d line : c <> d -> run_lengths (replicate (S k) c ++ d :: line) = S k :: run_lengths (d :: line).
Proof.
  intros Hcd. destruct (run_lengths_cons d line) as (j & others & Hj). induction k as [|k IH].
  - cbn [replicate app]. remember (d :: line) as l eqn:Hl. cbn [run_lengths]. rewrite Hj. subst l. cbn [head]. rewrite bool_decide_eq_false_2; [done|congruence].
  - change (replicate (S (S k)) c ++ d :: line) with (c :: (replicate (S k) c ++ d :: line)). remember (replicate (S k) c ++ d :: line) as l eqn:Hl.
    cbn [run_lengths]. rewrite IH. subst l. cbn [replicate app head]. by rewrite bool_decide_eq_true_2.
Qed.
Lemma runs_lengths line : forall c k container,
  runs line (Some c) (S k) container = fold_left (fun container length => tally length container) (run_lengths (replicate (S k) c ++ line)) container.
Proof.
  induction line as [|d line IH]; intros c k container; cbn [runs].
  - by rewrite app_nil_r, run_lengths_replicate.
  - destruct (bool_decide (Some d = Some c)) eqn:Hb.
    + apply bool_decide_eq_true in Hb. injection Hb as ->. rewrite IH. f_equal. f_equal.
      change (replicate (S (S k)) c) with (c :: replicate (S k) c). by rewrite replicate_cons_app, <-app_assoc.
    + apply bool_decide_eq_false in Hb. rewrite IH, run_lengths_break by congruence. done.
Qed.
Lemma runs_all line container : runs line None 0 container = fold_left (fun container length => tally length container) (run_lengths line) container.
Proof. destruct line as [|c line]; [done|]. cbn [runs]. by rewrite runs_lengths. Qed.

Lemma run_lengths_le line : Forall (fun k => k <= length line) (run_lengths line).
Proof.
  induction line as [|c line IH]; [constructor|]. cbn [run_lengths length].
  assert (IH' : Forall (fun k => k <= S (length line)) (run_lengths line)) by (eapply Forall_impl; [exact IH|cbn; lia]).
  destruct (run_lengths line) as [|k others]; [apply Forall_cons; split; [lia|by apply Forall_nil]|].
  apply Forall_cons in IH as [H1 _]. apply Forall_cons in IH' as [H2 H3]. destruct (bool_decide _); (apply Forall_cons; split; [lia|done]) || (apply Forall_cons; split; [lia|apply Forall_cons; split; [lia|done]]).
Qed.
Lemma weight_runs n line container : List.length container = n + 1 -> length line = n ->
  weight n (runs line None 0 container) = (weight n container + line_penalty line)%N /\ List.length (runs line None 0 container) = n + 1.
Proof.
  intros Hc Hl. rewrite runs_all. unfold line_penalty. pose proof (run_lengths_le line) as Hle. rewrite Hl in Hle. clear Hl.
  revert container Hc. induction Hle as [|k l Hk Hle IH]; intros container Hc; [by cbn; rewrite N.add_0_r|]. cbn [fold_left].
  destruct (weight_tally n k container Hc Hk) as [H1 H2]. destruct (IH _ H2) as [-> ->]. rewrite H1, total_cons. split; [lia|done].
Qed.
Lemma weight_fold {A} n (f : A -> list bool) l container : Forall (fun a => length (f a) = n) l -> List.length container = n + 1 ->
  let after := fold_left (fun container a => runs (f a) None 0 container) l container in
  weight n after = (weight n container + total (fun a => line_penalty (f a)) l)%N /\ List.length after = n + 1.
Proof.
  intros Hl. revert container. induction Hl as [|a l Ha Hl IH]; intros container Hc; [by cbn; rewrite N.add_0_r|]. cbn [fold_left].
  destruct (weight_runs n (f a) container Hc Ha) as [H1 H2]. destruct (IH _ H2) as [-> ->]. rewrite H1, total_cons. split; [lia|done].
Qed.
Lemma length_column m col : length (column m col) = length m.
Proof. unfold column. by rewrite length_map, length_seq. Qed.
Lemma weight_zero n : weight n (replicate (n + 1) 0%N) = 0%N.
Proof.
  unfold weight. induction (seq 5 (n + 1 - 5)) as [|k l IH]; [done|]. rewrite total_cons, IH, N.add_0_r.
  destruct (replicate (n + 1) 0%N !! k) eqn:Hk; [|done]. by apply lookup_replicate in Hk as [-> _].
Qed.
Lemma lost_runs_standard n m : is_square n m -> lost_runs m = total line_penalty (m ++ map (column m) (seq 0 n)).
Proof.
  intros [Hn Hm]. unfold lost_runs. rewrite Hn, total_app. set (start := replicate (n + 1) 0%N).
  destruct (weight_fold n (fun line => line) m start) as [H1 H2]; [done|by unfold start; rewrite length_replicate|].
  destruct (weight_fold n (column m) (seq 0 n) _ ltac:(apply list.Forall_forall; intros col _; by rewrite length_column) H2) as [H3 _].
  cbv beta zeta in *. unfold weight at 1 in H3. unfold total at 1 in H3. rewrite H3, H1.
  unfold start. rewrite weight_zero. by unfold total; rewrite map_map.
Qed.


(** *** Level 2 *)

Definition same_block (this next : list bool) (col : nat) : bool :=
  let at_ (line : list bool) col := default false (line !! col) in
  eqb (at_ this (col + 1)) (at_ next (col + 1)) && (eqb (at_ this (col + 1)) (at_ this col) && eqb (at_ this (col + 1)) (at_ next col)).

Lemma seq_cons_total (f : nat -> N) (col n : nat) : col < n -> total f (seq col (n - col)) = (f col + total f (seq (col + 1) (n - (col + 1))))%N.
Proof. intros H. destruct (n - col) as [|k] eqn:Hk; [lia|]. cbn [seq]. rewrite total_cons. repeat f_equal; lia. Qed.
Lemma seq_end_total (f : nat -> N) col n : n <= col -> total f (seq col (n - col)) = 0%N.
Proof. intros H. by replace (n - col) with 0 by lia. Qed.

Lemma blocks_all fuel n this next : forall col lost, n - col <= fuel ->
  blocks fuel n this next col lost = (lost + total (fun col => if same_block this next col then 3 else 0) (seq col (n - 1 - col)))%N.
Proof.
  induction fuel as [|fuel IH]; intros col lost Hf; cbn [blocks].
  - rewrite seq_end_total by lia. lia.
  - destruct (n - 1 <=? col) eqn:Hc; [rewrite seq_end_total by lia; lia|]. rewrite (seq_cons_total) by lia.
    destruct (eqb (default false (this !! (col + 1))) (default false (next !! (col + 1)))) eqn:He; cbn [negb].
    + rewrite IH by lia. unfold same_block at 2. rewrite He. cbn [andb]. destruct (_ && _); lia.
    + (* neither this block nor the next is of one colour *)
      rewrite IH by lia. unfold same_block at 2. rewrite He. cbn [andb]. rewrite N.add_0_l. f_equal.
      destruct (decide (col + 1 < n - 1)); [|rewrite !seq_end_total by lia; done].
      rewrite (seq_cons_total _ (col + 1)) by done. replace (col + 1 + 1) with (col + 2) by lia.
      assert (same_block this next (col + 1) = false) as ->; [|by rewrite N.add_0_l]. unfold same_block.
      destruct (default false (this !! (col + 1))), (default false (next !! (col + 1))); try done; by destruct (default false (this !! (col + 1 + 1))), (default false (next !! (col + 1 + 1))).
Qed.
Lemma same_block_standard m row col : (if same_block (default [] (m !! row)) (default [] (m !! (row + 1))) col then 3%N else 0%N) = block_penalty m row col.
Proof.
  unfold same_block, block_penalty, module_at. cbn [forallb]. destruct (m !! row) as [this|], (m !! (row + 1)) as [next|]; cbn [mbind option_bind from_option id].
  all: rewrite ?lookup_nil; cbn [from_option id]; repeat match goal with |- context [from_option id false (?l !! ?i)] => generalize (from_option id false (l !! i)); intros [] end; done.
Qed.
Lemma lost_blocks_standard m : let n := length m in lost_blocks m = total (fun row => total (block_penalty m row) (seq 0 (n - 1))) (seq 0 (n - 1)).
Proof.
  cbv zeta. unfold lost_blocks. apply total_ext. intros row _. rewrite blocks_all by lia. rewrite N.add_0_l, Nat.sub_0_r.
  apply total_ext. intros col _. apply same_block_standard.
Qed.

(** *** Level 3 *)

Lemma finder_window get at_ : finder get at_ = bool_decide (window get at_ = light_dark_ratio) || bool_decide (window get at_ = reverse light_dark_ratio).
Proof.
  unfold finder, window. cbn [map seq]. rewrite Nat.add_0_r.
  destruct (get at_), (get (at_ + 1)), (get (at_ + 2)), (get (at_ + 3)), (get (at_ + 4)); try reflexivity;
    destruct (get (at_ + 5)), (get (at_ + 6)); try reflexivity; destruct (get (at_ + 7)), (get (at_ + 8)), (get (at_ + 9)), (get (at_ + 10)); reflexivity.
Qed.
Lemma scan_all fuel n get : forall at_ lost, n - at_ <= fuel ->
  scan fuel n get at_ lost = (lost + total (fun at_ => if finder get at_ then 40 else 0) (seq at_ (n - 10 - at_)))%N.
Proof.
  induction fuel as [|fuel IH]; intros at_ lost Hf; cbn [scan].
  - rewrite seq_end_total by lia. lia.
  - destruct (n - 10 <=? at_) eqn:Ha; [rewrite seq_end_total by lia; lia|]. rewrite (seq_cons_total) by lia.
    destruct (get (at_ + 10)) eqn:Hg.
    + rewrite IH by lia. assert (Hnext : finder get (at_ + 1) = false).
      { unfold finder. replace (at_ + 1 + 9) with (at_ + 10) by lia. rewrite Hg. cbn [negb]. by rewrite !andb_false_r. }
      destruct (decide (at_ + 1 < n - 10)); [|rewrite !seq_end_total by lia; destruct (finder get at_); lia].
      rewrite (seq_cons_total _ (at_ + 1)) by done. replace (at_ + 1 + 1) with (at_ + 2) by lia. rewrite Hnext. destruct (finder get at_); lia.
    + rewrite IH by lia. destruct (finder get at_); lia.
Qed.
Lemma scan_standard n get : scan n n get 0 0%N = finder_penalty n get.
Proof.
  rewrite scan_all by lia. rewrite N.add_0_l, Nat.sub_0_r. apply total_ext. intros at_ _. by rewrite finder_window.
Qed.
Lemma finder_penalty_ext n get get' : (forall i, get i = get' i) -> finder_penalty n get = finder_penalty n get'.
Proof. intros H. apply total_ext. intros at_ _. unfold window. by rewrite (map_ext (fun i => get (at_ + i)) (fun i => get' (at_ + i))). Qed.
Lemma column_get m col i : default false (column m col !! i) = module_at m i col.
Proof.
  unfold column. rewrite list_lookup_fmap. destruct (decide (i < length m)).
  - by rewrite lookup_seq_lt.
  - rewrite lookup_seq_ge by lia. unfold module_at. by rewrite (lookup_ge_None_2 m i) by lia.
Qed.
Lemma lost_finders_standard n m : length m = n ->
  lost_finders m = total (fun line : list bool => finder_penalty n (fun i => default false (line !! i))) (m ++ map (column m) (seq 0 n)).
Proof.
  intros Hn. unfold lost_finders. rewrite Hn. destruct (10 <? n) eqn:H10.
  - rewrite total_app. unfold total at 2. rewrite map_map. f_equal; apply total_ext; intros x _; rewrite scan_standard; [done|].
    apply finder_penalty_ext. intros i. by rewrite column_get.
  - assert (Hz : forall (l : list (list bool)), total (fun line : list bool => finder_penalty n (fun i => default false (line !! i))) l = 0%N); [|by rewrite Hz].
    intros l. induction l as [|line l IH]; [done|]. rewrite total_cons, IH. unfold finder_penalty. by replace (n - 10) with 0 by lia.
Qed.

(** The shortcuts of the score skip nothing. For a square of modules, the loops of [lost_point], which leave out
    a column after a mismatch and a place after a dark eleventh module, count every two by two block and every finder
    pattern of every row and column, and the runs as the standard does. *)
Theorem lost_point_standard m (Hm : is_square (length m) m) : lost_point m = standard_score m.
Proof. unfold lost_point, standard_score. by rewrite (lost_runs_standard (length m)), lost_blocks_standard, (lost_finders_standard (length m)). Qed.

(** *** What is made light before the score *)

Lemma module_at_light row col m r c : module_at (set_light row col m) r c = if (r =? row) && (c =? col) then false else module_at m r c.
Proof.
  unfold module_at, set_light. destruct (decide (row = r)) as [<-|Hr].
  - rewrite list_lookup_alter_eq, Nat.eqb_refl. destruct (m !! row) as [line|]; cbn; [|by destruct (c =? col)].
    destruct (decide (col = c)) as [<-|Hc]; [|by rewrite list_lookup_insert_ne, (proj2 (Nat.eqb_neq _ _)) by congruence].
    rewrite Nat.eqb_refl. destruct (decide (col < length line)); [by rewrite list_lookup_insert_eq|].
    by rewrite lookup_ge_None_2 by (rewrite length_insert; lia).
  - by rewrite list_lookup_alter_ne, (proj2 (Nat.eqb_neq _ _)) by congruence.
Qed.
Lemma length_light row col m : length (set_light row col m) = length m.
Proof. apply length_alter. Qed.

(** Setting a list of modules light. *)
Definition set_all (cells : list (nat * nat)) (m : Modules) : Modules := fold_left (fun m cell => set_light cell.1 cell.2 m) cells m.
Definition listed (r c : nat) (cells : list (nat * nat)) : bool := existsb (fun cell => (r =? cell.1) && (c =? cell.2)) cells.
Lemma module_at_set_all cells r c : forall m, module_at (set_all cells m) r c = if listed r c cells then false else module_at m r c.
Proof.
  induction cells as [|[row col] cells IH]; intros m; [done|]. cbn [set_all fold_left listed existsb fst snd]. unfold set_all in IH. rewrite IH, module_at_light.
  unfold listed. by destruct ((r =? row) && (c =? col)), (existsb _ _).
Qed.

(** The places of the format information, with the dark module, and of the version information. *)
Definition format_cells (n : nat) : list (nat * nat) :=
  flat_map (fun i => [(if i <? 6 then i else if i <? 8 then i + 1 else n - 15 + i, 8); (8, if i <? 8 then n - i - 1 else if i <? 9 then 7 else 14 - i)]) (seq 0 15) ++ [(n - 8, 8)].
Definition version_cells (n : nat) : list (nat * nat) := flat_map (fun i => [(i / 3, i mod 3 + n - 11); (i mod 3 + n - 11, i / 3)]) (seq 0 18).
Lemma clear_information_cells m version :
  clear_information m version = set_all (format_cells (length m) ++ if (7 <=? version)%Z then version_cells (length m) else []) m.
Proof. unfold clear_information, set_all, format_cells, version_cells. rewrite !fold_left_app. by destruct (7 <=? version)%Z. Qed.

(** In the code of a version: beside the finder patterns, and two blocks of eighteen from version seven on. *)
Definition information (n : nat) (version : Z) (r c : nat) : bool :=
  ((c =? 8) && ((r <? 9) && negb (r =? 6) || (n - 8 <=? r) && (r <? n))) || ((r =? 8) && ((c <? 9) && negb (c =? 6) || (n - 8 <=? c) && (c <? n)))
  || ((7 <=? version)%Z && ((r <? 6) && (n - 11 <=? c) && (c <? n - 8) || (c <? 6) && (n - 11 <=? r) && (r <? n - 8))).

Lemma listed_in r c cells : listed r c cells = true <-> (r, c) ∈ cells.
Proof.
  unfold listed. rewrite existsb_exists, list_elem_of_In. split.
  - intros ([row col] & Hin & Hrc). cbn in Hrc. apply andb_true_iff in Hrc as [->%Nat.eqb_eq ->%Nat.eqb_eq]. done.
  - intros Hin. exists (r, c). split; [done|]. cbn. by rewrite !Nat.eqb_refl.
Qed.
Lemma in_pairs (f g : nat -> nat * nat) k p : p ∈ flat_map (fun i => [f i; g i]) (seq 0 k) <-> exists i, i < k /\ (p = f i \/ p = g i).
Proof.
  rewrite list_elem_of_In, in_flat_map. split.
  - intros (i & Hi%in_seq & [H|[H|[]]]); exists i; split; (lia || auto).
  - intros (i & Hi & H). exists i. rewrite in_seq. split; [lia|]. cbn. destruct H; auto.
Qed.

Lemma format_cells_listed n r c : 21 <= n -> listed r c (format_cells n) =
  ((c =? 8) && ((r <? 9) && negb (r =? 6) || (n - 8 <=? r) && (r <? n))) || ((r =? 8) && ((c <? 9) && negb (c =? 6) || (n - 8 <=? c) && (c <? n))).
Proof.
  intros Hn. apply eq_true_iff_eq. rewrite listed_in. unfold format_cells. rewrite elem_of_app, in_pairs, list_elem_of_singleton. split.
  - intros [(i & Hi & [[= -> ->]|[= -> ->]])|[= -> ->]]; [destruct (i <? 6) eqn:?, (i <? 8) eqn:?|destruct (i <? 8) eqn:?, (i <? 9) eqn:?|]; lia.
  - intros H. destruct (decide (c = 8 /\ r = n - 8)) as [[-> ->]|Hd]; [by right|]. left.
    destruct (decide (c = 8)) as [->|Hc].
    + exists (if r <? 6 then r else if r <? 9 then r - 1 else r - (n - 15)).
      destruct (r <? 6) eqn:?, (r <? 9) eqn:?; (split; [lia|left; f_equal]); repeat case_match; lia.
    + exists (if c <? 6 then 14 - c else if c <? 9 then 8 else n - 1 - c).
      destruct (c <? 6) eqn:?, (c <? 9) eqn:?; (split; [lia|right; f_equal]); repeat case_match; lia.
Qed.
Lemma version_cells_listed n r c : 45 <= n -> listed r c (version_cells n) =
  (r <? 6) && (n - 11 <=? c) && (c <? n - 8) || (c <? 6) && (n - 11 <=? r) && (r <? n - 8).
Proof.
  intros Hn. apply eq_true_iff_eq. rewrite listed_in. unfold version_cells. rewrite in_pairs.
  assert (Hdiv : forall a b, a < 6 -> n - 11 <= b < n - 8 -> let i := 3 * a + (b - (n - 11)) in i < 18 /\ i / 3 = a /\ i mod 3 + n - 11 = b).
  { intros a b Ha Hb i. assert (Hi : i = 3 * a + (b - (n - 11))) by done. clearbody i. pose proof (Nat.div_mod_eq i 3). pose proof (Nat.mod_upper_bound i 3). lia. }
  split.
  - intros (i & Hi & H). pose proof (Nat.div_mod_eq i 3) as Hi3. pose proof (Nat.mod_upper_bound i 3 ltac:(lia)) as Hb.
    remember (i / 3) as a eqn:Ha. remember (i mod 3) as b eqn:Hb'. clear Ha Hb'. destruct H as [[= -> ->]|[= -> ->]]; lia.
  - intros H. destruct (decide (r < 6 /\ n - 11 <= c < n - 8)) as [[Hr Hc]|Hd].
    + destruct (Hdiv r c Hr Hc) as (H1 & H2 & H3). eexists. split; [exact H1|]. left. by rewrite H2, H3.
    + destruct (Hdiv c r ltac:(lia) ltac:(lia)) as (H1 & H2 & H3). eexists. split; [exact H1|]. right. by rewrite H2, H3.
Qed.

(** In the matrix of a version, exactly the information is made light. *)
Lemma clear_information_light m version r c : length m = width version -> (1 <= version)%Z ->
  module_at (clear_information m version) r c = if information (length m) version r c then false else module_at m r c.
Proof.
  intros Hn Hv. rewrite clear_information_cells, module_at_set_all. unfold information, listed, width in *. rewrite existsb_app.
  pose proof (format_cells_listed (length m) r c ltac:(lia)) as Hf. unfold listed in Hf. rewrite Hf.
  destruct (7 <=? version)%Z eqn:H7; cbn [andb existsb]; [|done]. pose proof (version_cells_listed (length m) r c ltac:(lia)) as Hw. unfold listed in Hw. by rewrite Hw.
Qed.

(** ** The matrix *)

(** From a best mask on: it stays, or the first lowest of the rest, below it, takes its place. *)
Lemma best_mask_spec score masks : forall lowest b, exists l k, best_mask score (Some (lowest, b)) masks = Some (l, k) /\
  ((l = lowest /\ k = b /\ forall x, x ∈ masks -> (lowest <= score x)%N)
   \/ exists before after, masks = before ++ k :: after /\ l = score k /\ (l < lowest)%N
        /\ (forall x, x ∈ before -> (l < score x)%N) /\ forall x, x ∈ after -> (l <= score x)%N).
Proof.
  induction masks as [|mask masks IH]; intros lowest b; cbn [best_mask]; [eexists _, _; split; [done|]; left; split_and!; [done..|set_solver]|].
  destruct (score mask <? lowest)%N eqn:Hs.
  - destruct (IH (score mask) mask) as (l & k & -> & [(-> & -> & Ha)|(before & after & -> & -> & Hl & Hb & Ha)]); eexists _, _; (split; [done|]); right.
    + exists [], masks. split_and!; [done|done|lia|set_solver|done].
    + exists (mask :: before), after. split_and!; [done|done|lia| |done]. intros x [->|Hx]%elem_of_cons; [done|by apply Hb].
  - destruct (IH lowest b) as (l & k & -> & [(-> & -> & Ha)|(before & after & -> & -> & Hl & Hb & Ha)]); eexists _, _; (split; [done|]).
    + left. split_and!; [done|done|]. intros x [->|Hx]%elem_of_cons; [lia|by apply Ha].
    + right. exists (mask :: before), after. split_and!; [done|done|done| |done]. intros x [->|Hx]%elem_of_cons; [lia|by apply Hb].
Qed.

Section matrix.
Context {QC : QrCrate}.

(** The matrix is the code under the first mask of the lowest score. What is drawn is the codewords of the
    segments at the smallest version, under a mask that scores no higher than any and lower than every one tried
    before it; and there is no matrix only when no version fits or the codewords could not be made. *)
Theorem matrix_chosen data : match matrix data with
  | Ok m => exists v words mask before after, best_fit (segments data) 1 = Ok v /\ codewords (segments data) v = Some words /\ MASKS = before ++ mask :: after
      /\ let canvas := draw_data words.1 words.2 (blank_canvas v) in
         m = rows (into_colors (apply_mask mask canvas)) (width v)
         /\ (forall other, other ∈ before -> (mask_score canvas v mask < mask_score canvas v other)%N)
         /\ forall other, other ∈ after -> (mask_score canvas v mask <= mask_score canvas v other)%N
  | Err _ => (exists e, best_fit (segments data) 1 = Err e) \/ exists v, best_fit (segments data) 1 = Ok v /\ codewords (segments data) v = None
  end.
Proof.
  unfold matrix. destruct (best_fit _ _) as [v|e]; cbn [mbind result_bind]; [|left; by eexists].
  destruct (codewords _ v) as [words|] eqn:Hw; cbn [ok_or mbind result_bind]; [|right; by exists v].
  set (score := mask_score _ v). change MASKS with (Checkerboard :: drop 1 MASKS). cbn [best_mask].
  destruct (best_mask_spec score (drop 1 MASKS) (score Checkerboard) Checkerboard) as (l & k & -> & Hk). cbn [ok_or mbind result_bind snd].
  destruct Hk as [(-> & -> & Ha)|(before & after & -> & -> & Hl & Hb & Ha)].
  - exists v, words, Checkerboard, [], (drop 1 MASKS). split_and!; try done. set_solver.
  - exists v, words, k, (Checkerboard :: before), after. split_and!; try done. intros x [->|Hx]%elem_of_cons; [done|by apply Hb].
Qed.
End matrix.

(** ** The picture *)

(** Numbers before something that is no digit. *)
Lemma fmt_nat_split a b sep X Y : is_digit sep = false -> fmt_nat a +:+ String sep X = fmt_nat b +:+ String sep Y -> a = b /\ X = Y.
Proof.
  intros Hs Heq. pose proof (span_s_stop is_digit (fmt_nat a) sep X (fmt_N_digits _) Hs) as Ha.
  pose proof (span_s_stop is_digit (fmt_nat b) sep Y (fmt_N_digits _) Hs) as Hb. rewrite Heq, Hb in Ha. injection Ha as H1 H2.
  split; [|done]. apply fmt_N_inj in H1. lia.
Qed.

Definition square_text (p : nat * nat) : string := square p.1 p.2.
Lemma square_split p q X Y : square_text p +:+ X = square_text q +:+ Y -> p = q /\ X = Y.
Proof.
  destruct p as [r c], q as [r' c']. unfold square_text, square. cbn [fst snd]. rewrite !app_assoc_s. intros H. apply app_inj_l_s in H.
  rewrite !app_cons_s, !app_nil_s in H. apply fmt_nat_split in H as [Hc H]; [|done]. apply fmt_nat_split in H as [Hr H]; [|done].
  assert (c = c') as -> by lia. assert (r = r') as -> by lia. split; [done|]. apply fmt_nat_split in H as [_ H]; [|done].
  apply fmt_nat_split in H as [_ H]; [|done]. by apply fmt_nat_split in H as [_ H].
Qed.
Lemma squares_inj l : forall k, join EmptyString (map square_text l) = join EmptyString (map square_text k) -> l = k.
Proof.
  assert (Hne : forall p X, square_text p +:+ X <> EmptyString) by (intros [r c] X; unfold square_text, square; by rewrite app_assoc_s, app_cons_s).
  induction l as [|p l IH]; intros [|q k]; cbn [map]; rewrite ?join_nil_cons; intros H; [done| | |].
  - by destruct (Hne q (join EmptyString (map square_text k))).
  - by destruct (Hne p (join EmptyString (map square_text l))).
  - apply square_split in H as [-> H]. f_equal. by apply IH.
Qed.

(** The dark modules, row by row. *)
Definition line_cells (row : nat) (line : list bool) : list (nat * nat) := concat (imap (fun col (dark : bool) => if dark then [(row, col)] else []) line).
Definition dark_cells (m : Modules) : list (nat * nat) := concat (imap line_cells m).

Lemma join_imap {A B} (f : nat -> A -> string) (g : B -> string) (h : nat -> A -> list B) l :
  (forall i x, f i x = join EmptyString (map g (h i x))) -> join EmptyString (imap f l) = join EmptyString (map g (concat (imap h l))).
Proof.
  revert f h. induction l as [|x l IH]; intros f h H; [done|]. rewrite !imap_cons, join_nil_cons. cbn [concat].
  rewrite map_app, join_app_nil, H. f_equal. apply IH. intros i y. apply H.
Qed.
Lemma path_cells m : path_of m = join EmptyString (map square_text (dark_cells m)).
Proof. apply join_imap. intros row line. apply join_imap. by intros col [|]. Qed.

Lemma in_concat_imap {A B} (h : nat -> A -> list B) p l : p ∈ concat (imap h l) <-> exists i x, l !! i = Some x /\ p ∈ h i x.
Proof.
  revert h. induction l as [|x l IH]; intros h.
  - split; [by intros ?%not_elem_of_nil|by intros (i & x & Hi & _)].
  - rewrite imap_cons. cbn [concat]. rewrite elem_of_app, IH. split.
    + intros [Hp|(i & y & Hi & Hp)]; [by exists O, x|by exists (S i), y].
    + intros ([|i] & y & Hi & Hp); [injection Hi as ->; by left|right; by exists i, y].
Qed.
Lemma in_dark_cells m r c : (r, c) ∈ dark_cells m <-> module_at m r c = true.
Proof.
  unfold dark_cells, line_cells, module_at. rewrite in_concat_imap. split.
  - intros (i & line & Hi & Hp). apply in_concat_imap in Hp as (j & [|] & Hj & Hp); [|by apply not_elem_of_nil in Hp].
    apply list_elem_of_singleton in Hp as [= -> ->]. rewrite Hi. cbn. by rewrite Hj.
  - intros H. destruct (m !! r) as [line|] eqn:Hr; [|done]. cbn in H. destruct (line !! c) as [[|]|] eqn:Hc; try done.
    exists r, line. split; [done|]. apply in_concat_imap. exists c, true. split; [done|]. by apply list_elem_of_singleton.
Qed.

Lemma square_modules_eq n m m' : is_square n m -> is_square n m' -> (forall r c, module_at m r c = module_at m' r c) -> m = m'.
Proof.
  intros [Hm Fm] [Hm' Fm'] H. apply (list_eq_same_length _ _ n); [done|done|]. intros r line line' Hr Hl Hl'.
  apply (list_eq_same_length _ _ n).
  - rewrite list.Forall_forall in Fm'. apply Fm'. by eapply list_elem_of_lookup_2.
  - rewrite list.Forall_forall in Fm. apply Fm. by eapply list_elem_of_lookup_2.
  - intros c x y _ Hx Hy. specialize (H r c). unfold module_at in H. rewrite Hl, Hl' in H. cbn in H. by rewrite Hx, Hy in H.
Qed.

Lemma app_inj_r_s a b s : a +:+ s = b +:+ s -> a = b.
Proof.
  revert b. induction a as [|x a IH]; intros [|y b] H; [done| | |].
  - apply (f_equal String.length) in H. rewrite !length_app_s in H. cbn in H. lia.
  - apply (f_equal String.length) in H. rewrite !length_app_s in H. cbn in H. lia.
  - rewrite !app_cons_s in H. injection H as -> H. f_equal. by apply IH.
Qed.

(** A picture is of one matrix. Two squares of modules, of any sizes, with the same SVG text are the same. *)
Theorem svg_injective m m' (Hm : is_square (length m) m) (Hm' : is_square (length m') m') (Heq : svg m = svg m') : m = m'.
Proof.
  unfold svg, quoted in Heq. do 3 apply app_inj_l_s in Heq. rewrite !app_assoc_s in Heq. apply app_inj_l_s in Heq.
  destruct (fmt_nat_split _ _ "m"%char _ _ eq_refl Heq) as [Hn _]. assert (Hl : length m = length m') by lia.
  rewrite Hl in Heq. repeat apply app_inj_l_s in Heq. apply app_inj_r_s in Heq. rewrite !path_cells in Heq. apply squares_inj in Heq.
  apply (square_modules_eq (length m')); [by rewrite <-Hl|done|]. intros r c. apply eq_true_iff_eq. by rewrite <-!in_dark_cells, Heq.
Qed.

(** ** Witnesses *)

(** The smallest code's side, with blocks, runs and a finder pattern in its first line. *)
Definition sample_modules : Modules :=
  (light_dark_ratio ++ replicate 10 true) :: map (fun row => map (fun col => Nat.even (row * col / 2)) (seq 0 21)) (seq 1 20).
Lemma sample_is_square : is_square (length sample_modules) sample_modules.
Proof. split; [done|]. apply (bool_decide_unpack _). by vm_compute. Qed.
Lemma lost_point_standard_witness : lost_point sample_modules = standard_score sample_modules /\ (0 <? lost_point sample_modules)%N = true.
Proof. split; [exact (lost_point_standard sample_modules sample_is_square)|by vm_compute]. Defined.
